(* ===== verification/_CoqProject ===== *)
-Q . S2P
Prelude.v
Mem.v
Ports.v
CString.v
Mmu.v
Seg.v
Kalloc.v
Vm.v
VmSpec.v
CopySpec.v
Param.v
Printf.v
Kbd.v
Grep.v
Umalloc.v
Usys.v
Sh.v
ShSpec.v
ShGrammar.v
Utils.v
UtilsSpec.v
PolicyTest.v
Proc.v
ProcSpec.v
Wakeup.v
Sched.v
Accounting.v
Syscall.v
SyscallSpec.v
Spinlock.v
Console.v
Sleeplock.v
Pipe.v
Bio.v
BioSpec.v
Log.v
LogSpec.v
LogCrash.v
Inode.v
Fs.v
FsSpec.v
DirSpec.v
File.v
ProcLife.v
Exec.v
Sysfile.v
Trap.v
LifeSpec.v
Preempt.v
ForkSpec.v
InitSpec.v
Mp.v
Apic.v
Start.v
StartSpec.v
MainSpec.v
Ide.v
IdeSpec.v
Boot.v
Mkfs.v
MkfsSpec.v
MkfsImage.v
