(* ===== verification/Prelude.v ===== *)
(** * A verification of the kernel and the user programs of this xv6

    The program is xv6 for the x86, changed: the scheduler has four policies
    (plain, round robin, by priority, and four queues served in turn), each
    process keeps a history of its system calls and accounts for its running,
    ready and sleeping time, and there are system calls to read and set these.

    ** How the code is modelled

    C functions are functions of the monad [K S A] of this file: they take the
    list of locks held and a state [S], and end in [Ok] with a result, in
    [Panic] (the kernel's [panic]), in [Fault] (an access the C code does not
    check: a null pointer, an index outside an array) or in [Sleep] (the
    process waits and the CPU is given away).  Integers are [Z] with the
    wrap-around of their C type written out ([u8], [u16], [u32], [i16], [i32]).
    Memory is a function from addresses to bytes (Mem.v).  A struct is a record,
    and [p <| f := v |>] stands for [p->f = v].  A pointer into a table is an
    index.  The state of a component contains the states of those it calls, and
    [zoom] runs a function on its part.

    ** The parts, from the bottom up

    - Prelude, Mem: integers, lists, rings, the monad, records, memory.
    - CString: string.c, the string instructions of x86.h, ulib.c.
    - Mmu, Seg, Param: mmu.h, memlayout.h, param.h, constants of proc.h, fs.h.
    - Kalloc: kalloc.c, the free list threaded through the free pages.
    - Vm, VmSpec: vm.c, two-level page tables as words in memory.  CopySpec: building
      and copying an address space.
    - Ports: the port instructions of x86.h, and the disk controller as a class
      of machines.
    - Printf: printf.c and the formatting of [cprintf]; Kbd: kbd.h, kbd.c.
    - Grep: grep.c; Umalloc: umalloc.c, the ring of free blocks in memory.
    - Usys: the system calls as user programs see them (user.h, usys.S), as the
      nodes of a tree [prog A] of calls and continuations, with the part of
      ulib.c and printf.c that calls the system.  Sh, ShSpec, ShGrammar: sh.c.
      Utils, UtilsSpec: cat, echo, wc, ls, kill, ln, mkdir, rm, init, zombie,
      forktest, stressfs and the tests of the added calls.  PolicyTest:
      policyTest.c.
    - Proc, ProcSpec: the process table and the operations of proc.c on it,
      with sleep and wakeup.  Wakeup: the steps of [sleep] against those of
      [wakeup].  Sched: [findPriority], one round of [scheduler], [switchuvm],
      [switchkvm].  Accounting: the time counters of a process over its life.
    - Syscall, SyscallSpec: syscall.c and the calls of sysproc.c that need no
      more than the process table.
    - Spinlock: spinlock.c with several CPUs and interrupt flags; it justifies
      the list of held locks that all other files use.  Sleeplock: sleeplock.c.
    - Console: console.c, uart.c, the keyboard interrupt, [procdump] and
      [getchildren] of proc.c.
    - Pipe: pipe.c.
    - Bio, BioSpec: bio.c over memide.c.  Log, LogSpec, LogCrash: log.c.
    - Inode, Fs: fs.c and the console as a device; FsSpec, DirSpec: what they
      promise.
    - File: file.c and [pipealloc].  ProcLife: [userinit], [forkret],
      [growproc], [fork], [exit], [wait] of proc.c.  Exec: exec.c, elf.h.
      Sysfile: sysfile.c.  Trap: trap.c, the table of system calls and those
      of sysproc.c that need the whole state.  LifeSpec: what the life of a
      process and the traps promise.  Preempt: runs of timer traps.  ForkSpec: what [fork] promises.  InitSpec:
      the first process.
    - Mp: mp.c, mp.h.  Apic: lapic.c, ioapic.c, picirq.c.  Start, StartSpec: main.c,
      [uartinit], [panic], [idtinit] and [ideinit]; MainSpec: the state in which
      [main] enters the scheduler.  Ide, IdeSpec: ide.c,
      the driver of a real disk (memide.c is the disk of the layers above).
      Boot: bootmain.c.
    - Mkfs, MkfsSpec, MkfsImage: mkfs.c, the program of the build that makes the
      first file system.

    A file with [Spec] in its name, Wakeup, Accounting, Preempt, LogCrash and
    MkfsImage hold theorems about the definitions of the others; small components have theirs in the same file.

    ** What the theorems show

    Memory.  No page is handed out twice, address spaces stay isolated, growing
    gives zeroed pages or leaves nothing behind, [growproc] keeps the mapped
    pages equal to the size, [copyout] writes where it should, [fork] makes a
    copy of a process that shares no page with it and loses no page when it
    fails, and [wait] returns exactly the memory of the dead child to the allocator.

    Concurrency.  Spin locks exclude each other in every interleaving and refine
    the abstract lock; in every interleaving of the steps of [sleep] with those
    of a [wakeup] that follows the change of the condition, no wakeup is lost;
    sleep locks exclude each other over any number of processes; pipes and the
    log behave as promised around every wait; the last part of [exit] wakes
    whoever waits for it.

    Storage.  The buffer cache shows one view of the disk, a commit cut at any
    of its writes recovers to all or nothing, [writei] and [readi] are inverse,
    inodes survive the trip to disk, [dirlookup] finds the first entry of a
    name, and [iget] keeps one entry per inode.  The IDE driver serves the
    requests of any number of processes in order, and the boot loader brings the
    segments of the kernel to their place.  On the image that mkfs makes the
    kernel finds every file under its name, with the bytes that were given.

    Scheduling.  One round keeps the table well formed under every policy,
    and switches only to processes that are runnable; [findPriority] is optimal
    for its order, the round robin queue is fair, a process returns from fewer
    than [QUANTUM] timer traps in a row, and the time counters add up to the age
    of a process but for an excess that is stated for each event.

    Start.  From the state that the boot loader leaves, [main] reaches the scheduler
    with every page of memory in one use, the kernel's tables complete, the
    processors called and started, and the first process ready ([main_boots]).

    Interfaces.  System call arguments stay inside the process, the dispatcher
    and its history, the interrupt gates, what the keyboard driver makes of any
    sequence of keys, the line discipline of the console, formatted output, the tables of the firmware and
    the routing of interrupts.

    User programs.  The pattern matcher and the line reader of grep; the shell
    accepts exactly its grammar and forks, waits and executes exactly as a script
    asks for, each program with the right descriptors; cat and wc print and count every file
    they are given; [malloc] and [free] keep every block that a program holds
    apart and intact.

    Some theorems state that the code goes wrong, with the input that shows it:
    [reserved_write_panics], [growproc_to_zero], [exit_overflows_infos],
    [setqueue_out_of_bounds], [setPriority_counts], [getchildren_null_parent],
    [getsyscallcounter_empty], [sys_getinfo_off_by_one], [uva2ka_no_table],
    [findPriority_leaves_queue], [yield_counts_twice], [allocproc_fails],
    [grep_loses_partial_line], [umemmove_smears], [rr_group_moves_junk],
    [malloc_wraps], [malloc_two_gb], [mpinit_hangs], [mpsearch_skips_low_rom],
    [failed_read_is_valid], [mkfs_full_directory], [ialloc_past_end].

    ** Parameters, bounds and fuel

    What other processes do while one is switched out is the parameter [swtch];
    addresses the linker chooses ([end], the addresses of locks, [trapret])
    are parameters.  The bytes devices deliver are arguments.  The machines of
    Ports.v and Apic.v are type classes: operations, and laws that the manuals of
    the chips state; each has an instance that runs.  What the system answers to
    a user program is a parameter too (the classes of UtilsSpec.v, the [starts]
    of ShSpec.v, [grow] of Umalloc.v), and so is what the host answers to mkfs.
    Loops that are not structural take fuel: the theorems state how much is
    enough, or the definition computes it from the data (one step per page, block, directory
    entry or byte of the loop's range).  [turns] bounds how often one call waits.
    From File.v up a call that must wait ends in [Sleep] instead of being
    resumed; Wakeup, Sleeplock, Pipe, LogCrash and Proc cover what happens then.

    ** Not modelled

    Assembly, usertests.c (a suite of calls
    with expected results) and roundrobinTest.c (its loops overflow an [int], which C leaves undefined).  Timing of devices,
    and caches and weak memory below the exchange instruction, are outside the
    model.  The messages [allocuvm] prints are left out, since its state has no
    console. *)

From stdpp Require Import base numbers list list_numbers sets strings.
From Stdlib Require Import ZArith Lia.

Declare Scope xv6_scope.
Delimit Scope xv6_scope with xv6.
Open Scope xv6_scope.
Open Scope Z_scope.

Create HintDb xv6.

(** [lia] with the defining equations of [/], [mod], [Z.quot] and [Z.rem]. *)
Ltac dlia := Z.to_euclidean_division_equations; lia.

(** ** Functional update of record fields

    C code assigns to one field of a struct; the model writes
    [p <| state := RUNNABLE |>] for [p->state = RUNNABLE] and
    [p <| refcnt ::= Z.succ |>] for [p->refcnt++].  A record opts in with one
    [Eta] instance; setters are derived from it. *)

Class Eta (R : Type) := eta : R -> R.
Class Setter {R E : Type} (g : R -> E) := upd : (E -> E) -> R -> R.
Arguments upd {R E} g {Setter} f r /.

Ltac solve_setter :=
  lazymatch goal with
  | |- @Setter ?R ?E ?g =>
    let i := constr:(ltac:(typeclasses eauto) : Eta R) in
    let e := eval cbv delta [eta] in i in
    let b := eval red in e in
    let p := eval pattern g in b in
    lazymatch p with
    | ?f _ =>
      let t := eval cbv beta in (fun u : E -> E => f (fun r => u (g r))) in
      exact t
    end
  end.

#[export] Hint Extern 1 (@Setter _ _ _) => solve_setter : typeclass_instances.

Notation "x <| p ::= f |>" := (upd p f x)
  (at level 1, f at level 99, left associativity, format "x <| p  ::=  f |>")
  : xv6_scope.
Notation "x <| p := v |>" := (upd p (fun _ => v) x)
  (at level 1, v at level 99, left associativity, format "x <| p  :=  v |>")
  : xv6_scope.

(** ** Machine integers

    [uint] and [int] of types.h are 32 bits wide; values are kept as [Z] and
    every operation that can leave the range is wrapped explicitly. *)

Definition u32 (x : Z) : Z := x mod 2 ^ 32.
Definition i32 (x : Z) : Z := (x + 2 ^ 31) mod 2 ^ 32 - 2 ^ 31.
Definition u16 (x : Z) : Z := x mod 2 ^ 16.
Definition i16 (x : Z) : Z := (x + 2 ^ 15) mod 2 ^ 16 - 2 ^ 15.
Definition u8 (x : Z) : Z := x mod 2 ^ 8.

(** C's [if (x)] on an integer. *)
Definition nz (x : Z) : bool := negb (x =? 0).

Definition is_u32 (x : Z) : Prop := 0 <= x < 2 ^ 32.

Lemma u32_small x : 0 <= x < 2 ^ 32 -> u32 x = x.
Proof. unfold u32. intros. apply Z.mod_small. lia. Qed.

Lemma u32_range x : 0 <= u32 x < 2 ^ 32.
Proof. unfold u32. apply Z.mod_pos_bound. lia. Qed.

Lemma i32_small x : - 2 ^ 31 <= x < 2 ^ 31 -> i32 x = x.
Proof. unfold i32. intros. rewrite Z.mod_small; lia. Qed.

Lemma u8_range x : 0 <= u8 x < 256.
Proof. unfold u8. change (2 ^ 8) with 256. apply Z.mod_pos_bound. lia. Qed.

Lemma u8_small x : 0 <= x < 256 -> u8 x = x.
Proof. unfold u8. change (2 ^ 8) with 256. intros. apply Z.mod_small. lia. Qed.

Lemma u32_add_l x y : u32 (u32 x + y) = u32 (x + y).
Proof. unfold u32. apply Zplus_mod_idemp_l. Qed.

Lemma u32_sub_l x y : u32 (u32 x - y) = u32 (x - y).
Proof. unfold u32. apply Zminus_mod_idemp_l. Qed.

Lemma u32_sub_r x y : u32 (x - u32 y) = u32 (x - y).
Proof. unfold u32. apply Zminus_mod_idemp_r. Qed.

(** Equality of machine words: congruence modulo [2^32].  [i32] and [u32]
    choose representatives, so wrapped sums and differences can be rewritten
    under it as if they did not overflow. *)
Definition eqm (x y : Z) : Prop := u32 x = u32 y.
Infix "≡32" := eqm (at level 70, no associativity) : xv6_scope.

#[export] Instance eqm_equiv : Equivalence eqm.
Proof. split; unfold eqm; repeat intro; congruence. Qed.

#[export] Instance eqm_add : Proper (eqm ==> eqm ==> eqm) Z.add.
Proof. intros x x' Hx y y' Hy. unfold eqm, u32 in *. rewrite Zplus_mod, Hx, Hy. by rewrite <- Zplus_mod. Qed.

#[export] Instance eqm_sub : Proper (eqm ==> eqm ==> eqm) Z.sub.
Proof. intros x x' Hx y y' Hy. unfold eqm, u32 in *. rewrite Zminus_mod, Hx, Hy. by rewrite <- Zminus_mod. Qed.

Lemma u32_eqm x : u32 x ≡32 x.
Proof. unfold eqm, u32. apply Zmod_mod. Qed.

Lemma i32_eqm x : i32 x ≡32 x.
Proof.
  unfold eqm, u32, i32. rewrite Zminus_mod_idemp_l. f_equal. lia.
Qed.

Lemma eqm_eq x y : x = y -> x ≡32 y.
Proof. by intros ->. Qed.

(** ** Arrays

    A C array is a list; an index is a [Z].  A read or write outside the
    array has no value: the caller turns [None] into a [Fault]. *)

Definition aget {A} (l : list A) (i : Z) : option A :=
  if 0 <=? i then l !! Z.to_nat i else None.

Definition aset {A} (l : list A) (i : Z) (x : A) : option (list A) :=
  if (0 <=? i) && (i <? Z.of_nat (length l)) then Some (<[Z.to_nat i := x]> l)
  else None.

Lemma aget_Some {A} (l : list A) i x :
  aget l i = Some x -> 0 <= i < Z.of_nat (length l) /\ l !! Z.to_nat i = Some x.
Proof.
  unfold aget. destruct (Z.leb_spec 0 i); [|done]. intros Hx.
  pose proof (lookup_lt_Some _ _ _ Hx). split; [lia|done].
Qed.

Lemma aget_in {A} (l : list A) i :
  0 <= i < Z.of_nat (length l) -> exists x, aget l i = Some x.
Proof.
  intros Hi. destruct (lookup_lt_is_Some_2 l (Z.to_nat i)) as [x Hx]; [lia|].
  exists x. unfold aget. destruct (Z.leb_spec 0 i); [done|lia].
Qed.

Lemma aget_out {A} (l : list A) i :
  ~ (0 <= i < Z.of_nat (length l)) -> aget l i = None.
Proof.
  intros Hi. unfold aget. destruct (Z.leb_spec 0 i); [|done].
  apply lookup_ge_None. lia.
Qed.

Lemma aget_of_nat {A} (l : list A) (n : nat) : aget l (Z.of_nat n) = l !! n.
Proof. unfold aget. destruct (Z.leb_spec 0 (Z.of_nat n)); [|lia]. by rewrite Nat2Z.id. Qed.

Lemma aset_in {A} (l : list A) i x :
  0 <= i < Z.of_nat (length l) -> aset l i x = Some (<[Z.to_nat i := x]> l).
Proof.
  intros Hi. unfold aset.
  destruct (Z.leb_spec 0 i), (Z.ltb_spec i (Z.of_nat (length l))); simpl; (done || lia).
Qed.

Lemma aset_out {A} (l : list A) i x :
  ~ (0 <= i < Z.of_nat (length l)) -> aset l i x = None.
Proof.
  intros Hi. unfold aset.
  destruct (Z.leb_spec 0 i), (Z.ltb_spec i (Z.of_nat (length l))); simpl; (done || lia).
Qed.

Lemma aset_Some {A} (l l' : list A) i x :
  aset l i x = Some l' ->
  0 <= i < Z.of_nat (length l) /\ l' = <[Z.to_nat i := x]> l.
Proof.
  unfold aset.
  destruct (Z.leb_spec 0 i), (Z.ltb_spec i (Z.of_nat (length l))); simpl; try done.
  intros [= <-]. split; [lia|done].
Qed.

Lemma aset_length {A} (l l' : list A) i x :
  aset l i x = Some l' -> length l' = length l.
Proof. intros [_ ->]%aset_Some. apply length_insert. Qed.

Lemma aget_insert_eq {A} (l : list A) i x :
  0 <= i < Z.of_nat (length l) -> aget (<[Z.to_nat i := x]> l) i = Some x.
Proof.
  intros Hi. unfold aget. destruct (Z.leb_spec 0 i); [|lia].
  apply list_lookup_insert_eq. lia.
Qed.

Lemma aget_insert_ne {A} (l : list A) i j x :
  0 <= j -> i <> j -> aget (<[Z.to_nat j := x]> l) i = aget l i.
Proof.
  intros Hj Hij. unfold aget. destruct (Z.leb_spec 0 i); [|done].
  apply list_lookup_insert_ne. lia.
Qed.

(** Removing an element that is not there. *)
Lemma filter_absent {A} `{!EqDecision A} (k : A) (l : list A) :
  k ∉ l -> filter (fun x => x <> k) l = l.
Proof.
  induction l as [|x l IH]; intros Hk; [done|]. rewrite filter_cons_True by set_solver.
  f_equal. apply IH. set_solver.
Qed.

(** ** Rings

    A circular buffer [d] of [n] elements holds the list [l] from the free
    running index [start] on. *)

Definition ring_holds {A} (n : Z) (d : list A) (start : Z) (l : list A) : Prop :=
  forall k x, l !! k = Some x -> d !! Z.to_nat ((start + Z.of_nat k) mod n) = Some x.

Lemma ring_index_inj n start j k :
  0 <= j < n -> 0 <= k < n -> (start + j) mod n = (start + k) mod n -> j = k.
Proof.
  intros Hj Hk E. assert (H : (j - k) mod n = 0).
  { replace (j - k) with ((start + j) - (start + k)) by lia. rewrite Zminus_mod, E, Z.sub_diag.
    apply Zmod_0_l. }
  apply Z.mod_divide in H as [q H]; [|lia]. destruct (Z.lt_trichotomy q 0) as [|[->|]]; nia.
Qed.

Lemma ring_put {A} n (d : list A) start l c :
  0 < n -> Z.of_nat (length d) = n -> Z.of_nat (length l) < n -> ring_holds n d start l ->
  ring_holds n (<[Z.to_nat ((start + Z.of_nat (length l)) mod n) := c]> d) start (l ++ [c]).
Proof.
  intros Hn Hd Hl H k x [Hk|[Hk1 Hk2]]%lookup_app_Some.
  - pose proof (lookup_lt_Some _ _ _ Hk) as Hlt. rewrite list_lookup_insert_ne; [by apply H|].
    intros E. apply Z2Nat.inj in E; try (apply Z.mod_pos_bound; lia).
    apply ring_index_inj in E; lia.
  - apply list_lookup_singleton_Some in Hk2 as [Hk2 <-]. replace k with (length l) by lia.
    apply list_lookup_insert_eq. pose proof (Z.mod_pos_bound (start + Z.of_nat (length l)) n). lia.
Qed.

Lemma ring_prefix {A} n (d : list A) start l l' :
  ring_holds n d start (l ++ l') -> ring_holds n d start l.
Proof. intros H k x Hk. apply H. by apply lookup_app_l_Some. Qed.

Lemma ring_get {A} n (d : list A) start x l :
  0 < n -> ring_holds n d start (x :: l) ->
  aget d (start mod n) = Some x /\ ring_holds n d (start + 1) l.
Proof.
  intros Hn H. pose proof (Z.mod_pos_bound start n Hn). split.
  - unfold aget. rewrite (proj2 (Z.leb_le _ _)) by lia. specialize (H O x eq_refl).
    by rewrite Z.add_0_r in H.
  - intros k y Hk. specialize (H (S k) y Hk). by rewrite Nat2Z.inj_succ, <- Z.add_1_l, Z.add_assoc in H.
Qed.

Lemma u32_mod n x : (n | 2 ^ 32) -> 0 < n -> u32 x mod n = x mod n.
Proof.
  intros [q Hq] Hn. unfold u32. rewrite Hq. rewrite (Z.mul_comm q n), Z.rem_mul_r by nia.
  rewrite Z.mul_comm, Z.mod_add by lia. apply Z.mod_mod. lia.
Qed.

Lemma ring_u32 {A} n (d : list A) start l :
  (n | 2 ^ 32) -> 0 < n -> ring_holds n d (u32 start) l <-> ring_holds n d start l.
Proof.
  intros Hq Hn. unfold ring_holds.
  assert (forall k, (u32 start + k) mod n = (start + k) mod n) as E.
  { intros k. by rewrite <- Zplus_mod_idemp_l, u32_mod, Zplus_mod_idemp_l. }
  split; intros H k x Hk; specialize (H k x Hk); [by rewrite <- E|by rewrite E].
Qed.

(** ** Spinlocks held by the CPU

    Every spinlock of the kernel that a modelled function takes.  The kernel
    monad carries the locks the running CPU holds, innermost first, so that
    [acquire] of a lock already held and [release] of one not held are the
    panics of spinlock.c, and the depth of [pushcli] nesting is the number of
    locks held. *)

Inductive lockid :=
| Lptable                 (* ptable.lock *)
| Lqueue (q : Z)          (* schedulingQueues[q].lock *)
| Lcalculation            (* calculationlock *)
| Lkmem                   (* kmem.lock *)
| Ltickslock              (* tickslock *)
| Lpipe                   (* p->lock of the pipe at hand *)
| Lbcache                 (* bcache.lock *)
| Lsleep (k : Z)          (* lk->lk inside the sleep lock k *)
| Llog                    (* log.lock *)
| Lftable                 (* ftable.lock *)
| Licache                 (* icache.lock *)
| Lcons                   (* cons.lock *)
| Lide.                   (* idelock *)

#[export] Instance lockid_eq_dec : EqDecision lockid.
Proof. solve_decision. Defined.

Abbreviation locks := (list lockid).

(** ** The kernel monad

    A kernel function runs against its component's state [S] and the locks
    held.  It returns, panics, runs into undefined behaviour (an access
    outside an object, a null dereference), or goes to sleep on a channel. *)

Inductive outcome (S A : Type) :=
| Ok (a : A) (l : locks) (s : S)
| Panic (msg : string)
| Fault (what : string)
| Sleep (chan : Z) (l : locks) (s : S).
Arguments Ok {S A}.
Arguments Panic {S A}.
Arguments Fault {S A}.
Arguments Sleep {S A}.

Definition K (S A : Type) : Type := locks -> S -> outcome S A.

#[export] Instance K_ret S : MRet (K S) := fun _ a l s => Ok a l s.
#[export] Instance K_bind S : MBind (K S) := fun _ _ f m l s =>
  match m l s with
  | Ok a l' s' => f a l' s'
  | Panic e => Panic e
  | Fault e => Fault e
  | Sleep c l' s' => Sleep c l' s'
  end.

Definition panic {S A} (msg : string) : K S A := fun _ _ => Panic msg.
Definition fault {S A} (what : string) : K S A := fun _ _ => Fault what.
Definition gets {S A} (f : S -> A) : K S A := fun l s => Ok (f s) l s.
Definition modify {S} (f : S -> S) : K S unit := fun l s => Ok tt l (f s).

(** Reads of array elements and pointers that must be defined. *)
Definition deref {S A} (what : string) (o : option A) : K S A :=
  match o with Some a => mret a | None => fault what end.

(** spinlock.c [acquire], [release] and [holding], seen from the CPU that
    runs the function (the machine-level code is in Spinlock.v). *)
Definition acquire {S} (k : lockid) : K S unit := fun l s =>
  if decide (k ∈ l) then Panic "acquire" else Ok tt (k :: l) s.
Definition release {S} (k : lockid) : K S unit := fun l s =>
  if decide (k ∈ l) then Ok tt (filter (fun x => x <> k) l) s else Panic "release".
Definition holding {S} (k : lockid) : K S bool := fun l s =>
  Ok (bool_decide (k ∈ l)) l s.

(** Runs a function of a component on the part [g] of a larger state. *)
Definition zoom {S T A} (g : S -> T) `{!Setter g} (m : K T A) : K S A := fun l s =>
  match m l (g s) with
  | Ok a l' t => Ok a l' (s <| g := t |>)
  | Panic e => Panic e
  | Fault e => Fault e
  | Sleep c l' t => Sleep c l' (s <| g := t |>)
  end.

(** Parts that read back what was stored: what a component needs of the larger
    state it runs in. *)
Class Lens {S T} (g : S -> T) `{!Setter g} : Prop := {
  lens_get f s : g (s <| g ::= f |>) = f (g s);
  lens_id s : s <| g := g s |> = s
}.

(** A component on its own. *)
Definition whole {S} (s : S) : S := s.
#[export] Instance setter_whole {S} : Setter (@whole S) := fun f s => f s.
#[export] Instance lens_whole {S} : Lens (@whole S).
Proof. by split. Qed.

(** [for (x in xs) body] *)
Fixpoint kiter {S X} (body : X -> K S unit) (xs : list X) : K S unit :=
  match xs with
  | [] => mret tt
  | x :: r => body x ;; kiter body r
  end.

(** Actions one after the other: a function written as the list of its steps,
    for the places where the steps of two processors interleave. *)
Fixpoint kseq {S} (l : list (K S unit)) : K S unit :=
  match l with
  | [] => mret tt
  | [a] => a
  | a :: r => a ;; kseq r
  end.

(** Total correctness of a monadic function. *)
Definition triple {S A} (P : locks -> S -> Prop) (m : K S A)
    (Q : A -> locks -> S -> Prop) : Prop :=
  forall l s, P l s -> exists a l' s', m l s = Ok a l' s' /\ Q a l' s'.

Section monad.
Context {S : Type}.
Implicit Types (l : locks) (s : S).

Lemma bind_Ok {A B} (m : K S A) (f : A -> K S B) l s a l' s' :
  m l s = Ok a l' s' -> (m ≫= f) l s = f a l' s'.
Proof. unfold mbind, K_bind. by intros ->. Qed.

Lemma bind_Panic {A B} (m : K S A) (f : A -> K S B) l s e :
  m l s = Panic e -> (m ≫= f) l s = Panic e.
Proof. unfold mbind, K_bind. by intros ->. Qed.

Lemma bind_Fault {A B} (m : K S A) (f : A -> K S B) l s e :
  m l s = Fault e -> (m ≫= f) l s = Fault e.
Proof. unfold mbind, K_bind. by intros ->. Qed.

Lemma bind_Ok_inv {A B} (m : K S A) (f : A -> K S B) l s b l' s' :
  (m ≫= f) l s = Ok b l' s' ->
  exists a l1 s1, m l s = Ok a l1 s1 /\ f a l1 s1 = Ok b l' s'.
Proof. unfold mbind, K_bind. destruct (m l s); intros H; try done. eauto. Qed.

Lemma bind_assoc {A B C} (m : K S A) (f : A -> K S B) (g : B -> K S C) l s :
  ((m ≫= f) ≫= g) l s = (m ≫= (fun a => f a ≫= g)) l s.
Proof. unfold mbind, K_bind. by destruct (m l s). Qed.

Lemma acquire_free k l s : k ∉ l -> acquire k l s = Ok tt (k :: l) s.
Proof. intros. unfold acquire. by rewrite decide_False. Qed.

Lemma acquire_held k l s : k ∈ l -> acquire k l s = Panic "acquire".
Proof. intros. unfold acquire. by rewrite decide_True. Qed.

Lemma release_top k l s : k ∉ l -> release k (k :: l) s = Ok tt l s.
Proof.
  intros Hk. unfold release. rewrite decide_True by set_solver.
  rewrite filter_cons_False by naive_solver. by rewrite filter_absent.
Qed.

Lemma release_not_held k l s : k ∉ l -> release k l s = Panic "release".
Proof. intros. unfold release. by rewrite decide_False. Qed.

Lemma zoom_Ok {T A} (g : S -> T) `{!Setter g} (m : K T A) l s a l' t :
  m l (g s) = Ok a l' t -> zoom g m l s = Ok a l' (s <| g := t |>).
Proof. unfold zoom. by intros ->. Qed.

(** A critical section whose body keeps the lock runs the body. *)
Lemma critical {A} k (m : K S A) l s a s' :
  k ∉ l -> m (k :: l) s = Ok a (k :: l) s' ->
  (acquire k ;; (x ← m; release k ;; mret x)) l s = Ok a l s'.
Proof.
  intros Hk Hm. erewrite bind_Ok by by apply acquire_free.
  erewrite bind_Ok by done. by erewrite bind_Ok by by apply release_top.
Qed.

Lemma kiter_app {X} (body : X -> K S unit) xs ys l s :
  kiter body (xs ++ ys) l s = (kiter body xs ;; kiter body ys) l s.
Proof.
  revert l s. induction xs as [|x xs IH]; intros l s; [done|]. simpl.
  rewrite bind_assoc. unfold mbind, K_bind. destruct (body x l s); [apply IH|done..].
Qed.
End monad.

(** [m] returns, keeps the locks, and leads to a state with [Q]. *)
Definition kruns {S A} (m : K S A) (l : locks) (s : S) (Q : A -> S -> Prop) : Prop :=
  exists a s', m l s = Ok a l s' /\ Q a s'.

Lemma kruns_bind {S A B} (m : K S A) (f : A -> K S B) l s Q R :
  kruns m l s Q -> (forall a s', Q a s' -> kruns (f a) l s' R) -> kruns (m ≫= f) l s R.
Proof. intros (a & s' & R1 & HQ) Hf. unfold kruns. erewrite bind_Ok by exact R1. by apply Hf. Qed.

Lemma kruns_ret {S A} (a : A) l (s : S) (Q : A -> S -> Prop) : Q a s -> kruns (mret a) l s Q.
Proof. intros HQ. by exists a, s. Qed.

Lemma kruns_gets {S A} (f : S -> A) l (s : S) : kruns (gets f) l s (fun a s' => a = f s /\ s' = s).
Proof. by exists (f s), s. Qed.

Lemma kruns_modify {S} (f : S -> S) l (s : S) : kruns (modify f) l s (fun _ s' => s' = f s).
Proof. by exists tt, (f s). Qed.

Lemma kruns_weaken {S A} (m : K S A) l s (Q Q' : A -> S -> Prop) :
  kruns m l s Q -> (forall a s', Q a s' -> Q' a s') -> kruns m l s Q'.
Proof. intros (a & s' & R1 & HQ) H. exists a, s'. split; [done|]. by apply H. Qed.

#[export] Hint Resolve acquire_free release_top acquire_held release_not_held : xv6.

(** Symbolic execution: push a computation whose first step has a known
    result, or take a returned computation apart. *)
Ltac kstep := first
  [ erewrite bind_Ok; [ | solve [ first [ apply release_top | apply acquire_free ]; first [ assumption | set_solver ]
      | reflexivity | eassumption | eauto 3 with xv6 ] ] ].
Ltac ksteps := repeat kstep.

(** Unfolds the monad's operations. *)
Ltac kunfold := unfold mbind, K_bind, mret, K_ret, gets, modify, panic, fault, deref in *.

Ltac kinv H :=
  repeat lazymatch type of H with
  | (_ ≫= _) _ _ = Ok _ _ _ =>
      let a := fresh "a" in let l1 := fresh "l" in let s1 := fresh "s" in
      let H1 := fresh "Hk" in
      apply bind_Ok_inv in H as (a & l1 & s1 & H1 & H)
  end.
