(* ===== verification/Mem.v ===== *)
(** Byte-addressed memory.

    The kernel's strings, free list and page tables live in one byte-addressed
    memory.  An address is a [Z] (a 32-bit pointer), a memory maps each address
    to a byte, and 32-bit words are stored little-endian as on the x86.  The
    word and range lemmas here are shared by CString, Kalloc, Vm and Proc. *)

From stdpp Require Import base numbers list sets strings.
From Stdlib Require Import ZArith Lia.
From S2P Require Import Prelude.

Definition mem : Type := Z -> Z.

Definition load8 (m : mem) (a : Z) : Z := u8 (m a).
Definition store8 (m : mem) (a v : Z) : mem :=
  fun x => if x =? a then u8 v else m x.

Definition load32 (m : mem) (a : Z) : Z :=
  load8 m a + 2 ^ 8 * load8 m (a + 1) + 2 ^ 16 * load8 m (a + 2)
  + 2 ^ 24 * load8 m (a + 3).
Definition store32 (m : mem) (a v : Z) : mem :=
  store8 (store8 (store8 (store8 m a v) (a + 1) (v / 2 ^ 8))
    (a + 2) (v / 2 ^ 16)) (a + 3) (v / 2 ^ 24).

Definition load16 (m : mem) (a : Z) : Z := load8 m a + 2 ^ 8 * load8 m (a + 1).
Definition store16 (m : mem) (a v : Z) : mem := store8 (store8 m a v) (a + 1) (v / 2 ^ 8).

(** The bytes [l] stored from [a] on. *)
Fixpoint store_bytes (m : mem) (a : Z) (l : list Z) : mem :=
  match l with
  | [] => m
  | c :: r => store_bytes (store8 m a c) (a + 1) r
  end.

(** The [n] bytes from [a]. *)
Fixpoint bytes_at (m : mem) (a : Z) (n : nat) : list Z :=
  match n with
  | O => []
  | S n' => load8 m a :: bytes_at m (a + 1) n'
  end.

(** Memories that agree on the bytes from [a] up to [b]. *)
Definition same_on (a b : Z) (m m' : mem) : Prop :=
  forall x, a <= x < b -> m' x = m x.
(** Memories that agree outside the bytes from [a] up to [b]. *)
Definition same_outside (a b : Z) (m m' : mem) : Prop :=
  forall x, ~ (a <= x < b) -> m' x = m x.

Lemma load8_range m a : 0 <= load8 m a < 256.
Proof. apply u8_range. Qed.

Lemma store8_eq m a v : store8 m a v a = u8 v.
Proof. unfold store8. by rewrite Z.eqb_refl. Qed.

Lemma store8_ne m a v x : x <> a -> store8 m a v x = m x.
Proof. intros. unfold store8. destruct (Z.eqb_spec x a); [lia|done]. Qed.

Lemma load8_store8_eq m a v : load8 (store8 m a v) a = u8 v.
Proof. unfold load8. rewrite store8_eq. apply u8_small, u8_range. Qed.

Lemma load8_store8_ne m a v x : x <> a -> load8 (store8 m a v) x = load8 m x.
Proof. intros. unfold load8. by rewrite store8_ne. Qed.

Lemma store32_out m a v x : ~ (a <= x < a + 4) -> store32 m a v x = m x.
Proof. intros. unfold store32. rewrite !store8_ne by lia. done. Qed.

Lemma load32_range m a : 0 <= load32 m a < 2 ^ 32.
Proof.
  unfold load32.
  pose proof (load8_range m a). pose proof (load8_range m (a + 1)).
  pose proof (load8_range m (a + 2)). pose proof (load8_range m (a + 3)). lia.
Qed.

Lemma u32_bytes v :
  u8 v + 2 ^ 8 * u8 (v / 2 ^ 8) + 2 ^ 16 * u8 (v / 2 ^ 16)
  + 2 ^ 24 * u8 (v / 2 ^ 24) = u32 v.
Proof. unfold u8, u32. Z.to_euclidean_division_equations. lia. Qed.

Lemma load32_store32_eq m a v : load32 (store32 m a v) a = u32 v.
Proof.
  rewrite <- u32_bytes. unfold load32, store32.
  repeat first [ rewrite load8_store8_eq | rewrite load8_store8_ne by lia ].
  done.
Qed.

Lemma load32_same m m' a :
  same_on a (a + 4) m m' -> load32 m' a = load32 m a.
Proof. intros H. unfold load32, load8. rewrite !H by lia. done. Qed.

Lemma load32_store32_ne m a v b :
  b + 4 <= a \/ a + 4 <= b -> load32 (store32 m a v) b = load32 m b.
Proof. intros. apply load32_same. intros x Hx. apply store32_out. lia. Qed.

Lemma bytes_at_length m a n : length (bytes_at m a n) = n.
Proof. revert a. induction n; intros; simpl; auto. Qed.

Lemma bytes_at_lookup m a n (i : nat) :
  (i < n)%nat -> bytes_at m a n !! i = Some (load8 m (a + Z.of_nat i)).
Proof.
  revert a i. induction n; intros a i Hi; [lia|].
  destruct i; simpl; [by rewrite Z.add_0_r|].
  rewrite IHn by lia. do 2 f_equal. lia.
Qed.

Lemma bytes_at_same m m' a n :
  same_on a (a + Z.of_nat n) m m' -> bytes_at m' a n = bytes_at m a n.
Proof.
  revert a. induction n; intros a H; simpl; [done|].
  f_equal; [unfold load8; rewrite H; [done|lia]|].
  apply IHn. intros x Hx. apply H. lia.
Qed.

Lemma bytes_at_app m a n k :
  bytes_at m a (n + k) = bytes_at m a n ++ bytes_at m (a + Z.of_nat n) k.
Proof.
  revert a. induction n; intros a; simpl; [by rewrite Z.add_0_r|].
  f_equal. rewrite IHn. do 2 f_equal. lia.
Qed.

Lemma bytes_at_range m a n : Forall (fun c => 0 <= c < 256) (bytes_at m a n).
Proof. revert a. induction n; intros; simpl; constructor; auto using load8_range. Qed.

Lemma same_outside_refl a b m : same_outside a b m m.
Proof. by intros x _. Qed.

Lemma same_outside_trans a b m1 m2 m3 :
  same_outside a b m1 m2 -> same_outside a b m2 m3 -> same_outside a b m1 m3.
Proof. intros H1 H2 x Hx. by rewrite H2, H1. Qed.

Lemma same_outside_weaken a b a' b' m m' :
  a' <= a -> b <= b' -> same_outside a b m m' -> same_outside a' b' m m'.
Proof. intros Ha Hb H x Hx. apply H. lia. Qed.

Lemma same_outside_on a b c d m m' :
  same_outside a b m m' -> d <= a \/ b <= c -> same_on c d m m'.
Proof. intros H Hd x Hx. apply H. lia. Qed.

Lemma store8_outside m a v lo hi :
  lo <= a < hi -> same_outside lo hi m (store8 m a v).
Proof. intros H x Hx. apply store8_ne. lia. Qed.

Lemma store32_outside m a v lo hi :
  lo <= a -> a + 4 <= hi -> same_outside lo hi m (store32 m a v).
Proof. intros H1 H2 x Hx. apply store32_out. lia. Qed.

Lemma load16_store16_eq m a v : load16 (store16 m a v) a = u16 v.
Proof.
  unfold load16, store16. rewrite load8_store8_ne, !load8_store8_eq by lia. unfold u8, u16. dlia.
Qed.

Lemma load16_same m m' a : same_on a (a + 2) m m' -> load16 m' a = load16 m a.
Proof. intros H. unfold load16, load8. by rewrite !H by lia. Qed.

Lemma store16_out m a v x : ~ (a <= x < a + 2) -> store16 m a v x = m x.
Proof. intros. unfold store16. by rewrite !store8_ne by lia. Qed.

Lemma load16_range m a : 0 <= load16 m a < 2 ^ 16.
Proof. unfold load16. pose proof (load8_range m a). pose proof (load8_range m (a + 1)). lia. Qed.

Lemma store_bytes_out l m a x :
  ~ (a <= x < a + Z.of_nat (length l)) -> store_bytes m a l x = m x.
Proof.
  revert m a. induction l as [|c l IH]; intros m a H; [done|]. cbn [store_bytes length] in *.
  rewrite IH by lia. apply store8_ne. lia.
Qed.

Lemma store_bytes_in l m a k c :
  l !! k = Some c -> store_bytes m a l (a + Z.of_nat k) = u8 c.
Proof.
  revert m a k. induction l as [|d l IH]; intros m a k H; [done|]. cbn [store_bytes].
  destruct k as [|k].
  - injection H as ->. rewrite store_bytes_out by lia. rewrite Z.add_0_r. apply store8_eq.
  - replace (a + Z.of_nat (S k)) with (a + 1 + Z.of_nat k) by lia. by apply IH.
Qed.

Lemma bytes_at_store_bytes l m a :
  Forall (fun c => 0 <= c < 256) l -> bytes_at (store_bytes m a l) a (length l) = l.
Proof.
  intros Hl. apply list_eq. intros k. destruct (decide (k < length l)%nat) as [Hk|Hk].
  - destruct (lookup_lt_is_Some_2 l k Hk) as [c Hc]. rewrite bytes_at_lookup, Hc by done.
    unfold load8. rewrite (store_bytes_in l m a k c Hc). rewrite Forall_lookup in Hl.
    by rewrite !u8_small by (apply u8_range || eauto).
  - rewrite !lookup_ge_None_2; [done|lia|rewrite bytes_at_length; lia].
Qed.

#[export] Hint Resolve same_outside_refl store8_outside store32_outside load8_range
  load32_range : xv6.
