(* ===== verification/Ports.v ===== *)
(** The ports of the machine (x86.h) and the disk behind some of them.

    Devices are hardware: the instructions that talk to them are the operations
    of the class [Ports] on a type of machines.  [Ata] states what the manual of
    the disk controller promises for the few registers and commands the driver
    uses, as a view of the machine that the instructions change. *)

From stdpp Require Import base numbers list strings.
From Stdlib Require Import ZArith Lia.
From S2P Require Import Prelude Mem.

Module Ports.

(** [in] and [out] of a byte and of a word. *)
Class Ports (D : Type) := {
  inb : Z -> D -> Z * D;
  outb : Z -> Z -> D -> D;
  inl : Z -> D -> Z * D;
  outl : Z -> Z -> D -> D }.

Section strings.
Context {D : Type} `{!Ports D}.

(** [rep insl]: [cnt] words from [port] to [addr]. *)
Fixpoint insl (port addr : Z) (cnt : nat) (m : mem) (d : D) : mem * D :=
  match cnt with
  | O => (m, d)
  | S n => let '(w, d) := inl port d in insl port (addr + 4) n (store32 m addr w) d
  end.

(** [rep outsl]: [cnt] words from [addr] to [port]. *)
Fixpoint outsl (port addr : Z) (cnt : nat) (m : mem) (d : D) : D :=
  match cnt with
  | O => d
  | S n => outsl port (addr + 4) n m (outl port (load32 m addr) d)
  end.

End strings.

(** *** The disk controller *)

(** The words of a sector. *)
Definition sector_words : nat := 128.

(** What the data port does next: nothing, send word [i] of the sector, or
    receive word [i] of the sector that [buf] collects. *)
Inductive phase := Idle | Sending (i : nat) | Receiving (i : nat) (buf : mem).

Record ata := mkAta {
  nsect : Z; lba0 : Z; lba1 : Z; lba2 : Z; drivehead : Z;
  sectors : Z -> Z -> mem;      (* of the two drives *)
  ph : phase }.
#[export] Instance eta_ata : Eta ata := fun a =>
  mkAta a.(nsect) a.(lba0) a.(lba1) a.(lba2) a.(drivehead) a.(sectors) a.(ph).

Definition lba (a : ata) : Z := lba0 a + 2 ^ 8 * lba1 a + 2 ^ 16 * lba2 a + 2 ^ 24 * Z.land (drivehead a) 15.
Definition drive (a : ata) : Z := Z.land (Z.shiftr (drivehead a) 4) 1.

Definition put_sector (f : Z -> Z -> mem) (dr n : Z) (b : mem) : Z -> Z -> mem :=
  fun dr' n' => if (dr' =? dr) && (n' =? n) then b else f dr' n'.

(** The registers, and the commands READ SECTORS and WRITE SECTORS. *)
Definition ata_outb (port v : Z) (a : ata) : ata :=
  if port =? 0x1f2 then a <| nsect := v |>
  else if port =? 0x1f3 then a <| lba0 := v |>
  else if port =? 0x1f4 then a <| lba1 := v |>
  else if port =? 0x1f5 then a <| lba2 := v |>
  else if port =? 0x1f6 then a <| drivehead := v |>
  else if port =? 0x1f7 then
    if v =? 0x20 then a <| ph := Sending 0 |>
    else if v =? 0x30 then a <| ph := Receiving 0 (fun _ => 0) |>
    else a
  else a.

Definition ata_inl (a : ata) : Z * ata :=
  match ph a with
  | Sending i =>
      (load32 (sectors a (drive a) (lba a)) (4 * Z.of_nat i),
       a <| ph := if decide (S i = sector_words) then Idle else Sending (S i) |>)
  | _ => (0, a)
  end.

Definition ata_outl (w : Z) (a : ata) : ata :=
  match ph a with
  | Receiving i buf =>
      let buf := store32 buf (4 * Z.of_nat i) w in
      if decide (S i = sector_words)
      then a <| sectors ::= fun f => put_sector f (drive a) (lba a) buf |> <| ph := Idle |>
      else a <| ph := Receiving (S i) buf |>
  | _ => a
  end.

(** The registers a driver writes. *)
Definition ata_ports : list Z := [0x1f2; 0x1f3; 0x1f4; 0x1f5; 0x1f6; 0x3f6].

(** [n] reads of the status end with the disk ready: not busy, and no error. *)
Fixpoint ready_within {D} `{!Ports D} (n : nat) (d : D) : Prop :=
  match n with
  | O => False
  | S n' => let '(r, d') := inb 0x1f7 d in
      Z.land r 0xc0 = 0x40 /\ Z.land r 0x21 = 0 \/ Z.land r 0xc0 <> 0x40 /\ ready_within n' d'
  end.

(** A machine with a working disk that is ready after at most [patience] reads
    of its status.  A command is for one sector. *)
Class Ata (D : Type) `{!Ports D} := {
  ata_of : D -> ata;
  patience : nat;
  ata_select port v d : port ∈ ata_ports -> ata_of (outb port v d) = ata_outb port v (ata_of d);
  ata_command v d : v = 0x20 \/ v = 0x30 -> nsect (ata_of d) = 1 ->
    ata_of (outb 0x1f7 v d) = ata_outb 0x1f7 v (ata_of d);
  ata_status d : ata_of (inb 0x1f7 d).2 = ata_of d;
  ata_ready d : ready_within patience d;
  ata_send i d : ph (ata_of d) = Sending i ->
    (inl 0x1f0 d).1 = (ata_inl (ata_of d)).1 /\ ata_of (inl 0x1f0 d).2 = (ata_inl (ata_of d)).2;
  ata_receive i b w d : ph (ata_of d) = Receiving i b -> ata_of (outl 0x1f0 w d) = ata_outl w (ata_of d) }.

(** The bytes of a block. *)
Definition same_block (m m' : mem) : Prop := forall x, 0 <= x < 512 -> load8 m' x = load8 m x.

Lemma same_block_refl m : same_block m m.
Proof. by intros x _. Qed.
Lemma same_block_trans m1 m2 m3 : same_block m1 m2 -> same_block m2 m3 -> same_block m1 m3.
Proof. intros H1 H2 x Hx. by rewrite H2, H1. Qed.
Lemma same_block_sym m m' : same_block m m' -> same_block m' m.
Proof. intros H x Hx. by rewrite H. Qed.

Section transfer.
Context {D : Type} `{!Ports D} `{!Ata D}.

(** A word as the bytes of another memory. *)
Lemma load8_copy m m' a b x : 0 <= x < 4 -> load8 (store32 m a (load32 m' b)) (a + x) = load8 m' (b + x).
Proof.
  intros Hx. unfold store32, load32.
  pose proof (load8_range m' b). pose proof (load8_range m' (b + 1)). pose proof (load8_range m' (b + 2)). pose proof (load8_range m' (b + 3)).
  set (x0 := load8 m' b) in *. set (x1 := load8 m' (b + 1)) in *. set (x2 := load8 m' (b + 2)) in *. set (x3 := load8 m' (b + 3)) in *.
  assert (Hc : x = 0 \/ x = 1 \/ x = 2 \/ x = 3) by lia.
  destruct Hc as [-> | [-> | [-> | ->]]]; rewrite ?Z.add_0_r;
    repeat (rewrite load8_store8_eq || (rewrite load8_store8_ne by lia)); fold x0 x1 x2 x3; unfold u8; dlia.
Qed.

Lemma insl_reads n base : forall i m d, (i + n = sector_words)%nat -> (0 < n)%nat -> ph (ata_of d) = Sending i ->
  let '(m', d') := insl 0x1f0 (base + 4 * Z.of_nat i) n m d in
  let a := ata_of d in
  (forall x, 4 * Z.of_nat i <= x < 512 -> load8 m' (base + x) = load8 (sectors a (drive a) (lba a)) x) /\
  same_outside (base + 4 * Z.of_nat i) (base + 512) m m' /\
  ata_of d' = a <| ph := Idle |>.
Proof.
  induction n as [|n IH]; intros i m d Hn Hpos Hp; [lia|]. cbn [insl].
  destruct (ata_send i d Hp) as [Hw Hv]. destruct (inl 0x1f0 d) as [w d1] eqn:E. cbn [fst snd] in Hw, Hv.
  unfold ata_inl in Hw, Hv. rewrite Hp in Hw, Hv. cbn [fst snd] in Hw, Hv. subst w.
  set (S0 := sectors (ata_of d) (drive (ata_of d)) (lba (ata_of d))) in *. set (b := base + 4 * Z.of_nat i).
  assert (Hin : forall x, 4 * Z.of_nat i <= x < 4 * Z.of_nat i + 4 ->
    load8 (store32 m b (load32 S0 (4 * Z.of_nat i))) (base + x) = load8 S0 x).
  { intros x Hx. replace (base + x) with (b + (x - 4 * Z.of_nat i)) by lia.
    rewrite load8_copy by lia. f_equal. lia. }
  assert (Hout : same_outside b (b + 4) m (store32 m b (load32 S0 (4 * Z.of_nat i)))) by (intros x Hx; by rewrite store32_out).
  unfold sector_words in *. destruct (decide (S i = 128%nat)) as [Ei|Ei].
  - assert (n = 0%nat) as -> by lia. cbn [insl]. split; [intros x Hx; apply Hin; lia|]. split; [|done].
    eapply same_outside_weaken; [| |exact Hout]; lia.
  - replace (b + 4) with (base + 4 * Z.of_nat (S i)) in * by lia.
    specialize (IH (S i) (store32 m b (load32 S0 (4 * Z.of_nat i))) d1 ltac:(lia) ltac:(lia)).
    rewrite Hv in IH. specialize (IH eq_refl). destruct (insl _ _ _ _ _) as [m' d']. destruct IH as (H1 & H2 & H3).
    split; [|split].
    + intros x Hx. destruct (decide (x < 4 * Z.of_nat (S i))); [|apply H1; lia].
      unfold load8 at 1. rewrite H2 by lia. apply Hin. lia.
    + intros x Hx. rewrite H2 by lia. apply Hout. lia.
    + by rewrite H3.
Qed.

Lemma outsl_writes n : forall i m b d, (i + n = sector_words)%nat -> (0 < n)%nat -> ph (ata_of d) = Receiving i b ->
  (forall x, 0 <= x < 4 * Z.of_nat i -> load8 b x = load8 m x) ->
  let a := ata_of d in
  exists b', ata_of (outsl 0x1f0 (4 * Z.of_nat i) n m d) = a <| sectors := put_sector (sectors a) (drive a) (lba a) b' |> <| ph := Idle |> /\
    same_block m b'.
Proof.
  induction n as [|n IH]; intros i m b d Hn Hpos Hp Hb; [lia|]. cbn [outsl].
  pose proof (ata_receive i b (load32 m (4 * Z.of_nat i)) d Hp) as Hv. unfold ata_outl in Hv. rewrite Hp in Hv.
  set (b1 := store32 b (4 * Z.of_nat i) (load32 m (4 * Z.of_nat i))) in *.
  assert (Hb1 : forall x, 0 <= x < 4 * Z.of_nat (S i) -> load8 b1 x = load8 m x).
  { intros x Hx. unfold b1. destruct (decide (x < 4 * Z.of_nat i)).
    - rewrite <- Hb by lia. unfold load8. by rewrite store32_out by lia.
    - replace x with (4 * Z.of_nat i + (x - 4 * Z.of_nat i)) by lia. apply load8_copy. lia. }
  unfold sector_words in *. destruct (decide (S i = 128%nat)) as [Ei|Ei].
  - assert (n = 0%nat) as -> by lia. cbn [outsl]. exists b1. rewrite Hv. split; [done|]. intros x Hx. apply Hb1. lia.
  - replace (4 * Z.of_nat i + 4) with (4 * Z.of_nat (S i)) by lia.
    destruct (IH (S i) m b1 (outl 0x1f0 (load32 m (4 * Z.of_nat i)) d) ltac:(lia) ltac:(lia)) as (b' & H1 & H2);
      [by rewrite Hv|done|]. exists b'. rewrite H1, Hv. done.
Qed.

End transfer.

(** *** A machine with a disk *)

Record disk_pc := mkDisk { da : ata; busy : bool }.

(** After a command the status reads busy once. *)
#[export] Instance disk_ports : Ports disk_pc := {|
  inb p d := if p =? 0x1f7 then (if busy d then 0x80 else 0x40, mkDisk (da d) false) else (0xff, d);
  outb p v d := mkDisk (ata_outb p v (da d)) (p =? 0x1f7);
  inl _ d := ((ata_inl (da d)).1, mkDisk (ata_inl (da d)).2 (busy d));
  outl _ w d := mkDisk (ata_outl w (da d)) (busy d) |}.
#[export] Instance disk_ata : Ata disk_pc.
Proof.
  refine {| ata_of := da; patience := 2%nat |}; try done.
  intros [a []]; cbn; [right; split; [done|]|]; by left.
Defined.

End Ports.
