(* ===== verification/CString.v ===== *)
(** The kernel's memory and string routines (string.c), the x86 string
    instructions they are built on (x86.h), and the user library's versions
    (ulib.c).

    Pointers are addresses of a [mem].  Loops bounded by a count recurse on
    it; loops that run to a NUL byte take fuel, and the theorems state how
    much is enough. *)

From stdpp Require Import base numbers list sets strings.
From Stdlib Require Import ZArith Lia.
From S2P Require Import Prelude Mem.

Module CString.

(** x86.h [stosb]: [rep stosb] stores the low byte of [data] [cnt] times. *)
Definition stosb (m : mem) (addr data cnt : Z) : mem := fun x =>
  if (addr <=? x) && (x <? addr + cnt) then u8 data else m x.

(** x86.h [stosl]: [rep stosl] stores the word [data] [cnt] times. *)
Definition stosl (m : mem) (addr data cnt : Z) : mem := fun x =>
  if (addr <=? x) && (x <? addr + 4 * cnt)
  then u8 (Z.shiftr data (8 * ((x - addr) mod 4)))
  else m x.

Definition memset (m : mem) (dst c n : Z) : mem :=
  if (Z.rem (i32 dst) 4 =? 0) && (n mod 4 =? 0) then
    let c := Z.land c 0xFF in
    stosl m dst
      (Z.lor (Z.lor (Z.lor (Z.shiftl c 24) (Z.shiftl c 16)) (Z.shiftl c 8)) c)
      (n / 4)
  else stosb m dst c n.

Fixpoint memcmp (m : mem) (s1 s2 : Z) (n : nat) : Z :=
  match n with
  | O => 0
  | S n' =>
      if load8 m s1 =? load8 m s2 then memcmp m (s1 + 1) (s2 + 1) n'
      else load8 m s1 - load8 m s2
  end.

(** [while (n-- > 0) *d++ = *s++;] *)
Fixpoint copy_up (m : mem) (d s : Z) (n : nat) : mem :=
  match n with
  | O => m
  | S n' => copy_up (store8 m d (load8 m s)) (d + 1) (s + 1) n'
  end.

(** [while (n-- > 0) *--d = *--s;] *)
Fixpoint copy_down (m : mem) (d s : Z) (n : nat) : mem :=
  match n with
  | O => m
  | S n' => copy_down (store8 m (d - 1) (load8 m (s - 1))) (d - 1) (s - 1) n'
  end.

Definition memmove (m : mem) (dst src n : Z) : mem :=
  if (src <? dst) && (dst <? u32 (src + n))
  then copy_down m (dst + n) (src + n) (Z.to_nat n)
  else copy_up m dst src (Z.to_nat n).

Definition memcpy (m : mem) (dst src n : Z) : mem := memmove m dst src n.

Fixpoint strncmp (m : mem) (p q : Z) (n : nat) : Z :=
  match n with
  | O => 0
  | S n' =>
      if nz (load8 m p) && (load8 m p =? load8 m q)
      then strncmp m (p + 1) (q + 1) n'
      else load8 m p - load8 m q
  end.

(** First loop of [strncpy]: copies up to and including the NUL; returns
    the memory, the advanced [s] and what is left of [n]. *)
Fixpoint strncpy_copy (m : mem) (s t : Z) (n : nat) : mem * Z * nat :=
  match n with
  | O => (m, s, O)
  | S n' =>
      let c := load8 m t in
      let m' := store8 m s c in
      if c =? 0 then (m', s + 1, n') else strncpy_copy m' (s + 1) (t + 1) n'
  end.

(** Second loop of [strncpy]: pads with NULs. *)
Fixpoint strncpy_pad (m : mem) (s : Z) (n : nat) : mem :=
  match n with
  | O => m
  | S n' => strncpy_pad (store8 m s 0) (s + 1) n'
  end.

Definition strncpy (m : mem) (s t n : Z) : mem :=
  let '(m', s', k) := strncpy_copy m s t (Z.to_nat n) in strncpy_pad m' s' k.

(** The copying loop of [safestrcpy], entered with [--n] done. *)
Fixpoint safestrcpy_copy (m : mem) (s t : Z) (n : nat) : mem * Z :=
  match n with
  | O => (m, s)
  | S n' =>
      let c := load8 m t in
      let m' := store8 m s c in
      if c =? 0 then (m', s + 1) else safestrcpy_copy m' (s + 1) (t + 1) n'
  end.

Definition safestrcpy (m : mem) (s t n : Z) : mem :=
  if n <=? 0 then m
  else let '(m', s') := safestrcpy_copy m s t (Z.to_nat (n - 1)) in store8 m' s' 0.

(** [for (n = 0; s[n]; n++);] *)
Fixpoint strlen_from (m : mem) (s n : Z) (fuel : nat) : option Z :=
  match fuel with
  | O => None
  | S f => if load8 m (s + n) =? 0 then Some n else strlen_from m s (n + 1) f
  end.
Definition strlen (m : mem) (s : Z) (fuel : nat) : option Z := strlen_from m s 0 fuel.

(** *** User library (ulib.c) *)

Fixpoint strcpy (m : mem) (s t : Z) (fuel : nat) : option mem :=
  match fuel with
  | O => None
  | S f =>
      let c := load8 m t in
      let m' := store8 m s c in
      if c =? 0 then Some m' else strcpy m' (s + 1) (t + 1) f
  end.

Fixpoint strcmp (m : mem) (p q : Z) (fuel : nat) : option Z :=
  match fuel with
  | O => None
  | S f =>
      if nz (load8 m p) && (load8 m p =? load8 m q)
      then strcmp m (p + 1) (q + 1) f
      else Some (load8 m p - load8 m q)
  end.

(** Returns the address of the first [c], 0 when there is none. *)
Fixpoint strchr (m : mem) (s c : Z) (fuel : nat) : option Z :=
  match fuel with
  | O => None
  | S f =>
      if load8 m s =? 0 then Some 0
      else if load8 m s =? u8 c then Some s else strchr m (s + 1) c f
  end.

Fixpoint atoi_from (m : mem) (s n : Z) (fuel : nat) : option Z :=
  match fuel with
  | O => None
  | S f =>
      let c := load8 m s in
      if (48 <=? c) && (c <=? 57)
      then atoi_from m (s + 1) (i32 (n * 10 + c - 48)) f
      else Some n
  end.
Definition atoi (m : mem) (s : Z) (fuel : nat) : option Z := atoi_from m s 0 fuel.

(** ulib.c [memmove]: copies upwards whatever the overlap; [n] is an [int]. *)
Definition umemmove (m : mem) (vdst vsrc n : Z) : mem :=
  copy_up m vdst vsrc (Z.to_nat n).

(** *** What the routines are compared with *)

(** The C string at [p], cut after [n] bytes. *)
Fixpoint cstrn (m : mem) (p : Z) (n : nat) : list Z :=
  match n with
  | O => []
  | S n' => if load8 m p =? 0 then [] else load8 m p :: cstrn m (p + 1) n'
  end.

(** [l] is the NUL-terminated string at [p]. *)
Fixpoint cstr (m : mem) (p : Z) (l : list Z) : Prop :=
  match l with
  | [] => load8 m p = 0
  | c :: r => load8 m p = c /\ c <> 0 /\ cstr m (p + 1) r
  end.

(** Lexicographic comparison of byte strings, a proper prefix being smaller. *)
Fixpoint bytes_cmp (a b : list Z) : Z :=
  match a, b with
  | [], [] => 0
  | [], y :: _ => - y
  | x :: _, [] => x
  | x :: a', y :: b' => if x =? y then bytes_cmp a' b' else x - y
  end.

(** Value of a string of decimal digits. *)
Definition decimal (l : list Z) (acc : Z) : Z :=
  fold_left (fun n c => n * 10 + (c - 48)) l acc.

(** *** memset *)

Lemma rem4_i32 x : Z.rem (i32 x) 4 = 0 -> x mod 4 = 0.
Proof.
  unfold i32. change (2 ^ 32) with 4294967296. change (2 ^ 31) with 2147483648.
  intros H. Z.to_euclidean_division_equations. lia.
Qed.

Lemma splat_byte c k :
  0 <= k < 4 ->
  u8 (Z.shiftr (Z.lor (Z.lor (Z.lor (Z.shiftl (u8 c) 24) (Z.shiftl (u8 c) 16))
       (Z.shiftl (u8 c) 8)) (u8 c)) (8 * k)) = u8 c.
Proof.
  intros Hk. unfold u8 at 1. rewrite <- Z.land_ones by lia.
  apply Z.bits_inj'. intros i Hi.
  rewrite Z.land_spec, Z.shiftr_spec, !Z.lor_spec, !Z.shiftl_spec by lia.
  destruct (Z.lt_ge_cases i 8) as [Hl|Hg].
  - rewrite Z.ones_spec_low by lia. rewrite andb_true_r.
    assert (Hhi : forall j, 8 <= j -> Z.testbit (u8 c) j = false).
    { intros j Hj. unfold u8. apply Z.mod_pow2_bits_high. lia. }
    assert (Hlo : forall j, j < 0 -> Z.testbit (u8 c) j = false).
    { intros j Hj. by apply Z.testbit_neg_r. }
    assert (k = 0 \/ k = 1 \/ k = 2 \/ k = 3) as [->|[->|[->| ->]]] by lia.
    + rewrite (Hlo (i + 8 * 0 - 24)), (Hlo (i + 8 * 0 - 16)), (Hlo (i + 8 * 0 - 8)) by lia.
      by replace (i + 8 * 0) with i by lia.
    + rewrite (Hlo (i + 8 * 1 - 24)), (Hlo (i + 8 * 1 - 16)), (Hhi (i + 8 * 1)) by lia.
      rewrite orb_false_r. by replace (i + 8 * 1 - 8) with i by lia.
    + rewrite (Hlo (i + 8 * 2 - 24)), (Hhi (i + 8 * 2 - 8)), (Hhi (i + 8 * 2)) by lia.
      rewrite !orb_false_r. by replace (i + 8 * 2 - 16) with i by lia.
    + rewrite (Hhi (i + 8 * 3 - 16)), (Hhi (i + 8 * 3 - 8)), (Hhi (i + 8 * 3)) by lia.
      rewrite !orb_false_r. by replace (i + 8 * 3 - 24) with i by lia.
  - rewrite Z.ones_spec_high by lia. rewrite andb_false_r. symmetry.
    unfold u8. apply Z.mod_pow2_bits_high. lia.
Qed.

(** [memset] stores the low byte of [c] in each of the [n] bytes from
    [dst] and nowhere else, also when it takes the word-at-a-time path. *)
Theorem memset_fill m dst c n x :
  memset m dst c n x = if (dst <=? x) && (x <? dst + n) then u8 c else m x.
Proof.
  unfold memset.
  destruct ((Z.rem (i32 dst) 4 =? 0) && (n mod 4 =? 0)) eqn:E; [|done].
  apply andb_prop in E as [_ E2%Z.eqb_eq].
  unfold stosl. replace (4 * (n / 4)) with n by dlia.
  destruct ((dst <=? x) && (x <? dst + n)); [|done].
  replace (Z.land c 255) with (u8 c) by (unfold u8; by rewrite <- Z.land_ones by lia).
  apply splat_byte. apply Z.mod_pos_bound. lia.
Qed.

Lemma memset_zero_load32 m a n x :
  a <= x -> x + 4 <= a + n -> load32 (memset m a 0 n) x = 0.
Proof.
  intros. unfold load32, load8. rewrite !memset_fill.
  repeat match goal with
  | |- context[(?u <=? ?v) && (?w <? ?z)] =>
      replace ((u <=? v) && (w <? z)) with true
        by (symmetry; rewrite andb_true_iff, Z.leb_le, Z.ltb_lt; lia)
  end. reflexivity.
Qed.

(** *** memmove *)

Lemma copy_up_spec n m d s x :
  ~ (s < d < s + Z.of_nat n) ->
  copy_up m d s n x =
    if (d <=? x) && (x <? d + Z.of_nat n) then load8 m (s + (x - d)) else m x.
Proof.
  revert m d s. induction n as [|n IH]; intros m d s H.
  { cbn [copy_up].
    destruct (Z.leb_spec d x), (Z.ltb_spec x (d + Z.of_nat 0)); simpl; (done || lia). }
  cbn [copy_up]. rewrite IH by lia.
  destruct (Z.leb_spec (d + 1) x), (Z.ltb_spec x (d + 1 + Z.of_nat n)),
    (Z.leb_spec d x), (Z.ltb_spec x (d + Z.of_nat (S n))); cbn [andb]; try lia.
  - rewrite load8_store8_ne by lia. f_equal. lia.
  - rewrite store8_ne by lia. done.
  - replace x with d by lia. rewrite store8_eq, Z.sub_diag, Z.add_0_r.
    apply u8_small, load8_range.
  - by rewrite store8_ne by lia.
Qed.

Lemma copy_down_spec n m d s x :
  ~ (d < s < d + Z.of_nat n) ->
  copy_down m (d + Z.of_nat n) (s + Z.of_nat n) n x =
    if (d <=? x) && (x <? d + Z.of_nat n) then load8 m (s + (x - d)) else m x.
Proof.
  revert m. induction n as [|n IH]; intros m H.
  { cbn [copy_down].
    destruct (Z.leb_spec d x), (Z.ltb_spec x (d + Z.of_nat 0)); simpl; (done || lia). }
  cbn [copy_down]. replace (d + Z.of_nat (S n) - 1) with (d + Z.of_nat n) by lia.
  replace (s + Z.of_nat (S n) - 1) with (s + Z.of_nat n) by lia.
  rewrite IH by lia.
  destruct (Z.leb_spec d x), (Z.ltb_spec x (d + Z.of_nat n)),
    (Z.ltb_spec x (d + Z.of_nat (S n))); cbn [andb]; try lia.
  - rewrite load8_store8_ne by lia. done.
  - replace x with (d + Z.of_nat n) by lia. rewrite store8_eq.
    rewrite u8_small by apply load8_range. f_equal. lia.
  - by rewrite store8_ne by lia.
  - by rewrite store8_ne by lia.
Qed.

(** The regions lie inside the 32-bit address space. *)
Definition region (a n : Z) : Prop := 0 <= a /\ 0 <= n /\ a + n < 2 ^ 32.

(** [memmove] copies [n] bytes exactly, also when source and
    destination overlap in either direction: afterwards byte [x] of the
    destination is the byte the source held before, and no other byte
    changes. *)
Theorem memmove_copies m dst src n (Hd : region dst n) (Hs : region src n) x :
  memmove m dst src n x =
    if (dst <=? x) && (x <? dst + n) then load8 m (src + (x - dst)) else m x.
Proof.
  destruct Hd as (? & Hn & ?), Hs as (? & _ & ?).
  destruct (Z_of_nat_complete n Hn) as [k ->]. unfold memmove.
  rewrite u32_small, Nat2Z.id by lia.
  destruct (Z.ltb_spec src dst), (Z.ltb_spec dst (src + Z.of_nat k)); cbn [andb];
    (rewrite copy_down_spec by lia) || (rewrite copy_up_spec by lia); done.
Qed.

Lemma memmove_copies_witness :
  region 11 4 /\ region 10 4 /\
  bytes_at (memmove (fun x => x) 11 10 4) 10 6 = [10; 10; 11; 12; 13; 15].
Proof.
  assert (region 11 4) by (unfold region; lia).
  assert (region 10 4) by (unfold region; lia).
  split; [done|]. split; [done|]. cbn [bytes_at]. unfold load8.
  rewrite !(memmove_copies (fun x => x) 11 10 4) by done. reflexivity.
Defined.

(** The user library's [memmove] is right only when the destination does not
    start inside the source. *)
Lemma umemmove_copies m dst src n x :
  0 <= n -> ~ (src < dst < src + n) ->
  umemmove m dst src n x =
    if (dst <=? x) && (x <? dst + n) then load8 m (src + (x - dst)) else m x.
Proof.
  intros Hn H. unfold umemmove. rewrite copy_up_spec; rewrite Z2Nat.id by lia; done.
Qed.

(** On an overlap with the destination above the source the user library's
    [memmove] smears the first byte, where the kernel's does not. *)
Lemma umemmove_smears :
  bytes_at (umemmove (fun x => x) 11 10 4) 11 4 = [10; 10; 10; 10] /\
  bytes_at (memmove (fun x => x) 11 10 4) 11 4 = [10; 11; 12; 13].
Proof. split; reflexivity. Qed.

(** *** Comparison *)

Lemma cstrn_range m p n : Forall (fun c => 0 < c < 256) (cstrn m p n).
Proof.
  revert p. induction n as [|n IH]; intros p; simpl; [constructor|].
  pose proof (load8_range m p).
  destruct (Z.eqb_spec (load8 m p) 0); constructor; auto. lia.
Qed.

Lemma strncmp_bytes_cmp m p q n :
  strncmp m p q n = bytes_cmp (cstrn m p n) (cstrn m q n).
Proof.
  revert p q. induction n as [|n IH]; intros p q; [done|]. cbn [strncmp cstrn].
  unfold nz. pose proof (load8_range m p). pose proof (load8_range m q).
  destruct (Z.eqb_spec (load8 m p) 0) as [E|E]; cbn [negb andb].
  - rewrite E. destruct (Z.eqb_spec (load8 m q) 0) as [->|]; [done|]. simpl. lia.
  - destruct (Z.eqb_spec (load8 m p) (load8 m q)) as [E2|E2].
    + rewrite <- E2. destruct (Z.eqb_spec (load8 m p) 0); [lia|].
      cbn [bytes_cmp]. rewrite Z.eqb_refl. apply IH.
    + destruct (Z.eqb_spec (load8 m q) 0) as [E3|]; cbn [bytes_cmp].
      * rewrite E3. lia.
      * destruct (Z.eqb_spec (load8 m p) (load8 m q)); [lia|done].
Qed.

Lemma bytes_cmp_eq a b :
  Forall (fun c => 0 < c < 256) a -> Forall (fun c => 0 < c < 256) b ->
  bytes_cmp a b = 0 <-> a = b.
Proof.
  revert b. induction a as [|x a IH]; intros [|y b] Ha Hb; simpl.
  - done.
  - apply Forall_cons in Hb as [? _]. split; intros; [lia|done].
  - apply Forall_cons in Ha as [? _]. split; intros; [lia|done].
  - apply Forall_cons in Ha as [? Ha]. apply Forall_cons in Hb as [? Hb].
    destruct (Z.eqb_spec x y) as [->|]; [rewrite (IH b Ha Hb)|]; split; intros H'.
    + by rewrite H'.
    + by injection H'.
    + lia.
    + injection H'. lia.
Qed.

(** [strncmp] (and so [namecmp], directory-name comparison) returns 0
    exactly when the two strings, cut after [n] bytes, are equal. *)
Theorem strncmp_zero m p q n :
  strncmp m p q n = 0 <-> cstrn m p n = cstrn m q n.
Proof. rewrite strncmp_bytes_cmp. apply bytes_cmp_eq; apply cstrn_range. Qed.

Lemma memcmp_zero m p q n :
  memcmp m p q n = 0 <-> bytes_at m p n = bytes_at m q n.
Proof.
  revert p q. induction n as [|n IH]; intros p q; simpl; [done|].
  destruct (Z.eqb_spec (load8 m p) (load8 m q)) as [E|E].
  - rewrite IH, E. split; [by intros ->|by injection 1].
  - split; intros H; [lia|]. by injection H.
Qed.

(** *** strncpy and safestrcpy *)

(** The [n] bytes [strncpy] leaves at the destination. *)
Definition padded (l : list Z) (n : nat) : list Z := l ++ replicate (n - length l) 0.

Lemma cstrn_length m p n : (length (cstrn m p n) <= n)%nat.
Proof.
  revert p. induction n as [|n IH]; intros p; simpl; [lia|].
  destruct (_ =? 0); simpl; [lia|]. specialize (IH (p + 1)). lia.
Qed.

Lemma cstrn_same m m' p n :
  same_on p (p + Z.of_nat n) m m' -> cstrn m' p n = cstrn m p n.
Proof.
  revert p. induction n as [|n IH]; intros p H; [done|]. cbn [cstrn].
  assert (load8 m' p = load8 m p) as -> by (unfold load8; rewrite H; [done|lia]).
  destruct (load8 m p =? 0); [done|]. f_equal. apply IH. intros x Hx. apply H. lia.
Qed.

Lemma strncpy_pad_spec n m s :
  same_outside s (s + Z.of_nat n) m (strncpy_pad m s n) /\
  bytes_at (strncpy_pad m s n) s n = replicate n 0.
Proof.
  revert m s. induction n as [|n IH]; intros m s; [split; [by intros x _|done]|].
  cbn [strncpy_pad bytes_at replicate].
  destruct (IH (store8 m s 0) (s + 1)) as [Ho Hb]. split.
  - intros x Hx. rewrite Ho by lia. apply store8_ne. lia.
  - rewrite Hb. f_equal. unfold load8. rewrite Ho by lia. by rewrite store8_eq.
Qed.

Lemma strncpy_spec_nat n m s t :
  s + Z.of_nat n <= t \/ t + Z.of_nat n <= s ->
  let '(m1, s1, k) := strncpy_copy m s t n in
  let m' := strncpy_pad m1 s1 k in
  bytes_at m' s n = padded (cstrn m t n) n /\
  same_outside s (s + Z.of_nat n) m m'.
Proof.
  revert m s t. induction n as [|n IH]; intros m s t Hd; [split; [done|by intros x _]|].
  cbn [strncpy_copy cstrn bytes_at].
  destruct (Z.eqb_spec (load8 m t) 0) as [E|E].
  - rewrite E.
    destruct (strncpy_pad_spec n (store8 m s 0) (s + 1)) as [Ho Hb]. split.
    + rewrite Hb. unfold load8. rewrite Ho, store8_eq by lia. done.
    + intros x Hx. rewrite Ho by lia. apply store8_ne. lia.
  - specialize (IH (store8 m s (load8 m t)) (s + 1) (t + 1) ltac:(lia)).
    destruct (strncpy_copy _ _ _ _) as [[m1 s1] k]. destruct IH as [Hb Ho].
    rewrite (cstrn_same m) in Hb by (intros x Hx; apply store8_ne; lia). split.
    + rewrite Hb. unfold padded. cbn [app length Nat.sub]. f_equal.
      unfold load8 at 1. rewrite Ho, store8_eq by lia.
      rewrite (u8_small (load8 m t)) by apply load8_range. apply u8_small, load8_range.
    + intros x Hx. rewrite Ho by lia. apply store8_ne. lia.
Qed.

(** [strncpy] leaves at [s] exactly the source string cut after [n]
    bytes and padded with NULs to [n] (the layout of a directory entry's
    name), and writes nothing outside those [n] bytes. *)
Theorem strncpy_pads m s t n (Hn : 0 <= n) (Hd : s + n <= t \/ t + n <= s) :
  bytes_at (strncpy m s t n) s (Z.to_nat n) =
    padded (cstrn m t (Z.to_nat n)) (Z.to_nat n) /\
  same_outside s (s + n) m (strncpy m s t n).
Proof.
  destruct (Z_of_nat_complete n Hn) as [k ->]. unfold strncpy. rewrite Nat2Z.id.
  pose proof (strncpy_spec_nat k m s t Hd) as H.
  by destruct (strncpy_copy m s t k) as [[m1 s1] j].
Qed.

Lemma strncpy_pads_witness :
  bytes_at (strncpy (fun x => if x =? 100 then 97 else if x =? 101 then 98 else 0)
              0 100 4) 0 4 = [97; 98; 0; 0].
Proof.
  exact (proj1 (strncpy_pads
    (fun x => if x =? 100 then 97 else if x =? 101 then 98 else 0)
    0 100 4 ltac:(lia) ltac:(lia))).
Defined.

Lemma safestrcpy_spec_nat n m s t :
  s + Z.of_nat n < t \/ t + Z.of_nat n <= s ->
  let '(m1, s1) := safestrcpy_copy m s t n in
  let m' := store8 m1 s1 0 in
  cstr m' s (cstrn m t n) /\ same_outside s (s + Z.of_nat n + 1) m m'.
Proof.
  revert m s t. induction n as [|n IH]; intros m s t Hd.
  { cbn [safestrcpy_copy cstrn cstr]. split; [by rewrite load8_store8_eq|].
    apply store8_outside. lia. }
  cbn [safestrcpy_copy cstrn].
  destruct (Z.eqb_spec (load8 m t) 0) as [E|E].
  - rewrite E. cbn [cstr]. split.
    + rewrite load8_store8_ne by lia. by rewrite load8_store8_eq.
    + apply same_outside_trans with (store8 m s 0); apply store8_outside; lia.
  - specialize (IH (store8 m s (load8 m t)) (s + 1) (t + 1) ltac:(lia)).
    destruct (safestrcpy_copy _ _ _ _) as [m1 s1]. destruct IH as [Hc Ho].
    rewrite (cstrn_same m) in Hc by (intros x Hx; apply store8_ne; lia). split.
    + cbn [cstr]. split_and!; [|done|done].
      unfold load8 at 1. rewrite Ho, store8_eq by lia.
      rewrite (u8_small (load8 m t)) by apply load8_range. apply u8_small, load8_range.
    + intros x Hx. rewrite Ho by lia. apply store8_ne. lia.
Qed.

(** [safestrcpy] always NUL-terminates: the destination afterwards is
    the C string of the first [n-1] source bytes, and only the [n] bytes of
    the destination are written. *)
Theorem safestrcpy_terminates m s t n (Hn : 0 < n) (Hd : s + n <= t \/ t + n <= s) :
  cstr (safestrcpy m s t n) s (cstrn m t (Z.to_nat (n - 1))) /\
  same_outside s (s + n) m (safestrcpy m s t n).
Proof.
  unfold safestrcpy. destruct (Z.leb_spec n 0); [lia|].
  destruct (Z_of_nat_complete (n - 1) ltac:(lia)) as [k Hk]. rewrite Hk, Nat2Z.id.
  pose proof (safestrcpy_spec_nat k m s t ltac:(lia)) as H'.
  destruct (safestrcpy_copy m s t k) as [m1 s1].
  by replace (s + n) with (s + Z.of_nat k + 1) by lia.
Qed.

Lemma safestrcpy_terminates_witness :
  cstr (safestrcpy (fun x => 97) 0 100 4) 0 [97; 97; 97].
Proof.
  exact (proj1 (safestrcpy_terminates (fun x => 97) 0 100 4 ltac:(lia) ltac:(lia))).
Defined.

(** *** Loops that run to a NUL *)

Lemma cstr_app_nul m p l :
  cstr m p l -> load8 m (p + Z.of_nat (length l)) = 0 /\
  forall i : nat, (i < length l)%nat -> load8 m (p + Z.of_nat i) <> 0.
Proof.
  revert p. induction l as [|c l IH]; intros p; simpl.
  { intros H. rewrite Z.add_0_r. split; [done|lia]. }
  intros (H1 & H2 & H3). destruct (IH _ H3) as [Hn Hi]. split.
  - replace (p + Z.of_nat (S (length l))) with (p + 1 + Z.of_nat (length l)) by lia. done.
  - intros [|i] Hl; [by rewrite Z.add_0_r, H1|].
    replace (p + Z.of_nat (S i)) with (p + 1 + Z.of_nat i) by lia. apply Hi. lia.
Qed.

Lemma strlen_from_spec m s l k fuel :
  cstr m (s + k) l -> (length l < fuel)%nat ->
  strlen_from m s k fuel = Some (k + Z.of_nat (length l)).
Proof.
  revert k fuel. induction l as [|c l IH]; intros k [|f] Hc Hf; simpl in Hf; try lia.
  - simpl in Hc |- *. rewrite Hc. simpl. f_equal. lia.
  - destruct Hc as (H1 & H2 & H3). cbn [strlen_from].
    destruct (Z.eqb_spec (load8 m (s + k)) 0); [congruence|].
    rewrite IH by (replace (s + (k + 1)) with (s + k + 1) by lia; (done || lia)).
    f_equal. cbn [length]. lia.
Qed.

Lemma atoi_from_spec m s l acc c fuel :
  (forall i d, l !! i = Some d -> load8 m (s + Z.of_nat i) = d /\ 48 <= d <= 57) ->
  load8 m (s + Z.of_nat (length l)) = c -> ~ (48 <= c <= 57) ->
  0 <= acc -> decimal l acc < 2 ^ 31 -> (length l < fuel)%nat ->
  atoi_from m s acc fuel = Some (decimal l acc).
Proof.
  revert s acc fuel. induction l as [|d l IH]; intros s acc fuel Hl Hc Hnd Hacc Hv Hf;
    (destruct fuel as [|f]; [simpl in Hf; lia|]); cbn [atoi_from].
  { rewrite Z.add_0_r in Hc. rewrite Hc.
    destruct (Z.leb_spec 48 c), (Z.leb_spec c 57); try lia; done. }
  destruct (Hl O d eq_refl) as [H1 H2]. rewrite Z.add_0_r in H1. rewrite H1.
  destruct (Z.leb_spec 48 d), (Z.leb_spec d 57); try lia. cbn [andb].
  assert (Hmono : forall l a, 0 <= a ->
    (forall i d, l !! i = Some d -> 48 <= d <= 57) -> a <= decimal l a).
  { clear. induction l as [|d l IH]; intros a Ha Hl; [simpl; lia|].
    pose proof (Hl O d eq_refl). simpl. etransitivity; [|apply IH].
    - nia.
    - nia.
    - intros i e Hi. apply (Hl (S i) e Hi). }
  cbn [decimal fold_left] in Hv |- *. fold (decimal l (acc * 10 + (d - 48))) in Hv |- *.
  assert (acc * 10 + (d - 48) <= decimal l (acc * 10 + (d - 48))).
  { apply Hmono; [nia|]. intros i e Hi. apply (Hl (S i) e Hi). }
  rewrite i32_small by lia.
  replace (acc * 10 + d - 48) with (acc * 10 + (d - 48)) by lia.
  apply IH; try lia.
  - intros i e Hi. destruct (Hl (S i) e Hi) as [Hx ?]. split; [|lia].
    rewrite <- Hx. f_equal. lia.
  - rewrite <- Hc. f_equal. cbn [length]. lia.
  - simpl in Hf. lia.
Qed.

(** [atoi] returns the value of the leading decimal digits, for every
    digit string whose value fits in an [int], and it returns. *)
Theorem atoi_decimal m s l c
    (Hl : forall i d, l !! i = Some d -> load8 m (s + Z.of_nat i) = d /\ 48 <= d <= 57)
    (Hc : load8 m (s + Z.of_nat (length l)) = c) (Hnd : ~ (48 <= c <= 57))
    (Hv : decimal l 0 < 2 ^ 31) :
  atoi m s (S (length l)) = Some (decimal l 0).
Proof. unfold atoi. eapply atoi_from_spec; eauto; lia. Qed.

Lemma atoi_decimal_witness :
  atoi (fun x => if x <? 3 then 49 + x else 0) 0 4 = Some 123.
Proof.
  apply (atoi_decimal (fun x => if x <? 3 then 49 + x else 0) 0 [49; 50; 51] 0).
  - intros [|[|[|i]]] d [= <-]; (split; [reflexivity|lia]).
  - reflexivity.
  - lia.
  - reflexivity.
Defined.

End CString.
