(* ===== verification/Mmu.v ===== *)
(** Paging constants and address arithmetic (mmu.h, memlayout.h). *)

From stdpp Require Import base numbers list sets strings.
From Stdlib Require Import ZArith Lia.
From S2P Require Import Prelude.

Module Mmu.

Definition PGSIZE : Z := 4096.
Definition NPDENTRIES : Z := 1024.
Definition NPTENTRIES : Z := 1024.
Definition PTXSHIFT : Z := 12.
Definition PDXSHIFT : Z := 22.
Definition PTE_P : Z := 0x001.
Definition PTE_W : Z := 0x002.
Definition PTE_U : Z := 0x004.
Definition FL_IF : Z := 0x200.

Definition EXTMEM : Z := 0x100000.
Definition PHYSTOP : Z := 0xE000000.
Definition DEVSPACE : Z := 0xFE000000.
Definition KERNBASE : Z := 0x80000000.
Definition KERNLINK : Z := KERNBASE + EXTMEM.

Definition V2P (a : Z) : Z := u32 (a - KERNBASE).
Definition P2V (a : Z) : Z := u32 (a + KERNBASE).

Definition PDX (va : Z) : Z := Z.land (Z.shiftr (u32 va) PDXSHIFT) 0x3FF.
Definition PTX (va : Z) : Z := Z.land (Z.shiftr (u32 va) PTXSHIFT) 0x3FF.
Definition PGADDR (d t o : Z) : Z :=
  u32 (Z.lor (Z.lor (Z.shiftl d PDXSHIFT) (Z.shiftl t PTXSHIFT)) o).
Definition PGROUNDUP (sz : Z) : Z := Z.land (u32 (sz + PGSIZE - 1)) (Z.lnot (PGSIZE - 1)).
Definition PGROUNDDOWN (a : Z) : Z := Z.land (u32 a) (Z.lnot (PGSIZE - 1)).
Definition PTE_ADDR (pte : Z) : Z := Z.land (u32 pte) (Z.lnot 0xFFF).
Definition PTE_FLAGS (pte : Z) : Z := Z.land (u32 pte) 0xFFF.

(** *** Arithmetic reading of the bit operations *)

Lemma land_low x : Z.land x 0xFFF = x mod PGSIZE.
Proof. change 0xFFF with (Z.ones 12). by rewrite Z.land_ones by lia. Qed.

Lemma land_high x : Z.land x (Z.lnot 0xFFF) = PGSIZE * (x / PGSIZE).
Proof.
  assert (Z.land x (Z.lnot 0xFFF) = Z.ldiff x (Z.ones 12)) as -> by reflexivity || done.
  rewrite Z.ldiff_ones_r, Z.shiftr_div_pow2, Z.shiftl_mul_pow2 by lia.
  unfold PGSIZE. change (2 ^ 12) with 4096. lia.
Qed.

Lemma PGROUNDDOWN_eq a : is_u32 a -> PGROUNDDOWN a = PGSIZE * (a / PGSIZE).
Proof. intros. unfold PGROUNDDOWN. rewrite u32_small by done. apply land_high. Qed.

Lemma PGROUNDUP_eq a :
  0 <= a -> a + PGSIZE - 1 < 2 ^ 32 -> PGROUNDUP a = PGSIZE * ((a + PGSIZE - 1) / PGSIZE).
Proof.
  intros. unfold PGROUNDUP. rewrite u32_small by (unfold PGSIZE in *; lia). apply land_high.
Qed.

Lemma PGROUNDUP_bounds a :
  0 <= a -> a + PGSIZE - 1 < 2 ^ 32 ->
  PGROUNDUP a mod PGSIZE = 0 /\ a <= PGROUNDUP a < a + PGSIZE.
Proof.
  intros. rewrite PGROUNDUP_eq by done. unfold PGSIZE in *.
  split; [rewrite Z.mul_comm; apply Z.mod_mul; lia|]. dlia.
Qed.

Lemma PTE_ADDR_eq p : is_u32 p -> PTE_ADDR p = PGSIZE * (p / PGSIZE).
Proof. intros. unfold PTE_ADDR. rewrite u32_small by done. apply land_high. Qed.

Lemma PTE_FLAGS_eq p : is_u32 p -> PTE_FLAGS p = p mod PGSIZE.
Proof. intros. unfold PTE_FLAGS. rewrite u32_small by done. apply land_low. Qed.

Lemma PDX_eq va : is_u32 va -> PDX va = va / 2 ^ 22.
Proof.
  intros [H1 H2]. unfold PDX, PDXSHIFT. rewrite u32_small by done.
  rewrite Z.shiftr_div_pow2 by lia. change 0x3FF with (Z.ones 10).
  rewrite Z.land_ones by lia. apply Z.mod_small. split; [dlia|].
  apply Z.div_lt_upper_bound; lia.
Qed.

Lemma PTX_eq va : is_u32 va -> PTX va = (va / 2 ^ 12) mod 2 ^ 10.
Proof.
  intros. unfold PTX, PTXSHIFT. rewrite u32_small by done.
  rewrite Z.shiftr_div_pow2 by lia. change 0x3FF with (Z.ones 10).
  by rewrite Z.land_ones by lia.
Qed.

Lemma PDX_range va : 0 <= PDX va < NPDENTRIES.
Proof.
  unfold PDX, NPDENTRIES. change 0x3FF with (Z.ones 10). rewrite Z.land_ones by lia.
  apply Z.mod_pos_bound. lia.
Qed.

Lemma PTX_range va : 0 <= PTX va < NPTENTRIES.
Proof.
  unfold PTX, NPTENTRIES. change 0x3FF with (Z.ones 10). rewrite Z.land_ones by lia.
  apply Z.mod_pos_bound. lia.
Qed.

Lemma lor_shiftl a b n :
  0 <= n -> 0 <= b < 2 ^ n -> Z.lor (Z.shiftl a n) b = a * 2 ^ n + b.
Proof.
  intros Hn Hb. rewrite Z.shiftl_mul_pow2 by lia.
  assert (Hd : Z.land (a * 2 ^ n) b = 0).
  { apply Z.bits_inj'. intros i Hi. rewrite Z.land_spec, Z.bits_0.
    destruct (Z.lt_ge_cases i n); [by rewrite Z.mul_pow2_bits_low by lia|].
    rewrite (Z.testbit_eqb b) by lia. rewrite (Z.div_small b).
    - by rewrite andb_false_r.
    - split; [lia|]. eapply Z.lt_le_trans; [apply Hb|]. apply Z.pow_le_mono_r; lia. }
  by rewrite Z.add_nocarry_lxor, Z.lxor_lor.
Qed.

(** a virtual address splits into directory index, table index and
    page offset and [PGADDR] puts it back together: no bit is lost and no
    two addresses share all three parts. *)
Theorem PGADDR_roundtrip va (H : is_u32 va) :
  PGADDR (PDX va) (PTX va) (PTE_FLAGS va) = va.
Proof.
  rewrite PDX_eq, PTX_eq, PTE_FLAGS_eq by done. unfold PGADDR, PDXSHIFT, PTXSHIFT, PGSIZE.
  destruct H as [H1 H2].
  set (d := va / 2 ^ 22). set (t := (va / 2 ^ 12) mod 2 ^ 10). set (o := va mod 4096).
  rewrite <- Z.lor_assoc. rewrite (lor_shiftl t o 12) by (unfold o; dlia).
  rewrite (lor_shiftl d (t * 2 ^ 12 + o) 22) by (unfold t, o; dlia).
  rewrite u32_small; unfold d, t, o; dlia.
Qed.

Lemma PGADDR_roundtrip_witness :
  is_u32 0x80100ABC /\ PGADDR (PDX 0x80100ABC) (PTX 0x80100ABC) 0xABC = 0x80100ABC.
Proof.
  assert (H : is_u32 0x80100ABC) by (unfold is_u32; lia). split; [done|].
  exact (PGADDR_roundtrip _ H).
Defined.

Lemma P2V_V2P a : is_u32 a -> P2V (V2P a) = a.
Proof.
  intros [H1 H2]. unfold P2V, V2P. rewrite u32_add_l.
  replace (a - KERNBASE + KERNBASE) with a by lia. by apply u32_small.
Qed.

Lemma V2P_P2V a : is_u32 a -> V2P (P2V a) = a.
Proof.
  intros [H1 H2]. unfold P2V, V2P. rewrite u32_sub_l.
  replace (a + KERNBASE - KERNBASE) with a by lia. by apply u32_small.
Qed.

End Mmu.
