(* ===== verification/Seg.v ===== *)
(** Segment descriptors, gates and the task state (mmu.h), as the bit fields
    the hardware reads. *)

From stdpp Require Import base numbers list sets strings.
From Stdlib Require Import ZArith Lia.
From S2P Require Import Prelude.

Module Seg.

Definition SEG_KCODE : Z := 1.
Definition SEG_KDATA : Z := 2.
Definition SEG_UCODE : Z := 3.
Definition SEG_UDATA : Z := 4.
Definition SEG_TSS : Z := 5.
Definition NSEGS : Z := 6.
Definition DPL_USER : Z := 3.
Definition STA_X : Z := 0x8.
Definition STA_W : Z := 0x2.
Definition STA_R : Z := 0x2.
Definition STS_T32A : Z := 0x9.
Definition STS_IG32 : Z := 0xE.
Definition STS_TG32 : Z := 0xF.

Record segdesc := mkSeg {
  lim_15_0 : Z; base_15_0 : Z; base_23_16 : Z; sd_type : Z; sd_s : Z; sd_dpl : Z; sd_p : Z;
  lim_19_16 : Z; avl : Z; sd_rsv1 : Z; db : Z; g : Z; base_31_24 : Z }.
#[export] Instance eta_segdesc : Eta segdesc := fun d =>
  mkSeg d.(lim_15_0) d.(base_15_0) d.(base_23_16) d.(sd_type) d.(sd_s) d.(sd_dpl) d.(sd_p)
    d.(lim_19_16) d.(avl) d.(sd_rsv1) d.(db) d.(g) d.(base_31_24).

(** The values are cut to the width of their bit fields. *)
Definition SEG (type base lim dpl : Z) : segdesc :=
  mkSeg (Z.land (Z.shiftr lim 12) 0xffff) (Z.land (u32 base) 0xffff)
    (Z.land (Z.shiftr (u32 base) 16) 0xff) (type mod 2 ^ 4) 1 (dpl mod 2 ^ 2) 1
    (Z.shiftr (u32 lim) 28 mod 2 ^ 4) 0 0 1 1 (Z.shiftr (u32 base) 24 mod 2 ^ 8).
Definition SEG16 (type base lim dpl : Z) : segdesc :=
  mkSeg (Z.land lim 0xffff) (Z.land (u32 base) 0xffff)
    (Z.land (Z.shiftr (u32 base) 16) 0xff) (type mod 2 ^ 4) 1 (dpl mod 2 ^ 2) 1
    (Z.shiftr (u32 lim) 16 mod 2 ^ 4) 0 0 1 0 (Z.shiftr (u32 base) 24 mod 2 ^ 8).

(** The fields of [struct taskstate] the kernel sets. *)
Record taskstate := mkTs { esp0 : Z; ss0 : Z; iomb : Z }.
#[export] Instance eta_taskstate : Eta taskstate := fun t => mkTs t.(esp0) t.(ss0) t.(iomb).

Record gatedesc := mkGate {
  off_15_0 : Z; gd_cs : Z; args : Z; gd_rsv1 : Z; gd_type : Z; gd_s : Z; gd_dpl : Z;
  gd_p : Z; off_31_16 : Z }.

Definition SETGATE (istrap : bool) (sel off d : Z) : gatedesc :=
  mkGate (Z.land (u32 off) 0xffff) (sel mod 2 ^ 16) 0 0 (if istrap then STS_TG32 else STS_IG32)
    0 (d mod 2 ^ 2) 1 (Z.shiftr (u32 off) 16 mod 2 ^ 16).

(** *** What the hardware reads back *)

Definition seg_base (d : segdesc) : Z :=
  base_15_0 d + 2 ^ 16 * base_23_16 d + 2 ^ 24 * base_31_24 d.
Definition seg_limit (d : segdesc) : Z :=
  let l := lim_15_0 d + 2 ^ 16 * lim_19_16 d in
  if g d =? 0 then l else l * 4096 + 4095.
Definition gate_offset (d : gatedesc) : Z := off_15_0 d + 2 ^ 16 * off_31_16 d.

Lemma land_ffff x : Z.land x 0xffff = x mod 2 ^ 16.
Proof. change 0xffff with (Z.ones 16). by rewrite Z.land_ones by lia. Qed.

Lemma land_ff x : Z.land x 0xff = x mod 2 ^ 8.
Proof. change 0xff with (Z.ones 8). by rewrite Z.land_ones by lia. Qed.

Lemma split_base b :
  Z.land (u32 b) 0xffff + 2 ^ 16 * Z.land (Z.shiftr (u32 b) 16) 0xff
    + 2 ^ 24 * (Z.shiftr (u32 b) 24 mod 2 ^ 8) = u32 b.
Proof.
  rewrite land_ffff, land_ff, !Z.shiftr_div_pow2 by lia. pose proof (u32_range b).
  generalize dependent (u32 b). intros x Hx.
  change (2 ^ 32) with 4294967296 in Hx. change (2 ^ 24) with 16777216.
  change (2 ^ 16) with 65536. change (2 ^ 8) with 256. dlia.
Qed.

(** The descriptor macros keep what they encode: the base of a segment, its
    limit (byte granular for [SEG16], in 4K units for [SEG]) and the entry
    point of a gate come back exactly, so a [SEG16] task segment points at
    the task state and a gate at its vector. *)
Theorem descriptors_decode type base lim dpl istrap sel off d (Hl : 0 <= lim < 2 ^ 20)
    (Hl2 : is_u32 (lim * 4096 + 4095)) :
  seg_base (SEG type base (lim * 4096 + 4095) dpl) = u32 base /\
  seg_limit (SEG type base (lim * 4096 + 4095) dpl) = lim * 4096 + 4095 /\
  seg_base (SEG16 type base lim dpl) = u32 base /\
  seg_limit (SEG16 type base lim dpl) = lim /\
  gate_offset (SETGATE istrap sel off d) = u32 off.
Proof.
  unfold seg_base, seg_limit, gate_offset. simpl. rewrite !split_base.
  destruct Hl2 as [Ha Hb]. rewrite (u32_small (lim * 4096 + 4095)), (u32_small lim) by lia.
  rewrite !land_ffff, !Z.shiftr_div_pow2 by lia. pose proof (u32_range off).
  change (2 ^ 32) with 4294967296 in *. change (2 ^ 28) with 268435456.
  change (2 ^ 16) with 65536. change (2 ^ 12) with 4096. change (2 ^ 20) with 1048576 in *.
  change (2 ^ 4) with 16. split_and!; try done; dlia.
Qed.

Lemma descriptors_decode_witness :
  seg_limit (SEG STA_W 0 0xffffffff 0) = 0xffffffff /\
  seg_base (SEG16 STS_T32A 0x80112780 0x67 0) = 0x80112780.
Proof.
  split.
  - apply (descriptors_decode STA_W 0 0xfffff 0 true 0 0 0); unfold is_u32; lia.
  - apply (descriptors_decode STS_T32A 0x80112780 0x67 0 true 0 0 0); unfold is_u32; lia.
Defined.

End Seg.
