(* ===== verification/Kalloc.v ===== *)
(** The physical page allocator (kalloc.c).

    The free list is the linked list of the source: the first word of each
    free page holds the address of the next one.  [flist] relates it to a
    list of pages, and the theorems show that [kalloc], [kfree] and
    [freerange] implement a stack of pages. *)

From stdpp Require Import base numbers list sets strings relations.
From Stdlib Require Import ZArith Lia.
From S2P Require Import Prelude Mem CString Mmu.
Import CString Mmu.

Module Kalloc.

(** [struct kmem] (its lock is in the monad) and the memory it manages. *)
Record kmem := mkKmem { kmemory : mem; use_lock : Z; freelist : Z }.
#[export] Instance eta_kmem : Eta kmem :=
  fun k => mkKmem k.(kmemory) k.(use_lock) k.(freelist).

Section kalloc.
(** [end[]]: first address after the kernel, set by the linker script. *)
Variable kend : Z.

(** [if (kmem.use_lock) acquire(&kmem.lock);] and its release. *)
Definition lock_kmem : K kmem unit :=
  u ← gets use_lock; if nz u then acquire Lkmem else mret tt.
Definition unlock_kmem : K kmem unit :=
  u ← gets use_lock; if nz u then release Lkmem else mret tt.

Definition kfree (v : Z) : K kmem unit :=
  if nz (v mod PGSIZE) || (v <? kend) || (PHYSTOP <=? V2P v) then panic "kfree"
  else
    modify (fun k => k <| kmemory ::= fun m => memset m v 1 PGSIZE |>) ;;
    lock_kmem ;;
    modify (fun k => k <| kmemory ::= fun m => store32 m v (freelist k) |>) ;;
    modify (fun k => k <| freelist := v |>) ;;
    unlock_kmem.

Definition kalloc : K kmem Z :=
  lock_kmem ;;
  (r ← gets freelist;
   (if nz r then modify (fun k => k <| freelist := load32 (kmemory k) r |>)
    else mret tt) ;;
   unlock_kmem ;;
   mret r).

(** [for (; p + PGSIZE <= vend; p += PGSIZE) kfree(p);] *)
Fixpoint freerange_loop (p vend : Z) (fuel : nat) : K kmem unit :=
  match fuel with
  | O => fault "out of fuel"
  | S f =>
      if p + PGSIZE <=? vend then kfree p ;; freerange_loop (p + PGSIZE) vend f
      else mret tt
  end.

Definition freerange (vstart vend : Z) (fuel : nat) : K kmem unit :=
  freerange_loop (PGROUNDUP vstart) vend fuel.

Definition kinit1 (vstart vend : Z) (fuel : nat) : K kmem unit :=
  modify (fun k => k <| use_lock := 0 |>) ;; freerange vstart vend fuel.

Definition kinit2 (vstart vend : Z) (fuel : nat) : K kmem unit :=
  freerange vstart vend fuel ;; modify (fun k => k <| use_lock := 1 |>).

(** *** Specification *)

(** A page the allocator may hold. *)
Definition page_ok (v : Z) : Prop :=
  is_u32 v /\ v mod PGSIZE = 0 /\ kend <= v /\ V2P v < PHYSTOP.

(** The linked list from [p] visits the pages [l]. *)
Fixpoint flist (m : mem) (p : Z) (l : list Z) : Prop :=
  match l with
  | [] => p = 0
  | v :: r => p = v /\ flist m (load32 m v) r
  end.

Record kmem_inv (k : kmem) (l : list Z) : Prop := {
  ki_list : flist (kmemory k) (freelist k) l;
  ki_nodup : NoDup l;
  ki_pages : Forall page_ok l
}.

(** Whole pages between [p] and [vend], lowest first. *)
Fixpoint pages (p vend : Z) (n : nat) : list Z :=
  match n with
  | O => []
  | S n' => if p + PGSIZE <=? vend then p :: pages (p + PGSIZE) vend n' else []
  end.

Lemma page_ok_range v : page_ok v -> KERNBASE <= v < KERNBASE + PHYSTOP.
Proof.
  intros ((H1 & H2) & _ & _ & H3). unfold V2P, u32, KERNBASE, PHYSTOP in *.
  change (2 ^ 32) with 4294967296 in *. dlia.
Qed.

Lemma page_ok_nonzero v : page_ok v -> v <> 0.
Proof. intros H%page_ok_range. unfold KERNBASE in H. lia. Qed.

Lemma pages_disjoint v w :
  page_ok v -> page_ok w -> v <> w -> v + PGSIZE <= w \/ w + PGSIZE <= v.
Proof.
  intros (_ & Hv & _) (_ & Hw & _). unfold PGSIZE in *. intros. dlia.
Qed.

Lemma flist_frame m m' v p l :
  same_outside v (v + PGSIZE) m m' -> page_ok v -> Forall page_ok l -> v ∉ l ->
  flist m p l -> flist m' p l.
Proof.
  intros Hs Hv. revert p. induction l as [|w l IH]; intros p Hl Hn; [done|].
  apply Forall_cons in Hl as [Hw Hl]. apply not_elem_of_cons in Hn as [Hne Hn].
  intros [-> Hf]. split; [done|].
  replace (load32 m' w) with (load32 m w); [by apply IH|].
  symmetry. apply load32_same. eapply same_outside_on; [done|].
  destruct (pages_disjoint v w); unfold PGSIZE in *; auto; lia.
Qed.

(** Writing a page that is not free keeps the free list. *)
Lemma kmem_inv_frame k v fl m :
  kmem_inv k fl -> page_ok v -> v ∉ fl ->
  same_outside v (v + PGSIZE) (kmemory k) m -> kmem_inv (k <| kmemory := m |>) fl.
Proof.
  intros [Hl Hd Hp] Hv Hn Hs. split; [|done|done]. cbn. eapply flist_frame; eauto.
Qed.

Lemma lock_kmem_ok L k :
  Lkmem ∉ L -> exists L', lock_kmem L k = Ok tt L' k /\ forall k', use_lock k' = use_lock k ->
    unlock_kmem L' k' = Ok tt L k'.
Proof.
  intros HL. unfold lock_kmem, unlock_kmem, gets.
  destruct (nz (use_lock k)) eqn:E.
  - exists (Lkmem :: L). split.
    + unfold mbind, K_bind. rewrite E. by apply acquire_free.
    + intros k' Hu. unfold mbind, K_bind. rewrite Hu, E. by apply release_top.
  - exists L. split; [|intros k' Hu]; unfold mbind, K_bind; by rewrite ?Hu, E.
Qed.

Lemma kfree_guard v :
  is_u32 v ->
  nz (v mod PGSIZE) || (v <? kend) || (PHYSTOP <=? V2P v) = false <-> page_ok v.
Proof.
  intros Hv. unfold page_ok, nz. rewrite !orb_false_iff, negb_false_iff, Z.eqb_eq.
  rewrite Z.ltb_ge, Z.leb_gt. tauto.
Qed.

(** [kfree] of a valid page that is not already free puts it at the
    head of the free list, keeps the allocator's invariant, touches no other
    memory and returns with the locks it was called with. *)
Lemma kfree_spec v l L k (Hv : page_ok v) (Hn : v ∉ l) (Hk : kmem_inv k l)
    (HL : Lkmem ∉ L) :
  exists k', kfree v L k = Ok tt L k' /\ kmem_inv k' (v :: l) /\
    same_outside v (v + PGSIZE) (kmemory k) (kmemory k') /\ use_lock k' = use_lock k.
Proof.
  assert (Hu : is_u32 v) by apply Hv.
  unfold kfree. rewrite (proj2 (kfree_guard v Hu) Hv). kstep.
  destruct (lock_kmem_ok L (k <| kmemory ::= fun m => memset m v 1 PGSIZE |>) HL)
    as (L' & HL1 & HL2).
  erewrite bind_Ok by exact HL1. ksteps. rewrite HL2 by done.
  eexists. split; [done|]. simpl.
  set (m1 := memset (kmemory k) v 1 PGSIZE).
  assert (Hs : same_outside v (v + PGSIZE) (kmemory k) (store32 m1 v (freelist k))).
  { intros x Hx. rewrite store32_out by (unfold PGSIZE in Hx; lia).
    unfold m1. rewrite memset_fill.
    destruct (Z.leb_spec v x), (Z.ltb_spec x (v + PGSIZE)); simpl; (done || lia). }
  split; [|done]. destruct Hk as [Hl Hd Hp]. split; simpl.
  - split; [done|]. rewrite load32_store32_eq. rewrite u32_small.
    + eapply flist_frame; eauto.
    + destruct l as [|w l]; simpl in Hl; [rewrite Hl; lia|].
      destruct Hl as [-> _]. apply Forall_cons in Hp as [[? _] _]. done.
  - by constructor.
  - by constructor.
Qed.

(** [kfree] of anything else panics: a misaligned address, one inside
    the kernel image or one beyond physical memory. *)
Theorem kfree_rejects v L k (Hu : is_u32 v) :
  ~ page_ok v <-> kfree v L k = Panic "kfree".
Proof.
  rewrite <- (kfree_guard v Hu). unfold kfree.
  destruct (_ || _ || _) eqn:E; [done|]. split; [intros H; by destruct H|].
  intros H _. revert H. unfold lock_kmem, unlock_kmem. kunfold. simpl.
  destruct (nz (use_lock k)) eqn:E2; simpl; [|by rewrite E2]. unfold acquire.
  case_decide; simpl; [done|]. rewrite E2. unfold release. by case_decide.
Qed.

(** [kalloc] pops the page at the head of the free list; with no free
    page it returns 0 and changes nothing. *)
Lemma kalloc_spec l L k (Hk : kmem_inv k l) (HL : Lkmem ∉ L) :
  match l with
  | [] => kalloc L k = Ok 0 L k
  | v :: l' => exists k', kalloc L k = Ok v L k' /\ kmem_inv k' l' /\ page_ok v /\
      (v ∉ l') /\ kmemory k' = kmemory k /\ use_lock k' = use_lock k
  end.
Proof.
  unfold kalloc. destruct (lock_kmem_ok L k HL) as (L' & HL1 & HL2).
  erewrite bind_Ok by exact HL1. kstep.
  destruct Hk as [Hl Hd Hp]. destruct l as [|v l']; simpl in Hl.
  - rewrite Hl. simpl. kstep. by rewrite (bind_Ok _ _ _ _ _ _ _ (HL2 _ eq_refl)).
  - destruct Hl as [-> Hf]. apply Forall_cons in Hp as [Hv Hp].
    apply NoDup_cons in Hd as [Hn Hd].
    destruct (nz v) eqn:E.
    2: { exfalso. apply (page_ok_nonzero v Hv). unfold nz in E.
         by apply negb_false_iff, Z.eqb_eq in E. }
    kstep. erewrite bind_Ok by (apply HL2; reflexivity).
    eexists. split; [done|]. simpl. split_and!; done.
Qed.

Lemma pages_elem p vend n v :
  v ∈ pages p vend n ->
  p <= v /\ v + PGSIZE <= vend /\ v mod PGSIZE = p mod PGSIZE.
Proof.
  revert p. induction n as [|n IH]; intros p; simpl; [set_solver|].
  destruct (Z.leb_spec (p + PGSIZE) vend); [|set_solver].
  rewrite elem_of_cons. intros [->|Hv]; [lia|].
  destruct (IH _ Hv) as (? & ? & Hm). unfold PGSIZE in *.
  rewrite Hm, <- Zplus_mod_idemp_r. rewrite Z_mod_same_full, Z.add_0_r. lia.
Qed.

Lemma freerange_loop_spec n p vend l L k :
  kmem_inv k l -> Lkmem ∉ L -> p mod PGSIZE = 0 -> kend <= p -> KERNBASE <= p ->
  vend <= KERNBASE + PHYSTOP -> (forall v, v ∈ l -> v < p \/ vend <= v) ->
  (0 < n)%nat -> vend < p + PGSIZE * Z.of_nat n ->
  exists k', freerange_loop p vend n L k = Ok tt L k' /\
    kmem_inv k' (rev (pages p vend n) ++ l) /\ use_lock k' = use_lock k /\
    same_outside p (Z.max p vend) (kmemory k) (kmemory k').
Proof.
  revert p l k. induction n as [|n IH]; intros p l k Hk HL Hp He Hb Hv Hl Hn Hf; [lia|].
  cbn [freerange_loop pages]. destruct (Z.leb_spec (p + PGSIZE) vend) as [Hle|Hgt].
  2: { exists k. split; [done|]. split; [done|]. split; [done|]. apply same_outside_refl. }
  assert (Hok : page_ok p).
  { split_and!; try done; unfold is_u32, V2P, KERNBASE, PHYSTOP, PGSIZE in *; try lia.
    rewrite u32_small; lia. }
  destruct (kfree_spec p l L k) as (k1 & Hk1 & Hinv & Hout & Hu); auto.
  { intros Hin. destruct (Hl p Hin); unfold PGSIZE in *; lia. }
  erewrite bind_Ok by exact Hk1.
  destruct (IH (p + PGSIZE) (p :: l) k1) as (k' & Hr & Hi & Hu' & Hout'); auto.
  - unfold PGSIZE in *. rewrite <- Zplus_mod_idemp_r, Z_mod_same_full, Z.add_0_r. done.
  - unfold PGSIZE. lia.
  - unfold PGSIZE. lia.
  - intros v [->|Hin]%elem_of_cons; [unfold PGSIZE; lia|].
    destruct (Hl v Hin); unfold PGSIZE; lia.
  - destruct n; unfold PGSIZE in *; lia.
  - unfold PGSIZE in *. lia.
  - exists k'. split; [done|]. split; [|split; [congruence|]].
    + cbn [rev]. by rewrite <- app_assoc.
    + unfold PGSIZE in *. eapply same_outside_trans; eapply same_outside_weaken; try eassumption; lia.
Qed.

(** [freerange] (the loop that seeds the allocator at boot) terminates
    and frees exactly the whole pages between [vstart] and [vend], without
    ever panicking, whatever the alignment of the two ends. *)
Theorem freerange_frees_all vstart vend l L k fuel
    (Hk : kmem_inv k l) (HL : Lkmem ∉ L)
    (Hs : KERNBASE <= vstart) (He : kend <= vstart) (Hv : vend <= KERNBASE + PHYSTOP)
    (Hsv : vstart <= vend)
    (Hl : forall v, v ∈ l -> v < vstart \/ vend <= v)
    (Hf : vend < vstart + PGSIZE * Z.of_nat fuel) :
  exists k', freerange vstart vend fuel L k = Ok tt L k' /\
    kmem_inv k' (rev (pages (PGROUNDUP vstart) vend fuel) ++ l) /\
    same_outside vstart vend (kmemory k) (kmemory k') /\ use_lock k' = use_lock k /\
    forall v, v ∈ pages (PGROUNDUP vstart) vend fuel <->
      v mod PGSIZE = 0 /\ vstart <= v /\ v + PGSIZE <= vend.
Proof.
  assert (Hu : vstart + PGSIZE - 1 < 2 ^ 32)
    by (unfold KERNBASE, PHYSTOP, PGSIZE in *; lia).
  destruct (PGROUNDUP_bounds vstart) as [Hm Hr]; [unfold KERNBASE in Hs; lia|done|].
  destruct (freerange_loop_spec fuel (PGROUNDUP vstart) vend l L k)
    as (k' & H1 & H2 & Hu' & Hout); auto; try lia.
  { intros v Hin. destruct (Hl v Hin); lia. }
  { destruct fuel; unfold PGSIZE in *; lia. }
  exists k'. split; [done|]. split; [done|].
  split. { intros x Hx. apply Hout. unfold PGSIZE in *. lia. }
  split; [done|]. intros v. split.
  - intros (? & ? & Hvm)%pages_elem. rewrite Hvm, Hm. lia.
  - intros (Hvm & Hvs & Hve).
    assert (Hge : PGROUNDUP vstart <= v) by (unfold PGSIZE in *; dlia).
    assert (Hlt : vend < PGROUNDUP vstart + PGSIZE * Z.of_nat fuel) by lia.
    clear -Hm Hvm Hge Hve Hlt. revert Hm Hge Hlt. generalize (PGROUNDUP vstart).
    induction fuel as [|n IH]; intros p Hm Hge Hlt; [unfold PGSIZE in *; simpl in *; lia|].
    simpl. destruct (Z.leb_spec (p + PGSIZE) vend); [|lia].
    destruct (decide (v = p)) as [->|Hne]; [by left|]. right. apply IH.
    + unfold PGSIZE in *. rewrite <- Zplus_mod_idemp_r, Z_mod_same_full, Z.add_0_r. done.
    + unfold PGSIZE in *. dlia.
    + unfold PGSIZE in *. lia.
Qed.

(** *** Interleavings of allocation and release

    A client of the allocator holds the pages it was given; it may allocate
    or give one back.  [astep] is one such call on the real data structure. *)

Inductive astep (L : locks) : kmem * list Z -> kmem * list Z -> Prop :=
| astep_alloc k k' v held :
    kalloc L k = Ok v L k' -> v <> 0 -> astep L (k, held) (k', v :: held)
| astep_fail k k' held :
    kalloc L k = Ok 0 L k' -> astep L (k, held) (k', held)
| astep_free k k' v h1 h2 :
    kfree v L k = Ok tt L k' -> astep L (k, h1 ++ v :: h2) (k', h1 ++ h2).

(** Free pages and pages in use together are the pages [all]. *)
Definition conserved (all : list Z) (st : kmem * list Z) : Prop :=
  exists l, kmem_inv st.1 l /\ Permutation (l ++ st.2) all.

Lemma astep_conserved L all st st' :
  Lkmem ∉ L -> NoDup all -> Forall page_ok all ->
  conserved all st -> astep L st st' -> conserved all st'.
Proof.
  intros HL Hnd Hok (l & Hk & Hp) Hs. destruct Hs as [k k' v held Hr Hv|k k' held Hr|k k' v h1 h2 Hr];
    simpl in *.
  - pose proof (kalloc_spec l L k Hk HL) as H. destruct l as [|w l'].
    + rewrite H in Hr. injection Hr as <- _. done.
    + destruct H as (k'' & H1 & H2 & _). rewrite H1 in Hr. injection Hr as <- <-.
      exists l'. split; [done|]. simpl. rewrite <- Hp. simpl. by rewrite Permutation_middle.
  - pose proof (kalloc_spec l L k Hk HL) as H. destruct l as [|w l'].
    + rewrite H in Hr. injection Hr as <-. by exists [].
    + destruct H as (k'' & H1 & _ & Hw & _). rewrite H1 in Hr. injection Hr as -> _.
      by apply page_ok_nonzero in Hw.
  - assert (Hin : v ∈ all) by (rewrite <- Hp; set_solver).
    assert (Hnl : v ∉ l).
    { rewrite <- Hp, Permutation_app_comm, <- app_assoc in Hnd. simpl in Hnd.
      apply NoDup_app in Hnd as (_ & _ & Hnd). apply NoDup_cons in Hnd as [Hn _].
      set_solver. }
    destruct (kfree_spec v l L k) as (k'' & H1 & H2 & _); auto.
    { by eapply Forall_forall in Hok. }
    rewrite H1 in Hr. injection Hr as <-. exists (v :: l). split; [done|].
    simpl. rewrite <- Hp. solve_Permutation.
Qed.

(** C5: page conservation.  In every state reachable by any sequence of
    allocations and releases the pages handed out are distinct and none of
    them is on the free list: the allocator never gives the same page to two
    owners and never loses one. *)
Theorem pages_never_shared L k0 all st
    (HL : Lkmem ∉ L) (H0 : kmem_inv k0 all) (Hr : rtc (astep L) (k0, []) st) :
  exists free, kmem_inv st.1 free /\ NoDup (free ++ st.2) /\
    Permutation (free ++ st.2) all.
Proof.
  assert (conserved all st) as (l & Hk & Hp).
  { assert (Hi : conserved all (k0, [])) by (exists all; by rewrite app_nil_r).
    revert Hi. induction Hr as [|x y z Hxy _ IH]; [done|]. intros Hx. apply IH.
    eapply astep_conserved; eauto; apply H0. }
  exists l. split; [done|]. split; [|done]. rewrite Hp. apply H0.
Qed.

End kalloc.

(** *** Concrete runs *)

(** No page free, and one page (just above the kernel) free. *)
Definition boot_kmem : kmem := mkKmem (fun _ => 0) 1 0.
Definition one_page : kmem := mkKmem (fun _ => 0) 1 0x80100000.

Lemma boot_kmem_inv kend : kmem_inv kend boot_kmem [].
Proof. split; [done|constructor|constructor]. Qed.

Lemma page_ok_first : page_ok 0x80100000 0x80100000.
Proof. unfold page_ok, is_u32. split_and!; try lia; reflexivity. Qed.

Lemma one_page_inv : kmem_inv 0x80100000 one_page [0x80100000].
Proof.
  split; [done|apply NoDup_singleton|]. constructor; [apply page_ok_first|constructor].
Qed.

Lemma kfree_rejects_witness :
  is_u32 0x80100001 /\ kfree 0x80100000 0x80100001 [] boot_kmem = Panic "kfree".
Proof.
  assert (H : is_u32 0x80100001) by (unfold is_u32; lia). split; [done|].
  apply (kfree_rejects 0x80100000 0x80100001 [] boot_kmem H).
  intros (_ & Hm & _). discriminate Hm.
Defined.

Lemma freerange_frees_all_witness :
  exists k', freerange 0x80100000 0x80100001 0x80103000 4 [] boot_kmem = Ok tt [] k' /\
    kmem_inv 0x80100000 k' [0x80102000; 0x80101000].
Proof.
  destruct (freerange_frees_all 0x80100000 0x80100001 0x80103000 [] [] boot_kmem 4
    (boot_kmem_inv _) ltac:(set_solver) ltac:(unfold KERNBASE; lia) ltac:(lia)
    ltac:(unfold KERNBASE, PHYSTOP; lia) ltac:(lia) ltac:(set_solver)
    ltac:(unfold PGSIZE; lia)) as (k' & H1 & H2 & _).
  by exists k'.
Defined.

Lemma pages_never_shared_witness :
  exists k' free, rtc (astep 0x80100000 []) (one_page, []) (k', [0x80100000]) /\
    kmem_inv 0x80100000 k' free /\ NoDup (free ++ [0x80100000]).
Proof.
  destruct (kalloc_spec 0x80100000 [0x80100000] [] one_page one_page_inv
    ltac:(set_solver)) as (k' & H1 & _).
  assert (Hr : rtc (astep 0x80100000 []) (one_page, []) (k', [0x80100000])).
  { apply rtc_once. by constructor. }
  destruct (pages_never_shared 0x80100000 [] one_page [0x80100000] _
    ltac:(set_solver) one_page_inv Hr) as (free & H2 & H3 & _).
  by exists k', free.
Defined.

End Kalloc.
