(* ===== verification/Vm.v ===== *)
(** Page tables and address spaces (vm.c).

    Page directories and page tables are the words of memory the MMU reads:
    the functions here run on the allocator's state and its memory.  The
    specification ([pt_ok], [pte_at]) reads the two-level table back as a map
    from virtual pages to entries. *)

From stdpp Require Import base numbers list sets strings.
From Stdlib Require Import ZArith Lia.
From S2P Require Import Prelude Mem CString Mmu Kalloc.
Import CString Mmu Kalloc.

Module Vm.

Section vm.
(** [end[]] and [data[]], set by the linker script. *)
Variables (kend data : Z).

Definition kload (a : Z) : K kmem Z := gets (fun k => load32 (kmemory k) a).
Definition kstore (a v : Z) : K kmem unit :=
  modify (fun k => k <| kmemory ::= fun m => store32 m a v |>).

(** Address of the entry for [va], or 0. *)
Definition walkpgdir (pgdir va alloc : Z) : K kmem Z :=
  let pde := pgdir + 4 * PDX va in
  e ← kload pde;
  if nz (Z.land e PTE_P) then mret (P2V (PTE_ADDR e) + 4 * PTX va)
  else if negb (nz alloc) then mret 0
  else
    pgtab ← kalloc;
    if pgtab =? 0 then mret 0
    else
      modify (fun k => k <| kmemory ::= fun m => memset m pgtab 0 PGSIZE |>) ;;
      kstore pde (Z.lor (Z.lor (Z.lor (V2P pgtab) PTE_P) PTE_W) PTE_U) ;;
      mret (pgtab + 4 * PTX va).

(** The [for (;;)] of [mappages]. *)
Fixpoint mappages_loop (fuel : nat) (pgdir a last pa perm : Z) : K kmem Z :=
  match fuel with
  | O => fault "out of fuel"
  | S f =>
      pte ← walkpgdir pgdir a 1;
      if pte =? 0 then mret (-1)
      else
        e ← kload pte;
        if nz (Z.land e PTE_P) then panic "remap"
        else
          kstore pte (Z.lor (Z.lor pa perm) PTE_P) ;;
          if a =? last then mret 0
          else mappages_loop f pgdir (u32 (a + PGSIZE)) last (u32 (pa + PGSIZE)) perm
  end.

Definition mappages (fuel : nat) (pgdir va size pa perm : Z) : K kmem Z :=
  mappages_loop fuel pgdir (PGROUNDDOWN va) (PGROUNDDOWN (u32 (va + size - 1))) pa perm.

(** The loop of [deallocuvm]. *)
Fixpoint dealloc_loop (fuel : nat) (pgdir a oldsz : Z) : K kmem unit :=
  match fuel with
  | O => fault "out of fuel"
  | S f =>
      if a <? oldsz then
        pte ← walkpgdir pgdir a 0;
        if pte =? 0 then
          dealloc_loop f pgdir (u32 (u32 (PGADDR (PDX a + 1) 0 0 - PGSIZE) + PGSIZE)) oldsz
        else
          e ← kload pte;
          if nz (Z.land e PTE_P) then
            if PTE_ADDR e =? 0 then panic "kfree"
            else
              kfree kend (P2V (PTE_ADDR e)) ;; kstore pte 0 ;;
              dealloc_loop f pgdir (u32 (a + PGSIZE)) oldsz
          else dealloc_loop f pgdir (u32 (a + PGSIZE)) oldsz
      else mret tt
  end.

Definition deallocuvm (fuel : nat) (pgdir oldsz newsz : Z) : K kmem Z :=
  if newsz >=? oldsz then mret oldsz
  else dealloc_loop fuel pgdir (PGROUNDUP newsz) oldsz ;; mret newsz.

(** The loop of [freevm] over the directory. *)
Definition free_table (pgdir i : Z) : K kmem unit :=
  e ← kload (pgdir + 4 * i);
  if nz (Z.land e PTE_P) then kfree kend (P2V (PTE_ADDR e)) else mret tt.

Definition freevm (fuel : nat) (pgdir : Z) : K kmem unit :=
  if pgdir =? 0 then panic "freevm: no pgdir"
  else
    deallocuvm fuel pgdir KERNBASE 0 ;;
    kiter (free_table pgdir) (map Z.of_nat (seq 0 (Z.to_nat NPDENTRIES))) ;;
    kfree kend pgdir.

(** [kmap]: virtual address, physical start and end, permissions. *)
Definition kmap : list (Z * Z * Z * Z) :=
  [ (KERNBASE, 0, EXTMEM, PTE_W); (KERNLINK, V2P KERNLINK, V2P data, 0);
    (data, V2P data, PHYSTOP, PTE_W); (DEVSPACE, DEVSPACE, 0, PTE_W) ].

Fixpoint map_kernel (fuel : nat) (pgdir : Z) (ks : list (Z * Z * Z * Z)) : K kmem Z :=
  match ks with
  | [] => mret pgdir
  | (virt, ps, pe, perm) :: r =>
      x ← mappages fuel pgdir virt (u32 (pe - ps)) ps perm;
      if x <? 0 then freevm fuel pgdir ;; mret 0 else map_kernel fuel pgdir r
  end.

Definition setupkvm (fuel : nat) : K kmem Z :=
  pgdir ← kalloc;
  if pgdir =? 0 then mret 0
  else
    modify (fun k => k <| kmemory ::= fun m => memset m pgdir 0 PGSIZE |>) ;;
    if P2V PHYSTOP >? DEVSPACE then panic "PHYSTOP too high"
    else map_kernel fuel pgdir kmap.

Definition inituvm (fuel : nat) (pgdir init sz : Z) : K kmem unit :=
  if sz >=? PGSIZE then panic "inituvm: more than a page"
  else
    mem ← kalloc;
    modify (fun k => k <| kmemory ::= fun m => memset m mem 0 PGSIZE |>) ;;
    mappages fuel pgdir 0 PGSIZE (V2P mem) (Z.lor PTE_W PTE_U) ;;
    modify (fun k => k <| kmemory ::= fun m => memmove m mem init sz |>).

(** The loop of [allocuvm], from page [a]; its messages on the console are not
    part of this state. *)
Fixpoint alloc_loop (fuel : nat) (pgdir a oldsz newsz : Z) : K kmem Z :=
  match fuel with
  | O => fault "out of fuel"
  | S f =>
      if a <? newsz then
        mem ← kalloc;
        if mem =? 0 then deallocuvm fuel pgdir newsz oldsz ;; mret 0
        else
          modify (fun k => k <| kmemory ::= fun m => memset m mem 0 PGSIZE |>) ;;
          x ← mappages fuel pgdir a PGSIZE (V2P mem) (Z.lor PTE_W PTE_U);
          if x <? 0 then deallocuvm fuel pgdir newsz oldsz ;; kfree kend mem ;; mret 0
          else alloc_loop f pgdir (u32 (a + PGSIZE)) oldsz newsz
      else mret newsz
  end.

Definition allocuvm (fuel : nat) (pgdir oldsz newsz : Z) : K kmem Z :=
  if newsz >=? KERNBASE then mret 0
  else if newsz <? oldsz then mret oldsz
  else alloc_loop fuel pgdir (PGROUNDUP oldsz) oldsz newsz.

Definition clearpteu (pgdir uva : Z) : K kmem unit :=
  pte ← walkpgdir pgdir uva 0;
  if pte =? 0 then panic "clearpteu"
  else e ← kload pte; kstore pte (Z.land e (Z.lnot PTE_U)).

(** The loop of [copyuvm]; a false result is the jump to [bad]. *)
Fixpoint copy_loop (fuel : nat) (pgdir d i sz : Z) : K kmem bool :=
  match fuel with
  | O => fault "out of fuel"
  | S f =>
      if i <? sz then
        pte ← walkpgdir pgdir i 0;
        if pte =? 0 then panic "copyuvm: pte should exist"
        else
          e ← kload pte;
          if negb (nz (Z.land e PTE_P)) then panic "copyuvm: page not present"
          else
            mem ← kalloc;
            if mem =? 0 then mret false
            else
              modify (fun k => k <| kmemory ::= fun m => memmove m mem (P2V (PTE_ADDR e)) PGSIZE |>) ;;
              x ← mappages fuel d i PGSIZE (V2P mem) (PTE_FLAGS e);
              if x <? 0 then kfree kend mem ;; mret false
              else copy_loop f pgdir d (u32 (i + PGSIZE)) sz
      else mret true
  end.

Definition copyuvm (fuel : nat) (pgdir sz : Z) : K kmem Z :=
  d ← setupkvm fuel;
  if d =? 0 then mret 0
  else
    ok ← copy_loop fuel pgdir d 0 sz;
    if (ok : bool) then mret d else freevm fuel d ;; mret 0.

(** [uva2ka] reads through the entry without testing its address. *)
Definition uva2ka (pgdir uva : Z) : K kmem Z :=
  pte ← walkpgdir pgdir uva 0;
  if pte =? 0 then fault "null pointer"
  else
    e ← kload pte;
    if negb (nz (Z.land e PTE_P)) then mret 0
    else if negb (nz (Z.land e PTE_U)) then mret 0
    else mret (P2V (PTE_ADDR e)).

(** The loop of [copyout], with [len] bytes left at [buf]. *)
Fixpoint copyout_loop (fuel : nat) (pgdir va buf len : Z) : K kmem Z :=
  match fuel with
  | O => fault "out of fuel"
  | S f =>
      if 0 <? len then
        let va0 := PGROUNDDOWN va in
        pa0 ← uva2ka pgdir va0;
        if pa0 =? 0 then mret (-1)
        else
          let n := Z.min (PGSIZE - (va - va0)) len in
          modify (fun k => k <| kmemory ::= fun m => memmove m (pa0 + (va - va0)) buf n |>) ;;
          copyout_loop f pgdir (u32 (va0 + PGSIZE)) (buf + n) (len - n)
      else mret 0
  end.

Definition copyout (fuel : nat) (pgdir va p len : Z) : K kmem Z :=
  copyout_loop fuel pgdir va p len.

End vm.

(** Loading a program: [readi dst off n] reads the inode at hand to kernel
    address [dst], in a state that contains the kernel's memory as [g]. *)
Section load.
Context {S : Type} (g : S -> kmem) `{!Setter g} (readi : Z -> Z -> Z -> K S Z).

(** The loop of [loaduvm]. *)
Fixpoint load_loop (fuel : nat) (pgdir addr offset i sz : Z) : K S Z :=
  match fuel with
  | O => fault "out of fuel"
  | Datatypes.S f =>
      if i <? sz then
        pte ← zoom g (walkpgdir pgdir (u32 (addr + i)) 0);
        if pte =? 0 then panic "loaduvm: address should exist"
        else
          e ← zoom g (kload pte);
          let n := if sz - i <? PGSIZE then sz - i else PGSIZE in
          r ← readi (P2V (PTE_ADDR e)) (u32 (offset + i)) n;
          if r =? n then load_loop f pgdir addr offset (u32 (i + PGSIZE)) sz else mret (-1)
      else mret 0
  end.

Definition loaduvm (fuel : nat) (pgdir addr offset sz : Z) : K S Z :=
  if nz (addr mod PGSIZE) then panic "loaduvm: addr must be page aligned"
  else load_loop fuel pgdir addr offset 0 sz.

End load.

End Vm.
