(* ===== verification/VmSpec.v ===== *)
(** What vm.c does to address spaces: entries are set only where asked, user
    pages are never shared, growing and shrinking touch no other page, bytes
    copied out land where they should, and freeing returns all of it. *)

From stdpp Require Import base numbers list sets strings.
From Stdlib Require Import ZArith Lia.
From S2P Require Import Prelude Mem CString Mmu Kalloc Vm.
Import CString Mmu Kalloc Vm.

Module VmSpec.

Section spec.
Context (kend : Z).

Abbreviation page_ok := (page_ok kend).
Abbreviation kmem_inv := (kmem_inv kend).

(** *** Reading the tables back *)

Definition pde_of (m : mem) (pg i : Z) : Z := load32 m (pg + 4 * i).
Definition present (e : Z) : bool := nz (Z.land e PTE_P).
Definition has (m : mem) (pg i : Z) : bool := present (pde_of m pg i).
Definition tab (m : mem) (pg i : Z) : Z := P2V (PTE_ADDR (pde_of m pg i)).
Definition slot (m : mem) (pg va : Z) : Z := tab m pg (PDX va) + 4 * PTX va.

(** The entry of [va], 0 when there is no table for it. *)
Definition pte_at (m : mem) (pg va : Z) : Z :=
  if has m pg (PDX va) then load32 m (slot m pg va) else 0.

(** The pages the directory [pg] is made of. *)
Definition own (m : mem) (pg v : Z) : Prop :=
  v = pg \/ exists i, 0 <= i < NPDENTRIES /\ has m pg i = true /\ v = tab m pg i.

Record pt_ok (m : mem) (pg : Z) (l : list Z) : Prop := {
  pt_dir : page_ok pg;
  pt_dir_used : pg ∉ l;
  pt_tab : forall i, 0 <= i < NPDENTRIES -> has m pg i = true ->
    page_ok (tab m pg i) /\ (tab m pg i ∉ l) /\ tab m pg i <> pg;
  pt_inj : forall i j, 0 <= i < NPDENTRIES -> 0 <= j < NPDENTRIES ->
    has m pg i = true -> has m pg j = true -> tab m pg i = tab m pg j -> i = j
}.

Lemma lor_page pa f : pa mod PGSIZE = 0 -> 0 <= f < PGSIZE -> Z.lor pa f = pa + f.
Proof.
  unfold PGSIZE. intros Hp Hf. replace pa with (Z.shiftl (pa / 4096) 12) at 1.
  - rewrite lor_shiftl by lia. change (2 ^ 12) with 4096. dlia.
  - rewrite Z.shiftl_mul_pow2 by lia. change (2 ^ 12) with 4096. dlia.
Qed.

Lemma present_odd e : present e = Z.odd e.
Proof.
  unfold present, nz, PTE_P. change 1 with (Z.ones 1). rewrite Z.land_ones by lia.
  change (2 ^ 1) with 2. rewrite Zmod_odd. by destruct (Z.odd e).
Qed.

(** The entry of a page-aligned address. *)
Lemma entry_ok pa f :
  is_u32 pa -> pa mod PGSIZE = 0 -> 0 <= f < PGSIZE -> Z.odd f = true ->
  is_u32 (Z.lor pa f) /\ present (Z.lor pa f) = true /\ PTE_ADDR (Z.lor pa f) = pa /\
  PTE_FLAGS (Z.lor pa f) = f.
Proof.
  intros [H1 H2] Hp Hf Ho. rewrite lor_page by done.
  assert (Hu : is_u32 (pa + f)).
  { unfold is_u32, PGSIZE in *. change (2 ^ 32) with 4294967296 in *. dlia. }
  split_and!; [done| | |].
  - rewrite present_odd, Z.odd_add, Ho. unfold PGSIZE in Hp.
    assert (Z.odd pa = false) as ->; [|done].
    rewrite <- Z.negb_even. apply negb_false_iff, Zeven_bool_iff.
    apply Zeven_ex_iff. exists (pa / 2). dlia.
  - rewrite PTE_ADDR_eq by done. unfold PGSIZE in *. dlia.
  - rewrite PTE_FLAGS_eq by done. unfold PGSIZE in *. dlia.
Qed.

Lemma page_entry v f :
  page_ok v -> 0 <= f < PGSIZE -> Z.odd f = true ->
  let e := Z.lor (V2P v) f in
  is_u32 e /\ present e = true /\ P2V (PTE_ADDR e) = v /\ PTE_FLAGS e = f.
Proof.
  intros Hv Hf Ho e. pose proof (page_ok_range kend v Hv) as Hr. destruct Hv as (Hu & Ha & _ & _).
  destruct (entry_ok (V2P v) f) as (E1 & E2 & E3 & E4); try done.
  - apply u32_range.
  - unfold V2P, u32, KERNBASE, PHYSTOP, PGSIZE in *. change (2 ^ 32) with 4294967296 in *. dlia.
  - split_and!; try done. unfold e. rewrite E3. by apply P2V_V2P.
Qed.

(** *** Frames *)

(** The directory and tables of [pg] only depend on the pages it owns. *)
Lemma pde_frame m m' pg i :
  same_on pg (pg + PGSIZE) m m' -> 0 <= i < NPDENTRIES -> pde_of m' pg i = pde_of m pg i.
Proof.
  intros H Hi. unfold pde_of. apply load32_same. intros x Hx. apply H.
  unfold PGSIZE, NPDENTRIES in *. lia.
Qed.

Lemma slot_range m pg va :
  tab m pg (PDX va) <= slot m pg va /\ slot m pg va + 4 <= tab m pg (PDX va) + PGSIZE.
Proof. unfold slot, PGSIZE. pose proof (PTX_range va) as H. unfold NPTENTRIES in H. lia. Qed.

Lemma own_dir m pg : own m pg pg.
Proof. by left. Qed.

Lemma own_tab m pg i : 0 <= i < NPDENTRIES -> has m pg i = true -> own m pg (tab m pg i).
Proof. intros. right. exists i. auto. Qed.

Record same_tables (m m' : mem) (pg : Z) : Prop := {
  st_has : forall i, 0 <= i < NPDENTRIES -> has m' pg i = has m pg i;
  st_tab : forall i, 0 <= i < NPDENTRIES -> tab m' pg i = tab m pg i
}.

Lemma same_tables_dir m m' pg : same_on pg (pg + PGSIZE) m m' -> same_tables m m' pg.
Proof. intros H. split; intros i Hi; unfold has, tab; by rewrite (pde_frame m m'). Qed.

Lemma same_tables_own m m' pg v : same_tables m m' pg -> own m' pg v <-> own m pg v.
Proof.
  intros [Hh Ht]. unfold own. split; (intros [->|(i & Hi & H1 & ->)]; [by left|right; exists i]).
  - split; [done|]. split; [by rewrite <- Hh|by apply Ht].
  - split; [done|]. split; [by rewrite Hh|by rewrite Ht].
Qed.

Lemma same_tables_slot m m' pg va : same_tables m m' pg -> slot m' pg va = slot m pg va.
Proof. intros [_ Ht]. unfold slot. by rewrite Ht by apply PDX_range. Qed.

Lemma pt_ok_tables m m' pg l l' :
  same_tables m m' pg -> (forall v, v ∈ l' -> v ∈ l) -> pt_ok m pg l -> pt_ok m' pg l'.
Proof.
  intros [Hh Ht] Hl [H1 H2 H3 H4]. split; [done|auto| |].
  - intros i Hi. rewrite Hh, Ht by done. intros Hp. destruct (H3 i Hi Hp) as (? & ? & ?). split_and!; auto.
  - intros i j Hi Hj. rewrite !Hh, !Ht by done. auto.
Qed.

(** Memory that agrees on the owned pages reads the same entries. *)
Lemma frame_entries m m' pg :
  (forall v, own m pg v -> same_on v (v + PGSIZE) m m') ->
  same_tables m m' pg /\ forall va, pte_at m' pg va = pte_at m pg va.
Proof.
  intros H. assert (Ht : same_tables m m' pg) by (apply same_tables_dir, H, own_dir).
  split; [done|]. intros va. unfold pte_at. rewrite (st_has _ _ _ Ht) by apply PDX_range.
  destruct (has m pg (PDX va)) eqn:E; [|done]. rewrite (same_tables_slot _ _ _ _ Ht).
  apply load32_same. intros x Hx. pose proof (slot_range m pg va).
  apply (H (tab m pg (PDX va))); [|lia]. apply own_tab; [apply PDX_range|done].
Qed.

(** *** Setting one entry *)

Lemma same_vpn va va' :
  is_u32 va -> is_u32 va' ->
  PDX va' = PDX va /\ PTX va' = PTX va <-> va' / PGSIZE = va / PGSIZE.
Proof.
  intros [? ?] [? ?]. rewrite !PDX_eq, !PTX_eq by done. unfold PGSIZE.
  change (2 ^ 22) with 4194304. change (2 ^ 12) with 4096. change (2 ^ 10) with 1024. split; [dlia|].
  intros E. rewrite E. split; [|done].
  replace (va' / 4194304) with (va' / 4096 / 1024) by dlia. rewrite E. dlia.
Qed.

(** Two words of tables coincide only when they are the same entry. *)
Lemma slots_apart m pg l va va' :
  pt_ok m pg l -> is_u32 va -> is_u32 va' ->
  has m pg (PDX va) = true -> has m pg (PDX va') = true -> va' / PGSIZE <> va / PGSIZE ->
  slot m pg va' + 4 <= slot m pg va \/ slot m pg va + 4 <= slot m pg va'.
Proof.
  intros [_ _ Ht Hi] Hu Hu' H H' Hne. pose proof (PDX_range va) as Hr. pose proof (PDX_range va') as Hr'.
  destruct (decide (PDX va' = PDX va)) as [E|E].
  - unfold slot. rewrite E. destruct (decide (PTX va' = PTX va)) as [F|F]; [|lia].
    exfalso. apply Hne, same_vpn; auto.
  - destruct (Ht _ Hr H) as (P & _). destruct (Ht _ Hr' H') as (P' & _).
    pose proof (slot_range m pg va). pose proof (slot_range m pg va').
    destruct (pages_disjoint kend (tab m pg (PDX va)) (tab m pg (PDX va'))); try done; [|lia|lia].
    intros Heq. apply E. symmetry. by apply Hi.
Qed.

Lemma pte_store m pg l va w :
  pt_ok m pg l -> is_u32 va -> has m pg (PDX va) = true -> is_u32 w ->
  let m' := store32 m (slot m pg va) w in
  same_tables m m' pg /\
  (forall va', is_u32 va' ->
    pte_at m' pg va' = if va' / PGSIZE =? va / PGSIZE then w else pte_at m pg va').
Proof.
  intros Hpt Hu Hh Hw m'. pose proof (pt_tab _ _ _ Hpt (PDX va) (PDX_range va) Hh) as (Pt & _ & Hne).
  pose proof (slot_range m pg va) as Hs.
  assert (Htab : same_tables m m' pg).
  { apply same_tables_dir. intros x Hx. unfold m'. apply store32_out.
    destruct (pages_disjoint kend (tab m pg (PDX va)) pg); try done; [apply Hpt|lia|lia]. }
  split; [done|]. intros va' Hu'. unfold pte_at. rewrite (st_has _ _ _ Htab) by apply PDX_range.
  rewrite (same_tables_slot _ _ _ _ Htab). destruct (Z.eqb_spec (va' / PGSIZE) (va / PGSIZE)) as [E|E].
  - apply same_vpn in E as [E1 E2]; [|done..]. rewrite E1, Hh.
    replace (slot m pg va') with (slot m pg va) by (unfold slot; by rewrite E1, E2).
    unfold m'. by rewrite load32_store32_eq, u32_small.
  - destruct (has m pg (PDX va')) eqn:H'; [|done]. unfold m'. apply load32_store32_ne.
    destruct (slots_apart m pg l va va'); auto.
Qed.

(** *** Updates of one address space

    [k'] is [k] with entries of [pg] changed only for the addresses in [A],
    and with pages of the free list turned into tables. *)
Record pt_upd (pg : Z) (k : kmem) (l : list Z) (k' : kmem) (l' : list Z) (A : Z -> Prop) : Prop := {
  pu_kmem : kmem_inv k' l';
  pu_pt : pt_ok (kmemory k') pg l';
  pu_taken : exists t, l = t ++ l';
  pu_keep : forall va, is_u32 va -> ~ A va ->
    pte_at (kmemory k') pg va = pte_at (kmemory k) pg va;
  pu_own : forall v, own (kmemory k') pg v -> own (kmemory k) pg v \/ v ∈ l /\ v ∉ l';
  pu_frame : forall x, (forall v, own (kmemory k') pg v -> ~ (v <= x < v + PGSIZE)) ->
    kmemory k' x = kmemory k x;
  pu_grow : forall v, own (kmemory k) pg v -> own (kmemory k') pg v;
  pu_used : forall v, v ∈ l -> v ∈ l' \/ own (kmemory k') pg v;
  pu_has : forall i, 0 <= i < NPDENTRIES -> has (kmemory k') pg i = true ->
    has (kmemory k) pg i = true \/ exists va, is_u32 va /\ A va /\ PDX va = i
}.

Lemma pt_upd_refl pg k l A : kmem_inv k l -> pt_ok (kmemory k) pg l -> pt_upd pg k l k l A.
Proof. intros. split; auto. by exists []. Qed.

Lemma taken_sub (l t l' : list Z) v : l = t ++ l' -> v ∈ l' -> v ∈ l.
Proof. intros ->. set_solver. Qed.

Lemma pt_upd_trans pg k l k1 l1 k2 l2 (A B C : Z -> Prop) :
  (forall va, A va -> C va) -> (forall va, B va -> C va) ->
  pt_upd pg k l k1 l1 A -> pt_upd pg k1 l1 k2 l2 B -> pt_upd pg k l k2 l2 C.
Proof.
  intros HA HB [_ _ (t1 & T1) K1 O1 F1 G1 U1 H1] [M2 P2 (t2 & T2) K2 O2 F2 G2 U2 H2]. split; auto.
  - exists (t1 ++ t2). by rewrite T1, T2, app_assoc.
  - intros va Hu Hn. rewrite K2, K1; auto.
  - intros v Hv. destruct (O2 v Hv) as [Hv1|[Hin Hout]].
    + destruct (O1 v Hv1) as [|[Hin Hout]]; [auto|]. right. split; [done|]. subst l1. set_solver.
    + right. split; [|done]. eapply taken_sub; eauto.
  - intros x Hx. rewrite F2 by done. apply F1. auto.
  - intros v Hv. destruct (U1 v Hv) as [Hv1|Hv1]; auto.
  - intros i Hi Hh. destruct (H2 i Hi Hh) as [Hh1|(va & ? & ? & ?)]; [|right; exists va; auto].
    destruct (H1 i Hi Hh1) as [?|(va & ? & ? & ?)]; [by left|right; exists va; auto].
Qed.

(** *** [walkpgdir] *)

Lemma walk_present pg va alloc L k :
  has (kmemory k) pg (PDX va) = true ->
  walkpgdir pg va alloc L k = Ok (slot (kmemory k) pg va) L k.
Proof.
  intros H. unfold walkpgdir, kload. kstep. unfold has, present, pde_of in H. by rewrite H.
Qed.

Lemma walk_absent pg va L k :
  has (kmemory k) pg (PDX va) = false -> walkpgdir pg va 0 L k = Ok 0 L k.
Proof.
  intros H. unfold walkpgdir, kload. kstep. unfold has, present, pde_of in H. by rewrite H.
Qed.

Lemma slot_nonzero m pg l va :
  pt_ok m pg l -> has m pg (PDX va) = true -> slot m pg va <> 0.
Proof.
  intros Hpt H. destruct (pt_tab _ _ _ Hpt _ (PDX_range va) H) as (Hp%page_ok_range & _).
  pose proof (slot_range m pg va). unfold KERNBASE in *. lia.
Qed.

(** A fresh, zeroed table [v] entered at [d]. *)
Definition with_table (m : mem) (pg v d : Z) : mem :=
  store32 (memset m v 0 PGSIZE) (pg + 4 * d) (Z.lor (V2P v) 7).

Section new_table.
Context (m : mem) (pg v d : Z) (l : list Z).
Context (Hpt : pt_ok m pg (v :: l)) (Hv : page_ok v) (Hnl : v ∉ l).
Context (Hd : 0 <= d < NPDENTRIES) (Hno : has m pg d = false).

Lemma new_table_frame x :
  ~ (pg + 4 * d <= x < pg + 4 * d + 4) -> ~ (v <= x < v + PGSIZE) -> with_table m pg v d x = m x.
Proof.
  clear. intros H1 H2. unfold with_table. rewrite store32_out by lia. rewrite memset_fill.
  destruct (Z.leb_spec v x), (Z.ltb_spec x (v + PGSIZE)); (done || lia).
Qed.

Lemma new_table_dir :
  has (with_table m pg v d) pg d = true /\ tab (with_table m pg v d) pg d = v /\
  forall i, 0 <= i < NPDENTRIES -> i <> d ->
    has (with_table m pg v d) pg i = has m pg i /\ tab (with_table m pg v d) pg i = tab m pg i.
Proof.
  destruct (page_entry v 7 Hv) as (E1 & E2 & E3 & _); [unfold PGSIZE; lia|done|].
  assert (Hpd : pde_of (with_table m pg v d) pg d = Z.lor (V2P v) 7).
  { unfold pde_of, with_table. by rewrite load32_store32_eq, u32_small. }
  split_and!; [unfold has; by rewrite Hpd|unfold tab; by rewrite Hpd|].
  intros i Hi Hid. unfold has, tab. enough (pde_of (with_table m pg v d) pg i = pde_of m pg i) as -> by done.
  apply load32_same. intros x Hx. apply new_table_frame; [lia|].
  destruct Hpt as [Hpg Hpgl _ _]. apply not_elem_of_cons in Hpgl as [Hne _].
  destruct (pages_disjoint kend pg v Hpg Hv Hne); unfold PGSIZE, NPDENTRIES in *; lia.
Qed.

Lemma new_table_own w : own (with_table m pg v d) pg w <-> own m pg w \/ w = v.
Proof.
  destruct new_table_dir as (Hh & Ht & Hi). split.
  - intros [->|(i & Hir & Hhas & ->)]; [left; by left|].
    destruct (decide (i = d)) as [->|Hne]; [by right|]. destruct (Hi i Hir Hne) as [E1 E2].
    left. rewrite E2. apply own_tab; [done|congruence].
  - intros [[->|(i & Hir & Hhas & ->)] | ->]; [by left| |].
    + destruct (decide (i = d)) as [->|Hne]; [congruence|]. destruct (Hi i Hir Hne) as [E1 E2].
      rewrite <- E2. apply own_tab; [done|congruence].
    + right. by exists d.
Qed.

Lemma new_table_ok : pt_ok (with_table m pg v d) pg l.
Proof.
  destruct new_table_dir as (Hh & Ht & Hi). destruct Hpt as [Hpg Hpgl Htab Hinj].
  apply not_elem_of_cons in Hpgl as [Hne Hpgl]. split; [done|done| |].
  - intros i Hir Hp. destruct (decide (i = d)) as [->|Hid]; [by rewrite Ht|].
    destruct (Hi i Hir Hid) as [E1 E2]. rewrite E2, E1 in *. destruct (Htab i Hir Hp) as (? & ? & ?).
    split_and!; [done|set_solver|done].
  - assert (Hnew : forall i, 0 <= i < NPDENTRIES -> i <> d -> has m pg i = true -> tab m pg i <> v).
    { intros i Hir Hid Hp. destruct (Htab i Hir Hp) as (_ & ? & _). set_solver. }
    intros i j Hir Hjr. destruct (decide (i = d)) as [->|Hid], (decide (j = d)) as [->|Hjd]; [done|..].
    + destruct (Hi j Hjr Hjd) as [E1 E2]. rewrite Ht, E1, E2. intros _ Hp E. by destruct (Hnew j).
    + destruct (Hi i Hir Hid) as [E1 E2]. rewrite Ht, E1, E2. intros Hp _ E. by destruct (Hnew i).
    + destruct (Hi i Hir Hid) as [E1 E2], (Hi j Hjr Hjd) as [F1 F2]. rewrite E1, E2, F1, F2. auto.
Qed.

Lemma new_table_entries va : pte_at (with_table m pg v d) pg va = pte_at m pg va.
Proof.
  destruct new_table_dir as (Hh & Ht & Hi). unfold pte_at. pose proof (PDX_range va) as Hr.
  destruct (decide (PDX va = d)) as [E|E].
  - rewrite E, Hh, Hno. unfold slot. rewrite E, Ht. pose proof (PTX_range va) as Hx.
    unfold NPTENTRIES in Hx. unfold with_table. rewrite load32_store32_ne.
    + apply memset_zero_load32; unfold PGSIZE; lia.
    + destruct Hpt as [Hpg Hpgl _ _]. apply not_elem_of_cons in Hpgl as [Hne _].
      destruct (pages_disjoint kend pg v Hpg Hv Hne); unfold PGSIZE, NPDENTRIES in *; lia.
  - destruct (Hi _ Hr E) as [E1 E2]. rewrite E1. destruct (has m pg (PDX va)) eqn:Hp; [|done].
    unfold slot. rewrite E2. apply load32_same. intros x Hx. pose proof (slot_range m pg va) as Hs.
    unfold slot in Hs. destruct Hpt as [Hpg Hpgl Htab _]. destruct (Htab _ Hr Hp) as (Pt & Hin & Hne).
    apply not_elem_of_cons in Hin as [Hne' _].
    pose proof (pages_disjoint kend _ _ Pt Hv Hne'). pose proof (pages_disjoint kend _ _ Pt Hpg Hne).
    apply new_table_frame; unfold PGSIZE, NPDENTRIES in *; lia.
Qed.

End new_table.

Lemma new_table_upd pg v va k l :
  pt_ok (kmemory k) pg (v :: l) -> kmem_inv k l -> page_ok v -> v ∉ l ->
  is_u32 va -> has (kmemory k) pg (PDX va) = false ->
  pt_upd pg k (v :: l) (k <| kmemory := with_table (kmemory k) pg v (PDX va) |>) l (fun x => x / PGSIZE = va / PGSIZE).
Proof.
  intros Hpt Hk Hv Hn Hva Hno. pose proof (PDX_range va) as Hd. pose proof (new_table_own _ _ _ _ _ Hpt Hv Hd Hno) as Ho. split; cbn.
  - destruct Hk as [Hl Hnd Hp]. split; cbn; [|done|done]. destruct Hpt as [Hpg Hpgl _ _].
    apply not_elem_of_cons in Hpgl as [Hne Hpgl].
    eapply (flist_frame _ _ _ pg); [|exact Hpg|exact Hp|exact Hpgl|].
    + apply store32_outside; unfold PGSIZE, NPDENTRIES in *; lia.
    + eapply (flist_frame _ _ _ v); [|exact Hv|exact Hp|exact Hn|exact Hl].
      intros x Hx. rewrite memset_fill. destruct (Z.leb_spec v x), (Z.ltb_spec x (v + PGSIZE)); (done || lia).
  - by eapply new_table_ok.
  - by exists [v].
  - intros x _ _. by eapply new_table_entries.
  - intros w [Hw | ->]%Ho; [by left|right; set_solver].
  - intros x Hx. apply new_table_frame; [|apply Hx, Ho; by right].
    pose proof (Hx pg (own_dir _ _)). unfold PGSIZE, NPDENTRIES in *. lia.
  - intros w Hw. apply Ho. by left.
  - intros w [-> | Hw]%elem_of_cons; [right; apply Ho; by right|by left].
  - intros i Hi Hh. destruct (decide (i = PDX va)) as [->|Hne]; [right; by exists va|left].
    destruct (new_table_dir _ _ _ _ _ Hpt Hv Hd) as (_ & _ & Hsame). by rewrite <- (proj1 (Hsame i Hi Hne)).
Qed.

Lemma walk_alloc pg va L k l :
  pt_ok (kmemory k) pg l -> kmem_inv k l -> Lkmem ∉ L -> is_u32 va ->
  (exists k' l', walkpgdir pg va 1 L k = Ok (slot (kmemory k') pg va) L k' /\
    pt_upd pg k l k' l' (fun x => x / PGSIZE = va / PGSIZE) /\ has (kmemory k') pg (PDX va) = true /\
    pte_at (kmemory k') pg va = pte_at (kmemory k) pg va) \/
  l = [] /\ walkpgdir pg va 1 L k = Ok 0 L k /\ has (kmemory k) pg (PDX va) = false.
Proof.
  intros Hpt Hk HL Hva. destruct (has (kmemory k) pg (PDX va)) eqn:Hp.
  { left. exists k, l. split_and!; [by apply walk_present|by apply pt_upd_refl|done|done]. }
  pose proof (kalloc_spec kend l L k Hk HL) as Ha. unfold walkpgdir, kload. kstep.
  unfold has, present, pde_of in Hp. rewrite Hp. cbn [nz Z.eqb negb].
  destruct l as [|v l].
  { right. split_and!; [done| |done]. by rewrite (bind_Ok _ _ _ _ _ _ _ Ha). }
  destruct Ha as (k' & Ha & Hk' & Hv & Hn & Hm & _). left.
  rewrite (bind_Ok _ _ _ _ _ _ _ Ha). pose proof (page_ok_nonzero _ _ Hv).
  destruct (Z.eqb_spec v 0); [done|]. unfold kstore. kstep. kstep.
  rewrite <- Hm in Hpt, Hp. pose proof (PDX_range va) as Hr.
  pose proof (new_table_upd pg v va k' l Hpt Hk' Hv Hn Hva Hp) as Hu.
  pose proof (new_table_dir _ _ _ (PDX va) _ Hpt Hv Hr) as (Hh & Ht & _).
  exists (k' <| kmemory := with_table (kmemory k') pg v (PDX va) |>), l. split; [|split; [|split]].
  - unfold slot. cbn. rewrite Ht. rewrite <- !Z.lor_assoc.
    change (Z.lor PTE_P (Z.lor PTE_W PTE_U)) with 7. done.
  - destruct Hu. split; cbn in *; rewrite <- ?Hm in *; done.
  - exact Hh.
  - cbn. rewrite <- Hm. by eapply new_table_entries.
Qed.

Lemma set_entry pg va w k l :
  pt_ok (kmemory k) pg l -> kmem_inv k l -> is_u32 va -> has (kmemory k) pg (PDX va) = true ->
  is_u32 w ->
  let k' := k <| kmemory ::= fun m => store32 m (slot (kmemory k) pg va) w |> in
  pt_upd pg k l k' l (fun va' => va' / PGSIZE = va / PGSIZE) /\ pte_at (kmemory k') pg va = w.
Proof.
  intros Hpt Hk Hu Hh Hw k'. destruct (pte_store _ _ _ _ _ Hpt Hu Hh Hw) as [Hst He].
  pose proof (pt_tab _ _ _ Hpt (PDX va) (PDX_range va) Hh) as (Pt & Hnl & _).
  pose proof (slot_range (kmemory k) pg va) as Hs. split.
  - split.
    + eapply kmem_inv_frame; [done|exact Pt|done|]. apply store32_outside; lia.
    + by eapply pt_ok_tables.
    + by exists [].
    + intros va' Hu' Hn. cbn. rewrite He by done. by rewrite (proj2 (Z.eqb_neq _ _) Hn).
    + intros v Hv. left. by apply (same_tables_own _ _ _ _ Hst).
    + intros x Hx. cbn. apply store32_out. assert (own (kmemory k') pg (tab (kmemory k) pg (PDX va))) as Ho.
      { apply (same_tables_own (kmemory k) _ _ _ Hst), own_tab; [apply PDX_range|done]. }
      specialize (Hx _ Ho). lia.
    + intros v Hv. by apply (same_tables_own _ _ _ _ Hst).
    + by left.
    + intros i Hi. intros Hh'. left. by rewrite <- (st_has _ _ _ Hst i Hi).
  - cbn. rewrite He by done. by rewrite Z.eqb_refl.
Qed.

(** *** [mappages] *)

(** The entry [mappages] gives the [i]th page. *)
Definition new_entry (pa perm i : Z) : Z := Z.lor (pa + PGSIZE * i) (Z.lor perm PTE_P).

Lemma perm_flags perm :
  0 <= perm < PGSIZE -> 0 <= Z.lor perm PTE_P < PGSIZE /\ Z.odd (Z.lor perm PTE_P) = true.
Proof.
  intros H. unfold PGSIZE, PTE_P in *. split.
  - split; [apply Z.lor_nonneg; lia|]. destruct (decide (perm = 0)) as [->|]; [done|].
    apply (Z.log2_lt_cancel _ 4096). rewrite Z.log2_lor by lia. change (Z.log2 1) with 0.
    rewrite Z.max_l by apply Z.log2_nonneg. change (Z.log2 4096) with 12.
    apply (Z.log2_lt_pow2 perm 12); lia.
  - rewrite <- Z.bit0_odd, Z.lor_spec. change (Z.testbit 1 0) with true. apply orb_true_r.
Qed.

Lemma page_index a i : a mod PGSIZE = 0 -> (a + PGSIZE * i) / PGSIZE = a / PGSIZE + i.
Proof. unfold PGSIZE. intros. dlia. Qed.

Lemma page_succ a i : a + PGSIZE + PGSIZE * i = a + PGSIZE * (i + 1).
Proof. lia. Qed.

Lemma map_one pg a w L k l (c : K kmem Z) :
  pt_ok (kmemory k) pg l -> kmem_inv k l -> Lkmem ∉ L -> is_u32 a -> is_u32 w ->
  present (pte_at (kmemory k) pg a) = false ->
  (exists k' l', (pte ← walkpgdir pg a 1;
      if pte =? 0 then mret (-1)
      else
        e ← kload pte;
        if nz (Z.land e PTE_P) then panic "remap" else kstore pte w ;; c) L k = c L k' /\
    pt_upd pg k l k' l' (fun va => va / PGSIZE = a / PGSIZE) /\ pte_at (kmemory k') pg a = w) \/
  l = [] /\ (pte ← walkpgdir pg a 1;
      if pte =? 0 then mret (-1)
      else
        e ← kload pte;
        if nz (Z.land e PTE_P) then panic "remap" else kstore pte w ;; c) L k = Ok (-1) L k.
Proof.
  intros Hpt Hk HL Ha Hw Hfree.
  destruct (walk_alloc pg a L k l Hpt Hk HL Ha) as [(k1 & l1 & R & U1 & Hh & Hkeep)|(-> & R & Hno)];
    rewrite (bind_Ok _ _ _ _ _ _ _ R); [left|by right].
  rewrite (proj2 (Z.eqb_neq _ _) (slot_nonzero _ _ _ _ (pu_pt _ _ _ _ _ _ U1) Hh)).
  unfold kload, kstore. kstep.
  assert (Hfree' : present (pte_at (kmemory k1) pg a) = false).
  { by rewrite Hkeep. }
  unfold pte_at in Hfree'. rewrite Hh in Hfree'. unfold present in Hfree'. rewrite Hfree'. kstep.
  destruct (set_entry pg a w k1 l1 (pu_pt _ _ _ _ _ _ U1) (pu_kmem _ _ _ _ _ _ U1) Ha Hh Hw) as [U2 He].
  eexists _, l1. split; [reflexivity|]. split; [|exact He].
  eapply pt_upd_trans; [| |exact U1|exact U2]; done.
Qed.

Lemma map_loop_spec n fuel pg a pa perm L k l :
  pt_ok (kmemory k) pg l -> kmem_inv k l -> Lkmem ∉ L -> (n < fuel)%nat ->
  a mod PGSIZE = 0 -> 0 <= a -> a + PGSIZE * Z.of_nat (S n) <= 2 ^ 32 ->
  pa mod PGSIZE = 0 -> 0 <= pa -> pa + PGSIZE * Z.of_nat (S n) <= 2 ^ 32 -> 0 <= perm < PGSIZE ->
  (forall i, 0 <= i <= Z.of_nat n -> present (pte_at (kmemory k) pg (a + PGSIZE * i)) = false) ->
  exists k' l' r j, mappages_loop fuel pg a (a + PGSIZE * Z.of_nat n) pa perm L k = Ok r L k' /\
    pt_upd pg k l k' l' (fun va => a <= va < a + PGSIZE * Z.of_nat (S n)) /\
    (forall i, 0 <= i < j -> pte_at (kmemory k') pg (a + PGSIZE * i) = new_entry pa perm i) /\
    (forall i, j <= i <= Z.of_nat n ->
      pte_at (kmemory k') pg (a + PGSIZE * i) = pte_at (kmemory k) pg (a + PGSIZE * i)) /\
    (r = 0 /\ j = Z.of_nat (S n) \/ r = -1 /\ l' = [] /\ 0 <= j <= Z.of_nat n).
Proof.
  revert fuel a pa k l. induction n as [|n IH];
    intros fuel a pa k l Hpt Hk HL Hf Ha Ha0 Ha1 Hpa Hpa0 Hpa1 Hperm Hfree;
    (destruct fuel as [|f]; [lia|]); cbn [mappages_loop];
    destruct (perm_flags perm Hperm) as [Hp1 Hp2];
    assert (Hu : is_u32 a) by (unfold is_u32, PGSIZE in *; lia);
    assert (Hpu : is_u32 pa) by (unfold is_u32, PGSIZE in *; lia);
    pose proof (entry_ok pa _ Hpu Hpa Hp1 Hp2) as (Hw & _);
    rewrite <- (Z.lor_assoc pa perm PTE_P);
    pose proof (Hfree 0 ltac:(lia)) as Hfree0; rewrite Z.mul_0_r, Z.add_0_r in Hfree0;
    edestruct (map_one pg a (Z.lor pa (Z.lor perm PTE_P)) L k l)
      as [(k1 & l1 & R & U1 & He)|(-> & R)]; try done; rewrite R.
  - exists k1, l1, 0, 1. rewrite Z.mul_0_r, Z.add_0_r, Z.eqb_refl. split_and!; [done| | | |by left].
    + eapply pt_upd_trans; [| |exact U1|]; [..|by apply pt_upd_refl; destruct U1]; [|intros va H; exact H].
      unfold PGSIZE in *. intros va Hv. dlia.
    + intros i Hi. replace i with 0 by lia. rewrite Z.mul_0_r, Z.add_0_r, He. unfold new_entry.
      by rewrite Z.mul_0_r, Z.add_0_r.
    + lia.
  - exists k, [], (-1), 0. split_and!; [done|by apply pt_upd_refl|lia|done|right; split_and!; lia || done].
  - destruct (Z.eqb_spec a (a + PGSIZE * Z.of_nat (S n))); [unfold PGSIZE in *; lia|].
    rewrite !u32_small by (unfold PGSIZE in *; lia).
    assert (Hkeep : forall i, 1 <= i <= Z.of_nat (S n) ->
      pte_at (kmemory k1) pg (a + PGSIZE * i) = pte_at (kmemory k) pg (a + PGSIZE * i)).
    { intros i Hi. apply (pu_keep _ _ _ _ _ _ U1); [unfold is_u32, PGSIZE in *; lia|].
      rewrite page_index by done. lia. }
    destruct (IH f (a + PGSIZE) (pa + PGSIZE) k1 l1) as (k' & l' & r & j & R' & U' & Hnew & Hold & Hr);
      try done; try (unfold PGSIZE in *; dlia); [apply U1|apply U1| |].
    { intros i Hi. rewrite (page_succ a i), Hkeep by lia. apply Hfree. lia. }
    exists k', l', r, (j + 1). split_and!.
    + rewrite <- R'. f_equal. lia.
    + eapply pt_upd_trans; [| |exact U1|exact U']; unfold PGSIZE in *; intros va Hv; dlia.
    + intros i Hi. destruct (decide (i = 0)) as [->|Hi0].
      * rewrite Z.mul_0_r, Z.add_0_r. rewrite (pu_keep _ _ _ _ _ _ U') by (done || unfold PGSIZE in *; lia).
        rewrite He. unfold new_entry. by rewrite Z.mul_0_r, Z.add_0_r.
      * specialize (Hnew (i - 1) ltac:(lia)). rewrite page_succ in Hnew.
        replace (i - 1 + 1) with i in Hnew by lia. rewrite Hnew. unfold new_entry. f_equal. lia.
    + intros i Hi. specialize (Hold (i - 1) ltac:(lia)). rewrite !page_succ in Hold.
      replace (i - 1 + 1) with i in Hold by lia. rewrite Hold. apply Hkeep. lia.
    + destruct Hr as [[-> ->]|(-> & -> & ?)]; [left; split; lia|right; split_and!; lia || done].
  - exists k, [], (-1), 0. split_and!; [done|by apply pt_upd_refl|lia|done|right; split_and!; lia || done].
Qed.

(** [mappages] over whole pages. *)
Lemma mappages_aligned fuel pg a pa perm n :
  a mod PGSIZE = 0 -> 0 <= a -> a + PGSIZE * Z.of_nat (S n) <= 2 ^ 32 ->
  mappages fuel pg a (PGSIZE * Z.of_nat (S n)) pa perm =
  mappages_loop fuel pg a (a + PGSIZE * Z.of_nat n) pa perm.
Proof.
  intros Ha H0 H1. unfold mappages. unfold PGSIZE in *.
  rewrite (u32_small (_ - 1)) by lia. rewrite !PGROUNDDOWN_eq by (unfold is_u32; lia).
  unfold PGSIZE. f_equal; dlia.
Qed.

(** The entry of an address is that of its page. *)
Lemma pte_at_page m pg x y :
  is_u32 x -> is_u32 y -> x / PGSIZE = y / PGSIZE -> pte_at m pg x = pte_at m pg y.
Proof.
  intros Hx Hy E. apply same_vpn in E as [E1 E2]; [|done..]. unfold pte_at, slot. by rewrite E1, E2.
Qed.

Lemma PGROUNDDOWN_bounds x :
  is_u32 x -> PGROUNDDOWN x mod PGSIZE = 0 /\ 0 <= PGROUNDDOWN x <= x /\ x < PGROUNDDOWN x + PGSIZE /\
  PGROUNDDOWN x / PGSIZE = x / PGSIZE.
Proof.
  intros Hx. rewrite PGROUNDDOWN_eq by done. destruct Hx. unfold PGSIZE in *. split_and!; dlia.
Qed.

(** [mappages] maps every page that meets [va, va + size) to consecutive
    frames from [pa], with the permissions asked for, and changes no other
    entry; it fails only when the allocator runs out of pages for tables.
    The tables stay well formed either way. *)
Theorem mappages_maps fuel pg va size pa perm L k l
  (Hpt : pt_ok (kmemory k) pg l) (Hk : kmem_inv k l) (HL : Lkmem ∉ L)
  (Hva : 0 <= va) (Hsz : 0 < size) (Hend : va + size <= 2 ^ 32)
  (Hpa : pa mod PGSIZE = 0 /\ 0 <= pa) (Hpe : pa + size + 2 * PGSIZE <= 2 ^ 32)
  (Hperm : 0 <= perm < PGSIZE) (Hfuel : size / PGSIZE + 2 <= Z.of_nat fuel)
  (Hfree : forall x, PGROUNDDOWN va <= x < va + size -> present (pte_at (kmemory k) pg x) = false) :
  exists k' l' r, mappages fuel pg va size pa perm L k = Ok r L k' /\
    pt_ok (kmemory k') pg l' /\ kmem_inv k' l' /\
    (forall x, is_u32 x -> ~ (PGROUNDDOWN va <= x < PGROUNDDOWN (va + size - 1) + PGSIZE) ->
      pte_at (kmemory k') pg x = pte_at (kmemory k) pg x) /\
    (r = 0 /\ (forall x, PGROUNDDOWN va <= x < PGROUNDDOWN (va + size - 1) + PGSIZE ->
       pte_at (kmemory k') pg x =
         Z.lor (pa + (PGROUNDDOWN x - PGROUNDDOWN va)) (Z.lor perm PTE_P)) \/
     r = -1 /\ l' = []).
Proof.
  set (a := PGROUNDDOWN va) in *. set (b := PGROUNDDOWN (va + size - 1)).
  destruct (PGROUNDDOWN_bounds va) as (Ha1 & Ha2 & Ha3 & _); [unfold is_u32; lia|]. fold a in Ha1, Ha2, Ha3.
  destruct (PGROUNDDOWN_bounds (va + size - 1)) as (Hb1 & Hb2 & Hb3 & _); [unfold is_u32; lia|]. fold b in Hb1, Hb2, Hb3.
  assert (Hn : exists n, b = a + PGSIZE * Z.of_nat n).
  { exists (Z.to_nat ((b - a) / PGSIZE)). unfold PGSIZE in *. dlia. }
  destruct Hn as [n Hn]. assert (Hb4 : b + PGSIZE <= 2 ^ 32).
  { unfold PGSIZE in *. change (2 ^ 32) with 4294967296 in *. dlia. }
  destruct (map_loop_spec n fuel pg a pa perm L k l) as (k' & l' & r & j & R & U & Hnew & _ & Hr);
    try done; try (unfold PGSIZE in *; dlia).
  { intros i Hi. apply Hfree. unfold PGSIZE in *. lia. }
  exists k', l', r. unfold mappages. fold a. rewrite u32_small by lia. fold b. rewrite Hn, R.
  split; [done|]. split; [apply U|]. split; [apply U|]. split.
  - intros x Hx Hno. apply (pu_keep _ _ _ _ _ _ U); [done|]. unfold PGSIZE in *. lia.
  - destruct Hr as [[-> ->]|(-> & -> & _)]; [left|by right]. split; [done|]. intros x Hx.
    assert (Hu : is_u32 x) by (unfold is_u32, PGSIZE in *; lia).
    destruct (PGROUNDDOWN_bounds x Hu) as (Hx1 & Hx2 & Hx3 & Hx4).
    assert (Hi : PGROUNDDOWN x = a + PGSIZE * ((x - a) / PGSIZE)) by (unfold PGSIZE in *; dlia).
    rewrite (pte_at_page _ _ x (PGROUNDDOWN x)) by (done || unfold is_u32 in *; lia).
    rewrite Hi, Hnew by (unfold PGSIZE in *; dlia). unfold new_entry. f_equal. lia.
Qed.

(** *** Address spaces *)

(** A user page, whether it is mapped, and its frame. *)
Definition upage (va : Z) : Prop := 0 <= va < KERNBASE /\ va mod PGSIZE = 0.
Definition mapped (m : mem) (pg va : Z) : bool := present (pte_at m pg va).
Definition frame (m : mem) (pg va : Z) : Z := P2V (PTE_ADDR (pte_at m pg va)).

(** Isolation: the frames of user pages are pages of the allocator that are
    neither free nor part of the tables, and no two pages share one. *)
Record as_ok (m : mem) (pg : Z) (l : list Z) : Prop := {
  as_pt : pt_ok m pg l;
  as_frame : forall va, upage va -> mapped m pg va = true ->
    page_ok (frame m pg va) /\ (frame m pg va ∉ l) /\ ~ own m pg (frame m pg va);
  as_inj : forall va va', upage va -> upage va' -> mapped m pg va = true -> mapped m pg va' = true ->
    frame m pg va = frame m pg va' -> va = va'
}.

Lemma upage_u32 va : upage va -> is_u32 va.
Proof. unfold upage, is_u32, KERNBASE. lia. Qed.

Lemma upage_vpn va va' : upage va -> upage va' -> va' / PGSIZE = va / PGSIZE -> va' = va.
Proof. unfold upage, PGSIZE. intros [_ ?] [_ ?] ?. dlia. Qed.

Lemma mapped_has m pg va : mapped m pg va = true -> has m pg (PDX va) = true.
Proof. unfold mapped, pte_at. by destruct (has m pg (PDX va)). Qed.

Lemma own_page m pg l v : pt_ok m pg l -> own m pg v -> page_ok v /\ v ∉ l.
Proof. intros [? ? Ht _] [->|(i & Hi & Hh & ->)]; [done|]. destruct (Ht i Hi Hh) as (? & ? & _). done. Qed.

(** What a step that unmaps pages keeps. *)
Record unmap_upd (pg : Z) (k : kmem) (l : list Z) (k' : kmem) (l' : list Z) (A : Z -> Prop) : Prop := {
  uu_kmem : kmem_inv k' l';
  uu_as : as_ok (kmemory k') pg l';
  uu_keep : forall va, is_u32 va -> ~ A va -> pte_at (kmemory k') pg va = pte_at (kmemory k) pg va;
  uu_gone : forall va, upage va -> A va -> mapped (kmemory k') pg va = false;
  uu_freed : forall v, v ∈ l' <-> v ∈ l \/
    exists va, upage va /\ A va /\ mapped (kmemory k) pg va = true /\ v = frame (kmemory k) pg va;
  uu_own : forall v, own (kmemory k') pg v <-> own (kmemory k) pg v;
  uu_frame : forall x, (forall v, own (kmemory k) pg v \/ v ∈ l' -> ~ (v <= x < v + PGSIZE)) ->
    kmemory k' x = kmemory k x
}.

(** Freeing a page that the address space does not use. *)
Lemma free_unused pg v L k l :
  kmem_inv k l -> pt_ok (kmemory k) pg l -> Lkmem ∉ L -> page_ok v -> v ∉ l -> ~ own (kmemory k) pg v ->
  exists k', kfree kend v L k = Ok tt L k' /\ kmem_inv k' (v :: l) /\ pt_ok (kmemory k') pg (v :: l) /\
    same_tables (kmemory k) (kmemory k') pg /\
    (forall va, pte_at (kmemory k') pg va = pte_at (kmemory k) pg va) /\
    same_outside v (v + PGSIZE) (kmemory k) (kmemory k').
Proof.
  intros Hk Hpt HL Pv Hnl Hno.
  destruct (kfree_spec kend v l L k Pv Hnl Hk HL) as (k1 & R & Hk1 & Hsame & _).
  assert (Hown : forall w, own (kmemory k) pg w -> same_on w (w + PGSIZE) (kmemory k) (kmemory k1)).
  { intros w Hw. eapply same_outside_on; [exact Hsame|].
    apply (pages_disjoint kend); [by eapply own_page|done|]. intros E. apply Hno. by rewrite <- E. }
  destruct (frame_entries _ _ _ Hown) as [Hst He]. exists k1. split_and!; try done.
  pose proof Hpt as [? ? Ht Hi]. eapply pt_ok_tables; [exact Hst|intros w Hw; exact Hw|].
  split; [done| |intros i Hi' Hh; destruct (Ht i Hi' Hh) as (? & ? & ?); split_and!; [done| |done]|done].
  - apply not_elem_of_cons. split; [|done]. intros E. apply Hno. rewrite <- E. apply own_dir.
  - apply not_elem_of_cons. split; [|done]. intros E. apply Hno. rewrite <- E. by apply own_tab.
Qed.

Lemma unmap_page pg va L k l :
  kmem_inv k l -> as_ok (kmemory k) pg l -> Lkmem ∉ L -> upage va -> mapped (kmemory k) pg va = true ->
  exists k', (kfree kend (frame (kmemory k) pg va) ;; kstore (slot (kmemory k) pg va) 0) L k = Ok tt L k' /\
    unmap_upd pg k l k' (frame (kmemory k) pg va :: l) (fun x => x / PGSIZE = va / PGSIZE).
Proof.
  intros Hk Has HL Hva Hm. pose proof Has as [Hpt Hfr Hinj]. pose proof (upage_u32 _ Hva) as Hu.
  destruct (Hfr va Hva Hm) as (Pv & Hnl & Hno). set (v := frame (kmemory k) pg va) in *.
  destruct (free_unused pg v L k l Hk Hpt HL Pv Hnl Hno) as (k1 & R & Hk1 & Hpt1 & Hst & He & Hsame).
  assert (Hh1 : has (kmemory k1) pg (PDX va) = true).
  { rewrite (st_has _ _ _ Hst) by apply PDX_range. by apply mapped_has. }
  destruct (set_entry pg va 0 k1 (v :: l) Hpt1 Hk1 Hu Hh1) as [U E0]; [unfold is_u32; lia|].
  rewrite (same_tables_slot _ _ _ _ Hst) in U, E0.
  rewrite (bind_Ok _ _ _ _ _ _ _ R). unfold kstore, modify. eexists. split; [reflexivity|].
  set (k2 := k1 <| kmemory ::= _ |>) in *. change (k1 <| kmemory ::= _ |>) with k2.
  assert (Hkeep : forall x, is_u32 x -> x / PGSIZE <> va / PGSIZE ->
    pte_at (kmemory k2) pg x = pte_at (kmemory k) pg x).
  { intros x Hx Hne. rewrite (pu_keep _ _ _ _ _ _ U) by done. apply He. }
  assert (Hgone : forall x, is_u32 x -> x / PGSIZE = va / PGSIZE -> mapped (kmemory k2) pg x = false).
  { intros x Hx E. unfold mapped. rewrite (pte_at_page _ _ x va), E0 by done. done. }
  assert (Hk2 : forall w, own (kmemory k2) pg w <-> own (kmemory k) pg w).
  { intros w. split.
    - intros Hw. destruct (pu_own _ _ _ _ _ _ U w Hw) as [Hw1|[? ?]]; [|done].
      by apply (same_tables_own _ _ _ _ Hst).
    - intros Hw. apply (pu_grow _ _ _ _ _ _ U). by apply (same_tables_own _ _ _ _ Hst). }
  split; [apply U| |auto|intros x Hx; apply Hgone; by apply upage_u32| |done|].
  - split; [apply U| |].
    + intros x Hx Hmx. destruct (decide (x / PGSIZE = va / PGSIZE)) as [E|E].
      { rewrite Hgone in Hmx by (done || by apply upage_u32). done. }
      unfold mapped, frame in *. rewrite Hkeep in * by (done || by apply upage_u32).
      destruct (Hfr x Hx Hmx) as (? & ? & ?). rewrite Hk2. split_and!; [done| |done].
      apply not_elem_of_cons. split; [|done]. intros Ex. apply E. by rewrite (Hinj x va).
    + intros x y Hx Hy. destruct (decide (x / PGSIZE = va / PGSIZE)) as [E|E];
        [rewrite (Hgone x) by (done || by apply upage_u32); done|].
      destruct (decide (y / PGSIZE = va / PGSIZE)) as [E'|E'];
        [rewrite (Hgone y) by (done || by apply upage_u32); done|].
      unfold mapped, frame. rewrite !Hkeep by (done || by apply upage_u32). by apply Hinj.
  - intros w. rewrite elem_of_cons. split.
    + intros [-> | ?]; [right; by exists va|by left].
    + intros [?|(x & Hx & E & _ & ->)]; [by right|left]. by rewrite (upage_vpn va x Hva Hx E).
  - intros x Hx. rewrite (pu_frame _ _ _ _ _ _ U).
    + apply Hsame. apply Hx. right. set_solver.
    + intros w Hw. apply Hx. left. by apply Hk2.
Qed.

Lemma unmap_refl pg k l A :
  kmem_inv k l -> as_ok (kmemory k) pg l ->
  (forall va, upage va -> A va -> mapped (kmemory k) pg va = false) -> unmap_upd pg k l k l A.
Proof.
  intros Hk Has Hno. split; auto. intros v. split; [by left|]. intros [?|(va & Hu & Ha & Hm & _)]; [done|].
  rewrite Hno in Hm; done.
Qed.

Lemma unmap_trans pg k l k1 l1 k2 l2 (A B C : Z -> Prop) :
  (forall va, C va <-> A va \/ B va) -> (forall va, is_u32 va -> A va -> ~ B va) ->
  unmap_upd pg k l k1 l1 A -> unmap_upd pg k1 l1 k2 l2 B -> unmap_upd pg k l k2 l2 C.
Proof.
  intros HC Hd [M1 S1 K1 G1 F1 O1 X1] [M2 S2 K2 G2 F2 O2 X2].
  assert (HB : forall va, upage va -> B va -> pte_at (kmemory k1) pg va = pte_at (kmemory k) pg va).
  { intros va Hu Hb. apply K1; [by apply upage_u32|]. intros Ha. eapply Hd; eauto using upage_u32. }
  split; auto.
  - intros va Hu Hn. rewrite HC in Hn. rewrite K2, K1; tauto.
  - intros va Hu [Ha|Hb]%HC; [|by apply G2]. unfold mapped. rewrite K2; [by apply G1|by apply upage_u32|].
    intros Hb. eapply Hd; eauto using upage_u32.
  - intros v. rewrite F2, F1. split.
    + intros [[?|(va & Hu & Ha & Hm & ->)]|(va & Hu & Hb & Hm & ->)]; [by left|right; exists va..].
      * rewrite HC. tauto.
      * unfold mapped, frame in *. rewrite HB in * by done. rewrite HC. tauto.
    + intros [?|(va & Hu & [Ha|Hb]%HC & Hm & ->)]; [by left; left|left; right; by exists va|right; exists va].
      unfold mapped, frame in *. by rewrite HB.
  - intros v. by rewrite O2, O1.
  - intros x Hx. rewrite X2.
    + apply X1. intros v [Hv|Hv]; apply Hx; [by left|right]. apply F2. by left.
    + intros v [Hv|Hv]; apply Hx; [left; by apply O1|by right].
Qed.

(** The pages from [a] on that start below [oldsz]. *)
Definition below (a oldsz : Z) (x : Z) : Prop := a <= x /\ PGSIZE * (x / PGSIZE) < oldsz.

Lemma next_table a :
  upage a -> let a' := u32 (u32 (PGADDR (PDX a + 1) 0 0 - PGSIZE) + PGSIZE) in
  a' = 2 ^ 22 * (a / 2 ^ 22 + 1) /\ a' mod PGSIZE = 0 /\ a < a' <= KERNBASE /\
  forall x, a <= x < a' -> PDX x = PDX a.
Proof.
  intros Hu a'. pose proof (upage_u32 _ Hu) as H32. destruct Hu as [H1 H2].
  assert (Ha' : a' = 2 ^ 22 * (a / 2 ^ 22 + 1)).
  { unfold a', PGADDR. rewrite PDX_eq by done. unfold PTXSHIFT, PDXSHIFT.
    rewrite Z.shiftl_0_l, !Z.lor_0_r, Z.shiftl_mul_pow2 by lia.
    unfold KERNBASE, PGSIZE in *. change (2 ^ 22) with 4194304 in *.
    rewrite (u32_small ((a / 4194304 + 1) * 4194304)) by dlia.
    rewrite (u32_small ((a / 4194304 + 1) * 4194304 - 4096)) by dlia. rewrite u32_small by dlia. lia. }
  rewrite Ha'. unfold KERNBASE, PGSIZE in *. change (2 ^ 22) with 4194304 in *.
  split; [done|]. split; [dlia|]. split; [dlia|]. intros x Hx.
  rewrite !PDX_eq by (unfold is_u32 in *; dlia). change (2 ^ 22) with 4194304. dlia.
Qed.

(** The kernel is linked above [KERNBASE]. *)
Context (Hkend : KERNBASE < kend).

Lemma dealloc_loop_spec n fuel pg a oldsz L k l :
  kmem_inv k l -> as_ok (kmemory k) pg l -> Lkmem ∉ L -> (n < fuel)%nat ->
  a mod PGSIZE = 0 -> 0 <= a -> a <= KERNBASE -> oldsz <= KERNBASE -> oldsz - a <= PGSIZE * Z.of_nat n ->
  exists k' l', dealloc_loop kend fuel pg a oldsz L k = Ok tt L k' /\
    unmap_upd pg k l k' l' (below a oldsz).
Proof.
  revert fuel a k l. induction n as [|n IH]; intros fuel a k l Hk Has HL Hf Ha H0 H1 Hold Hn;
    (destruct fuel as [|f]; [lia|]); cbn [dealloc_loop]; destruct (Z.ltb_spec a oldsz) as [Hlt|Hge]; try lia.
  - exists k, l. split; [done|]. apply unmap_refl; [done..|]. unfold below, PGSIZE in *. intros va _ [? ?]. exfalso. dlia.
  - assert (Hu : upage a) by (unfold upage; lia).
    destruct (has (kmemory k) pg (PDX a)) eqn:Hh.
    + rewrite (bind_Ok _ _ _ _ _ _ _ (walk_present _ _ _ _ _ Hh)).
      rewrite (proj2 (Z.eqb_neq _ _) (slot_nonzero _ _ _ _ (as_pt _ _ _ Has) Hh)). unfold kload. kstep.
      assert (Hpte : load32 (kmemory k) (slot (kmemory k) pg a) = pte_at (kmemory k) pg a).
      { unfold pte_at. by rewrite Hh. }
      rewrite Hpte. fold (present (pte_at (kmemory k) pg a)). fold (mapped (kmemory k) pg a).
      rewrite (u32_small (a + PGSIZE)) by (unfold KERNBASE, PGSIZE in *; lia).
      destruct (mapped (kmemory k) pg a) eqn:Hm.
      * destruct (as_frame _ _ _ Has a Hu Hm) as (Pv & _). unfold frame in Pv.
        destruct (Z.eqb_spec (PTE_ADDR (pte_at (kmemory k) pg a)) 0) as [E|_].
        { exfalso. rewrite E in Pv. destruct Pv as (_ & _ & Pv & _). change (P2V 0) with KERNBASE in Pv. lia. }
        destruct (unmap_page pg a L k l Hk Has HL Hu Hm) as (k1 & R & U1).
        rewrite <- bind_assoc. rewrite (bind_Ok _ _ _ _ _ _ _ R).
        destruct (IH f (a + PGSIZE) k1 (frame (kmemory k) pg a :: l)) as (k' & l' & R' & U');
          [apply U1|apply U1|try done; unfold KERNBASE, PGSIZE in *; dlia..|].
        exists k', l'. split; [done|]. eapply unmap_trans; [| |exact U1|exact U'];
          unfold below, PGSIZE in *; intros; dlia.
      * destruct (IH f (a + PGSIZE) k l) as (k' & l' & R' & U'); try done; try (unfold KERNBASE, PGSIZE in *; dlia).
        exists k', l'. split; [done|]. eapply unmap_trans; [| |eapply (unmap_refl _ _ _ (fun x => x / PGSIZE = a / PGSIZE)); [done..|]|exact U'].
        1,2: unfold below, PGSIZE in *; intros; dlia.
        intros va Hva E. by rewrite (upage_vpn a va Hu Hva E).
    + rewrite (bind_Ok _ _ _ _ _ _ _ (walk_absent _ _ _ _ Hh)). cbn [Z.eqb].
      destruct (next_table a Hu) as (E & Ha' & Hr & Hpdx). set (a' := u32 (u32 _ + PGSIZE)) in *.
      destruct (IH f a' k l) as (k' & l' & R' & U'); try done; try (unfold KERNBASE, PGSIZE in *; dlia).
      exists k', l'. split; [done|]. eapply unmap_trans; [| |eapply (unmap_refl _ _ _ (fun x => a <= x < a' /\ PGSIZE * (x / PGSIZE) < oldsz)); [done..|]|exact U'].
      1,2: unfold below, PGSIZE in *; intros; dlia.
      intros va Hva [Hr' _]. unfold mapped, pte_at. by rewrite Hpdx, Hh.
  - exists k, l. split; [done|]. apply unmap_refl; [done..|]. unfold below, PGSIZE in *. intros va _ [? ?]. exfalso. dlia.
Qed.

Lemma dealloc_spec fuel pg oldsz newsz L k l :
  kmem_inv k l -> as_ok (kmemory k) pg l -> Lkmem ∉ L ->
  0 <= newsz < oldsz -> oldsz <= KERNBASE -> (oldsz - newsz) / PGSIZE + 2 <= Z.of_nat fuel ->
  exists k' l', deallocuvm kend fuel pg oldsz newsz L k = Ok newsz L k' /\
    unmap_upd pg k l k' l' (below (PGROUNDUP newsz) oldsz).
Proof.
  intros Hk Has HL Hn Ho Hf. unfold deallocuvm. rewrite Z.geb_leb, (proj2 (Z.leb_gt _ _)) by lia.
  destruct (PGROUNDUP_bounds newsz) as [Ha Hr]; [lia|unfold KERNBASE, PGSIZE in *; lia|].
  destruct (dealloc_loop_spec (Z.to_nat ((oldsz - newsz) / PGSIZE + 1)) fuel pg (PGROUNDUP newsz) oldsz L k l)
    as (k' & l' & R & U); try done; try (unfold KERNBASE, PGSIZE in *; dlia).
  exists k', l'. by rewrite (bind_Ok _ _ _ _ _ _ _ R).
Qed.

(** Fresh pages mapped at the addresses in [A]. *)
Record grown (pg : Z) (k : kmem) (l : list Z) (k' : kmem) (l' : list Z) (A : Z -> Prop) : Prop := {
  gr_kmem : kmem_inv k' l';
  gr_as : as_ok (kmemory k') pg l';
  gr_taken : exists t, l = t ++ l';
  gr_keep : forall va, is_u32 va -> ~ A va -> pte_at (kmemory k') pg va = pte_at (kmemory k) pg va;
  gr_new : forall va, upage va -> A va -> mapped (kmemory k') pg va = true /\
    pte_at (kmemory k') pg va = Z.lor (V2P (frame (kmemory k') pg va)) (Z.lor (Z.lor PTE_W PTE_U) PTE_P) /\
    forall x, frame (kmemory k') pg va <= x < frame (kmemory k') pg va + PGSIZE -> kmemory k' x = 0;
  gr_data : forall va, upage va -> ~ A va -> mapped (kmemory k) pg va = true ->
    same_on (frame (kmemory k) pg va) (frame (kmemory k) pg va + PGSIZE) (kmemory k) (kmemory k')
}.

Lemma grown_refl pg k l A :
  kmem_inv k l -> as_ok (kmemory k) pg l -> (forall va, upage va -> ~ A va) -> grown pg k l k l A.
Proof.
  intros Hk Has Hno. split; auto.
  - by exists [].
  - intros va Hu Ha. by destruct (Hno va Hu).
  - by intros va _ _ _ x _.
Qed.

Lemma grown_mem pg k k0 l k' l' A :
  kmemory k = kmemory k0 -> grown pg k l k' l' A -> grown pg k0 l k' l' A.
Proof. intros E []. split; rewrite <- ?E in *; done. Qed.

Lemma grown_trans pg k l k1 l1 k2 l2 (A B C : Z -> Prop) :
  (forall va, C va <-> A va \/ B va) -> (forall va, upage va -> A va -> ~ B va) ->
  grown pg k l k1 l1 A -> grown pg k1 l1 k2 l2 B -> grown pg k l k2 l2 C.
Proof.
  intros HC Hd [M1 S1 (t1 & T1) K1 N1 D1] [M2 S2 (t2 & T2) K2 N2 D2].
  assert (HA : forall va, upage va -> A va ->
    pte_at (kmemory k2) pg va = pte_at (kmemory k1) pg va).
  { intros va Hu Ha. apply K2; [by apply upage_u32|]. by apply Hd. }
  split; auto.
  - exists (t1 ++ t2). by rewrite T1, T2, app_assoc.
  - intros va Hu Hn. rewrite HC in Hn. rewrite K2, K1; tauto.
  - intros va Hu [Ha|Hb]%HC; [|by apply N2]. unfold mapped, frame. rewrite HA by done.
    destruct (N1 va Hu Ha) as (Hm & E & Z). split; [done|]. split; [done|]. intros x Hx.
    rewrite <- (Z x Hx). by apply (D2 va Hu (Hd va Hu Ha)).
  - intros va Hu Hn Hm. rewrite HC in Hn. assert (E : pte_at (kmemory k1) pg va = pte_at (kmemory k) pg va).
    { apply K1; [by apply upage_u32|tauto]. }
    intros x Hx. rewrite <- (D1 va Hu) by tauto. apply (D2 va Hu); [tauto| |].
    + unfold mapped. by rewrite E.
    + unfold frame. by rewrite E.
Qed.

(** A page taken off the free list and zeroed, not yet mapped. *)
Lemma zero_page pg v k l :
  kmem_inv k l -> as_ok (kmemory k) pg (v :: l) -> page_ok v -> v ∉ l ->
  let k' := k <| kmemory ::= fun m => memset m v 0 PGSIZE |> in
  kmem_inv k' l /\ as_ok (kmemory k') pg l /\ ~ own (kmemory k') pg v /\
  same_outside v (v + PGSIZE) (kmemory k) (kmemory k') /\
  (forall x, v <= x < v + PGSIZE -> kmemory k' x = 0) /\
  (forall va, pte_at (kmemory k') pg va = pte_at (kmemory k) pg va) /\
  (forall w, own (kmemory k') pg w <-> own (kmemory k) pg w).
Proof.
  intros Hk [Hpt Hfr Hinj] Pv Hnl k'.
  assert (Hs : same_outside v (v + PGSIZE) (kmemory k) (kmemory k')).
  { intros x Hx. cbn. rewrite memset_fill. destruct (Z.leb_spec v x), (Z.ltb_spec x (v + PGSIZE)); (done || lia). }
  assert (Hno : forall w, own (kmemory k) pg w -> w <> v).
  { intros w [_ Hw]%(own_page _ _ _ _ Hpt) ->. set_solver. }
  destruct (frame_entries (kmemory k) (kmemory k') pg) as [Hst He].
  { intros w Hw. eapply same_outside_on; [exact Hs|].
    apply (pages_disjoint kend); [by eapply own_page|done|by apply Hno]. }
  split_and!; try done.
  - by eapply kmem_inv_frame.
  - split.
    + eapply pt_ok_tables; [exact Hst| |exact Hpt]. set_solver.
    + intros va Hu. unfold mapped, frame. rewrite He. intros Hm. destruct (Hfr va Hu Hm) as (? & ? & ?).
      rewrite (same_tables_own _ _ _ _ Hst). split_and!; [done|set_solver|done].
    + intros va va' Hu Hu'. unfold mapped, frame. rewrite !He. by apply Hinj.
  - rewrite (same_tables_own _ _ _ _ Hst). intros H%Hno. done.
  - intros x Hx. cbn. rewrite memset_fill. destruct (Z.leb_spec v x), (Z.ltb_spec x (v + PGSIZE)); (done || lia).
  - intros w. by apply same_tables_own.
Qed.

(** Mapping the unused page [v] at [a]. *)
Lemma map_fresh f pg a v k l k' l' : 0 <= f < PGSIZE -> Z.odd f = true ->
  as_ok (kmemory k) pg l -> page_ok v -> v ∉ l -> ~ own (kmemory k) pg v ->
  (forall va, upage va -> mapped (kmemory k) pg va = true -> frame (kmemory k) pg va <> v) ->
  upage a -> pt_upd pg k l k' l' (fun x => x / PGSIZE = a / PGSIZE) ->
  pte_at (kmemory k') pg a = Z.lor (V2P v) f ->
  as_ok (kmemory k') pg l' /\ ~ own (kmemory k') pg v.
Proof.
  intros Hfl Hodd [Hpt Hfr Hinj] Pv Hnl Hno Hne Ha U E.
  destruct (page_entry v f Pv Hfl Hodd) as (_ & E2 & E3 & _).
  destruct (pu_taken _ _ _ _ _ _ U) as [t Ht].
  assert (Hown : forall w, w ∉ l -> ~ own (kmemory k) pg w -> ~ own (kmemory k') pg w).
  { intros w H1 H2 Hw. by destruct (pu_own _ _ _ _ _ _ U w Hw) as [|[? _]]. }
  assert (Hcase : forall va, upage va -> va = a \/
    va <> a /\ pte_at (kmemory k') pg va = pte_at (kmemory k) pg va).
  { intros va Hva. destruct (decide (va = a)) as [->|Hd]; [by left|right]. split; [done|].
    apply (pu_keep _ _ _ _ _ _ U); [by apply upage_u32|]. intros Hv. by apply Hd, upage_vpn. }
  split; [|by apply Hown]. split; [apply U| |]; unfold mapped, frame in *.
  - intros va Hva Hm. destruct (Hcase va Hva) as [->|[_ K]].
    + rewrite E, E3. split_and!; [done| |by apply Hown]. subst l. set_solver.
    + rewrite K in *. destruct (Hfr va Hva Hm) as (? & ? & ?). split_and!; [done| |by apply Hown].
      subst l. set_solver.
  - intros x y Hx Hy. destruct (Hcase x Hx) as [->|[_ Kx]], (Hcase y Hy) as [->|[_ Ky]]; [done|..];
      rewrite ?E, ?Kx, ?Ky, ?E3; intros Hm1 Hm2 Heq; [by destruct (Hne y)|by destruct (Hne x)|by apply Hinj].
Qed.

Lemma V2P_page v : page_ok v -> V2P v mod PGSIZE = 0 /\ 0 <= V2P v /\ V2P v + PGSIZE <= 2 ^ 32.
Proof.
  intros Pv. pose proof (page_ok_range _ _ Pv). destruct Pv as (? & ? & _).
  unfold V2P, KERNBASE, PHYSTOP, PGSIZE in *. rewrite u32_small by lia. split; [dlia|lia].
Qed.

Section fresh.
Context (pg a v : Z) (k : kmem) (l : list Z) (k' : kmem) (l' : list Z).
Context (Hk : kmem_inv k l) (Has : as_ok (kmemory k) pg (v :: l)) (Pv : page_ok v) (Hnl : v ∉ l).
Context (Ha : upage a).
Let k1 := k <| kmemory ::= fun m => memset m v 0 PGSIZE |>.
Context (U : pt_upd pg k1 l k' l' (fun x => x / PGSIZE = a / PGSIZE)).

(** Pages that are in use keep their contents. *)
Lemma fresh_far w x :
  page_ok w -> ~ own (kmemory k') pg w -> w <= x < w + PGSIZE -> kmemory k' x = kmemory k1 x.
Proof.
  clear Has. intros Pw Hw Hx. apply (pu_frame _ _ _ _ _ _ U). intros u Hu' Hux. apply Hw.
  destruct (decide (u = w)) as [->|Hd]; [done|].
  destruct (pages_disjoint kend u w) as [?|?]; [eapply own_page; [apply U|done]|done..|lia|lia].
Qed.

Lemma fresh_not_frame va :
  upage va -> mapped (kmemory k1) pg va = true -> frame (kmemory k1) pg va <> v.
Proof.
  destruct (zero_page pg v k l Hk Has Pv Hnl) as (_ & _ & _ & _ & _ & He & _). fold k1 in He.
  intros Hu. unfold mapped, frame. rewrite He. intros Hmv Hv.
  destruct (as_frame _ _ _ Has va Hu Hmv) as (_ & H & _). unfold frame in H. set_solver.
Qed.

Lemma fresh_grown :
  pte_at (kmemory k') pg a = Z.lor (V2P v) 7 ->
  grown pg k (v :: l) k' l' (fun x => x / PGSIZE = a / PGSIZE).
Proof.
  intros E. destruct (zero_page pg v k l Hk Has Pv Hnl) as (_ & Has1 & Hno & Hs & Hz & He & Ho).
  fold k1 in Has1, Hno, Hs, Hz, He, Ho.
  destruct (map_fresh 7 pg a v k1 l k' l') as [Has' Hno']; try done; [by apply fresh_not_frame|].
  destruct (page_entry v 7 Pv) as (_ & E2 & E3 & _); [unfold PGSIZE; lia|done|].
  split; [apply U|done| | | |].
  - destruct (pu_taken _ _ _ _ _ _ U) as [t ->]. by exists (v :: t).
  - intros va Hva Hn. rewrite (pu_keep _ _ _ _ _ _ U) by done. apply He.
  - intros va Hva Hv. assert (va = a) as -> by (apply upage_vpn; done).
    unfold mapped, frame. rewrite E, E3. split; [done|]. split; [done|]. intros x Hx.
    rewrite (fresh_far v) by done. by apply Hz.
  - intros va Hva Hn Hmv x Hx. destruct (as_frame _ _ _ Has va Hva Hmv) as (Pw & Hwl & Hwo).
    rewrite (fresh_far (frame (kmemory k) pg va)); [|done| |done].
    + apply Hs. destruct (pages_disjoint kend (frame (kmemory k) pg va) v) as [?|?]; [done|done| |lia|lia].
      intros Heq. apply Hwl. rewrite Heq. set_solver.
    + intros Hw. destruct (pu_own _ _ _ _ _ _ U _ Hw) as [Hw'|[Hin _]]; [|set_solver].
      by apply Hwo, Ho.
Qed.

Lemma fresh_failed :
  l' = [] -> (forall va, is_u32 va -> pte_at (kmemory k') pg va = pte_at (kmemory k1) pg va) ->
  as_ok (kmemory k') pg [] /\ ~ own (kmemory k') pg v /\
  (forall va, is_u32 va -> pte_at (kmemory k') pg va = pte_at (kmemory k) pg va) /\
  (forall va, upage va -> mapped (kmemory k') pg va = true -> frame (kmemory k') pg va <> v).
Proof.
  intros Hl' He'. destruct (zero_page pg v k l Hk Has Pv Hnl) as (_ & [Hpt1 Hfr1 Hinj1] & Hno & _ & _ & He & Ho).
  fold k1 in Hpt1, Hfr1, Hinj1, Hno, He, Ho.
  assert (Hown : forall w, w ∉ l -> ~ own (kmemory k1) pg w -> ~ own (kmemory k') pg w).
  { intros w H1 H2 Hw. by destruct (pu_own _ _ _ _ _ _ U w Hw) as [|[? _]]. }
  split_and!; [split| | |].
  - rewrite <- Hl'. apply U.
  - intros va Hu. unfold mapped, frame. rewrite He' by (by apply upage_u32). intros Hm.
    destruct (Hfr1 va Hu Hm) as (? & ? & ?). split_and!; [done|set_solver|by apply Hown].
  - intros x y Hx Hy. unfold mapped, frame. rewrite !He' by (by apply upage_u32). by apply Hinj1.
  - by apply Hown.
  - intros va Hu. rewrite He' by done. apply He.
  - intros va Hu. unfold mapped, frame. rewrite He' by (by apply upage_u32). by apply fresh_not_frame.
Qed.

End fresh.

Lemma map_page fuel pg a v L k l :
  kmem_inv k l -> as_ok (kmemory k) pg (v :: l) -> page_ok v -> v ∉ l -> Lkmem ∉ L -> upage a ->
  mapped (kmemory k) pg a = false -> (0 < fuel)%nat ->
  exists k' l' r, mappages fuel pg a PGSIZE (V2P v) (Z.lor PTE_W PTE_U) L
      (k <| kmemory ::= fun m => memset m v 0 PGSIZE |>) = Ok r L k' /\
    (r = 0 /\ grown pg k (v :: l) k' l' (fun x => x / PGSIZE = a / PGSIZE) \/
     r = -1 /\ kmem_inv k' [] /\ as_ok (kmemory k') pg [] /\ ~ own (kmemory k') pg v /\
     (forall va, is_u32 va -> pte_at (kmemory k') pg va = pte_at (kmemory k) pg va) /\
     (forall va, upage va -> mapped (kmemory k') pg va = true -> frame (kmemory k') pg va <> v)).
Proof.
  intros Hk Has Pv Hnl HL Ha Hm Hf. destruct (V2P_page v Pv) as (Hv1 & Hv2 & Hv3).
  destruct (zero_page pg v k l Hk Has Pv Hnl) as (Hk1 & Has1 & _ & _ & _ & He & _).
  set (k1 := k <| kmemory ::= _ |>) in *. pose proof Ha as [Har Haa].
  destruct (map_loop_spec 0 fuel pg a (V2P v) (Z.lor PTE_W PTE_U) L k1 l)
    as (k' & l' & r & j & R & U & Hnew & Hold & Hr); try done; try (apply Has1);
    try (unfold KERNBASE, PGSIZE in *; lia).
  { intros i Hi. replace i with 0 by lia. rewrite Z.mul_0_r, Z.add_0_r, He. exact Hm. }
  exists k', l', r. rewrite <- (mappages_aligned fuel pg a (V2P v) _ 0) in R by (unfold KERNBASE, PGSIZE in *; lia).
  split; [exact R|].
  assert (U' : pt_upd pg k1 l k' l' (fun x => x / PGSIZE = a / PGSIZE)).
  { eapply pt_upd_trans; [| |exact U|by apply pt_upd_refl; apply U]; [|intros va H; exact H].
    unfold PGSIZE in *. intros va Hv. dlia. }
  destruct Hr as [[-> ->]|(-> & -> & Hj)]; [left|right].
  - split; [done|]. eapply fresh_grown; try done. specialize (Hnew 0 ltac:(lia)).
    rewrite Z.mul_0_r, Z.add_0_r in Hnew. rewrite Hnew. unfold new_entry. by rewrite Z.mul_0_r, Z.add_0_r.
  - split; [done|]. split; [apply U'|]. eapply fresh_failed; try done. intros va Hva.
    destruct (decide (va / PGSIZE = a / PGSIZE)) as [E|E]; [|by apply (pu_keep _ _ _ _ _ _ U')].
    specialize (Hold 0 ltac:(lia)). rewrite Z.mul_0_r, Z.add_0_r in Hold.
    rewrite !(pte_at_page _ _ va a); try done; by apply upage_u32.
Qed.

(** An address space brought back to [oldsz] after a failed growth. *)
Record rolled_back (pg : Z) (k : kmem) (k' : kmem) (l' : list Z) (A : Z -> Prop) : Prop := {
  rb_kmem : kmem_inv k' l';
  rb_as : as_ok (kmemory k') pg l';
  rb_keep : forall va, is_u32 va -> ~ A va -> pte_at (kmemory k') pg va = pte_at (kmemory k) pg va;
  rb_gone : forall va, upage va -> A va -> mapped (kmemory k') pg va = false
}.

Lemma alloc_fail_dealloc fuel pg oldsz newsz v L k :
  kmem_inv k [] -> as_ok (kmemory k) pg [] -> Lkmem ∉ L -> page_ok v -> ~ own (kmemory k) pg v ->
  (forall va, upage va -> mapped (kmemory k) pg va = true -> frame (kmemory k) pg va <> v) ->
  0 <= oldsz < newsz -> newsz <= KERNBASE -> (newsz - oldsz) / PGSIZE + 2 <= Z.of_nat fuel ->
  exists k' l', (deallocuvm kend fuel pg newsz oldsz ;; kfree kend v ;; mret 0) L k = Ok 0 L k' /\
    rolled_back pg k k' l' (below (PGROUNDUP oldsz) newsz).
Proof.
  intros Hk Has HL Pv Hno Hne Hs Hn Hf.
  destruct (dealloc_spec fuel pg newsz oldsz L k [] Hk Has HL Hs Hn Hf) as (k1 & l1 & R & [M S K G F O _]).
  rewrite (bind_Ok _ _ _ _ _ _ _ R).
  destruct (free_unused pg v L k1 l1 M (as_pt _ _ _ S) HL Pv) as (k2 & R2 & M2 & P2 & T2 & E2 & _).
  { intros [Hv%elem_of_nil|(va & Hu & _ & Hm & ->)]%F; [done|]. by destruct (Hne va Hu Hm). }
  { by rewrite O. }
  exists k2, (v :: l1). rewrite (bind_Ok _ _ _ _ _ _ _ R2). split; [done|].
  assert (Hm1 : forall va, upage va -> mapped (kmemory k1) pg va = true -> frame (kmemory k1) pg va <> v).
  { intros va Hu Hm. assert (~ below (PGROUNDUP oldsz) newsz va) as Hb.
    { intros Hb. by rewrite (G va Hu Hb) in Hm. }
    unfold mapped, frame in *. rewrite (K va (upage_u32 _ Hu) Hb) in *. by apply Hne. }
  destruct S as [_ Sf Si]. split; [done| | |].
  - split; [done| |]; unfold mapped, frame in *.
    + intros va Hu. rewrite E2. intros Hm. destruct (Sf va Hu Hm) as (? & ? & ?).
      rewrite (same_tables_own _ _ _ _ T2). split_and!; [done| |done].
      apply not_elem_of_cons. split; [by apply Hm1|done].
    + intros x y Hx Hy. rewrite !E2. by apply Si.
  - intros va Hu Hb. rewrite E2. by apply K.
  - intros va Hu Hb. unfold mapped. rewrite E2. by apply G.
Qed.

Lemma alloc_loop_spec n fuel pg a oldsz newsz L k l :
  kmem_inv k l -> as_ok (kmemory k) pg l -> Lkmem ∉ L ->
  a mod PGSIZE = 0 -> PGROUNDUP oldsz <= a -> 0 <= oldsz <= a -> oldsz <= newsz < KERNBASE ->
  newsz - a <= PGSIZE * Z.of_nat n ->
  Z.of_nat n + (newsz - oldsz) / PGSIZE + 3 <= Z.of_nat fuel ->
  (forall va, upage va -> a <= va < newsz -> mapped (kmemory k) pg va = false) ->
  exists k' l' r, alloc_loop kend fuel pg a oldsz newsz L k = Ok r L k' /\
    (r = newsz /\ grown pg k l k' l' (below a newsz) \/
     r = 0 /\ rolled_back pg k k' l' (below (PGROUNDUP oldsz) newsz)).
Proof.
  revert fuel a k l. induction n as [|n IH]; intros fuel a k l Hk Has HL Ha Hr Ho Hn Hsz Hf Hfree;
    (assert (0 <= (newsz - oldsz) / PGSIZE) by (apply Z.div_pos; unfold PGSIZE; lia));
    (destruct fuel as [|f]; [lia|]); cbn [alloc_loop]; destruct (Z.ltb_spec a newsz) as [Hlt|Hge];
    try (exists k, l, newsz; split; [done|left; split; [done|]]; apply grown_refl; [done..|];
         unfold below, upage, PGSIZE in *; intros va [_ ?] [? ?]; dlia); [unfold PGSIZE in *; lia|].
  assert (Hu : upage a) by (unfold upage; lia).
  assert (Hd : (newsz - oldsz) / PGSIZE + 2 <= Z.of_nat (S f)) by lia.
  pose proof (kalloc_spec kend l L k Hk HL) as Hal. destruct l as [|v l].
  { rewrite (bind_Ok _ _ _ _ _ _ _ Hal). cbn [Z.eqb].
    destruct (dealloc_spec (S f) pg newsz oldsz L k [] Hk Has HL) as (k1 & l1 & R & [M S K G _ _ _]); try lia.
    exists k1, l1, 0. rewrite (bind_Ok _ _ _ _ _ _ _ R). split; [done|right; split; [done|by split]]. }
  destruct Hal as (k1 & R & Hk1 & Pv & Hnl & Hm & _). rewrite (bind_Ok _ _ _ _ _ _ _ R).
  rewrite (proj2 (Z.eqb_neq _ _) (page_ok_nonzero _ _ Pv)). kstep.
  rewrite <- Hm in Has, Hfree.
  destruct (map_page (S f) pg a v L k1 l) as (k2 & l2 & r & R2 & Hr2); try done; [by apply Hfree|lia|].
  rewrite (bind_Ok _ _ _ _ _ _ _ R2).
  destruct Hr2 as [[-> G]|(-> & M2 & S2 & Hno & He & Hne)]; cbn [Z.ltb Z.compare].
  - rewrite (u32_small (a + PGSIZE)) by (unfold KERNBASE, PGSIZE in *; lia).
    destruct (IH f (a + PGSIZE) k2 l2) as (k' & l' & r & R' & Hres);
      [apply G|apply G|done|unfold PGSIZE in *; dlia|unfold PGSIZE in *; lia|unfold PGSIZE in *; lia|done
      |unfold PGSIZE in *; lia|lia| |].
    { intros va Hva Hrg. unfold mapped. rewrite (gr_keep _ _ _ _ _ _ G); [|by apply upage_u32|unfold PGSIZE in *; dlia].
      apply Hfree; [done|unfold PGSIZE in *; lia]. }
    exists k', l', r. split; [done|]. destruct Hres as [[-> G']|[-> B]]; [left|right]; (split; [done|]).
    + apply (grown_mem pg k1 k); [done|]. eapply grown_trans; [| |exact G|exact G'];
        unfold below, PGSIZE in *; intros; dlia.
    + destruct B as [? ? Bk ?]. split; try done. intros va Hva Hb. rewrite Bk by done.
      rewrite (gr_keep _ _ _ _ _ _ G), Hm; [done|done|]. unfold below, PGSIZE in *. dlia.
  - destruct (alloc_fail_dealloc (S f) pg oldsz newsz v L k2) as (k' & l' & R' & [? ? Bk ?]); try done; try lia.
    exists k', l', 0. split; [done|right]. split; [done|]. split; try done.
    intros va Hva Hb. by rewrite Bk, He, Hm.
Qed.

Lemma alloc_spec fuel pg oldsz newsz L k l
  (Hk : kmem_inv k l) (Has : as_ok (kmemory k) pg l) (HL : Lkmem ∉ L)
  (Hs : 0 <= oldsz <= newsz) (Hn : newsz < KERNBASE)
  (Hf : 2 * ((newsz - oldsz) / PGSIZE) + 4 <= Z.of_nat fuel)
  (Hfree : forall va, upage va -> PGROUNDUP oldsz <= va < newsz -> mapped (kmemory k) pg va = false) :
  exists k' l' r, allocuvm kend fuel pg oldsz newsz L k = Ok r L k' /\
    kmem_inv k' l' /\ as_ok (kmemory k') pg l' /\
    (forall va, is_u32 va -> ~ below (PGROUNDUP oldsz) newsz va ->
      pte_at (kmemory k') pg va = pte_at (kmemory k) pg va) /\
    (r = newsz /\ (forall va, upage va -> PGROUNDUP oldsz <= va < newsz ->
       mapped (kmemory k') pg va = true /\
       PTE_FLAGS (pte_at (kmemory k') pg va) = Z.lor (Z.lor PTE_W PTE_U) PTE_P /\
       forall x, frame (kmemory k') pg va <= x < frame (kmemory k') pg va + PGSIZE -> kmemory k' x = 0) \/
     r = 0 /\ (forall va, upage va -> PGROUNDUP oldsz <= va < newsz -> mapped (kmemory k') pg va = false)).
Proof.
  unfold allocuvm. rewrite Z.geb_leb, (proj2 (Z.leb_gt _ _)) by lia. rewrite (proj2 (Z.ltb_ge _ _)) by lia.
  destruct (PGROUNDUP_bounds oldsz) as [Ha Hr]; [lia|unfold KERNBASE, PGSIZE in *; lia|].
  destruct (alloc_loop_spec (Z.to_nat ((newsz - oldsz) / PGSIZE + 1)) fuel pg (PGROUNDUP oldsz) oldsz newsz L k l)
    as (k' & l' & r & R & Hres); try done; try (unfold PGSIZE in *; dlia).
  assert (Hb : forall va, upage va -> PGROUNDUP oldsz <= va < newsz -> below (PGROUNDUP oldsz) newsz va).
  { unfold upage, below, PGSIZE. intros va [_ ?] ?. dlia. }
  exists k', l', r. split; [done|]. destruct Hres as [[-> [M S _ K N _]]|[-> [M S K G]]].
  - split_and!; try done. left. split; [done|]. intros va Hu Hva.
    destruct (N va Hu (Hb va Hu Hva)) as (Hm & E & Hz). split_and!; [done| |done].
    destruct (page_entry (frame (kmemory k') pg va) 7) as (_ & _ & _ & F); [by apply S|unfold PGSIZE; lia|done|].
    rewrite E. exact F.
  - split_and!; try done. right. split; [done|]. intros va Hu Hva. by apply G, Hb.
Qed.

(** C9: [allocuvm] either grows the address space to [newsz], with zeroed,
    writable user pages of its own at every new address, or, when memory runs
    out, returns 0 with nothing left mapped above [oldsz].  Either way no
    other entry changes and the address space stays isolated. *)
Theorem allocuvm_grows fuel pg oldsz newsz L k l
  (Hk : kmem_inv k l) (Has : as_ok (kmemory k) pg l) (HL : Lkmem ∉ L)
  (Hs : 0 <= oldsz <= newsz) (Hn : newsz < KERNBASE)
  (Hf : 2 * ((newsz - oldsz) / PGSIZE) + 4 <= Z.of_nat fuel)
  (Hfree : forall va, upage va -> PGROUNDUP oldsz <= va < newsz -> mapped (kmemory k) pg va = false) :
  exists k' l' r, allocuvm kend fuel pg oldsz newsz L k = Ok r L k' /\
    kmem_inv k' l' /\ as_ok (kmemory k') pg l' /\
    (forall va, is_u32 va -> ~ below (PGROUNDUP oldsz) newsz va ->
      pte_at (kmemory k') pg va = pte_at (kmemory k) pg va) /\
    (r = newsz /\ (forall va, upage va -> PGROUNDUP oldsz <= va < newsz ->
       mapped (kmemory k') pg va = true /\
       PTE_FLAGS (pte_at (kmemory k') pg va) = Z.lor (Z.lor PTE_W PTE_U) PTE_P /\
       forall x, frame (kmemory k') pg va <= x < frame (kmemory k') pg va + PGSIZE -> kmemory k' x = 0) \/
     r = 0 /\ (forall va, upage va -> PGROUNDUP oldsz <= va < newsz -> mapped (kmemory k') pg va = false)).
Proof. by eapply alloc_spec. Qed.

(** [deallocuvm] unmaps exactly the pages from the first one at or above
    [newsz] up to [oldsz] and gives their frames back to the allocator; no
    other entry or page changes. *)
Theorem deallocuvm_frees fuel pg oldsz newsz L k l
  (Hk : kmem_inv k l) (Has : as_ok (kmemory k) pg l) (HL : Lkmem ∉ L)
  (Hs : 0 <= newsz < oldsz) (Ho : oldsz <= KERNBASE)
  (Hf : (oldsz - newsz) / PGSIZE + 2 <= Z.of_nat fuel) :
  exists k' l', deallocuvm kend fuel pg oldsz newsz L k = Ok newsz L k' /\
    kmem_inv k' l' /\ as_ok (kmemory k') pg l' /\
    (forall va, upage va -> PGROUNDUP newsz <= va < oldsz -> mapped (kmemory k') pg va = false) /\
    (forall va, upage va -> ~ (PGROUNDUP newsz <= va < oldsz) ->
      pte_at (kmemory k') pg va = pte_at (kmemory k) pg va) /\
    (forall v, v ∈ l' <-> v ∈ l \/ exists va, upage va /\ PGROUNDUP newsz <= va < oldsz /\
      mapped (kmemory k) pg va = true /\ v = frame (kmemory k) pg va).
Proof.
  destruct (dealloc_spec fuel pg oldsz newsz L k l Hk Has HL Hs Ho Hf) as (k' & l' & R & [M S K G F _ _]).
  assert (Hb : forall va, upage va -> below (PGROUNDUP newsz) oldsz va <-> PGROUNDUP newsz <= va < oldsz).
  { unfold upage, below, PGSIZE. intros va [_ ?]. dlia. }
  exists k', l'. split_and!; try done.
  - intros va Hu Hr. by apply G, Hb.
  - intros va Hu Hr. apply K; [by apply upage_u32|]. by rewrite Hb.
  - intros v. rewrite F. split; (intros [?|(va & Hu & Hr & Hrest)]; [by left|right; exists va]);
      (split; [done|]); (split; [by apply Hb|done]).
Qed.

(** *** Freeing an address space *)

Lemma free_tables_spec pg L ids : forall k l,
  kmem_inv k l -> Lkmem ∉ L -> page_ok pg -> pg ∉ l -> NoDup ids ->
  (forall i, i ∈ ids -> 0 <= i < NPDENTRIES) ->
  (forall i, i ∈ ids -> has (kmemory k) pg i = true ->
    page_ok (tab (kmemory k) pg i) /\ (tab (kmemory k) pg i ∉ l) /\ tab (kmemory k) pg i <> pg) ->
  (forall i j, i ∈ ids -> j ∈ ids -> has (kmemory k) pg i = true -> has (kmemory k) pg j = true ->
    tab (kmemory k) pg i = tab (kmemory k) pg j -> i = j) ->
  exists k' l', kiter (free_table kend pg) ids L k = Ok tt L k' /\ kmem_inv k' l' /\
    (forall v, v ∈ l' <-> v ∈ l \/ exists i, i ∈ ids /\ has (kmemory k) pg i = true /\ v = tab (kmemory k) pg i) /\
    pg ∉ l' /\ same_on pg (pg + PGSIZE) (kmemory k) (kmemory k') /\
    forall x, (forall v, v ∈ l' -> ~ (v <= x < v + PGSIZE)) -> kmemory k' x = kmemory k x.
Proof.
  induction ids as [|i ids IH]; intros k l Hk HL Pp Hpl Hnd Hr Ht Hj; cbn [kiter].
  { exists k, l. split; [done|]. split; [done|]. split; [set_solver|]. split; [done|]. split; [by intros x _|done]. }
  apply NoDup_cons in Hnd as [Hni Hnd].
  assert (Hi : i ∈ i :: ids) by (apply elem_of_cons; by left).
  assert (Hin : forall j, j ∈ ids -> j ∈ i :: ids) by (intros; apply elem_of_cons; by right).
  assert (E0 : free_table kend pg i L k =
    if has (kmemory k) pg i then kfree kend (tab (kmemory k) pg i) L k else Ok tt L k).
  { unfold free_table. erewrite bind_Ok by done. unfold has, present, tab, pde_of. by destruct (nz _). }
  destruct (has (kmemory k) pg i) eqn:Hh.
  - destruct (Ht i Hi Hh) as (Pt & Htl & Htp).
    destruct (kfree_spec kend _ l L k Pt Htl Hk HL) as (k1 & R & Hk1 & Hs & _).
    erewrite bind_Ok by (rewrite E0; exact R).
    assert (Hsp : same_on pg (pg + PGSIZE) (kmemory k) (kmemory k1)).
    { eapply same_outside_on; [exact Hs|]. by apply (pages_disjoint kend). }
    destruct (same_tables_dir _ _ _ Hsp) as [Eh0 Et0].
    assert (Eh : forall j, j ∈ ids -> has (kmemory k1) pg j = has (kmemory k) pg j) by auto.
    assert (Et : forall j, j ∈ ids -> tab (kmemory k1) pg j = tab (kmemory k) pg j) by auto.
    destruct (IH k1 (tab (kmemory k) pg i :: l)) as (k2 & l2 & R2 & Hk2 & Hl2 & Hp2 & Hs2 & Hx2); auto.
    + by apply not_elem_of_cons.
    + intros j Hjd. rewrite Eh, Et by done. intros Hhj.
      destruct (Ht j (Hin j Hjd) Hhj) as (? & ? & ?). split_and!; [done| |done].
      apply not_elem_of_cons. split; [|done]. intros E. apply Hj in E; auto. congruence.
    + intros a b Ha Hb. rewrite !Eh, !Et by done. auto.
    + exists k2, l2. split; [done|]. split; [done|]. split; [|split; [done|split; [intros x Hx; by rewrite Hs2, Hsp|]]].
      2: { intros x Hx. rewrite Hx2 by done. apply Hs. specialize (Hx (tab (kmemory k) pg i)). rewrite Hl2 in Hx.
           assert (~ (tab (kmemory k) pg i <= x < tab (kmemory k) pg i + PGSIZE)) by (apply Hx; left; apply elem_of_cons; by left). lia. }
      intros v. rewrite Hl2, elem_of_cons. split.
      * intros [[-> | ?]|(j & Hjd & Hhj & ->)]; [right; by exists i|by left|].
        right. exists j. rewrite Eh in Hhj by done. rewrite Et by done. auto.
      * intros [?|(j & [-> | Hjd]%elem_of_cons & Hhj & ->)]; [by left; right|by left; left|].
        right. exists j. by rewrite Eh, Et by done.
  - erewrite bind_Ok by exact E0.
    destruct (IH k l) as (k2 & l2 & R2 & Hk2 & Hl2 & Hp2 & Hs2 & Hx2); auto.
    exists k2, l2. split; [done|]. split; [done|]. split; [|done]. intros v. rewrite Hl2. split.
    + intros [?|(j & ? & ? & ?)]; [by left|right; exists j; auto].
    + intros [?|(j & [-> | ?]%elem_of_cons & Hhj & ->)]; [by left|congruence|right; by exists j].
Qed.

(** [freevm] returns the whole address space to the allocator: the frames of
    its user pages, its tables and its directory, and nothing else. *)
Lemma freevm_spec fuel pg L k l :
  kmem_inv k l -> as_ok (kmemory k) pg l -> Lkmem ∉ L -> pg <> 0 -> KERNBASE / PGSIZE + 2 <= Z.of_nat fuel ->
  exists k' l', freevm kend fuel pg L k = Ok tt L k' /\ kmem_inv k' l' /\
    (forall v, v ∈ l' <-> v ∈ l \/ own (kmemory k) pg v \/
      exists va, upage va /\ mapped (kmemory k) pg va = true /\ v = frame (kmemory k) pg va) /\
    forall x, (forall v, v ∈ l' -> ~ (v <= x < v + PGSIZE)) -> kmemory k' x = kmemory k x.
Proof.
  intros Hk Has HL Hpg Hf. unfold freevm. rewrite (proj2 (Z.eqb_neq _ _) Hpg).
  destruct (dealloc_spec fuel pg KERNBASE 0 L k l Hk Has HL) as (k1 & l1 & R1 & U);
    [unfold KERNBASE; lia|lia|by rewrite Z.sub_0_r|].
  erewrite bind_Ok by exact R1. destruct U as [M S _ _ F O X]. pose proof (as_pt _ _ _ S) as [P1 P2 P3 P4].
  set (ids := map Z.of_nat (seq 0 (Z.to_nat NPDENTRIES))).
  assert (Hids : forall i, i ∈ ids <-> 0 <= i < NPDENTRIES).
  { intros i. unfold ids. rewrite list_elem_of_fmap. split.
    - intros (n & -> & Hn%elem_of_seq). lia.
    - intros Hi. exists (Z.to_nat i). rewrite elem_of_seq. lia. }
  destruct (free_tables_spec pg L ids k1 l1 M HL P1 P2) as (k2 & l2 & R2 & M2 & F2 & P & _ & X2).
  { unfold ids. apply NoDup_fmap_2; [apply _|apply NoDup_seq]. }
  { by intros i ?%Hids. }
  { by intros i ?%Hids; apply P3. }
  { by intros i j ?%Hids ?%Hids; apply P4. }
  erewrite bind_Ok by exact R2. destruct (kfree_spec kend pg l2 L k2 P1 P M2 HL) as (k3 & R3 & M3 & X3 & _).
  exists k3, (pg :: l2). split; [done|]. split; [done|]. split.
  2: { intros x Hx. assert (~ (pg <= x < pg + PGSIZE)) by (apply Hx, elem_of_cons; by left). rewrite X3 by lia.
       rewrite X2 by (intros v Hv; apply Hx, elem_of_cons; by right). apply X. intros v [Hv|Hv]; apply Hx, elem_of_cons; [|right; apply F2; by left].
       rewrite <- O in Hv. destruct Hv as [-> |(i & Hi & Hh & ->)]; [by left|right; apply F2; right].
       exists i. split; [by apply Hids|done]. }
  intros v. rewrite elem_of_cons, F2, F, <- O.
  assert (Hb : forall va, upage va -> below (PGROUNDUP 0) KERNBASE va).
  { intros va [? ?]. change (PGROUNDUP 0) with 0. unfold below, PGSIZE, KERNBASE in *. dlia. }
  unfold own. setoid_rewrite Hids. split.
  - intros [-> |[[?|(va & ? & _ & ? & ?)]|(i & ? & ? & ->)]]; [by right; left; left|by left|right; right; by exists va|].
    right. left. right. by exists i.
  - intros [?|[[-> |(i & ? & ? & ->)]|(va & ? & ? & ->)]]; [by right; left; left|by left|by right; right; exists i|].
    right. left. right. exists va. auto.
Qed.

(** *** Copying out *)

(** The kernel address of a user byte. *)
Definition kva (m : mem) (pg x : Z) : Z := frame m pg (PGROUNDDOWN x) + x mod PGSIZE.

Definition user_page (m : mem) (pg x : Z) : Prop :=
  mapped m pg x = true /\ nz (Z.land (pte_at m pg x) PTE_U) = true.

Lemma uva2ka_ok pg va L k l :
  as_ok (kmemory k) pg l -> user_page (kmemory k) pg va ->
  uva2ka pg va L k = Ok (frame (kmemory k) pg va) L k.
Proof.
  intros Has [Hm Hu]. pose proof (mapped_has _ _ _ Hm) as Hh. unfold uva2ka.
  rewrite (bind_Ok _ _ _ _ _ _ _ (walk_present _ _ _ _ _ Hh)).
  rewrite (proj2 (Z.eqb_neq _ _) (slot_nonzero _ _ _ _ (as_pt _ _ _ Has) Hh)). unfold kload. kstep.
  unfold mapped, present, frame, pte_at in *. rewrite Hh in *. by rewrite Hm, Hu.
Qed.

(** An address with a page table whose page is not the user's. *)
Definition other_page (m : mem) (pg x : Z) : Prop := has m pg (PDX x) = true /\ ~ user_page m pg x.

Lemma uva2ka_refuses pg va L k l :
  as_ok (kmemory k) pg l -> other_page (kmemory k) pg va -> uva2ka pg va L k = Ok 0 L k.
Proof.
  intros Has [Hh Hno]. unfold uva2ka.
  rewrite (bind_Ok _ _ _ _ _ _ _ (walk_present _ _ _ _ _ Hh)).
  rewrite (proj2 (Z.eqb_neq _ _) (slot_nonzero _ _ _ _ (as_pt _ _ _ Has) Hh)). unfold kload. kstep.
  unfold user_page, mapped, present, pte_at in Hno. rewrite Hh in Hno.
  destruct (nz (Z.land (load32 _ _) PTE_P)); [|done]. destruct (nz (Z.land (load32 _ _) PTE_U)); [|done].
  by destruct Hno.
Qed.

(** [uva2ka] of an address with no page table dereferences a null pointer
    instead of returning 0. *)
Theorem uva2ka_no_table pg va L k (Hno : has (kmemory k) pg (PDX va) = false) :
  uva2ka pg va L k = Fault "null pointer" /\
  forall fuel p len, 0 < len -> PGROUNDDOWN va = va ->
    copyout (S fuel) pg va p len L k = Fault "null pointer".
Proof.
  assert (H : uva2ka pg va L k = Fault "null pointer").
  { unfold uva2ka. by rewrite (bind_Ok _ _ _ _ _ _ _ (walk_absent _ _ _ _ Hno)). }
  split; [done|]. intros fuel p len Hl Hva. unfold copyout. cbn [copyout_loop].
  rewrite (proj2 (Z.ltb_lt _ _) Hl), Hva. unfold mbind, K_bind. by rewrite H.
Qed.

(** A change inside one user frame. *)
Lemma frame_write pg va m' k l :
  kmem_inv k l -> as_ok (kmemory k) pg l -> upage va -> mapped (kmemory k) pg va = true ->
  same_outside (frame (kmemory k) pg va) (frame (kmemory k) pg va + PGSIZE) (kmemory k) m' ->
  kmem_inv (k <| kmemory := m' |>) l /\ as_ok m' pg l /\
  (forall x, pte_at m' pg x = pte_at (kmemory k) pg x) /\ same_tables (kmemory k) m' pg.
Proof.
  intros Hk [Hpt Hfr Hinj] Hu Hm Hs. destruct (Hfr va Hu Hm) as (Pv & Hnl & Hno).
  destruct (frame_entries (kmemory k) m' pg) as [Hst He].
  { intros w Hw. eapply same_outside_on; [exact Hs|].
    apply (pages_disjoint kend); [by eapply own_page|done|]. intros ->. done. }
  split_and!; [by eapply kmem_inv_frame| |done|done]. split.
  - by eapply pt_ok_tables; [exact Hst|intros v Hv; exact Hv|].
  - intros x Hx. unfold mapped, frame. rewrite He, (same_tables_own _ _ _ _ Hst). by apply Hfr.
  - intros x y Hx Hy. unfold mapped, frame. rewrite !He. by apply Hinj.
Qed.

Lemma page_of_upage x : 0 <= x < KERNBASE -> upage (PGROUNDDOWN x).
Proof.
  intros Hx. destruct (PGROUNDDOWN_bounds x) as (? & ? & ? & _); [unfold is_u32, KERNBASE in *; lia|].
  unfold upage. lia.
Qed.

Lemma mapped_page m pg x : 0 <= x < KERNBASE -> mapped m pg (PGROUNDDOWN x) = mapped m pg x.
Proof.
  intros Hx. assert (Hu : is_u32 x) by (unfold is_u32, KERNBASE in *; lia).
  destruct (PGROUNDDOWN_bounds x Hu) as (_ & ? & _ & E). unfold mapped.
  rewrite (pte_at_page m pg (PGROUNDDOWN x) x); [done| |done|done]. unfold is_u32 in *. lia.
Qed.

(** Distinct user bytes are distinct bytes of the kernel. *)
Lemma kva_inj m pg l x y :
  as_ok m pg l -> 0 <= x < KERNBASE -> 0 <= y < KERNBASE ->
  mapped m pg x = true -> mapped m pg y = true -> kva m pg x = kva m pg y -> x = y.
Proof.
  intros [_ Hfr Hinj] Hx Hy Mx My E. rewrite <- mapped_page in Mx, My by done.
  pose proof (page_of_upage x Hx) as Ux. pose proof (page_of_upage y Hy) as Uy.
  destruct (PGROUNDDOWN_bounds x) as (_ & _ & _ & Ex); [unfold is_u32, KERNBASE in *; lia|].
  destruct (PGROUNDDOWN_bounds y) as (_ & _ & _ & Ey); [unfold is_u32, KERNBASE in *; lia|].
  destruct (Hfr _ Ux Mx) as (Px & _). destruct (Hfr _ Uy My) as (Py & _). unfold kva in E.
  assert (F : frame m pg (PGROUNDDOWN x) = frame m pg (PGROUNDDOWN y)).
  { destruct (decide (frame m pg (PGROUNDDOWN x) = frame m pg (PGROUNDDOWN y))) as [|Hne]; [done|].
    destruct (pages_disjoint kend _ _ Px Py Hne); unfold PGSIZE in *; dlia. }
  pose proof (Hinj _ _ Ux Uy Mx My F) as G. rewrite G in Ex. unfold PGSIZE in *. dlia.
Qed.

(** The bytes [buf, buf + len) of [m] appear at the user addresses from [va]. *)
Record copied (pg va buf len : Z) (m m' : mem) : Prop := {
  cp_bytes : forall i, 0 <= i < len -> m' (kva m pg (va + i)) = load8 m (buf + i);
  cp_rest : forall y, (forall i, 0 <= i < len -> y <> kva m pg (va + i)) -> m' y = m y
}.

Lemma copy_page pg va buf n k l :
  kmem_inv k l -> as_ok (kmemory k) pg l -> 0 <= va < KERNBASE -> 0 <= n -> va mod PGSIZE + n <= PGSIZE ->
  mapped (kmemory k) pg va = true -> 0 <= buf -> buf + n < 2 ^ 32 ->
  let m' := memmove (kmemory k) (frame (kmemory k) pg (PGROUNDDOWN va) + (va - PGROUNDDOWN va)) buf n in
  kmem_inv (k <| kmemory := m' |>) l /\ as_ok m' pg l /\
  (forall x, pte_at m' pg x = pte_at (kmemory k) pg x) /\ same_tables (kmemory k) m' pg /\
  copied pg va buf n (kmemory k) m'.
Proof.
  intros Hk Has Hva Hn Hoff Hm Hb0 Hb1 m'. pose proof (page_of_upage va Hva) as Hu.
  rewrite <- mapped_page in Hm by done. set (v := frame (kmemory k) pg (PGROUNDDOWN va)) in *.
  destruct (as_frame _ _ _ Has _ Hu Hm) as (Pv & _). fold v in Pv.
  pose proof (page_ok_range _ _ Pv) as Hv.
  destruct (PGROUNDDOWN_bounds va) as (Hd1 & Hd2 & Hd3 & Hd4); [unfold is_u32, KERNBASE in *; lia|].
  assert (Ho : va - PGROUNDDOWN va = va mod PGSIZE) by (unfold PGSIZE in *; dlia).
  assert (Hmv : forall x, m' x = if (v + va mod PGSIZE <=? x) && (x <? v + va mod PGSIZE + n)
      then load8 (kmemory k) (buf + (x - (v + va mod PGSIZE))) else kmemory k x).
  { intros x. unfold m'. rewrite Ho. apply memmove_copies.
    all: unfold region, KERNBASE, PHYSTOP, PGSIZE in *; change (2 ^ 32) with 4294967296 in *; dlia. }
  assert (Hk1 : forall i, 0 <= i < n -> kva (kmemory k) pg (va + i) = v + va mod PGSIZE + i).
  { intros i Hi. unfold kva. assert (PGROUNDDOWN (va + i) = PGROUNDDOWN va) as ->.
    { rewrite !PGROUNDDOWN_eq by (unfold is_u32, KERNBASE, PGSIZE in *; dlia). unfold PGSIZE in *. dlia. }
    fold v. unfold PGSIZE in *. dlia. }
  destruct (frame_write pg (PGROUNDDOWN va) m' k l Hk Has Hu Hm) as (? & ? & ? & ?).
  { intros x Hx. fold v in Hx. rewrite Hmv.
    destruct (Z.leb_spec (v + va mod PGSIZE) x), (Z.ltb_spec x (v + va mod PGSIZE + n)); try done.
    exfalso. apply Hx. unfold PGSIZE in *. dlia. }
  split_and!; try done. split.
  - intros i Hi. rewrite Hk1, Hmv by done.
    rewrite (proj2 (Z.leb_le _ _)), (proj2 (Z.ltb_lt _ _)) by lia. cbn [andb]. f_equal. lia.
  - intros y Hy. rewrite Hmv.
    destruct (Z.leb_spec (v + va mod PGSIZE) y), (Z.ltb_spec y (v + va mod PGSIZE + n)); try done.
    exfalso. apply (Hy (y - (v + va mod PGSIZE))); [lia|]. rewrite Hk1; lia.
Qed.

Lemma kva_entries m m' pg x :
  (forall y, pte_at m' pg y = pte_at m pg y) -> kva m' pg x = kva m pg x.
Proof. intros He. unfold kva, frame. by rewrite He. Qed.

(** Source bytes that no user byte of the destination holds. *)
Definition apart (m : mem) (pg va buf len : Z) : Prop :=
  forall i j, 0 <= i < len -> 0 <= j < len -> kva m pg (va + i) <> buf + j.

Lemma copied_app pg va buf n len l m m1 m2 :
  as_ok m pg l -> 0 <= va -> va + len <= KERNBASE -> 0 <= n <= len ->
  (forall i, 0 <= i < len -> mapped m pg (va + i) = true) -> apart m pg va buf len ->
  (forall y, pte_at m1 pg y = pte_at m pg y) ->
  copied pg va buf n m m1 -> copied pg (va + n) (buf + n) (len - n) m1 m2 -> copied pg va buf len m m2.
Proof.
  intros Has H0 H1 Hn Hm Hap He [B1 R1] [B2 R2]. split.
  - intros i Hi. destruct (Z.lt_ge_cases i n) as [Hlt|Hge].
    + rewrite R2; [apply B1; lia|]. intros j Hj. rewrite (kva_entries _ _ _ _ He).
      intros E%(kva_inj m pg l); [lia|done|lia|lia|apply Hm; lia|]. rewrite <- Z.add_assoc. apply Hm. lia.
    + specialize (B2 (i - n) ltac:(lia)). rewrite (kva_entries _ _ _ _ He) in B2.
      replace (va + n + (i - n)) with (va + i) in B2 by lia. rewrite B2.
      replace (buf + n + (i - n)) with (buf + i) by lia. unfold load8. f_equal. apply R1.
      intros j Hj E. apply (Hap j i); [lia|lia|done].
  - intros y Hy. rewrite R2.
    + apply R1. intros i Hi. apply Hy. lia.
    + intros i Hi. rewrite (kva_entries _ _ _ _ He), <- Z.add_assoc. apply Hy. lia.
Qed.

(** All user addresses of a page are of one kind. *)
Lemma page_kind m pg x y :
  0 <= x < KERNBASE -> 0 <= y < KERNBASE -> x / PGSIZE = y / PGSIZE ->
  (user_page m pg x <-> user_page m pg y) /\ (other_page m pg x <-> other_page m pg y).
Proof.
  intros Hx Hy E. assert (Ux : is_u32 x) by (unfold is_u32, KERNBASE in *; lia).
  assert (Uy : is_u32 y) by (unfold is_u32, KERNBASE in *; lia).
  assert (H : user_page m pg x <-> user_page m pg y).
  { unfold user_page, mapped. by rewrite (pte_at_page m pg x y). }
  split; [done|]. unfold other_page. rewrite H. by apply same_vpn in E as [-> _].
Qed.

(** The loop copies the first [j] bytes, and stops there when the next one is
    not on a page of the user. *)
Lemma copyout_loop_spec N fuel pg va buf len j L k l :
  kmem_inv k l -> as_ok (kmemory k) pg l -> (N < fuel)%nat -> 0 <= j <= len -> 0 <= va -> va + len <= KERNBASE ->
  va mod PGSIZE + len <= PGSIZE * Z.of_nat N -> 0 <= buf -> buf + len < 2 ^ 32 ->
  (forall i, 0 <= i < j -> user_page (kmemory k) pg (va + i)) ->
  (j < len -> other_page (kmemory k) pg (va + j)) -> apart (kmemory k) pg va buf j ->
  exists k', copyout_loop fuel pg va buf len L k = Ok (if j <? len then -1 else 0) L k' /\
    kmem_inv k' l /\ as_ok (kmemory k') pg l /\
    (forall x, pte_at (kmemory k') pg x = pte_at (kmemory k) pg x) /\
    copied pg va buf j (kmemory k) (kmemory k').
Proof.
  revert fuel va buf len j k.
  induction N as [|N IH]; intros fuel va buf len j k Hk Has Hf Hj H0 H1 HN Hb0 Hb1 Hu Hbad Hap;
    (destruct fuel as [|f]; [lia|]); cbn [copyout_loop]; destruct (Z.ltb_spec 0 len) as [Hpos|Hz];
    try (assert (j = len) as -> by lia; rewrite (proj2 (Z.ltb_ge len len)) by lia;
      exists k; split; [done|]; split_and!; [done..|split; [lia|done]]); [unfold PGSIZE in *; dlia|].
  assert (Hvr : 0 <= va < KERNBASE) by lia.
  destruct (PGROUNDDOWN_bounds va) as (Hd1 & Hd2 & Hd3 & Hd4); [unfold is_u32, KERNBASE in *; lia|].
  destruct (page_kind (kmemory k) pg (PGROUNDDOWN va) va ltac:(lia) Hvr Hd4) as [Ku Ko].
  destruct (decide (j = 0)) as [->|Hj0].
  { specialize (Hbad Hpos). rewrite Z.add_0_r in Hbad. apply Ko in Hbad.
    rewrite (bind_Ok _ _ _ _ _ _ _ (uva2ka_refuses pg _ L k l Has Hbad)), (proj2 (Z.ltb_lt 0 len) Hpos).
    exists k. split; [done|]. split_and!; [done..|split; [lia|done]]. }
  pose proof (Hu 0 ltac:(lia)) as Hu0. rewrite Z.add_0_r in Hu0.
  rewrite (bind_Ok _ _ _ _ _ _ _ (uva2ka_ok pg _ L k l Has (proj2 Ku Hu0))).
  destruct (as_frame _ _ _ Has _ (page_of_upage va Hvr) (proj1 (proj2 Ku Hu0))) as (Pv & _).
  rewrite (proj2 (Z.eqb_neq _ _) (page_ok_nonzero _ _ Pv)). kstep.
  set (n := Z.min (PGSIZE - (va - PGROUNDDOWN va)) len).
  assert (Ho : va - PGROUNDDOWN va = va mod PGSIZE) by (unfold PGSIZE in *; dlia).
  assert (Hn : 0 < n <= len /\ va mod PGSIZE + n <= PGSIZE) by (unfold n; rewrite Ho; unfold PGSIZE in *; dlia).
  assert (Hnj : n <= j).
  { destruct (Z.le_gt_cases n j) as [|Hlt]; [done|]. destruct (Hbad ltac:(lia)) as [_ []].
    apply (page_kind (kmemory k) pg va (va + j)); [lia|lia|unfold PGSIZE in *; dlia|done]. }
  destruct (copy_page pg va buf n k l) as (Hk1 & Has1 & He1 & Ht1 & C1); try done; try lia; [apply Hu0|].
  rewrite (u32_small (PGROUNDDOWN va + PGSIZE)) by (unfold KERNBASE, PGSIZE in *; lia).
  set (k1 := k <| kmemory := _ |>) in *.
  assert (Hva' : PGROUNDDOWN va + PGSIZE = va + n \/ len - n = 0) by (unfold n; lia).
  destruct (IH f (PGROUNDDOWN va + PGSIZE) (buf + n) (len - n) (j - n) k1) as (k' & R & Hk' & Has' & He' & C');
    try done; try lia.
  { destruct Hva'; unfold KERNBASE, PGSIZE in *; dlia. }
  { destruct Hva'; unfold PGSIZE in *; dlia. }
  { intros i Hi. replace (PGROUNDDOWN va + PGSIZE + i) with (va + (n + i)) by lia.
    unfold user_page, mapped. rewrite He1. apply Hu. lia. }
  { intros Hlt. replace (PGROUNDDOWN va + PGSIZE + (j - n)) with (va + j) by lia.
    unfold other_page, user_page, mapped. rewrite He1, (st_has _ _ _ Ht1) by apply PDX_range. apply Hbad. lia. }
  { intros i i' Hi Hi'. replace (PGROUNDDOWN va + PGSIZE + i) with (va + (n + i)) by lia.
    rewrite (kva_entries _ _ _ _ He1), <- Z.add_assoc. apply Hap; lia. }
  exists k'. split.
  { etransitivity; [exact R|]. f_equal. destruct (Z.ltb_spec (j - n) (len - n)), (Z.ltb_spec j len); done || lia. }
  split_and!; [done|done|intros x; by rewrite He', He1|].
  apply (copied_app pg va buf n j l (kmemory k) (kmemory k1));
    [done|done|lia|lia|intros i Hi; by apply Hu|done|done|done|].
  destruct Hva' as [<-|Hz]; [done|]. assert (j - n = 0) as Hz' by lia. destruct C' as [_ R'].
  rewrite Hz' in *. split; [lia|]. intros y _. apply R'. lia.
Qed.


End spec.

(** *** Concrete runs

    An address space with one page mapped at 0, and one free page. *)

Definition demo_end : Z := 0x80200000.
Definition demo_dir : Z := 0x80300000.
Definition demo_tab : Z := 0x80301000.
Definition demo_page : Z := 0x80302000.
Definition demo_free : Z := 0x80303000.
Definition demo_mem : mem :=
  store32 (store32 (fun _ => 0) demo_dir (V2P demo_tab + 7)) demo_tab (V2P demo_page + 7).
Definition demo_kmem : kmem := mkKmem demo_mem 1 demo_free.

Lemma demo_page_ok v : v ∈ [demo_dir; demo_tab; demo_page; demo_free] -> page_ok demo_end v.
Proof.
  rewrite !elem_of_cons, elem_of_nil.
  intros [->|[->|[->|[->|[]]]]]; unfold page_ok, is_u32; vm_compute; intuition discriminate.
Qed.

Lemma demo_zero a :
  (a + 4 <= demo_dir \/ demo_dir + 4 <= a) -> (a + 4 <= demo_tab \/ demo_tab + 4 <= a) -> load32 demo_mem a = 0.
Proof. intros. unfold demo_mem. by rewrite !load32_store32_ne by tauto. Qed.

Lemma demo_has i : 0 <= i < NPDENTRIES -> has demo_mem demo_dir i = (i =? 0).
Proof.
  intros Hi. unfold has, pde_of. destruct (Z.eqb_spec i 0) as [->|Hne]; [by vm_compute|].
  rewrite demo_zero; [done|unfold demo_dir, demo_tab, NPDENTRIES in *; lia..].
Qed.

Lemma demo_pte va : is_u32 va ->
  pte_at demo_mem demo_dir va = if va / PGSIZE =? 0 then V2P demo_page + 7 else 0.
Proof.
  intros Hu. unfold pte_at. rewrite demo_has by apply PDX_range.
  assert (E : PDX va = 0 /\ PTX va = 0 <-> va / PGSIZE = 0).
  { apply (same_vpn 0 va); [unfold is_u32; lia|done]. }
  destruct (Z.eqb_spec (va / PGSIZE) 0) as [H|H].
  - apply E in H as [H1 H2]. rewrite H1. cbn [Z.eqb]. unfold slot. rewrite H1, H2. by vm_compute.
  - destruct (Z.eqb_spec (PDX va) 0) as [H1|H1]; [|done]. unfold slot. rewrite H1.
    change (tab demo_mem demo_dir 0) with demo_tab. pose proof (PTX_range va).
    assert (PTX va <> 0) by tauto. apply demo_zero; unfold demo_dir, demo_tab, NPTENTRIES in *; lia.
Qed.

Lemma demo_kmem_inv : kmem_inv demo_end demo_kmem [demo_free].
Proof.
  split; [by vm_compute|apply NoDup_singleton|]. constructor; [|constructor]. apply demo_page_ok. set_solver.
Qed.

Lemma demo_pt_ok : pt_ok demo_end demo_mem demo_dir [demo_free].
Proof.
  split; [apply demo_page_ok; set_solver|set_solver| |].
  - intros i Hi. rewrite demo_has by done. intros ->%Z.eqb_eq. change (tab demo_mem demo_dir 0) with demo_tab.
    split_and!; [apply demo_page_ok; set_solver|set_solver|done].
  - intros i j Hi Hj. rewrite !demo_has by done. intros ->%Z.eqb_eq ->%Z.eqb_eq. done.
Qed.

Lemma demo_mapped va : upage va -> mapped demo_mem demo_dir va = true -> va = 0.
Proof.
  intros Hu. unfold mapped. rewrite demo_pte by (by apply upage_u32).
  destruct (Z.eqb_spec (va / PGSIZE) 0) as [H|H]; [|done]. intros _. unfold upage, PGSIZE in *. dlia.
Qed.

Lemma demo_as_ok : as_ok demo_end demo_mem demo_dir [demo_free].
Proof.
  split; [apply demo_pt_ok| |].
  - intros va Hu ->%demo_mapped; [|done]. change (frame demo_mem demo_dir 0) with demo_page.
    split_and!; [apply demo_page_ok; set_solver|set_solver|].
    intros [H|(i & Hi & Hh & H)]; [done|]. rewrite demo_has in Hh by done. apply Z.eqb_eq in Hh as ->. done.
  - by intros x y Hx Hy ->%demo_mapped ->%demo_mapped.
Qed.

Lemma demo_above : KERNBASE < demo_end.
Proof. unfold KERNBASE, demo_end. lia. Qed.

Lemma mappages_maps_witness :
  exists k' l' r, mappages 8 demo_dir 0x2abc 0x1000 0x5000 PTE_W [] demo_kmem = Ok r [] k' /\
    pt_ok demo_end (kmemory k') demo_dir l' /\ kmem_inv demo_end k' l' /\
    (forall x, is_u32 x -> ~ (0x2000 <= x < 0x4000) ->
      pte_at (kmemory k') demo_dir x = pte_at demo_mem demo_dir x) /\
    (r = 0 /\ (forall x, 0x2000 <= x < 0x4000 ->
       pte_at (kmemory k') demo_dir x = Z.lor (0x5000 + (PGROUNDDOWN x - 0x2000)) 3) \/
     r = -1 /\ l' = []).
Proof.
  apply (mappages_maps demo_end 8 demo_dir 0x2abc 0x1000 0x5000 PTE_W [] demo_kmem [demo_free]);
    [apply demo_pt_ok|apply demo_kmem_inv|set_solver|by vm_compute..|].
  intros x Hx. assert (0x2000 <= x < 0x3abc) by exact Hx. cbn [kmemory demo_kmem].
  rewrite demo_pte by (unfold is_u32; lia).
  destruct (Z.eqb_spec (x / PGSIZE) 0); [unfold PGSIZE in *; dlia|done].
Defined.

Lemma allocuvm_grows_witness :
  exists k' l' r, allocuvm demo_end 8 demo_dir 0x1000 0x1800 [] demo_kmem = Ok r [] k' /\
    kmem_inv demo_end k' l' /\ as_ok demo_end (kmemory k') demo_dir l' /\
    (forall va, is_u32 va -> ~ below 0x1000 0x1800 va ->
      pte_at (kmemory k') demo_dir va = pte_at demo_mem demo_dir va) /\
    (r = 0x1800 /\ (forall va, upage va -> 0x1000 <= va < 0x1800 ->
       mapped (kmemory k') demo_dir va = true /\
       PTE_FLAGS (pte_at (kmemory k') demo_dir va) = 7 /\
       forall x, frame (kmemory k') demo_dir va <= x < frame (kmemory k') demo_dir va + PGSIZE -> kmemory k' x = 0) \/
     r = 0 /\ (forall va, upage va -> 0x1000 <= va < 0x1800 -> mapped (kmemory k') demo_dir va = false)).
Proof.
  apply (allocuvm_grows demo_end demo_above 8 demo_dir 0x1000 0x1800 [] demo_kmem [demo_free]);
    [apply demo_kmem_inv|apply demo_as_ok|set_solver|by vm_compute..|].
  intros va Hu Hva. assert (0x1000 <= va < 0x1800) by exact Hva.
  destruct (mapped (kmemory demo_kmem) demo_dir va) eqn:E; [|done]. apply demo_mapped in E; [lia|done].
Defined.

Lemma deallocuvm_frees_witness :
  exists k' l', deallocuvm demo_end 8 demo_dir 0x1000 0 [] demo_kmem = Ok 0 [] k' /\
    kmem_inv demo_end k' l' /\ as_ok demo_end (kmemory k') demo_dir l' /\
    (forall va, upage va -> 0 <= va < 0x1000 -> mapped (kmemory k') demo_dir va = false) /\
    (forall va, upage va -> ~ (0 <= va < 0x1000) ->
      pte_at (kmemory k') demo_dir va = pte_at demo_mem demo_dir va) /\
    (forall v, v ∈ l' <-> v ∈ [demo_free] \/ exists va, upage va /\ 0 <= va < 0x1000 /\
      mapped demo_mem demo_dir va = true /\ v = frame demo_mem demo_dir va).
Proof.
  apply (deallocuvm_frees demo_end demo_above 8 demo_dir 0x1000 0 [] demo_kmem [demo_free]);
    [apply demo_kmem_inv|apply demo_as_ok|set_solver|by vm_compute..].
Defined.

Lemma uva2ka_no_table_witness :
  uva2ka demo_dir 0x400000 [] demo_kmem = Fault "null pointer" /\
  forall fuel p len, 0 < len -> PGROUNDDOWN 0x400000 = 0x400000 ->
    copyout (S fuel) demo_dir 0x400000 p len [] demo_kmem = Fault "null pointer".
Proof. apply (uva2ka_no_table demo_dir 0x400000 [] demo_kmem). by vm_compute. Defined.


End VmSpec.
