(* ===== verification/CopySpec.v ===== *)
(** What [setupkvm] and [copyuvm] of vm.c promise: a new address space is built
    out of free pages only, or all of them go back. *)

From stdpp Require Import base numbers list sets strings.
From Stdlib Require Import ZArith Lia.
From S2P Require Import Prelude Mem CString Mmu Kalloc Vm VmSpec.
Import CString Mmu Kalloc Vm VmSpec.

Module CopySpec.

#[local] Opaque memmove memset.

Section copy.
Context (kend data : Z) (Hkend : KERNBASE < kend).

(** [x] is in one of the pages [l]. *)
Definition in_pages (l : list Z) (x : Z) : Prop := exists v, v ∈ l /\ v <= x < v + PGSIZE.

(** [m'] is [m] outside the pages [l]. *)
Definition only_pages (l : list Z) (m m' : mem) : Prop := forall x, ~ in_pages l x -> m' x = m x.

Lemma only_pages_refl l m : only_pages l m m.
Proof. by intros x _. Qed.
Lemma only_pages_trans l m1 m2 m3 : only_pages l m1 m2 -> only_pages l m2 m3 -> only_pages l m1 m3.
Proof. intros H1 H2 x Hx. by rewrite H2, H1. Qed.
Lemma only_pages_in l m m' v : v ∈ l -> same_outside v (v + PGSIZE) m m' -> only_pages l m m'.
Proof.
  intros Hv Hs x Hx. apply Hs. destruct (decide (v <= x < v + PGSIZE)) as [Hin|Hout]; [|lia].
  destruct Hx. by exists v.
Qed.

Lemma page_apart v w x : page_ok kend v -> page_ok kend w -> v <> w -> v <= x < v + PGSIZE -> ~ (w <= x < w + PGSIZE).
Proof. intros Pv Pw Hne Hx. destruct (pages_disjoint kend v w Pv Pw Hne); lia. Qed.

Lemma only_pages_same l m m' v : only_pages l m m' -> Forall (page_ok kend) l -> page_ok kend v -> v ∉ l ->
  same_on v (v + PGSIZE) m m'.
Proof.
  intros Ho Hl Pv Hv x Hx. apply Ho. intros (w & Hw & Hxw). eapply (page_apart v w); try done.
  - by apply (proj1 (Forall_forall _ _) Hl).
  - intros ->. done.
Qed.

(** The address space of another directory does not change when only free pages do. *)
Lemma only_pages_entries l m m' pg : only_pages l m m' -> Forall (page_ok kend) l -> pt_ok kend m pg l ->
  same_tables m m' pg /\ forall va, pte_at m' pg va = pte_at m pg va.
Proof.
  intros Ho Hl Hpt. apply frame_entries. intros v Hv. destruct (own_page kend m pg l v Hpt Hv) as [Pv Hn].
  by apply (only_pages_same l).
Qed.

(** *** Building a copy *)

(** The flags and the bytes that page [va] gets. *)
Context (flags : Z -> Z) (bytes : Z -> Z -> Z).
(** The free pages and the memory at the start. *)
Context (l0 : list Z) (m0 : mem) (Hl0 : Forall (page_ok kend) l0).

(** The entries of a directory that the kernel's part of an address space uses. *)
Definition kern_tab (j : Z) : Prop := 512 <= j < 568 \/ 1016 <= j < 1024.

(** In memory [m] the address space [d] has its user pages below [i]; it is made
    of pages of [l0], and the pages [l] are the rest of them. *)
Record building (d : Z) (m : mem) (l : list Z) (i : Z) : Prop := {
  bd_as : as_ok kend m d l;
  bd_sub v : v ∈ l -> v ∈ l0;
  bd_own v : own m d v -> v ∈ l0;
  bd_used v : v ∈ l0 -> v ∈ l \/ own m d v \/ exists va, upage va /\ mapped m d va = true /\ v = frame m d va;
  bd_map va : upage va -> mapped m d va = (va <? i);
  bd_new va : upage va -> va < i -> frame m d va ∈ l0 /\ PTE_FLAGS (pte_at m d va) = flags va /\
    forall o, 0 <= o < PGSIZE -> m (frame m d va + o) = bytes va o;
  bd_out : only_pages l0 m0 m;
  bd_tabs j : 0 <= j < NPDENTRIES -> has m d j = true -> kern_tab j \/ 2 ^ 22 * j <= i }.

Lemma building_dir d m l i : building d m l i -> page_ok kend d /\ d <> 0 /\ d ∈ l0.
Proof.
  intros H. pose proof (pt_dir _ _ _ _ (as_pt _ _ _ _ (bd_as _ _ _ _ H))) as P.
  split; [done|]. split; [by apply (page_ok_nonzero kend)|]. apply (bd_own _ _ _ _ H), own_dir.
Qed.

(** A step that changes tables changes no other page. *)
Lemma pt_upd_page d k l k' l' A w : pt_upd kend d k l k' l' A -> page_ok kend w -> ~ own (kmemory k') d w ->
  same_on w (w + PGSIZE) (kmemory k) (kmemory k').
Proof.
  intros U Pw Hw x Hx. apply (pu_frame _ _ _ _ _ _ _ U). intros u Hu. apply (page_apart w u); try done.
  - eapply own_page; [apply U|done].
  - by intros ->.
Qed.

Lemma pt_ok_more d m h l : pt_ok kend m d l -> (forall v, own m d v -> v ∉ h) -> pt_ok kend m d (h ++ l).
Proof.
  intros [P1 P2 P3 P4] Hh. split; [done| | |done].
  - pose proof (Hh d (own_dir _ _)). set_solver.
  - intros i Hi Hp. destruct (P3 i Hi Hp) as (? & ? & ?). pose proof (Hh _ (own_tab m d i Hi Hp)). split_and!; [done|set_solver|done].
Qed.

(** New tables, with [h] the pages that were taken off the list for something else. *)
Lemma building_tables d k h l k' l' i A : building d (kmemory k) (h ++ l) i -> NoDup (h ++ l) -> pt_upd kend d k l k' l' A ->
  (forall va, is_u32 va -> A va -> kern_tab (PDX va) \/ 2 ^ 22 * PDX va <= i) ->
  (forall va, upage va -> pte_at (kmemory k') d va = pte_at (kmemory k) d va) -> building d (kmemory k') (h ++ l') i.
Proof.
  intros [[Bp Bf Bi] Bs Bo Bu Bm Bn Bx Bt] Hnd U HA He. destruct (pu_taken _ _ _ _ _ _ _ U) as [t Ht].
  apply NoDup_app in Hnd as (_ & Hhl & _).
  assert (Hl : forall v, v ∈ l' -> v ∈ l) by (intros v; rewrite Ht; set_solver).
  assert (Hown : forall v, own (kmemory k') d v -> v ∉ h /\ v ∈ l0).
  { intros v Hv. destruct (pu_own _ _ _ _ _ _ _ U v Hv) as [Ho|[Hin _]].
    - split; [|by apply Bo]. destruct (own_page kend _ _ _ _ Bp Ho) as [_ Hn]. set_solver.
    - split; [intros Hh; by apply (Hhl v)|]. apply Bs, elem_of_app. by right. }
  assert (Hfr : forall va, upage va -> mapped (kmemory k) d va = true -> page_ok kend (frame (kmemory k) d va) /\
    (frame (kmemory k) d va ∉ h ++ l) /\ ~ own (kmemory k') d (frame (kmemory k) d va)).
  { intros va Hu Hm. destruct (Bf va Hu Hm) as (P & N & O). split; [done|]. split; [done|]. intros Ho.
    destruct (pu_own _ _ _ _ _ _ _ U _ Ho) as [|[Hin _]]; [done|]. set_solver. }
  split.
  - split; [apply pt_ok_more; [apply U|by apply Hown]| |]; unfold mapped, frame in *.
    + intros va Hu. rewrite He by done. intros Hm. destruct (Hfr va Hu Hm) as (P & N & O). split_and!; [done|set_solver|done].
    + intros va va' Hu Hu'. rewrite !He by done. by apply Bi.
  - intros v [Hv|Hv]%elem_of_app; apply Bs; set_solver.
  - intros v Hv. by apply Hown.
  - intros v Hv. destruct (Bu v Hv) as [[Hh|Hin]%elem_of_app|[Ho|(va & Hu & Hm & ->)]].
    + left. set_solver.
    + destruct (pu_used _ _ _ _ _ _ _ U v Hin) as [?|?]; [left; set_solver|by right; left].
    + right. left. by apply (pu_grow _ _ _ _ _ _ _ U).
    + right. right. exists va. unfold mapped, frame in *. by rewrite He.
  - intros va Hu. unfold mapped. rewrite He by done. by apply Bm.
  - intros va Hu Hi. pose proof (Bm va Hu) as Hm. rewrite (proj2 (Z.ltb_lt _ _) Hi) in Hm.
    destruct (Hfr va Hu Hm) as (P & _ & O). destruct (Bn va Hu Hi) as (N1 & N2 & N3).
    unfold frame in *. rewrite He by done. split_and!; [done|done|]. intros o Ho.
    rewrite (pt_upd_page _ _ _ _ _ _ _ U P O) by lia. by apply N3.
  - eapply only_pages_trans; [exact Bx|]. intros x Hx. apply (pu_frame _ _ _ _ _ _ _ U). intros v Hv Hxv.
    apply Hx. exists v. split; [by apply Hown|done].
  - intros j Hj Hh. destruct (pu_has _ _ _ _ _ _ _ U j Hj Hh) as [?|(va & Hva & HAv & <-)]; auto.
Qed.

(** How many pages are in use: a directory, the tables of the kernel's part, the tables
    and the pages up to [i]. *)
Lemma building_count d m l i : building d m l i -> NoDup l0 -> 0 <= i ->
  Z.of_nat (length l0) <= Z.of_nat (length l) + 67 + i / PGSIZE + i / 2 ^ 22.
Proof.
  intros B Hnd Hi. change (2 ^ 22) with 4194304. set (all := l ++ d :: map (fun n => tab m d (Z.of_nat n)) (seq 512 56 ++ seq 1016 8) ++
    map (fun n => tab m d (Z.of_nat n)) (seq 0 (Z.to_nat (i / 4194304 + 1))) ++
    map (fun n => frame m d (PGSIZE * Z.of_nat n)) (seq 0 (Z.to_nat (i / PGSIZE + 1)))).
  assert (Hq : 0 <= i / PGSIZE /\ 0 <= i / 4194304) by (split; apply Z.div_pos; done || lia).
  assert (Hsub : forall v, v ∈ l0 -> v ∈ all).
  { intros v Hv. unfold all. rewrite elem_of_app, elem_of_cons, !elem_of_app, !list_elem_of_fmap.
    destruct (bd_used _ _ _ _ B v Hv) as [?|[[->|(n & Hn & Hh & ->)]|(va & Hu & Hm & ->)]]; [by left|by right; left|..].
    - right. right. unfold NPDENTRIES in Hn. destruct (bd_tabs _ _ _ _ B n Hn Hh) as [Hk|Hk]; [left|right; left];
        exists (Z.to_nat n); (rewrite Z2Nat.id by lia; split; [done|]); rewrite ?elem_of_app, !elem_of_seq; unfold kern_tab in *.
      + lia.
      + change (2 ^ 22) with 4194304 in Hk. dlia.
    - right. right. right. right. rewrite (bd_map _ _ _ _ B) in Hm by done. apply Z.ltb_lt in Hm. destruct Hu as [Hva Ha].
      exists (Z.to_nat (va / PGSIZE)). unfold PGSIZE in *. rewrite Z2Nat.id by dlia. split; [f_equal; dlia|]. apply elem_of_seq. dlia. }
  assert (Hlen : (length l0 <= length all)%nat).
  { apply NoDup_incl_length; [by apply NoDup_ListNoDup|]. intros v Hv. apply list_elem_of_In, Hsub, list_elem_of_In, Hv. }
  unfold all in Hlen. rewrite length_app in Hlen. cbn [length] in Hlen.
  rewrite !length_app, !length_map, length_app, !length_seq in Hlen. lia.
Qed.

(** Giving all of it back. *)
Lemma building_undo fuel d k l i L : building d (kmemory k) l i -> kmem_inv kend k l -> Lkmem ∉ L ->
  KERNBASE / PGSIZE + 2 <= Z.of_nat fuel ->
  exists k' l', freevm kend fuel d L k = Ok tt L k' /\ kmem_inv kend k' l' /\ (forall v, v ∈ l' <-> v ∈ l0) /\
    only_pages l0 m0 (kmemory k').
Proof.
  intros B Hk HL Hf. pose proof (building_dir _ _ _ _ B) as (_ & Hd & _). pose proof B as [Ba Bs Bo Bu Bm Bn Bx _].
  destruct (freevm_spec kend Hkend fuel d L k l Hk Ba HL Hd Hf) as (k' & l' & R & Hk' & Hl' & Hx').
  assert (Hset : forall v, v ∈ l' <-> v ∈ l0).
  { intros v. rewrite Hl'. split.
    - intros [?|[?|(va & Hu & Hm & ->)]]; [by apply Bs|by apply Bo|]. apply Bn; [done|].
      rewrite (Bm va Hu) in Hm. by apply Z.ltb_lt.
    - intros Hv. destruct (Bu v Hv) as [?|[?|?]]; auto. }
  exists k', l'. split_and!; try done. eapply only_pages_trans; [exact Bx|]. intros x Hx. apply Hx'. intros v Hv Hxv.
  apply Hx. exists v. split; [by apply Hset|done].
Qed.

(** *** The kernel's part *)

Lemma zero_dir v l : l0 = v :: l -> NoDup l0 -> building v (memset m0 v 0 PGSIZE) l 0 /\
  forall va, pte_at (memset m0 v 0 PGSIZE) v va = 0.
Proof.
  intros E Hnd. set (m := memset m0 v 0 PGSIZE). rewrite E in Hnd. apply NoDup_cons in Hnd as [Hn Hnd].
  assert (Pv : page_ok kend v) by (apply (proj1 (Forall_forall _ _) Hl0); rewrite E; set_solver).
  assert (Hno : forall i, 0 <= i < NPDENTRIES -> has m v i = false).
  { intros i Hi. unfold has, pde_of, m. rewrite memset_zero_load32 by (unfold PGSIZE, NPDENTRIES in *; lia). done. }
  assert (Hpte : forall va, pte_at m v va = 0) by (intros va; unfold pte_at; by rewrite Hno by apply PDX_range).
  assert (Hmap : forall va, mapped m v va = false) by (intros va; unfold mapped; by rewrite Hpte).
  assert (Hown : forall w, own m v w <-> w = v).
  { intros w. split; [|intros ->; apply own_dir]. intros [->|(i & Hi & Hh & _)]; [done|]. by rewrite Hno in Hh. }
  split; [|done]. split.
  - split; [split; try done; intros i; [intros Hi Hh; by rewrite Hno in Hh|intros j Hi _ Hh; by rewrite Hno in Hh]|..];
      intros va; [intros _ Hm; by rewrite Hmap in Hm|intros va' _ _ Hm; by rewrite Hmap in Hm].
  - intros w Hw. rewrite E. set_solver.
  - intros w ->%Hown. rewrite E. set_solver.
  - intros w. rewrite E. intros [-> | Hw]%elem_of_cons; [right; left; by apply Hown|by left].
  - intros va [Hu _]. rewrite Hmap. symmetry. apply Z.ltb_ge. lia.
  - intros va [Hu _] Hi. lia.
  - apply (only_pages_in l0 _ _ v); [rewrite E; set_solver|]. intros x Hx. unfold m. rewrite memset_fill.
    destruct (Z.leb_spec v x), (Z.ltb_spec x (v + PGSIZE)); (done || lia).
  - intros j Hj Hh. by rewrite Hno in Hh.
Qed.

(** The pages of a row of [kmap], and rows that lie above [hi] and one another. *)
Definition row_pages (ps pe : Z) (n : nat) : Prop := u32 (pe - ps) = PGSIZE * Z.of_nat (S n).
Definition kern_row (virt size : Z) : Prop := KERNBASE <= virt /\ virt + size <= KERNBASE + PHYSTOP \/ DEVSPACE <= virt.
Fixpoint rows (fuel : nat) (hi : Z) (ks : list (Z * Z * Z * Z)) : Prop :=
  match ks with
  | [] => True
  | (virt, ps, pe, perm) :: r =>
      hi <= virt /\ kern_row virt (u32 (pe - ps)) /\ virt mod PGSIZE = 0 /\ ps mod PGSIZE = 0 /\ 0 <= ps /\ 0 <= perm < PGSIZE /\
      exists n, row_pages ps pe n /\ (n < fuel)%nat /\ virt + PGSIZE * Z.of_nat (S n) <= 2 ^ 32 /\
        ps + PGSIZE * Z.of_nat (S n) <= 2 ^ 32 /\ rows fuel (virt + PGSIZE * Z.of_nat (S n)) r
  end.

(** Directory [d] has the row. *)
Definition row_mapped (m : mem) (d : Z) (row : Z * Z * Z * Z) : Prop :=
  let '(virt, ps, pe, perm) := row in
  forall n i, row_pages ps pe n -> 0 <= i <= Z.of_nat n -> pte_at m d (virt + PGSIZE * i) = new_entry ps perm i.

Lemma kern_row_tab virt size va : kern_row virt size -> is_u32 va -> virt <= va < virt + size -> kern_tab (PDX va).
Proof.
  intros H Hu Hva. rewrite PDX_eq by done. unfold kern_row, kern_tab, is_u32, KERNBASE, PHYSTOP, DEVSPACE in *.
  change (2 ^ 22) with 4194304. dlia.
Qed.

Lemma map_kernel_spec fuel d L ks (Hnd0 : NoDup l0) : forall k l hi,
  building d (kmemory k) l 0 -> kmem_inv kend k l -> Lkmem ∉ L -> KERNBASE / PGSIZE + 2 <= Z.of_nat fuel ->
  (forall va, is_u32 va -> hi <= va -> pte_at (kmemory k) d va = 0) -> KERNBASE <= hi -> rows fuel hi ks ->
  exists k' l' r, map_kernel kend fuel d ks L k = Ok r L k' /\ kmem_inv kend k' l' /\
    (r = d /\ building d (kmemory k') l' 0 /\ (exists t, l = t ++ l') /\
       (forall va, is_u32 va -> va < hi -> pte_at (kmemory k') d va = pte_at (kmemory k) d va) /\
       (forall row, row ∈ ks -> row_mapped (kmemory k') d row) \/
     r = 0 /\ (forall v, v ∈ l' <-> v ∈ l0) /\ only_pages l0 m0 (kmemory k') /\ Z.of_nat (length l0) <= 67).
Proof.
  induction ks as [|[[[virt ps] pe] perm] ks IH]; intros k l hi B Hk HL Hf Hfree Hhi Hrows; cbn [map_kernel].
  { exists k, l, d. split; [done|]. split; [done|]. left. split_and!; try done; [by exists []|]. intros row []%elem_of_nil. }
  destruct Hrows as (H1 & Hkr & H2 & H3 & H4 & H5 & n & Hn & Hnf & H6 & H7 & Hrows). unfold row_pages in Hn. rewrite Hn in *.
  set (top := virt + PGSIZE * Z.of_nat (S n)) in *.
  assert (H0 : 0 <= virt) by (unfold KERNBASE in *; lia). rewrite mappages_aligned by done.
  destruct (map_loop_spec kend n fuel d virt ps perm L k l) as (k1 & l1 & r & j & R & U & Hnew & Hold & Hr);
    try done; [apply B| |].
  { intros i Hi. rewrite Hfree; [done|unfold is_u32, top, PGSIZE in *; lia|unfold PGSIZE in *; lia]. }
  erewrite bind_Ok by exact R.
  assert (B1 : building d (kmemory k1) l1 0).
  { apply (building_tables d k [] l k1 l1 0 _ B (ki_nodup _ _ _ Hk) U).
    - intros va Hu Hva. left. by apply (kern_row_tab virt (PGSIZE * Z.of_nat (S n))).
    - intros va Hu. apply (pu_keep _ _ _ _ _ _ _ U); [by apply upage_u32|]. destruct Hu. lia. }
  destruct Hr as [[-> ->]|(-> & -> & _)]; cbn [Z.ltb Z.compare].
  - destruct (IH k1 l1 top) as (k2 & l2 & r2 & R2 & Hk2 & Hres); try done; [apply U| |unfold top, PGSIZE in *; lia|].
    { intros va Hu Hva. rewrite (pu_keep _ _ _ _ _ _ _ U) by (done || (unfold top in *; lia)). apply Hfree; [done|unfold top, PGSIZE in *; lia]. }
    exists k2, l2, r2. split; [done|]. split; [done|]. destruct Hres as [(-> & B2 & (t2 & T2) & K2 & M2)|?]; [left|by right].
    destruct (pu_taken _ _ _ _ _ _ _ U) as [t1 T1].
    split; [done|]. split; [done|]. split; [exists (t1 ++ t2); by rewrite T1, T2, app_assoc|]. split.
    + intros va Hu Hva. rewrite K2 by (done || (unfold top, PGSIZE in *; lia)). apply (pu_keep _ _ _ _ _ _ _ U); [done|lia].
    + intros row [-> | Hrow]%elem_of_cons; [|by apply M2]. intros n' i Hn' Hi.
      assert (n' = n) as -> by (unfold row_pages, PGSIZE in *; lia).
      rewrite K2 by (unfold is_u32, top, PGSIZE in *; lia). apply Hnew. lia.
  - destruct (building_undo fuel d k1 [] 0 L B1) as (k2 & l2 & R2 & Hk2 & Hs & Hx); try done; [apply U|].
    exists k2, l2, 0. erewrite bind_Ok by exact R2. split; [done|]. split; [done|]. right. split_and!; try done.
    pose proof (building_count _ _ _ _ B1 Hnd0 ltac:(done)) as Hc. exact Hc.
Qed.

(** The linker puts [data] at the start of a page above the kernel's text. *)
Definition data_ok : Prop := data mod PGSIZE = 0 /\ KERNLINK < data < KERNBASE + PHYSTOP.

Lemma kmap_rows fuel : data_ok -> 65536 <= Z.of_nat fuel -> rows fuel KERNBASE (kmap data).
Proof.
  unfold data_ok, kmap, V2P, KERNLINK, KERNBASE, EXTMEM, DEVSPACE, PHYSTOP, PTE_W, PGSIZE. intros [Ha Hd] Hf.
  rewrite (u32_small (data - _)) by lia. change (u32 (0x80000000 + 0x100000 - 0x80000000)) with 0x100000.
  assert (Hrow : forall virt ps pe perm hi r n, hi <= virt -> 0x80000000 <= virt /\ virt + 4096 * Z.of_nat (S n) <= 0x8E000000 \/ 0xFE000000 <= virt -> virt mod 4096 = 0 -> ps mod 4096 = 0 -> 0 <= ps -> 0 <= perm < 4096 ->
    u32 (pe - ps) = 4096 * Z.of_nat (S n) -> (n < fuel)%nat -> virt + 4096 * Z.of_nat (S n) <= 2 ^ 32 ->
    ps + 4096 * Z.of_nat (S n) <= 2 ^ 32 -> rows fuel (virt + 4096 * Z.of_nat (S n)) r -> rows fuel hi ((virt, ps, pe, perm) :: r)).
  { intros virt ps pe perm hi r n H1 Hk H2 H3 H4 H5 H6 H7 H8 H9 H10. rewrite <- H6 in Hk. exact (conj H1 (conj Hk (conj H2 (conj H3 (conj H4 (conj H5 (ex_intro _ n (conj H6 (conj H7 (conj H8 (conj H9 H10))))))))))). }
  apply (Hrow _ _ _ _ _ _ 255%nat); try done; try lia.
  apply (Hrow _ _ _ _ _ _ (Z.to_nat ((data - 0x80100000) / 4096 - 1))); try done; try lia; try dlia.
  { rewrite u32_small by lia. dlia. }
  apply (Hrow _ _ _ _ _ _ (Z.to_nat ((0x8E000000 - data) / 4096 - 1))); try done; try lia; try dlia.
  { rewrite u32_small by lia. dlia. }
  apply (Hrow _ _ _ _ _ _ (Z.to_nat 8191)); try done; try lia; dlia.
Qed.

Lemma setupkvm_spec fuel L k : kmemory k = m0 -> kmem_inv kend k l0 -> Lkmem ∉ L -> data_ok ->
  KERNBASE / PGSIZE + 2 <= Z.of_nat fuel ->
  exists k' l' d, setupkvm kend data fuel L k = Ok d L k' /\ kmem_inv kend k' l' /\
    (d <> 0 /\ building d (kmemory k') l' 0 /\ (exists t, l0 = t ++ l') /\
       (forall row, row ∈ kmap data -> row_mapped (kmemory k') d row) \/
     d = 0 /\ (forall v, v ∈ l' <-> v ∈ l0) /\ only_pages l0 m0 (kmemory k') /\ Z.of_nat (length l0) <= 67).
Proof.
  intros Em Hk HL Hdata Hf. unfold setupkvm. pose proof (kalloc_spec kend l0 L k Hk HL) as Ha. pose proof (ki_nodup _ _ _ Hk) as Hnd.
  assert (Hcase : l0 = [] \/ exists v l, l0 = v :: l) by (clear; destruct l0; eauto).
  destruct Hcase as [El|(v & l & El)]; rewrite El in Ha.
  { erewrite bind_Ok by exact Ha. exists k, l0, 0. split; [done|]. split; [done|]. right. split_and!; try done; [rewrite Em; by intros x _|by rewrite El]. }
  destruct Ha as (k1 & R1 & Hk1 & Pv & Hnl & Hm1 & _). erewrite bind_Ok by exact R1.
  rewrite (proj2 (Z.eqb_neq _ _) (page_ok_nonzero _ _ Pv)). kstep. change (P2V PHYSTOP >? DEVSPACE) with false. cbv iota.
  destruct (zero_dir v l El Hnd) as [B Hz]. set (k2 := k1 <| kmemory ::= _ |>).
  assert (E2 : kmemory k2 = memset m0 v 0 PGSIZE) by (unfold k2; cbn; by rewrite Hm1, Em). rewrite <- E2 in B, Hz.
  destruct (map_kernel_spec fuel v L (kmap data) Hnd k2 l KERNBASE B) as (k' & l' & r & R & Hk' & Hres); try done.
  { eapply (kmem_inv_frame kend k1 v); [done..|]. intros x Hx. rewrite memset_fill. destruct (Z.leb_spec v x), (Z.ltb_spec x (v + PGSIZE)); (done || lia). }
  { apply kmap_rows; [done|]. change (KERNBASE / PGSIZE) with 524288 in Hf. lia. }
  exists k', l', r. split; [exact R|]. split; [done|]. destruct Hres as [(-> & B' & (t & T) & _ & M)|?]; [left|by right].
  split; [by apply (page_ok_nonzero kend)|]. split; [done|]. split; [|done]. exists (v :: t). by rewrite El, T.
Qed.

(** *** One page *)

Lemma as_ok_less d m h l : as_ok kend m d (h ++ l) -> as_ok kend m d l.
Proof.
  intros [[P1 P2 P3 P4] F I]. split; [split; [done|set_solver| |done]| |done].
  - intros i Hi Hh. destruct (P3 i Hi Hh) as (? & ? & ?). split_and!; [done|set_solver|done].
  - intros va Hu Hm. destruct (F va Hu Hm) as (? & ? & ?). split_and!; [done|set_solver|done].
Qed.

(** A page off the list is filled. *)
Lemma building_fill d m l v m' i : building d m (v :: l) i -> same_outside v (v + PGSIZE) m m' -> building d m' (v :: l) i.
Proof.
  intros [[Bp Bf Bi] Bs Bo Bu Bm Bn Bx Bt] Hs. assert (Hv : v ∈ v :: l) by set_solver.
  assert (Pv : page_ok kend v) by (apply (proj1 (Forall_forall _ _) Hl0), Bs; done).
  assert (Hfar : forall w, page_ok kend w -> w ∉ v :: l -> same_on w (w + PGSIZE) m m').
  { intros w Pw Hw. eapply same_outside_on; [exact Hs|]. apply (pages_disjoint kend); [done..|]. intros ->. done. }
  destruct (frame_entries m m' d) as [Hst He].
  { intros w Hw. apply Hfar; by eapply own_page. }
  split; [split|..]; unfold mapped, frame in *.
  - eapply pt_ok_tables; [exact Hst|by intros w Hw|exact Bp].
  - intros va Hu. rewrite He. intros Hm. destruct (Bf va Hu Hm) as (? & ? & ?). split_and!; [done|done|].
    by rewrite (same_tables_own _ _ _ _ Hst).
  - intros va va' Hu Hu'. rewrite !He. by apply Bi.
  - done.
  - intros w Hw. apply Bo. by apply (same_tables_own _ _ _ _ Hst).
  - intros w Hw. destruct (Bu w Hw) as [?|[?|(va & Hu & Hm & ->)]]; [by left|right; left; by apply (same_tables_own _ _ _ _ Hst)|].
    right. right. exists va. by rewrite He.
  - intros va Hu. rewrite He. by apply Bm.
  - intros va Hu Hi. rewrite He. destruct (Bn va Hu Hi) as (N1 & N2 & N3). split_and!; [done|done|]. intros o Ho.
    pose proof (Bm va Hu) as Hm. rewrite (proj2 (Z.ltb_lt _ _) Hi) in Hm. destruct (Bf va Hu Hm) as (? & ? & _).
    rewrite (Hfar _ ltac:(eassumption) ltac:(eassumption)) by lia. by apply N3.
  - eapply only_pages_trans; [exact Bx|]. apply (only_pages_in l0 _ _ v); [by apply Bs|done].
  - intros j Hj Hh. apply Bt; [done|]. by rewrite <- (st_has _ _ _ Hst j Hj).
Qed.

(** The filled page is mapped at [i]. *)
Lemma building_page d k v l k' l' i : building d (kmemory k) (v :: l) i -> NoDup (v :: l) -> upage i ->
  (forall o, 0 <= o < PGSIZE -> kmemory k (v + o) = bytes i o) ->
  pt_upd kend d k l k' l' (fun x => x / PGSIZE = i / PGSIZE) ->
  0 <= flags i < PGSIZE -> Z.odd (flags i) = true -> pte_at (kmemory k') d i = Z.lor (V2P v) (flags i) ->
  building d (kmemory k') l' (i + PGSIZE).
Proof.
  intros [Ba Bs Bo Bu Bm Bn Bx Bt] Hnd Hi Hbytes U Hf Ho E. apply NoDup_cons in Hnd as [Hvl Hnd]. assert (Hv : v ∈ v :: l) by set_solver.
  assert (Pv : page_ok kend v) by (apply (proj1 (Forall_forall _ _) Hl0), Bs; done). destruct (pu_taken _ _ _ _ _ _ _ U) as [t Ht].
  assert (Hvo : ~ own (kmemory k) d v) by (intros Hw; by destruct (own_page kend _ _ _ _ (as_pt _ _ _ _ Ba) Hw)).
  destruct (map_fresh kend Hkend (flags i) d i v k l k' l' Hf Ho) as [Ba' Hvo']; try done; [by apply (as_ok_less _ _ [v])| |].
  { intros va Hu Hm Hv'. destruct (as_frame _ _ _ _ Ba va Hu Hm) as (_ & Hn & _). by rewrite Hv' in Hn. }
  destruct (page_entry kend v (flags i) Pv Hf Ho) as (_ & E2 & E3 & E4).
  assert (Hcase : forall va, upage va -> va = i \/ va <> i /\ pte_at (kmemory k') d va = pte_at (kmemory k) d va).
  { intros va Hva. destruct (decide (va = i)) as [->|Hd]; [by left|right]. split; [done|].
    apply (pu_keep _ _ _ _ _ _ _ U); [by apply upage_u32|]. intros Hx. by apply Hd, upage_vpn. }
  assert (Hlt : forall va, upage va -> va <> i -> (va <? i + PGSIZE) = (va <? i)).
  { intros va [_ Ha] Hne. destruct Hi as [_ Hi]. unfold PGSIZE in *. destruct (Z.ltb_spec va (i + 4096)), (Z.ltb_spec va i); try done; dlia. }
  split; [done|..]; unfold mapped, frame in *.
  - intros w Hw. apply Bs. rewrite Ht. set_solver.
  - intros w Hw. destruct (pu_own _ _ _ _ _ _ _ U w Hw) as [?|[? _]]; [by apply Bo|apply Bs; set_solver].
  - intros w Hw. destruct (Bu w Hw) as [[-> | Hin]%elem_of_cons|[?|(va & Hu & Hm & ->)]].
    + right. right. exists i. by rewrite E, E2, E3.
    + destruct (pu_used _ _ _ _ _ _ _ U w Hin) as [?|?]; auto.
    + right. left. by apply (pu_grow _ _ _ _ _ _ _ U).
    + right. right. exists va. destruct (Hcase va Hu) as [->|[_ ->]]; [|done]. rewrite Bm in Hm by done. by rewrite Z.ltb_irrefl in Hm.
  - intros va Hu. destruct (Hcase va Hu) as [->|[Hne ->]]; [|rewrite Hlt by done; by apply Bm].
    rewrite E, E2. symmetry. apply Z.ltb_lt. unfold PGSIZE. lia.
  - intros va Hu Hva. destruct (Hcase va Hu) as [->|[Hne Ep]].
    + rewrite E, E3, E4. split_and!; [by apply Bs|done|]. intros o Hor. rewrite (pt_upd_page _ _ _ _ _ _ _ U Pv Hvo') by lia. by apply Hbytes.
    + rewrite Ep. apply Z.ltb_lt in Hva. rewrite Hlt in Hva by done. apply Z.ltb_lt in Hva. destruct (Bn va Hu Hva) as (N1 & N2 & N3).
      split_and!; [done|done|]. intros o Hor. rewrite <- N3 by done. apply Z.ltb_lt in Hva. rewrite <- Bm in Hva by done.
      assert (Hm' : present (pte_at (kmemory k') d va) = true) by (by rewrite Ep).
      destruct (as_frame _ _ _ _ Ba' va Hu Hm') as (P & _ & O). unfold frame in P, O. rewrite Ep in P, O.
      apply (pt_upd_page _ _ _ _ _ _ _ U P O). lia.
  - eapply only_pages_trans; [exact Bx|]. intros x Hx. apply (pu_frame _ _ _ _ _ _ _ U). intros w Hw Hxw. apply Hx. exists w.
    split; [|done]. destruct (pu_own _ _ _ _ _ _ _ U w Hw) as [?|[? _]]; [by apply Bo|apply Bs; set_solver].
  - intros j Hj Hh. destruct (pu_has _ _ _ _ _ _ _ U j Hj Hh) as [Hh0|(va & Hva & Ev & <-)].
    + destruct (Bt j Hj Hh0) as [?|?]; [by left|right; unfold PGSIZE; lia].
    + right. rewrite PDX_eq by done. change (2 ^ 22) with 4194304. unfold PGSIZE in *. dlia.
Qed.

(** *** The loop of [copyuvm] *)

Lemma kmem_inv_upd k v l (f : mem -> mem) : kmem_inv kend k l -> page_ok kend v -> v ∉ l ->
  same_outside v (v + PGSIZE) (kmemory k) (f (kmemory k)) -> kmem_inv kend (k <| kmemory ::= f |>) l.
Proof. intros Hk Pv Hv Hs. exact (kmem_inv_frame kend k v l (f (kmemory k)) Hk Pv Hv Hs). Qed.

(** [mappages] of a page [v] with contents. *)
Lemma map_built fuel d k v l i perm L : building d (kmemory k) (v :: l) i -> kmem_inv kend k l -> NoDup (v :: l) -> Lkmem ∉ L ->
  upage i -> (forall o, 0 <= o < PGSIZE -> kmemory k (v + o) = bytes i o) -> (0 < fuel)%nat ->
  0 <= perm < PGSIZE -> 0 <= flags i < PGSIZE -> Z.odd (flags i) = true -> Z.lor perm PTE_P = flags i ->
  exists k' l' r, mappages fuel d i PGSIZE (V2P v) perm L k = Ok r L k' /\ kmem_inv kend k' l' /\
    (r = 0 /\ building d (kmemory k') l' (i + PGSIZE) /\ frame (kmemory k') d i = v \/ r = -1 /\ l' = [] /\ building d (kmemory k') [v] i).
Proof.
  intros B Hk Hnd HL Hi Hb Hf Hp F1 F2 F3.
  assert (Pv : page_ok kend v) by (apply (proj1 (Forall_forall _ _) Hl0), (bd_sub _ _ _ _ B); set_solver).
  destruct (V2P_page kend v Pv) as (Hv1 & Hv2 & Hv3). pose proof Hi as [Hir Hia].
  destruct (map_loop_spec kend 0 fuel d i (V2P v) perm L k l) as (k' & l' & r & j & R & U & Hnew & Hold & Hr);
    try done; try (unfold KERNBASE, PGSIZE in *; lia).
  { apply (as_ok_less _ _ [v]), B. }
  { intros x Hx. replace x with 0 by lia. rewrite Z.mul_0_r, Z.add_0_r. pose proof (bd_map _ _ _ _ B i Hi) as Hm.
    rewrite Z.ltb_irrefl in Hm. exact Hm. }
  rewrite <- (mappages_aligned fuel d i (V2P v) _ 0) in R by (unfold KERNBASE, PGSIZE in *; lia).
  assert (U' : pt_upd kend d k l k' l' (fun x => x / PGSIZE = i / PGSIZE)).
  { eapply pt_upd_trans; [| |exact U|by apply pt_upd_refl; apply U]; [|intros va H; exact H]. unfold PGSIZE in *. intros va Hv. dlia. }
  exists k', l', r. split; [exact R|]. split; [apply U|]. destruct Hr as [[-> ->]|(-> & -> & Hj)]; [left|right]; (split; [done|]).
  - specialize (Hnew 0 ltac:(lia)). unfold new_entry in Hnew. rewrite Z.mul_0_r, !Z.add_0_r, F3 in Hnew.
    split; [by apply (building_page d k v l)|]. unfold frame. rewrite Hnew. by apply (page_entry kend v (flags i) Pv F1 F2).
  - split; [done|]. apply (building_tables d k [v] l k' [] i _ B Hnd U').
    { intros va Hva Ev. right. rewrite PDX_eq by done. change (2 ^ 22) with 4194304. unfold PGSIZE in *. dlia. }
    intros va Hu.
    destruct (decide (va / PGSIZE = i / PGSIZE)) as [E|E]; [|apply (pu_keep _ _ _ _ _ _ _ U'); [by apply upage_u32|done]].
    specialize (Hold 0 ltac:(lia)). rewrite Z.mul_0_r, Z.add_0_r in Hold. by rewrite (upage_vpn i va).
Qed.

Section parent.
(** The parent's address space, all of whose pages below [sz] are mapped. *)
Context (pg sz : Z) (Hpa : as_ok kend m0 pg l0) (Hsz : 0 <= sz < KERNBASE).
Context (Hmap : forall va, upage va -> va < sz -> mapped m0 pg va = true).
Context (Hflags : forall va, flags va = PTE_FLAGS (pte_at m0 pg va)).
Context (Hbytes : forall va o, bytes va o = u8 (m0 (frame m0 pg va + o))).

Lemma pte_flags_ok m va : mapped m pg va = true ->
  0 <= PTE_FLAGS (pte_at m pg va) < PGSIZE /\ Z.odd (PTE_FLAGS (pte_at m pg va)) = true /\
  Z.lor (PTE_FLAGS (pte_at m pg va)) PTE_P = PTE_FLAGS (pte_at m pg va).
Proof.
  intros Hm. unfold mapped in Hm. rewrite present_odd in Hm.
  assert (Hu : is_u32 (pte_at m pg va)) by (unfold pte_at; destruct (has _ _ _); [apply load32_range|done]).
  rewrite PTE_FLAGS_eq by done. set (e := pte_at m pg va) in *. unfold PGSIZE, PTE_P.
  assert (Hodd : Z.odd (e mod 4096) = true).
  { rewrite <- Hm, <- !Z.bit0_odd. apply (Z.mod_pow2_bits_low e 12). lia. }
  split; [dlia|]. split; [done|]. apply Z.bits_inj'. intros n Hn. rewrite Z.lor_spec. destruct (decide (n = 0)) as [->|Hne].
  - rewrite !Z.bit0_odd, Hodd. done.
  - change 1 with (2 ^ 0). rewrite Z.pow2_bits_false by lia. apply orb_false_r.
Qed.

(** The parent as the loop finds it. *)
Lemma parent_entry d k l i va L : building d (kmemory k) l i -> upage va -> va < sz ->
  walkpgdir pg va 0 L k = Ok (slot (kmemory k) pg va) L k /\ slot (kmemory k) pg va <> 0 /\
  load32 (kmemory k) (slot (kmemory k) pg va) = pte_at m0 pg va /\
  (forall o, 0 <= o < PGSIZE -> load8 (kmemory k) (frame m0 pg va + o) = bytes va o).
Proof.
  intros B Hu Hva. pose proof (Hmap va Hu Hva) as Hm. pose proof (mapped_has _ _ _ Hm) as Hh.
  destruct (only_pages_entries l0 m0 (kmemory k) pg (bd_out _ _ _ _ B) Hl0 (as_pt _ _ _ _ Hpa)) as [Hst He].
  assert (Hh' : has (kmemory k) pg (PDX va) = true) by (rewrite (st_has _ _ _ Hst) by apply PDX_range; done).
  split; [by apply walk_present|]. split.
  { rewrite (same_tables_slot _ _ _ _ Hst). by apply (slot_nonzero kend _ _ l0); [apply Hpa|]. }
  split; [rewrite <- He; unfold pte_at; by rewrite Hh'|]. intros o Ho. rewrite Hbytes. unfold load8. f_equal.
  destruct (as_frame _ _ _ _ Hpa va Hu Hm) as (P & N & _). apply (only_pages_same l0 m0 _ (frame m0 pg va)); try done; [apply B|lia].
Qed.

(** The new page is a copy of the parent's. *)
Lemma copy_bytes d k v l i va : building d (kmemory k) (v :: l) i -> upage va -> va < sz ->
  let m' := memmove (kmemory k) v (frame m0 pg va) PGSIZE in
  same_outside v (v + PGSIZE) (kmemory k) m' /\ forall o, 0 <= o < PGSIZE -> m' (v + o) = bytes va o.
Proof.
  intros B Hu Hva m'. destruct (parent_entry d k _ i va [] B Hu Hva) as (_ & _ & _ & Hb).
  destruct (as_frame _ _ _ _ Hpa va Hu (Hmap va Hu Hva)) as (P & _).
  assert (Pv : page_ok kend v) by (apply (proj1 (Forall_forall _ _) Hl0), (bd_sub _ _ _ _ B); set_solver).
  pose proof (page_ok_range kend v Pv). pose proof (page_ok_range kend _ P).
  assert (Hcopy : forall x, m' x = if (v <=? x) && (x <? v + PGSIZE) then load8 (kmemory k) (frame m0 pg va + (x - v)) else kmemory k x).
  { intros x. apply memmove_copies; unfold region, KERNBASE, PHYSTOP, PGSIZE in *; lia. }
  split.
  - intros x Hx. rewrite Hcopy. destruct (Z.leb_spec v x), (Z.ltb_spec x (v + PGSIZE)); (done || lia).
  - intros o Ho. rewrite Hcopy, (proj2 (Z.leb_le _ _)), (proj2 (Z.ltb_lt _ _)) by lia. cbn [andb].
    replace (v + o - v) with o by lia. by apply Hb.
Qed.

Lemma map_copy fuel d k v l i L : building d (kmemory k) (v :: l) i -> kmem_inv kend k l -> NoDup (v :: l) -> Lkmem ∉ L ->
  upage i -> i < sz -> (forall o, 0 <= o < PGSIZE -> kmemory k (v + o) = bytes i o) -> (0 < fuel)%nat ->
  exists k' l' r, mappages fuel d i PGSIZE (V2P v) (flags i) L k = Ok r L k' /\ kmem_inv kend k' l' /\
    (r = 0 /\ building d (kmemory k') l' (i + PGSIZE) \/ r = -1 /\ l' = [] /\ building d (kmemory k') [v] i).
Proof.
  intros B Hk Hnd HL Hi Hlt Hb Hf. destruct (pte_flags_ok m0 i (Hmap i Hi Hlt)) as (F1 & F2 & F3).
  rewrite <- Hflags in F1, F2, F3. destruct (map_built fuel d k v l i (flags i) L) as (k' & l' & r & R & Hk' & H); try done.
  exists k', l', r. split; [done|]. split; [done|]. destruct H as [(? & ? & _)|?]; auto.
Qed.

Lemma copy_loop_spec L d n : forall fuel k l i,
  building d (kmemory k) l i -> kmem_inv kend k l -> Lkmem ∉ L ->
  i mod PGSIZE = 0 -> 0 <= i -> i < sz + PGSIZE -> sz - i <= PGSIZE * Z.of_nat n -> (n < fuel)%nat ->
  exists k' l' ok i', copy_loop kend fuel pg d i sz L k = Ok ok L k' /\ kmem_inv kend k' l' /\
    building d (kmemory k') l' i' /\ (ok = true -> i' mod PGSIZE = 0 /\ sz <= i' < sz + PGSIZE) /\
    (ok = false -> (length l' <= 1)%nat /\ 0 <= i' < sz).
Proof.
  induction n as [|n IH]; intros fuel k l i B Hk HL Hi Hi0 Hi1 Hn Hf; (destruct fuel as [|f]; [lia|]); cbn [copy_loop];
    (destruct (Z.ltb_spec i sz) as [Hlt|Hge];
      [|exists k, l, true, i; split; [done|]; split; [done|]; split; [done|split; [lia|done]]]).
  { lia. }
  assert (Hu : upage i) by (split; [lia|done]).
  destruct (parent_entry d k l i i L B Hu Hlt) as (W & Hs & Hld & _). erewrite bind_Ok by exact W.
  rewrite (proj2 (Z.eqb_neq _ _) Hs). unfold kload at 1. kstep. rewrite Hld.
  pose proof (Hmap i Hu Hlt) as Hm. unfold mapped, present in Hm. rewrite Hm. cbn [negb].
  pose proof (kalloc_spec kend l L k Hk HL) as Hal. destruct l as [|v l].
  { erewrite bind_Ok by exact Hal. exists k, [], false, i. split; [done|]. split; [done|]. split; [done|]. split; [done|cbn; lia]. }
  destruct Hal as (k1 & R1 & Hk1 & Pv & Hvl & Hm1 & _). erewrite bind_Ok by exact R1.
  rewrite (proj2 (Z.eqb_neq _ _) (page_ok_nonzero _ _ Pv)). kstep. rewrite <- Hm1 in B.
  fold (frame m0 pg i). destruct (copy_bytes d k1 v l i i B Hu Hlt) as [Hout Hcp]. set (k2 := k1 <| kmemory ::= _ |>).
  assert (B2 : building d (kmemory k2) (v :: l) i) by (by apply (building_fill d (kmemory k1))).
  assert (Hk2 : kmem_inv kend k2 l) by exact (kmem_inv_upd k1 v l _ Hk1 Pv Hvl Hout).
  pose proof (ki_nodup _ _ _ Hk) as Hnd. rewrite <- (Hflags i).
  destruct (map_copy (S f) d k2 v l i L B2 Hk2 Hnd HL Hu Hlt Hcp ltac:(lia)) as (k3 & l3 & r & R3 & Hk3 & Hres).
  erewrite bind_Ok by exact R3. destruct Hres as [[-> B3]|(-> & -> & B3)]; cbn [Z.ltb Z.compare].
  - rewrite u32_small by (unfold KERNBASE, PGSIZE in *; lia).
    destruct (IH f k3 l3 (i + PGSIZE) B3 Hk3 HL) as (k' & l' & ok & i' & R & Hk' & B' & Hok);
      [unfold PGSIZE in *; dlia|unfold PGSIZE; lia|lia|lia|lia|].
    by exists k', l', ok, i'.
  - destruct (free_unused kend d v L k3 [] Hk3) as (k4 & R4 & Hk4 & _ & _ & _ & Hs4); try done; [|set_solver| |].
    { apply (as_ok_less _ _ [v]), B3. }
    { intros Ho. destruct (own_page kend _ _ _ _ (as_pt _ _ _ _ (bd_as _ _ _ _ B3)) Ho) as [_ Hno]. set_solver. }
    erewrite bind_Ok by exact R4. exists k4, [v], false, i. split; [done|]. split; [done|]. split; [|split; [done|cbn; lia]].
    by apply (building_fill d (kmemory k3)).
Qed.

End parent.

End copy.

(** *** [copyuvm] *)

(** Directory [d] is a copy, in memory [m'], of what [pg] was in [m]: the same pages
    below [sz] with the same flags and bytes, in frames out of [l]. *)
Record copy_of (m m' : mem) (pg d sz : Z) (l : list Z) : Prop := {
  co_map va : upage va -> mapped m' d va = (va <? sz);
  co_frame va : upage va -> va < sz -> frame m' d va ∈ l;
  co_flags va : upage va -> va < sz -> PTE_FLAGS (pte_at m' d va) = PTE_FLAGS (pte_at m pg va);
  co_bytes va o : upage va -> va < sz -> 0 <= o < PGSIZE -> load8 m' (frame m' d va + o) = load8 m (frame m pg va + o) }.

Lemma copyuvm_spec kend data fuel pg sz L k l : KERNBASE < kend -> data_ok data ->
  kmem_inv kend k l -> as_ok kend (kmemory k) pg l -> Lkmem ∉ L -> 0 <= sz < KERNBASE ->
  (forall va, upage va -> va < sz -> mapped (kmemory k) pg va = true) -> KERNBASE / PGSIZE + 2 <= Z.of_nat fuel ->
  exists k' l' d, copyuvm kend data fuel pg sz L k = Ok d L k' /\ kmem_inv kend k' l' /\ only_pages l (kmemory k) (kmemory k') /\
    (d <> 0 /\ as_ok kend (kmemory k') d l' /\ copy_of (kmemory k) (kmemory k') pg d sz l /\
       (forall v, v ∈ l -> v ∈ l' \/ own (kmemory k') d v \/
         exists va, upage va /\ mapped (kmemory k') d va = true /\ v = frame (kmemory k') d va) /\
       (forall v, v ∈ l' \/ own (kmemory k') d v -> v ∈ l) \/
     d = 0 /\ (forall v, v ∈ l' <-> v ∈ l) /\ Z.of_nat (length l) <= 68 + sz / PGSIZE + sz / 2 ^ 22).
Proof.
  intros Hkend Hdata Hk Has HL Hsz Hmap Hf. set (m0 := kmemory k). pose proof (ki_pages _ _ _ Hk) as Hl.
  set (fl := fun va => PTE_FLAGS (pte_at m0 pg va)). set (by_ := fun va o => u8 (m0 (frame m0 pg va + o))).
  destruct (setupkvm_spec kend data Hkend fl by_ l m0 Hl fuel L k eq_refl Hk HL Hdata Hf) as (k1 & l1 & d & R1 & Hk1 & Hres).
  unfold copyuvm. erewrite bind_Ok by exact R1.
  assert (Hq : 0 <= sz / PGSIZE /\ 0 <= sz / 2 ^ 22) by (split; apply Z.div_pos; done || lia).
  destruct Hres as [(Hd & B & _)|(-> & Hset & Hx & Hc)];
    [|exists k1, l1, 0; split; [done|]; split; [done|]; split; [done|]; right; split; [done|]; split; [done|lia]].
  rewrite (proj2 (Z.eqb_neq _ _) Hd).
  assert (Hdiv : 0 <= sz / PGSIZE <= KERNBASE / PGSIZE /\ sz - 0 <= PGSIZE * Z.of_nat (Z.to_nat (sz / PGSIZE + 1))).
  { split; [split; [apply Z.div_pos; unfold PGSIZE; lia|apply Z.div_le_mono; unfold PGSIZE; lia]|].
    clear - Hsz. unfold PGSIZE. dlia. }
  destruct Hdiv as [Hdiv Hn0]. assert (Hp : 0 < PGSIZE) by done.
  destruct (copy_loop_spec kend Hkend fl by_ l m0 Hl pg sz Has Hsz Hmap ltac:(done) ltac:(done) L d (Z.to_nat (sz / PGSIZE + 1)) fuel k1 l1 0 B Hk1 HL)
    as (k2 & l2 & ok & i & R2 & Hk2 & B2 & Hok & Hfail); [done|lia|lia|exact Hn0|lia|].
  erewrite bind_Ok by exact R2. destruct ok.
  - destruct (Hok eq_refl) as [Hia Hi]. exists k2, l2, d. split; [done|]. split; [done|]. split; [apply B2|]. left. split; [done|].
    assert (Hlt : forall va, upage va -> (va <? i) = (va <? sz)).
    { intros va [_ Hva]. unfold PGSIZE in *. destruct (Z.ltb_spec va i), (Z.ltb_spec va sz); try done; dlia. }
    pose proof B2 as [Ba Bs Bo Bu Bm Bn Bx _]. split; [done|]. split; [|split; [done|intros v [?|?]; auto]].
    assert (Hn : forall va, upage va -> va < sz -> va < i) by (intros va Hu Hva; lia).
    split; [intros va Hu; by rewrite Bm, Hlt|..]; intros va; [intros Hu Hva|intros Hu Hva|intros o Hu Hva Ho];
      destruct (Bn va Hu (Hn va Hu Hva)) as (N1 & N2 & N3); try done.
    unfold load8. rewrite N3 by done. apply u8_small, u8_range.
  - destruct (building_undo kend Hkend fl by_ l m0 fuel d k2 l2 i L B2 Hk2 HL Hf) as (k3 & l3 & R3 & Hk3 & Hset & Hx).
    erewrite bind_Ok by exact R3. exists k3, l3, 0. split; [done|]. split; [done|]. split; [done|]. right. split; [done|]. split; [done|].
    destruct (Hfail eq_refl) as [Hlen Hi]. pose proof (building_count _ _ _ _ _ _ _ _ _ B2 (ki_nodup _ _ _ Hk) (proj1 Hi)).
    assert (i / PGSIZE <= sz / PGSIZE /\ i / 2 ^ 22 <= sz / 2 ^ 22) by (split; apply Z.div_le_mono; done || lia). lia.
Qed.

End CopySpec.
