(* ===== verification/Param.v ===== *)
(** System-wide constants (param.h, proc.h, fs.h). *)

From stdpp Require Import base numbers.
From Stdlib Require Import ZArith.

Module Param.

Definition NPROC : Z := 64.
Definition KSTACKSIZE : Z := 4096.
Definition NCPU : Z := 8.
Definition NOFILE : Z := 16.
Definition NFILE : Z := 100.
Definition NINODE : Z := 50.
Definition NDEV : Z := 10.
Definition ROOTDEV : Z := 1.
Definition MAXOPBLOCKS : Z := 10.
Definition LOGSIZE : Z := MAXOPBLOCKS * 3.
Definition NBUF : Z := MAXOPBLOCKS * 3.
Definition FSSIZE : Z := 1000.
Definition QUANTUM : Z := 1000.
Definition MAXPRIORITY : Z := 6.

Definition POLICY_DEFAULT : Z := 0.
Definition POLICY_ROUND_ROBIN : Z := 1.
Definition POLICY_PRIORITY : Z := 2.
Definition POLICY_MLQ : Z := 3.

Definition QUEUE_DEFAULT : Z := 0.
Definition QUEUE_PRIORITY : Z := 1.
Definition QUEUE_PRIORITY_REVERSE : Z := 2.
Definition QUEUE_PRIORITY_RR : Z := 3.

Definition BSIZE : Z := 512.

End Param.
