(* ===== verification/Printf.v ===== *)
(** Formatted output: [printint] and [printf] of printf.c for user programs,
    [printint] and the formatting of [cprintf] of console.c for the kernel.

    The functions here give the characters printed, in order; printf.c writes
    each with its own [write], console.c with [consputc] (Console.v).  A
    format is the bytes of its string before the terminating 0.  The
    arguments are the words on the stack above it, [ap 0], [ap 1], ...;
    [str p] are the bytes of the string at address [p]. *)

From stdpp Require Import base numbers list strings.
From Stdlib Require Import ZArith Lia.
From S2P Require Import Prelude.

Module Printf.

(** Bytes of a string literal. *)
Fixpoint lit (s : string) : list Z :=
  match s with
  | EmptyString => []
  | String a r => Z.of_N (Ascii.N_of_ascii a) :: lit r
  end.

Definition pct : Z := 37.      (* '%' *)
Definition minus : Z := 45.    (* '-' *)

Definition udigits : list Z := lit "0123456789ABCDEF".   (* printf.c *)
Definition kdigits : list Z := lit "0123456789abcdef".   (* console.c *)

(** [buf[i++] = c] with [char buf[16]]; [b] are the bytes before index [i]. *)
Definition push (b : list Z) (c : Z) : option (list Z) :=
  if (length b <? 16)%nat then Some (b ++ [c]) else None.

(** [do buf[i++] = digits[x % base]; while ((x /= base) != 0);]  The buffer
    is full before 17 turns. *)
Fixpoint digit_loop (digits : list Z) (base x : Z) (b : list Z) (fuel : nat) : option (list Z) :=
  match fuel with
  | O => None
  | S f =>
      d ← aget digits (x mod base);
      b ← push b d;
      let x := x / base in
      if x =? 0 then Some b else digit_loop digits base x b f
  end.

(** [None] is a write outside [buf] or a read outside [digits]. *)
Definition printint (digits : list Z) (xx base : Z) (sgn : bool) : option (list Z) :=
  let neg := sgn && (xx <? 0) in
  let x := if neg then u32 (- xx) else u32 xx in
  b ← digit_loop digits base x [] 17;
  b ← (if neg then push b minus else Some b);
  Some (rev b).

(** The [printint] of console.c is the same with other digits; its [sign = xx < 0] is [neg]. *)
Definition kprintint (xx base : Z) (sgn : bool) : option (list Z) := printint kdigits xx base sgn.

(** [int] arguments are read from [uint] words. *)
Definition print_d (digits : list Z) (w : Z) : option (list Z) := printint digits (i32 w) 10 true.
Definition print_x (digits : list Z) (w : Z) : option (list Z) := printint digits (i32 w) 16 false.

Section printf.
Variables (ap : nat -> Z) (str : Z -> list Z).

(** The string a [%s] prints. *)
Definition str_arg (p : Z) : list Z := if p =? 0 then lit "(null)" else str p.

(** The loop of [printf] of printf.c: [st] is [state == '%'], [k] the number
    of arguments taken. *)
Fixpoint printf_loop (fmt : list Z) (st : bool) (k : nat) : option (list Z) :=
  match fmt with
  | [] => Some []
  | c :: r =>
      if negb st then
        if c =? pct then printf_loop r true k
        else o ← printf_loop r false k; Some (c :: o)
      else if c =? 100 then        (* 'd' *)
        w ← print_d udigits (ap k); o ← printf_loop r false (S k); Some (w ++ o)
      else if (c =? 120) || (c =? 112) then   (* 'x', 'p' *)
        w ← print_x udigits (ap k); o ← printf_loop r false (S k); Some (w ++ o)
      else if c =? 115 then        (* 's' *)
        o ← printf_loop r false (S k); Some (str_arg (ap k) ++ o)
      else if c =? 99 then         (* 'c' *)
        o ← printf_loop r false (S k); Some (u8 (ap k) :: o)
      else if c =? pct then
        o ← printf_loop r false k; Some (c :: o)
      else
        o ← printf_loop r false k; Some (pct :: c :: o)
  end.

Definition printf (fmt : list Z) : option (list Z) := printf_loop fmt false 0.

(** The loop of [cprintf]. *)
Fixpoint cprintf_loop (fmt : list Z) (k : nat) : option (list Z) :=
  match fmt with
  | [] => Some []
  | c :: r =>
      if negb (c =? pct) then o ← cprintf_loop r k; Some (c :: o)
      else match r with
      | [] => Some []
      | c :: r =>
          if c =? 100 then
            w ← kprintint (i32 (ap k)) 10 true; o ← cprintf_loop r (S k); Some (w ++ o)
          else if (c =? 120) || (c =? 112) then
            w ← kprintint (i32 (ap k)) 16 false; o ← cprintf_loop r (S k); Some (w ++ o)
          else if c =? 115 then
            o ← cprintf_loop r (S k); Some (str_arg (ap k) ++ o)
          else if c =? pct then
            o ← cprintf_loop r k; Some (pct :: o)
          else
            o ← cprintf_loop r k; Some (pct :: c :: o)
      end
  end.

Definition cprintf_chars (fmt : list Z) : option (list Z) := cprintf_loop fmt 0.
End printf.

(** *** Numerals *)

(** The numeral of [x], of at most [n] digits, most significant digit first. *)
Fixpoint numeral_of (digits : list Z) (base x : Z) (n : nat) : list Z :=
  match n with
  | O => []
  | S n =>
      if x <? base then [nth (Z.to_nat x) digits 0]
      else numeral_of digits base (x / base) n ++ [nth (Z.to_nat (x mod base)) digits 0]
  end.

(** An [int] has at most ten decimal digits and a [uint] eight hexadecimal
    ones. *)
Definition decimal (digits : list Z) (x : Z) : list Z :=
  if x <? 0 then minus :: numeral_of digits 10 (- x) 10 else numeral_of digits 10 x 10.
Definition hexadecimal (digits : list Z) (x : Z) : list Z := numeral_of digits 16 x 8.

(** Value of a digit character, in either case, and of a numeral. *)
Definition digit_val (c : Z) : Z :=
  if c <=? 57 then c - 48 else if c <=? 70 then c - 55 else c - 87.
Definition numeral (base : Z) (l : list Z) : Z :=
  fold_left (fun a c => a * base + digit_val c) l 0.

(** A numeral without needless zeros in front. *)
Definition canonical (l : list Z) : Prop :=
  match l with c :: r => digit_val c = 0 -> r = [] | [] => False end.

Definition good_digits (digits : list Z) : Prop :=
  length digits = 16%nat /\ forall d, 0 <= d < 16 -> digit_val (nth (Z.to_nat d) digits 0) = d.

Lemma digits_by_cases digits :
  length digits = 16%nat ->
  forallb (fun d => digit_val (nth d digits 0) =? Z.of_nat d) (seq 0 16) = true -> good_digits digits.
Proof.
  intros Hl H. split; [done|]. intros d Hd. rewrite forallb_forall in H. specialize (H (Z.to_nat d)).
  rewrite Z2Nat.id in H by lia. apply Z.eqb_eq, H, in_seq. lia.
Qed.

Lemma udigits_good : good_digits udigits.
Proof. apply digits_by_cases; by vm_compute. Qed.
Lemma kdigits_good : good_digits kdigits.
Proof. apply digits_by_cases; by vm_compute. Qed.

Lemma numeral_app base l c : numeral base (l ++ [c]) = numeral base l * base + digit_val c.
Proof. unfold numeral. by rewrite fold_left_app. Qed.

Lemma div_bound x base n : 2 <= base -> 0 <= x < base ^ Z.of_nat (S n) -> base <= x ->
  0 < x / base < base ^ Z.of_nat n.
Proof.
  intros Hb Hx Hge. split; [apply Z.div_str_pos; lia|]. apply Z.div_lt_upper_bound; [lia|].
  rewrite Nat2Z.inj_succ, Z.pow_succ_r in Hx by lia. lia.
Qed.

(** The numeral has the value of the number and no needless zero. *)
Lemma numeral_of_value digits base n x :
  good_digits digits -> 2 <= base <= 16 -> 0 <= x < base ^ Z.of_nat n -> (0 < n)%nat ->
  numeral base (numeral_of digits base x n) = x /\ canonical (numeral_of digits base x n) /\
  (0 < x -> exists c r, numeral_of digits base x n = c :: r /\ digit_val c <> 0).
Proof.
  intros [_ Hd] Hb. revert x. induction n as [|n IH]; intros x Hx Hn; [lia|]. cbn [numeral_of].
  destruct (Z.ltb_spec x base) as [Hlt|Hge].
  - unfold numeral. cbn. rewrite Hd by lia. split_and!; [lia|done|]. intros H0. eexists _, []. split; [done|].
    rewrite Hd; lia.
  - pose proof (div_bound x base n ltac:(lia) Hx Hge) as Hdiv.
    destruct n as [|n]; [cbn in Hdiv; lia|].
    destruct (IH (x / base) ltac:(lia) ltac:(lia)) as (Hv & _ & Hc).
    destruct (Hc ltac:(lia)) as (c & r & E & Hc0). rewrite numeral_app, Hv, Hd by (pose proof (Z.mod_pos_bound x base); lia).
    rewrite E. split_and!; [pose proof (Z.div_mod x base); lia|cbn; intros ?; contradiction|]. intros _. by eexists _, _.
Qed.

Lemma digit_at digits d : length digits = 16%nat -> 0 <= d < 16 -> aget digits d = Some (nth (Z.to_nat d) digits 0).
Proof.
  intros Hl Hd. destruct (aget_in digits d) as [c Hc]; [lia|]. rewrite Hc. f_equal.
  unfold aget in Hc. destruct (0 <=? d); [|done]. symmetry. by apply nth_lookup_Some.
Qed.

Lemma numeral_length digits base x n : (length (numeral_of digits base x n) <= n)%nat.
Proof.
  revert x. induction n as [|n IH]; intros x; cbn; [done|]. destruct (x <? base); cbn; [lia|].
  rewrite length_app. cbn. specialize (IH (x / base)). lia.
Qed.

(** The loop appends the digits of [x], least significant first. *)
Lemma digit_loop_spec digits base n fuel x b :
  good_digits digits -> 2 <= base <= 16 -> 0 <= x < base ^ Z.of_nat n -> (0 < n <= fuel)%nat ->
  (length b + n <= 16)%nat ->
  digit_loop digits base x b fuel = Some (b ++ rev (numeral_of digits base x n)).
Proof.
  intros [Hl _] Hb. revert x b fuel. induction n as [|n IH]; intros x b fuel Hx Hf Hlen; [lia|].
  destruct fuel as [|fuel]; [lia|]. cbn [digit_loop numeral_of].
  assert (Hm : 0 <= x mod base < base) by (apply Z.mod_pos_bound; lia).
  rewrite digit_at by lia. cbn. unfold push. rewrite (proj2 (Nat.ltb_lt _ _)) by lia. cbn.
  destruct (Z.ltb_spec x base) as [Hlt|Hge].
  - rewrite Z.mod_small, Z.div_small by lia. done.
  - pose proof (div_bound x base n ltac:(lia) Hx Hge) as Hdiv. rewrite (proj2 (Z.eqb_neq (x / base) 0)) by lia.
    destruct n as [|n]; [cbn in Hdiv; lia|].
    rewrite IH; [|lia|lia|rewrite length_app; cbn; lia]. by rewrite rev_unit, <- app_assoc.
Qed.

(** *** Formats *)

(** A format is a sequence of directives; [chr] tells whether [%c] is one. *)
Inductive directive :=
| Plain (c : Z)          (* a character *)
| Dec                    (* %d *)
| Hex                    (* %x, %p *)
| Str                    (* %s *)
| Chr                    (* %c *)
| Other (c : Z).         (* % and any other character *)

Definition directive_of (chr : bool) (c : Z) : directive :=
  if c =? 100 then Dec
  else if (c =? 120) || (c =? 112) then Hex
  else if c =? 115 then Str
  else if chr && (c =? 99) then Chr
  else Other c.

Fixpoint directives (chr : bool) (fmt : list Z) : list directive :=
  match fmt with
  | [] => []
  | c :: r =>
      if negb (c =? pct) then Plain c :: directives chr r
      else match r with
      | [] => []
      | c :: r => directive_of chr c :: directives chr r
      end
  end.

(** Number of arguments a directive takes. *)
Definition arity (d : directive) : nat :=
  match d with Plain _ | Other _ => 0 | _ => 1 end.

(** What a directive prints, given the word of its argument: signed decimal,
    unsigned hexadecimal, a string, a character. *)
Definition text (digits : list Z) (str : Z -> list Z) (d : directive) (w : Z) : list Z :=
  match d with
  | Plain c => [c]
  | Dec => decimal digits (i32 w)
  | Hex => hexadecimal digits (u32 w)
  | Str => if w =? 0 then lit "(null)" else str w
  | Chr => [u8 w]
  | Other c => if c =? pct then [pct] else [pct; c]
  end.

(** The directives print one after the other, each taking its argument. *)
Fixpoint render (digits : list Z) (ap : nat -> Z) (str : Z -> list Z) (ds : list directive) (k : nat) : list Z :=
  match ds with
  | [] => []
  | d :: ds => text digits str d (ap k) ++ render digits ap str ds (k + arity d)
  end.

Lemma print_d_text digits str w : good_digits digits -> print_d digits w = Some (text digits str Dec w).
Proof.
  intros Hd. unfold print_d, printint, text, decimal. assert (- 2 ^ 31 <= i32 w < 2 ^ 31) by (unfold i32; dlia).
  cbn [andb]. destruct (Z.ltb_spec (i32 w) 0).
  - rewrite u32_small, (digit_loop_spec _ _ 10) by (done || lia || (cbn; lia)). cbn [mbind option_bind app].
    assert (Hlen : (length (numeral_of digits 10 (- i32 w) 10) <= 10)%nat) by apply numeral_length.
    unfold push. rewrite length_rev, (proj2 (Nat.ltb_lt _ _)) by lia. cbn [mbind option_bind].
    by rewrite rev_unit, rev_involutive.
  - rewrite u32_small, (digit_loop_spec _ _ 10) by (done || lia || (cbn; lia)). cbn [mbind option_bind app].
    by rewrite rev_involutive.
Qed.

Lemma print_x_text digits str w : good_digits digits -> print_x digits w = Some (text digits str Hex w).
Proof.
  intros Hd. unfold print_x, printint, text, hexadecimal. cbn [andb].
  assert (u32 (i32 w) = u32 w) as -> by apply i32_eqm. pose proof (u32_range w) as Hr. unfold is_u32 in Hr.
  rewrite (digit_loop_spec _ _ 8) by (done || lia || (cbn; lia)). cbn [mbind option_bind app].
  by rewrite rev_involutive.
Qed.

Section render.
Variables (ap : nat -> Z) (str : Z -> list Z).

(** Follows the chain of comparisons a directive is found by. *)
Ltac directive_cases :=
  unfold directive_of; repeat match goal with
  | |- context [if ?b then _ else _] => destruct b eqn:?
  end; cbn [andb orb] in *; try congruence.

Lemma cprintf_step c r k :
  cprintf_loop ap str (pct :: c :: r) k =
    (os ← cprintf_loop ap str r (k + arity (directive_of false c));
     Some (text kdigits str (directive_of false c) (ap k) ++ os)).
Proof.
  cbn [cprintf_loop]. change (negb (pct =? pct)) with false. cbv iota. unfold kprintint.
  fold (print_d kdigits (ap k)) (print_x kdigits (ap k)).
  rewrite (print_d_text kdigits str), (print_x_text kdigits str) by apply kdigits_good.
  directive_cases; rewrite ?Nat.add_1_r, ?Nat.add_0_r; try done; cbn [text];
    repeat match goal with H : ?b = _ |- context [if ?b then _ else _] => rewrite H end; done.
Qed.

Lemma printf_step c r k :
  printf_loop ap str (c :: r) true k =
    (os ← printf_loop ap str r false (k + arity (directive_of true c));
     Some (text udigits str (directive_of true c) (ap k) ++ os)).
Proof.
  destruct (Z.eq_dec c pct) as [->|Hne]; [cbn [printf_loop negb]; cbn; by rewrite Nat.add_0_r|].
  cbn [printf_loop negb]. rewrite (proj2 (Z.eqb_neq c pct) Hne).
  rewrite (print_d_text udigits str), (print_x_text udigits str) by apply udigits_good.
  directive_cases; rewrite ?Nat.add_1_r, ?Nat.add_0_r; try done; cbn [text];
    rewrite ?(proj2 (Z.eqb_neq c pct) Hne); done.
Qed.

(** A loop that prints plain characters as they are, and a directive followed
    by the rest of the format, renders every format. *)
Lemma loop_renders digits f chr :
  (forall k, f [] k = Some []) -> (forall k, f [pct] k = Some []) ->
  (forall c r k, c <> pct -> f (c :: r) k = (o ← f r k; Some (c :: o))) ->
  (forall c r k, f (pct :: c :: r) k =
      (os ← f r (k + arity (directive_of chr c))%nat;
       Some (text digits str (directive_of chr c) (ap k) ++ os))) ->
  forall fmt k, f fmt k = Some (render digits ap str (directives chr fmt) k).
Proof.
  intros H1 H2 H3 H4 fmt. induction fmt as [fmt IH] using (induction_ltof1 _ (@length Z)).
  unfold ltof in IH. destruct fmt as [|c r]; intros k; [done|].
  destruct (Z.eq_dec c pct) as [->|Hc].
  - destruct r as [|c r]; [done|]. rewrite H4, IH by (cbn; lia). done.
  - rewrite H3, IH by (done || (cbn; lia)). cbn. rewrite (proj2 (Z.eqb_neq c pct) Hc). cbn.
    by rewrite Nat.add_0_r.
Qed.

(** C38: [printf] prints exactly the rendering of its format: a character as it
    is, and for each directive its own argument, as the decimal numeral of a
    signed word, the hexadecimal numeral of an unsigned one with upper-case
    digits, both without needless zeros, a string or a character.  It never
    writes outside the 16 bytes its digits are built in. *)
Theorem printf_renders fmt :
  printf ap str fmt = Some (render udigits ap str (directives true fmt) 0) /\
  (forall w,
    numeral 10 (numeral_of udigits 10 (u32 w) 10) = u32 w /\ canonical (numeral_of udigits 10 (u32 w) 10) /\
    numeral 16 (hexadecimal udigits (u32 w)) = u32 w /\ canonical (hexadecimal udigits (u32 w))).
Proof.
  split.
  - apply (loop_renders udigits (fun fmt => printf_loop ap str fmt false) true); [done|done| |intros; apply printf_step].
    intros c r k Hc. cbn. by rewrite (proj2 (Z.eqb_neq c pct) Hc).
  - intros w. pose proof (u32_range w) as Hw. unfold is_u32 in Hw.
    destruct (numeral_of_value udigits 10 10 (u32 w) udigits_good) as (? & ? & _); [lia|lia|lia|].
    destruct (numeral_of_value udigits 16 8 (u32 w) udigits_good) as (? & ? & _); [lia|lia|lia|]. done.
Qed.

(** [cprintf] prints the rendering of its format, with lower-case digits and
    [%c] as it stands. *)
Theorem cprintf_renders fmt :
  cprintf_chars ap str fmt = Some (render kdigits ap str (directives false fmt) 0).
Proof.
  apply (loop_renders kdigits (cprintf_loop ap str) false); [done|done| |apply cprintf_step].
  intros c r k Hc. cbn. by rewrite (proj2 (Z.eqb_neq c pct) Hc).
Qed.

End render.

(** *** Bytes *)

Abbreviation bytes := (Forall (fun c => 0 <= c < 256)).

Lemma lit_bytes s : bytes (lit s).
Proof.
  induction s as [|a s IH]; constructor; [|done]. pose proof (Ascii.N_ascii_bounded a). lia.
Qed.

Lemma digit_loop_bytes digits base fuel : forall x b o,
  bytes digits -> bytes b -> digit_loop digits base x b fuel = Some o -> bytes o.
Proof.
  induction fuel as [|fuel IH]; intros x b o Hd Hb; cbn [digit_loop]; [done|].
  destruct (aget digits (x mod base)) as [d|] eqn:E; [|done]. cbn. unfold push.
  destruct (_ <? 16)%nat; [|done]. cbn.
  assert (bytes (b ++ [d])).
  { apply Forall_app. split; [done|]. constructor; [|constructor]. unfold aget in E.
    destruct (0 <=? _); [|done]. by eapply (Forall_lookup_1 _ _ _ _ Hd). }
  destruct (_ =? 0); [by intros [= <-]|by apply IH].
Qed.

Lemma printint_bytes digits xx base sgn o :
  bytes digits -> printint digits xx base sgn = Some o -> bytes o.
Proof.
  intros Hd. unfold printint. destruct (digit_loop _ _ _ _ _) as [b|] eqn:E; [|done]. cbn.
  apply digit_loop_bytes in E; [|done|constructor].
  destruct (sgn && _); cbn; [unfold push; destruct (_ <? 16)%nat; [|done]; cbn|]; intros [= <-];
    apply Forall_rev; [|done]. apply Forall_app. split; [done|]. constructor; [unfold minus; lia|constructor].
Qed.

(** [cprintf] of bytes prints bytes. *)
Lemma cprintf_bytes ap str fmt k o :
  bytes fmt -> (forall p, bytes (str p)) -> cprintf_loop ap str fmt k = Some o -> bytes o.
Proof.
  intros Hf Hs. revert k o Hf. induction fmt as [fmt IH] using (induction_ltof1 _ (@length Z)).
  unfold ltof in IH. intros k o Hf. pose proof (lit_bytes _ : bytes kdigits).
  assert (Hstr : forall p, bytes (str_arg str p)).
  { intros q. unfold str_arg. destruct (q =? 0); [apply lit_bytes|done]. }
  assert (0 <= pct < 256) by (unfold pct; lia).
  assert (Hrest : forall r k w o, (length r < length fmt)%nat -> bytes r -> bytes w ->
    (o' ← cprintf_loop ap str r k; Some (w ++ o')) = Some o -> bytes o).
  { intros r k' w o' Hr Hbr Hw. destruct (cprintf_loop ap str r k') eqn:E; [|done]. intros [= <-].
    apply Forall_app. split; [done|]. by eapply IH. }
  destruct fmt as [|c r]; [by intros [= <-]|]. apply Forall_cons in Hf as [Hc Hr]. cbn [cprintf_loop].
  destruct (negb (c =? pct)); [apply (Hrest r k [c]); [cbn; lia|done|by constructor]|].
  destruct r as [|c' r]; [by intros [= <-]|]. apply Forall_cons in Hr as [Hc' Hr].
  assert (length r < length (c :: c' :: r))%nat by (cbn; lia).
  destruct (c' =? 100); [|destruct ((c' =? 120) || (c' =? 112)); [|destruct (c' =? 115); [|destruct (c' =? pct)]]].
  - destruct (kprintint (i32 (ap k)) 10 true) eqn:E; [|done]. apply Hrest; [done|done|by eapply printint_bytes].
  - destruct (kprintint (i32 (ap k)) 16 false) eqn:E; [|done]. apply Hrest; [done|done|by eapply printint_bytes].
  - by apply Hrest.
  - apply (Hrest r k [pct]); [done|done|by constructor].
  - apply (Hrest r k [pct; c']); [done|done|]. constructor; [done|]. by constructor.
Qed.

(** *** A concrete run *)
Lemma printf_example :
  printf (fun k => nth k [2 ^ 32 - 42; 255; 0; 65] 0) (fun _ => lit "abc") (lit "%d 0x%x %s%c%%%q") =
    Some (lit "-42 0xFF (null)A%%q").
Proof. reflexivity. Qed.

End Printf.
