(* ===== verification/Kbd.v ===== *)
(** The keyboard (kbd.h, kbd.c): scan codes to characters.

    [st] and [data] are what the controller's status and data ports hold when
    [kbdgetc] reads them; [shift] is its static variable. *)

From stdpp Require Import base numbers list strings.
From Stdlib Require Import ZArith Lia.
From S2P Require Import Prelude.

Module Kbd.

Definition KBS_DIB : Z := 0x01.

Definition NO : Z := 0.
Definition SHIFT : Z := Z.shiftl 1 0.
Definition CTL : Z := Z.shiftl 1 1.
Definition ALT : Z := Z.shiftl 1 2.
Definition CAPSLOCK : Z := Z.shiftl 1 3.
Definition NUMLOCK : Z := Z.shiftl 1 4.
Definition SCROLLLOCK : Z := Z.shiftl 1 5.
Definition E0ESC : Z := Z.shiftl 1 6.

Definition KEY_HOME : Z := 0xE0.
Definition KEY_END : Z := 0xE1.
Definition KEY_UP : Z := 0xE2.
Definition KEY_DN : Z := 0xE3.
Definition KEY_LF : Z := 0xE4.
Definition KEY_RT : Z := 0xE5.
Definition KEY_PGUP : Z := 0xE6.
Definition KEY_PGDN : Z := 0xE7.
Definition KEY_INS : Z := 0xE8.
Definition KEY_DEL : Z := 0xE9.

Definition C (x : Z) : Z := x - 64.

(** [static uchar a[256] = { x0, x1, ..., [i] y, ... }] *)
Definition table (first : list Z) (at_index : list (Z * Z)) : list Z :=
  map u8 (foldl (fun a '(i, y) => <[Z.to_nat i := y]> a)
    (first ++ replicate (256 - length first) 0) at_index).

Definition shiftcode : list Z :=
  table [] [(0x1D, CTL); (0x2A, SHIFT); (0x36, SHIFT); (0x38, ALT); (0x9D, CTL); (0xB8, ALT)].

Definition togglecode : list Z := table [] [(0x3A, CAPSLOCK); (0x45, NUMLOCK); (0x46, SCROLLLOCK)].

Definition normalmap : list Z := table [
    NO; 0x1B; 49; 50; 51; 52; 53; 54;
    55; 56; 57; 48; 45; 61; 8; 9;
    113; 119; 101; 114; 116; 121; 117; 105;
    111; 112; 91; 93; 10; NO; 97; 115;
    100; 102; 103; 104; 106; 107; 108; 59;
    39; 96; NO; 92; 122; 120; 99; 118;
    98; 110; 109; 44; 46; 47; NO; 42;
    NO; 32; NO; NO; NO; NO; NO; NO;
    NO; NO; NO; NO; NO; NO; NO; 55;
    56; 57; 45; 52; 53; 54; 43; 49;
    50; 51; 48; 46; NO; NO; NO; NO]
  [(0x9C, 10); (0xB5, 47); (0xC8, KEY_UP); (0xD0, KEY_DN); (0xC9, KEY_PGUP); (0xD1, KEY_PGDN);
     (0xCB, KEY_LF); (0xCD, KEY_RT); (0x97, KEY_HOME); (0xCF, KEY_END); (0xD2, KEY_INS); (0xD3,
     KEY_DEL)].

Definition shiftmap : list Z := table [
    NO; 0x1B; 33; 64; 35; 36; 37; 94;
    38; 42; 40; 41; 95; 43; 8; 9;
    81; 87; 69; 82; 84; 89; 85; 73;
    79; 80; 123; 125; 10; NO; 65; 83;
    68; 70; 71; 72; 74; 75; 76; 58;
    34; 126; NO; 124; 90; 88; 67; 86;
    66; 78; 77; 60; 62; 63; NO; 42;
    NO; 32; NO; NO; NO; NO; NO; NO;
    NO; NO; NO; NO; NO; NO; NO; 55;
    56; 57; 45; 52; 53; 54; 43; 49;
    50; 51; 48; 46; NO; NO; NO; NO]
  [(0x9C, 10); (0xB5, 47); (0xC8, KEY_UP); (0xD0, KEY_DN); (0xC9, KEY_PGUP); (0xD1, KEY_PGDN);
     (0xCB, KEY_LF); (0xCD, KEY_RT); (0x97, KEY_HOME); (0xCF, KEY_END); (0xD2, KEY_INS); (0xD3,
     KEY_DEL)].

Definition ctlmap : list Z := table [
    NO; NO; NO; NO; NO; NO; NO; NO;
    NO; NO; NO; NO; NO; NO; NO; NO;
    C 81; C 87; C 69; C 82; C 84; C 89; C 85; C 73;
    C 79; C 80; NO; NO; 13; NO; C 65; C 83;
    C 68; C 70; C 71; C 72; C 74; C 75; C 76; NO;
    NO; NO; NO; C 92; C 90; C 88; C 67; C 86;
    C 66; C 78; C 77; NO; NO; C 47; NO; NO]
  [(0x9C, 13); (0xB5, C 47); (0xC8, KEY_UP); (0xD0, KEY_DN); (0xC9, KEY_PGUP); (0xD1,
     KEY_PGDN); (0xCB, KEY_LF); (0xCD, KEY_RT); (0x97, KEY_HOME); (0xCF, KEY_END); (0xD2, KEY_INS);
     (0xD3, KEY_DEL)].

Definition charcode : list (list Z) := [normalmap; shiftmap; ctlmap; ctlmap].

(** The character, and the new [shift]; [None] is an index outside a table. *)
Definition kbdgetc (st data shift : Z) : option (Z * Z) :=
  if Z.land st KBS_DIB =? 0 then Some (-1, shift)
  else if data =? 0xE0 then Some (0, Z.lor shift E0ESC)
  else if nz (Z.land data 0x80) then
    let data := if nz (Z.land shift E0ESC) then data else Z.land data 0x7F in
    s ← aget shiftcode data;
    Some (0, Z.land shift (Z.lnot (Z.lor s E0ESC)))
  else
    let '(data, shift) :=
      if nz (Z.land shift E0ESC) then (Z.lor data 0x80, Z.land shift (Z.lnot E0ESC))
      else (data, shift) in
    s ← aget shiftcode data;
    t ← aget togglecode data;
    let shift := Z.lxor (Z.lor shift s) t in
    m ← aget charcode (Z.land shift (Z.lor CTL SHIFT));
    c ← aget m data;
    let c :=
      if nz (Z.land shift CAPSLOCK) then
        if (97 <=? c) && (c <=? 122) then c - 32
        else if (65 <=? c) && (c <=? 90) then c + 32
        else c
      else c in
    Some (c, shift).

(** *** Exhaustive checks

    [shift] has seven bits and a scan code eight: a decidable property of all
    of them is evaluated. *)

Definition upto (n : nat) : list Z := map Z.of_nat (seq 0 n).

Lemma upto_forall n (p : Z -> bool) :
  forallb p (upto n) = true -> forall x, 0 <= x < Z.of_nat n -> p x = true.
Proof.
  intros H x Hx. rewrite forallb_forall in H. apply H. unfold upto. apply in_map_iff.
  exists (Z.to_nat x). rewrite in_seq. lia.
Qed.

Lemma all_keys (p : Z -> Z -> bool) :
  forallb (fun d => forallb (p d) (upto 128)) (upto 256) = true ->
  forall d s, 0 <= d < 256 -> 0 <= s < 128 -> p d s = true.
Proof.
  intros H d s Hd Hs. apply (upto_forall 128); [|done].
  by apply (upto_forall 256 (fun d => forallb (p d) (upto 128))).
Qed.

(** Whatever the keyboard sends, [kbdgetc] stays inside its tables and
    returns -1 or a byte, and its state stays within the seven flags. *)
Theorem kbdgetc_total st data shift (Hd : 0 <= data < 256) (Hs : 0 <= shift < 128) :
  exists c shift', kbdgetc st data shift = Some (c, shift') /\ -1 <= c < 256 /\ 0 <= shift' < 128.
Proof.
  set (p := fun d s => match kbdgetc 1 d s with
    | Some (c, s') => (-1 <=? c) && (c <? 256) && (0 <=? s') && (s' <? 128) | None => false end).
  pose proof (all_keys p ltac:(by vm_compute) data shift Hd Hs) as H. unfold p in H.
  destruct (Z.land st KBS_DIB =? 0) eqn:E.
  - exists (-1), shift. unfold kbdgetc. rewrite E. done.
  - assert (kbdgetc st data shift = kbdgetc 1 data shift) as ->.
    { unfold kbdgetc. by rewrite E. }
    destruct (kbdgetc 1 data shift) as [[c s']|]; [|done].
    exists c, s'. rewrite !andb_true_iff, !Z.leb_le, !Z.ltb_lt in H. split; [done|lia].
Qed.

(** Flags held in [shift]. *)
Definition has (shift f : Z) : bool := nz (Z.land shift f).

(** The code of a letter on the keyboard. *)
Definition letter_key (data l : Z) : Prop := aget normalmap data = Some l /\ 97 <= l <= 122.

(** A letter key gives the control character of its letter while Ctl is
    held, and else the letter, in upper case when exactly one of Shift and
    Caps Lock is on; the flags do not change. *)
Theorem kbdgetc_letter st data shift l
  (Hst : has st KBS_DIB = true) (Hl : letter_key data l) (Hd : 0 <= data < 128)
  (Hs : 0 <= shift < 64) :
  kbdgetc st data shift = Some (
    if has shift CTL then l - 96
    else if xorb (has shift SHIFT) (has shift CAPSLOCK) then l - 32 else l, shift).
Proof.
  set (p := fun d s => negb (s <? 64) || negb (d <? 128) || match aget normalmap d with
    | Some l => negb ((97 <=? l) && (l <=? 122)) ||
        bool_decide (kbdgetc 1 d s = Some (if has s CTL then l - 96
          else if xorb (has s SHIFT) (has s CAPSLOCK) then l - 32 else l, s))
    | None => true end).
  pose proof (all_keys p ltac:(by vm_compute) data shift ltac:(lia) ltac:(lia)) as H. unfold p in H.
  destruct Hl as [Hl Hr]. rewrite Hl in H.
  rewrite (proj2 (Z.ltb_lt shift 64)), (proj2 (Z.ltb_lt data 128)) in H by lia.
  rewrite (proj2 (Z.leb_le 97 l)), (proj2 (Z.leb_le l 122)) in H by lia.
  apply bool_decide_eq_true in H. rewrite <- H. unfold has, nz in Hst. apply negb_true_iff in Hst.
  unfold kbdgetc. by rewrite Hst.
Qed.

(** The keys that act while they are held, and those that toggle; the code is
    the scan code, with the high bit set after an [0xE0] byte. *)
Definition holds_flag (code f : Z) : Prop := aget shiftcode code = Some f /\ f <> 0.
Definition toggles_flag (code f : Z) : Prop := aget togglecode code = Some f /\ f <> 0.

(** What the keyboard sends when a key goes down and when it comes up. *)
Definition make (code : Z) : list Z := if code <? 128 then [code] else [0xE0; code - 128].
Definition break (code : Z) : list Z := if code <? 128 then [code + 128] else [0xE0; code].

Fixpoint type (bytes : list Z) (shift : Z) : option Z :=
  match bytes with
  | [] => Some shift
  | b :: r => '(_, s) ← kbdgetc KBS_DIB b shift; type r s
  end.

(** Pressing Shift, Ctl or Alt, on either side, sets its flag and releasing
    it clears it; pressing a lock key flips its flag and releasing it changes
    nothing.  The other flags stay. *)
Theorem modifiers_tracked code shift f (Hc : 0 <= code < 256) (Hs : 0 <= shift < 64) :
  (holds_flag code f ->
     type (make code) shift = Some (Z.lor shift f) /\
     type (break code) shift = Some (Z.ldiff shift f)) /\
  (toggles_flag code f ->
     type (make code) shift = Some (Z.lxor shift f) /\ type (break code) shift = Some shift).
Proof.
  set (q := fun c s (tbl : list Z) (m b : Z -> Z) => match aget tbl c with
    | Some f => (f =? 0) || bool_decide (type (make c) s = Some (m f)) &&
        bool_decide (type (break c) s = Some (b f))
    | None => true end).
  set (p := fun c s => negb (s <? 64) ||
    (q c s shiftcode (Z.lor s) (Z.ldiff s) && q c s togglecode (Z.lxor s) (fun _ => s))).
  pose proof (all_keys p ltac:(by vm_compute) code shift ltac:(lia) ltac:(lia)) as H.
  unfold p, q in H. rewrite (proj2 (Z.ltb_lt shift 64)) in H by lia. cbn [negb orb] in H.
  apply andb_true_iff in H as [H1 H2].
  split; intros [Ef Hf]; [rewrite Ef in H1; rename H1 into H|rewrite Ef in H2; rename H2 into H];
    rewrite (proj2 (Z.eqb_neq f 0) Hf), orb_false_l, andb_true_iff, !bool_decide_eq_true in H; done.
Qed.

(** *** Typing

    What a user does, and what it means: keys go down and come up, Shift, Ctl
    and Alt act while they are held, the lock keys change sides when they go
    down, and a key that goes down is a character. *)
Record mods := mkMods { sh : bool; ctl : bool; alt : bool; caps : bool; num : bool; scroll : bool }.
#[export] Instance mods_eq_dec : EqDecision mods.
Proof. solve_decision. Defined.
#[export] Instance eta_mods : Eta mods := fun m =>
  mkMods m.(sh) m.(ctl) m.(alt) m.(caps) m.(num) m.(scroll).

(** [shift] for these modifiers, when no [0xE0] byte is pending. *)
Definition flags (m : mods) : Z :=
  Z.b2z (sh m) + 2 * Z.b2z (ctl m) + 4 * Z.b2z (alt m) + 8 * Z.b2z (caps m) +
  16 * Z.b2z (num m) + 32 * Z.b2z (scroll m).

(** A key is its scan code, plus 128 for those that send [0xE0] first: the
    shift keys left and right, the two Ctl and Alt keys and the locks. *)
Definition hold (code : Z) (down : bool) (m : mods) : mods :=
  if bool_decide (code ∈ [0x2A; 0x36]) then m <| sh := down |>
  else if bool_decide (code ∈ [0x1D; 0x9D]) then m <| ctl := down |>
  else if bool_decide (code ∈ [0x38; 0xB8]) then m <| alt := down |>
  else m.
Definition lock (code : Z) (m : mods) : mods :=
  if code =? 0x3A then m <| caps ::= negb |>
  else if code =? 0x45 then m <| num ::= negb |>
  else if code =? 0x46 then m <| scroll ::= negb |>
  else m.

Definition swap_case (c : Z) : Z :=
  if (97 <=? c) && (c <=? 122) then c - 32
  else if (65 <=? c) && (c <=? 90) then c + 32 else c.

(** The character on a key. *)
Definition legend (m : mods) (code : Z) : Z :=
  let c := nth (Z.to_nat code) (if ctl m then ctlmap else if sh m then shiftmap else normalmap) 0 in
  if caps m then swap_case c else c.

Inductive key := Press (code : Z) | Release (code : Z).

Definition key_bytes (k : key) : list Z :=
  match k with Press code => make code | Release code => break code end.
Definition after_key (k : key) (m : mods) : mods :=
  match k with Press code => lock code (hold code true m) | Release code => hold code false m end.
Definition key_char (k : key) (m : mods) : list Z :=
  match k with
  | Press code => filter (fun c => c <> 0) [legend (after_key k m) code]
  | Release _ => []
  end.

(** The keys that a keyboard can have: no byte of theirs but the first is
    [0xE0]. *)
Definition key_ok (k : key) : Prop :=
  let code := match k with Press code => code | Release code => code end in
  0 <= code < 256 /\ code <> 0x60 /\ code <> 0xE0.

Fixpoint typing (ks : list key) (m : mods) : list Z * mods :=
  match ks with
  | [] => ([], m)
  | k :: ks => let '(cs, m') := typing ks (after_key k m) in (key_char k m ++ cs, m')
  end.

(** The characters that [kbdgetc] returns for the bytes, but for the zeros,
    which [consoleintr] passes over, and its [shift] in the end. *)
Fixpoint received (bytes : list Z) (shift : Z) : option (list Z * Z) :=
  match bytes with
  | [] => Some ([], shift)
  | b :: r =>
      '(c, s) ← kbdgetc KBS_DIB b shift;
      '(cs, s') ← received r s;
      Some (filter (fun c => c <> 0) [c] ++ cs, s')
  end.

Definition all_mods : list mods :=
  map (fun s => mkMods (Z.testbit s 0) (Z.testbit s 1) (Z.testbit s 2) (Z.testbit s 3)
    (Z.testbit s 4) (Z.testbit s 5)) (upto 64).

Lemma in_all_mods m : m ∈ all_mods.
Proof.
  destruct m as [[] [] [] [] [] []]; apply (bool_decide_eq_true_1 (_ ∈ _)); by vm_compute.
Qed.

Lemma received_app b1 b2 s cs s1 : received b1 s = Some (cs, s1) ->
  received (b1 ++ b2) s = ('(cs', s') ← received b2 s1; Some (cs ++ cs', s')).
Proof.
  revert s cs. induction b1 as [|b b1 IH]; intros s cs H; cbn in *.
  { injection H as <- <-. by destruct (received b2 s) as [[? ?]|]. }
  destruct (kbdgetc KBS_DIB b s) as [[c s0]|]; [|done]. cbn in *.
  destruct (received b1 s0) as [[cs0 s0']|] eqn:E; [|done]. cbn in H. injection H as <- <-.
  rewrite (IH s0 cs0 E). destruct (received b2 s0') as [[cs' s']|]; [|done]. cbn. by rewrite app_assoc.
Qed.

(** One key, by evaluation of all. *)
Lemma key_received k m : key_ok k -> received (key_bytes k) (flags m) = Some (key_char k m, flags (after_key k m)).
Proof.
  set (ok := fun mk code => bool_decide (code = 0x60) || bool_decide (code = 0xE0) ||
    forallb (fun m => bool_decide (received (key_bytes (mk code)) (flags m) =
      Some (key_char (mk code) m, flags (after_key (mk code) m)))) all_mods).
  assert (H : forallb (fun code => ok Press code && ok Release code) (upto 256) = true) by by vm_compute.
  intros Hk. pose proof (upto_forall 256 _ H) as Hall.
  assert (Hm : forall mk code, ok mk code = true -> key_ok (mk code) -> code <> 0x60 -> code <> 0xE0 ->
    received (key_bytes (mk code)) (flags m) = Some (key_char (mk code) m, flags (after_key (mk code) m))).
  { intros mk code Hok _ H1 H2. unfold ok in Hok. rewrite (bool_decide_false (code = 0x60)) in Hok by done.
    rewrite (bool_decide_false (code = 0xE0)) in Hok by done. cbn [orb] in Hok.
    rewrite forallb_forall in Hok. specialize (Hok m (proj1 (list_elem_of_In _ _) (in_all_mods m))).
    by apply bool_decide_eq_true_1 in Hok. }
  destruct k as [code|code]; pose proof Hk as (Hr & H1 & H2); specialize (Hall code Hr);
    apply andb_true_iff in Hall as [Hp Hrel]; by apply Hm.
Qed.

(** C32: [kbdgetc] decodes a keyboard: whatever keys go down and come up, in
    any order, the characters it returns are those on the keys that went down,
    read with Ctl, Shift and Caps Lock as they are then, and its flags follow
    the modifier and lock keys; with no byte waiting it returns -1 and keeps
    its flags. *)
Theorem keys_typed ks m (Hks : Forall key_ok ks) :
  received (concat (map key_bytes ks)) (flags m) =
    Some ((typing ks m).1, flags (typing ks m).2) /\
  forall st data, Z.land st KBS_DIB = 0 -> kbdgetc st data (flags m) = Some (-1, flags m).
Proof.
  split; [|intros st data Hst; unfold kbdgetc; by rewrite Hst].
  revert m. induction Hks as [|k ks Hk Hks IH]; intros m; [done|].
  cbn [map concat typing]. rewrite (received_app _ _ _ _ _ (key_received k m Hk)), IH.
  by destruct (typing ks (after_key k m)).
Qed.

(** *** Concrete runs *)

(** Shift down, a, Shift up, Caps Lock, b, right Ctl down, c. *)
Lemma keys_typed_witness :
  received [0x2A; 0x1E; 0x9E; 0xAA; 0x3A; 0xBA; 0x30; 0xB0; 0xE0; 0x1D; 0x2E] 0 = Some ([65; 66; 3], 10).
Proof.
  refine (proj1 (keys_typed [Press 0x2A; Press 0x1E; Release 0x1E; Release 0x2A; Press 0x3A; Release 0x3A;
    Press 0x30; Release 0x30; Press 0x9D; Press 0x2E] (mkMods false false false false false false) _)).
  repeat (constructor; [split_and!; done|]). constructor.
Defined.

Lemma kbdgetc_letter_witness : kbdgetc 1 0x1E 9 = Some (97, 9).
Proof. apply (kbdgetc_letter 1 0x1E 9 97); [by vm_compute|split; [by vm_compute|lia]|lia|lia]. Defined.

Lemma modifiers_tracked_witness :
  type (make 0x9D) 8 = Some 10 /\ type (break 0x9D) 10 = Some 8 /\ type (make 0x3A) 0 = Some 8.
Proof.
  split; [apply (proj1 (modifiers_tracked 0x9D 8 CTL ltac:(lia) ltac:(lia))); split; by vm_compute|].
  split; [apply (proj1 (modifiers_tracked 0x9D 10 CTL ltac:(lia) ltac:(lia))); split; by vm_compute|].
  apply (proj2 (modifiers_tracked 0x3A 0 CAPSLOCK ltac:(lia) ltac:(lia))); split; by vm_compute.
Defined.

End Kbd.
