(* ===== verification/Grep.v ===== *)
(** The pattern matcher and the line loop of grep.c.

    A C string is the bytes before its terminating 0, so [re[0] == 0] is the
    empty list, [re + 1] its tail. *)

From stdpp Require Import base numbers list strings.
From Stdlib Require Import ZArith Lia.
From S2P Require Import Prelude Printf.
Import Printf.

Module Grep.

Definition caret : Z := 94.
Definition star : Z := 42.
Definition dollar : Z := 36.
Definition dot : Z := 46.
Definition newline : Z := 10.

(** [matchstar c re text], given [matchhere re]: it ends with the text. *)
Fixpoint matchstar (here : list Z -> bool) (c : Z) (text : list Z) : bool :=
  here text ||
  match text with
  | t :: text => ((t =? c) || (c =? dot)) && matchstar here c text
  | [] => false
  end.

Fixpoint matchhere (re text : list Z) : bool :=
  match re with
  | [] => true
  | c :: re1 =>
      match re1 with
      | s :: re2 =>
          if s =? star then matchstar (matchhere re2) c text
          else match text with
               | t :: text => ((c =? dot) || (c =? t)) && matchhere re1 text
               | [] => false
               end
      | [] =>
          if c =? dollar then match text with [] => true | _ => false end
          else match text with
               | t :: text => ((c =? dot) || (c =? t)) && matchhere re1 text
               | [] => false
               end
      end
  end.

(** [do if (matchhere(re, text)) return 1; while ( *text++ != 0)] *)
Fixpoint match_any (re text : list Z) : bool :=
  matchhere re text || match text with [] => false | _ :: text => match_any re text end.

Definition match_ (re text : list Z) : bool :=
  match re with
  | c :: r => if c =? caret then matchhere r text else match_any re text
  | [] => match_any re text
  end.

(** *** The line loop *)

(** What [grep] reads from: [read s n] are at most [n] bytes, none at the end. *)
Class Reader (S : Type) := read : S -> Z -> list Z * S.

(** [strchr(p, '\n')]: the bytes before the newline and those after it. *)
Fixpoint strchr_nl (p : list Z) : option (list Z * list Z) :=
  match p with
  | [] => None
  | c :: r =>
      if c =? 0 then None
      else if c =? newline then Some ([], r)
      else '(l, q) ← strchr_nl r; Some (c :: l, q)
  end.

(** The inner loop: the lines of the buffer, each at least one byte long, and
    what follows the last. *)
Fixpoint lines_of (pattern p : list Z) (fuel : nat) : list (list Z) * list Z :=
  match fuel with
  | O => ([], p)
  | S f =>
      match strchr_nl p with
      | None => ([], p)
      | Some (l, q) =>
          let '(o, r) := lines_of pattern q f in
          if match_ pattern l then ((l ++ [newline]) :: o, r) else (o, r)
      end
  end.

Definition sizeof_buf : Z := 1024.

Section grep.
Context {S : Type} `{!Reader S}.

(** [grep]; [b] are the [m] bytes at the start of [buf]. The result are the
    [write]s to descriptor 1. *)
Fixpoint grep_loop (pattern : list Z) (s : S) (b : list Z) (fuel : nat) : option (list (list Z)) :=
  match fuel with
  | O => None
  | Datatypes.S f =>
      let '(bytes, s) := read s (sizeof_buf - Z.of_nat (length b) - 1) in
      if (length bytes =? 0)%nat then Some []
      else
        let b := b ++ bytes in
        let '(o, rest) := lines_of pattern b (length b) in
        let b := if (length rest =? length b)%nat then [] else rest in
        os ← grep_loop pattern s b f; Some (o ++ os)
  end.

Definition grep (pattern : list Z) (s : S) (fuel : nat) : option (list (list Z)) :=
  grep_loop pattern s [] fuel.

(** [main]: the [write]s, each with its descriptor; [None] when a loop runs
    out of fuel. *)
Variables (open : list Z -> option S) (stdin : S) (str : Z -> list Z) (argp : nat -> Z).

Definition to (fd : Z) (o : list (list Z)) : list (Z * list Z) := map (pair fd) o.

Fixpoint main_files (pattern : list Z) (i : nat) (argv : list (list Z)) (fuel : nat)
    : option (list (Z * list Z)) :=
  match argv with
  | [] => Some []
  | a :: r =>
      match open a with
      | None =>
          o ← printf (fun _ => argp i) str (lit "grep: cannot open %s" ++ [newline]);
          Some (to 1 (map (fun c => [c]) o))
      | Some s =>
          o ← grep pattern s fuel; os ← main_files pattern (i + 1) r fuel; Some (to 1 o ++ os)
      end
  end.

Definition main (argv : list (list Z)) (fuel : nat) : option (list (Z * list Z)) :=
  match argv with
  | [] | [_] =>
      o ← printf (fun _ => 0) str (lit "usage: grep pattern [file ...]" ++ [newline]);
      Some (to 2 (map (fun c => [c]) o))
  | [_; pattern] => o ← grep pattern stdin fuel; Some (to 1 o)
  | _ :: pattern :: files => main_files pattern 2 files fuel
  end.
End grep.

(** *** What a pattern means *)

(** A pattern is a sequence of items, then perhaps the end of the text. *)
Inductive item := One (c : Z) | Many (c : Z).

Fixpoint parse (re : list Z) : list item * bool :=
  match re with
  | [] => ([], false)
  | c :: re1 =>
      match re1 with
      | s :: re2 =>
          if s =? star then (Many c :: (parse re2).1, (parse re2).2)
          else (One c :: (parse re1).1, (parse re1).2)
      | [] => if c =? dollar then ([], true) else ([One c], false)
      end
  end.

Definition accepts (c t : Z) : Prop := c = dot \/ c = t.

(** The strings that a sequence of items stands for. *)
Inductive lang : list item -> list Z -> Prop :=
| lang_nil : lang [] []
| lang_one c t l w : accepts c t -> lang l w -> lang (One c :: l) (t :: w)
| lang_many c ts l w : Forall (accepts c) ts -> lang l w -> lang (Many c :: l) (ts ++ w).

(** The pattern matches at the start of a text. *)
Definition matches_at (re text : list Z) : Prop :=
  exists w rest, text = w ++ rest /\ lang (parse re).1 w /\ ((parse re).2 = true -> rest = []).

Lemma matchstar_spec here (P : list Z -> Prop) c text :
  (forall t, here t = true <-> P t) ->
  matchstar here c text = true <->
    exists ts t, text = ts ++ t /\ Forall (accepts c) ts /\ P t.
Proof.
  intros HP. induction text as [|x text IH]; cbn [matchstar]; rewrite orb_true_iff, HP.
  - split.
    + intros [H|]; [|done]. by exists [], [].
    + intros (ts & t & E & _ & Ht). symmetry in E. apply app_nil in E as [_ ->]. by left.
  - rewrite andb_true_iff, orb_true_iff, !Z.eqb_eq, IH. split.
    + intros [H|[Hx (ts & t & -> & Hts & Ht)]]; [by exists [], (x :: text)|].
      exists (x :: ts), t. split; [done|]. split; [|done]. constructor; [|done].
      unfold accepts. intuition.
    + intros ([|y ts] & t & E & Hts & Ht); cbn in E; [left; by rewrite E|right].
      injection E as -> ->. apply Forall_cons in Hts as [Hy Hts].
      split; [unfold accepts in Hy; intuition|]. by exists ts, t.
Qed.

Lemma matches_one c re text :
  (parse (c :: re)) = (One c :: (parse re).1, (parse re).2) ->
  matches_at (c :: re) text <-> exists t text', text = t :: text' /\ accepts c t /\ matches_at re text'.
Proof.
  intros E. unfold matches_at. rewrite E. cbn. split.
  - intros (w & rest & -> & Hl & He). inversion Hl as [|? t l w' Ha Hl'|]; subst.
    exists t, (w' ++ rest). split; [done|]. split; [done|]. by exists w', rest.
  - intros (t & text' & -> & Ha & w & rest & -> & Hl & He).
    exists (t :: w), rest. split; [done|]. split; [by constructor|done].
Qed.

Lemma one_char (here : list Z -> bool) c text :
  match text with t :: text => ((c =? dot) || (c =? t)) && here text | [] => false end = true <->
  exists t text', text = t :: text' /\ accepts c t /\ here text' = true.
Proof.
  destruct text as [|t text]; [split; [done|by intros (? & ? & ? & _)]|].
  rewrite andb_true_iff, orb_true_iff, !Z.eqb_eq. unfold accepts. naive_solver.
Qed.

Lemma matchhere_spec re text : matchhere re text = true <-> matches_at re text.
Proof.
  revert text. induction re as [re IH] using (induction_ltof1 _ (@length Z)). unfold ltof in IH.
  intros text. destruct re as [|c [|s re2]]; cbn [matchhere].
  - split; [|done]. intros _. exists [], text. repeat split; [constructor|done].
  - destruct (Z.eqb_spec c dollar) as [->|Hc].
    + unfold matches_at. cbn. split.
      * destruct text; [|done]. intros _. exists [], []. repeat split; constructor.
      * intros (w & rest & -> & Hl & He). inversion Hl. by rewrite He.
    + rewrite (one_char (matchhere [])), matches_one.
      2: { cbn. by rewrite (proj2 (Z.eqb_neq _ _) Hc). }
      setoid_rewrite (IH []); [done|cbn; lia].
  - destruct (Z.eqb_spec s star) as [->|Hs].
    + rewrite (matchstar_spec _ (matches_at re2)) by (intros t; apply IH; cbn; lia).
      unfold matches_at at 2. cbn. split.
      * intros (ts & t & -> & Hts & w & rest & -> & Hl & He).
        exists (ts ++ w), rest. rewrite app_assoc. split; [done|]. split; [by constructor|done].
      * intros (w & rest & -> & Hl & He). inversion Hl as [| |? ts l w' Hts Hl']; subst.
        exists ts, (w' ++ rest). rewrite app_assoc. split; [done|]. split; [done|]. by exists w', rest.
    + rewrite (one_char (matchhere (s :: re2))), matches_one.
      2: { change (parse (c :: s :: re2)) with
             (if s =? star then (Many c :: (parse re2).1, (parse re2).2)
              else (One c :: (parse (s :: re2)).1, (parse (s :: re2)).2)).
           by rewrite (proj2 (Z.eqb_neq _ _) Hs). }
      setoid_rewrite (IH (s :: re2)); [done|cbn; lia].
Qed.

Lemma match_any_spec re text :
  match_any re text = true <-> exists before after, text = before ++ after /\ matches_at re after.
Proof.
  induction text as [|t text IH]; cbn [match_any]; rewrite orb_true_iff, matchhere_spec.
  - split.
    + intros [H|]; [|done]. by exists [], [].
    + intros (b & a & E & Ha). symmetry in E. apply app_nil in E as [_ ->]. by left.
  - rewrite IH. split.
    + intros [H|(b & a & -> & Ha)]; [by exists [], (t :: text)|by exists (t :: b), a].
    + intros ([|x b] & a & E & Ha); cbn in E; [left; by rewrite E|right].
      injection E as -> ->. by exists b, a.
Qed.

(** C22: [match] finds exactly the texts of which some part, or the beginning if
    the pattern starts with [^], is in the language of the pattern: characters
    and dots, each perhaps starred, and perhaps the end of the text.  It always
    terminates. *)
Theorem match_decides re text :
  match_ re text = true <->
    (exists r, re = caret :: r /\ matches_at r text) \/
    (forall r, re <> caret :: r) /\
      exists before after, text = before ++ after /\ matches_at re after.
Proof.
  unfold match_. destruct re as [|c r]; [rewrite match_any_spec; naive_solver|].
  destruct (Z.eqb_spec c caret) as [->|Hc];
    [rewrite matchhere_spec|rewrite match_any_spec]; naive_solver.
Qed.

(** *** Files and pipes *)

(** A regular file: [read] returns as much as it is asked for. *)
#[export] Instance file_reader : Reader (list Z) := fun s n => (take (Z.to_nat n) s, drop (Z.to_nat n) s).

(** A pipe or the console: [read] returns what has been written so far. *)
#[export] Instance chunk_reader : Reader (list (list Z)) := fun s n =>
  match s with
  | [] => ([], [])
  | c :: r => (take (Z.to_nat n) c, if decide (drop (Z.to_nat n) c = []) then r else drop (Z.to_nat n) c :: r)
  end.

(** Bytes that [strchr] passes. *)
Definition in_line (c : Z) : Prop := c <> 0 /\ c <> newline.
Definition is_line (l : list Z) : Prop := Forall in_line l.
Definition cat_lines (ls : list (list Z)) : list Z := concat (map (fun l => l ++ [newline]) ls).
Definition printed (pattern : list Z) (ls : list (list Z)) : list (list Z) :=
  map (fun l => l ++ [newline]) (filter (fun l => match_ pattern l = true) ls).

Lemma strchr_nl_none p : is_line p -> strchr_nl p = None.
Proof.
  induction 1 as [|c p [H0 H1] _ IH]; [done|]. cbn.
  by rewrite (proj2 (Z.eqb_neq _ _) H0), (proj2 (Z.eqb_neq _ _) H1), IH.
Qed.

Lemma strchr_nl_line l q : is_line l -> strchr_nl (l ++ newline :: q) = Some (l, q).
Proof.
  induction 1 as [|c l [H0 H1] _ IH]; [done|]. cbn.
  by rewrite (proj2 (Z.eqb_neq _ _) H0), (proj2 (Z.eqb_neq _ _) H1), IH.
Qed.

Lemma cat_lines_cons l ls : cat_lines (l :: ls) = l ++ newline :: cat_lines ls.
Proof. unfold cat_lines. cbn. by rewrite <- app_assoc. Qed.

Lemma lines_of_none pattern p fuel : is_line p -> lines_of pattern p fuel = ([], p).
Proof. intros H. destruct fuel; [done|]. cbn. by rewrite strchr_nl_none. Qed.

(** The inner loop on the first [n] bytes of a file of lines handles the lines
    that are there whole, and leaves a piece of the next. *)
Lemma lines_of_prefix pattern ls n fuel :
  Forall is_line ls -> (length (take n (cat_lines ls)) <= fuel)%nat ->
  exists k r, lines_of pattern (take n (cat_lines ls)) fuel = (printed pattern (take k ls), r) /\
    r ++ drop n (cat_lines ls) = cat_lines (drop k ls) /\ is_line r /\
    (k = 0%nat <-> match ls with l :: _ => (n < length l + 1)%nat | [] => True end) /\
    (length r + k <= length (take n (cat_lines ls)))%nat.
Proof.
  revert n fuel. induction ls as [|l ls IH]; intros n fuel Hls Hf.
  { exists 0%nat, []. change (cat_lines []) with (@nil Z) in *. rewrite take_nil, drop_nil.
    rewrite lines_of_none by constructor. repeat split; [constructor|cbn; lia]. }
  apply Forall_cons in Hls as [Hl Hls]. rewrite cat_lines_cons in *.
  destruct (decide (n < length l + 1)%nat) as [Hn|Hn].
  - exists 0%nat, (take n l). rewrite take_app_le by lia.
    assert (is_line (take n l)) by by apply Forall_take.
    rewrite lines_of_none by done. repeat split; [|done|lia|lia].
    rewrite drop_app_le, app_assoc, take_drop by lia. by rewrite <- cat_lines_cons.
  - rewrite take_app_ge in * by lia. rewrite drop_app_ge by lia.
    destruct (n - length l)%nat as [|m] eqn:E; [lia|]. cbn [take drop] in *.
    rewrite length_app in Hf. cbn in Hf. destruct fuel as [|fuel]; [lia|].
    destruct (IH m fuel Hls) as (k & r & R & Hr & Hr' & Hk & Hlen); [lia|].
    exists (S k), r. cbn [lines_of]. rewrite strchr_nl_line, R by done.
    split; [|split; [done|]; split; [done|]; split; [lia|rewrite length_app; cbn; lia]].
    unfold printed. cbn [take]. rewrite filter_cons. by destruct (match_ pattern l).
Qed.

Lemma printed_app pattern ls ls' : printed pattern (ls ++ ls') = printed pattern ls ++ printed pattern ls'.
Proof. unfold printed. by rewrite filter_app, map_app. Qed.

Lemma cat_lines_piece b s ls : b ++ s = cat_lines ls -> is_line b -> s = [] -> ls = [].
Proof.
  intros E Hb ->. rewrite app_nil_r in E. destruct ls as [|l ls]; [done|]. rewrite cat_lines_cons in E.
  subst b. apply Forall_app in Hb as [_ Hb]. apply Forall_cons in Hb as [[_ Hb] _]. done.
Qed.

Lemma cat_lines_app ls ls' : cat_lines (ls ++ ls') = cat_lines ls ++ cat_lines ls'.
Proof. unfold cat_lines. by rewrite map_app, concat_app. Qed.

Lemma is_line_nl l : is_line l -> newline ∉ l.
Proof. intros H Hin. unfold is_line in H. rewrite Forall_forall in H. by destruct (H _ Hin). Qed.

Lemma cat_lines_end ls : ls <> [] -> exists y, cat_lines ls = y ++ [newline].
Proof.
  intros H. destruct (exists_last H) as (ls' & l & ->). exists (cat_lines ls' ++ l).
  rewrite cat_lines_app. unfold cat_lines at 2. cbn. by rewrite app_nil_r, app_assoc.
Qed.

(** What [read] delivers to [grep] from [s] on, when [buf] holds the beginning
    [b] of a line: each call brings as many bytes as there are, but not more
    than it is asked for and at least one newline, after which [b'] is left
    over; in the end there are no more. *)
Section feeds.
Context {S : Type} `{!Reader S}.

Inductive feeds : S -> list Z -> list Z -> Prop :=
  | feeds_end s b : (read s (sizeof_buf - Z.of_nat (length b) - 1)).1 = [] -> feeds s b []
  | feeds_more s b c s' x b' rest :
      read s (sizeof_buf - Z.of_nat (length b) - 1) = (c, s') ->
      Z.of_nat (length c) <= sizeof_buf - Z.of_nat (length b) - 1 ->
      b ++ c = x ++ newline :: b' -> newline ∉ b' -> feeds s' b' rest ->
      feeds s b (c ++ rest).

(** One turn of the loop. *)
Lemma grep_turn pattern s b c s' x b' rest ls fuel :
  read s (sizeof_buf - Z.of_nat (length b) - 1) = (c, s') ->
  b ++ c ++ rest = cat_lines ls -> is_line b -> Forall is_line ls ->
  b ++ c = x ++ newline :: b' -> newline ∉ b' ->
  exists k, (0 < k)%nat /\ grep_loop pattern s b (Datatypes.S fuel) =
      (os ← grep_loop pattern s' b' fuel; Some (printed pattern (take k ls) ++ os)) /\
    b' ++ rest = cat_lines (drop k ls) /\ is_line b'.
Proof.
  intros Hread E Hb Hls Hx Hb'. set (n := length (b ++ c)).
  assert (Htake : b ++ c = take n (cat_lines ls)) by (unfold n; by rewrite <- E, app_assoc, take_app_length).
  assert (Hdrop : rest = drop n (cat_lines ls)) by (unfold n; by rewrite <- E, app_assoc, drop_app_length).
  destruct (lines_of_prefix pattern ls n n Hls) as (k & r & R & Hr & Hr' & Hk & Hlr); [by rewrite <- Htake|].
  rewrite <- Htake in R, Hlr. rewrite <- Hdrop in Hr.
  assert (Hsplit : b ++ c = cat_lines (take k ls) ++ r).
  { apply (app_inv_tail rest). rewrite <- !app_assoc, Hr, <- cat_lines_app, take_drop. exact E. }
  assert (Hk0 : (0 < k)%nat).
  { destruct k; [|lia]. rewrite take_0 in Hsplit. cbn in Hsplit.
    exfalso. apply (is_line_nl r Hr'). rewrite <- Hsplit, Hx, elem_of_app, elem_of_cons. auto. }
  assert (r = b') as ->.
  { destruct (cat_lines_end (take k ls)) as [y Hy].
    { intros H0. rewrite H0 in Hsplit. cbn in Hsplit. apply (is_line_nl r Hr').
      rewrite <- Hsplit, Hx, elem_of_app, elem_of_cons. auto. }
    rewrite Hy, <- app_assoc in Hsplit. rewrite Hx in Hsplit.
    by apply not_elem_of_app_cons_inv_r in Hsplit as (_ & _ & ->); [|by apply is_line_nl|done]. }
  exists k. split; [done|]. split; [|done]. cbn [grep_loop]. rewrite Hread.
  destruct (Nat.eqb_spec (length c) 0) as [E0|_].
  { apply nil_length_inv in E0 as ->. rewrite app_nil_r in Hx. exfalso. apply (is_line_nl b Hb).
    rewrite Hx, elem_of_app, elem_of_cons. auto. }
  fold n. rewrite R. destruct (Nat.eqb_spec (length b') n) as [E0|_]; [|done].
  exfalso. unfold n in E0. rewrite Hx, length_app in E0. cbn in E0. lia.
Qed.

Lemma grep_loop_feeds pattern s b rest : feeds s b rest -> forall ls fuel,
  b ++ rest = cat_lines ls -> is_line b -> Forall is_line ls -> (length ls < fuel)%nat ->
  grep_loop pattern s b fuel = Some (printed pattern ls).
Proof.
  induction 1 as [s b Hend|s b c s' x b' rest Hread Hlen Hx Hb' _ IH]; intros ls fuel E Hb Hls Hf;
    (destruct fuel as [|fuel]; [lia|]).
  - rewrite (cat_lines_piece b [] ls E Hb eq_refl).
    cbn [grep_loop]. destruct (read _ _) as [c s']. cbn in Hend. by subst c.
  - destruct (grep_turn pattern s b c s' x b' rest ls fuel) as (k & Hk & -> & E' & Hl); [done..|].
    destruct ls as [|l ls]; [rewrite app_assoc, Hx in E; by destruct x|].
    rewrite (IH (drop k (l :: ls)) fuel); [|done|done|by apply Forall_drop|rewrite length_drop; cbn in *; lia].
    cbn [mbind option_bind]. by rewrite <- printed_app, take_drop.
Qed.

(** C23: [grep] prints exactly the matching lines of its input, whole and in
    order, and ends, however the input is split into reads, as long as every
    read brings at least one newline. *)
Theorem grep_prints_matches pattern s ls fuel (Hs : feeds s [] (cat_lines ls))
    (Hls : Forall is_line ls) (Hf : (length ls < fuel)%nat) :
  grep pattern s fuel = Some (printed pattern ls).
Proof. by eapply grep_loop_feeds; [|done|constructor|..]. Qed.
End feeds.

(** A regular file of lines that fit in the buffer is read that way. *)
Lemma file_feeds ls : forall b s,
  b ++ s = cat_lines ls -> is_line b -> Forall is_line ls ->
  Forall (fun l => Z.of_nat (length l) < sizeof_buf - 1) ls -> feeds s b s.
Proof.
  induction ls as [ls IH] using (induction_ltof1 _ (@length (list Z))). unfold ltof in IH.
  intros b s E Hb Hls Hlen. destruct ls as [|l ls].
  { apply app_nil in E as [-> ->]. by constructor. }
  set (n := Z.to_nat (sizeof_buf - Z.of_nat (length b) - 1)).
  pose proof Hlen as [Hl1 _]%Forall_cons.
  assert (Hbl : (length b <= length l)%nat).
  { destruct (decide (length b <= length l)%nat) as [|Hn]; [done|exfalso].
    rewrite cat_lines_cons in E. apply (f_equal (lookup (length l))) in E.
    rewrite lookup_app_l in E by lia. rewrite list_lookup_middle in E by done.
    unfold is_line in Hb. rewrite Forall_lookup in Hb. by destruct (Hb _ _ E). }
  assert (Htake : b ++ take n s = take 1023 (cat_lines (l :: ls))).
  { rewrite <- E, take_app_ge by (unfold sizeof_buf in *; lia). f_equal. f_equal. unfold n, sizeof_buf. lia. }
  assert (Hdrop : drop n s = drop 1023 (cat_lines (l :: ls))).
  { rewrite <- E, drop_app_ge by (unfold sizeof_buf in *; lia). f_equal. unfold n, sizeof_buf. lia. }
  destruct (lines_of_prefix [] (l :: ls) 1023 1023 Hls) as (k & r & _ & Hr & Hr' & Hk & _);
    [rewrite length_take; lia|].
  assert (k <> 0%nat) by (intros ?%Hk; unfold sizeof_buf in *; lia).
  rewrite <- Hdrop in Hr. rewrite <- (take_drop n s) at 2.
  destruct (cat_lines_end (take k (l :: ls))) as [y Hy]; [by destruct k|].
  eapply (feeds_more s b (take n s) (drop n s) y r); [done| | |by apply is_line_nl|].
  - rewrite length_take. unfold n, sizeof_buf in *. lia.
  - apply (app_inv_tail (drop n s)). change (newline :: r) with ([newline] ++ r).
    rewrite <- !app_assoc, Hr, take_drop, E, app_assoc, <- Hy, <- cat_lines_app, take_drop. done.
  - apply (IH (drop k (l :: ls))); [rewrite length_drop; cbn; lia|done|done|by apply Forall_drop..].
Qed.

Lemma grep_prints_file pattern ls fuel :
  Forall is_line ls -> Forall (fun l => Z.of_nat (length l) < sizeof_buf - 1) ls ->
  (length ls < fuel)%nat -> grep pattern (cat_lines ls) fuel = Some (printed pattern ls).
Proof.
  intros Hls Hlen Hf. eapply grep_loop_feeds; [|done|constructor|done|done].
  apply (file_feeds ls); [done|constructor|done|done].
Qed.

(** Bytes that arrive without a newline while the buffer is empty, as the
    beginning of a line does when a pipe is read as it is filled, are lost:
    [grep] goes on as if they had not been there. *)
Theorem grep_loses_partial_line pattern c cs fuel
  (Hc : is_line c) (Hne : c <> []) (Hlen : Z.of_nat (length c) < sizeof_buf) :
  grep pattern (c :: cs) (S fuel) = grep pattern cs fuel.
Proof.
  unfold grep. cbn [grep_loop]. unfold read, chunk_reader. cbn [length].
  set (n := Z.to_nat _). assert (n = 1023)%nat as -> by (unfold n, sizeof_buf; lia).
  unfold sizeof_buf in Hlen. rewrite take_ge, drop_ge by lia. rewrite decide_True by done.
  destruct (Nat.eqb_spec (length c) 0); [by destruct c|]. rewrite app_nil_l, lines_of_none by done.
  rewrite Nat.eqb_refl. fold (chunk_reader). by destruct (grep_loop pattern cs [] fuel).
Qed.

(** *** Concrete runs *)

(** A pipe that delivers a line and a half, and then the rest. *)
Lemma grep_prints_matches_witness :
  grep (lit "^a.*c$") [lit "abc" ++ newline :: lit "xa"; lit "bc" ++ newline :: lit "ac" ++ [newline]] 4 =
    Some [lit "abc" ++ [newline]; lit "ac" ++ [newline]].
Proof.
  rewrite (grep_prints_matches (lit "^a.*c$")
    [lit "abc" ++ newline :: lit "xa"; lit "bc" ++ newline :: lit "ac" ++ [newline]]
    [lit "abc"; lit "xabc"; lit "ac"] 4);
    [reflexivity| |repeat constructor; done|cbn; lia].
  apply (feeds_more _ [] (lit "abc" ++ newline :: lit "xa") [lit "bc" ++ newline :: lit "ac" ++ [newline]]
    (lit "abc") (lit "xa") (lit "bc" ++ newline :: lit "ac" ++ [newline])); [reflexivity|done|done|by apply is_line_nl; repeat constructor|].
  apply (feeds_more _ (lit "xa") (lit "bc" ++ newline :: lit "ac" ++ [newline]) []
    (lit "xabc" ++ newline :: lit "ac") [] []); [reflexivity|done|done|apply not_elem_of_nil|by constructor].
Defined.

Lemma grep_loses_partial_line_witness :
  grep (lit "hello") [lit "hel"; lit "lo" ++ [newline]] 3 = Some [] /\
  grep (lit "hello") [lit "hello" ++ [newline]] 3 = Some [lit "hello" ++ [newline]].
Proof.
  split; [|reflexivity].
  rewrite (grep_loses_partial_line (lit "hello") (lit "hel") [lit "lo" ++ [newline]] 2);
    [reflexivity|repeat constructor; done|done|done].
Defined.

End Grep.
