(* ===== verification/Umalloc.v ===== *)
(** The memory allocator of user programs (umalloc.c).

    The free blocks form a ring in memory: [ptr] and [size] of a header are the
    words at its address and four bytes after it, and a [Header *] is an
    address, so that [p + n] is [p + 8 * n].  [base] is the address of the
    static header.  Whether the system grants more memory is the parameter
    [grow]. *)

From stdpp Require Import base numbers list strings.
From Stdlib Require Import ZArith Lia Sorted.
From S2P Require Import Prelude Mem.

Module Umalloc.

(** The data of the allocator, and the end of the process's memory. *)
Record heap := mkHeap { hmem : mem; freep : Z; brk : Z }.

Definition ptr (m : mem) (p : Z) : Z := load32 m p.
Definition size (m : mem) (p : Z) : Z := load32 m (p + 4).
Definition set_ptr (m : mem) (p v : Z) : mem := store32 m p v.
Definition set_size (m : mem) (p v : Z) : mem := store32 m (p + 4) v.
(** [p + n] for a [Header *]. *)
Definition plus (p n : Z) : Z := u32 (p + 8 * n).

(** A bound on the number of blocks: they are not smaller than their headers. *)
Definition turns (h : heap) : nat := Z.to_nat (brk h) + 8.

Section umalloc.
Variable base : Z.
Variable grow : Z -> Z -> bool.

(** [for (p = freep; !(bp > p && bp < p->s.ptr); p = p->s.ptr)] *)
Fixpoint free_pos (m : mem) (bp p : Z) (fuel : nat) : option Z :=
  match fuel with
  | O => None
  | S f =>
      let q := ptr m p in
      if (bp >? p) && (bp <? q) then Some p
      else if (p >=? q) && ((bp >? p) || (bp <? q)) then Some p
      else free_pos m bp q f
  end.

(** [if (bp + bp->s.size == p->s.ptr)] and [if (p + p->s.size == bp)]: the block
    [a] takes in the next block [b], or points to it. *)
Definition join (m : mem) (a b : Z) : mem :=
  if plus a (size m a) =? b then
    let m := set_size m a (size m a + size m b) in
    set_ptr m a (ptr m b)
  else set_ptr m a b.

Definition free (ap : Z) (h : heap) : option heap :=
  let bp := plus ap (-1) in
  p ← free_pos (hmem h) bp (freep h) (turns h);
  let m := hmem h in
  let m := join m bp (ptr m p) in
  let m := join m p bp in
  Some (mkHeap m p (brk h)).

(** The old end of the memory, or -1.  A negative [n] shrinks the memory, unless
    the new end wraps around to an address that is not below the old one. *)
Definition sbrk (n : Z) (h : heap) : Z * heap :=
  if grow (brk h) n then
    let b := u32 (brk h + n) in
    (brk h, mkHeap (hmem h) (freep h) (if (n <? 0) && (b >=? brk h) then brk h else b))
  else (u32 (-1), h).

Definition morecore (nu : Z) (h : heap) : option (Z * heap) :=
  let nu := if nu <? 4096 then 4096 else nu in
  let '(p, h) := sbrk (i32 (nu * 8)) h in
  if p =? u32 (-1) then Some (0, h) else
  let h := mkHeap (set_size (hmem h) p nu) (freep h) (brk h) in
  h ← free (plus p 1) h;
  Some (freep h, h).

(** [for (p = prevp->s.ptr;; prevp = p, p = p->s.ptr)] *)
Fixpoint malloc_loop (nunits prevp p : Z) (h : heap) (fuel : nat) : option (Z * heap) :=
  match fuel with
  | O => None
  | S f =>
      let m := hmem h in
      if size m p >=? nunits then
        let '(p, m) :=
          if size m p =? nunits then (p, set_ptr m prevp (ptr m p))
          else
            let m := set_size m p (size m p - nunits) in
            let p := plus p (size m p) in
            (p, set_size m p nunits) in
        Some (plus p 1, mkHeap m prevp (brk h))
      else if p =? freep h then
        '(p, h) ← morecore nunits h;
        if p =? 0 then Some (0, h) else malloc_loop nunits p (ptr (hmem h) p) h f
      else malloc_loop nunits p (ptr m p) h f
  end.

Definition units (nbytes : Z) : Z := u32 (u32 (nbytes + 8 - 1) / 8 + 1).

Definition malloc (nbytes : Z) (h : heap) : option (Z * heap) :=
  let nunits := units nbytes in
  let h :=
    if freep h =? 0 then mkHeap (set_size (set_ptr (hmem h) base base) base 0) base (brk h) else h in
  malloc_loop nunits (freep h) (ptr (hmem h) (freep h)) h (turns h + turns h).

End umalloc.

(** *** The heap as a sequence of blocks *)

(** The sizes of the blocks from the start of the heap to its end, and whether
    they are free. *)
Definition tiles : Type := list (Z * bool).

(** Where the blocks with flag [f] are, and how large. *)
Fixpoint at_flag (f : bool) (a : Z) (ts : tiles) : list (Z * Z) :=
  match ts with
  | [] => []
  | (s, g) :: r => (if Bool.eqb f g then [(a, s)] else []) ++ at_flag f (a + 8 * s) r
  end.
Abbreviation free_at := (at_flag true).
Abbreviation used_at := (at_flag false).

Fixpoint total (ts : tiles) : Z := match ts with [] => 0 | (s, _) :: r => s + total r end.

(** No two free blocks touch. *)
Fixpoint apart (ts : tiles) : Prop :=
  match ts with
  | (_, true) :: r => match r with (_, true) :: _ => False | _ => apart r end
  | _ :: r => apart r
  | [] => True
  end.

(** The nodes [l] of a list in memory, of which the last points to [q]. *)
Definition head (l : list (Z * Z)) (q : Z) : Z := match l with [] => q | (a, _) :: _ => a end.
Fixpoint chain (m : mem) (l : list (Z * Z)) (q : Z) : Prop :=
  match l with
  | [] => True
  | (a, s) :: r => size m a = s /\ ptr m a = head r q /\ chain m r q
  end.

Lemma head_app l1 l2 q : head (l1 ++ l2) q = head l1 (head l2 q).
Proof. by destruct l1 as [|[a s] l1]. Qed.

Lemma chain_app m l1 l2 q : chain m (l1 ++ l2) q <-> chain m l1 (head l2 q) /\ chain m l2 q.
Proof.
  induction l1 as [|[a s] l1 IH]; cbn; [tauto|]. rewrite IH, head_app. tauto.
Qed.

(** Memories that agree on the header at [a]. *)
Definition same_header (m m' : mem) (a : Z) : Prop := size m' a = size m a /\ ptr m' a = ptr m a.

Lemma chain_frame m m' l q : (forall a s, (a, s) ∈ l -> same_header m m' a) -> chain m l q -> chain m' l q.
Proof.
  induction l as [|[a s] l IH]; cbn; [done|]. intros Hf (H1 & H2 & H3).
  destruct (Hf a s) as [E1 E2]; [by left|]. rewrite E1, E2. split_and!; [done|done|]. apply IH; [|done].
  intros b t Hb. apply (Hf b t). by right.
Qed.

(** Stores into headers. *)
Lemma set_ptr_same m p v a : p + 8 <= a \/ a + 8 <= p -> same_header m (set_ptr m p v) a.
Proof.
  intros H. unfold same_header, size, ptr, set_ptr.
  split; apply load32_same; intros x Hx; apply store32_out; lia.
Qed.
Lemma set_size_same m p v a : p + 8 <= a \/ a + 8 <= p -> same_header m (set_size m p v) a.
Proof.
  intros H. unfold same_header, size, ptr, set_size.
  split; apply load32_same; intros x Hx; apply store32_out; lia.
Qed.
Lemma set_ptr_here m p v : ptr (set_ptr m p v) p = u32 v /\ size (set_ptr m p v) p = size m p.
Proof.
  unfold ptr, size, set_ptr. rewrite load32_store32_eq. split; [done|].
  apply load32_same. intros x Hx. apply store32_out. lia.
Qed.
Lemma set_size_here m p v : size (set_size m p v) p = u32 v /\ ptr (set_size m p v) p = ptr m p.
Proof.
  unfold ptr, size, set_size. rewrite load32_store32_eq. split; [done|].
  apply load32_same. intros x Hx. apply store32_out. lia.
Qed.

(** *** Walking the ring *)

Definition before (x y : Z * Z) : Prop := x.1 < y.1.

Section walk.
Context (base : Z) (m : mem).

(** [N] is the ring from [base] on. *)
Definition ring (N : list (Z * Z)) : Prop :=
  chain m N base /\ StronglySorted before N /\ exists r, N = (base, 0) :: r.

Lemma ring_next L x s R : ring (L ++ (x, s) :: R) -> ptr m x = head R base /\ size m x = s.
Proof. intros [Hc _]. apply chain_app in Hc as [_ Hc]. destruct Hc as (H1 & H2 & _). done. Qed.

Lemma sorted_split L (x : Z * Z) R : StronglySorted before (L ++ x :: R) ->
  (forall y, y ∈ L -> y.1 < x.1) /\ (forall y, y ∈ R -> x.1 < y.1).
Proof.
  induction L as [|z L IH]; cbn; intros H; apply StronglySorted_inv in H as [H H'].
  - split; [by intros y ?%elem_of_nil|]. rewrite Forall_forall in H'. exact H'.
  - destruct (IH H) as [H1 H2]. split; [|done]. intros y [->|Hy]%elem_of_cons; [|by apply H1].
    rewrite Forall_forall in H'. apply H'. apply elem_of_app. right. by left.
Qed.

Lemma base_least N x : ring N -> x ∈ N -> base <= x.1.
Proof.
  intros (_ & Hs & r & ->) Hx. apply elem_of_cons in Hx as [->|Hx]; [done|].
  apply StronglySorted_inv in Hs as [_ Hs]. rewrite Forall_forall in Hs. specialize (Hs x Hx). unfold before in Hs. cbn in Hs. lia.
Qed.

Lemma sorted_unique L (x : Z * Z) R : forall L' x' R', StronglySorted before (L ++ x :: R) ->
  L ++ x :: R = L' ++ x' :: R' -> x.1 = x'.1 -> L = L' /\ x = x' /\ R = R'.
Proof.
  induction L as [|y L IH]; intros [|y' L'] x' R' Hs E Ex; cbn in E.
  - by injection E as -> ->.
  - injection E as -> ->. apply (sorted_split []) in Hs as [_ Hs].
    specialize (Hs x'). rewrite elem_of_app, elem_of_cons in Hs. specialize (Hs ltac:(tauto)). lia.
  - injection E as -> E. cbn in Hs. apply (sorted_split []) in Hs as [_ Hs]. specialize (Hs x).
    rewrite elem_of_app, elem_of_cons in Hs. specialize (Hs ltac:(tauto)). lia.
  - injection E as -> E. apply StronglySorted_inv in Hs as [Hs _]. destruct (IH L' x' R' Hs E Ex) as (-> & -> & ->). done.
Qed.

(** The node that points to [p] is the one before it. *)
Lemma ring_pred L p s R x xs : ring (L ++ (p, s) :: R) -> p <> base -> (x, xs) ∈ L ++ (p, s) :: R -> ptr m x = p ->
  exists L', L = L' ++ [(x, xs)].
Proof.
  intros Hr Hp Hx E. apply list_elem_of_split in Hx as (L1 & R1 & E1). pose proof Hr as Hr1. rewrite E1 in Hr1.
  destruct (ring_next _ _ _ _ Hr1) as [En _]. rewrite E in En. destruct R1 as [|[y t] R1]; cbn in En; [done|]. subst y.
  exists L1. change (L1 ++ (x, xs) :: (p, t) :: R1) with (L1 ++ [(x, xs)] ++ (p, t) :: R1) in E1.
  rewrite app_assoc in E1. destruct Hr as (_ & Hs & _). by destruct (sorted_unique _ _ _ _ _ _ Hs E1).
Qed.

(** The block before [bp]. *)
Section pos.
Context (bp : Z) (A : list (Z * Z)) (p ps : Z) (R : list (Z * Z)).
Context (Hring : ring (A ++ (p, ps) :: R)) (Hp : p < bp) (HR : forall y, y ∈ R -> bp < y.1).

Lemma free_pos_here fuel : free_pos m bp p (S fuel) = Some p.
Proof.
  destruct (ring_next _ _ _ _ Hring) as [E _]. cbn [free_pos]. rewrite E.
  destruct (Z.gtb_spec bp p); [|lia]. destruct R as [|[r rs] R'] eqn:ER; cbn [head andb].
  - pose proof (base_least _ (p, ps) Hring ltac:(apply elem_of_app; right; left)) as Hb. cbn in Hb.
    destruct (bp <? base); [done|]. destruct (Z.geb_spec p base); [done|lia].
  - specialize (HR (r, rs) ltac:(left)). cbn in HR. by rewrite (proj2 (Z.ltb_lt _ _) HR).
Qed.

Lemma free_pos_left A2 : forall A1 x s fuel, A = A1 ++ (x, s) :: A2 -> (length A2 + 1 < fuel)%nat ->
  free_pos m bp x fuel = Some p.
Proof.
  induction A2 as [|[y t] A2 IH]; intros A1 x s [|fuel] E Hf; cbn in Hf; try lia; cbn [free_pos];
    pose proof Hring as Hr; rewrite E, <- app_assoc in Hr; cbn [app] in Hr; destruct (ring_next _ _ _ _ Hr) as [Ex _];
    rewrite Ex; cbn [head]; destruct Hr as (_ & Hs & _); apply sorted_split in Hs as [_ Hs].
  - specialize (Hs (p, ps) ltac:(left)). cbn in Hs. destruct (Z.ltb_spec bp p); [lia|]. rewrite andb_false_r.
    destruct (Z.geb_spec x p); [lia|]. destruct fuel; [lia|]. apply free_pos_here.
  - pose proof (Hs (y, t) ltac:(left)) as Hxy. cbn in Hxy.
    assert (y < p). { destruct Hring as (_ & Hs' & _). apply sorted_split in Hs' as [Hs' _].
      apply (Hs' (y, t)). rewrite E. apply elem_of_app. right. right. left. }
    destruct (Z.ltb_spec bp y); [lia|]. rewrite andb_false_r. destruct (Z.geb_spec x y); [lia|]. cbn [andb].
    apply (IH (A1 ++ [(x, s)]) y t); [by rewrite <- app_assoc|lia].
Qed.

Lemma free_pos_base fuel : (length A + 1 < fuel)%nat -> free_pos m bp base fuel = Some p.
Proof.
  intros Hf. pose proof Hring as (_ & _ & r & E).
  assert (A = [] \/ exists x s A2, A = (x, s) :: A2) as [EA|(x & s & A2 & EA)]
    by (clear; destruct A as [|[x s] A2]; eauto).
  - rewrite EA in E. injection E as Ep _ _. rewrite <- Ep. destruct fuel; [lia|]. apply free_pos_here.
  - rewrite EA in E. injection E as Ex _ _. rewrite <- Ex. eapply (free_pos_left A2 []); [exact EA|].
    rewrite EA in Hf. cbn in Hf. lia.
Qed.

Lemma ring_right R1 x R2 : R = R1 ++ x :: R2 -> ring ((A ++ (p, ps) :: R1) ++ x :: R2).
Proof. intros E. rewrite <- app_assoc. cbn [app]. rewrite <- E. exact Hring. Qed.

Lemma free_pos_right R2 : forall R1 x s fuel, R = R1 ++ (x, s) :: R2 -> (length R2 + length A + 2 < fuel)%nat ->
  free_pos m bp x fuel = Some p.
Proof.
  induction R2 as [|[y t] R2 IH]; intros R1 x s [|fuel] E Hf; cbn in Hf; try lia; cbn [free_pos];
    pose proof (ring_right _ _ _ E) as Hr; destruct (ring_next _ _ _ _ Hr) as [Ex _]; rewrite Ex; cbn [head];
    assert (bp < x) by (apply (HR (x, s)); rewrite E; apply elem_of_app; right; left);
    destruct (Z.gtb_spec bp x); try lia; cbn [andb orb].
  - pose proof (base_least _ (p, ps) Hring ltac:(apply elem_of_app; right; left)) as Hb. cbn in Hb.
    destruct (Z.ltb_spec bp base); [lia|]. rewrite andb_false_r. apply free_pos_base. lia.
  - destruct Hr as (_ & Hs & _). apply sorted_split in Hs as [_ Hs]. specialize (Hs (y, t) ltac:(left)). cbn in Hs.
    destruct (Z.geb_spec x y); [lia|]. cbn [andb]. apply (IH (R1 ++ [(x, s)]) y t); [by rewrite <- app_assoc|lia].
Qed.

(** Wherever it starts, the loop of [free] ends at the block before [bp]. *)
Lemma free_pos_finds x fuel : x ∈ (A ++ (p, ps) :: R).*1 -> (length A + length R + 2 < fuel)%nat ->
  free_pos m bp x fuel = Some p.
Proof.
  intros ([x' s] & E & Hx)%list_elem_of_fmap Hf. cbn in E. subst x'.
  apply elem_of_app in Hx as [Hx|[[= -> ->]|Hx]%elem_of_cons].
  - apply list_elem_of_split in Hx as (A1 & A2 & E). eapply free_pos_left; [exact E|].
    assert (Hl : length A = length (A1 ++ (x, s) :: A2)) by by rewrite <- E. rewrite length_app in Hl. cbn in Hl. lia.
  - destruct fuel; [lia|]. apply free_pos_here.
  - apply list_elem_of_split in Hx as (R1 & R2 & E). eapply free_pos_right; [exact E|].
    assert (Hl : length R = length (R1 ++ (x, s) :: R2)) by by rewrite <- E. rewrite length_app in Hl. cbn in Hl. lia.
Qed.

End pos.
End walk.

(** *** Joining blocks *)

(** [a], of size [n], before the blocks [l]. *)
Definition absorb (a n : Z) (l : list (Z * Z)) : list (Z * Z) :=
  match l with
  | (b, s) :: r => if a + 8 * n =? b then (a, n + s) :: r else (a, n) :: l
  | [] => [(a, n)]
  end.

Lemma absorb_length a n l : (length (absorb a n l) <= S (length l))%nat.
Proof. destruct l as [|[b s] l]; cbn; [lia|]. destruct (_ =? _); cbn; lia. Qed.

Lemma ptr_range m p : 0 <= ptr m p < 2 ^ 32.
Proof. apply load32_range. Qed.

Lemma set_ptr_outside m p v : same_outside p (p + 8) m (set_ptr m p v).
Proof. intros x Hx. apply store32_out. lia. Qed.
Lemma set_size_outside m p v : same_outside p (p + 8) m (set_size m p v).
Proof. intros x Hx. apply store32_out. lia. Qed.

Lemma outside_header a m m' b : same_outside a (a + 8) m m' -> a + 8 <= b \/ b + 8 <= a -> same_header m m' b.
Proof. intros H Hb. split; apply load32_same; intros x Hx; apply H; lia. Qed.

Lemma same_header_trans m1 m2 m3 a : same_header m1 m2 a -> same_header m2 m3 a -> same_header m1 m3 a.
Proof. intros [H1 H2] [H3 H4]. split; congruence. Qed.

Lemma join_outside m a b : same_outside a (a + 8) m (join m a b).
Proof.
  unfold join. destruct (_ =? _); [|apply set_ptr_outside].
  eapply same_outside_trans; [apply set_size_outside|apply set_ptr_outside].
Qed.

Lemma join_spec m a n l q :
  size m a = n -> chain m l q -> (forall b, b ∈ l -> a + 8 <= b.1) ->
  0 <= a -> 0 <= n -> a + 8 * n < 2 ^ 32 -> 0 <= head l q < 2 ^ 32 ->
  (l = [] -> a + 8 * n <> q) -> (forall b, b ∈ l -> 0 <= b.2 /\ n + b.2 < 2 ^ 32) ->
  chain (join m a (head l q)) (absorb a n l) q.
Proof.
  intros Hn Hc Hl Ha Hn0 Hlt Hq Hnil Hs.
  assert (Hframe : forall m', same_outside a (a + 8) m m' -> forall l', (forall b, b ∈ l' -> b ∈ l) -> chain m l' q -> chain m' l' q).
  { intros m' Hm' l' Hin Hl'. eapply chain_frame; [|exact Hl']. intros b t Hb. eapply outside_header; [exact Hm'|].
    specialize (Hl (b, t) (Hin _ Hb)). cbn in Hl. lia. }
  unfold join. rewrite Hn. unfold plus. rewrite u32_small by lia. destruct l as [|[b t] r]; cbn [head absorb] in *.
  - specialize (Hnil eq_refl). rewrite (proj2 (Z.eqb_neq _ _) Hnil).
    destruct (set_ptr_here m a q) as [E1 E2]. cbn. rewrite E1, E2, u32_small by lia. done.
  - destruct (Hs (b, t)) as [Ht0 Ht]; [left|]. cbn in Ht0, Ht. pose proof (Hl (b, t) ltac:(left)) as Hb. cbn in Hb.
    destruct Hc as (Hb1 & Hb2 & Hc). destruct (Z.eqb_spec (a + 8 * n) b) as [E|E].
    + set (m1 := set_size m a (n + size m b)). destruct (set_size_here m a (n + size m b)) as [S1 S2].
      destruct (set_size_same m a (n + size m b) b) as [S3 S4]; [lia|].
      destruct (set_ptr_here m1 a (ptr m1 b)) as [P1 P2]. cbn [chain]. unfold m1 in *.
      rewrite P1, P2, S1, S4, Hb1, Hb2, !u32_small by (rewrite ?Hb2 in *; pose proof (ptr_range m b); lia).
      split; [done|]. split; [done|]. apply Hframe; [|by intros; right|done].
      eapply same_outside_trans; [apply set_size_outside|apply set_ptr_outside].
    + destruct (set_ptr_here m a b) as [P1 P2]. cbn [chain]. rewrite P1, P2, u32_small by lia.
      split; [done|]. split; [done|].
      apply (Hframe _ (set_ptr_outside _ _ _) ((b, t) :: r)); [done|]. by cbn.
Qed.

(** *** Blocks and their neighbours *)

Lemma at_flag_app f t1 t2 : forall a, at_flag f a (t1 ++ t2) = at_flag f a t1 ++ at_flag f (a + 8 * total t1) t2.
Proof.
  induction t1 as [|[s g] t1 IH]; intros a; cbn [at_flag total app].
  { f_equal. lia. }
  rewrite IH, <- app_assoc. do 2 f_equal. f_equal. lia.
Qed.

Lemma total_app t1 t2 : total (t1 ++ t2) = total t1 + total t2.
Proof. induction t1 as [|[s g] t1 IH]; cbn; lia. Qed.

Definition sized (ts : tiles) : Prop := Forall (fun t => 1 <= t.1) ts.

Lemma at_flag_split f ts : forall a x, x ∈ at_flag f a ts ->
  exists t1 t2, ts = t1 ++ (x.2, f) :: t2 /\ x.1 = a + 8 * total t1.
Proof.
  induction ts as [|[s g] ts IH]; intros a x Hx; cbn [at_flag] in Hx; [by apply elem_of_nil in Hx|].
  apply elem_of_app in Hx as [Hx|Hx].
  - destruct (Bool.eqb f g) eqn:E; [|by apply elem_of_nil in Hx]. apply list_elem_of_singleton in Hx.
    apply Bool.eqb_prop in E. subst. exists [], ts. cbn. split; [done|lia].
  - destruct (IH _ _ Hx) as (t1 & t2 & -> & Ex). exists ((s, g) :: t1), t2. cbn. split; [done|lia].
Qed.

Lemma total_nonneg ts : sized ts -> 0 <= total ts.
Proof. induction 1 as [|[s g] ts Hs _ IH]; cbn in *; lia. Qed.

Lemma at_flag_in f ts : sized ts -> forall a x, x ∈ at_flag f a ts ->
  a <= x.1 /\ 1 <= x.2 /\ x.1 + 8 * x.2 <= a + 8 * total ts.
Proof.
  induction 1 as [|[s g] ts Hs Hts IH]; intros a x Hx; cbn [at_flag] in Hx; [by apply elem_of_nil in Hx|].
  pose proof (total_nonneg ts Hts). cbn in Hs. cbn [total].
  apply elem_of_app in Hx as [Hx|Hx]; [|specialize (IH _ _ Hx); lia].
  destruct (Bool.eqb f g); [|by apply elem_of_nil in Hx]. apply list_elem_of_singleton in Hx. subst x. cbn. lia.
Qed.

Lemma at_flag_sorted f ts : sized ts -> forall a, StronglySorted before (at_flag f a ts).
Proof.
  induction 1 as [|[s g] ts Hs Hts IH]; intros a; cbn [at_flag]; [constructor|]. cbn in Hs.
  destruct (Bool.eqb f g); [|apply IH]. constructor; [apply IH|]. apply Forall_forall. intros x Hx.
  apply at_flag_in in Hx; [|done]. unfold before. cbn. lia.
Qed.

(** Two blocks are the same or apart. *)
Lemma tiles_disjoint f f' ts : sized ts -> forall a x y, x ∈ at_flag f a ts -> y ∈ at_flag f' a ts ->
  x = y /\ f = f' \/ x.1 + 8 * x.2 <= y.1 \/ y.1 + 8 * y.2 <= x.1.
Proof.
  induction 1 as [|[s g] ts Hs Hts IH]; intros a x y Hx Hy; cbn [at_flag] in *; [by apply elem_of_nil in Hx|].
  rewrite elem_of_app in Hx, Hy. destruct Hx as [Hx|Hx], Hy as [Hy|Hy]; [| | |exact (IH _ _ _ Hx Hy)].
  - destruct (Bool.eqb f g) eqn:E, (Bool.eqb f' g) eqn:E'; try by (apply elem_of_nil in Hx || apply elem_of_nil in Hy).
    apply list_elem_of_singleton in Hx, Hy. left. split; [congruence|].
    apply Bool.eqb_prop in E, E'. congruence.
  - destruct (Bool.eqb f g); [|by apply elem_of_nil in Hx]. apply list_elem_of_singleton in Hx. subst x.
    apply at_flag_in in Hy; [|done]. right. left. cbn. lia.
  - destruct (Bool.eqb f' g); [|by apply elem_of_nil in Hy]. apply list_elem_of_singleton in Hy. subst y.
    apply at_flag_in in Hx; [|done]. right. right. cbn. lia.
Qed.

Definition starts_free (ts : tiles) : bool := match ts with (_, true) :: _ => true | _ => false end.
Definition ends_free (ts : tiles) : bool := match last ts with Some (_, true) => true | _ => false end.

Lemma apart_cons s f r : apart ((s, f) :: r) <-> apart r /\ (f && starts_free r) = false.
Proof. destruct f; cbn; [|tauto]. destruct r as [|[t []] r]; cbn; intuition congruence. Qed.

Lemma apart_app t1 t2 : apart (t1 ++ t2) <-> apart t1 /\ apart t2 /\ (ends_free t1 && starts_free t2) = false.
Proof.
  induction t1 as [|[s f] t1 IH]; [cbn; tauto|]. cbn [app]. rewrite !apart_cons, IH.
  destruct t1 as [|[t g] t1]; [cbn; destruct f; cbn; tauto|].
  change (ends_free ((s, f) :: (t, g) :: t1)) with (ends_free ((t, g) :: t1)). tauto.
Qed.

(** A block that becomes free takes in a free block after it ... *)
Lemma absorb_right n t2 bp : 1 <= n -> sized t2 -> apart t2 ->
  exists n' t2', absorb bp n (free_at (bp + 8 * n) t2) = free_at bp ((n', true) :: t2') /\
    used_at (bp + 8 * n) t2 = used_at (bp + 8 * n') t2' /\ n' + total t2' = n + total t2 /\ n <= n' /\
    apart ((n', true) :: t2') /\ sized ((n', true) :: t2').
Proof.
  intros Hn Hs Ha. destruct t2 as [|[s [|]] t2].
  - exists n, []. do 3 (split; [done|]). split; [lia|]. split; [done|]. by repeat constructor.
  - apply Forall_cons in Hs as [Hs1 Hs]. cbn in Hs1. exists (n + s), t2. cbn [at_flag Bool.eqb app absorb].
    rewrite Z.eqb_refl. replace (bp + 8 * (n + s)) with (bp + 8 * n + 8 * s) by lia.
    split; [done|]. split; [done|]. split; [cbn; lia|]. split; [lia|]. split; [by destruct t2 as [|[? []] ?]|].
    constructor; [cbn; lia|done].
  - exists n, ((s, false) :: t2). split; [|split; [done|]; split; [done|]; split; [lia|]; split; [done|by constructor]].
    apply Forall_cons in Hs as [Hs1 Hs]. cbn in Hs1. cbn [at_flag Bool.eqb app].
    destruct (free_at (bp + 8 * n + 8 * s) t2) as [|[b t] r] eqn:E; [done|]. cbn [absorb].
    assert (Hb : (b, t) ∈ free_at (bp + 8 * n + 8 * s) t2) by (rewrite E; left).
    apply at_flag_in in Hb; [|done]. cbn in Hb. destruct (Z.eqb_spec (bp + 8 * n) b); [lia|done].
Qed.

(** ... and is taken in by a free block before it. *)
Lemma absorb_left base lo t1 n t2 A p ps :
  base < lo -> sized t1 -> apart t1 -> sized ((n, true) :: t2) -> apart ((n, true) :: t2) ->
  (base, 0) :: free_at lo t1 = A ++ [(p, ps)] ->
  let bp := lo + 8 * total t1 in
  exists ts, A ++ absorb p ps (free_at bp ((n, true) :: t2)) = (base, 0) :: free_at lo ts /\
    used_at lo ts = used_at lo t1 ++ used_at (bp + 8 * n) t2 /\ total ts = total t1 + n + total t2 /\
    apart ts /\ sized ts.
Proof.
  intros Hb Hs1 Ha1 Hs2 Ha2 E bp. cbn [at_flag Bool.eqb app absorb].
  assert (Hkeep : ends_free t1 = false -> p + 8 * ps <> bp -> exists ts,
    A ++ (if p + 8 * ps =? bp then (p, ps + n) :: free_at (bp + 8 * n) t2
          else (p, ps) :: (bp, n) :: free_at (bp + 8 * n) t2) = (base, 0) :: free_at lo ts /\
    used_at lo ts = used_at lo t1 ++ used_at (bp + 8 * n) t2 /\ total ts = total t1 + n + total t2 /\
    apart ts /\ sized ts).
  { intros He Hne. exists (t1 ++ (n, true) :: t2). rewrite !at_flag_app, total_app. fold bp.
    rewrite (proj2 (Z.eqb_neq _ _) Hne). cbn [at_flag Bool.eqb app total].
    split; [rewrite app_comm_cons, E, <- app_assoc; done|]. split; [done|]. split; [lia|].
    split; [apply apart_app; by rewrite He|]. apply Forall_app. by split. }
  destruct t1 as [|[s f] t1 _] using rev_ind.
  { apply (app_inj_2 [] A [(base, 0)] [(p, ps)]) in E as [_ [= <- <-]]; [|done]. apply Hkeep; [done|]. cbn. unfold bp. cbn. lia. }
  apply Forall_app in Hs1 as [Hs1 Hs]. apply Forall_cons in Hs as [Hs _]. cbn in Hs.
  assert (Ebp : bp = lo + 8 * total t1 + 8 * s) by (unfold bp; rewrite total_app; cbn; lia).
  rewrite at_flag_app in E. cbn [at_flag] in E.
  destruct f; cbn [Bool.eqb app] in E; rewrite ?app_nil_r in E.
  - rewrite app_comm_cons in E. apply app_inj_2 in E as [EA [= <- <-]]; [|done]. clear Hkeep.
    replace (lo + 8 * total t1 + 8 * s) with bp by lia. rewrite Z.eqb_refl.
    exists (t1 ++ (s + n, true) :: t2). rewrite !at_flag_app, !total_app. cbn [at_flag Bool.eqb app total].
    replace (lo + 8 * total t1 + 8 * (s + n)) with (bp + 8 * n) by lia.
    split; [by rewrite <- EA|]. split; [by rewrite app_nil_r|]. split; [lia|].
    apply apart_app in Ha1 as (Ha1 & _ & Ht). apply Forall_cons in Hs2 as [Hn Hs2]. cbn in Hn. split.
    + apply apart_app. split; [done|]. split; [by destruct t2 as [|[? []] ?]|done].
    + apply Forall_app. split; [done|]. constructor; [cbn; lia|done].
  - apply Hkeep; [unfold ends_free; by rewrite last_snoc|].
    destruct A as [|z A] using rev_ind.
    + injection E as <- <- _. pose proof (total_nonneg t1 Hs1). lia.
    + assert (Hp : (p, ps) ∈ free_at lo t1).
      { destruct A as [|z' A]; cbn in E; injection E as _ E; rewrite E; [left|].
        apply elem_of_app. right. left. }
      apply at_flag_in in Hp; [|done]. cbn in Hp. lia.
Qed.

Lemma at_flag_length f ts : sized ts -> forall a, Z.of_nat (length (at_flag f a ts)) <= total ts.
Proof.
  induction 1 as [|[s g] ts Hs Hts IH]; intros a; cbn [at_flag total]; [done|]. rewrite length_app.
  specialize (IH (a + 8 * s)). cbn in Hs. destruct (Bool.eqb f g); cbn [length]; lia.
Qed.

(** *** The invariant *)

Section inv.
Context (base lo : Z).

(** The heap from [lo] to [brk] consists of the blocks [ts]; the free ones are
    the ring, the others have their size in their header. *)
Record heap_ok (h : heap) (ts : tiles) : Prop := {
  ok_base : 0 < base /\ base + 8 <= lo;
  ok_brk : lo + 8 * total ts = brk h /\ brk h < 2 ^ 32;
  ok_sized : sized ts;
  ok_apart : apart ts;
  ok_ring : chain (hmem h) ((base, 0) :: free_at lo ts) base;
  ok_freep : freep h ∈ base :: (free_at lo ts).*1;
  ok_used : forall x, x ∈ used_at lo ts -> size (hmem h) x.1 = x.2 }.

(** The contents of the used blocks. *)
Definition kept (ts : tiles) (m m' : mem) : Prop :=
  forall x, x ∈ used_at lo ts -> same_on x.1 (x.1 + 8 * x.2) m m'.

Lemma used_kept h ts m y : heap_ok h ts -> kept ts (hmem h) m -> y ∈ used_at lo ts -> size m y.1 = y.2.
Proof.
  intros Hok Hk Hy. rewrite <- (ok_used _ _ Hok y Hy). pose proof (at_flag_in _ _ (ok_sized _ _ Hok) _ _ Hy).
  apply load32_same. intros z Hz. apply (Hk y Hy). lia.
Qed.

Lemma ok_is_ring h ts : heap_ok h ts -> ring base (hmem h) ((base, 0) :: free_at lo ts).
Proof.
  intros H. split; [apply H|]. split; [|by eexists]. constructor; [apply at_flag_sorted, H|].
  apply Forall_forall. intros x Hx. apply at_flag_in in Hx; [|apply H]. destruct H as [[? ?] _ _ _ _ _ _].
  unfold before. cbn. lia.
Qed.

(** A node of the ring is apart from every used block. *)
Lemma node_apart ts x y : base + 8 <= lo -> sized ts -> x ∈ (base, 0) :: free_at lo ts -> y ∈ used_at lo ts ->
  x.1 + 8 <= y.1 \/ y.1 + 8 * y.2 <= x.1.
Proof.
  intros Hb Hs Hx Hy. pose proof (at_flag_in _ _ Hs _ _ Hy) as Hy'. apply elem_of_cons in Hx as [->|Hx]; [cbn; lia|].
  pose proof (at_flag_in _ _ Hs _ _ Hx). destruct (tiles_disjoint true false ts Hs lo x y Hx Hy) as [[_ ?]|?]; [done|lia].
Qed.

(** The nodes of the ring keep a distance. *)
Lemma nodes_apart ts x y : base + 8 <= lo -> sized ts -> x ∈ (base, 0) :: free_at lo ts -> y ∈ (base, 0) :: free_at lo ts ->
  x.1 < y.1 -> x.1 + 8 <= y.1.
Proof.
  intros Hb Hs Hx Hy Hlt. rewrite elem_of_cons in Hx, Hy. destruct Hy as [->|Hy].
  { destruct Hx as [->|Hx]; [cbn in Hlt; lia|]. apply at_flag_in in Hx; [|done]. cbn in Hlt. lia. }
  pose proof (at_flag_in _ _ Hs _ _ Hy). destruct Hx as [->|Hx]; [cbn; lia|].
  pose proof (at_flag_in _ _ Hs _ _ Hx). destruct (tiles_disjoint true true ts Hs lo x y Hx Hy) as [[-> _]|?]; lia.
Qed.

Lemma last_node ts1 : exists A p ps, (base, 0) :: free_at lo ts1 = A ++ [(p, ps)].
Proof.
  destruct (free_at lo ts1) as [|[p ps] A _] using rev_ind; [by exists [], base, 0|].
  by exists ((base, 0) :: A), p, ps.
Qed.

Section free.
Context (h : heap) (t1 t2 : tiles) (n : Z).
Context (Hok : heap_ok h (t1 ++ (n, false) :: t2)).
Let bp := lo + 8 * total t1.

Lemma free_tiles : sized t1 /\ 1 <= n /\ sized t2 /\ apart t1 /\ apart t2 /\
  bp + 8 * n + 8 * total t2 = brk h /\ 0 <= total t1 /\ 0 <= total t2.
Proof.
  destruct Hok as [_ [Hb _] Hs Ha _ _ _]. apply Forall_app in Hs as [Hs1 Hs]. apply Forall_cons in Hs as [Hn Hs2].
  apply apart_app in Ha as (Ha1 & Ha2 & _). rewrite total_app in Hb. cbn in Hb, Hn.
  pose proof (total_nonneg _ Hs1). pose proof (total_nonneg _ Hs2). unfold bp. split_and!; try done; lia.
Qed.

Lemma free_ring A p ps : (base, 0) :: free_at lo t1 = A ++ [(p, ps)] ->
  ring base (hmem h) (A ++ (p, ps) :: free_at (bp + 8 * n) t2) /\ (base <= p < bp) /\ (0 <= ps) /\ (p + 8 * ps <= bp) /\
  p + 8 <= bp /\ p ∈ base :: (free_at lo t1).*1.
Proof.
  intros E. destruct free_tiles as (Hs1 & Hn & Hs2 & _ & _ & Hbrk & Ht1 & Ht2). pose proof (ok_base _ _ Hok) as Hb.
  split.
  - pose proof (ok_is_ring _ _ Hok) as Hr. rewrite at_flag_app in Hr. cbn [at_flag Bool.eqb app] in Hr.
    fold bp in Hr. rewrite app_comm_cons, E, <- app_assoc in Hr. exact Hr.
  - assert (Hp : (p, ps) ∈ (base, 0) :: free_at lo t1) by (rewrite E; apply elem_of_app; right; left).
    assert (Hp' : p ∈ base :: (free_at lo t1).*1) by (apply (list_elem_of_fmap_2 fst _ (p, ps)) in Hp; exact Hp).
    apply elem_of_cons in Hp as [[= -> ->]|Hp]; [unfold bp; split_and!; (done || lia || auto)|].
    apply at_flag_in in Hp; [|done]. cbn in Hp. unfold bp. split_and!; (done || lia || auto).
Qed.

(** The loop finds the block before the one that is freed. *)
Lemma free_finds A p ps : (base, 0) :: free_at lo t1 = A ++ [(p, ps)] ->
  free_pos (hmem h) bp (freep h) (turns h) = Some p.
Proof.
  intros E. destruct free_tiles as (Hs1 & Hn & Hs2 & _ & _ & Hbrk & Ht1 & Ht2).
  destruct (free_ring A p ps E) as (Hr & Hp & _).
  eapply (free_pos_finds base); [exact Hr|lia| | |].
  - intros y Hy. apply at_flag_in in Hy; [|done]. lia.
  - pose proof (ok_freep _ _ Hok) as Hf. rewrite at_flag_app in Hf. cbn [at_flag Bool.eqb app] in Hf. fold bp in Hf.
    change (freep h ∈ ((base, 0) :: free_at lo t1 ++ free_at (bp + 8 * n) t2).*1) in Hf.
    rewrite app_comm_cons, E, <- app_assoc in Hf. exact Hf.
  - assert (Hl : length ((base, 0) :: free_at lo t1) = length (A ++ [(p, ps)])) by by rewrite E.
    rewrite length_app in Hl. cbn in Hl. pose proof (at_flag_length true t1 Hs1 lo).
    pose proof (at_flag_length true t2 Hs2 (bp + 8 * n)). pose proof (ok_base _ _ Hok). unfold turns, bp in *. lia.
Qed.

(** The used blocks but for the one freed. *)
Lemma free_others x : x ∈ used_at lo t1 ++ used_at (bp + 8 * n) t2 ->
  x ∈ used_at lo (t1 ++ (n, false) :: t2) /\ (x.1 + 8 * x.2 <= bp \/ bp + 8 * n <= x.1).
Proof.
  intros Hx. destruct free_tiles as (Hs1 & Hn & Hs2 & _).
  split.
  - rewrite at_flag_app. cbn [at_flag Bool.eqb]. fold bp. rewrite !elem_of_app in *. tauto.
  - apply elem_of_app in Hx as [Hx|Hx]; apply at_flag_in in Hx; unfold bp; (done || lia).
Qed.

(** The memory after the two joins. *)
Lemma free_chain A p ps : (base, 0) :: free_at lo t1 = A ++ [(p, ps)] ->
  let m1 := join (hmem h) bp (ptr (hmem h) p) in
  let m2 := join m1 p bp in
  chain m2 (A ++ absorb p ps (absorb bp n (free_at (bp + 8 * n) t2))) base /\
  forall x, ~ (bp <= x < bp + 8) -> ~ (p <= x < p + 8) -> m2 x = hmem h x.
Proof.
  intros E m1 m2. destruct free_tiles as (Hs1 & Hn & Hs2 & Ha1 & Ha2 & Hbrk & Ht1 & Ht2).
  destruct (free_ring A p ps E) as (Hr & Hp & Hps & Hpb & Hpl & _). pose proof (ok_base _ _ Hok) as Hb.
  pose proof (ok_brk _ _ Hok) as [_ Hlt]. destruct (ring_next _ _ _ _ _ _ Hr) as [Enext Esz].
  assert (Hm1 : same_outside bp (bp + 8) (hmem h) m1) by apply join_outside.
  assert (Hm2 : same_outside p (p + 8) m1 m2) by apply join_outside.
  split; [|intros x H1 H2; rewrite (Hm2 x H2); by apply Hm1].
  assert (Hchain1 : chain m1 (absorb bp n (free_at (bp + 8 * n) t2)) base).
  { unfold m1. rewrite Enext. apply join_spec.
    - apply (ok_used _ _ Hok (bp, n)). rewrite at_flag_app. cbn [at_flag Bool.eqb app]. apply elem_of_app. right. left.
    - destruct Hr as [Hc _]. apply chain_app in Hc as [_ Hc]. apply Hc.
    - intros b Hin. apply at_flag_in in Hin; [|done]. lia.
    - unfold bp. lia.
    - lia.
    - lia.
    - rewrite <- Enext. apply ptr_range.
    - intros _. unfold bp. lia.
    - intros b Hin. apply at_flag_in in Hin; [|done]. unfold bp in *. lia. }
  destruct (absorb_right n t2 bp Hn Hs2 Ha2) as (n' & t2' & E' & _ & Ht & Hn' & _ & Hs').
  rewrite E' in *. cbn [at_flag Bool.eqb app] in *. apply Forall_cons in Hs' as [_ Hs']. pose proof (total_nonneg _ Hs').
  apply chain_app. split.
  - replace (head _ base) with p by (cbn; by destruct (p + 8 * ps =? bp)).
    destruct Hr as (Hc & _). apply chain_app in Hc as [Hc _]. eapply chain_frame; [|exact Hc]. intros a t Hin.
    assert (Hin' : (a, t) ∈ (base, 0) :: free_at lo t1) by (rewrite E; apply elem_of_app; by left).
    assert (Hpin : (p, ps) ∈ (base, 0) :: free_at lo t1) by (rewrite E; apply elem_of_app; right; left).
    destruct (free_ring A p ps E) as ((_ & Hs & _) & _). apply sorted_split in Hs as [Hs _].
    pose proof (nodes_apart t1 (a, t) (p, ps) ltac:(lia) Hs1 Hin' Hpin (Hs _ Hin)) as Hap. cbn in Hap.
    eapply same_header_trans; [apply (outside_header _ _ _ a Hm1); lia|apply (outside_header _ _ _ a Hm2); lia].
  - apply (join_spec m1 p ps ((bp, n') :: free_at (bp + 8 * n') t2') base).
    + destruct (outside_header _ _ _ p Hm1) as [-> _]; [lia|done].
    + exact Hchain1.
    + intros b [->|Hin]%elem_of_cons; [cbn; lia|]. apply at_flag_in in Hin; [|done]. lia.
    + lia.
    + lia.
    + lia.
    + cbn. unfold bp in *. lia.
    + done.
    + intros b [->|Hin]%elem_of_cons; [cbn; unfold bp in *; lia|]. apply at_flag_in in Hin; [|done]. unfold bp in *. lia.
Qed.

(** [free] of a used block gives it back, and keeps every other. *)
Lemma free_ok : exists h' ts', free (bp + 8) h = Some h' /\ heap_ok h' ts' /\
  used_at lo ts' = used_at lo t1 ++ used_at (bp + 8 * n) t2 /\ brk h' = brk h /\
  kept ts' (hmem h) (hmem h') /\ (exists x, x ∈ free_at lo ts' /\ n <= x.2) /\
  (length (free_at lo ts') <= length (free_at lo (t1 ++ (n, false) :: t2)) + 1)%nat.
Proof.
  destruct free_tiles as (Hs1 & Hn & Hs2 & Ha1 & Ha2 & Hbrk & Ht1 & Ht2). pose proof (ok_base _ _ Hok) as Hb.
  pose proof (ok_brk _ _ Hok) as [_ Hlt].
  destruct (last_node t1) as (A & p & ps & E). destruct (free_ring A p ps E) as (Hr & Hp & Hps & Hpb & Hp8 & Hpin).
  destruct (free_chain A p ps E) as [Hc Hout]. cbv zeta in Hc, Hout.
  destruct (absorb_right n t2 bp Hn Hs2 Ha2) as (n' & t2' & E' & Eu & Ht & Hn' & Ha' & Hs'). rewrite E' in Hc.
  destruct (absorb_left base lo t1 n' t2' A p ps ltac:(lia) Hs1 Ha1 Hs' Ha' E) as (ts' & Ets & Eus & Htot & Hap & Hsz).
  fold bp in Ets, Eus. rewrite Ets in Hc. rewrite <- Eu in Eus.
  set (m2 := join _ p bp) in *.
  assert (Hkept : kept ts' (hmem h) m2).
  { intros x Hx. rewrite Eus in Hx. destruct (free_others x Hx) as [Hu Hd]. intros y Hy.
    assert (Hnode : (p, ps) ∈ (base, 0) :: free_at lo (t1 ++ (n, false) :: t2)).
    { rewrite at_flag_app, app_comm_cons, E, elem_of_app. left. apply elem_of_app. right. left. }
    pose proof (node_apart _ _ _ ltac:(lia) (ok_sized _ _ Hok) Hnode Hu) as Hd'. cbn in Hd'.
    apply Hout; lia. }
  assert (Hin : (if p + 8 * ps =? bp then (p, ps + n') else (bp, n')) ∈ (base, 0) :: free_at lo ts' /\
    p ∈ base :: (free_at lo ts').*1).
  { change (base :: (free_at lo ts').*1) with ((base, 0) :: free_at lo ts').*1. rewrite <- Ets. cbn [at_flag Bool.eqb app absorb].
    destruct (p + 8 * ps =? bp); rewrite fmap_app, !elem_of_app; split; right; repeat (left || right). }
  destruct Hin as [Hin Hfp].
  exists (mkHeap m2 p (brk h)), ts'. split; [|split; [|split; [exact Eus|split; [reflexivity|split; [exact Hkept|]]]]].
  - unfold free. replace (plus (bp + 8) (-1)) with bp by (unfold plus; rewrite u32_small; unfold bp in *; lia).
    rewrite (free_finds A p ps E). reflexivity.
  - split; cbn [hmem freep brk]; try done; [rewrite Htot; unfold bp in *; lia|].
    intros x Hx. rewrite <- (ok_used _ _ Hok x) by (apply free_others; by rewrite <- Eus).
    pose proof (at_flag_in _ _ Hsz _ _ Hx). apply load32_same. intros y Hy. apply (Hkept x Hx). lia.
  - split.
    + destruct (p + 8 * ps =? bp); apply elem_of_cons in Hin as [[= ? ?]|Hin]; try lia; eexists; (split; [exact Hin|]); cbn; lia.
    + rewrite <- E' in Ets. apply (f_equal length) in E, Ets. rewrite !length_app in *. cbn in E, Ets.
      rewrite at_flag_app, length_app. cbn [at_flag Bool.eqb app]. fold bp.
      pose proof (absorb_length p ps (absorb bp n (free_at (bp + 8 * n) t2))).
      pose proof (absorb_length bp n (free_at (bp + 8 * n) t2)). lia.
Qed.

End free.
(** *** Taking a block off the ring *)

Section take.
Context (h : heap) (ts : tiles) (k p s x xs : Z).
Context (Hok : heap_ok h ts) (Hp : (p, s) ∈ free_at lo ts) (Hk : 1 <= k <= s).
Context (Hx : (x, xs) ∈ (base, 0) :: free_at lo ts) (Hnext : ptr (hmem h) x = p).

(** What the heap is after a block of [k] units at [r] was taken. *)
Definition taken (h : heap) (ts : tiles) (r k : Z) (h' : heap) : Prop :=
  exists ts' u1 u2, heap_ok h' ts' /\ brk h' = brk h /\ kept ts (hmem h) (hmem h') /\
    used_at lo ts = u1 ++ u2 /\ used_at lo ts' = u1 ++ (r, k) :: u2.

Lemma take_split : exists t1 t2 A, ts = t1 ++ (s, true) :: t2 /\ p = lo + 8 * total t1 /\
  (base, 0) :: free_at lo t1 = A ++ [(x, xs)] /\ ptr (hmem h) p = head (free_at (p + 8 * s) t2) base /\
  size (hmem h) p = s /\ x + 8 <= p.
Proof.
  pose proof (ok_base _ _ Hok) as Hb. destruct (at_flag_split _ _ _ _ Hp) as (t1 & t2 & E & Ep). cbn in E, Ep.
  pose proof (at_flag_in _ _ (ok_sized _ _ Hok) _ _ Hp) as Hr. cbn in Hr.
  pose proof (ok_is_ring _ _ Hok) as Hring. pose proof Hx as Hx'.
  rewrite E, at_flag_app in Hring, Hx'. cbn [at_flag Bool.eqb app] in Hring, Hx'. rewrite <- Ep in *.
  rewrite app_comm_cons in Hring, Hx'.
  destruct (ring_pred _ _ _ _ _ _ _ _ Hring ltac:(lia) Hx' Hnext) as (A & EA).
  destruct (ring_next _ _ _ _ _ _ Hring) as [E1 E2].
  exists t1, t2, A. split_and!; try done. pose proof Hring as (_ & Hs & _). apply sorted_split in Hs as [Hs _].
  assert (Hxin : (x, xs) ∈ (base, 0) :: free_at lo t1) by (rewrite EA; apply elem_of_app; right; left).
  apply (nodes_apart ts (x, xs) (p, s)); [lia|apply Hok|done|by right|by apply Hs].
Qed.

(** The whole block. *)
Lemma take_all : k = s -> taken h ts p k (mkHeap (set_ptr (hmem h) x (ptr (hmem h) p)) x (brk h)).
Proof.
  intros ->. destruct take_split as (t1 & t2 & A & E & Ep & EA & E1 & E2 & Hxp). pose proof (ok_base _ _ Hok) as Hb.
  pose proof (at_flag_in _ _ (ok_sized _ _ Hok) _ _ Hp) as Hr. cbn in Hr.
  set (m' := set_ptr (hmem h) x (ptr (hmem h) p)).
  assert (Hm' : same_outside x (x + 8) (hmem h) m') by apply set_ptr_outside.
  assert (Hkept : kept ts (hmem h) m').
  { intros y Hy z Hz. apply Hm'. pose proof (node_apart ts _ _ ltac:(lia) (ok_sized _ _ Hok) Hx Hy) as Hd. cbn in Hd. lia. }
  pose proof (ok_is_ring _ _ Hok) as (Hc & Hs & _). pose proof (ok_sized _ _ Hok) as Hsz.
  rewrite E, at_flag_app, app_comm_cons, EA in Hc, Hs. cbn [at_flag Bool.eqb app] in Hc, Hs. rewrite <- Ep, <- app_assoc in Hc, Hs.
  apply chain_app in Hc as [Hc1 Hc2]. cbn [app chain head] in Hc2. destruct Hc2 as (Hx1 & _ & _ & _ & Hc2).
  apply sorted_split in Hs as [Hs1 Hs2].
  assert (Hfree : (base, 0) :: free_at lo (t1 ++ (s, false) :: t2) = A ++ (x, xs) :: free_at (p + 8 * s) t2).
  { rewrite at_flag_app, app_comm_cons, EA, <- app_assoc. cbn [at_flag Bool.eqb app]. by rewrite <- Ep. }
  exists (t1 ++ (s, false) :: t2), (used_at lo t1), (used_at (p + 8 * s) t2).
  split; [split; cbn [hmem freep brk]|split; [done|split; [done|]]].
  - exact Hb.
  - pose proof (ok_brk _ _ Hok) as Hbrk. rewrite E in Hbrk. rewrite total_app in *. cbn in *. done.
  - rewrite E in Hsz. apply Forall_app in Hsz as [? [? ?]%Forall_cons]. apply Forall_app. split; [done|]. by constructor.
  - pose proof (ok_apart _ _ Hok) as Hap. rewrite E in Hap. apply apart_app in Hap as (H1 & H2 & _).
    apply apart_cons in H2 as [H2 _]. apply apart_app. split; [done|]. split; [done|]. by rewrite andb_false_r.
  - rewrite Hfree. apply chain_app. split.
    + cbn [head] in *. eapply chain_frame; [|exact Hc1]. intros a t Ha. eapply outside_header; [exact Hm'|].
      assert (Ha' : (a, t) ∈ (base, 0) :: free_at lo ts).
      { rewrite E, at_flag_app, app_comm_cons, EA, !elem_of_app. tauto. }
      pose proof (nodes_apart ts (a, t) (x, xs) ltac:(lia) (ok_sized _ _ Hok) Ha' Hx (Hs1 _ Ha)) as Hd. cbn in Hd. lia.
    + cbn [chain]. destruct (set_ptr_here (hmem h) x (ptr (hmem h) p)) as [P1 P2]. fold m' in P1, P2.
      rewrite P1, P2, u32_small by apply ptr_range. split; [done|]. split; [done|].
      eapply chain_frame; [|exact Hc2]. intros a t Ha. eapply outside_header; [exact Hm'|].
      rewrite E in Hsz. apply Forall_app in Hsz as [_ [_ Hsz]%Forall_cons]. apply at_flag_in in Ha; [|done]. cbn in Ha. lia.
  - change (base :: (free_at lo (t1 ++ (s, false) :: t2)).*1) with ((base, 0) :: free_at lo (t1 ++ (s, false) :: t2)).*1.
    rewrite Hfree, fmap_app, elem_of_app. right. left.
  - intros y Hy. assert (y = (p, s) \/ y ∈ used_at lo ts) as [->|Hy'].
    { rewrite E. rewrite at_flag_app in *. cbn [at_flag Bool.eqb app] in *. rewrite <- Ep in *.
      rewrite elem_of_app, elem_of_cons in Hy. rewrite elem_of_app. tauto. }
    + cbn. destruct (outside_header _ _ _ p Hm') as [-> _]; [lia|done].
    + by apply (used_kept h ts).
  - rewrite E, !at_flag_app. cbn [at_flag Bool.eqb app]. by rewrite <- Ep.
Qed.

(** A node other than [p] is outside the block. *)
Lemma node_outside y : y ∈ (base, 0) :: free_at lo ts -> y = (p, s) \/ y.1 + 8 <= p \/ p + 8 * s <= y.1.
Proof.
  pose proof (ok_base _ _ Hok) as Hb. pose proof (ok_sized _ _ Hok) as Hs.
  pose proof (at_flag_in _ _ Hs _ _ Hp) as Hr. cbn in Hr. intros [->|Hy]%elem_of_cons; [cbn; lia|].
  pose proof (at_flag_in _ _ Hs _ _ Hy). destruct (tiles_disjoint true true ts Hs lo y (p, s) Hy Hp) as [[-> _]|Hd]; [by left|].
  cbn in Hd. lia.
Qed.

(** The two headers that a split writes. *)
Lemma part_mem : k < s ->
  let r := p + 8 * (s - k) in
  let m' := set_size (set_size (hmem h) p (s - k)) r k in
  same_outside p (p + 8 * s) (hmem h) m' /\ kept ts (hmem h) m' /\
  size m' p = s - k /\ ptr m' p = ptr (hmem h) p /\ size m' r = k.
Proof.
  intros Hlt r m'. pose proof (ok_brk _ _ Hok) as [Hbrk Hmax]. pose proof (ok_sized _ _ Hok) as Hsz.
  pose proof (ok_base _ _ Hok) as Hb. pose proof (at_flag_in _ _ Hsz _ _ Hp) as Hr. cbn in Hr.
  assert (Hm' : same_outside p (p + 8 * s) (hmem h) m').
  { intros z Hz. unfold m'. rewrite (set_size_outside _ r k z), (set_size_outside _ p (s - k) z); unfold r; (done || lia). }
  split; [done|]. split.
  { intros y Hy z Hz. apply Hm'. destruct (tiles_disjoint true false ts Hsz lo (p, s) y Hp Hy) as [[_ ?]|Hd]; [done|].
    cbn in Hd. lia. }
  destruct (set_size_here (hmem h) p (s - k)) as [P1 P2].
  destruct (set_size_here (set_size (hmem h) p (s - k)) r k) as [Q1 _].
  destruct (set_size_same (set_size (hmem h) p (s - k)) r k p) as [R1 R2]; [unfold r; lia|].
  unfold m'. rewrite R1, R2, P1, P2, Q1, !u32_small by lia. done.
Qed.

(** The blocks around a split. *)
Lemma part_tiles t1 t2 : p = lo + 8 * total t1 ->
  let ts' := t1 ++ (s - k, true) :: (k, false) :: t2 in
  (base, 0) :: free_at lo ts' = ((base, 0) :: free_at lo t1) ++ (p, s - k) :: free_at (p + 8 * s) t2 /\
  used_at lo ts' = used_at lo t1 ++ (p + 8 * (s - k), k) :: used_at (p + 8 * s) t2.
Proof.
  intros Ep ts'. unfold ts'. rewrite !at_flag_app. cbn [at_flag Bool.eqb app]. rewrite <- Ep.
  by replace (p + 8 * (s - k) + 8 * k) with (p + 8 * s) by lia.
Qed.

Lemma whole_tiles t1 t2 : ts = t1 ++ (s, true) :: t2 -> p = lo + 8 * total t1 ->
  (base, 0) :: free_at lo ts = ((base, 0) :: free_at lo t1) ++ (p, s) :: free_at (p + 8 * s) t2 /\
  used_at lo ts = used_at lo t1 ++ used_at (p + 8 * s) t2.
Proof. intros E Ep. rewrite E, !at_flag_app. cbn [at_flag Bool.eqb app]. by rewrite <- Ep. Qed.

(** The ring after a split: only the size of [p] is another. *)
Lemma part_chain m' L R : (base, 0) :: free_at lo ts = L ++ (p, s) :: R ->
  same_outside p (p + 8 * s) (hmem h) m' -> size m' p = s - k -> ptr m' p = ptr (hmem h) p ->
  chain m' (L ++ (p, s - k) :: R) base.
Proof.
  intros Hold Hm' Hps Hpp. pose proof (ok_is_ring _ _ Hok) as (Hc & Hs & _).
  assert (Hrest : forall y, y ∈ (base, 0) :: free_at lo ts -> y <> (p, s) -> same_header (hmem h) m' y.1).
  { intros y Hy Hne. destruct (node_outside y Hy) as [?|Hd]; [done|]. split; apply load32_same; intros z Hz; apply Hm'; lia. }
  rewrite Hold in Hc, Hs, Hrest. apply chain_app in Hc as [Hc1 (_ & E1 & Hc2)]. apply sorted_split in Hs as [Hs1 Hs2].
  apply chain_app. split; [|cbn [chain]; rewrite Hps, Hpp, E1; split; [done|]; split; [done|]].
  - cbn [head] in *. eapply chain_frame; [|exact Hc1]. intros a t Ha. apply (Hrest (a, t)).
    + rewrite elem_of_app. by left.
    + intros [= -> ->]. specialize (Hs1 _ Ha). lia.
  - eapply chain_frame; [|exact Hc2]. intros a t Ha. apply (Hrest (a, t)).
    + rewrite elem_of_app. right. by right.
    + intros [= -> ->]. specialize (Hs2 _ Ha). lia.
Qed.

(** The last [k] units of the block. *)
Lemma take_part : k < s ->
  let m := set_size (hmem h) p (s - k) in
  let r := p + 8 * (s - k) in
  taken h ts r k (mkHeap (set_size m r k) x (brk h)).
Proof.
  intros Hlt m r. destruct take_split as (t1 & t2 & A & E & Ep & EA & _). destruct (part_mem Hlt) as (Hm' & Hkept & Hps & Hpp & Hrs).
  fold r in Hm', Hkept, Hps, Hpp, Hrs. fold m in Hm', Hkept, Hps, Hpp, Hrs. pose proof (ok_sized _ _ Hok) as Hsz.
  destruct (part_tiles t1 t2 Ep) as [Hfree Hu]. destruct (whole_tiles t1 t2 E Ep) as [Hold Hu0].
  rewrite E in Hsz. apply Forall_app in Hsz as [Hz1 [_ Hz2]%Forall_cons].
  exists (t1 ++ (s - k, true) :: (k, false) :: t2), (used_at lo t1), (used_at (p + 8 * s) t2).
  split; [split; cbn [hmem freep brk]|by split_and!].
  - apply Hok.
  - pose proof (ok_brk _ _ Hok) as [Hbrk Hmax]. rewrite E, total_app in Hbrk. rewrite total_app. cbn in *. split; [lia|done].
  - apply Forall_app. split; [done|]. repeat (constructor; [cbn; lia|]). done.
  - pose proof (ok_apart _ _ Hok) as Hap. rewrite E in Hap. apply apart_app in Hap as (H1 & H2 & H3).
    apply apart_cons in H2 as [H2 _]. apply apart_app. split; [done|]. split; [|done]. by rewrite !apart_cons.
  - rewrite Hfree. by apply part_chain.
  - change (base :: (free_at lo (t1 ++ (s - k, true) :: (k, false) :: t2)).*1)
      with ((base, 0) :: free_at lo (t1 ++ (s - k, true) :: (k, false) :: t2)).*1.
    rewrite Hfree, EA, fmap_app, fmap_app, !elem_of_app. left. right. left.
  - intros y Hy. rewrite Hu, elem_of_app, elem_of_cons in Hy.
    assert (y = (r, k) \/ y ∈ used_at lo ts) as [->|Hy'] by (rewrite Hu0, elem_of_app; tauto); [done|].
    by apply (used_kept h ts).
Qed.

End take.

(** *** The search of [malloc] *)

Section search.
Context (grow : Z -> Z -> bool) (h : heap) (ts : tiles) (k : Z).
Context (Hok : heap_ok h ts) (Hk : 1 <= k < 2 ^ 29).
Let N := (base, 0) :: free_at lo ts.

(** The loop at a block that is large enough. *)
Lemma loop_takes p s x xs fuel : (p, s) ∈ N -> (x, xs) ∈ N -> ptr (hmem h) x = p -> size (hmem h) p = s -> k <= s ->
  exists r h', malloc_loop grow k x p h (S fuel) = Some (r + 8, h') /\ taken h ts r k h'.
Proof.
  intros Hp Hx Hn Hs Hks. apply elem_of_cons in Hp as [[= -> ->]|Hp]; [lia|].
  pose proof (at_flag_in _ _ (ok_sized _ _ Hok) _ _ Hp) as Hr. cbn in Hr. pose proof (ok_brk _ _ Hok) as [Hb Hmax].
  pose proof (ok_base _ _ Hok) as Hb0.
  cbn [malloc_loop]. rewrite Hs. destruct (Z.geb_spec s k); [|lia]. destruct (Z.eqb_spec s k) as [->|Hne].
  - exists p. eexists. split; [unfold plus; rewrite u32_small by lia; reflexivity|].
    eapply take_all; [exact Hok|exact Hp|lia|exact Hx|exact Hn|done].
  - destruct (set_size_here (hmem h) p (s - k)) as [P1 _].
    rewrite P1, (u32_small (s - k)) by lia. unfold plus at 2 3. rewrite (u32_small (p + 8 * (s - k))) by lia.
    exists (p + 8 * (s - k)). eexists. split; [unfold plus; rewrite u32_small by lia; do 2 f_equal; lia|].
    eapply take_part; [exact Hok|exact Hp|lia|exact Hx|exact Hn|lia].
Qed.

(** The nodes [V] still to be visited, the last of which is [freep]. *)
Lemma loop_searches V2 : forall p s x xs fuel e fs,
  chain (hmem h) ((p, s) :: V2) e -> (forall v, v ∈ (p, s) :: V2 -> v ∈ N) -> last ((p, s) :: V2) = Some (freep h, fs) ->
  NoDup ((p, s) :: V2).*1 -> (x, xs) ∈ N -> ptr (hmem h) x = p -> (length V2 < fuel)%nat ->
  (exists r h', malloc_loop grow k x p h fuel = Some (r + 8, h') /\ taken h ts r k h') \/
  (forall v, v ∈ (p, s) :: V2 -> v.2 < k) /\
  malloc_loop grow k x p h fuel =
    ('(p, h) ← morecore grow k h;
     if p =? 0 then Some (0, h) else malloc_loop grow k p (ptr (hmem h) p) h (fuel - length V2 - 1)).
Proof.
  induction V2 as [|[q t] V2 IH]; intros p s x xs [|fuel] e fs Hc Hin Hlast Hnd Hx Hn Hf; cbn [length] in Hf; try lia;
    pose proof Hc as (Hs & Hnext & Hc');
    (destruct (Z.leb_spec k s) as [Hks|Hks]; [left; eapply loop_takes; eauto; apply Hin; left|]).
  - right. split; [intros v Hv; apply list_elem_of_singleton in Hv; by subst|].
    injection Hlast as -> ->. cbn [malloc_loop]. rewrite Hs. destruct (Z.geb_spec fs k); [lia|].
    rewrite Z.eqb_refl. cbn [length]. by rewrite Nat.sub_0_r, Nat.sub_succ, Nat.sub_0_r.
  - change (last ((q, t) :: V2) = Some (freep h, fs)) in Hlast.
    assert (Hpf : p <> freep h).
    { rewrite fmap_cons in Hnd. apply NoDup_cons in Hnd as [Hnd _]. intros ->. apply Hnd.
      apply last_Some_elem_of in Hlast. by apply (list_elem_of_fmap_2 fst _ _ Hlast). }
    assert (Hstep : malloc_loop grow k x p h (S fuel) = malloc_loop grow k p q h fuel).
    { cbn [malloc_loop]. rewrite Hs, Hnext. destruct (Z.geb_spec s k); [lia|]. by rewrite (proj2 (Z.eqb_neq _ _) Hpf). }
    rewrite Hstep. destruct (IH q t p s fuel e fs) as [H|[Hall H]]; try done.
    + intros v Hv. apply Hin. by right.
    + rewrite fmap_cons in Hnd. by apply NoDup_cons in Hnd as [_ Hnd].
    + apply Hin. left.
    + lia.
    + by left.
    + right. split; [|by rewrite H]. intros v [->|Hv]%elem_of_cons; [done|by apply Hall].
Qed.

(** The ring from the block after [freep] round to [freep]. *)
Lemma ring_rotated : exists p s V2 fs e,
  chain (hmem h) ((p, s) :: V2) e /\ (forall v, v ∈ (p, s) :: V2 <-> v ∈ N) /\ last ((p, s) :: V2) = Some (freep h, fs) /\
  NoDup ((p, s) :: V2).*1 /\ (freep h, fs) ∈ N /\ ptr (hmem h) (freep h) = p /\ length V2 = length (free_at lo ts).
Proof.
  pose proof (ok_freep _ _ Hok) as Hf. change (freep h ∈ N.*1) in Hf.
  apply list_elem_of_fmap in Hf as ([f fs] & -> & Hf). cbn [fst].
  pose proof (ok_is_ring _ _ Hok) as Hr. fold N in Hr. apply list_elem_of_split in Hf as (X & Y & E).
  assert (Hnd : NoDup N.*1).
  { destruct Hr as (_ & Hs & _). clear E. induction Hs as [|v l _ IH Hv]; [constructor|]. rewrite fmap_cons. apply NoDup_cons.
    split; [|done]. intros (w & Ew & Hw)%list_elem_of_fmap. rewrite Forall_forall in Hv. specialize (Hv w Hw).
    unfold before in Hv. lia. }
  assert (Hperm : N ≡ₚ Y ++ X ++ [(f, fs)]) by (rewrite E; solve_Permutation).
  assert (Hne : exists p s V2, Y ++ X ++ [(f, fs)] = (p, s) :: V2)
    by (destruct Y as [|[? ?] ?]; [destruct X as [|[? ?] ?]|]; cbn; eauto).
  destruct Hne as (p & s & V2 & EV). exists p, s, V2, fs, (head Y base). rewrite <- EV.
  pose proof Hr as (Hc & _ & r & Er). rewrite E in Hc, Hr, Er.
  change ((f, fs) :: Y) with ([(f, fs)] ++ Y) in Hc. rewrite app_assoc in Hc. apply chain_app in Hc as [Hc1 Hc2].
  destruct (ring_next _ _ _ _ _ _ Hr) as [Hnext _].
  split_and!.
  - apply chain_app. split; [|exact Hc1]. replace (head (X ++ [(f, fs)]) (head Y base)) with base; [done|].
    destruct X as [|[y t] X]; cbn in *; by injection Er as -> _ _.
  - intros v. by rewrite Hperm.
  - by rewrite app_assoc, last_snoc.
  - by rewrite <- Hperm.
  - rewrite E. apply elem_of_app. right. left.
  - rewrite Hnext. destruct Y as [|[y t] Y]; cbn in *; [|by injection EV].
    destruct X as [|[y t] X]; cbn in *; injection EV as -> _ _; by injection Er as -> _ _.
  - apply Permutation_length in Hperm. rewrite EV in Hperm. cbn in Hperm. lia.
Qed.

Lemma loop_from_freep fuel : (length (free_at lo ts) < fuel)%nat ->
  let loop := malloc_loop grow k (freep h) (ptr (hmem h) (freep h)) h fuel in
  (exists r h', loop = Some (r + 8, h') /\ taken h ts r k h') \/
  (forall v, v ∈ free_at lo ts -> v.2 < k) /\
  loop = ('(p, h) ← morecore grow k h;
    if p =? 0 then Some (0, h)
    else malloc_loop grow k p (ptr (hmem h) p) h (fuel - length (free_at lo ts) - 1)).
Proof.
  intros Hf loop. destruct ring_rotated as (p & s & V2 & fs & e & Hc & Hin & Hl & Hnd & Hfp & Hn & Hlen).
  unfold loop. rewrite Hn, <- Hlen in *.
  destruct (loop_searches V2 p s (freep h) fs fuel e fs) as [H|[Hall H]]; try done; [by intros v ?%Hin|by left|].
  right. split; [|done]. intros v Hv. apply Hall, Hin. by right.
Qed.

End search.

(** *** [malloc] *)

Section malloc.
Context (grow : Z -> Z -> bool).
(** The system does not grow a process past the end of the address space. *)
Context (Hgrow : forall b n, grow b n = true -> 0 <= n -> b + n < 2 ^ 32).

(** A used block is put behind the heap. *)
Lemma extend_ok h ts nu : heap_ok h ts -> 1 <= nu -> brk h + 8 * nu < 2 ^ 32 ->
  heap_ok (mkHeap (set_size (hmem h) (brk h) nu) (freep h) (brk h + 8 * nu)) (ts ++ [(nu, false)]) /\
  kept ts (hmem h) (set_size (hmem h) (brk h) nu).
Proof.
  intros Hok Hnu Hlt. pose proof (ok_brk _ _ Hok) as [Hb _]. pose proof (ok_base _ _ Hok) as Hb0.
  pose proof (ok_sized _ _ Hok) as Hs. pose proof (total_nonneg _ Hs).
  assert (Hout : same_outside (brk h) (brk h + 8) (hmem h) (set_size (hmem h) (brk h) nu)) by apply set_size_outside.
  assert (Hkept : kept ts (hmem h) (set_size (hmem h) (brk h) nu)).
  { intros x Hx z Hz. apply Hout. apply at_flag_in in Hx; [|done]. lia. }
  split; [|done]. split; cbn [hmem freep brk].
  - exact Hb0.
  - rewrite total_app. cbn. lia.
  - apply Forall_app. split; [done|]. by repeat constructor.
  - apply apart_app. split; [apply Hok|]. split; [done|]. by rewrite andb_false_r.
  - rewrite at_flag_app. cbn [at_flag Bool.eqb app]. rewrite app_nil_r.
    eapply chain_frame; [|apply Hok]. intros a t Ha. eapply outside_header; [exact Hout|].
    apply elem_of_cons in Ha as [[= -> ->]|Ha]; [lia|]. apply at_flag_in in Ha; [|done]. cbn in Ha. lia.
  - rewrite at_flag_app. cbn [at_flag Bool.eqb app]. rewrite app_nil_r. apply Hok.
  - intros x Hx. rewrite at_flag_app, Hb in Hx. cbn [at_flag Bool.eqb app] in Hx.
    apply elem_of_app in Hx as [Hx|Hx].
    + by apply (used_kept h ts).
    + apply list_elem_of_singleton in Hx. subst x. cbn. destruct (set_size_here (hmem h) (brk h) nu) as [-> _].
      apply u32_small. lia.
Qed.

(** The system refuses the memory that a request of [k] units asks for. *)
Definition refused (h : heap) (k : Z) : Prop := grow (brk h) (8 * Z.max 4096 k) = false.

Lemma morecore_ok h ts k : heap_ok h ts -> 1 <= k < 2 ^ 28 ->
  refused h k /\ morecore grow k h = Some (0, h) \/
  exists h' ts', morecore grow k h = Some (freep h', h') /\ freep h' <> 0 /\ heap_ok h' ts' /\
    used_at lo ts' = used_at lo ts /\ kept ts (hmem h) (hmem h') /\ (exists x, x ∈ free_at lo ts' /\ k <= x.2) /\
    (length (free_at lo ts') <= length (free_at lo ts) + 1)%nat /\ brk h <= brk h'.
Proof.
  intros Hok Hk. unfold morecore. set (nu := if k <? 4096 then 4096 else k).
  assert (Hnu : k <= nu < 2 ^ 28) by (unfold nu; destruct (Z.ltb_spec k 4096); lia).
  assert (Hmax : 8 * Z.max 4096 k = nu * 8) by (unfold nu; destruct (Z.ltb_spec k 4096); lia). clearbody nu.
  unfold refused. rewrite Hmax.
  rewrite (i32_small (nu * 8)) by lia. unfold sbrk. destruct (grow (brk h) (nu * 8)) eqn:Eg; [|by left].
  right. pose proof (Hgrow _ _ Eg ltac:(lia)) as Hlt. pose proof (ok_brk _ _ Hok) as [Hb _]. pose proof (ok_base _ _ Hok) as Hb0.
  pose proof (total_nonneg _ (ok_sized _ _ Hok)). rewrite (u32_small (brk h + nu * 8)) by lia.
  rewrite (proj2 (Z.ltb_ge (nu * 8) 0)) by lia. cbn [andb].
  destruct (Z.eqb_spec (brk h) (u32 (-1))) as [E|_]; [change (u32 (-1)) with (2 ^ 32 - 1) in E; lia|].
  cbn [hmem freep brk]. unfold plus. rewrite u32_small by lia.
  destruct (extend_ok h ts nu Hok ltac:(lia) ltac:(lia)) as [Hok1 Hk1].
  replace (brk h + nu * 8) with (brk h + 8 * nu) by lia.
  destruct (free_ok _ ts [] nu Hok1) as (h' & ts' & R & Hok' & Hu & Hbrk & Hkept & (x & Hx & Hxk) & Hlen).
  replace (brk h + 8 * 1) with (lo + 8 * total ts + 8) by lia. rewrite R. exists h', ts'.
  cbn [at_flag] in Hu. rewrite app_nil_r in Hu.
  split; [done|]. split.
  { pose proof (ok_freep _ _ Hok') as Hf. apply elem_of_cons in Hf as [->|(y & -> & Hy)%list_elem_of_fmap]; [lia|].
    apply at_flag_in in Hy; [|apply Hok']. lia. }
  split; [done|]. split; [done|]. split; [|split; [exists x; split; [done|lia]|split]].
  - intros y Hy z Hz. rewrite (Hkept y ltac:(by rewrite Hu) z Hz). by apply (Hk1 y Hy).
  - rewrite at_flag_app in Hlen. cbn [at_flag Bool.eqb app] in Hlen. by rewrite app_nil_r in Hlen.
  - rewrite Hbrk. cbn. lia.
Qed.

(** What [malloc] makes of the heap: 0 when no free block is large enough and the
    system refuses more memory, else a new block. *)
Definition allocated (h : heap) (ts : tiles) (k : Z) (r : Z) (h' : heap) : Prop :=
  r = 0 /\ refused h k /\ (forall v, v ∈ free_at lo ts -> v.2 < k) /\ h' = h \/
  exists ts' a u1 u2, r = a + 8 /\ heap_ok h' ts' /\ kept ts (hmem h) (hmem h') /\ brk h <= brk h' /\
    used_at lo ts = u1 ++ u2 /\ used_at lo ts' = u1 ++ (a, k) :: u2.

Lemma taken_allocated h ts k r h' : taken h ts r k h' -> allocated h ts k (r + 8) h'.
Proof.
  intros (ts' & u1 & u2 & H1 & H2 & H3 & H4 & H5). right. exists ts', r, u1, u2.
  split_and!; try done. by rewrite H2.
Qed.

(** The blocks on the ring from [freep], which [malloc] looks through. *)
Definition on_ring (h : heap) (p : Z) : Prop := exists k, p = Nat.iter k (ptr (hmem h)) (freep h).

Lemma on_ring_free h ts p : heap_ok h ts -> on_ring h p ->
  exists s, (p, s) ∈ (base, 0) :: free_at lo ts /\ size (hmem h) p = s.
Proof.
  intros Hok [k ->]. pose proof (ok_is_ring h ts Hok) as Hr. set (N := (base, 0) :: free_at lo ts) in *.
  assert (Hin : Nat.iter k (ptr (hmem h)) (freep h) ∈ N.*1).
  { induction k as [|k IH]; [exact (ok_freep _ _ Hok)|]. change (ptr (hmem h) (Nat.iter k (ptr (hmem h)) (freep h)) ∈ N.*1).
    apply list_elem_of_fmap in IH as ([x s] & -> & Hx). apply list_elem_of_split in Hx as (L & R & E).
    rewrite E in Hr. cbn [fst]. destruct (ring_next _ _ _ _ _ _ Hr) as [-> _].
    destruct R as [|[y z] R]; [unfold N; apply list_elem_of_here|]. rewrite E.
    apply (list_elem_of_fmap_2 fst _ (y, z)), elem_of_app. right. right. left. }
  apply list_elem_of_fmap in Hin as ([x s] & -> & Hx). exists s. split; [done|].
  apply list_elem_of_split in Hx as (L & R & E). rewrite E in Hr. by destruct (ring_next _ _ _ _ _ _ Hr).
Qed.

Lemma malloc_loop_ok h ts k fuel : heap_ok h ts -> 1 <= k < 2 ^ 28 -> (2 * length (free_at lo ts) + 4 <= fuel)%nat ->
  exists r h', malloc_loop grow k (freep h) (ptr (hmem h) (freep h)) h fuel = Some (r, h') /\ allocated h ts k r h'.
Proof.
  intros Hok Hk Hf.
  destruct (loop_from_freep grow h ts k Hok ltac:(lia) fuel ltac:(lia)) as [(r & h' & -> & Ht)|[Hsmall ->]].
  { exists (r + 8), h'. split; [done|]. by apply taken_allocated. }
  destruct (morecore_ok h ts k Hok Hk) as [[Hn ->]|(h1 & ts1 & -> & Hf0 & Hok1 & Hu & Hkept & (x & Hx & Hxk) & Hlen & Hbrk)].
  { exists 0, h. split; [done|]. left. done. }
  cbn [mbind option_bind]. rewrite (proj2 (Z.eqb_neq _ _) Hf0).
  destruct (loop_from_freep grow h1 ts1 k Hok1 ltac:(lia) (fuel - length (free_at lo ts) - 1) ltac:(lia))
    as [(r & h' & -> & (ts' & u1 & u2 & H1 & H2 & H3 & H4 & H5))|[Hno _]]; [|specialize (Hno x Hx); lia].
  exists (r + 8), h'. split; [done|]. right. exists ts', r, u1, u2. split_and!; try done; [|lia|by rewrite <- Hu].
  intros y Hy z Hz. rewrite (H3 y ltac:(by rewrite Hu) z Hz). by apply (Hkept y Hy).
Qed.

Lemma units_small n : 0 <= n < 2 ^ 31 - 16 -> 1 <= units n < 2 ^ 28 /\ n + 8 <= 8 * units n.
Proof.
  intros Hn. unfold units. rewrite (u32_small (n + 8 - 1)) by lia.
  pose proof (Z.div_mod (n + 8 - 1) 8 ltac:(lia)). pose proof (Z.mod_pos_bound (n + 8 - 1) 8 ltac:(lia)).
  rewrite u32_small; lia.
Qed.

Lemma heap_turns h ts : heap_ok h ts -> (length (free_at lo ts) + 4 <= turns h)%nat.
Proof.
  intros Hok. pose proof (ok_brk _ _ Hok) as [Hb _]. pose proof (ok_base _ _ Hok) as Hb0.
  pose proof (at_flag_length true ts (ok_sized _ _ Hok) lo). unfold turns. lia.
Qed.

Lemma freep_set h ts : heap_ok h ts -> (freep h =? 0) = false.
Proof.
  intros Hok. apply Z.eqb_neq. intros E. pose proof (ok_base _ _ Hok). pose proof (ok_freep _ _ Hok) as Hf.
  rewrite E in Hf. apply elem_of_cons in Hf as [?|(y & Ey & Hy)%list_elem_of_fmap]; [lia|].
  apply at_flag_in in Hy; [|apply Hok]. lia.
Qed.

Lemma malloc_ok h ts n : heap_ok h ts -> 0 <= n < 2 ^ 31 - 16 ->
  exists r h', malloc base grow n h = Some (r, h') /\ allocated h ts (units n) r h'.
Proof.
  intros Hok Hn. destruct (units_small n Hn) as [Hk _]. pose proof (heap_turns h ts Hok).
  unfold malloc. rewrite (freep_set h ts Hok). apply malloc_loop_ok; [done|done|lia].
Qed.


(** *** Clients *)

(** A program that allocates, frees what it was given and writes into what it
    holds: the heaps it can reach, and the blocks it holds then. *)
Inductive client : heap -> list (Z * Z) -> Prop :=
| client_start m : client (mkHeap m 0 lo) []
| client_malloc h live n r h' : client h live -> 0 <= n < 2 ^ 31 - 16 ->
    malloc base grow n h = Some (r, h') -> r <> 0 -> client h' ((r, n) :: live)
| client_refused h live n h' : client h live -> 0 <= n < 2 ^ 31 - 16 ->
    malloc base grow n h = Some (0, h') -> client h' live
| client_free h l1 r n l2 h' : client h (l1 ++ (r, n) :: l2) ->
    free r h = Some h' -> client h' (l1 ++ l2)
| client_write h live r n m : client h live -> (r, n) ∈ live ->
    same_outside r (r + n) (hmem h) m -> client (mkHeap m (freep h) (brk h)) live.

(** The block around a pointer that [malloc] gave out. *)
Definition block_of (x : Z * Z) : Z * Z := (x.1 - 8, units x.2).

Definition holds (h : heap) (live : list (Z * Z)) (ts : tiles) : Prop :=
  heap_ok h ts /\ used_at lo ts ≡ₚ block_of <$> live /\ Forall (fun x => 0 <= x.2 < 2 ^ 31 - 16) live.

(** The heap that the first [malloc] makes. *)
Definition start (h : heap) : heap := mkHeap (set_size (set_ptr (hmem h) base base) base 0) base (brk h).

Context (Hbase : 0 < base /\ base + 8 <= lo /\ lo < 2 ^ 32).

Lemma start_ok m : holds (start (mkHeap m 0 lo)) [] [].
Proof.
  split; [|by repeat constructor]. split; cbn [start hmem freep brk total at_flag]; try done; try lia.
  - by constructor.
  - cbn.
    destruct (set_size_here (set_ptr m base base) base 0) as [-> ->].
    destruct (set_ptr_here m base base) as [-> _]. by rewrite !u32_small by lia.
  - by left.
  - by intros x ?%not_elem_of_nil.
Qed.

Lemma malloc_start n m : malloc base grow n (mkHeap m 0 lo) = malloc base grow n (start (mkHeap m 0 lo)).
Proof. unfold malloc. cbn [freep start Z.eqb]. by rewrite (proj2 (Z.eqb_neq base 0)) by lia. Qed.

Lemma held_block h live ts r n : holds h live ts -> (r, n) ∈ live ->
  (r - 8, units n) ∈ used_at lo ts /\ 0 <= n < 2 ^ 31 - 16 /\ n + 8 <= 8 * units n.
Proof.
  intros (_ & Hp & Hf) Hin. rewrite Forall_forall in Hf. specialize (Hf _ Hin). cbn in Hf.
  split; [rewrite Hp; by apply (list_elem_of_fmap_2 block_of _ (r, n))|]. split; [done|]. by apply units_small.
Qed.

Lemma holds_kept h live ts m r n : holds h live ts -> kept ts (hmem h) m -> (r, n) ∈ live ->
  same_on r (r + n) (hmem h) m.
Proof.
  intros H Hk Hin. destruct (held_block _ _ _ _ _ H Hin) as (Hb & Hn & Hu). intros z Hz. apply (Hk _ Hb). cbn. lia.
Qed.

Lemma holds_malloc h live ts n : holds h live ts -> 0 <= n < 2 ^ 31 - 16 ->
  exists r h', malloc base grow n h = Some (r, h') /\ kept ts (hmem h) (hmem h') /\
    (r = 0 /\ (refused h (units n) /\ forall v, v ∈ free_at lo ts -> v.2 < units n) /\ h' = h \/
     r <> 0 /\ exists ts', holds h' ((r, n) :: live) ts').
Proof.
  intros (Hok & Hp & Hf) Hn.
  destruct (malloc_ok h ts n Hok Hn) as (r & h' & R & [(-> & Hg & Hfit & ->)|(ts' & a & u1 & u2 & -> & Hok' & Hk & _ & E1 & E2)]);
    eexists _, _; (split; [exact R|]).
  - split; [by intros x _ z _|]. by left.
  - split; [done|]. right. split.
    { assert (Ha : (a, units n) ∈ used_at lo ts') by (rewrite E2; apply elem_of_app; right; by left).
      apply at_flag_in in Ha; [|apply Hok']. cbn in Ha. lia. }
    exists ts'. split; [done|]. split; [|by constructor].
    rewrite E2, <- Permutation_middle. cbn. unfold block_of at 1. cbn.
    replace (a + 8 - 8) with a by lia. by rewrite <- Hp, E1.
Qed.

Lemma holds_free h l1 r n l2 ts : holds h (l1 ++ (r, n) :: l2) ts ->
  exists h' ts', free r h = Some h' /\ holds h' (l1 ++ l2) ts' /\
    forall r' n', (r', n') ∈ l1 ++ l2 -> same_on r' (r' + n') (hmem h) (hmem h').
Proof.
  intros H. destruct (held_block _ _ _ r n H) as (Hb & _); [apply elem_of_app; right; by left|]. destruct H as (Hok & Hp & Hf).
  destruct (at_flag_split _ _ _ _ Hb) as (t1 & t2 & -> & Ea). cbn in Ea.
  destruct (free_ok h t1 t2 (units n) Hok) as (h' & ts' & R & Hok' & Hu & _ & Hk & _).
  replace (lo + 8 * total t1 + 8) with r in R by lia. exists h', ts'. split; [done|].
  assert (Hh : holds h' (l1 ++ l2) ts').
  { split; [done|]. split; [|rewrite Forall_app, Forall_cons in Hf; apply Forall_app; tauto].
    rewrite at_flag_app, fmap_app in Hp. cbn [at_flag Bool.eqb app fmap list_fmap] in Hp.
    rewrite <- Ea in Hp. apply Permutation_app_inv in Hp. rewrite Hu, fmap_app, <- Ea. exact Hp. }
  split; [done|]. intros r' n' Hin. destruct (held_block _ _ _ _ _ Hh Hin) as (Hb' & Hn' & Hl).
  intros z Hz. apply (Hk _ Hb'). cbn. lia.
Qed.

Lemma holds_write h live ts r n m : holds h live ts -> (r, n) ∈ live -> same_outside r (r + n) (hmem h) m ->
  holds (mkHeap m (freep h) (brk h)) live ts.
Proof.
  intros H Hin Ho. destruct (held_block _ _ _ _ _ H Hin) as (Hb & Hn & Hl). destruct H as (Hok & Hp & Hf).
  split; [|done]. pose proof (ok_sized _ _ Hok) as Hs. pose proof (ok_base _ _ Hok) as Hb0.
  split; cbn [hmem freep brk]; try apply Hok.
  - eapply chain_frame; [|apply Hok]. intros a s Ha.
    pose proof (node_apart ts _ _ ltac:(lia) Hs Ha Hb) as Hd. cbn in Hd.
    split; apply load32_same; intros z Hz; apply Ho; lia.
  - intros x Hx. rewrite <- (ok_used _ _ Hok x Hx). apply load32_same. intros z Hz. apply Ho.
    pose proof (at_flag_in _ _ Hs _ _ Hx) as Hx'.
    destruct (tiles_disjoint false false ts Hs lo x _ Hx Hb) as [[-> _]|Hd]; cbn in *; lia.
Qed.

(** Every heap a client reaches is untouched or tiled by the blocks it holds. *)
Lemma client_holds h live : client h live ->
  (exists m, h = mkHeap m 0 lo /\ live = []) \/ exists ts, holds h live ts.
Proof.
  assert (Hgo : forall h live n r h', (exists m, h = mkHeap m 0 lo /\ live = []) \/ (exists ts, holds h live ts) ->
    0 <= n < 2 ^ 31 - 16 -> malloc base grow n h = Some (r, h') ->
    (r = 0 -> exists ts, holds h' live ts) /\ (r <> 0 -> exists ts, holds h' ((r, n) :: live) ts)).
  { intros h0 live0 n r h' Hh Hn R.
    assert (exists h1 ts, holds h1 live0 ts /\ malloc base grow n h1 = Some (r, h')) as (h1 & ts & Hh1 & R1).
    { destruct Hh as [(m & -> & ->)|[ts Hh]]; [|by exists h0, ts].
      rewrite malloc_start in R. exists (start (mkHeap m 0 lo)), []. split; [apply start_ok|done]. }
    destruct (holds_malloc _ _ _ _ Hh1 Hn) as (r1 & h1' & R2 & _ & Hc). rewrite R1 in R2. injection R2 as <- <-.
    destruct Hc as [(-> & _ & ->)|[Hr Hc]]; split; intros; by eauto. }
  induction 1 as [m|h live n r h' _ IH Hn R Hr|h live n h' _ IH Hn R|h l1 r n l2 h' _ IH R|h live r n m _ IH Hin Ho].
  - left. by exists m.
  - right. by apply (Hgo _ _ _ _ _ IH Hn R).
  - right. by apply (Hgo _ _ _ _ _ IH Hn R).
  - right. destruct IH as [(m & _ & E)|[ts IH]]; [by destruct l1|].
    destruct (holds_free _ _ _ _ _ _ IH) as (h1 & ts' & R1 & Hh & _). rewrite R in R1. injection R1 as <-. by exists ts'.
  - right. destruct IH as [(m' & _ & ->)|[ts IH]]; [by apply not_elem_of_nil in Hin|].
    exists ts. by eapply holds_write.
Qed.

Lemma holds_inside h live ts i r n : holds h live ts -> live !! i = Some (r, n) -> lo + 8 <= r /\ r + n <= brk h.
Proof.
  intros H Hi. destruct (held_block _ _ _ _ _ H (list_elem_of_lookup_2 _ _ _ Hi)) as (Hb & Hn & Hl).
  destruct H as (Hok & _). pose proof (ok_brk _ _ Hok) as [Hbrk _].
  apply at_flag_in in Hb; [|apply Hok]. cbn in Hb. lia.
Qed.

Lemma sorted_nodup l : StronglySorted before l -> NoDup l.
Proof.
  induction 1 as [|x l Hs IH Hf]; constructor; [|done]. rewrite Forall_forall in Hf.
  intros Hin. specialize (Hf _ Hin). unfold before in Hf. lia.
Qed.

Lemma holds_disjoint h live ts i j r n r' n' : holds h live ts -> i <> j ->
  live !! i = Some (r, n) -> live !! j = Some (r', n') -> r + n <= r' - 8 \/ r' + n' <= r - 8.
Proof.
  intros H Hij Hi Hj. destruct (held_block _ _ _ _ _ H (list_elem_of_lookup_2 _ _ _ Hi)) as (Hb & Hn & Hl).
  destruct (held_block _ _ _ _ _ H (list_elem_of_lookup_2 _ _ _ Hj)) as (Hb' & Hn' & Hl').
  destruct H as (Hok & Hp & _). pose proof (ok_sized _ _ Hok) as Hs.
  destruct (tiles_disjoint false false ts Hs lo _ _ Hb Hb') as [[E _]|Hd]; [|cbn in Hd; lia].
  exfalso. apply Hij. assert (Hnd : NoDup (block_of <$> live)) by (rewrite <- Hp; apply sorted_nodup, at_flag_sorted, Hs).
  eapply NoDup_lookup; [exact Hnd| |]; rewrite list_lookup_fmap, ?Hi, ?Hj; [done|]. cbn. unfold block_of. cbn. by rewrite E.
Qed.

(** C21: a program that uses what [malloc] gave it until it calls [free], and
    asks for less than 2 GB at a time, never breaks the heap.  The blocks it
    holds are inside the memory that the system granted, each has the bytes it
    asked for and a header of its own, and no two of them meet; every further
    [malloc] returns and changes no block that is held; it fails only when the
    system refuses the memory of this request and no block on the ring is large
    enough, and leaves the heap as it was; every [free] of a held block returns
    and changes no other. *)
Theorem heap_safe h live : client h live ->
  (forall i r n, live !! i = Some (r, n) -> lo + 8 <= r /\ r + n <= brk h) /\
  (forall i j r n r' n', i <> j -> live !! i = Some (r, n) -> live !! j = Some (r', n') ->
     r + n <= r' - 8 \/ r' + n' <= r - 8) /\
  (forall n, 0 <= n < 2 ^ 31 - 16 -> exists r h', malloc base grow n h = Some (r, h') /\
     (r = 0 -> refused h (units n) /\ h' = (if freep h =? 0 then start h else h) /\
        (freep h <> 0 -> forall p, on_ring h p -> size (hmem h) p < units n)) /\
     forall r' n', (r', n') ∈ live -> same_on r' (r' + n') (hmem h) (hmem h')) /\
  (forall l1 r n l2, live = l1 ++ (r, n) :: l2 -> exists h', free r h = Some h' /\
     forall r' n', (r', n') ∈ l1 ++ l2 -> same_on r' (r' + n') (hmem h) (hmem h')).
Proof.
  intros [(m & -> & ->)|[ts H]]%client_holds.
  - split_and!; try done.
    + intros n Hn. rewrite malloc_start. destruct (holds_malloc _ _ _ _ (start_ok m) Hn) as (r & h' & -> & _ & Hc).
      exists r, h'. split; [done|]. split; [|by intros ?? ?%not_elem_of_nil]. intros ->.
      by destruct Hc as [(_ & [? _] & ->)|[? _]].
    + by intros [|??].
  - split; [intros; by eapply holds_inside|]. split; [intros; by eapply holds_disjoint|]. split.
    + intros n Hn. destruct (holds_malloc _ _ _ _ H Hn) as (r & h' & -> & Hk & Hc). exists r, h'. split; [done|].
      split; [|intros r' n'; by apply (holds_kept _ _ ts)]. intros ->.
      destruct Hc as [(_ & [Hg Hfit] & ->)|[? _]]; [|done]. pose proof (proj1 H) as Hok.
      split; [done|]. split; [by rewrite (freep_set h ts Hok)|]. intros _ p Hp.
      destruct (on_ring_free h ts p Hok Hp) as (s & Hs & ->). pose proof (units_small n Hn).
      apply elem_of_cons in Hs as [[= _ ->]|Hs]; [lia|]. by apply (Hfit _ Hs).
    + intros l1 r n l2 ->. destruct (holds_free _ _ _ _ _ _ H) as (h' & ts' & R & _ & Hk). by exists h'.
Qed.

End malloc.
End inv.

(** *** An example *)

(** A process of 12 kB on a system that gives it up to 1 MB. *)
Definition ex_grow (b n : Z) : bool := b + n <? 2 ^ 20.
Definition ex_heap0 : heap := mkHeap (fun _ => 0) 0 12288.
Definition ex_malloc (n : Z) (h : heap) : Z * heap := default (0, h) (malloc 4096 ex_grow n h).
Definition ex_heap1 : heap := (ex_malloc 10 ex_heap0).2.
Definition ex_heap2 : heap := (ex_malloc 20 ex_heap1).2.
Definition ex_heap3 : heap := default ex_heap2 (free 45040 ex_heap2).

Lemma ex_malloc_some n h r : (if malloc 4096 ex_grow n h is Some x then x.1 else -1) = r -> r <> -1 ->
  malloc 4096 ex_grow n h = Some (r, (ex_malloc n h).2).
Proof. unfold ex_malloc. destruct (malloc 4096 ex_grow n h) as [[r' h']|]; cbn; [by intros ->|by intros <-]. Qed.

Lemma ex_client : client 4096 12288 ex_grow ex_heap3 [(45008, 20)].
Proof.
  assert (H1 : client 4096 12288 ex_grow ex_heap1 [(45040, 10)]).
  { apply (client_malloc _ _ _ ex_heap0 [] 10 45040 ex_heap1); [apply client_start|lia| |done].
    apply ex_malloc_some; [vm_compute; reflexivity|lia]. }
  assert (H2 : client 4096 12288 ex_grow ex_heap2 [(45008, 20); (45040, 10)]).
  { apply (client_malloc _ _ _ ex_heap1 [(45040, 10)] 20 45008 ex_heap2); [exact H1|lia| |done].
    apply ex_malloc_some; [vm_compute; reflexivity|lia]. }
  apply (client_free _ _ _ ex_heap2 [(45008, 20)] 45040 10 [] ex_heap3); [exact H2|].
  assert (E : (if free 45040 ex_heap2 then true else false) = true) by (vm_compute; reflexivity).
  unfold ex_heap3. by destruct (free 45040 ex_heap2).
Qed.

Lemma heap_safe_witness : exists r h', malloc 4096 ex_grow 100 ex_heap3 = Some (r, h') /\
  same_on 45008 45028 (hmem ex_heap3) (hmem h').
Proof.
  destruct (heap_safe 4096 12288 ex_grow
    ltac:(unfold ex_grow; intros b n H%Z.ltb_lt; lia) ltac:(lia) ex_heap3 [(45008, 20)] ex_client) as (_ & _ & H & _).
  destruct (H 100 ltac:(lia)) as (r & h' & R & _ & Hk). exists r, h'. split; [exact R|].
  apply (Hk 45008 20). by left.
Defined.

(** *** Requests near 4 GB and 2 GB *)

(** The rounding of [malloc] wraps around: for the last seven numbers of bytes
    it hands out a block of one header and no bytes. *)
Theorem malloc_wraps base grow n h : 2 ^ 32 - 7 <= n < 2 ^ 32 -> malloc base grow n h = malloc base grow 0 h.
Proof.
  intros Hn. assert (E : units n = units 0); [|unfold malloc; by rewrite E].
  unfold units. change (u32 (0 + 8 - 1)) with 7. unfold u32.
  replace (n + 8 - 1) with (n + 7 - 2 ^ 32 + 1 * 2 ^ 32) by lia. rewrite Z_mod_plus_full, (Z.mod_small (n + 7 - 2 ^ 32)) by lia.
  by rewrite (Z.div_small (n + 7 - 2 ^ 32)), (Z.div_small 7) by lia.
Qed.

(** For 2 GB the argument of [sbrk] is negative and changes nothing: [malloc]
    hands out memory behind the end of the process. *)
Theorem malloc_two_gb : exists r h', malloc 4096 ex_grow (2 ^ 31) ex_heap0 = Some (r, h') /\ r <> 0 /\ brk h' < r.
Proof.
  exists 12296, (ex_malloc (2 ^ 31) ex_heap0).2. split; [|split; [lia|vm_compute; reflexivity]].
  apply ex_malloc_some; [vm_compute; reflexivity|lia].
Qed.

End Umalloc.
