(* ===== verification/Usys.v ===== *)
(** User programs: the calls of the system (user.h), the programs that make
    them, and the routines of ulib.c and printf.c that call the system.

    A program is a tree of calls: [Call c k] makes the call [c] and goes on
    with what it returns and what it stored in the caller's memory - the bytes
    of a [read], the two descriptors of a [pipe], the fields of a [stat] or an
    [info].  A loop whose end is up to the system takes a bound on its turns and
    is [Fuel] beyond it. *)

From stdpp Require Import base numbers list strings.
From Stdlib Require Import ZArith Lia.
From S2P Require Import Prelude Printf.
Import Printf.

Module Usys.

Inductive call :=
| Fork | Wait | Pipe | Write (fd : Z) (data : list Z) | Read (fd n : Z) | Close (fd : Z) | Kill (pid : Z)
| Exec (path : list Z) (argv : list (list Z)) | Open (path : list Z) (mode : Z)
| Mknod (path : list Z) (major minor : Z) | Unlink (path : list Z) | Fstat (fd : Z)
| Link (old new : list Z) | Mkdir (path : list Z) | Chdir (path : list Z) | Dup (fd : Z) | Getpid
| Sleep (n : Z) | Getparentid | Getchildren | Getsyscallcounter (n : Z)
| Setpriority (pid p : Z) | Changepolicy (n : Z) | Getinfo (pid : Z) | Setqueue (pid q : Z)
| Increment (info sum : list Z) (tat : Z).

(** [Exit] is [exit()]; a [main] that ends in [Ret] returns to the address that
    exec put on the stack. *)
Inductive prog (A : Type) :=
| Ret (a : A)
| Exit
| Fuel
| Call (c : call) (k : Z -> list Z -> prog A).
Arguments Ret {A}.
Arguments Exit {A}.
Arguments Fuel {A}.
Arguments Call {A}.

#[export] Instance prog_ret : MRet prog := fun A a => Ret a.
#[export] Instance prog_bind : MBind prog := fun A B f =>
  fix go (p : prog A) : prog B :=
    match p with
    | Ret a => f a
    | Exit => Exit
    | Fuel => Fuel
    | Call c k => Call c (fun r d => go (k r d))
    end.

(** A call for its return value. *)
Definition call1 (c : call) : prog Z := Call c (fun r _ => Ret r).
Definition call2 (c : call) : prog (Z * list Z) := Call c (fun r d => Ret (r, d)).
Definition exit {A} : prog A := Exit.
(** [exec] comes back only when it fails. *)
Definition exec (path : list Z) (argv : list (list Z)) : prog unit := Call (Exec path argv) (fun _ _ => Ret tt).

(** *** printf.c *)

(** [putc] for every byte. *)
Fixpoint puts (fd : Z) (l : list Z) : prog unit :=
  match l with
  | [] => mret tt
  | c :: r => call1 (Write fd [c]) ;; puts fd r
  end.

(** The arguments of a [printf]: an [int], or a string, which is the pointer to
    it. *)
Inductive arg := D (n : Z) | Str (s : list Z).
Definition arg_word (args : list arg) (k : nat) : Z :=
  match args !! k with Some (D n) => n | Some (Str _) => Z.of_nat (S k) | None => 0 end.
Definition arg_str (args : list arg) (p : Z) : list Z :=
  match args !! (Z.to_nat p - 1)%nat with Some (Str s) => s | _ => [] end.

Definition format (fmt : list Z) (args : list arg) : list Z :=
  default [] (Printf.printf (arg_word args) (arg_str args) fmt).
Definition printf (fd : Z) (fmt : string) (args : list arg) : prog unit := puts fd (format (lit fmt) args).
(** A format that ends in a newline. *)
Definition printfln (fd : Z) (fmt : string) (args : list arg) : prog unit :=
  puts fd (format (lit fmt ++ [10]) args).

(** What a [printf] prints is computed in examples only. *)
Global Opaque format.

(** *** ulib.c *)

(** [strchr(l, c) != 0] for a string without 0. *)
Definition strchr (l : list Z) (c : Z) : bool := existsb (Z.eqb c) l.

(** The string that starts a buffer. *)
Fixpoint cstring (l : list Z) : list Z :=
  match l with
  | c :: r => if c =? 0 then [] else c :: cstring r
  | [] => []
  end.

(** [atoi] of a string. *)
Fixpoint atoi_digits (n : Z) (s : list Z) : Z :=
  match s with
  | c :: r => if (48 <=? c) && (c <=? 57) then atoi_digits (i32 (n * 10 + c - 48)) r else n
  | [] => n
  end.
Definition atoi (s : list Z) : Z := atoi_digits 0 s.

(** The bytes of the line, without the 0 after it. *)
Fixpoint gets_loop (room : nat) (got : list Z) : prog (list Z) :=
  match room with
  | O => mret got
  | S r =>
      '(cc, d) ← call2 (Read 0 1);
      if cc <? 1 then mret got else
      let c := hd 0 d in
      if (c =? 10) || (c =? 13) then mret (got ++ [c]) else gets_loop r (got ++ [c])
  end.
Definition gets (max : Z) : prog (list Z) := gets_loop (Z.to_nat (max - 1)) [].

(** [stat]: the fields of [struct stat] as [Fstat] stores them. *)
Definition stat (n : list Z) : prog (Z * list Z) :=
  fd ← call1 (Open n 0);
  if fd <? 0 then mret (-1, []) else
  '(r, st) ← call2 (Fstat fd);
  call1 (Close fd) ;;
  mret (r, st).

End Usys.
