(* ===== verification/Sh.v ===== *)
(** The shell (sh.c): the parser of command lines and the execution of parsed
    commands.

    [s] are the bytes of the line before its terminating 0; a [char *] into the
    line is an index, and reading at [es] or past it gives 0.  The parser keeps
    the position [*ps] as its state.  [malloc] succeeds: a command is a value
    of the type [cmd].  Commands run as programs of Usys.v. *)

From stdpp Require Import base numbers list strings.
From Stdlib Require Import ZArith Lia.
From S2P Require Import Prelude Printf Usys.
Import Printf Usys.

Module Sh.

Definition MAXARGS : nat := 10.

(** [struct cmd]: [argv] and [eargv] as pairs, [file] and [efile]. *)
Inductive cmd :=
| EXEC (argv : list (nat * nat))
| REDIR (c : cmd) (file efile : nat) (mode fd : Z)
| PIPE (left right : cmd)
| LIST (left right : cmd)
| BACK (c : cmd).

Definition O_RDONLY : Z := 0x000.
Definition O_WRONLY : Z := 0x001.
Definition O_RDWR : Z := 0x002.
Definition O_CREATE : Z := 0x200.

Definition whitespace : list Z := lit " " ++ [9; 13; 10; 11].
Definition symbols : list Z := lit "<|>&;()".

(** *** The parser's state and failure *)

(** What the shell prints before it exits, but for the last newline. *)
Inductive presult (A : Type) := POk (a : A) (i : nat) | PPanic (msg : list Z).
Arguments POk {A} a i.
Arguments PPanic {A} msg.

Definition P (A : Type) : Type := nat -> presult A.
#[export] Instance P_ret : MRet P := fun A a i => POk a i.
#[export] Instance P_bind : MBind P := fun A B f m i =>
  match m i with POk a i => f a i | PPanic msg => PPanic msg end.
Definition ppanic {A} (msg : string) : P A := fun _ => PPanic (lit msg).

Section parse.
Variable s : list Z.

Definition ch (i : nat) : Z := nth i s 0.

(** [while (s < es && p( *s)) s++;] *)
Fixpoint count_while (p : Z -> bool) (l : list Z) : nat :=
  match l with
  | c :: r => if p c then S (count_while p r) else O
  | [] => O
  end.
Definition skip (p : Z -> bool) (i : nat) : nat := i + count_while p (drop i s).

Definition is_space : Z -> bool := strchr whitespace.
Definition is_word (c : Z) : bool := negb (strchr whitespace c) && negb (strchr symbols c).

(** The token, where it starts and where it ends. *)
Definition gettoken : P (Z * nat * nat) := fun i =>
  let q := skip is_space i in
  let c := ch q in
  let '(ret, e) :=
    if c =? 0 then (c, q)
    else if strchr (lit "|();&<") c then (c, S q)
    else if c =? 62 then if ch (S q) =? 62 then (43, S (S q)) else (c, S q)
    else (97, skip is_word q) in
  POk (ret, q, e) (skip is_space e).

Definition peek (toks : list Z) : P bool := fun i =>
  let i := skip is_space i in
  POk (negb (ch i =? 0) && strchr toks (ch i)) i.

(** A redirection: [file], [efile], [mode], [fd]. *)
Definition redir : Type := (nat * nat * Z * Z)%type.
Definition redircmd (c : cmd) (r : redir) : cmd :=
  let '(q, e, mode, fd) := r in REDIR c q e mode fd.

(** The redirections that [parseredirs] wraps around its command, innermost
    first. *)
Fixpoint parseredirs (fuel : nat) : P (list redir) :=
  match fuel with
  | O => ppanic "out of fuel"
  | S f =>
      b ← peek (lit "<>");
      if (b : bool) then
        '(tok, _, _) ← gettoken;
        '(t, q, e) ← gettoken;
        if negb (t =? 97) then ppanic "missing file for redirection" else
        rs ← parseredirs f;
        mret ((q, e, if tok =? 60 then O_RDONLY else Z.lor O_WRONLY O_CREATE, if tok =? 60 then 0 else 1) :: rs)
      else mret []
  end.

Definition loop_fuel : nat := S (length s).

(** The loop of [parseexec], with [argc] words read: the words and the
    redirections that follow. *)
Fixpoint parseargs (fuel : nat) (argc : nat) : P (list (nat * nat) * list redir) :=
  match fuel with
  | O => ppanic "out of fuel"
  | S f =>
      b ← peek (lit "|)&;");
      if (b : bool) then mret ([], []) else
      '(tok, q, e) ← gettoken;
      if tok =? 0 then mret ([], [])
      else if negb (tok =? 97) then ppanic "syntax"
      else if (MAXARGS <=? S argc)%nat then ppanic "too many args"
      else
        rs ← parseredirs loop_fuel;
        '(ws, rs') ← parseargs f (S argc);
        mret ((q, e) :: ws, rs ++ rs')
  end.

(** [while (peek(ps, es, "&")) ... backcmd(cmd);] *)
Fixpoint parsebacks (fuel : nat) (c : cmd) : P cmd :=
  match fuel with
  | O => ppanic "out of fuel"
  | S f =>
      b ← peek (lit "&");
      if (b : bool) then gettoken ;; parsebacks f (BACK c) else mret c
  end.

Fixpoint parseline (fuel : nat) : P cmd :=
  match fuel with
  | O => ppanic "out of fuel"
  | S f =>
      c ← parsepipe f;
      c ← parsebacks loop_fuel c;
      b ← peek (lit ";");
      if (b : bool) then gettoken ;; r ← parseline f; mret (LIST c r) else mret c
  end
with parsepipe (fuel : nat) : P cmd :=
  match fuel with
  | O => ppanic "out of fuel"
  | S f =>
      c ← parseexec f;
      b ← peek (lit "|");
      if (b : bool) then gettoken ;; r ← parsepipe f; mret (PIPE c r) else mret c
  end
with parseexec (fuel : nat) : P cmd :=
  match fuel with
  | O => ppanic "out of fuel"
  | S f =>
      b ← peek (lit "(");
      if (b : bool) then parseblock f else
      rs ← parseredirs loop_fuel;
      '(ws, rs') ← parseargs loop_fuel 0;
      mret (foldl redircmd (EXEC ws) (rs ++ rs'))
  end
with parseblock (fuel : nat) : P cmd :=
  match fuel with
  | O => ppanic "out of fuel"
  | S f =>
      b ← peek (lit "(");
      if negb b then ppanic "parseblock" else
      gettoken ;;
      c ← parseline f;
      b ← peek (lit ")");
      if negb b then ppanic "syntax - missing )" else
      gettoken ;;
      rs ← parseredirs loop_fuel;
      mret (foldl redircmd c rs)
  end.

(** [if (s != es)] *)
Definition leftovers : P unit := fun i =>
  if (i =? length s)%nat then POk tt i
  else PPanic (lit "leftovers: " ++ drop i s ++ [10] ++ lit "syntax").

(** [parsecmd] up to [nulterminate]. *)
Definition parse : P cmd :=
  c ← parseline (4 * length s + 4);
  peek [] ;;
  leftovers ;;
  mret c.

End parse.

(** *** Terminating the strings in place *)

Definition put_nul (buf : list Z) (w : nat * nat) : list Z := <[w.2 := 0]> buf.

Fixpoint nulterminate (c : cmd) (buf : list Z) : list Z :=
  match c with
  | EXEC argv => foldl put_nul buf argv
  | REDIR c q e _ _ => put_nul (nulterminate c buf) (q, e)
  | PIPE l r | LIST l r => nulterminate r (nulterminate l buf)
  | BACK c => nulterminate c buf
  end.

(** The line with its 0, parsed and cut into strings. *)
Definition parsecmd (s : list Z) : presult (cmd * list Z) :=
  match parse s 0%nat with
  | POk c i => POk (c, nulterminate c (s ++ [0])) i
  | PPanic msg => PPanic msg
  end.

(** *** Execution *)

Definition panic {A} (msg : list Z) : prog A :=
  puts 2 (format (lit "%s" ++ [10]) [Str msg]) ;; exit.

Definition fork1 : prog Z :=
  pid ← call1 Fork;
  if pid =? -1 then panic (lit "fork") else mret pid.

(** The string at [q]. *)
Definition str (buf : list Z) (q : nat) : list Z := cstring (drop q buf).

(** It never returns. *)
Fixpoint runcmd (buf : list Z) (c : cmd) : prog unit :=
  match c with
  | EXEC argv =>
      match argv with
      | [] => exit
      | (q, _) :: _ =>
          exec (str buf q) (map (fun w => str buf w.1) argv) ;;
          printfln 2 "exec %s failed" [Str (str buf q)] ;; exit
      end
  | REDIR c file _ mode fd =>
      call1 (Close fd) ;;
      r ← call1 (Open (str buf file) mode);
      if r <? 0 then printfln 2 "open %s failed" [Str (str buf file)] ;; exit
      else runcmd buf c ;; exit
  | LIST l r =>
      pid ← fork1;
      (if pid =? 0 then runcmd buf l else mret tt) ;;
      call1 Wait ;;
      runcmd buf r ;; exit
  | PIPE l r =>
      '(e, p) ← call2 Pipe;
      if e <? 0 then panic (lit "pipe") else
      let p0 := nth 0 p 0 in
      let p1 := nth 1 p 0 in
      pid ← fork1;
      (if pid =? 0 then
         call1 (Close 1) ;; call1 (Dup p1) ;; call1 (Close p0) ;; call1 (Close p1) ;; runcmd buf l
       else mret tt) ;;
      pid ← fork1;
      (if pid =? 0 then
         call1 (Close 0) ;; call1 (Dup p0) ;; call1 (Close p0) ;; call1 (Close p1) ;; runcmd buf r
       else mret tt) ;;
      call1 (Close p0) ;; call1 (Close p1) ;; call1 Wait ;; call1 Wait ;; exit
  | BACK c =>
      pid ← fork1;
      (if pid =? 0 then runcmd buf c else mret tt) ;; exit
  end.

(** [runcmd(parsecmd(buf))] *)
Definition run_line (s : list Z) : prog unit :=
  match parsecmd s with
  | POk (c, buf) _ => runcmd buf c
  | PPanic msg => panic msg
  end.

(** *** The main loop *)

(** [getcmd] and the string in [buf] after it; [None] at the end of the input. *)
Definition getcmd : prog (option (list Z)) :=
  printf 2 "$ " [] ;;
  line ← gets 100;
  mret (match cstring line with [] => None | l => Some l end).

Fixpoint command_loop (fuel : nat) : prog unit :=
  match fuel with
  | O => Fuel
  | S f =>
      line ← getcmd;
      match line with
      | None => mret tt
      | Some l =>
          if bool_decide (take 3 l = lit "cd ") then
            let dir := drop 3 (removelast l) in
            r ← call1 (Chdir dir);
            (if r <? 0 then printfln 2 "cannot cd %s" [Str dir] else mret tt) ;;
            command_loop f
          else
            pid ← fork1;
            (if pid =? 0 then run_line l else mret tt) ;;
            call1 Wait ;;
            command_loop f
      end
  end.

(** [while ((fd = open("console", O_RDWR)) >= 0)] *)
Fixpoint open_console (fuel : nat) : prog unit :=
  match fuel with
  | O => Fuel
  | S f =>
      fd ← call1 (Open (lit "console") O_RDWR);
      if fd <? 0 then mret tt
      else if fd >=? 3 then call1 (Close fd) ;; mret tt
      else open_console f
  end.

(** [fuel] bounds the lines read. *)
Definition main (fuel : nat) : prog unit := open_console fuel ;; command_loop fuel ;; exit.

End Sh.
