(* ===== verification/ShSpec.v ===== *)
(** What the shell promises: the parser ends on every line and cuts it into
    exactly the strings of its words, and the processes of a command run with
    the descriptors the command asks for and no others. *)

From stdpp Require Import base numbers list gmap strings.
From Stdlib Require Import ZArith Lia.
From S2P Require Import Prelude Printf Usys Sh.
Import Printf Usys Sh.

Module ShSpec.

(** *** The parser ends *)

(** [m] at [i] ends with a result in [Q], or in a message other than the one
    for want of fuel. *)
Definition runs {A} (m : P A) (i : nat) (Q : A -> nat -> Prop) : Prop :=
  match m i with POk a j => Q a j | PPanic msg => msg <> lit "out of fuel" end.

Lemma runs_bind {A B} (m : P A) (f : A -> P B) i Q R :
  runs m i R -> (forall a j, R a j -> runs (f a) j Q) -> runs (m ≫= f) i Q.
Proof. unfold runs, mbind, P_bind. intros Hm Hf. destruct (m i); [by apply Hf|done]. Qed.

Lemma runs_ret {A} (a : A) i (Q : A -> nat -> Prop) : Q a i -> runs (mret a) i Q.
Proof. done. Qed.

Lemma runs_panic {A} msg i (Q : A -> nat -> Prop) : lit msg <> lit "out of fuel" -> runs (ppanic msg) i Q.
Proof. done. Qed.

Lemma runs_mono {A} (m : P A) i (Q R : A -> nat -> Prop) :
  runs m i R -> (forall a j, R a j -> Q a j) -> runs m i Q.
Proof. unfold runs. destruct (m i); auto. Qed.

Section line.
Context (s : list Z) (Hs : Forall (fun c => c <> 0) s).

Abbreviation len := (length s).
Abbreviation ch := (ch s).

(** The bytes from [w.1] up to [w.2] are a word of the line. *)
Definition word_ok (w : nat * nat) : Prop :=
  (w.1 < w.2 <= len)%nat /\ (forall k, (w.1 <= k < w.2)%nat -> is_word (ch k) = true) /\
  ((w.2 < len)%nat -> is_word (ch w.2) = false).

Lemma count_while_le p l : (count_while p l <= length l)%nat.
Proof. induction l as [|c l IH]; cbn; [lia|]. destruct (p c); lia. Qed.

Lemma count_while_all p l k : (k < count_while p l)%nat -> p (nth k l 0) = true.
Proof.
  revert k. induction l as [|c l IH]; intros k; cbn; [lia|]. destruct (p c) eqn:E; [|lia].
  destruct k; [done|]. intros H. apply IH. lia.
Qed.

Lemma count_while_stop p l : (count_while p l < length l)%nat -> p (nth (count_while p l) l 0) = false.
Proof.
  induction l as [|c l IH]; cbn; [lia|]. destruct (p c) eqn:E; [|done]. intros H. apply IH. lia.
Qed.

Lemma ch_drop i k : nth k (drop i s) 0 = ch (i + k).
Proof. unfold Sh.ch. rewrite <- (nth_skipn i s k 0). done. Qed.

Lemma skip_spec p i : (i <= len)%nat ->
  (i <= skip s p i <= len)%nat /\ (forall k, (i <= k < skip s p i)%nat -> p (ch k) = true) /\
  ((skip s p i < len)%nat -> p (ch (skip s p i)) = false).
Proof.
  intros Hi. unfold skip. pose proof (count_while_le p (drop i s)) as Hle. rewrite length_drop in Hle.
  split; [lia|]. split.
  - intros k Hk. replace k with (i + (k - i))%nat by lia. rewrite <- ch_drop. apply count_while_all. lia.
  - intros Hlt. rewrite <- ch_drop. apply count_while_stop. rewrite length_drop. lia.
Qed.

Lemma ch_zero i : (i <= len)%nat -> ch i = 0 <-> i = len.
Proof.
  intros Hi. unfold Sh.ch. split; [|intros ->; apply nth_overflow; lia].
  intros H. destruct (decide (i = len)); [done|]. destruct (lookup_lt_is_Some_2 s i) as [c Hc]; [lia|].
  rewrite (nth_lookup_Some _ _ 0 _ Hc) in H. by eapply (Forall_lookup_1 _ _ _ _ Hs Hc) in H.
Qed.

(** A token: 0 at the end of the line, else at least one byte, and a word
    where the token says so. *)
Definition token_ok (t : Z * nat * nat) : Prop :=
  let '(tok, q, e) := t in
  (tok = 0 -> q = len) /\ (tok <> 0 -> (q < e)%nat) /\ (tok = 97 -> word_ok (q, e)).

Lemma gettoken_spec i : (i <= len)%nat ->
  exists tok q e j, gettoken s i = POk (tok, q, e) j /\ (i <= q <= e)%nat /\ (e <= j <= len)%nat /\
    token_ok (tok, q, e).
Proof.
  intros Hi. unfold gettoken. destruct (skip_spec is_space i Hi) as ((H1 & H2) & _ & H3).
  set (q := skip s is_space i) in *.
  assert (Hnext : ch q <> 0 -> (q < len)%nat) by (intros H; rewrite ch_zero in H by lia; lia).
  destruct (Z.eqb_spec (ch q) 0) as [E|E].
  { apply ch_zero in E; [|done]. eexists _, q, q, _. split; [reflexivity|]. split; [lia|].
    split; [apply skip_spec; lia|]. split; [done|]. split; [intros H; by rewrite (proj2 (ch_zero q H2) E) in H|].
    intros H. by rewrite (proj2 (ch_zero q H2) E) in H. }
  specialize (Hnext E). destruct (strchr (lit "|();&<") (ch q)) eqn:Esym.
  { exists (ch q), q, (S q), (skip s is_space (S q)). split; [done|]. split; [lia|].
    split; [apply skip_spec; lia|]. split; [done|]. split; [lia|]. intros E97. by rewrite E97 in Esym. }
  destruct (Z.eqb_spec (ch q) 62) as [E62|E62].
  { destruct (Z.eqb_spec (ch (S q)) 62) as [E2|E2].
    - exists 43, q, (S (S q)), (skip s is_space (S (S q))).
      assert (S q < len)%nat by (destruct (decide (S q = len)) as [E3|]; [rewrite (proj2 (ch_zero (S q) ltac:(lia)) E3) in E2; done|lia]).
      split; [done|]. split; [lia|]. split; [apply skip_spec; lia|]. split; [done|]. split; [lia|done].
    - exists (ch q), q, (S q), (skip s is_space (S q)). split; [done|]. split; [lia|].
      split; [apply skip_spec; lia|]. split; [done|]. split; [lia|]. rewrite E62. done. }
  destruct (skip_spec is_word q ltac:(lia)) as ((H4 & H5) & H6 & H7).
  assert (Hw : is_word (ch q) = true).
  { unfold is_word. apply andb_true_iff. split; apply negb_true_iff; [by apply H3|].
    unfold strchr in *. cbn in *. rewrite !orb_false_iff in *. intuition auto. by apply Z.eqb_neq. }
  assert (q < skip s is_word q)%nat.
  { destruct (decide (q = skip s is_word q)) as [E1|]; [|lia]. rewrite <- E1 in H7. rewrite H7 in Hw; done. }
  exists 97, q, (skip s is_word q), (skip s is_space (skip s is_word q)). split; [done|]. split; [lia|].
  split; [apply skip_spec; lia|]. split; [done|]. split; [lia|]. intros _. split; [cbn; lia|]. by split.
Qed.

(** A byte that ends the skipping of spaces. *)
Definition stops (i : nat) : Prop := (i < len)%nat /\ is_space (ch i) = false.

Lemma gettoken_start i tok q e j : gettoken s i = POk (tok, q, e) j -> q = skip s is_space i.
Proof.
  unfold gettoken. destruct (ch _ =? 0); [congruence|]. destruct (strchr _ _); [congruence|].
  destruct (_ =? 62); [destruct (_ =? 62)|]; congruence.
Qed.

Lemma gettoken_runs i (Q : _ -> nat -> Prop) : (i <= len)%nat ->
  (forall tok q e j, (i <= j <= len)%nat -> token_ok (tok, q, e) -> (stops i \/ tok <> 0 -> (i < j)%nat) ->
    Q (tok, q, e) j) -> runs (gettoken s) i Q.
Proof.
  intros Hi HQ. destruct (gettoken_spec i Hi) as (tok & q & e & j & R & H1 & H2 & H3). unfold runs. rewrite R.
  apply HQ; [lia|done|]. destruct H3 as (H3 & H4 & _). intros Hst.
  enough (tok <> 0) by (specialize (H4 ltac:(done)); lia). destruct Hst as [[Hlt Hsp]|]; [|done].
  intros E. specialize (H3 E). apply gettoken_start in R. destruct (skip_spec is_space i Hi) as ((S1 & _) & S2 & _).
  rewrite <- R in *. assert (is_space (ch i) = true) by (apply S2; lia). congruence.
Qed.

Lemma peek_runs toks i (Q : bool -> nat -> Prop) : (i <= len)%nat ->
  (forall b j, (i <= j <= len)%nat -> (b = true -> stops j) -> Q b j) -> runs (peek s toks) i Q.
Proof.
  intros Hi HQ. unfold runs, peek. destruct (skip_spec is_space i Hi) as (H1 & _ & H3). apply HQ; [done|].
  intros [Hnz _]%andb_true_iff. apply negb_true_iff, Z.eqb_neq in Hnz. rewrite ch_zero in Hnz by lia.
  split; [lia|]. apply H3. lia.
Qed.

(** *** What is parsed *)

Fixpoint words (c : cmd) : list (nat * nat) :=
  match c with
  | EXEC argv => argv
  | REDIR c q e _ _ => words c ++ [(q, e)]
  | PIPE l r | LIST l r => words l ++ words r
  | BACK c => words c
  end.

(** The descriptors that redirections name. *)
Fixpoint plain_fds (c : cmd) : Prop :=
  match c with
  | EXEC _ => True
  | REDIR c _ _ _ fd => plain_fds c /\ (fd = 0 \/ fd = 1)
  | PIPE l r | LIST l r => plain_fds l /\ plain_fds r
  | BACK c => plain_fds c
  end.

Definition cmd_ok (c : cmd) : Prop := Forall word_ok (words c) /\ plain_fds c.
Definition redir_ok (r : redir) : Prop := let '(q, e, _, fd) := r in word_ok (q, e) /\ (fd = 0 \/ fd = 1).

Lemma redirs_ok c rs : cmd_ok c -> Forall redir_ok rs -> cmd_ok (foldl redircmd c rs).
Proof.
  revert c. induction rs as [|[[[q e] mode] fd] rs IH]; intros c Hc Hrs; [done|].
  apply Forall_cons in Hrs as [[Hw Hfd] Hrs]. apply IH; [|done]. destruct Hc as [H1 H2].
  split; [|done]. cbn. apply Forall_app. split; [done|]. by constructor.
Qed.

(** A token that was seen by [peek] is taken. *)
Lemma peek_take {B} toks i (yes no : P B) Q : (i <= len)%nat ->
  (forall j, (i < j <= len)%nat -> runs yes j Q) -> (forall j, (i <= j <= len)%nat -> runs no j Q) ->
  runs (b ← peek s toks; if (b : bool) then gettoken s ;; yes else no) i Q.
Proof.
  intros Hi Hy Hn. apply (runs_bind _ _ _ _ (fun b j => (i <= j <= len)%nat /\ (b = true -> stops j)));
    [by apply peek_runs|]. intros [|] j [Hj Hst]; [|by apply Hn]. specialize (Hst eq_refl).
  apply (runs_bind _ _ _ _ (fun _ j' => (j < j' <= len)%nat)).
  - apply gettoken_runs; [lia|]. intros tok q e j' ? _ Hlt. specialize (Hlt (or_introl Hst)). lia.
  - intros _ j1 H1. apply Hy. lia.
Qed.

Lemma parseredirs_runs fuel : forall i, (i <= len)%nat -> (len - i < fuel)%nat ->
  runs (parseredirs s fuel) i (fun rs j => (i <= j <= len)%nat /\ Forall redir_ok rs).
Proof.
  induction fuel as [|fuel IH]; intros i Hi Hf; [lia|]. cbn [parseredirs].
  apply (runs_bind _ _ _ _ (fun b j => (i <= j <= len)%nat /\ (b = true -> stops j)));
    [by apply peek_runs|]. intros [|] j [Hj Hst]; [|by split]. specialize (Hst eq_refl).
  apply (runs_bind _ _ _ _ (fun _ j' => (j < j' <= len)%nat)).
  { apply gettoken_runs; [lia|]. intros tok q e j' ? _ Hlt. specialize (Hlt (or_introl Hst)). lia. }
  intros [[tok q0] e0] j1 H1.
  apply (runs_bind _ _ _ _ (fun t j' => (j1 <= j' <= len)%nat /\ token_ok t)).
  { apply gettoken_runs; [lia|]. intros tok' q e j' ? Ht _. by split. }
  intros [[t q] e] j2 [H2 (_ & _ & Ht)]. destruct (Z.eqb_spec t 97) as [E|]; [cbn [negb]|by apply runs_panic].
  eapply runs_bind; [apply IH; lia|]. intros rs j3 [H3 Hrs]. apply runs_ret. split; [lia|].
  constructor; [|done]. split; [by apply Ht|]. destruct (tok =? 60); auto.
Qed.

Lemma parseargs_runs fuel : forall argc i, (i <= len)%nat -> (len - i < fuel)%nat ->
  runs (parseargs s fuel argc) i (fun r j => (i <= j <= len)%nat /\ Forall word_ok r.1 /\ Forall redir_ok r.2).
Proof.
  induction fuel as [|fuel IH]; intros argc i Hi Hf; [lia|]. cbn [parseargs].
  apply (runs_bind _ _ _ _ (fun b j => (i <= j <= len)%nat)); [by apply peek_runs|].
  intros [|] j Hj; [by split|].
  apply (runs_bind _ _ _ _ (fun t j' => (j <= j' <= len)%nat /\ token_ok t /\ (t.1.1 <> 0 -> (j < j')%nat))).
  { apply gettoken_runs; [lia|]. intros tok q e j' ? Ht Hlt. split; [done|]. split; [done|]. cbn. auto. }
  intros [[tok q] e] j1 (H1 & (_ & _ & Ht) & Hlt). cbn in Hlt. destruct (Z.eqb_spec tok 0); [split; [lia|done]|].
  specialize (Hlt ltac:(done)). destruct (Z.eqb_spec tok 97) as [E|]; [cbn [negb]|by apply runs_panic].
  destruct (_ <=? _)%nat; [by apply runs_panic|].
  eapply runs_bind; [apply parseredirs_runs; unfold loop_fuel; lia|]. intros rs j2 [H2 Hrs].
  eapply runs_bind; [apply IH; lia|]. intros [ws rs'] j3 (H3 & Hws & Hrs'). apply runs_ret. split; [lia|].
  split; [|by apply Forall_app]. constructor; [by apply Ht|done].
Qed.

Lemma parsebacks_runs fuel : forall c i, (i <= len)%nat -> (len - i < fuel)%nat -> cmd_ok c ->
  runs (parsebacks s fuel c) i (fun c j => (i <= j <= len)%nat /\ cmd_ok c).
Proof.
  induction fuel as [|fuel IH]; intros c i Hi Hf Hc; [lia|]. cbn [parsebacks]. apply peek_take; [done| |by split].
  intros j Hj. eapply runs_mono; [apply (IH (BACK c)); [lia|lia|done]|]. intros c' j2 [H2 ?]. split; [lia|done].
Qed.

Definition parsed (i : nat) (c : cmd) (j : nat) : Prop := (i <= j <= len)%nat /\ cmd_ok c.

Lemma cmd_ok_pair (mk : cmd -> cmd -> cmd) c r :
  mk = LIST \/ mk = PIPE -> cmd_ok c -> cmd_ok r -> cmd_ok (mk c r).
Proof.
  intros Hmk [H1 H2] [H3 H4]. destruct Hmk as [-> | ->]; (split; [cbn; by apply Forall_app|done]).
Qed.

(** [c ; rest] and [c | rest] *)
Lemma parse_rest_runs toks mk (rest : P cmd) c i : (i <= len)%nat -> mk = LIST \/ mk = PIPE -> cmd_ok c ->
  (forall j, (i < j <= len)%nat -> runs rest j (parsed j)) ->
  runs (b ← peek s toks; if (b : bool) then gettoken s ;; r ← rest; mret (mk c r) else mret c) i (parsed i).
Proof.
  intros Hi Hmk Hc Hr. apply (peek_take _ _ (r ← rest; mret (mk c r)) (mret c)); [done| |by split].
  intros j Hj. eapply runs_bind; [by apply Hr|]. intros r j' [Hj' Hok]. split; [lia|]. by apply cmd_ok_pair.
Qed.

Lemma parseexec_words_runs i : (i <= len)%nat ->
  runs (rs ← parseredirs s (loop_fuel s); '(ws, rs') ← parseargs s (loop_fuel s) 0;
    mret (foldl redircmd (EXEC ws) (rs ++ rs'))) i (parsed i).
Proof.
  intros Hi. eapply runs_bind; [apply parseredirs_runs; unfold loop_fuel; lia|]. intros rs j [Hj Hrs].
  eapply runs_bind; [apply parseargs_runs; unfold loop_fuel; lia|]. intros [ws rs'] j' (Hj' & Hws & Hrs').
  split; [lia|]. apply redirs_ok; [by split|]. by apply Forall_app.
Qed.

Lemma parse_runs fuel : forall i, (i <= len)%nat ->
  ((4 * (len - i) + 4 <= fuel)%nat -> runs (parseline s fuel) i (parsed i)) /\
  ((4 * (len - i) + 3 <= fuel)%nat -> runs (parsepipe s fuel) i (parsed i)) /\
  ((4 * (len - i) + 2 <= fuel)%nat -> runs (parseexec s fuel) i (parsed i)) /\
  ((4 * (len - i) + 1 <= fuel)%nat -> runs (parseblock s fuel) i (parsed i)).
Proof.
  induction fuel as [|f IH]; intros i Hi; [lia|]. split_and!; intros Hf; cbn [parseline parsepipe parseexec parseblock].
  - eapply runs_bind; [apply IH; lia|]. intros c j [Hj Hc].
    eapply runs_bind; [apply parsebacks_runs; [lia|unfold loop_fuel; lia|done]|]. intros c' j1 [Hj1 Hc'].
    eapply runs_mono; [apply (parse_rest_runs _ LIST); [lia|by left|done|]|intros ?? [? ?]; split; [lia|done]].
    intros j2 Hj2. apply IH; lia.
  - eapply runs_bind; [apply IH; lia|]. intros c j [Hj Hc].
    eapply runs_mono; [apply (parse_rest_runs _ PIPE); [lia|by right|done|]|intros ?? [? ?]; split; [lia|done]].
    intros j2 Hj2. apply IH; lia.
  - apply (runs_bind _ _ _ _ (fun _ j => (i <= j <= len)%nat)); [by apply peek_runs|]. intros [|] j Hj.
    + eapply runs_mono; [apply IH; lia|]. intros c j' [? ?]. split; [lia|done].
    + eapply runs_mono; [apply parseexec_words_runs; lia|]. intros c j' [? ?]. split; [lia|done].
  - apply (runs_mono _ _ _ (parsed i)); [|done].
    apply (runs_bind _ _ _ _ (fun b j => (i <= j <= len)%nat /\ (b = true -> stops j))); [by apply peek_runs|].
    intros [|] j [Hj Hst]; [cbn [negb]|by apply runs_panic]. specialize (Hst eq_refl).
    apply (runs_bind _ _ _ _ (fun _ j' => (j < j' <= len)%nat)).
    { apply gettoken_runs; [lia|]. intros tok q e j' ? _ Hlt. specialize (Hlt (or_introl Hst)). lia. }
    intros _ j1 Hj1. eapply runs_bind; [apply IH; lia|]. intros c j2 [Hj2 Hc].
    apply (runs_bind _ _ _ _ (fun _ j => (j2 <= j <= len)%nat)); [apply peek_runs; [lia|done]|].
    intros [|] j3 Hj3; [cbn [negb]|by apply runs_panic].
    apply (runs_bind _ _ _ _ (fun _ j' => (j3 <= j' <= len)%nat)); [apply gettoken_runs; [lia|done]|].
    intros _ j4 Hj4. eapply runs_bind; [apply parseredirs_runs; unfold loop_fuel; lia|]. intros rs j5 [Hj5 Hrs].
    split; [lia|]. by apply redirs_ok.
Qed.

Lemma parse_ok : runs (parse s) 0 (fun c j => j = len /\ cmd_ok c).
Proof.
  unfold parse. eapply runs_bind; [apply (parse_runs _ 0); lia|]. intros c j [Hj Hc].
  apply (runs_bind _ _ _ _ (fun _ j' => (j <= j' <= len)%nat)); [apply peek_runs; [lia|done]|]. intros _ j' Hj'.
  unfold runs, mbind, P_bind, leftovers. destruct (Nat.eqb_spec j' len); [done|]. discriminate.
Qed.

(** *** Strings cut in place *)

Lemma nulterminate_puts c buf : nulterminate c buf = foldl put_nul buf (words c).
Proof.
  revert buf. induction c as [argv|c IH q e mode fd|l IHl r IHr|l IHl r IHr|c IH]; intros buf; cbn; [done| | | |done].
  - by rewrite foldl_app, IH.
  - by rewrite foldl_app, IHl, IHr.
  - by rewrite foldl_app, IHl, IHr.
Qed.

Lemma puts_out ws : forall buf k, k ∉ ws.*2 -> foldl put_nul buf ws !! k = buf !! k.
Proof.
  induction ws as [|w ws IH]; intros buf k H; cbn; [done|]. apply not_elem_of_cons in H as [H1 H2].
  rewrite IH by done. by apply list_lookup_insert_ne.
Qed.

Lemma puts_in ws : forall buf k, (k < length buf)%nat -> k ∈ ws.*2 -> foldl put_nul buf ws !! k = Some 0.
Proof.
  induction ws as [|w ws IH]; intros buf k Hk Hin; [by apply elem_of_nil in Hin|]. cbn.
  destruct (decide (k ∈ ws.*2)) as [H|H].
  - apply IH; [unfold put_nul; by rewrite length_insert|done].
  - apply elem_of_cons in Hin as [->|Hin]; [|done]. rewrite puts_out by done. by apply list_lookup_insert_eq.
Qed.

Lemma cstring_take buf q n : buf !! (q + n)%nat = Some 0 ->
  (forall k c, (k < n)%nat -> buf !! (q + k)%nat = Some c -> c <> 0) -> str buf q = take n (drop q buf).
Proof.
  unfold str. revert q. induction n as [|n IH]; intros q H0 Hn.
  - rewrite Nat.add_0_r in H0. by rewrite (drop_S _ _ _ H0).
  - destruct (lookup_lt_is_Some_2 buf q) as [c Hc]; [apply lookup_lt_Some in H0; lia|].
    rewrite (drop_S _ _ _ Hc). cbn [cstring take].
    rewrite (proj2 (Z.eqb_neq c 0)) by (eapply (Hn 0%nat); [lia|by rewrite Nat.add_0_r]). f_equal.
    apply (IH (S q)); [by replace (S q + n)%nat with (q + S n)%nat by lia|].
    intros k c' Hk. replace (S q + k)%nat with (q + S k)%nat by lia. apply Hn. lia.
Qed.

End line.

(** C26: The parser of the shell ends on every line, and what it accepts is cut
    into strings right: [nulterminate] writes its zeros into the line that the
    words still point into, and yet every argument and file name of the command
    reads as exactly the bytes of its word, a maximal run without blanks and
    symbols. *)
Theorem parsecmd_strings s (Hs : Forall (fun c => c <> 0) s) :
  match parsecmd s with
  | POk (c, buf) i => i = length s /\ forall q e, (q, e) ∈ words c ->
      word_ok s (q, e) /\ str buf q = take (e - q) (drop q s)
  | PPanic msg => msg <> lit "out of fuel"
  end.
Proof.
  unfold parsecmd. pose proof (parse_ok s Hs) as H. unfold runs in H. destruct (parse s 0%nat) as [c i|]; [|done].
  destruct H as [Hi [Hw _]]. split; [done|]. intros q e Hin. rewrite Forall_forall in Hw.
  pose proof (Hw _ Hin) as Hqe. split; [done|]. destruct Hqe as (Hlt & Hword & Hend). cbn in *.
  rewrite nulterminate_puts. assert (Hbuf : forall k, (q <= k < e)%nat ->
    foldl put_nul (s ++ [0]) (words c) !! k = s !! k).
  { intros k Hk. rewrite puts_out; [by rewrite lookup_app_l by lia|]. intros ([q' k'] & -> & Hw')%list_elem_of_fmap.
    destruct (Hw _ Hw') as (_ & _ & Hw3). rewrite Hword in Hw3 by done. discriminate Hw3. lia. }
  rewrite (cstring_take _ q (e - q)).
  - apply list_eq. intros k. destruct (decide (k < e - q)%nat) as [Hk|Hk].
    + rewrite !lookup_take_lt, !lookup_drop by done. apply Hbuf. lia.
    + rewrite !lookup_ge_None_2; [done|rewrite length_take; lia..].
  - apply puts_in; [rewrite length_app; cbn; lia|]. replace (q + (e - q))%nat with e by lia.
    by apply (list_elem_of_fmap_2 snd _ (q, e)).
  - intros k c' Hk. rewrite Hbuf by lia. intros Hc'. by eapply (Forall_lookup_1 _ _ _ _ Hs).
Qed.

(** *** Descriptors of the processes of a command *)

(** What a descriptor refers to: what the shell was given, a file it opened, an
    end of the [n]th pipe. *)
Inductive chan := Given (n : nat) | File (path : list Z) (mode : Z) | PipeR (n : nat) | PipeW (n : nat).
Abbreviation fds := (gmap Z chan).

(** The lowest free descriptor, which [open], [dup] and [pipe] take ([fdalloc]
    of sysfile.c). *)
Definition first_fd (d : fds) : Z := default (-1) (find (fun k => bool_decide (d !! k = None)) (map Z.of_nat (seq 0 16))).

(** An [exec] with the descriptors it is made with. *)
Definition started : Type := (list Z * list (list Z) * fds)%type.

(** What a process does with other processes: it ends; it becomes a program,
    whose end is its own; it makes a child, beside which it goes on; or it waits
    until one of its children has ended. *)
Inductive plan := Ends | Becomes (x : started) | Forks (child rest : plan) | Waits (rest : plan).

(** The plan of a process where the calls of the system succeed; [n] pipes exist
    so far, and [inp] is what descriptor 0 has not delivered. *)
Fixpoint starts {A} (p : prog A) (d : fds) (n : nat) (inp : list Z) : plan * nat :=
  match p with
  | Ret _ | Exit | Fuel => (Ends, n)
  | Call c k =>
      match c with
      | Exec path argv => (Becomes (path, argv, d), n)
      | Open path mode => let fd := first_fd d in starts (k fd []) (<[fd := File path mode]> d) n inp
      | Close fd => starts (k 0 []) (delete fd d) n inp
      | Dup fd =>
          match d !! fd with
          | Some c => let fd' := first_fd d in starts (k fd' []) (<[fd' := c]> d) n inp
          | None => starts (k (-1) []) d n inp
          end
      | Pipe =>
          let r := first_fd d in
          let w := first_fd (<[r := PipeR n]> d) in
          starts (k 0 [r; w]) (<[w := PipeW n]> (<[r := PipeR n]> d)) (S n) inp
      | Fork =>
          let '(a, n) := starts (k 0 []) d n inp in
          let '(b, n) := starts (k 1 []) d n inp in (Forks a b, n)
      | Wait => let '(b, n) := starts (k 0 []) d n inp in (Waits b, n)
      | Write _ data => starts (k (Z.of_nat (length data)) []) d n inp
      | Read _ m =>
          let got := take (Z.to_nat m) inp in
          starts (k (Z.of_nat (length got)) got) d n (drop (Z.to_nat m) inp)
      | _ => starts (k 0 []) d n inp
      end
  end.

(** Input, output and error, and nothing else. *)
Definition std (i o e : chan) : fds := <[0 := i]> (<[1 := o]> {[2 := e]}).

(** What the command asks for: a list runs its left side and then its right
    side, which starts when the left one has ended; the sides of a pipe run side
    by side and the pipe ends after both; a command in the background is not
    waited for. *)
Fixpoint plumb (buf : list Z) (c : cmd) (i o e : chan) (n : nat) : plan * nat :=
  match c with
  | EXEC argv =>
      match argv with
      | [] => (Ends, n)
      | (q, _) :: _ => (Becomes (str buf q, map (fun w => str buf w.1) argv, std i o e), n)
      end
  | REDIR c file _ mode fd =>
      let f := File (str buf file) mode in
      if fd =? 0 then plumb buf c f o e n else plumb buf c i f e n
  | LIST l r =>
      let '(a, n) := plumb buf l i o e n in
      let '(b, n) := plumb buf r i o e n in (Forks a (Waits b), n)
  | PIPE l r =>
      let '(a, n') := plumb buf l i (PipeW n) e (S n) in
      let '(b, n') := plumb buf r (PipeR n) o e n' in (Forks a (Forks b (Waits (Waits Ends))), n')
  | BACK c => let '(a, n) := plumb buf c i o e n in (Forks a Ends, n)
  end.

(** The moves of descriptors that [runcmd] makes. *)
Lemma std_reopen i o e f :
  first_fd (delete 0 (std i o e)) = 0 /\ <[0 := f]> (delete 0 (std i o e)) = std f o e /\
  first_fd (delete 1 (std i o e)) = 1 /\ <[1 := f]> (delete 1 (std i o e)) = std i f e.
Proof. by vm_compute. Qed.

Lemma std_pipe i o e r w :
  first_fd (std i o e) = 3 /\ first_fd (<[3 := r]> (std i o e)) = 4 /\
  let d := <[4 := w]> (<[3 := r]> (std i o e)) in
  delete 1 d !! 4 = Some w /\ first_fd (delete 1 d) = 1 /\
  delete 4 (delete 3 (<[1 := w]> (delete 1 d))) = std i w e /\
  delete 0 d !! 3 = Some r /\ first_fd (delete 0 d) = 0 /\
  delete 4 (delete 3 (<[0 := r]> (delete 0 d))) = std r o e.
Proof. by vm_compute. Qed.

(** A program that does not return. *)
Fixpoint halts {A} (p : prog A) : Prop :=
  match p with
  | Ret _ => False
  | Exit | Fuel => True
  | Call _ k => forall r d, halts (k r d)
  end.

Lemma halts_bind {A B} (p : prog A) (f : A -> prog B) : (forall a, halts (f a)) -> halts (p ≫= f).
Proof. intros Hf. induction p as [a| | |c k IH]; cbn; auto. Qed.

Lemma runcmd_halts buf c : halts (runcmd buf c).
Proof.
  destruct c as [argv|c q e mode fd|l r|l r|c]; cbn [runcmd].
  - destruct argv as [|[q e] argv]; [done|]. do 2 (apply halts_bind; intros _). done.
  - apply halts_bind. intros _. apply halts_bind. intros x. destruct (x <? 0); apply halts_bind; done.
  - apply halts_bind. intros [x p]. destruct (x <? 0); [by apply halts_bind|]. cbv zeta.
    do 8 (apply halts_bind; intros ?). done.
  - do 4 (apply halts_bind; intros ?). done.
  - do 2 (apply halts_bind; intros ?). done.
Qed.

(** Programs that make the same call and then start the same programs. *)
Lemma starts_call {A B} c (k : Z -> list Z -> prog A) (k' : Z -> list Z -> prog B) :
  (forall r x d n inp, starts (k r x) d n inp = starts (k' r x) d n inp) ->
  forall d n inp, starts (Call c k) d n inp = starts (Call c k') d n inp.
Proof.
  intros H d n inp. destruct c; cbn [starts]; cbv zeta; rewrite ?H; try done; [|by destruct (d !! fd); rewrite ?H].
  destruct (starts (k' 0 []) d n inp) as [l n']; by rewrite ?H.
Qed.

Lemma starts_halts {A B} (p : prog A) (f : A -> prog B) : halts p ->
  forall d n inp, starts (p ≫= f) d n inp = starts p d n inp.
Proof.
  induction p as [a| | |c k IH]; [done|done|done|]. intros Hk.
  intros d n inp.
  change (Call c k ≫= f) with (Call c (fun r x => k r x ≫= f)). apply starts_call. intros. by apply IH.
Qed.

Lemma starts_assoc {A B C} (p : prog A) (f : A -> prog B) (g : B -> prog C) : forall d n inp,
  starts ((p ≫= f) ≫= g) d n inp = starts (p ≫= fun a => f a ≫= g) d n inp.
Proof.
  induction p as [a| | |c k IH]; [done..|].
  intros d n inp. change ((Call c k ≫= f) ≫= g) with (Call c (fun r x => (k r x ≫= f) ≫= g)).
  change (Call c k ≫= (fun a => f a ≫= g)) with (Call c (fun r x => k r x ≫= fun a => f a ≫= g)).
  apply starts_call. intros. apply IH.
Qed.

Lemma starts_exit {A B} (p : prog A) : forall d n inp, starts (p ≫= fun _ => (exit : prog B)) d n inp = starts p d n inp.
Proof.
  induction p as [a| | |c k IH]; [done..|].
  intros d n inp. change (Call c k ≫= (fun _ => (exit : prog B))) with (Call c (fun r x => k r x ≫= fun _ => (exit : prog B))).
  apply starts_call. intros. apply IH.
Qed.

Section calls.
Context {A : Type} (d : fds) (n : nat) (inp : list Z).

Lemma starts_runcmd buf c (f : unit -> prog A) : starts (runcmd buf c ≫= f) d n inp = starts (runcmd buf c) d n inp.
Proof. apply starts_halts, runcmd_halts. Qed.

Lemma starts_close fd (f : Z -> prog A) : starts (call1 (Close fd) ≫= f) d n inp = starts (f 0) (delete fd d) n inp.
Proof. done. Qed.
Lemma starts_open path mode (f : Z -> prog A) :
  starts (call1 (Open path mode) ≫= f) d n inp = starts (f (first_fd d)) (<[first_fd d := File path mode]> d) n inp.
Proof. done. Qed.
Lemma starts_dup fd c (f : Z -> prog A) : d !! fd = Some c ->
  starts (call1 (Dup fd) ≫= f) d n inp = starts (f (first_fd d)) (<[first_fd d := c]> d) n inp.
Proof. intros E. cbn. by rewrite E. Qed.
Lemma starts_pipe (f : Z * list Z -> prog A) :
  starts (call2 Pipe ≫= f) d n inp =
  let r := first_fd d in let w := first_fd (<[r := PipeR n]> d) in
  starts (f (0, [r; w])) (<[w := PipeW n]> (<[r := PipeR n]> d)) (S n) inp.
Proof. done. Qed.
Lemma starts_read1 (f : Z * list Z -> prog A) :
  starts (call2 (Read 0 1) ≫= f) d n inp =
  starts (f (Z.of_nat (length (take 1 inp)), take 1 inp)) d n (drop 1 inp).
Proof. done. Qed.
Lemma starts_fork1 (f : Z -> prog A) :
  starts (fork1 ≫= f) d n inp =
  let '(a, n) := starts (f 0) d n inp in let '(b, n) := starts (f 1) d n inp in (Forks a b, n).
Proof. done. Qed.
Lemma starts_wait (f : Z -> prog A) : starts (call1 Wait ≫= f) d n inp = let '(b, n) := starts (f 0) d n inp in (Waits b, n).
Proof. done. Qed.
Lemma starts_skip (f : unit -> prog A) : starts (mret tt ≫= f) d n inp = starts (f tt) d n inp.
Proof. done. Qed.
Lemma starts_puts fd l (f : unit -> prog A) : starts (puts fd l ≫= f) d n inp = starts (f tt) d n inp.
Proof. induction l as [|c l IH]; [done|exact IH]. Qed.

End calls.

(** A child of a pipeline: the end [p] of the pipe becomes its [fd]. *)
Lemma starts_child {A} fd p p0 p1 buf c ch (f : unit -> prog A) d n inp : delete fd d !! p = Some ch ->
  starts ((call1 (Close fd) ;; call1 (Dup p) ;; call1 (Close p0) ;; call1 (Close p1) ;; runcmd buf c) ≫= f) d n inp =
  starts (runcmd buf c) (delete p1 (delete p0 (<[first_fd (delete fd d) := ch]> (delete fd d)))) n inp.
Proof.
  intros E. rewrite starts_halts by (do 4 (apply halts_bind; intros ?); apply runcmd_halts).
  by rewrite starts_close, (starts_dup _ _ _ _ _ _ E), !starts_close.
Qed.

Lemma runcmd_plumbs buf c i o e n inp (Hc : plain_fds c) :
  starts (runcmd buf c) (std i o e) n inp = plumb buf c i o e n.
Proof.
  revert i o e n. induction c as [argv|c IH q q' mode fd|l IHl r IHr|l IHl r IHr|c IH]; intros i o e n; cbn in Hc.
  - destruct argv as [|[q q'] argv]; reflexivity.
  - destruct (std_reopen i o e (File (str buf q) mode)) as (E1 & E2 & E3 & E4).
    cbn [runcmd plumb]. rewrite starts_close, starts_open.
    destruct Hc as [Hc [-> | ->]]; [rewrite E1, E2|rewrite E3, E4]; cbn [Z.ltb Z.compare Z.eqb];
      rewrite starts_runcmd; by apply IH.
  - destruct Hc as [Hl Hr]. destruct (std_pipe i o e (PipeR n) (PipeW n)) as (E1 & E2 & E3 & E4 & E5 & E6 & E7 & E8).
    cbn [runcmd plumb]. rewrite starts_pipe. cbv zeta. rewrite E1, E2. cbn [Z.ltb Z.compare nth].
    rewrite starts_fork1. cbn [Z.eqb]. rewrite (starts_child 1 4 3 4 buf l _ _ _ _ _ E3), E4, E5, IHl by done.
    destruct (plumb buf l i (PipeW n) e (S n)) as [a n1]. rewrite starts_skip, starts_fork1. cbn [Z.eqb].
    rewrite (starts_child 0 3 3 4 buf r _ _ _ _ _ E6), E7, E8, IHr by done.
    by destruct (plumb buf r (PipeR n) o e n1) as [b n2].
  - destruct Hc as [Hl Hr]. cbn [runcmd plumb]. rewrite starts_fork1. cbn [Z.eqb]. rewrite starts_runcmd, IHl by done.
    destruct (plumb buf l i o e n) as [a n1]. rewrite starts_skip, starts_wait, starts_runcmd, IHr by done.
    by destruct (plumb buf r i o e n1).
  - cbn [runcmd plumb]. rewrite starts_fork1. cbn [Z.eqb]. rewrite starts_runcmd, IH by done.
    by destruct (plumb buf c i o e n) as [a n1].
Qed.

(** What a line asks for. *)
Definition plumb_line (s : list Z) (i o e : chan) (n : nat) : plan * nat :=
  match parsecmd s with POk (c, buf) _ => plumb buf c i o e n | PPanic _ => (Ends, n) end.

Lemma run_line_plumbs s i o e n inp (Hs : Forall (fun c => c <> 0) s) :
  starts (run_line s) (std i o e) n inp = plumb_line s i o e n.
Proof.
  unfold run_line, plumb_line, parsecmd. pose proof (parse_ok s Hs) as H. unfold runs in H.
  destruct (parse s 0%nat) as [c j|]; [|by apply starts_puts]. apply runcmd_plumbs, H.
Qed.

(** *** The shell on a script *)

(** A line of a script: fits into [buf] with its newline. *)
Definition script_line (l : list Z) : Prop :=
  Forall (fun c => c <> 0 /\ c <> 10 /\ c <> 13) l /\ (length l <= 98)%nat.
Definition script (ls : list (list Z)) : list Z := concat (map (fun l => l ++ [10]) ls).

Lemma starts_gets {A} room l : forall got (f : list Z -> prog A) d n rest,
  Forall (fun c => c <> 0 /\ c <> 10 /\ c <> 13) l -> (length l < room)%nat ->
  starts (gets_loop room got ≫= f) d n (l ++ 10 :: rest) = starts (f (got ++ l ++ [10])) d n rest.
Proof.
  revert l. induction room as [|room IH]; intros l got f d n rest Hl Hr; [lia|]. cbn [gets_loop].
  rewrite starts_assoc, starts_read1. destruct l as [|c l]; [done|].
  apply Forall_cons in Hl as [(_ & H10 & H13) Hl]. cbn [app take drop length Z.of_nat Z.ltb Z.compare hd] in *.
  rewrite (proj2 (Z.eqb_neq _ _) H10), (proj2 (Z.eqb_neq _ _) H13). cbn [orb].
  rewrite take_0, drop_0. change (Z.of_nat (S (length [])) <? 1) with false. cbv iota.
  rewrite IH by (done || lia). by rewrite <- app_assoc.
Qed.

Lemma cstring_nonzero l : Forall (fun c => c <> 0) l -> cstring l = l.
Proof. induction 1 as [|c l Hc _ IH]; [done|]. cbn. by rewrite (proj2 (Z.eqb_neq _ _) Hc), IH. Qed.

Lemma script_nonzero l : script_line l -> Forall (fun c => c <> 0) (l ++ [10]).
Proof.
  intros [Hl _]. apply Forall_app. split; [|by repeat constructor]. eapply Forall_impl; [exact Hl|]. by intros c [? _].
Qed.

Lemma starts_getcmd {A} l (f : option (list Z) -> prog A) d n rest : script_line l ->
  starts (getcmd ≫= f) d n (l ++ 10 :: rest) = starts (f (Some (l ++ [10]))) d n rest.
Proof.
  intros Hl. unfold getcmd, printf. rewrite starts_assoc, starts_puts, starts_assoc. unfold gets.
  rewrite starts_gets by (apply Hl || (destruct Hl; cbn; lia)). cbn [app].
  rewrite cstring_nonzero by (by apply script_nonzero). by destruct l.
Qed.

Lemma starts_getcmd_end {A} (f : option (list Z) -> prog A) d n :
  starts (getcmd ≫= f) d n [] = starts (f None) d n [].
Proof. unfold getcmd, printf. by rewrite starts_assoc, starts_puts, starts_assoc. Qed.

Lemma run_line_halts s : halts (run_line s).
Proof.
  unfold run_line. destruct (parsecmd s) as [[c buf] i|msg]; [apply runcmd_halts|]. by apply halts_bind.
Qed.

(** What the lines of a script ask for, one after the other: each has a process
    of its own, which the shell waits for. *)
Fixpoint plumb_script (ls : list (list Z)) (i o e : chan) (n : nat) : plan * nat :=
  match ls with
  | [] => (Ends, n)
  | l :: ls =>
      if bool_decide (take 3 (l ++ [10]) = lit "cd ") then plumb_script ls i o e n
      else
        let '(a, n) := plumb_line (l ++ [10]) i o e n in
        let '(b, n) := plumb_script ls i o e n in (Forks a (Waits b), n)
  end.

Lemma command_loop_plumbs i o e ls : forall fuel n, Forall script_line ls -> (length ls < fuel)%nat ->
  starts (command_loop fuel) (std i o e) n (script ls) = plumb_script ls i o e n.
Proof.
  induction ls as [|l ls IH]; intros [|fuel] n Hls Hf; cbn in Hf; try lia; cbn [command_loop plumb_script].
  { by rewrite starts_getcmd_end. }
  apply Forall_cons in Hls as [Hl Hls].
  replace (script (l :: ls)) with (l ++ 10 :: script ls) by (unfold script; cbn; by rewrite <- app_assoc).
  rewrite starts_getcmd by done. destruct (bool_decide _).
  - apply (IH fuel n Hls). lia.
  - rewrite starts_fork1. cbn [Z.eqb]. rewrite starts_halts by apply run_line_halts.
    rewrite run_line_plumbs by (by apply script_nonzero). destruct (plumb_line (l ++ [10]) i o e n) as [a n1].
    rewrite starts_skip, starts_wait, IH by (done || lia). by destruct (plumb_script ls i o e n1).
Qed.


(** *** Concrete runs *)

Lemma parsecmd_strings_witness :
  exists c buf, parsecmd (lit "(ls -l; echo a>b)|wc") = POk (c, buf) 20 /\
    forall q e, (q, e) ∈ words c ->
      word_ok (lit "(ls -l; echo a>b)|wc") (q, e) /\ str buf q = take (e - q) (drop q (lit "(ls -l; echo a>b)|wc")).
Proof.
  pose proof (parsecmd_strings (lit "(ls -l; echo a>b)|wc")) as H.
  assert (Hs : Forall (fun c => c <> 0) (lit "(ls -l; echo a>b)|wc")) by (repeat (constructor; [done|]); constructor).
  specialize (H Hs). destruct (parsecmd _) as [[c buf] i|] eqn:E; [|by vm_compute in E].
  exists c, buf. destruct H as [-> H]. split; [done|exact H].
Defined.


End ShSpec.
