(* ===== verification/ShGrammar.v ===== *)
(** The language of the shell (sh.c): the tokens of a line, the grammar of
    commands over them, and that the parser builds the command of the grammar's
    derivation. *)

From stdpp Require Import base numbers list strings.
From Stdlib Require Import ZArith Lia.
From S2P Require Import Prelude Printf Usys Sh ShSpec.
Import Printf Usys Sh ShSpec.

Module ShGrammar.

(** *** Tokens *)

(** A symbol, the symbol [>>], or a word. *)
Inductive token := Sym (c : Z) | Shr | Word (w : list Z).

Definition code (t : token) : Z := match t with Sym c => c | Shr => 43 | Word _ => 97 end.
(** The byte by which [peek] knows it. *)
Definition first (t : token) : Z := match t with Sym c => c | Shr => 62 | Word _ => 97 end.

(** *** The grammar *)

(** [<], [>] and [>>] with a file. *)
Inductive rkind := RIn | ROut | RApp.
Definition rd : Type := (rkind * list Z)%type.

(** [line ::= pipe & ... & [; line]], [pipe ::= exe [| pipe]], and an [exe] is
    redirections and words, or a line in parentheses with redirections. *)
Inductive line := One (p : pipeline) (n : nat) | Seq (p : pipeline) (n : nat) (l : line)
with pipeline := Last (e : exe) | Bar (e : exe) (p : pipeline)
with exe := Simple (rs : list rd) (args : list (list Z * list rd)) | Block (l : line) (rs : list rd).

Scheme line_mut := Induction for line Sort Prop
with pipeline_mut := Induction for pipeline Sort Prop
with exe_mut := Induction for exe Sort Prop.
Combined Scheme grammar_ind from line_mut, pipeline_mut, exe_mut.

Definition rd_toks (r : rd) : list token :=
  [match r.1 with RIn => Sym 60 | ROut => Sym 62 | RApp => Shr end; Word r.2].
Definition rds_toks (rs : list rd) : list token := concat (map rd_toks rs).
Definition args_toks (args : list (list Z * list rd)) : list token :=
  concat (map (fun a => Word a.1 :: rds_toks a.2) args).

Fixpoint line_toks (l : line) : list token :=
  match l with
  | One p n => pipe_toks p ++ replicate n (Sym 38)
  | Seq p n l => pipe_toks p ++ replicate n (Sym 38) ++ Sym 59 :: line_toks l
  end
with pipe_toks (p : pipeline) : list token :=
  match p with
  | Last e => exe_toks e
  | Bar e p => exe_toks e ++ Sym 124 :: pipe_toks p
  end
with exe_toks (e : exe) : list token :=
  match e with
  | Simple rs args => rds_toks rs ++ args_toks args
  | Block l rs => Sym 40 :: line_toks l ++ Sym 41 :: rds_toks rs
  end.

(** At most nine words to a command. *)
Fixpoint line_wf (l : line) : Prop :=
  match l with One p _ => pipe_wf p | Seq p _ l => pipe_wf p /\ line_wf l end
with pipe_wf (p : pipeline) : Prop :=
  match p with Last e => exe_wf e | Bar e p => exe_wf e /\ pipe_wf p end
with exe_wf (e : exe) : Prop :=
  match e with Simple _ args => (length args < MAXARGS)%nat | Block l _ => line_wf l end.

(** *** Their meaning *)

(** Commands with strings instead of pointers into the line. *)
Inductive tree :=
| TExec (argv : list (list Z))
| TRedir (t : tree) (file : list Z) (mode fd : Z)
| TPipe (l r : tree)
| TList (l r : tree)
| TBack (t : tree).

Definition tredir (t : tree) (r : list Z * Z * Z) : tree := TRedir t r.1.1 r.1.2 r.2.
Definition rd_means (r : rd) : list Z * Z * Z :=
  match r.1 with RIn => (r.2, O_RDONLY, 0) | _ => (r.2, Z.lor O_WRONLY O_CREATE, 1) end.

Fixpoint line_means (l : line) : tree :=
  match l with
  | One p n => Nat.iter n TBack (pipe_means p)
  | Seq p n l => TList (Nat.iter n TBack (pipe_means p)) (line_means l)
  end
with pipe_means (p : pipeline) : tree :=
  match p with
  | Last e => exe_means e
  | Bar e p => TPipe (exe_means e) (pipe_means p)
  end
with exe_means (e : exe) : tree :=
  match e with
  | Simple rs args => foldl tredir (TExec (map fst args)) (map rd_means (rs ++ concat (map snd args)))
  | Block l rs => foldl tredir (line_means l) (map rd_means rs)
  end.

Section line.
Context (s : list Z) (Hs : Forall (fun c => c <> 0) s).

Definition span (q e : nat) : list Z := take (e - q) (drop q s).

Definition is_token (t : token) (tok : Z) (q e : nat) : Prop :=
  match t with
  | Sym c => tok = c /\ strchr symbols c = true
  | Shr => tok = 43
  | Word w => tok = 97 /\ w = span q e
  end.

(** From [i] on the line consists of the tokens [ts]. *)
Fixpoint lexes (i : nat) (ts : list token) : Prop :=
  match ts with
  | [] => skip s is_space i = length s
  | t :: ts => exists tok q e j, gettoken s i = POk (tok, q, e) j /\ is_token t tok q e /\ lexes j ts
  end.

Lemma skip_twice i : skip s is_space (skip s is_space i) = skip s is_space i.
Proof.
  unfold skip. set (n := count_while is_space (drop i s)).
  assert (count_while is_space (drop (i + n) s) = 0)%nat; [|lia].
  rewrite <- drop_drop. subst n. induction (drop i s) as [|c l IH]; [done|]. cbn [count_while].
  destruct (is_space c) eqn:E; [done|]. cbn [drop count_while]. by rewrite E.
Qed.

Lemma gettoken_skip i : gettoken s (skip s is_space i) = gettoken s i.
Proof. unfold gettoken. by rewrite skip_twice. Qed.

Lemma lexes_skip i ts : lexes i ts -> lexes (skip s is_space i) ts.
Proof. destruct ts; cbn; [by rewrite skip_twice|by rewrite gettoken_skip]. Qed.

(** The byte a token starts with. *)
Lemma gettoken_first i tok q e j : gettoken s i = POk (tok, q, e) j ->
  let c := ch s (skip s is_space i) in
  tok = 0 /\ c = 0 \/ tok = c /\ c <> 0 /\ strchr symbols c = true \/ tok = 43 /\ c = 62 \/
  tok = 97 /\ c <> 0 /\ strchr symbols c = false.
Proof.
  unfold gettoken. cbn zeta. set (c := ch s (skip s is_space i)).
  destruct (Z.eqb_spec c 0) as [E|E]; [intros [= <- <- <- <-]; auto|].
  destruct (strchr (lit "|();&<") c) eqn:E1.
  { intros [= <- <- <- <-]. right. left. split; [done|]. split; [done|]. unfold strchr in *. cbn in *.
    rewrite !orb_true_iff in *. intuition auto. }
  destruct (Z.eqb_spec c 62) as [->|E2].
  { destruct (_ =? 62); intros [= <- <- <- <-]; [by right; right; left|right; left]. done. }
  intros [= <- <- <- <-]. right. right. right. split; [done|]. split; [done|].
  apply Z.eqb_neq in E2. unfold strchr in *. cbn in *. rewrite !orb_false_iff in *. intuition auto.
Qed.

Lemma symbols_cases c : strchr symbols c = true -> c <> 97 /\ c <> 43 /\ c <> 0.
Proof.
  unfold strchr. cbn. rewrite !orb_true_iff, !Z.eqb_eq. intros H. repeat split; intros ->; intuition discriminate.
Qed.

(** [peek] for symbols sees the next token. *)
Lemma peek_lexes toks i ts :
  (forall c, strchr toks c = true -> strchr symbols c = true) -> lexes i ts -> (i <= length s)%nat ->
  exists j, peek s toks i = POk (match ts with [] => false | t :: _ => strchr toks (first t) end) j /\
    lexes j ts /\ (j <= length s)%nat.
Proof.
  intros Ht Hl Hi. exists (skip s is_space i). split; [|split; [by apply lexes_skip|by apply skip_spec]].
  unfold peek. f_equal. destruct ts as [|t ts]; cbn in Hl.
  - rewrite Hl. unfold ch. by rewrite nth_overflow by lia.
  - destruct Hl as (tok & q & e & j & R & Htok & _). apply gettoken_first in R. cbn zeta in R.
    set (c := ch s (skip s is_space i)) in *.
    assert (H97 : strchr toks 97 = false).
    { destruct (strchr toks 97) eqn:E; [|done]. apply Ht in E. done. }
    destruct t as [c'| |w]; cbn in Htok |- *.
    + destruct Htok as [-> Hsym]. pose proof (symbols_cases c' Hsym) as (? & ? & ?).
      destruct R as [[? _]|[(-> & Hc & _)|[[? _]|[? _]]]]; try done. by rewrite (proj2 (Z.eqb_neq _ _) Hc).
    + subst tok. destruct R as [[? _]|[(<- & _ & ?)|[[_ ->]|[? _]]]]; done.
    + destruct Htok as [-> _]. rewrite H97. destruct R as [[? _]|[(<- & _ & ?)|[[? _]|(_ & Hc & Hn)]]]; try done.
      destruct (strchr toks c) eqn:E; [apply Ht in E; congruence|]. apply andb_false_r.
Qed.

Lemma lexes_length i ts : (i <= length s)%nat -> lexes i ts -> (length ts + i <= length s)%nat.
Proof.
  revert i. induction ts as [|t ts IH]; intros i Hi; cbn; [lia|]. intros (tok & q & e & j & R & Ht & Hl).
  destruct (gettoken_spec s Hs i Hi) as (tok' & q' & e' & j' & R' & H1 & H2 & _ & H3 & _).
  rewrite R in R'. injection R' as <- <- <- <-. specialize (IH j ltac:(lia) Hl).
  enough (q < e)%nat by lia. apply H3. destruct t; cbn in Ht.
  - destruct Ht as [-> H]. by apply symbols_cases in H as (? & ? & ?).
  - by rewrite Ht.
  - by destruct Ht as [-> _].
Qed.

Definition yields {A} (m : P A) (i : nat) (Q : A -> Prop) (rest : list token) : Prop :=
  exists a j, m i = POk a j /\ Q a /\ lexes j rest /\ (j <= length s)%nat.

Lemma yields_bind {A B} (m : P A) (f : A -> P B) i Q R rest rest' :
  yields m i R rest' ->
  (forall a j, R a -> lexes j rest' -> (j <= length s)%nat -> yields (f a) j Q rest) -> yields (m ≫= f) i Q rest.
Proof.
  intros (a & j & E & Ha & Hl & Hj) Hf. destruct (Hf a j Ha Hl Hj) as (b & j' & E' & H').
  exists b, j'. split; [|done]. unfold mbind, P_bind. by rewrite E.
Qed.

Lemma yields_ret {A} (a : A) i (Q : A -> Prop) rest :
  Q a -> lexes i rest -> (i <= length s)%nat -> yields (mret a) i Q rest.
Proof. intros. by exists a, i. Qed.

Lemma yields_take i t rest : (i <= length s)%nat -> lexes i (t :: rest) ->
  yields (gettoken s) i (fun r => is_token t r.1.1 r.1.2 r.2) rest.
Proof.
  intros Hi (tok & q & e & j & R & Ht & Hl). exists (tok, q, e), j. split_and!; try done.
  destruct (gettoken_spec s Hs i Hi) as (tok' & q' & e' & j' & R' & _ & H2 & _). rewrite R in R'.
  injection R' as <- <- <- <-. lia.
Qed.

(** What [peek] says of what is left. *)
Definition sees (toks : list Z) (rest : list token) : bool :=
  match rest with [] => false | t :: _ => strchr toks (first t) end.

Lemma yields_peek toks i rest : (forall c, strchr toks c = true -> strchr symbols c = true) ->
  (i <= length s)%nat -> lexes i rest -> yields (peek s toks) i (fun b => b = sees toks rest) rest.
Proof.
  intros Ht Hi Hl. destruct (peek_lexes toks i rest Ht Hl Hi) as (j & R & Hj & Hle). by eexists _, j.
Qed.

(** Strings of what was parsed. *)
Definition rtext (r : redir) : list Z * Z * Z := let '(q, e, mode, fd) := r in (span q e, mode, fd).
Definition wtext (w : nat * nat) : list Z := span w.1 w.2.
Fixpoint text (c : cmd) : tree :=
  match c with
  | EXEC argv => TExec (map wtext argv)
  | REDIR c q e mode fd => TRedir (text c) (span q e) mode fd
  | PIPE l r => TPipe (text l) (text r)
  | LIST l r => TList (text l) (text r)
  | BACK c => TBack (text c)
  end.

Lemma text_redirs c rs : text (foldl redircmd c rs) = foldl tredir (text c) (map rtext rs).
Proof. revert c. induction rs as [|[[[q e] mode] fd] rs IH]; intros c; [done|]. cbn. by rewrite IH. Qed.

Ltac subsym := intros ?; unfold strchr; cbn; rewrite ?orb_true_iff, ?orb_false_r; intuition auto.

Lemma parseredirs_yields rs : forall fuel i rest, (length rs < fuel)%nat -> (i <= length s)%nat ->
  lexes i (rds_toks rs ++ rest) -> sees (lit "<>") rest = false ->
  yields (parseredirs s fuel) i (fun x => map rtext x = map rd_means rs) rest.
Proof.
  induction rs as [|[k w] rs IH]; intros [|fuel] i rest Hf Hi Hl Hr; cbn in Hf; try lia; cbn [parseredirs].
  - change (rds_toks [] ++ rest) with rest in Hl.
    eapply yields_bind; [apply yields_peek; [subsym|done|exact Hl]|]. intros b j -> Hj Hle. rewrite Hr.
    by apply yields_ret.
  - set (t0 := match k with RIn => Sym 60 | ROut => Sym 62 | RApp => Shr end).
    change (lexes i (t0 :: Word w :: (rds_toks rs ++ rest))) in Hl.
    eapply yields_bind; [apply yields_peek; [subsym|done|exact Hl]|]. intros b j -> Hj Hle.
    replace (sees _ _) with true by by destruct k.
    eapply yields_bind; [exact (yields_take _ _ _ Hle Hj)|]. intros [[tok q0] e0] j1 Htok H1 Hle1.
    eapply yields_bind; [exact (yields_take _ _ _ Hle1 H1)|]. intros [[t q] e] j2 [Ht Hw] H2 Hle2. cbn in Ht, Hw, Htok.
    subst t w. cbn [negb Z.eqb]. eapply yields_bind; [apply IH; [lia|done|done|done]|].
    intros x j3 Hx H3 Hle3. apply yields_ret; [|done|done]. cbn [map]. f_equal; [|done].
    destruct k; cbn in Htok; [destruct Htok as [-> _]|destruct Htok as [-> _]|subst tok]; done.
Qed.

(** The tokens that may follow a command. *)
Definition follow (stop : list Z) (rest : list token) : Prop :=
  match rest with [] => True | t :: _ => strchr stop (first t) = true end.

Lemma follow_sees stop toks rest :
  (forall c, strchr stop c = true -> strchr toks c = false) -> follow stop rest -> sees toks rest = false.
Proof. destruct rest; cbn; auto. Qed.

Lemma follow_mono stop stop' rest :
  (forall c, strchr stop c = true -> strchr stop' c = true) -> follow stop rest -> follow stop' rest.
Proof. destruct rest; cbn; auto. Qed.

Ltac apart := intros ?; unfold strchr; cbn; rewrite ?orb_true_iff, ?orb_false_iff, ?Z.eqb_eq, ?Z.eqb_neq; lia.

Lemma gettoken_end i : (i <= length s)%nat -> lexes i [] ->
  exists q e, gettoken s i = POk (0, q, e) (length s).
Proof.
  intros Hi Hl. cbn in Hl. unfold gettoken. rewrite Hl. assert (ch s (length s) = 0) as -> by (by apply ch_zero).
  cbn [Z.eqb]. eexists _, _. f_equal. unfold skip. rewrite drop_ge by done. cbn. lia.
Qed.

Lemma rds_toks_length rs : length (rds_toks rs) = (2 * length rs)%nat.
Proof.
  induction rs as [|r rs IH]; [done|]. change (rds_toks (r :: rs)) with (rd_toks r ++ rds_toks rs).
  rewrite length_app, IH. cbn. lia.
Qed.

Lemma args_toks_length args : (length args <= length (args_toks args))%nat.
Proof.
  induction args as [|[w rs] args IH]; [done|].
  change (args_toks ((w, rs) :: args)) with (Word w :: rds_toks rs ++ args_toks args).
  cbn [length]. rewrite length_app. lia.
Qed.

Lemma parseargs_yields args : forall fuel argc i rest, (length args < fuel)%nat -> (argc + length args < MAXARGS)%nat ->
  (i <= length s)%nat -> lexes i (args_toks args ++ rest) -> follow (lit "|)&;") rest ->
  yields (parseargs s fuel argc) i
    (fun x => map wtext x.1 = map fst args /\ map rtext x.2 = map rd_means (concat (map snd args))) rest.
Proof.
  induction args as [|[w rs] args IH]; intros [|fuel] argc i rest Hf Hm Hi Hl Hr; cbn in Hf, Hm; try lia;
    cbn [parseargs].
  - change (args_toks [] ++ rest) with rest in Hl.
    eapply yields_bind; [apply yields_peek; [subsym|done|exact Hl]|]. intros b j -> Hj Hle.
    destruct rest as [|t rest]; cbn [sees follow] in *; [|rewrite Hr; by apply yields_ret].
    destruct (gettoken_end j Hle Hj) as (q & e & R). exists ([], []), (length s). unfold mbind, P_bind. rewrite R.
    split; [done|]. split; [done|]. split; [|lia]. cbn. unfold skip. rewrite drop_ge by done. cbn. lia.
  - assert (Hl' : lexes i (Word w :: (rds_toks rs ++ args_toks args ++ rest))) by (cbn in Hl; by rewrite <- app_assoc in Hl).
    eapply yields_bind; [apply yields_peek; [subsym|done|exact Hl']|]. intros b j -> Hj Hle.
    change (sees _ _) with false. cbv iota.
    eapply yields_bind; [exact (yields_take _ _ _ Hle Hj)|]. intros [[tok q] e] j1 [Ht Hw] H1 Hle1. cbn in Ht, Hw.
    subst tok w. cbn [Z.eqb negb Pos.eqb]. destruct (Nat.leb_spec MAXARGS (S argc)); [lia|].
    pose proof (lexes_length _ _ Hle1 H1) as Hlen. rewrite !length_app in Hlen.
    pose proof (rds_toks_length rs).
    eapply yields_bind; [eapply (parseredirs_yields rs); [unfold loop_fuel; lia|done|exact H1|]|].
    { destruct args as [|[w' rs'] args]; [|done]. eapply follow_sees; [|exact Hr]. apart. }
    intros x j2 Hx H2 Hle2. eapply yields_bind; [apply (IH fuel (S argc)); [lia|lia|done|exact H2|done]|].
    intros [ws rs'] j3 [Hws Hrs'] H3 Hle3. apply yields_ret; [|done|done]. cbn in *. split; [by f_equal|].
    by rewrite !map_app, Hx, Hrs'.
Qed.

Lemma parsebacks_yields n : forall fuel c i rest, (n < fuel)%nat -> (i <= length s)%nat ->
  lexes i (replicate n (Sym 38) ++ rest) -> sees (lit "&") rest = false ->
  yields (parsebacks s fuel c) i (fun x => text x = Nat.iter n TBack (text c)) rest.
Proof.
  induction n as [|n IH]; intros [|fuel] c i rest Hf Hi Hl Hr; try lia; cbn [parsebacks].
  - change (replicate 0 (Sym 38) ++ rest) with rest in Hl.
    eapply yields_bind; [apply yields_peek; [subsym|done|exact Hl]|]. intros b j -> Hj Hle. rewrite Hr.
    by apply yields_ret.
  - eapply yields_bind; [apply yields_peek; [subsym|done|exact Hl]|]. intros b j -> Hj Hle.
    change (sees _ _) with true. cbv iota.
    eapply yields_bind; [exact (yields_take _ _ _ Hle Hj)|]. intros _ j1 _ H1 Hle1.
    destruct (IH fuel (BACK c) j1 rest) as (x & j2 & R & Hx & H2); [lia|done|done|done|].
    exists x, j2. split; [done|]. split; [|done]. rewrite Hx. by rewrite Nat.iter_succ_r.
Qed.

Lemma exe_sees e rest : follow (lit "|)&;") rest ->
  sees (lit "(") (exe_toks e ++ rest) = match e with Simple _ _ => false | Block _ _ => true end.
Proof.
  intros Hr. destruct e as [rs args|l rs]; [|done]. cbn [exe_toks].
  destruct rs as [|[[] w] rs]; try done. destruct args as [|[w rs] args]; [|done]. cbn.
  eapply follow_sees; [|exact Hr]. apart.
Qed.

(** [c ; rest] and [c | rest] when the symbol is there. *)
Lemma rest_yields toks t (mk : cmd -> cmd -> cmd) (next : P cmd) c i ts Q rest :
  (forall c, strchr toks c = true -> strchr symbols c = true) -> strchr toks (first t) = true ->
  (i <= length s)%nat -> lexes i (t :: ts) -> (forall j, (j <= length s)%nat -> lexes j ts -> yields next j Q rest) ->
  yields (b ← peek s toks; if (b : bool) then gettoken s ;; r ← next; mret (mk c r) else mret c) i
    (fun x => exists r, x = mk c r /\ Q r) rest.
Proof.
  intros Ht Hsee Hi Hl Hnext. eapply yields_bind; [by apply yields_peek|]. intros b j -> Hj Hle.
  cbn [sees]. rewrite Hsee. eapply yields_bind; [exact (yields_take _ _ _ Hle Hj)|]. intros _ j1 _ H1 Hle1.
  eapply yields_bind; [by apply Hnext|]. intros r j2 Hr H2 Hle2. apply yields_ret; [by exists r|done|done].
Qed.

(** ... and when it is not. *)
Lemma no_rest_yields toks (yes : P cmd) c i rest (Q : cmd -> Prop) :
  (forall c, strchr toks c = true -> strchr symbols c = true) -> sees toks rest = false -> Q c ->
  (i <= length s)%nat -> lexes i rest -> yields (b ← peek s toks; if (b : bool) then yes else mret c) i Q rest.
Proof.
  intros Ht Hsee Hc Hi Hl. eapply yields_bind; [by apply yields_peek|]. intros b j -> Hj Hle. rewrite Hsee.
  by apply yields_ret.
Qed.

Lemma simple_yields rs args fuel i rest : (length args < MAXARGS)%nat -> (0 < fuel)%nat -> (i <= length s)%nat ->
  lexes i (exe_toks (Simple rs args) ++ rest) -> follow (lit "|)&;") rest ->
  yields (parseexec s fuel) i (fun c => text c = exe_means (Simple rs args)) rest.
Proof.
  intros Hw Hf Hi Hl Hr. destruct fuel as [|f]; [lia|]. cbn [parseexec].
  eapply yields_bind; [apply yields_peek; [subsym|done|exact Hl]|]. intros b j -> Hj Hle.
  rewrite exe_sees by done. cbn [exe_toks] in Hj. rewrite <- app_assoc in Hj.
  pose proof (lexes_length _ _ Hle Hj) as Hlen. rewrite !length_app, rds_toks_length in Hlen.
  eapply yields_bind; [apply (parseredirs_yields rs); [unfold loop_fuel; lia|done|exact Hj|]|].
  { destruct args as [|[w rs'] args]; [|done]. eapply follow_sees; [|exact Hr]. apart. }
  intros x j1 Hx H1 Hle1. pose proof (args_toks_length args).
  eapply yields_bind; [apply (parseargs_yields args); [unfold loop_fuel; lia|lia|done|exact H1|done]|].
  intros [ws rs'] j2 [Hws Hrs'] H2 Hle2. cbn in Hws, Hrs'. apply yields_ret; [|done|done].
  rewrite text_redirs. cbn [text exe_means]. by rewrite !map_app, Hx, Hrs', Hws.
Qed.

Lemma block_yields l rs fuel i rest :
  (forall j, (j <= length s)%nat -> lexes j (line_toks l ++ Sym 41 :: rds_toks rs ++ rest) ->
    yields (parseline s fuel) j (fun c => text c = line_means l) (Sym 41 :: rds_toks rs ++ rest)) ->
  (i <= length s)%nat -> lexes i (exe_toks (Block l rs) ++ rest) -> follow (lit "|)&;") rest ->
  yields (parseexec s (S (S fuel))) i (fun c => text c = exe_means (Block l rs)) rest.
Proof.
  intros Hline Hi Hl Hr. cbn [parseexec].
  eapply yields_bind; [apply yields_peek; [subsym|done|exact Hl]|]. intros b j -> Hj Hle.
  rewrite exe_sees by done. cbn [parseblock].
  eapply yields_bind; [apply yields_peek; [subsym|done|exact Hj]|]. intros b j1 -> Hj1 Hle1.
  rewrite exe_sees by done. cbn [negb].
  assert (Hj1' : lexes j1 (Sym 40 :: (line_toks l ++ Sym 41 :: rds_toks rs ++ rest))).
  { cbn [exe_toks app] in Hj1. by rewrite <- app_assoc in Hj1. }
  eapply yields_bind; [exact (yields_take _ _ _ Hle1 Hj1')|]. intros _ j2 _ H2 Hle2.
  eapply yields_bind; [by apply Hline|]. intros c j3 Hc H3 Hle3.
  eapply yields_bind; [apply yields_peek; [subsym|done|exact H3]|]. intros b j4 -> H4 Hle4.
  change (sees _ _) with true. cbn [negb].
  eapply yields_bind; [exact (yields_take _ _ _ Hle4 H4)|]. intros _ j5 _ H5 Hle5.
  pose proof (lexes_length _ _ Hle5 H5) as Hlen. rewrite !length_app, rds_toks_length in Hlen.
  eapply yields_bind; [apply (parseredirs_yields rs); [unfold loop_fuel; lia|done|exact H5|]|].
  { eapply follow_sees; [|exact Hr]. apart. }
  intros x j6 Hx H6 Hle6. apply yields_ret; [|done|done].
  rewrite text_redirs. cbn [exe_means]. by rewrite Hx, Hc.
Qed.

Lemma grammar_yields :
  (forall l, line_wf l -> forall fuel i rest, (4 * length (line_toks l) + 4 <= fuel)%nat -> (i <= length s)%nat ->
    lexes i (line_toks l ++ rest) -> follow (lit ")") rest ->
    yields (parseline s fuel) i (fun c => text c = line_means l) rest) /\
  (forall p, pipe_wf p -> forall fuel i rest, (4 * length (pipe_toks p) + 3 <= fuel)%nat -> (i <= length s)%nat ->
    lexes i (pipe_toks p ++ rest) -> follow (lit ")&;") rest ->
    yields (parsepipe s fuel) i (fun c => text c = pipe_means p) rest) /\
  (forall e, exe_wf e -> forall fuel i rest, (4 * length (exe_toks e) + 2 <= fuel)%nat -> (i <= length s)%nat ->
    lexes i (exe_toks e ++ rest) -> follow (lit "|)&;") rest ->
    yields (parseexec s fuel) i (fun c => text c = exe_means e) rest).
Proof.
  apply grammar_ind; cbn [line_wf pipe_wf exe_wf line_toks pipe_toks exe_toks line_means pipe_means].
  - intros p IH n Hp [|f] i rest Hf Hi Hl Hr; [lia|]. rewrite length_app, length_replicate in Hf.
    rewrite <- app_assoc in Hl. cbn [parseline].
    eapply yields_bind; [apply IH; [done|lia|done|exact Hl|]|].
    { destruct n; [|done]. eapply follow_mono; [|exact Hr]. subsym. }
    intros c j Hc Hj Hle. pose proof (lexes_length _ _ Hle Hj) as Hlen. rewrite length_app, length_replicate in Hlen.
    eapply yields_bind; [eapply (parsebacks_yields n); [unfold loop_fuel; lia|done|exact Hj|]|].
    { eapply follow_sees; [|exact Hr]. apart. }
    intros c' j1 Hc' H1 Hle1. apply no_rest_yields; [subsym|eapply follow_sees; [|exact Hr]; apart| |done|done].
    by rewrite Hc', Hc.
  - intros p IH n l IHl [Hp Hwl] [|f] i rest Hf Hi Hl Hr; [lia|]. rewrite !length_app, length_replicate in Hf. cbn in Hf.
    rewrite <- !app_assoc in Hl. cbn [app] in Hl. cbn [parseline].
    eapply yields_bind; [apply IH; [done|lia|done|exact Hl|]|]; [by destruct n|].
    intros c j Hc Hj Hle. pose proof (lexes_length _ _ Hle Hj) as Hlen. rewrite length_app, length_replicate in Hlen.
    eapply yields_bind; [eapply (parsebacks_yields n); [unfold loop_fuel; lia|done|exact Hj|done]|].
    intros c' j1 Hc' H1 Hle1. destruct (rest_yields (lit ";") (Sym 59) LIST (parseline s f) c' j1
      (line_toks l ++ rest) (fun r => text r = line_means l) rest) as (x & j2 & R & (r & -> & Hrt) & H2);
      [subsym|done|done|done|intros; apply IHl; [done|lia|done|done|done]|].
    exists (LIST c' r), j2. split; [exact R|]. split; [|done]. cbn. by rewrite Hc', Hc, Hrt.
  - intros e IH He [|f] i rest Hf Hi Hl Hr; [lia|]. cbn [parsepipe].
    eapply yields_bind; [apply IH; [done|lia|done|exact Hl|]|].
    { eapply follow_mono; [|exact Hr]. subsym. }
    intros c j Hc Hj Hle. apply no_rest_yields; [subsym|eapply follow_sees; [|exact Hr]; apart|done|done|done].
  - intros e IH p IHp [He Hp] [|f] i rest Hf Hi Hl Hr; [lia|]. rewrite length_app in Hf. cbn in Hf.
    rewrite <- app_assoc in Hl. cbn [app] in Hl. cbn [parsepipe].
    eapply yields_bind; [apply IH; [done|lia|done|exact Hl|done]|].
    intros c j Hc Hj Hle. destruct (rest_yields (lit "|") (Sym 124) PIPE (parsepipe s f) c j
      (pipe_toks p ++ rest) (fun r => text r = pipe_means p) rest) as (x & j2 & R & (r & -> & Hrt) & H2);
      [subsym|done|done|done|intros; apply IHp; [done|lia|done|done|done]|].
    exists (PIPE c r), j2. split; [exact R|]. split; [|done]. cbn. by rewrite Hc, Hrt.
  - intros rs args Hw f i rest Hf Hi Hl Hr. apply simple_yields; [done|lia|done|done|done].
  - intros l IH rs Hl f i rest Hf Hi Hx Hr. cbn in Hf. rewrite length_app in Hf. cbn in Hf.
    destruct f as [|[|f]]; [lia|lia|]. apply block_yields; [|done|done|done].
    intros j Hj Hlex. apply IH; [done|lia|done|done|done].
Qed.

(** *** What the parser accepts is of the grammar *)

Lemma lexes_same i j ts : skip s is_space i = skip s is_space j -> lexes i ts -> lexes j ts.
Proof. intros E. destruct ts; cbn; [by rewrite E|]. by rewrite <- (gettoken_skip i), E, gettoken_skip. Qed.

Definition tok_of (tok : Z) (q e : nat) : token :=
  if tok =? 97 then Word (span q e) else if tok =? 43 then Shr else Sym tok.

Lemma is_token_of t tok q e : is_token t tok q e -> t = tok_of tok q e.
Proof.
  unfold tok_of. destruct t as [c| |w]; cbn; [|by intros ->|by intros [-> ->]].
  intros [-> Hc]. destruct (symbols_cases c Hc) as (H1 & H2 & _). by rewrite !(proj2 (Z.eqb_neq _ _)).
Qed.

Lemma gettoken_is i tok q e j : gettoken s i = POk (tok, q, e) j -> tok <> 0 -> is_token (tok_of tok q e) tok q e.
Proof.
  intros R Hn. apply gettoken_first in R. cbn zeta in R. set (c := ch s (skip s is_space i)) in *. clearbody c.
  destruct R as [[? _]|[(-> & _ & Hc)|[[-> _]|[-> _]]]]; [done| |done|done].
  destruct (symbols_cases c Hc) as (H1 & H2 & _). unfold tok_of. by rewrite !(proj2 (Z.eqb_neq _ _)).
Qed.

(** A result of [m] comes with the tokens that [m] took. *)
Definition eats {A} (m : P A) (i : nat) (Q : A -> list token -> Prop) : Prop :=
  forall a j, m i = POk a j -> (j <= length s)%nat /\
    exists ts, Q a ts /\ forall rest, lexes j rest -> lexes i (ts ++ rest).

Lemma eats_bind {A B} (m : P A) (f : A -> P B) i (R : A -> list token -> Prop) Q :
  eats m i R ->
  (forall a j ts, m i = POk a j -> R a ts -> (j <= length s)%nat -> eats (f a) j (fun b ts' => Q b (ts ++ ts'))) ->
  eats (m ≫= f) i Q.
Proof.
  intros Hm Hf b j'. unfold mbind, P_bind. destruct (m i) as [a j|] eqn:E; [|done]. intros E'.
  destruct (Hm a j E) as (Hj & ts & Hts & Hl). destruct (Hf a j ts eq_refl Hts Hj b j' E') as (Hj' & ts' & HQ & Hl').
  split; [done|]. exists (ts ++ ts'). split; [done|]. intros rest Hr. rewrite <- app_assoc. auto.
Qed.

Lemma eats_ret {A} (a : A) i (Q : A -> list token -> Prop) : (i <= length s)%nat -> Q a [] -> eats (mret a) i Q.
Proof. intros Hi HQ b j [= <- <-]. split; [done|]. by exists []. Qed.

Lemma eats_panic {A} msg i (Q : A -> list token -> Prop) : eats (ppanic msg) i Q.
Proof. done. Qed.

Lemma eats_weaken {A} (m : P A) i (R Q : A -> list token -> Prop) :
  eats m i R -> (forall a ts, R a ts -> Q a ts) -> eats m i Q.
Proof. intros Hm H a j E. destruct (Hm a j E) as (Hj & ts & Hts & Hl). eauto. Qed.

(** [peek] takes nothing, and says what comes. *)
Lemma eats_peek {A} toks (yes no : P A) i (Q : A -> list token -> Prop) : (i <= length s)%nat ->
  (forall j, (j <= length s)%nat -> strchr toks (ch s (skip s is_space j)) = true -> eats yes j Q) ->
  (forall j, (j <= length s)%nat -> eats no j Q) ->
  eats (b ← peek s toks; if (b : bool) then yes else no) i Q.
Proof.
  intros Hi Hyes Hno. eapply (eats_bind _ _ _ (fun _ ts => ts = [])).
  - intros b j [= <- <-]. split; [by apply skip_spec|]. exists []. split; [done|]. intros rest.
    apply lexes_same, skip_twice.
  - intros b j ts [= <- <-] -> Hj. destruct (_ && _) eqn:E; [|by apply Hno].
    apply andb_true_iff in E as [_ E]. apply Hyes; [done|]. by rewrite skip_twice.
Qed.

Lemma eats_expect {A} toks msg (next : P A) i (Q : A -> list token -> Prop) : (i <= length s)%nat ->
  (forall j, (j <= length s)%nat -> strchr toks (ch s (skip s is_space j)) = true -> eats next j Q) ->
  eats (b ← peek s toks; if negb b then ppanic msg else next) i Q.
Proof.
  intros Hi Hnext a j E. apply (eats_peek toks next (ppanic msg) i Q Hi Hnext (fun j _ => eats_panic msg j Q) a j).
  revert E. unfold mbind, P_bind, peek. by destruct (_ && _).
Qed.

Lemma eats_gettoken i : (i <= length s)%nat ->
  eats (gettoken s) i (fun '(tok, q, e) ts => tok = 0 /\ ts = [] \/ tok <> 0 /\ ts = [tok_of tok q e]).
Proof.
  intros Hi [[tok q] e] j R. destruct (gettoken_spec s Hs i Hi) as (t' & q' & e' & j' & R' & _ & H2 & _).
  rewrite R in R'. injection R' as <- <- <- <-. split; [lia|]. destruct (decide (tok = 0)) as [->|Hn].
  - exists []. split; [by left|]. intros rest. apply lexes_same. apply gettoken_first in R as Hc. cbn zeta in Hc.
    destruct Hc as [[_ Hc]|[(Hc & ? & _)|[[? _]|[? _]]]]; try done.
    unfold gettoken in R. rewrite Hc in R. cbn [Z.eqb] in R. injection R as _ _ <-. by rewrite !skip_twice.
  - exists [tok_of tok q e]. split; [by right|]. intros rest Hr. exists tok, q, e, j. split; [done|].
    split; [by eapply gettoken_is|done].
Qed.

(** The token of a symbol that [peek] has seen. *)
Lemma eats_symbol {A} c (next : P A) i (Q : A -> list token -> Prop) : strchr symbols c = true -> c <> 62 ->
  (i <= length s)%nat -> ch s (skip s is_space i) = c ->
  (forall j, (j <= length s)%nat -> eats next j (fun a ts => Q a (Sym c :: ts))) ->
  eats (gettoken s ;; next) i Q.
Proof.
  intros Hc H62 Hi Ec Hnext. eapply eats_bind; [by apply eats_gettoken|]. intros [[tok q] e] j ts R Hts Hj.
  apply gettoken_first in R. cbn zeta in R. rewrite Ec in R. destruct (symbols_cases c Hc) as (H1 & H2 & H3).
  destruct R as [[_ ?]|[(-> & _)|[[_ ?]|(_ & _ & ?)]]]; try congruence.
  destruct Hts as [[? _]|[_ ->]]; [done|]. unfold tok_of. rewrite !(proj2 (Z.eqb_neq _ _)) by done. by apply Hnext.
Qed.

(** [<], [>] or [>>], after [peek] has seen [<] or [>]. *)
Lemma gettoken_redir i tok q e j : strchr (lit "<>") (ch s (skip s is_space i)) = true ->
  gettoken s i = POk (tok, q, e) j ->
  exists k, tok <> 0 /\ tok_of tok q e = (match k with RIn => Sym 60 | ROut => Sym 62 | RApp => Shr end) /\
    (if tok =? 60 then (O_RDONLY, 0) else (Z.lor O_WRONLY O_CREATE, 1)) =
    (match k with RIn => (O_RDONLY, 0) | _ => (Z.lor O_WRONLY O_CREATE, 1) end).
Proof.
  intros Hc R. apply gettoken_first in R. cbn zeta in R. set (c := ch s (skip s is_space i)) in *. clearbody c.
  assert (c = 60 \/ c = 62) as [-> | ->].
  { revert Hc. unfold strchr. cbn. rewrite !orb_true_iff, !Z.eqb_eq. lia. }
  - destruct R as [[_ ?]|[(-> & _)|[[_ ?]|(_ & _ & ?)]]]; try done. by exists RIn.
  - destruct R as [[_ ?]|[(-> & _)|[[-> _]|(_ & _ & ?)]]]; try done; [by exists ROut|by exists RApp].
Qed.

Lemma parseredirs_eats fuel : forall i, (i <= length s)%nat ->
  eats (parseredirs s fuel) i (fun x ts => exists rs, ts = rds_toks rs /\ map rtext x = map rd_means rs).
Proof.
  induction fuel as [|f IH]; intros i Hi; [done|]. cbn [parseredirs]. apply eats_peek; [done| |].
  2:{ intros j Hj. apply eats_ret; [done|]. by exists []. }
  intros j Hj Hc. eapply eats_bind; [by apply eats_gettoken|]. intros [[tok q0] e0] j1 ts1 R1 Ht1 Hj1.
  destruct (gettoken_redir _ _ _ _ _ Hc R1) as (k & Hn & Ek & Em).
  destruct Ht1 as [[? _]|[_ ->]]; [done|]. rewrite Ek.
  eapply eats_bind; [by apply eats_gettoken|]. intros [[t q] e] j2 ts2 R2 Ht2 Hj2.
  destruct (Z.eqb_spec t 97) as [->|]; [|apply eats_panic]. destruct Ht2 as [[? _]|[_ ->]]; [done|].
  eapply eats_bind; [by apply IH|]. intros x j3 ts3 _ (rs & -> & Hx) Hj3. apply eats_ret; [done|].
  exists ((k, span q e) :: rs). rewrite app_nil_r. split; [done|]. cbn [map]. rewrite Hx. f_equal.
  destruct (tok =? 60), k; cbn in *; congruence.
Qed.

Lemma parseargs_eats fuel : forall argc i, (argc < MAXARGS)%nat -> (i <= length s)%nat ->
  eats (parseargs s fuel argc) i (fun x ts => exists args, ts = args_toks args /\ (argc + length args < MAXARGS)%nat /\
    map wtext x.1 = map fst args /\ map rtext x.2 = map rd_means (concat (map snd args))).
Proof.
  induction fuel as [|f IH]; intros argc i Hm Hi; [done|]. cbn [parseargs]. apply eats_peek; [done| |].
  { intros j Hj _. apply eats_ret; [done|]. exists []. cbn. auto with lia. }
  intros j Hj. eapply eats_bind; [by apply eats_gettoken|]. intros [[tok q] e] j1 ts1 R1 Ht1 Hj1.
  destruct (Z.eqb_spec tok 0) as [->|Hn].
  { destruct Ht1 as [[_ ->]|[? _]]; [|done]. apply eats_ret; [done|]. exists []. cbn. auto with lia. }
  destruct Ht1 as [[? _]|[_ ->]]; [done|]. destruct (Z.eqb_spec tok 97) as [->|]; [|apply eats_panic]. cbn [negb].
  destruct (Nat.leb_spec MAXARGS (S argc)); [apply eats_panic|].
  eapply eats_bind; [by apply parseredirs_eats|]. intros x j2 ts2 _ (rs & -> & Hx) Hj2.
  eapply eats_bind; [by apply IH|]. intros [ws rs'] j3 ts3 _ (args & -> & Hlen & Hws & Hrs) Hj3. cbn in Hws, Hrs.
  apply eats_ret; [done|]. exists ((span q e, rs) :: args). rewrite app_nil_r. cbn. split; [done|].
  split; [lia|]. split; [by f_equal|]. by rewrite !map_app, Hx, Hrs.
Qed.

Lemma parsebacks_eats fuel : forall c i, (i <= length s)%nat ->
  eats (parsebacks s fuel c) i (fun x ts => exists n, ts = replicate n (Sym 38) /\ text x = Nat.iter n TBack (text c)).
Proof.
  induction fuel as [|f IH]; intros c i Hi; [done|]. cbn [parsebacks]. apply eats_peek; [done| |].
  2:{ intros j Hj. apply eats_ret; [done|]. by exists 0%nat. }
  intros j Hj Hc. apply (eats_symbol 38); [done|done|done| |].
  { revert Hc. unfold strchr. cbn. rewrite orb_false_r, Z.eqb_eq. lia. }
  intros j1 Hj1. eapply eats_weaken; [by apply IH|]. cbn. intros x ts (n & -> & Hx). exists (S n).
  split; [done|]. by rewrite Nat.iter_succ_r.
Qed.

Definition eats_line (fuel : nat) : Prop := forall i, (i <= length s)%nat ->
  eats (parseline s fuel) i (fun c ts => exists l, line_wf l /\ ts = line_toks l /\ text c = line_means l).
Definition eats_pipe (fuel : nat) : Prop := forall i, (i <= length s)%nat ->
  eats (parsepipe s fuel) i (fun c ts => exists p, pipe_wf p /\ ts = pipe_toks p /\ text c = pipe_means p).
Definition eats_exe (fuel : nat) : Prop := forall i, (i <= length s)%nat ->
  eats (parseexec s fuel) i (fun c ts => exists e, exe_wf e /\ ts = exe_toks e /\ text c = exe_means e).
Definition eats_block (fuel : nat) : Prop := forall i, (i <= length s)%nat ->
  eats (parseblock s fuel) i (fun c ts => exists l rs, line_wf l /\ ts = exe_toks (Block l rs) /\
    text c = exe_means (Block l rs)).

Ltac the_symbol := unfold strchr; cbn; rewrite orb_false_r, Z.eqb_eq; trivial.

Lemma line_eats f : eats_pipe f -> eats_line f -> eats_line (S f).
Proof.
  intros Hp Hl i Hi. cbn [parseline]. eapply eats_bind; [by apply Hp|]. intros c j ts _ (p & Hwp & -> & Hc) Hj.
  eapply eats_bind; [by apply parsebacks_eats|]. intros c1 j1 ts1 _ (n & -> & Hc1) Hj1. rewrite Hc in Hc1.
  apply eats_peek; [done| |].
  2:{ intros j2 Hj2. apply eats_ret; [done|]. exists (One p n). cbn. by rewrite app_nil_r. }
  intros j2 Hj2 Hsym. apply (eats_symbol 59); [done|done|done|revert Hsym; the_symbol|]. intros j3 Hj3.
  eapply eats_bind; [by apply Hl|]. intros r j4 ts4 _ (l & Hwl & -> & Hr) Hj4. apply eats_ret; [done|].
  exists (Seq p n l). cbn. rewrite app_nil_r. by rewrite Hc1, Hr.
Qed.

Lemma pipe_eats f : eats_exe f -> eats_pipe f -> eats_pipe (S f).
Proof.
  intros He Hp i Hi. cbn [parsepipe]. eapply eats_bind; [by apply He|]. intros c j ts _ (e & Hwe & -> & Hc) Hj.
  apply eats_peek; [done| |].
  2:{ intros j2 Hj2. apply eats_ret; [done|]. exists (Last e). cbn. by rewrite app_nil_r. }
  intros j2 Hj2 Hsym. apply (eats_symbol 124); [done|done|done|revert Hsym; the_symbol|]. intros j3 Hj3.
  eapply eats_bind; [by apply Hp|]. intros r j4 ts4 _ (p & Hwp & -> & Hr) Hj4. apply eats_ret; [done|].
  exists (Bar e p). cbn. rewrite app_nil_r. by rewrite Hc, Hr.
Qed.

Lemma exe_eats f : eats_block f -> eats_exe (S f).
Proof.
  intros Hb i Hi. cbn [parseexec]. apply eats_peek; [done| |].
  - intros j Hj _. eapply eats_weaken; [by apply Hb|]. cbn beta. intros c ts (l & rs & Hw & Hts & Hc).
    by exists (Block l rs).
  - intros j Hj. eapply eats_bind; [by apply parseredirs_eats|]. intros x j1 ts1 _ (rs & -> & Hx) Hj1.
    eapply eats_bind; [apply parseargs_eats; [unfold MAXARGS; lia|done]|].
    intros [ws rs'] j2 ts2 _ (args & -> & Hlen & Hws & Hrs) Hj2. cbn in Hws, Hrs. apply eats_ret; [done|].
    exists (Simple rs args). rewrite app_nil_r. split; [done|]. split; [done|].
    rewrite text_redirs. cbn [text exe_means]. by rewrite !map_app, Hx, Hrs, Hws.
Qed.

Lemma block_eats f : eats_line f -> eats_block (S f).
Proof.
  intros Hl i Hi. cbn [parseblock]. apply eats_expect; [done|]. intros j Hj Hsym.
  apply (eats_symbol 40); [done|done|done|revert Hsym; the_symbol|]. intros j1 Hj1.
  eapply eats_bind; [by apply Hl|]. intros c j2 ts2 _ (l & Hw & -> & Hc) Hj2.
  apply eats_expect; [done|]. intros j3 Hj3 Hsym'.
  apply (eats_symbol 41); [done|done|done|revert Hsym'; the_symbol|]. intros j4 Hj4.
  eapply eats_bind; [by apply parseredirs_eats|]. intros x j5 ts5 _ (rs & -> & Hx) Hj5. apply eats_ret; [done|].
  exists l, rs. rewrite app_nil_r. split; [done|]. split; [done|]. rewrite text_redirs. cbn. by rewrite Hc, Hx.
Qed.

Lemma all_eats fuel : eats_line fuel /\ eats_pipe fuel /\ eats_exe fuel /\ eats_block fuel.
Proof.
  induction fuel as [|f (Hl & Hp & He & Hb)]; [by split_and!|].
  split_and!; [by apply line_eats|by apply pipe_eats|by apply exe_eats|by apply block_eats].
Qed.

(** *** The tokens of the line *)

(** [gettoken] until it returns 0. *)
Fixpoint tokens_from (fuel : nat) (i : nat) : list token :=
  match fuel with
  | O => []
  | S f =>
      match gettoken s i with
      | POk (tok, q, e) j => if tok =? 0 then [] else tok_of tok q e :: tokens_from f j
      | PPanic _ => []
      end
  end.
Definition tokens : list token := tokens_from (S (length s)) 0.

Lemma tokens_from_lexes fuel : forall i, (i <= length s)%nat -> (length s - i < fuel)%nat -> lexes i (tokens_from fuel i).
Proof.
  induction fuel as [|f IH]; intros i Hi Hf; [lia|]. cbn [tokens_from].
  destruct (gettoken_spec s Hs i Hi) as (tok & q & e & j & R & H1 & H2 & _ & H3 & _). rewrite R.
  apply gettoken_first in R as Hc. cbn zeta in Hc. destruct (Z.eqb_spec tok 0) as [->|Hn].
  - cbn. destruct Hc as [[_ Hc]|[(Hc & ? & _)|[[? _]|[? _]]]]; try done. apply ch_zero; [done|by apply skip_spec|done].
  - exists tok, q, e, j. split; [done|]. split; [by eapply gettoken_is|]. apply IH; [lia|].
    cbn in H3. specialize (H3 Hn). lia.
Qed.

(** A line has one list of tokens. *)
Lemma lexes_inj ts : forall ts' i, lexes i ts -> lexes i ts' -> ts = ts'.
Proof.
  assert (Hend : forall i t ts, skip s is_space i = length s -> lexes i (t :: ts) -> False).
  { intros i t ts0 E (tok & q & e & j & R & Ht & _). apply gettoken_first in R. cbn zeta in R. rewrite E in R.
    rewrite (proj2 (ch_zero s Hs (length s) ltac:(lia))) in R by done.
    destruct R as [[-> _]|[(_ & ? & _)|[[_ ?]|(_ & ? & _)]]]; try done.
    destruct t; cbn in Ht; [destruct Ht as [<- Hc]; done|done|by destruct Ht]. }
  induction ts as [|t ts IH]; intros [|t' ts'] i H H'; [done|by apply Hend in H'|by apply Hend in H|].
  destruct H as (tok & q & e & j & R & Ht & Hl), H' as (tok' & q' & e' & j' & R' & Ht' & Hl').
  rewrite R in R'. injection R' as <- <- <- <-. rewrite (is_token_of _ _ _ _ Ht), (is_token_of _ _ _ _ Ht').
  f_equal. by eapply IH.
Qed.

Lemma tokens_lexes ts : lexes 0 ts <-> tokens = ts.
Proof.
  assert (H : lexes 0 tokens) by (apply tokens_from_lexes; lia).
  split; [|by intros <-]. intros Hl. by apply (lexes_inj _ _ 0%nat).
Qed.

Lemma parse_end c i : lexes i [] -> (peek s [] ;; leftovers s ;; (mret c : P cmd)) i = POk c (length s).
Proof. intros H. cbn in H. unfold mbind, P_bind, peek, leftovers. rewrite H, Nat.eqb_refl. done. Qed.

Lemma parse_end_inv c d i j : (peek s [] ;; leftovers s ;; (mret c : P cmd)) i = POk d j -> d = c /\ lexes i [].
Proof.
  unfold mbind, P_bind, peek, leftovers. destruct (Nat.eqb_spec (skip s is_space i) (length s)) as [E|]; [|done].
  by intros [= <- <-].
Qed.

End line.

(** C24: The parser of the shell decides and computes the shell's grammar: a
    line is accepted with the command [T] exactly when its tokens are those of
    a derivation - pipelines separated by [;] and [&], commands separated by
    [|], each of words and redirections or a line in parentheses - that means
    [T].  In particular [|] binds tighter than [&] and [&] tighter than [;], and
    every redirection is around the command it is written at. *)
Theorem parse_grammar s T (Hs : Forall (fun c => c <> 0) s) :
  (exists c, parse s 0%nat = POk c (length s) /\ text s c = T) <->
  (exists l, line_wf l /\ tokens s = line_toks l /\ line_means l = T).
Proof.
  unfold parse. split.
  - intros (c & R & HT). destruct (all_eats s Hs (4 * length s + 4)) as (Hl & _).
    unfold mbind, P_bind at 1 in R. destruct (parseline s _ 0%nat) as [c' j|] eqn:E; [|done].
    apply parse_end_inv in R as [<- Hj]. destruct (Hl 0%nat ltac:(lia) c j E) as (_ & ts & (l & Hw & -> & Hc) & Hts).
    exists l. split; [done|]. split; [|congruence]. apply (tokens_lexes s Hs). specialize (Hts [] Hj).
    by rewrite app_nil_r in Hts.
  - intros (l & Hw & Hl & HT). apply (tokens_lexes s Hs) in Hl. pose proof (lexes_length s Hs 0 _ ltac:(lia) Hl).
    rewrite <- (app_nil_r (line_toks l)) in Hl.
    destruct (proj1 (grammar_yields s Hs) l Hw (4 * length s + 4)%nat 0%nat []) as (c & j & R & Hc & Hj & _);
      [lia|lia|done|done|].
    exists c. split; [|congruence]. unfold mbind, P_bind at 1. rewrite R. by apply parse_end.
Qed.

Definition sample : list Z := lit "grep x<in|(wc ; echo a b)>out &; ls".
Definition sample_line : line :=
  Seq (Bar (Simple [] [(lit "grep", []); (lit "x", [(RIn, lit "in")])])
           (Last (Block (Seq (Last (Simple [] [(lit "wc", [])])) 0 
                             (One (Last (Simple [] [(lit "echo", []); (lit "a", []); (lit "b", [])])) 0))
                        [(ROut, lit "out")])))
      1 (One (Last (Simple [] [(lit "ls", [])])) 0).

Lemma parse_grammar_witness :
  exists c, parse sample 0%nat = POk c (length sample) /\ text sample c = line_means sample_line.
Proof.
  apply (parse_grammar sample (line_means sample_line)).
  - by apply (bool_decide_unpack _).
  - exists sample_line. vm_compute. by repeat split; repeat constructor.
Defined.

End ShGrammar.
