(* ===== verification/Utils.v ===== *)
(** The small programs of the system: cat.c, echo.c, wc.c, ls.c, kill.c, ln.c,
    mkdir.c, rm.c, init.c, zombie.c, forktest.c, stressfs.c and the tests of the
    added system calls.

    Each [main] is a program of Usys.v over its argument strings.  [fuel] bounds
    the turns of the loops whose end is up to the system. *)

From stdpp Require Import base numbers list strings.
From Stdlib Require Import ZArith Lia.
From S2P Require Import Prelude Printf Usys.
Import Printf Usys.

Module Utils.

(** The loop over [argv[1]], ... *)
Fixpoint each (args : list (list Z)) (f : list Z -> prog unit) : prog unit :=
  match args with
  | [] => mret tt
  | a :: r => f a ;; each r f
  end.

(** *** cat.c *)

Definition sizeof_buf : Z := 512.

Fixpoint cat (fd : Z) (fuel : nat) : prog unit :=
  match fuel with
  | O => Fuel
  | S f =>
      '(n, buf) ← call2 (Read fd sizeof_buf);
      if n >? 0 then
        w ← call1 (Write 1 (take (Z.to_nat n) buf));
        if negb (w =? n) then printfln 1 "cat: write error" [] ;; exit else cat fd f
      else if n <? 0 then printfln 1 "cat: read error" [] ;; exit
      else mret tt
  end.

Definition cat_main (argv : list (list Z)) (fuel : nat) : prog unit :=
  if (length argv <=? 1)%nat then cat 0 fuel ;; exit else
  each (tail argv) (fun a =>
    fd ← call1 (Open a 0);
    if fd <? 0 then printfln 1 "cat: cannot open %s" [Str a] ;; exit else
    cat fd fuel ;;
    call1 (Close fd) ;; mret tt) ;;
  exit.

(** *** echo.c *)

Fixpoint echo_loop (args : list (list Z)) : prog unit :=
  match args with
  | [] => mret tt
  | a :: r => printf 1 "%s%s" [Str a; Str (match r with [] => [10] | _ => lit " " end)] ;; echo_loop r
  end.
Definition echo_main (argv : list (list Z)) : prog unit := echo_loop (tail argv) ;; exit.

(** *** wc.c *)

(** [l], [w], [c] and [inword]. *)
Record counts := mkCounts { wl : Z; ww : Z; wc_ : Z; inword : bool }.

Definition wc_byte (s : counts) (b : Z) : counts :=
  let l := if b =? 10 then i32 (wl s + 1) else wl s in
  let c := i32 (wc_ s + 1) in
  if strchr (lit " " ++ [13; 9; 10; 11]) b then mkCounts l (ww s) c false
  else if negb (inword s) then mkCounts l (i32 (ww s + 1)) c true
  else mkCounts l (ww s) c true.

Fixpoint wc_loop (fd : Z) (s : counts) (fuel : nat) : prog counts :=
  match fuel with
  | O => Fuel
  | S f =>
      '(n, buf) ← call2 (Read fd sizeof_buf);
      if n >? 0 then wc_loop fd (foldl wc_byte s (take (Z.to_nat n) buf)) f
      else if n <? 0 then printfln 1 "wc: read error" [] ;; exit
      else mret s
  end.

Definition wc (fd : Z) (name : list Z) (fuel : nat) : prog unit :=
  s ← wc_loop fd (mkCounts 0 0 0 false) fuel;
  printfln 1 "%d %d %d %s" [D (wl s); D (ww s); D (wc_ s); Str name].

Definition wc_main (argv : list (list Z)) (fuel : nat) : prog unit :=
  if (length argv <=? 1)%nat then wc 0 [] fuel ;; exit else
  each (tail argv) (fun a =>
    fd ← call1 (Open a 0);
    if fd <? 0 then printfln 1 "wc: cannot open %s" [Str a] ;; exit else
    wc fd a fuel ;;
    call1 (Close fd) ;; mret tt) ;;
  exit.

(** *** ls.c *)

Definition DIRSIZ : nat := 14.

(** What follows the last slash. *)
Fixpoint after_slash (path : list Z) : list Z :=
  match path with
  | [] => []
  | c :: r => if strchr r 47 then after_slash r else if c =? 47 then r else path
  end.

Definition fmtname (path : list Z) : list Z :=
  let p := after_slash path in
  if (DIRSIZ <=? length p)%nat then p
  else p ++ replicate (DIRSIZ - length p) 32.

(** [st.type], [st.ino], [st.size]. *)
Definition st_type (st : list Z) : Z := nth 0 st 0.
Definition st_ino (st : list Z) : Z := nth 2 st 0.
Definition st_size (st : list Z) : Z := nth 4 st 0.

Definition print_entry (path st : list Z) : prog unit :=
  printfln 1 "%s %d %d %d" [Str (fmtname path); D (st_type st); D (st_ino st); D (st_size st)].

(** The entries of the directory: [de.inum] and [de.name] in 16 bytes. *)
Fixpoint ls_loop (fd : Z) (path : list Z) (fuel : nat) : prog unit :=
  match fuel with
  | O => Fuel
  | S f =>
      '(n, de) ← call2 (Read fd 16);
      if negb (n =? 16) then mret tt
      else if nth 0 de 0 + 256 * nth 1 de 0 =? 0 then ls_loop fd path f
      else
        let buf := path ++ lit "/" ++ cstring (take DIRSIZ (drop 2 de)) in
        '(r, st) ← stat buf;
        (if r <? 0 then printfln 1 "ls: cannot stat %s" [Str buf] else print_entry buf st) ;;
        ls_loop fd path f
  end.

Definition ls (path : list Z) (fuel : nat) : prog unit :=
  fd ← call1 (Open path 0);
  if fd <? 0 then printfln 2 "ls: cannot open %s" [Str path] else
  '(r, st) ← call2 (Fstat fd);
  if r <? 0 then printfln 2 "ls: cannot stat %s" [Str path] ;; call1 (Close fd) ;; mret tt else
  (if st_type st =? 2 then print_entry path st
   else if st_type st =? 1 then
     if (512 <? length path + 1 + DIRSIZ + 1)%nat then printfln 1 "ls: path too long" []
     else ls_loop fd path fuel
   else mret tt) ;;
  call1 (Close fd) ;; mret tt.

Definition ls_main (argv : list (list Z)) (fuel : nat) : prog unit :=
  if (length argv <? 2)%nat then ls (lit ".") fuel ;; exit
  else each (tail argv) (fun a => ls a fuel) ;; exit.

(** *** kill.c, ln.c, mkdir.c, rm.c *)

Definition kill_main (argv : list (list Z)) : prog unit :=
  if (length argv <? 2)%nat then printfln 2 "usage: kill pid..." [] ;; exit
  else each (tail argv) (fun a => call1 (Kill (atoi a)) ;; mret tt) ;; exit.

Definition ln_main (argv : list (list Z)) : prog unit :=
  match argv with
  | [_; old; new] =>
      r ← call1 (Link old new);
      (if r <? 0 then printfln 2 "link %s %s: failed" [Str old; Str new] else mret tt) ;; exit
  | _ => printfln 2 "Usage: ln old new" [] ;; exit
  end.

Fixpoint mkdir_loop (args : list (list Z)) : prog unit :=
  match args with
  | [] => mret tt
  | a :: rest =>
      r ← call1 (Mkdir a);
      if r <? 0 then printfln 2 "mkdir: %s failed to create" [Str a] else mkdir_loop rest
  end.
Definition mkdir_main (argv : list (list Z)) : prog unit :=
  if (length argv <? 2)%nat then printfln 2 "Usage: mkdir files..." [] ;; exit
  else mkdir_loop (tail argv) ;; exit.

Fixpoint rm_loop (args : list (list Z)) : prog unit :=
  match args with
  | [] => mret tt
  | a :: rest =>
      r ← call1 (Unlink a);
      if r <? 0 then printfln 2 "rm: %s failed to delete" [Str a] else rm_loop rest
  end.
Definition rm_main (argv : list (list Z)) : prog unit :=
  if (length argv <? 2)%nat then printfln 2 "Usage: rm files..." [] ;; exit
  else rm_loop (tail argv) ;; exit.

(** *** init.c *)

(** [while ((wpid = wait()) >= 0 && wpid != pid)] *)
Fixpoint reap_loop (pid : Z) (fuel : nat) : prog unit :=
  match fuel with
  | O => Fuel
  | S f =>
      wpid ← call1 Wait;
      if (wpid >=? 0) && negb (wpid =? pid) then printfln 1 "zombie!" [] ;; reap_loop pid f
      else mret tt
  end.

(** [for (;;)] *)
Fixpoint init_loop (fuel : nat) : prog unit :=
  match fuel with
  | O => Fuel
  | S f =>
      printfln 1 "init: starting sh" [] ;;
      pid ← call1 Fork;
      if pid <? 0 then printfln 1 "init: fork failed" [] ;; exit else
      if pid =? 0 then
        exec (lit "sh") [lit "sh"] ;;
        printfln 1 "init: exec sh failed" [] ;; exit
      else
        reap_loop pid f ;;
        init_loop f
  end.

Definition init_main (fuel : nat) : prog unit :=
  r ← call1 (Open (lit "console") 2);
  (if r <? 0 then
     call1 (Mknod (lit "console") 1 1) ;; call1 (Open (lit "console") 2) ;; mret tt
   else mret tt) ;;
  call1 (Dup 0) ;;
  call1 (Dup 0) ;;
  init_loop fuel.

(** *** zombie.c *)

Definition zombie_main : prog unit :=
  pid ← call1 Fork;
  (if pid >? 0 then call1 (Sleep 5) ;; mret tt else mret tt) ;;
  exit.

(** *** forktest.c *)

Definition N : nat := 1000.

(** Its own [printf]. *)
Definition forktest_printf (fd : Z) (s : string) : prog unit := call1 (Write fd (lit s ++ [10])) ;; mret tt.

(** [for (n = 0; n < N; n++)]: the children made; [left] turns are left. *)
Fixpoint fork_loop (n left : nat) : prog nat :=
  match left with
  | O => mret n
  | S f =>
      pid ← call1 Fork;
      if pid <? 0 then mret n
      else if pid =? 0 then exit
      else fork_loop (S n) f
  end.

(** [for (; n > 0; n--)] *)
Fixpoint wait_loop (n : nat) : prog unit :=
  match n with
  | O => mret tt
  | S n =>
      r ← call1 Wait;
      if r <? 0 then forktest_printf 1 "wait stopped early" ;; exit
      else wait_loop n
  end.

Definition forktest : prog unit :=
  forktest_printf 1 "fork test" ;;
  n ← fork_loop 0 N;
  if (n =? N)%nat then forktest_printf 1 "fork claimed to work N times!" ;; exit else
  wait_loop n ;;
  r ← call1 Wait;
  if negb (r =? -1) then forktest_printf 1 "wait got too many" ;; exit else
  forktest_printf 1 "fork test OK".

Definition forktest_main : prog unit := forktest ;; exit.

(** *** stressfs.c *)

(** [for (i = 0; i < 4; i++) if (fork() > 0) break;]: the [i] it ends with. *)
Fixpoint stress_forks (i : Z) (left : nat) : prog Z :=
  match left with
  | O => mret i
  | S f =>
      pid ← call1 Fork;
      if pid >? 0 then mret i else stress_forks (i + 1) f
  end.

Fixpoint times (n : nat) (p : prog unit) : prog unit :=
  match n with
  | O => mret tt
  | S n => p ;; times n p
  end.

Definition stressfs_main : prog unit :=
  printfln 1 "stressfs starting" [] ;;
  i ← stress_forks 0 4;
  printfln 1 "write %d" [D i] ;;
  let path := lit "stressfs" ++ [48 + i] in
  fd ← call1 (Open path (Z.lor 0x200 2));
  times 20 (call1 (Write fd (replicate 512 97)) ;; mret tt) ;;
  call1 (Close fd) ;;
  printfln 1 "read" [] ;;
  fd ← call1 (Open path 0);
  times 20 (call1 (Read fd 512) ;; mret tt) ;;
  call1 (Close fd) ;;
  call1 Wait ;;
  exit.

(** *** getChildrenTest.c *)

(** [for (int j = children; j > 0; j /= 100)] *)
Fixpoint print_children (j : Z) (fuel : nat) : prog unit :=
  match fuel with
  | O => Fuel
  | S f =>
      if j >? 0 then printf 1 "%d " [D (Z.rem j 100)] ;; print_children (Z.quot j 100) f
      else mret tt
  end.

Definition getChildrenTest_main : prog unit :=
  pid ← call1 Getpid;
  call1 Fork ;; call1 Fork ;; call1 Fork ;; call1 Fork ;;
  p ← call1 Getpid;
  (if negb (p =? pid) then call1 (Sleep 1000) ;; mret tt else mret tt) ;;
  p ← call1 Getpid;
  (if p =? pid then
     p ← call1 Getpid;
     puts 1 (format (lit "parent ID: %d" ++ [10] ++ lit "childs: ") [D p]) ;;
     children ← call1 Getchildren;
     print_children children 6 ;;
     printfln 1 "" []
   else mret tt) ;;
  exit.

(** *** getParentIDTest.c, getSyscallCounterTest.c, syscallCounterTest.c *)

(** "[child] (pid) parent id: parent". *)
Definition print_parent (child : string) : prog unit :=
  p ← call1 Getpid;
  q ← call1 Getparentid;
  puts 1 (format (lit child ++ lit " (%d) parent id: %d" ++ [10]) [D p; D q]).

(** It returns from [main]. *)
Definition getParentIDTest_main : prog unit :=
  pid ← call1 Getpid;
  printfln 1 "parent id: %d" [D pid] ;;
  child1 ← call1 Fork;
  if child1 =? 0 then
    print_parent "child1" ;;
    child2 ← call1 Fork;
    if child2 =? 0 then print_parent "child2"
    else call1 Wait ;; mret tt
  else call1 Wait ;; mret tt.

Definition getSyscallCounterTest_main (argv : list (list Z)) : prog unit :=
  let num := atoi (nth 1 argv []) in
  n ← call1 (Getsyscallcounter num);
  printfln 1 "system call counter %d: %d" [D num; D n] ;;
  exit.

(** [for (int i = 1; i <= 24; ++i)] *)
Fixpoint print_counters (fmt : string) (ix : list Z) : prog unit :=
  match ix with
  | [] => mret tt
  | i :: r =>
      n ← call1 (Getsyscallcounter i);
      printfln 1 fmt [D i; D n] ;;
      print_counters fmt r
  end.

Definition syscallCounterTest_main : prog unit :=
  let ix := map Z.of_nat (seq 1 24) in
  print_counters "system call counter at beginning %d: %d" ix ;;
  pid ← call1 Getpid;
  printfln 1 "parent id: %d" [D pid] ;;
  child1 ← call1 Fork;
  (if child1 =? 0 then
     print_parent "child1" ;;
     child2 ← call1 Fork;
     if child2 =? 0 then print_parent "child2"
     else call1 Wait ;; exit
   else
     call1 Wait ;;
     print_counters "system call counter at the end %d: %d" ix ;; exit) ;;
  exit.

End Utils.
