(* ===== verification/UtilsSpec.v ===== *)
(** What the small programs do on a system that keeps its promises about files
    and processes: [cat] copies, [wc] counts, [echo] and [gets] read and write
    lines, [forktest] passes. *)

From stdpp Require Import base numbers list strings.
From Stdlib Require Import ZArith Lia.
From S2P Require Import Prelude Printf Usys Utils.
Import Printf Usys Utils.

Module UtilsSpec.

(** *** Running a program *)

(** What the system answers to a call, in its state. *)
Class System (W : Type) := answer : W -> call -> Z * list Z * W.

Inductive ending (A : Type) := Done (a : A) | Exited | Spent.
Arguments Done {A}.
Arguments Exited {A}.
Arguments Spent {A}.

Section run.
Context {W : Type} `{!System W}.

Fixpoint run {A} (p : prog A) (w : W) : ending A * W :=
  match p with
  | Ret a => (Done a, w)
  | Exit => (Exited, w)
  | Fuel => (Spent, w)
  | Call c k => let '(r, d, w') := answer w c in run (k r d) w'
  end.

Lemma run_bind {A B} (p : prog A) (f : A -> prog B) w :
  run (p ≫= f) w =
  match run p w with
  | (Done a, w') => run (f a) w'
  | (Exited, w') => (Exited, w')
  | (Spent, w') => (Spent, w')
  end.
Proof.
  revert w. induction p as [a| | |c k IH]; intros w; [done..|].
  change (Call c k ≫= f) with (Call c (fun r d => k r d ≫= f)). cbn [run].
  destruct (answer w c) as [[r d] w']. apply IH.
Qed.

Lemma run_done {A B} (p : prog A) (f : A -> prog B) a w w' :
  run p w = (Done a, w') -> run (p ≫= f) w = run (f a) w'.
Proof. intros E. by rewrite run_bind, E. Qed.

Lemma run_call1 {A} c (f : Z -> prog A) w :
  run (call1 c ≫= f) w = let '(r, d, w') := answer w c in run (f r) w'.
Proof. done. Qed.
Lemma run_call2 {A} c (f : Z * list Z -> prog A) w :
  run (call2 c ≫= f) w = let '(r, d, w') := answer w c in run (f (r, d)) w'.
Proof. done. Qed.

End run.

(** *** Files *)

(** What programs rely on: [content] are the files by their names, [unread] is
    what a descriptor has not delivered yet, [output] what was written to
    descriptor 1.  A [read] delivers some of the bytes that are there, none only
    at the end; a [write] takes all it is given. *)
Class Files (W : Type) `{!System W} := {
  content : W -> list Z -> option (list Z);
  unread : W -> Z -> option (list Z);
  output : W -> list Z;
  read_some w fd n l : unread w fd = Some l -> 0 < n ->
    exists k w', answer w (Read fd n) = (Z.of_nat k, take k l, w') /\
      (k <= length l)%nat /\ Z.of_nat k <= n /\ (k = 0%nat -> l = []) /\
      unread w' fd = Some (drop k l) /\ output w' = output w /\ content w' = content w;
  write_all w data : exists w', answer w (Write 1 data) = (Z.of_nat (length data), [], w') /\
    output w' = output w ++ data /\ unread w' = unread w /\ content w' = content w;
  open_file w name l : content w name = Some l ->
    exists fd w', answer w (Open name 0) = (fd, [], w') /\ 0 <= fd /\
      unread w' fd = Some l /\ output w' = output w /\ content w' = content w;
  close_file w fd : exists r d w', answer w (Close fd) = (r, d, w') /\
    output w' = output w /\ content w' = content w }.

Section files.
Context {W : Type} `{!System W, !Files W}.

Lemma run_puts l : forall w, exists w', run (puts 1 l) w = (Done tt, w') /\
  output w' = output w ++ l /\ unread w' = unread w /\ content w' = content w.
Proof.
  induction l as [|c l IH]; intros w.
  { exists w. by rewrite app_nil_r. }
  cbn [puts]. rewrite run_call1. destruct (write_all w [c]) as (w1 & -> & H1 & H2 & H3).
  destruct (IH w1) as (w2 & R & H4 & H5 & H6). exists w2. split; [exact R|].
  rewrite H4, H1, H5, H6, H2, H3. by rewrite <- app_assoc.
Qed.

(** [cat] copies what is left of its descriptor. *)
Lemma cat_copy fd fuel : forall w l, unread w fd = Some l -> (length l < fuel)%nat ->
  exists w', run (cat fd fuel) w = (Done tt, w') /\ output w' = output w ++ l /\ content w' = content w.
Proof.
  induction fuel as [|f IH]; intros w l Hl Hf; [lia|]. cbn [cat]. rewrite run_call2.
  destruct (read_some w fd sizeof_buf l Hl) as (k & w1 & -> & Hk & Hn & H0 & Hu & Ho & Hc); [done|].
  destruct k as [|k].
  { exists w1. specialize (H0 eq_refl). subst l. by rewrite app_nil_r. }
  destruct (Z.gtb_spec (Z.of_nat (S k)) 0); [|lia]. rewrite run_call1, Nat2Z.id, take_take, Nat.min_id.
  destruct (write_all w1 (take (S k) l)) as (w2 & -> & Ho2 & Hu2 & Hc2).
  rewrite <- Hu2 in Hu. rewrite length_take, Nat.min_l, Z.eqb_refl by lia. cbn [negb].
  destruct (IH w2 _ Hu) as (w3 & R & Ho3 & Hc3); [rewrite length_drop; lia|].
  exists w3. split; [exact R|]. rewrite Ho3, Ho2, Ho, Hc3, Hc2, Hc. split; [|done].
  by rewrite <- app_assoc, take_drop.
Qed.

(** *** Counting *)

Definition blank (c : Z) : bool := strchr (lit " " ++ [13; 9; 10; 11]) c.

(** The words of a text: [word] is the beginning of one that the text goes on. *)
Fixpoint words_from (word l : list Z) : list (list Z) :=
  match l with
  | [] => match word with [] => [] | _ => [word] end
  | c :: r =>
      if blank c then match word with [] => words_from [] r | _ => word :: words_from [] r end
      else words_from (word ++ [c]) r
  end.
Definition words (l : list Z) : list (list Z) := words_from [] l.
Definition newlines (l : list Z) : nat := length (filter (fun c => c = 10) l).

(** The counters after a text. *)
Definition counted (s : counts) (l : list Z) : Prop :=
  wl s = i32 (Z.of_nat (newlines l)) /\ wc_ s = i32 (Z.of_nat (length l)) /\
  ww s = i32 (Z.of_nat (length (words l))) /\
  inword s = match last l with Some c => negb (blank c) | None => false end.

Lemma words_from_snoc l c : forall word,
  length (words_from word (l ++ [c])) =
  (length (words_from word l) + if blank c then 0 else if match last l with
     Some x => negb (blank x) | None => match word with [] => false | _ => true end end then 0 else 1)%nat.
Proof.
  induction l as [|x l IH]; intros word.
  { cbn [app words_from last]. by destruct (blank c), word. }
  assert (Hlast : last (x :: l) = Some (default x (last l))).
  { destruct l as [|z l]; [done|]. change (last (x :: z :: l)) with (last (z :: l)).
    destruct (proj2 (last_is_Some (z :: l))) as [q ->]; done. }
  rewrite Hlast. cbn [app words_from]. destruct (blank x) eqn:Ex.
  - destruct word as [|y word]; cbn [length]; rewrite IH; destruct (last l); cbn [default]; rewrite ?Ex; done.
  - rewrite IH. destruct (last l); cbn [default]; [done|]. rewrite Ex. by destruct word.
Qed.

Lemma i32_eq x y : x ≡32 y -> i32 x = i32 y.
Proof.
  unfold i32. intros H. assert (H' : x + 2 ^ 31 ≡32 y + 2 ^ 31) by by rewrite H.
  unfold eqm, u32 in H'. by rewrite H'.
Qed.

Lemma i32_succ n : i32 (i32 (Z.of_nat n) + 1) = i32 (Z.of_nat (n + 1)).
Proof. apply i32_eq. rewrite i32_eqm. apply eqm_eq. lia. Qed.

Lemma wc_byte_counted s l c : counted s l -> counted (wc_byte s c) (l ++ [c]).
Proof.
  intros (Hl & Hc & Hw & Hin). unfold counted, wc_byte, newlines, words in *.
  rewrite filter_app, !length_app, words_from_snoc, last_snoc. fold (blank c). rewrite Hl, Hc, Hw, Hin.
  rewrite !i32_succ.
  assert (Hnl : (length (filter (fun c => c = 10%Z) [c]) = if Z.eqb c 10 then 1 else 0)%nat).
  { rewrite filter_cons, filter_nil. destruct (decide (c = 10)), (Z.eqb_spec c 10); done. }
  rewrite Hnl. destruct (Z.eqb_spec c 10), (blank c); cbn [negb wl ww wc_ inword];
    destruct (match last l with Some x => negb (blank x) | None => false end);
    cbn [negb wl ww wc_ inword]; rewrite ?Nat.add_0_r, ?i32_succ; done.
Qed.

Lemma wc_bytes_counted d : forall s l, counted s l -> counted (foldl wc_byte s d) (l ++ d).
Proof.
  induction d as [|c d IH]; intros s l Hs; [by rewrite app_nil_r|]. cbn [foldl].
  replace (l ++ c :: d) with ((l ++ [c]) ++ d) by by rewrite <- app_assoc. by apply IH, wc_byte_counted.
Qed.

Lemma wc_loop_counts fd fuel : forall w l got s, unread w fd = Some l -> (length l < fuel)%nat -> counted s got ->
  exists s' w', run (wc_loop fd s fuel) w = (Done s', w') /\ counted s' (got ++ l) /\
    output w' = output w /\ content w' = content w.
Proof.
  induction fuel as [|f IH]; intros w l got s Hl Hf Hs; [lia|]. cbn [wc_loop]. rewrite run_call2.
  destruct (read_some w fd sizeof_buf l Hl) as (k & w1 & -> & Hk & Hn & H0 & Hu & Ho & Hc); [done|].
  destruct k as [|k].
  { exists s, w1. specialize (H0 eq_refl). subst l. by rewrite app_nil_r. }
  destruct (Z.gtb_spec (Z.of_nat (S k)) 0); [|lia]. rewrite Nat2Z.id, take_take, Nat.min_id.
  destruct (IH w1 (drop (S k) l) (got ++ take (S k) l) (foldl wc_byte s (take (S k) l)) Hu)
    as (s' & w' & R & Hs' & Ho' & Hc'); [rewrite length_drop; lia|by apply wc_bytes_counted|].
  exists s', w'. split; [exact R|]. rewrite <- app_assoc, take_drop in Hs'. by rewrite Ho', Hc'.
Qed.

(** What [wc] prints of a text. *)
Definition wc_line (name l : list Z) : list Z :=
  format (lit "%d %d %d %s" ++ [10])
    [D (i32 (Z.of_nat (newlines l))); D (i32 (Z.of_nat (length (words l)))); D (i32 (Z.of_nat (length l))); Str name].

Lemma wc_prints fd name fuel w l : unread w fd = Some l -> (length l < fuel)%nat ->
  exists w', run (wc fd name fuel) w = (Done tt, w') /\ output w' = output w ++ wc_line name l /\
    content w' = content w.
Proof.
  intros Hl Hf. unfold wc.
  destruct (wc_loop_counts fd fuel w l [] (mkCounts 0 0 0 false) Hl Hf) as (s & w1 & R & (H1 & H2 & H3 & _) & Ho & Hc);
    [done|].
  cbn [app] in H1, H2, H3. rewrite (run_done _ _ _ _ _ R). unfold printfln. rewrite H1, H2, H3. unfold wc_line.
  destruct (run_puts (wc_line name l) w1) as (w2 & R2 & Ho2 & _ & Hc2). unfold wc_line in R2, Ho2.
  exists w2. split; [exact R2|].
  by rewrite Ho2, Hc2, Ho, Hc.
Qed.

(** *** The loop over the arguments *)

(** A [main] that opens each argument and treats its descriptor. *)
Lemma each_file (store : list Z -> option (list Z)) (body : Z -> list Z -> prog unit) (bad : list Z -> prog unit)
    (out : list Z -> list Z -> list Z) names :
  (forall w fd a l, content w = store -> a ∈ names -> store a = Some l -> unread w fd = Some l ->
     exists w', run (body fd a) w = (Done tt, w') /\ output w' = output w ++ out a l /\ content w' = content w) ->
  (forall a, a ∈ names -> is_Some (store a)) ->
  forall w, content w = store ->
  exists w', run (each names (fun a =>
      fd ← call1 (Open a 0);
      if fd <? 0 then bad a else body fd a ;; call1 (Close fd) ;; mret tt)) w = (Done tt, w') /\
    output w' = output w ++ concat (map (fun a => out a (default [] (store a))) names).
Proof.
  induction names as [|a names IH]; intros Hbody Hall w Hw.
  { exists w. cbn. by rewrite app_nil_r. }
  destruct (Hall a) as [l Hl]; [by left|]. cbn [each map concat]. rewrite Hl. cbn [default].
  destruct (open_file w a l) as (fd & w1 & E1 & Hfd & Hu1 & Ho1 & Hc1); [by rewrite Hw|].
  destruct (Hbody w1 fd a l) as (w2 & R2 & Ho2 & Hc2); [congruence|by left|done|done|].
  destruct (close_file w2 fd) as (r & d & w3 & E3 & Ho3 & Hc3).
  destruct (IH ltac:(intros; eapply Hbody; eauto using list_elem_of_further)
               ltac:(intros; apply Hall; by right) w3) as (w4 & R4 & Ho4); [congruence|].
  exists w4. rewrite Ho4, Ho3, Ho2, Ho1, <- app_assoc. split; [|done].
  rewrite run_bind, run_call1, E1. destruct (Z.ltb_spec fd 0); [lia|].
  rewrite (run_done _ _ _ _ _ R2), run_call1, E3. exact R4.
Qed.

(** A bound on the turns for all the files. *)
Definition enough (w : W) (names : list (list Z)) (fuel : nat) : Prop :=
  forall a, a ∈ names -> exists l, content w a = Some l /\ (length l < fuel)%nat.

(** C27: [cat] and [wc] are right whatever pieces the system delivers the files
    in: they end, [cat] has written the files one after the other, and [wc] a
    line with the number of newlines, words and bytes of each. *)
Theorem cat_wc_main w prog names fuel (Hn : names <> []) (Hall : enough w names fuel) :
  exists wcat wwc,
    run (cat_main (prog :: names) fuel) w = (Exited, wcat) /\
    output wcat = output w ++ concat (map (fun a => default [] (content w a)) names) /\
    run (wc_main (prog :: names) fuel) w = (Exited, wwc) /\
    output wwc = output w ++ concat (map (fun a => wc_line a (default [] (content w a))) names).
Proof.
  assert (Hlen : (length (prog :: names) <=? 1)%nat = false) by by destruct names.
  assert (Hsome : forall a, a ∈ names -> is_Some (content w a))
    by (intros a Ha; destruct (Hall a Ha) as (l & -> & _); eauto).
  unfold cat_main, wc_main. rewrite Hlen. cbn [tail].
  destruct (each_file (content w) (fun fd _ => cat fd fuel) (fun a => printfln 1 "cat: cannot open %s" [Str a] ;; exit)
    (fun _ l => l) names) with (w := w) as (w1 & R1 & Ho1); [|done|done|].
  { intros w' fd a l Hw Ha Hl Hu. destruct (Hall a Ha) as (l' & Hl' & Hf). apply cat_copy; [done|congruence]. }
  destruct (each_file (content w) (fun fd a => wc fd a fuel) (fun a => printfln 1 "wc: cannot open %s" [Str a] ;; exit)
    wc_line names) with (w := w) as (w2 & R2 & Ho2); [|done|done|].
  { intros w' fd a l Hw Ha Hl Hu. destruct (Hall a Ha) as (l' & Hl' & Hf). apply wc_prints; [done|congruence]. }
  exists w1, w2. rewrite (run_done _ _ _ _ _ R1), (run_done _ _ _ _ _ R2). done.
Qed.

End files.

(** *** Processes *)

(** What [forktest] relies on: a table with [slots] free entries; [kids] are the
    children that were not waited for. *)
Class Children (W : Type) `{!System W, !Files W} := {
  slots : W -> nat;
  kids : W -> nat;
  fork_room w n : slots w = S n -> exists pid w', answer w Fork = (pid, [], w') /\ 0 < pid /\
    slots w' = n /\ kids w' = S (kids w) /\ output w' = output w;
  fork_full w : slots w = 0%nat -> exists w', answer w Fork = (-1, [], w') /\
    slots w' = slots w /\ kids w' = kids w /\ output w' = output w;
  wait_child w n : kids w = S n -> exists pid w', answer w Wait = (pid, [], w') /\ 0 < pid /\
    slots w' = S (slots w) /\ kids w' = n /\ output w' = output w;
  wait_alone w : kids w = 0%nat -> exists w', answer w Wait = (-1, [], w') /\
    slots w' = slots w /\ kids w' = kids w /\ output w' = output w;
  write_kids w data r d w' : answer w (Write 1 data) = (r, d, w') -> slots w' = slots w /\ kids w' = kids w }.

Section children.
Context {W : Type} `{!System W, !Files W, !Children W}.

Lemma run_forktest_printf (s : string) w : exists w', run (forktest_printf 1 s) w = (Done tt, w') /\
  output w' = output w ++ lit s ++ [10] /\ slots w' = slots w /\ kids w' = kids w.
Proof.
  unfold forktest_printf. rewrite run_call1. destruct (write_all w (lit s ++ [10])) as (w' & E & Ho & _).
  rewrite E. exists w'. split; [done|]. split; [done|]. by eapply write_kids.
Qed.

(** Every fork that finds room makes a child, the first that does not ends the
    loop. *)
Lemma fork_loop_fills left : forall n w, (slots w < left)%nat ->
  exists w', run (fork_loop n left) w = (Done (n + slots w)%nat, w') /\
    slots w' = 0%nat /\ kids w' = (kids w + slots w)%nat /\ output w' = output w.
Proof.
  induction left as [|left IH]; intros n w Hs; [lia|]. cbn [fork_loop]. rewrite run_call1.
  destruct (slots w) as [|m] eqn:E.
  - destruct (fork_full w E) as (w' & -> & H1 & H2 & H3). exists w'. cbn. rewrite !Nat.add_0_r. split; [done|].
    by rewrite H1, E.
  - destruct (fork_room w m E) as (pid & w1 & -> & Hp & H1 & H2 & H3).
    destruct (Z.ltb_spec pid 0), (Z.eqb_spec pid 0); try lia.
    destruct (IH (S n) w1) as (w' & R & H4 & H5 & H6); [lia|]. exists w'. rewrite R, H1. split; [f_equal; f_equal; lia|].
    split; [done|]. split; [lia|congruence].
Qed.

Lemma wait_loop_reaps n : forall w, kids w = n ->
  exists w', run (wait_loop n) w = (Done tt, w') /\ kids w' = 0%nat /\ slots w' = (slots w + n)%nat /\ output w' = output w.
Proof.
  induction n as [|n IH]; intros w Hk; cbn [wait_loop].
  - exists w. rewrite Nat.add_0_r. done.
  - rewrite run_call1. destruct (wait_child w n Hk) as (pid & w1 & -> & Hp & H1 & H2 & H3).
    destruct (Z.ltb_spec pid 0); [lia|]. destruct (IH w1 H2) as (w' & R & H4 & H5 & H6).
    exists w'. split; [exact R|]. split; [done|]. split; [lia|congruence].
Qed.

(** [forktest] passes on every system whose table has less than 1000 free
    entries: [fork] fails gracefully, and every child is waited for once. *)
Theorem forktest_passes w (Hs : (slots w < N)%nat) (Hk : kids w = 0%nat) :
  exists w', run forktest_main w = (Exited, w') /\ slots w' = slots w /\ kids w' = 0%nat /\
    output w' = output w ++ lit "fork test" ++ [10] ++ lit "fork test OK" ++ [10].
Proof.
  destruct (run_forktest_printf "fork test" w) as (w1 & R1 & O1 & S1 & K1).
  destruct (fork_loop_fills N 0 w1) as (w2 & R2 & S2 & K2 & O2); [lia|].
  destruct (wait_loop_reaps (slots w1) w2) as (w3 & R3 & K3 & S3 & O3); [lia|].
  destruct (wait_alone w3 K3) as (w4 & E4 & S4 & K4 & O4).
  destruct (run_forktest_printf "fork test OK" w4) as (w5 & R5 & O5 & S5 & K5).
  exists w5. split; [|split; [lia|]; split; [lia|]].
  - unfold forktest_main, forktest. rewrite run_bind, (run_done _ _ _ _ _ R1), (run_done _ _ _ _ _ R2).
    cbn [Nat.add]. destruct (Nat.eqb_spec (slots w1) N); [lia|].
    rewrite (run_done _ _ _ _ _ R3), run_call1, E4. cbn [Z.eqb negb Pos.eqb]. by rewrite R5.
  - rewrite O5, O4, O3, O2, O1. by rewrite <- !app_assoc.
Qed.

End children.

(** *** A small system *)

(** Files and what was opened of them; a [read] delivers at most [S piece]
    bytes. *)
Record tiny := mkTiny {
  t_files : list (list Z * list Z); t_open : list (list Z); t_out : list Z; t_piece : nat;
  t_slots : nat; t_kids : nat }.

Definition t_content (w : tiny) (name : list Z) : option (list Z) :=
  snd <$> find (fun f => bool_decide (f.1 = name)) (t_files w).
Definition t_unread (w : tiny) (fd : Z) : option (list Z) := aget (t_open w) fd.

#[export] Instance tiny_system : System tiny := fun w c =>
  let '(mkTiny files opened out piece free kids) := w in
  match c with
  | Open name _ =>
      match t_content w name with
      | Some l => (Z.of_nat (length opened), [], mkTiny files (opened ++ [l]) out piece free kids)
      | None => (-1, [], w)
      end
  | Read fd n =>
      match t_unread w fd with
      | Some l =>
          let k := Nat.min (length l) (Nat.min (Z.to_nat n) (S piece)) in
          (Z.of_nat k, take k l, mkTiny files (<[Z.to_nat fd := drop k l]> opened) out piece free kids)
      | None => (-1, [], w)
      end
  | Write fd data => (Z.of_nat (length data), [], mkTiny files opened (if fd =? 1 then out ++ data else out) piece free kids)
  | Fork =>
      match free with
      | O => (-1, [], w)
      | S n => (1, [], mkTiny files opened out piece n (S kids))
      end
  | Wait =>
      match kids with
      | O => (-1, [], w)
      | S n => (1, [], mkTiny files opened out piece (S free) n)
      end
  | _ => (0, [], w)
  end.

#[export, refine] Instance tiny_keeps_files : Files tiny := {| content := t_content; unread := t_unread; output := t_out |}.
Proof.
  - intros [files opened out piece free kids] fd n l Hl Hn. cbn in *. rewrite Hl.
    eexists _, _. split; [reflexivity|]. cbn. split; [lia|]. split; [lia|]. split; [destruct l; [done|cbn [length]; lia]|].
    split; [|done]. apply aget_Some in Hl as [Hr Hl]. unfold t_unread, aget. cbn.
    destruct (Z.leb_spec 0 fd); [|lia]. apply list_lookup_insert_eq. cbn in Hr. lia.
  - intros [files opened out piece free kids] data. by eexists.
  - intros [files opened out piece free kids] name l Hl. cbn in *. rewrite Hl. eexists _, _. split; [reflexivity|].
    split; [lia|]. split; [|done]. unfold t_unread. cbn. rewrite aget_of_nat. by rewrite lookup_app_r, Nat.sub_diag by lia.
  - intros [files opened out piece free kids] fd. by eexists _, _, _.
Defined.

#[export, refine] Instance tiny_forks : Children tiny := {| slots := t_slots; kids := t_kids |}.
Proof.
  - intros [files opened out piece free kids] n E. cbn in *. subst. by eexists _, _.
  - intros [files opened out piece free kids] E. cbn in *. subst. by eexists.
  - intros [files opened out piece free kids] n E. cbn in *. subst. by eexists _, _.
  - intros [files opened out piece free kids] E. cbn in *. subst. by eexists.
  - intros [files opened out piece free kids] data r d w' E. cbn in E. by injection E as _ _ <-.
Defined.

Definition two_files : tiny :=
  mkTiny [(lit "a", lit "one two" ++ [10]); (lit "b", lit " x")] [[]; []; []] [] 2 4 0.

Lemma cat_wc_main_witness :
  exists wcat wwc,
    run (cat_main [lit "p"; lit "a"; lit "b"] 9) two_files = (Exited, wcat) /\
    output wcat = lit "one two" ++ [10] ++ lit " x" /\
    run (wc_main [lit "p"; lit "a"; lit "b"] 9) two_files = (Exited, wwc) /\
    output wwc = lit "1 2 8 a" ++ [10] ++ lit "0 1 2 b" ++ [10].
Proof.
  destruct (cat_wc_main two_files (lit "p") [lit "a"; lit "b"] 9) as (wcat & wwc & R1 & O1 & R2 & O2); [done| |].
  - intros a Ha. rewrite !elem_of_cons in Ha. destruct Ha as [->|[->|[]%elem_of_nil]];
      (eexists; split; [reflexivity|cbn; lia]).
  - exists wcat, wwc. rewrite O1, O2. split; [done|]. split; [reflexivity|]. split; [done|]. reflexivity.
Defined.

Lemma forktest_passes_witness :
  exists w', run forktest_main two_files = (Exited, w') /\ slots w' = 4%nat /\ kids w' = 0%nat /\
    output w' = lit "fork test" ++ [10] ++ lit "fork test OK" ++ [10].
Proof.
  destruct (forktest_passes two_files) as (w' & R & S & K & O); [cbn; unfold N; lia|done|].
  exists w'. rewrite S, O. done.
Defined.

End UtilsSpec.
