(* ===== verification/PolicyTest.v ===== *)
(** policyTest.c: the program that compares the scheduling policies.

    The memory that [malloc] returns is a value here, and what an automatic
    array holds before it is written ([junk]) is an argument.  An [info] is the
    list of its five fields and a [sum] of its three, in the order of the
    structures. *)

From stdpp Require Import base numbers list strings.
From Stdlib Require Import ZArith Lia.
From S2P Require Import Prelude Printf Usys Utils.
Import Printf Usys Utils.

Module PolicyTest.

Definition PROC : nat := 10.
Definition LOOP : nat := 1000.

(** [struct info] and [struct sum] *)
Definition creation_time (i : list Z) : Z := nth 0 i 0.
Definition running_time (i : list Z) : Z := nth 1 i 0.
Definition sleep_time (i : list Z) : Z := nth 3 i 0.
Definition termination_time (i : list Z) : Z := nth 4 i 0.
Definition tat (s : list Z) : Z := nth 0 s 0.
Definition w (s : list Z) : Z := nth 1 s 0.
Definition cbt (s : list Z) : Z := nth 2 s 0.
Definition sum0 : list Z := [0; 0; 0].

(** [pid], [index] and [pids]. *)
Record family := mkFamily { f_pid : Z; f_index : nat; f_pids : list Z }.

(** [for (int i = ...) { pid = fork(); if (pid == 0) { ...; break; } else pids[i] = pid; }],
    where the child runs [child] with its index. *)
Fixpoint fork_children (child : nat -> list Z -> prog unit) (ix : list nat) (s : family) : prog family :=
  match ix with
  | [] => mret s
  | i :: r =>
      pid ← call1 Fork;
      if pid =? 0 then child i (f_pids s) ;; mret (mkFamily 0 i (f_pids s))
      else fork_children child r (mkFamily pid (f_index s) (<[i := pid]> (f_pids s)))
  end.

(** [if (pid != 0) for ...] *)
Definition next_loop (child : nat -> list Z -> prog unit) (ix : list nat) (s : family) : prog family :=
  if f_pid s =? 0 then mret s else fork_children child ix s.

(** [for (int i = 0; i < n; ++i) printf(1, "/%d/: /%d/\n", who, i + 1);] *)
Fixpoint chatter (who : prog Z) (ix : list nat) : prog unit :=
  match ix with
  | [] => mret tt
  | i :: r =>
      p ← who;
      printfln 1 "/%d/: /%d/" [D p; D (Z.of_nat (i + 1))] ;;
      chatter who r
  end.

(** The children's times: [show] prints those of one, [increment] adds them up. *)
Fixpoint account (show : Z -> list Z -> Z -> prog unit) (pids : list Z) (ix : list nat) (sum : list Z)
    : prog (list Z) :=
  match ix with
  | [] => mret sum
  | i :: r =>
      let p := nth i pids 0 in
      '(e, pinfo) ← call2 (Getinfo p);
      if e =? -1 then account show pids r sum else
      let turnAroundTime := i32 (termination_time pinfo - creation_time pinfo) in
      show p pinfo turnAroundTime ;;
      '(_, sum) ← call2 (Increment pinfo sum turnAroundTime);
      account show pids r sum
  end.

Definition silent (_ : Z) (_ : list Z) (_ : Z) : prog unit := mret tt.
Definition show_line (p : Z) (pinfo : list Z) (t : Z) : prog unit :=
  printfln 1 "%d) turn around time:%d, waiting time: %d, CBT: %d"
    [D p; D t; D (sleep_time pinfo); D (running_time pinfo)].
Definition show_parts (p : Z) (pinfo : list Z) (t : Z) : prog unit :=
  printf 1 "%d) turn around time: %d" [D p; D t] ;;
  printf 1 " waiting time: %d " [D (sleep_time pinfo)] ;;
  printfln 1 " CBT: %d" [D (running_time pinfo)].

(** "\n[title] turn around time:%d\nwaiting time: %d\nCBT: %d" *)
Definition averages (title : string) (a b c : Z) : prog unit :=
  puts 1 (format ([10] ++ lit title ++ lit "turn around time:%d" ++ [10] ++ lit "waiting time: %d" ++ [10] ++ lit "CBT: %d")
    [D a; D b; D c]).

Section tests.
(** What [pids] holds at first. *)
Variable junk : list Z.

Definition testRoundRobin : prog unit :=
  s ← fork_children (fun _ _ => mret tt) (seq 0 PROC) (mkFamily 0 0 junk);
  (if f_pid s =? 0 then chatter (call1 Getpid) (seq 0 LOOP)
   else
     times PROC (call1 Wait ;; mret tt) ;;
     sum ← account show_parts (f_pids s) (seq 0 PROC) sum0;
     puts 1 (format ([10] ++ lit "avg) turn around time:%d" ++ [10] ++ lit "waiting time: %d" ++ [10] ++ lit "CBT: %d" ++ [10])
       [D (Z.quot (tat sum) 10); D (Z.quot (w sum) 10); D (Z.quot (cbt sum) 10)])) ;;
  exit.

(** A child of [testPrioritySched]. *)
Definition with_priority (n : Z) (_ : nat) (_ : list Z) : prog unit :=
  p ← call1 Getpid;
  call1 (Setpriority p n) ;; mret tt.

Definition class_averages (title : string) (sum : list Z) : prog unit :=
  averages title (Z.quot (tat sum) 5) (Z.quot (w sum) 5) (Z.quot (cbt sum) 5).

Definition sched_children : prog family :=
  s ← fork_children (with_priority 6) (seq 0 5) (mkFamily 0 0 junk);
  s ← next_loop (with_priority 5) (seq 5 5) s;
  s ← next_loop (with_priority 4) (seq 10 5) s;
  s ← next_loop (with_priority 3) (seq 15 5) s;
  s ← next_loop (with_priority 2) (seq 20 5) s;
  next_loop (with_priority 1) (seq 25 5) s.

Definition sched_report (pids : list Z) : prog unit :=
  times 30 (call1 Wait ;; mret tt) ;;
  sum ← account show_line pids (seq 0 30) sum0;
  sum6 ← account silent pids (seq 0 5) sum0;
  sum5 ← account silent pids (seq 5 5) sum0;
  sum4 ← account silent pids (seq 10 5) sum0;
  sum3 ← account silent pids (seq 15 5) sum0;
  sum2 ← account silent pids (seq 20 5) sum0;
  sum1 ← account silent pids (seq 25 5) sum0;
  class_averages "6) " sum6 ;;
  class_averages "5) " sum5 ;;
  class_averages "4) " sum4 ;;
  class_averages "3) " sum3 ;;
  class_averages "2) " sum2 ;;
  class_averages "1) " sum1 ;;
  averages "total avg) " (Z.quot (tat sum) 30) (Z.quot (w sum) 30) (Z.quot (cbt sum) 30).

Definition testPrioritySched : prog unit :=
  s ← sched_children;
  (if f_pid s =? 0 then chatter (mret (Z.of_nat (f_index s + 1))) (seq 0 250)
   else sched_report (f_pids s)) ;;
  exit.

(** The children of [testPriorityQueue].  The last group asks for the queue of
    [pids[i]], which only the parent writes. *)
Definition in_queue (q : Z) (i : nat) (_ : list Z) : prog unit :=
  p ← call1 Getpid;
  call1 (Setqueue p q) ;;
  call1 (Setpriority p (Z.of_nat (i mod 6) + 1)) ;; mret tt.
Definition in_rr_queue (i : nat) (pids : list Z) : prog unit :=
  call1 (Setqueue (nth i pids 0) 3) ;; mret tt.

(** [w] is not divided. *)
Definition queue_averages (title : string) (n : Z) (sum : list Z) : prog unit :=
  puts 1 (format ([10] ++ lit title ++ [10] ++ lit "turn around time:%d" ++ [10] ++ lit "waiting time: %d" ++ [10] ++ lit "CBT: %d")
    [D (Z.quot (tat sum) n); D (w sum); D (Z.quot (cbt sum) n)]).

Definition queue_children : prog family :=
  s ← fork_children (fun _ _ => mret tt) (seq 0 10) (mkFamily 0 0 junk);
  s ← next_loop (in_queue 1) (seq 10 10) s;
  s ← next_loop (in_queue 2) (seq 20 10) s;
  next_loop in_rr_queue (seq 30 10) s.

Definition queue_report (pids : list Z) : prog unit :=
  times 40 (call1 Wait ;; mret tt) ;;
  sum ← account show_line pids (seq 0 40) sum0;
  sum1 ← account silent pids (seq 0 10) sum0;
  sum2 ← account silent pids (seq 10 10) sum0;
  sum3 ← account silent pids (seq 20 10) sum0;
  sum4 ← account silent pids (seq 30 10) sum0;
  queue_averages "================DEFAULT_SCHEDULING================" 10 sum1 ;;
  queue_averages "================PRIORITY_BASED================" 10 sum2 ;;
  queue_averages "================PRIORITY_BASED_REVERSE================" 10 sum3 ;;
  queue_averages "================RR================" 10 sum4 ;;
  queue_averages "================total avg================" 40 sum.

Definition testPriorityQueue : prog unit :=
  s ← queue_children;
  (if f_pid s =? 0 then chatter (mret 1) (seq 0 200)
   else queue_report (f_pids s)) ;;
  exit.

Definition main (argv : list (list Z)) : prog unit :=
  let policy := match argv with _ :: a :: _ => atoi a | _ => 1 end in
  r ← call1 (Changepolicy policy);
  (if r =? -1 then mret tt
   else if policy =? 1 then testRoundRobin
   else if policy =? 2 then testPrioritySched
   else if policy =? 3 then testPriorityQueue
   else mret tt) ;;
  exit.

End tests.

(** *** The queue that nobody joins *)

(** Every call a program can make satisfies [P], every result [Q]. *)
Fixpoint all {A} (P : call -> Prop) (Q : A -> Prop) (p : prog A) : Prop :=
  match p with
  | Ret a => Q a
  | Exit | Fuel => True
  | Call c k => P c /\ forall r d, all P Q (k r d)
  end.

Lemma all_bind {A B} P (R : A -> Prop) (Q : B -> Prop) p (f : A -> prog B) :
  all P R p -> (forall a, R a -> all P Q (f a)) -> all P Q (p ≫= f).
Proof. induction p as [a| | |c k IH]; cbn; auto. intros [HP Hk] Hf. split; [done|]. intros r d. by apply IH. Qed.

Lemma all_call {A B} P (Q : B -> Prop) c (g : Z -> list Z -> A) (f : A -> prog B) :
  P c -> (forall a, all P Q (f a)) -> all P Q (Call c (fun r d => Ret (g r d)) ≫= f).
Proof. intros HP Hf. split; [done|]. intros r d. apply Hf. Qed.

Section junk.
Variable junk : list Z.

(** Only uninitialised elements of [pids] go to queue 3. *)
Definition only_junk (c : call) : Prop :=
  match c with Setqueue pid 3 => exists i, (30 <= i < 40)%nat /\ pid = nth i junk 0 | _ => True end.
Definition unset (hi : nat) (s : family) : Prop := forall j, (hi <= j)%nat -> nth j (f_pids s) 0 = nth j junk 0.

Lemma all_puts_end fd l : all only_junk (fun _ : unit => True) (puts fd l).
Proof. induction l as [|c l IH]; [done|]. cbn [puts]. by split. Qed.

Lemma fork_children_unset child n : forall lo s, unset lo s ->
  (forall i pids, (lo <= i < lo + n)%nat -> nth i pids 0 = nth i junk 0 -> all only_junk (fun _ : unit => True) (child i pids)) ->
  all only_junk (unset (lo + n)) (fork_children child (seq lo n) s).
Proof.
  induction n as [|n IH]; intros lo s Hs Hchild; cbn [seq fork_children].
  { by rewrite Nat.add_0_r. }
  apply all_call; [done|]. intros pid. destruct (pid =? 0).
  - eapply all_bind; [apply Hchild; [lia|by apply Hs]|]. intros _ _ j Hj. apply Hs. lia.
  - replace (lo + S n)%nat with (S lo + n)%nat by lia. apply IH; [|intros; apply Hchild; [lia|done]].
    intros j Hj. cbn. rewrite <- (Hs j) by lia. rewrite !nth_lookup, list_lookup_insert_ne by lia. done.
Qed.

Lemma next_loop_unset child n lo s : unset lo s ->
  (forall i pids, (lo <= i < lo + n)%nat -> nth i pids 0 = nth i junk 0 -> all only_junk (fun _ : unit => True) (child i pids)) ->
  all only_junk (unset (lo + n)) (next_loop child (seq lo n) s).
Proof.
  intros Hs Hchild. unfold next_loop. destruct (f_pid s =? 0); [|by apply fork_children_unset].
  intros j Hj. apply Hs. lia.
Qed.

Lemma in_queue_others q i pids : q = 1 \/ q = 2 -> all only_junk (fun _ : unit => True) (in_queue q i pids).
Proof. intros [-> | ->]; unfold in_queue; repeat (apply all_call; [done|]; intros ?); done. Qed.

Lemma queue_children_junk : all only_junk (unset 40) (queue_children junk).
Proof.
  unfold queue_children.
  eapply all_bind; [apply (fork_children_unset _ 10 0); [by intros j _|done]|]. intros s1 H1.
  eapply all_bind; [apply (next_loop_unset _ 10 10); [done|intros; apply in_queue_others; by left]|]. intros s2 H2.
  eapply all_bind; [apply (next_loop_unset _ 10 20); [done|intros; apply in_queue_others; by right]|]. intros s3 H3.
  apply (next_loop_unset _ 10 30); [done|]. intros i pids Hi E. unfold in_rr_queue. rewrite E.
  apply all_call; [|done]. by exists i.
Qed.

Lemma all_wait n : all only_junk (fun _ : unit => True) (times n (call1 Wait ;; mret tt)).
Proof. induction n as [|n IH]; [done|]. cbn [times]. split; [done|]. intros r d. exact IH. Qed.

Lemma all_chatter p ix : all only_junk (fun _ : unit => True) (chatter (mret p) ix).
Proof.
  induction ix as [|i ix IH]; [done|]. cbn [chatter]. eapply (all_bind _ (fun _ => True)); [exact I|]. intros q _.
  eapply all_bind; [apply all_puts_end|]. by intros _ _.
Qed.

Lemma all_account show pids ix : (forall p i t, all only_junk (fun _ : unit => True) (show p i t)) ->
  forall sum, all only_junk (fun _ => True) (account show pids ix sum).
Proof.
  intros Hshow. induction ix as [|i ix IH]; intros sum; [done|]. cbn [account].
  apply all_call; [done|]. intros [e pinfo]. destruct (e =? -1); [apply IH|].
  eapply all_bind; [apply Hshow|]. intros _ _. apply all_call; [done|]. intros [_ sum']. apply IH.
Qed.

Lemma queue_report_junk pids : all only_junk (fun _ : unit => True) (queue_report pids).
Proof.
  unfold queue_report, queue_averages. eapply all_bind; [apply all_wait|]. intros _ _.
  eapply all_bind; [apply all_account; intros; apply all_puts_end|]. intros sum _.
  do 4 (eapply all_bind; [apply all_account; intros; exact I|]; intros ? _).
  do 4 (eapply all_bind; [apply all_puts_end|]; intros _ _). apply all_puts_end.
Qed.

(** The fourth group of [testPriorityQueue] is meant to run in the round robin
    queue, but a child asks for the queue of [pids[i]], which only its parent
    writes: the only processes the test can put into queue 3 are those whose
    number happens to be in the memory of the array. *)
Theorem rr_group_moves_junk : all only_junk (fun _ : unit => True) (testPriorityQueue junk).
Proof.
  unfold testPriorityQueue. eapply all_bind; [apply queue_children_junk|]. intros s _.
  eapply (all_bind _ (fun _ => True)); [|done].
  destruct (f_pid s =? 0); [apply all_chatter|apply queue_report_junk].
Qed.

End junk.

End PolicyTest.
