(* ===== verification/Proc.v ===== *)
(** Processes (proc.h, proc.c): the process table, the scheduling queues and
    the operations that change them.

    A [struct proc *] into [ptable.proc] is an index; the null pointer is
    [None].  The history of system calls, a singly linked list of pages from
    [kalloc], is the list of its nodes.  The scheduler itself is in Sched.v. *)

From stdpp Require Import base numbers list sets strings.
From Stdlib Require Import ZArith Lia.
From S2P Require Import Prelude Mem CString Mmu Seg Kalloc Param.
Import CString Mmu Seg Kalloc Param.

Module Proc.

Inductive procstate := UNUSED | EMBRYO | SLEEPING | RUNNABLE | RUNNING | ZOMBIE.

#[export] Instance procstate_eq_dec : EqDecision procstate.
Proof. solve_decision. Defined.

(** [struct syscallcounter]; [sc_page] is the node's address. *)
Record syscallcounter := mkCounter { sc_page : Z; sc_num : Z; sc_count : Z }.
#[export] Instance eta_counter : Eta syscallcounter :=
  fun c => mkCounter c.(sc_page) c.(sc_num) c.(sc_count).

Record info := mkInfo {
  i_creation_time : Z; i_running_time : Z; i_ready_time : Z;
  i_sleep_time : Z; i_termination_time : Z }.

Record proc := mkProc {
  sz : Z;
  pgdir : Z;
  kstack : Z;
  state : procstate;
  pid : Z;
  parent : option nat;
  tf : Z;
  context : Z;
  chan : Z;
  killed : Z;
  ofile : list Z;
  cwd : Z;
  name : list Z;
  syscallhistory : list syscallcounter;
  priority : Z;
  queueNumber : Z;
  scheduled_times : Z;
  creation_time : Z;
  running_time : Z;
  ready_time : Z;
  sleep_time : Z;
  termination_time : Z;
  last_time : Z }.

#[export] Instance eta_proc : Eta proc := fun p =>
  mkProc p.(sz) p.(pgdir) p.(kstack) p.(state) p.(pid) p.(parent) p.(tf)
    p.(context) p.(chan) p.(killed) p.(ofile) p.(cwd) p.(name)
    p.(syscallhistory) p.(priority) p.(queueNumber) p.(scheduled_times)
    p.(creation_time) p.(running_time) p.(ready_time) p.(sleep_time)
    p.(termination_time) p.(last_time).

(** [struct queue]; its lock is [Lqueue]. *)
Record queue := mkQueue { front : Z; rear : Z; size : Z; array : list (option nat) }.
#[export] Instance eta_queue : Eta queue :=
  fun q => mkQueue q.(front) q.(rear) q.(size) q.(array).

(** The kernel variables of proc.c, with the memory the allocator manages and
    the running CPU: its number, its process, and what [switchuvm] loads. *)
Record pstate := mkPstate {
  procs : list proc;              (* ptable.proc *)
  schedulingQueues : list queue;
  lastQueue : list Z;
  policy : Z;
  initproc : option nat;
  nextpid : Z;
  ticks : Z;
  infos : list info;
  pkmem : kmem;
  kpgdir : Z;
  cpu : Z;                        (* cpuid() *)
  curproc : option nat;           (* mycpu()->proc *)
  gdt : list segdesc;             (* mycpu()->gdt *)
  ts : taskstate;                 (* mycpu()->ts *)
  tr : Z;                         (* the registers ltr and lcr3 load *)
  cr3 : Z }.

#[export] Instance eta_pstate : Eta pstate := fun s =>
  mkPstate s.(procs) s.(schedulingQueues) s.(lastQueue) s.(policy) s.(initproc)
    s.(nextpid) s.(ticks) s.(infos) s.(pkmem) s.(kpgdir) s.(cpu) s.(curproc)
    s.(gdt) s.(ts) s.(tr) s.(cr3).

(** *** Access to the table and the queues *)

Definition get_proc (i : nat) : K pstate proc :=
  ps ← gets procs; deref "ptable" (ps !! i).
Definition upd_proc (i : nat) (f : proc -> proc) : K pstate unit :=
  p ← get_proc i; modify (fun s => s <| procs ::= fun ps => <[i := f p]> ps |>).

Definition get_queue (q : Z) : K pstate queue :=
  qs ← gets schedulingQueues; deref "schedulingQueues" (aget qs q).
Definition put_queue (q : Z) (x : queue) : K pstate unit :=
  qs ← gets schedulingQueues;
  qs' ← deref "schedulingQueues" (aset qs q x);
  modify (fun s => s <| schedulingQueues := qs' |>).

(** The process [myproc()] points to. *)
Definition myproc : K pstate nat :=
  c ← gets curproc; deref "myproc" c.

(** Index of the first process that satisfies [b], as the [for] loops over
    [ptable.proc] find it. *)
Fixpoint first_proc (b : proc -> bool) (ps : list proc) (i : nat) : option nat :=
  match ps with
  | [] => None
  | p :: r => if b p then Some i else first_proc b r (S i)
  end.

(** [rear = (rear + 1) % NPROC; array[rear] = p; size++], under the queue's
    lock. *)
Definition enqueue (q : Z) (i : nat) : K pstate unit :=
  acquire (Lqueue q) ;;
  (x ← get_queue q;
   let r := Z.rem (i32 (rear x + 1)) NPROC in
   a ← deref "queue.array" (aset (array x) r (Some i));
   put_queue q (x <| rear := r |> <| array := a |> <| size ::= fun n => i32 (n + 1) |>)) ;;
  release (Lqueue q).

Section proc.
(** [end], and the entry points of trapasm.S and [forkret]. *)
Variables (kend trapret forkret : Z).

Definition sizeof_trapframe : Z := 76.
Definition sizeof_context : Z := 20.
Definition context_eip : Z := 16.

(** Second half of [allocproc]: the kernel stack [ks] from [kalloc], with
    room for the trap frame and a context that starts at [forkret]. *)
Definition setup_kstack (i : nat) (ks : Z) : K pstate (option nat) :=
  upd_proc i (fun p => p <| kstack := ks |>) ;;
  if ks =? 0 then
    upd_proc i (fun p => p <| state := UNUSED |>) ;; mret None
  else
    let sp := ks + KSTACKSIZE - sizeof_trapframe in
    upd_proc i (fun p => p <| tf := sp |>) ;;
    let sp := sp - 4 in
    modify (fun s => s <| pkmem ::= fun k =>
      k <| kmemory ::= fun m => store32 m sp trapret |> |>) ;;
    let sp := sp - sizeof_context in
    upd_proc i (fun p => p <| context := sp |>) ;;
    modify (fun s => s <| pkmem ::= fun k =>
      k <| kmemory ::= fun m => memset m sp 0 sizeof_context |> |>) ;;
    modify (fun s => s <| pkmem ::= fun k =>
      k <| kmemory ::= fun m => store32 m (sp + context_eip) forkret |> |>) ;;
    upd_proc i (fun p => p <| ready_time := 0 |> <| running_time := 0 |>
      <| sleep_time := 0 |>) ;;
    t ← gets ticks;
    upd_proc i (fun p => p <| creation_time := i32 t |> <| last_time := i32 t |>) ;;
    mret (Some i).

Definition allocproc : K pstate (option nat) :=
  acquire Lptable ;;
  (ps ← gets procs;
   match first_proc (fun p => bool_decide (state p = UNUSED)) ps 0 with
   | None => release Lptable ;; mret None
   | Some i =>
       upd_proc i (fun p => p <| state := EMBRYO |> <| priority := 3 |>
         <| scheduled_times := 0 |> <| queueNumber := QUEUE_DEFAULT |>) ;;
       enqueue 0 i ;;
       (n ← gets nextpid;
        modify (fun s => s <| nextpid := i32 (n + 1) |>) ;;
        upd_proc i (fun p => p <| pid := n |>)) ;;
       upd_proc i (fun p => p <| syscallhistory := [] |>) ;;
       release Lptable ;;
       (ks ← zoom pkmem kalloc; setup_kstack i ks)
   end).

(** First part of [userinit]: the four scheduling queues. *)
Definition empty_queue : queue :=
  mkQueue 0 (NPROC - 1) 0 (replicate (Z.to_nat NPROC) None).
Definition init_queues : K pstate unit :=
  modify (fun s => s <| schedulingQueues := replicate 4 empty_queue |>).

(** *** Sleep, wakeup and kill *)

(** Body of the loop of [wakeup1] on one process. *)
Definition wake_one (c t : Z) (p : proc) : proc :=
  if bool_decide (state p = SLEEPING) && (chan p =? c) then
    p <| sleep_time := i32 (sleep_time p + (t - last_time p)) |>
      <| state := RUNNABLE |> <| last_time := i32 t |>
  else p.

Definition wakeup1 (c : Z) : K pstate unit :=
  t ← gets ticks; modify (fun s => s <| procs ::= map (wake_one c t) |>).

Definition wakeup_steps (c : Z) : list (K pstate unit) :=
  [acquire Lptable; wakeup1 c; release Lptable].
Definition wakeup (c : Z) : K pstate unit := kseq (wakeup_steps c).

(** [while (p->syscallhistory != 0)]: unlinks and frees each node. *)
Fixpoint free_history (i : nat) (h : list syscallcounter) : K pstate unit :=
  match h with
  | [] => mret tt
  | c :: r =>
      upd_proc i (fun p => p <| syscallhistory := r |>) ;;
      zoom pkmem (kfree kend (sc_page c)) ;;
      free_history i r
  end.

(** The assignments of [kill] to the process it finds. *)
Definition kill_one (t : Z) (p : proc) : proc :=
  let p := p <| killed := 1 |> in
  let p :=
    if bool_decide (state p = SLEEPING) then
      p <| state := RUNNABLE |>
        <| sleep_time := i32 (sleep_time p + (t - last_time p)) |>
    else p in
  p <| last_time := i32 t |>.

Definition kill (n : Z) : K pstate Z :=
  acquire Lptable ;;
  ps ← gets procs;
  match first_proc (fun p => pid p =? n) ps 0 with
  | Some i =>
      t ← gets ticks;
      upd_proc i (kill_one t) ;;
      p ← get_proc i;
      free_history i (syscallhistory p) ;;
      release Lptable ;; mret 0
  | None => release Lptable ;; mret (-1)
  end.

(** *** Giving up the CPU

    [swtch] saves this context and resumes the scheduler; the call returns
    when the scheduler picks the process again.  What the rest of the system
    does in between is a parameter. *)
Section swtch.
Variable swtch : K pstate unit.

(** [sched] up to the switch. *)
Definition sched_checks : K pstate unit :=
  i ← myproc;
  p ← get_proc i;
  c ← gets cpu;
  lq ← gets lastQueue;
  lq' ← deref "lastQueue" (aset lq c (queueNumber p));
  modify (fun s => s <| lastQueue := lq' |>) ;;
  (h ← holding Lptable;
   if negb h then panic "sched ptable.lock" else
   fun l s =>
     if negb (length l =? 1)%nat then Panic "sched locks"      (* ncli != 1 *)
     else if bool_decide (state p = RUNNING) then Panic "sched running"
     else Ok tt l s).

Definition sched : K pstate unit := sched_checks ;; swtch.

(** What is left of [yield] when the process runs again. *)
Definition yield_resume : K pstate unit :=
  (i ← myproc; t ← gets ticks; upd_proc i (fun p => p <| last_time := i32 t |>)) ;;
  release Lptable.

Definition yield : K pstate unit :=
  acquire Lptable ;;
  (i ← myproc; t ← gets ticks;
   upd_proc i (fun p => p <| running_time := i32 (running_time p + (t - last_time p)) |>)) ;;
  (i ← myproc; upd_proc i (fun p => p <| state := RUNNABLE |>)) ;;
  sched ;;
  yield_resume.

(** [sleep] up to the switch, step by step, and what is left of it after.
    [sched] is the checks and the switch. *)
Definition sleep_steps (c : Z) (lk : lockid) (i : nat) : list (K pstate unit) :=
  (if decide (lk <> Lptable) then [acquire Lptable; release lk] else []) ++
  [ upd_proc i (fun p => p <| chan := c |>);
    (t ← gets ticks;
     upd_proc i (fun p =>
       match state p with
       | RUNNING => p <| running_time := i32 (running_time p + (t - last_time p)) |>
       | RUNNABLE => p <| ready_time := i32 (ready_time p + (t - last_time p)) |>
       | _ => p
       end));
    (t ← gets ticks; upd_proc i (fun p => p <| last_time := i32 t |>));
    upd_proc i (fun p => p <| state := SLEEPING |>);
    sched_checks ].

Definition sleep_pre (c : Z) (lk : lockid) : K pstate nat :=
  me ← gets curproc;
  match me with
  | None => panic "sleep"
  | Some i => kseq (sleep_steps c lk i) ;; mret i
  end.

Definition sleep_post (i : nat) (lk : lockid) : K pstate unit :=
  upd_proc i (fun p => p <| chan := 0 |>) ;;
  (if decide (lk <> Lptable) then release Lptable ;; acquire lk else mret tt).

Definition sleep (c : Z) (lk : lockid) : K pstate unit :=
  i ← sleep_pre c lk; swtch ;; sleep_post i lk.
End swtch.

(** [sleep] called by code whose state contains the process table as [g]: the
    other processes may change all of it while this one sleeps. *)
Definition sleep_in {S} (g : S -> pstate) `{!Setter g} (swtch : K S unit) (c : Z) (lk : lockid)
    : K S unit :=
  i ← zoom g (sleep_pre c lk); swtch ;; zoom g (sleep_post i lk).

End proc.

#[global] Arguments wakeup : simpl never.

(** *** Queries and settings *)

Definition setPriority (n prio : Z) : K pstate Z :=
  acquire Lptable ;;
  (ps ← gets procs;
   match first_proc (fun p => pid p =? n) ps 0 with
   | Some i =>
       upd_proc i (fun p => if priority p =? prio then p else p <| scheduled_times := 0 |>) ;;
       upd_proc i (fun p => p <| priority := prio |>) ;;
       (p ← get_proc i;
        if negb (queueNumber p =? QUEUE_DEFAULT) || negb (queueNumber p =? QUEUE_PRIORITY_RR)
        then
          acquire (Lqueue QUEUE_PRIORITY) ;;
          (x ← get_queue QUEUE_PRIORITY;
           put_queue QUEUE_PRIORITY (x <| size ::= fun k => i32 (k + 1) |>)) ;;
          release (Lqueue QUEUE_PRIORITY)
        else mret tt) ;;
       release Lptable ;; mret n
   | None => release Lptable ;; mret (-1)
   end).

Definition changepolicy (p : Z) : K pstate Z :=
  if (p <? 0) || (p >? 3) then mret (-1)
  else modify (fun s => s <| policy := p |>) ;; mret p.

(** Returns the five fields copied to the caller's [struct info]. *)
Definition getinfo (n : Z) : K pstate (Z * info) :=
  l ← gets infos; p ← deref "infos" (aget l n); mret (0, p).

(** The loop of [setqueue]: every process with the pid, not only the first. *)
Fixpoint setqueue_loop (n q : Z) (idx : list nat) (result : Z) : K pstate Z :=
  match idx with
  | [] => mret result
  | i :: r =>
      p ← get_proc i;
      if pid p =? n then
        upd_proc i (fun p => p <| queueNumber := q |>) ;;
        enqueue q i ;;
        setqueue_loop n q r n
      else setqueue_loop n q r result
  end.

Definition setqueue (n q : Z) : K pstate Z :=
  acquire Lptable ;;
  (ps ← gets procs;
   r ← setqueue_loop n q (seq 0 (length ps)) (-1);
   release Lptable ;; mret r).

(** *** Running the operations *)

Lemma get_proc_ok i L s p : procs s !! i = Some p -> get_proc i L s = Ok p L s.
Proof. intros H. unfold get_proc. kstep. by rewrite H. Qed.

Lemma upd_proc_ok i f L s p :
  procs s !! i = Some p ->
  upd_proc i f L s = Ok tt L (s <| procs ::= fun ps => <[i := f p]> ps |>).
Proof. intros H. unfold upd_proc. by erewrite bind_Ok by by apply get_proc_ok. Qed.

Lemma get_proc_fault i L s :
  procs s !! i = None -> get_proc i L s = Fault "ptable".
Proof. intros H. unfold get_proc. kstep. by rewrite H. Qed.

Lemma get_queue_ok q L s x :
  aget (schedulingQueues s) q = Some x -> get_queue q L s = Ok x L s.
Proof. intros H. unfold get_queue. kstep. by rewrite H. Qed.

Lemma put_queue_ok q x L s :
  0 <= q < Z.of_nat (length (schedulingQueues s)) ->
  put_queue q x L s =
    Ok tt L (s <| schedulingQueues ::= fun qs => <[Z.to_nat q := x]> qs |>).
Proof. intros H. unfold put_queue. kstep. by rewrite aset_in. Qed.

Lemma myproc_ok L s i : curproc s = Some i -> myproc L s = Ok i L s.
Proof. intros H. unfold myproc. kstep. by rewrite H. Qed.

Lemma first_proc_offset b ps k i :
  first_proc b ps k = Some i <->
  exists j, i = (k + j)%nat /\ first_proc b ps 0 = Some j.
Proof.
  revert k i. induction ps as [|p ps IH]; intros k i; simpl.
  { split; [done|]. by intros (j & _ & ?). }
  destruct (b p).
  - split; [intros [= <-]; exists O; split; [lia|done]|].
    intros (j & -> & [= <-]). f_equal. lia.
  - rewrite (IH (S k)). setoid_rewrite (IH 1%nat). split.
    + intros (j & -> & H). exists (S j). split; [lia|]. exists j. auto.
    + intros (j & -> & j' & -> & H). exists j'. split; [lia|done].
Qed.

Lemma first_proc_Some b ps i :
  first_proc b ps 0 = Some i <->
  exists p, ps !! i = Some p /\ b p = true /\
    forall j q, (j < i)%nat -> ps !! j = Some q -> b q = false.
Proof.
  revert i. induction ps as [|p ps IH]; intros i; simpl.
  { split; [done|]. intros (p & H & _). done. }
  destruct (b p) eqn:E.
  - split.
    + intros [= <-]. exists p. split_and!; [done|done|]. intros; lia.
    + intros (q & Hq & Hb & Hmin). destruct i as [|i]; [done|].
      specialize (Hmin O p ltac:(lia) eq_refl). congruence.
  - rewrite first_proc_offset. split.
    + intros (j & -> & (q & Hq & Hb & Hmin)%IH). exists q. split_and!; [done|done|].
      intros [|j'] q' Hj Hl; [simpl in Hl; congruence|]. apply (Hmin j'); [lia|done].
    + intros (q & Hq & Hb & Hmin). destruct i as [|i]; [simpl in Hq; congruence|].
      exists i. split; [done|]. apply IH. exists q. split_and!; [done|done|].
      intros j q' Hj Hl. apply (Hmin (S j)); [lia|done].
Qed.

Lemma first_proc_None b ps :
  first_proc b ps 0 = None <-> Forall (fun p => b p = false) ps.
Proof.
  induction ps as [|p ps IH]; simpl; [done|]. rewrite Forall_cons.
  destruct (b p) eqn:E; [split; [done|by intros [? _]]|].
  rewrite <- IH. destruct (first_proc b ps 1) as [i|] eqn:E1.
  - apply first_proc_offset in E1 as (j & _ & ->). split; [done|by intros [_ ?]].
  - split; [|done]. intros _. split; [done|].
    destruct (first_proc b ps 0) as [j|] eqn:E0; [|done].
    assert (first_proc b ps 1 = Some (S j)) by (apply first_proc_offset; by exists j).
    congruence.
Qed.

(** Symbolic execution over the process table. *)
#[export] Hint Resolve get_proc_ok upd_proc_ok get_queue_ok put_queue_ok myproc_ok : xv6.
#[export] Hint Extern 1 (_ !! _ = Some _) =>
  (cbn; first [ eassumption | apply list_lookup_insert_eq; rewrite ?length_insert; lia ]) : xv6.

(** *** Wakeup *)

Definition asleep_on (c : Z) (p : proc) : Prop := state p = SLEEPING /\ chan p = c.

#[export] Instance asleep_on_dec c p : Decision (asleep_on c p).
Proof. unfold asleep_on. apply _. Defined.

Lemma wake_one_asleep c t p :
  asleep_on c p ->
  wake_one c t p = p <| sleep_time := i32 (sleep_time p + (t - last_time p)) |>
    <| state := RUNNABLE |> <| last_time := i32 t |>.
Proof.
  intros [H1 H2]. unfold wake_one. rewrite bool_decide_eq_true_2 by done.
  by rewrite (proj2 (Z.eqb_eq _ _) H2).
Qed.

Lemma wake_one_other c t p : ~ asleep_on c p -> wake_one c t p = p.
Proof.
  intros H. unfold wake_one. destruct (bool_decide _) eqn:E; [|done].
  apply bool_decide_eq_true in E. destruct (Z.eqb_spec (chan p) c); [|done].
  by destruct H.
Qed.

Lemma wakeup_ok c L s :
  Lptable ∉ L ->
  wakeup c L s = Ok tt L (s <| procs ::= map (wake_one c (ticks s)) |>).
Proof. intros HL. unfold wakeup, wakeup_steps. cbn [kseq]. kstep. kstep. by rewrite release_top. Qed.

(** [wakeup(chan)] makes runnable exactly the processes that sleep on
    [chan], charging each for the ticks it slept; it leaves every other
    process alone, and afterwards nobody sleeps on [chan]. *)
Theorem wakeup_wakes_all c L s (HL : Lptable ∉ L) :
  exists s', wakeup c L s = Ok tt L s' /\
    length (procs s') = length (procs s) /\
    forall i p, procs s !! i = Some p -> exists p', procs s' !! i = Some p' /\
      ~ asleep_on c p' /\
      (~ asleep_on c p -> p' = p) /\
      (asleep_on c p -> state p' = RUNNABLE /\ last_time p' = i32 (ticks s) /\
        sleep_time p' = i32 (sleep_time p + (ticks s - last_time p)) /\
        pid p' = pid p /\ killed p' = killed p).
Proof.
  rewrite wakeup_ok by done. eexists. split; [done|].
  simpl. split; [apply length_map|]. intros i p Hp. exists (wake_one c (ticks s) p).
  split; [by rewrite list_lookup_fmap, Hp|].
  destruct (decide (asleep_on c p)) as [Ha|Ha].
  - rewrite wake_one_asleep by done. split_and!; [by intros [? _]|done|]. done.
  - rewrite wake_one_other by done. done.
Qed.


(** *** The scheduling queues as FIFO lists *)

(** The ring [q] holds the processes [l], oldest first. *)
Record ring_rep (q : queue) (l : list nat) : Prop := {
  rr_array : length (array q) = Z.to_nat NPROC;
  rr_front : 0 <= front q < NPROC;
  rr_size : size q = Z.of_nat (length l);
  rr_bound : Z.of_nat (length l) <= NPROC;
  rr_rear : rear q = (front q + size q - 1) mod NPROC;
  rr_elems : forall k x, l !! k = Some x ->
    array q !! Z.to_nat ((front q + Z.of_nat k) mod NPROC) = Some (Some x)
}.

Lemma ring_slot_inj f j k :
  0 <= j < NPROC -> 0 <= k < NPROC -> (f + j) mod NPROC = (f + k) mod NPROC -> j = k.
Proof. unfold NPROC. intros. dlia. Qed.

Lemma empty_queue_rep : ring_rep empty_queue [].
Proof. split; simpl; try (unfold NPROC; lia); try done. Qed.

(** Appending to a ring that is not full. *)
Lemma ring_rep_enq q l i :
  ring_rep q l -> Z.of_nat (length l) < NPROC ->
  exists a, aset (array q) (Z.rem (i32 (rear q + 1)) NPROC) (Some i) = Some a /\
    ring_rep (q <| rear := Z.rem (i32 (rear q + 1)) NPROC |> <| array := a |>
                <| size ::= fun n => i32 (n + 1) |>) (l ++ [i]).
Proof.
  intros [Ha Hf Hs Hb Hr He] Hl.
  assert (Hslot : Z.rem (i32 (rear q + 1)) NPROC = (front q + size q) mod NPROC).
  { rewrite Hr, i32_small; unfold NPROC in *; dlia. }
  rewrite Hslot. set (r := (front q + size q) mod NPROC).
  assert (0 <= r < NPROC) by (unfold r, NPROC; dlia).
  rewrite aset_in by (rewrite Ha; unfold NPROC in *; lia). eexists. split; [done|].
  split; simpl.
  - by rewrite length_insert.
  - done.
  - rewrite length_app, Hs. simpl. rewrite i32_small; unfold NPROC in *; lia.
  - rewrite length_app. simpl. lia.
  - rewrite i32_small by (unfold NPROC in *; lia). unfold r. f_equal. lia.
  - intros k x [Hk|[Hk1 Hk2]]%lookup_app_Some.
    + pose proof (lookup_lt_Some _ _ _ Hk) as Hlt.
      rewrite list_lookup_insert_ne; [by apply He|]. intros Heq.
      assert (r = (front q + Z.of_nat k) mod NPROC) as Hr'.
      { apply Z2Nat.inj; [lia| |done]. unfold NPROC. dlia. }
      unfold r in Hr'. rewrite Hs in Hr'.
      apply ring_slot_inj in Hr'; [|unfold NPROC in *; lia..]. lia.
    + apply list_lookup_singleton_Some in Hk2 as [Hk2 ->].
      replace k with (length l) by lia. rewrite <- Hs. fold r.
      apply list_lookup_insert_eq. rewrite Ha. unfold NPROC in *. lia.
Qed.

(** Removing the oldest entry. *)
Lemma ring_rep_deq q x l :
  ring_rep q (x :: l) ->
  aget (array q) (front q) = Some (Some x) /\
  ring_rep (q <| front := Z.rem (i32 (front q + 1)) NPROC |>
              <| size ::= fun n => i32 (n - 1) |>) l.
Proof.
  intros [Ha Hf Hs Hb Hr He]. simpl in Hs, Hb. split.
  { unfold aget. destruct (Z.leb_spec 0 (front q)); [|lia].
    rewrite <- (He O x eq_refl). do 2 f_equal. rewrite Z.add_0_r, Z.mod_small; lia. }
  assert (Hfr : Z.rem (i32 (front q + 1)) NPROC = (front q + 1) mod NPROC).
  { rewrite i32_small; unfold NPROC in *; dlia. }
  split; simpl; rewrite ?Hfr.
  - done.
  - unfold NPROC. dlia.
  - rewrite Hs, i32_small; unfold NPROC in *; lia.
  - lia.
  - rewrite Hr, i32_small by (unfold NPROC in *; lia).
    transitivity ((front q + 1 + (size q - 2)) mod NPROC); [f_equal; lia|].
    rewrite <- Zplus_mod_idemp_l. f_equal. lia.
  - intros k y Hk. rewrite <- (He (S k) y Hk). do 2 f_equal.
    rewrite Zplus_mod_idemp_l. f_equal. lia.
Qed.

Lemma enqueue_ok q i L s x l :
  aget (schedulingQueues s) q = Some x -> ring_rep x l ->
  Z.of_nat (length l) < NPROC -> Lqueue q ∉ L ->
  exists x', enqueue q i L s =
      Ok tt L (s <| schedulingQueues ::= fun qs => <[Z.to_nat q := x']> qs |>) /\
    ring_rep x' (l ++ [i]).
Proof.
  intros Hq Hr Hl HL. destruct (ring_rep_enq x l i Hr Hl) as (a & Ha & Hr').
  eexists. split; [|exact Hr']. unfold enqueue. kstep.
  erewrite bind_Ok; [by apply release_top|].
  kstep. cbv zeta. rewrite Ha. kstep.
  apply put_queue_ok. apply aget_Some in Hq. lia.
Qed.


(** *** Process creation *)

(** Ticks charged to a process add up to its age when it was last looked at. *)
Definition accounted (p : proc) : Prop :=
  running_time p + ready_time p + sleep_time p ≡32 last_time p - creation_time p.

(** Charging the ticks since [last_time] to one of the three counters. *)
Lemma accounted_charge p p' t :
  accounted p -> creation_time p' = creation_time p -> last_time p' ≡32 t ->
  running_time p' + ready_time p' + sleep_time p' ≡32
    running_time p + ready_time p + sleep_time p + (t - last_time p) ->
  accounted p'.
Proof.
  unfold accounted. intros Ha Hc Hl Ht. rewrite Ht, Ha, Hl, Hc. apply eqm_eq. lia.
Qed.

Section alloc.
Variables (kend trapret forkret : Z).

(** Slot [i] is the first unused one, and queue 0 holds [l]. *)
Record alloc_pre (i : nat) (p : proc) (q : queue) (l : list nat) (L : locks) (s : pstate)
    : Prop := {
  ap_slot : procs s !! i = Some p;
  ap_unused : state p = UNUSED;
  ap_first : forall j x, (j < i)%nat -> procs s !! j = Some x -> state x <> UNUSED;
  ap_queue : aget (schedulingQueues s) 0 = Some q;
  ap_ring : ring_rep q l;
  ap_room : Z.of_nat (length l) < NPROC;
  ap_ptable : Lptable ∉ L;
  ap_qlock : Lqueue 0 ∉ L;
  ap_kmem : Lkmem ∉ L
}.

(** The process table entry [allocproc] hands to [kalloc]. *)
Definition embryo (n : Z) (p : proc) : proc :=
  p <| state := EMBRYO |> <| priority := 3 |> <| scheduled_times := 0 |>
    <| queueNumber := QUEUE_DEFAULT |> <| pid := n |> <| syscallhistory := [] |>.

(** Everything [allocproc] does before it asks for a kernel stack. *)
Lemma allocproc_prefix i p q l L s (H : alloc_pre i p q l L s) :
  exists q' s1,
    ring_rep q' (l ++ [i]) /\
    s1 = s <| procs ::= fun ps => <[i := embryo (nextpid s) p]> ps |>
           <| schedulingQueues ::= fun qs => <[0%nat := q']> qs |>
           <| nextpid := i32 (nextpid s + 1) |> /\
    allocproc trapret forkret L s =
      (zoom pkmem kalloc ≫= setup_kstack trapret forkret i) L s1.
Proof.
  destruct H as [Hi Hu Hf Hq Hr Hl HL1 HL2 HL3].
  pose proof (lookup_lt_Some _ _ _ Hi) as Hlt.
  set (s0 := s <| procs ::= fun ps => <[i := p <| state := EMBRYO |> <| priority := 3 |>
    <| scheduled_times := 0 |> <| queueNumber := QUEUE_DEFAULT |>]> ps |>).
  destruct (enqueue_ok 0 i (Lptable :: L) s0 q l Hq Hr Hl) as (q' & He & Hr');
    [set_solver|].
  exists q'. eexists. split; [done|]. split; [reflexivity|].
  unfold allocproc. kstep. kstep.
  assert (first_proc (fun p => bool_decide (state p = UNUSED)) (procs s) 0 = Some i) as ->.
  { apply first_proc_Some. exists p. split_and!; [done|by apply bool_decide_eq_true_2|].
    intros j x Hj Hx. apply bool_decide_eq_false_2. eauto. }
  kstep. fold s0. erewrite bind_Ok by exact He.
  rewrite bind_assoc. kstep. rewrite bind_assoc. kstep.
  kstep. kstep.
  erewrite bind_Ok by by apply release_top.
  f_equal. destruct s. cbn. f_equal.
  rewrite !list_insert_insert_eq. reflexivity.
Qed.

(** The words [allocproc] leaves on a fresh kernel stack at [ks]. *)
Definition fresh_stack (m : mem) (ks : Z) : Prop :=
  let t := ks + KSTACKSIZE - sizeof_trapframe in
  let c := t - 4 - sizeof_context in
  load32 m (t - 4) = u32 trapret /\ load32 m (c + context_eip) = u32 forkret /\
  load32 m c = 0 /\ load32 m (c + 4) = 0 /\ load32 m (c + 8) = 0 /\ load32 m (c + 12) = 0.

(** The memory of the new process's stack, as [allocproc] writes it. *)
Definition stack_mem (m : mem) (ks : Z) : mem :=
  let t := ks + KSTACKSIZE - sizeof_trapframe in
  let c := t - 4 - sizeof_context in
  store32 (memset (store32 m (t - 4) trapret) c 0 sizeof_context) (c + context_eip) forkret.

Lemma stack_mem_outside m ks : same_outside ks (ks + PGSIZE) m (stack_mem m ks).
Proof.
  intros x Hx. unfold stack_mem, KSTACKSIZE, sizeof_trapframe, sizeof_context, context_eip, PGSIZE in *.
  rewrite store32_out by lia. rewrite memset_fill.
  replace (_ && _) with false; [by rewrite store32_out by lia|].
  symmetry. rewrite andb_false_iff, Z.leb_gt, Z.ltb_ge. lia.
Qed.

Lemma stack_mem_fresh m ks : fresh_stack (stack_mem m ks) ks.
Proof.
  unfold fresh_stack, stack_mem, sizeof_context, context_eip. cbv zeta.
  set (t := ks + KSTACKSIZE - sizeof_trapframe).
  split_and!; [|apply load32_store32_eq|..].
  2-5: rewrite load32_store32_ne by lia; apply memset_zero_load32; lia.
  rewrite load32_store32_ne by lia. erewrite load32_same; [apply load32_store32_eq|].
  intros x Hx. rewrite memset_fill. replace (_ && _) with false; [done|].
  symmetry. rewrite andb_false_iff, Z.leb_gt, Z.ltb_ge. lia.
Qed.

(** with a free slot, room in queue 0 and a free page, [allocproc]
    takes the first unused slot, gives it the next pid and the default
    scheduling class, puts it at the tail of queue 0, and sets up its kernel
    stack so that the first switch to it runs [forkret] and returns to
    [trapret].  No other slot and no memory outside the new stack changes. *)
Theorem allocproc_new i p q l L s v fl
    (H : alloc_pre i p q l L s) (Hk : kmem_inv kend (pkmem s) (v :: fl)) :
  exists s' p' q',
    allocproc trapret forkret L s = Ok (Some i) L s' /\
    procs s' = <[i := p']> (procs s) /\
    state p' = EMBRYO /\ pid p' = nextpid s /\ nextpid s' = i32 (nextpid s + 1) /\
    kstack p' = v /\ priority p' = 3 /\ queueNumber p' = QUEUE_DEFAULT /\
    syscallhistory p' = [] /\ accounted p' /\ ofile p' = ofile p /\ name p' = name p /\
    tf p' = v + KSTACKSIZE - sizeof_trapframe /\
    context p' = tf p' - 4 - sizeof_context /\
    aget (schedulingQueues s') 0 = Some q' /\ ring_rep q' (l ++ [i]) /\
    kmem_inv kend (pkmem s') fl /\
    fresh_stack (kmemory (pkmem s')) v /\
    same_outside v (v + PGSIZE) (kmemory (pkmem s)) (kmemory (pkmem s')) /\
    kpgdir s' = kpgdir s /\ initproc s' = initproc s.
Proof.
  destruct (allocproc_prefix i p q l L s H) as (q' & s1 & Hr & -> & ->).
  destruct H as [Hi Hu Hf Hq Hr0 Hl HL1 HL2 HL3].
  pose proof (lookup_lt_Some _ _ _ Hi) as Hlt.
  destruct (kalloc_spec kend (v :: fl) L (pkmem s) Hk HL3)
    as (k' & Hk1 & Hinv & Hv & Hn & Hm & _).
  erewrite bind_Ok by (unfold zoom; cbn; by rewrite Hk1).
  unfold setup_kstack. kstep.
  destruct (Z.eqb_spec v 0) as [->|Hnz]; [by apply page_ok_nonzero in Hv|].
  cbv zeta. ksteps. eexists _, _, q'. split; [reflexivity|]. cbn.
  split; [by rewrite !list_insert_insert_eq|].
  split_and!; try reflexivity.
  - unfold accounted. cbn. apply eqm_eq. lia.
  - apply (aget_insert_eq _ 0). destruct (aget_Some _ _ _ Hq). lia.
  - done.
  - apply (kmem_inv_frame kend k' v fl (stack_mem (kmemory k') v)); [done..|].
    apply stack_mem_outside.
  - apply (stack_mem_fresh (kmemory k') v).
  - rewrite <- Hm. apply (stack_mem_outside (kmemory k') v).
Qed.

(** [allocproc] returns 0 without a free slot, and then changes nothing; and
    without a free page, when it gives the slot back but has already used up
    a pid and left the slot in queue 0. *)
Theorem allocproc_fails L s (HL : Lptable ∉ L) :
  (Forall (fun p => state p <> UNUSED) (procs s) ->
    allocproc trapret forkret L s = Ok None L s) /\
  (forall i p q l, alloc_pre i p q l L s -> kmem_inv kend (pkmem s) [] ->
    exists s' p' q', allocproc trapret forkret L s = Ok None L s' /\
      procs s' = <[i := p']> (procs s) /\ state p' = UNUSED /\ kstack p' = 0 /\
      nextpid s' = i32 (nextpid s + 1) /\ pkmem s' = pkmem s /\
      aget (schedulingQueues s') 0 = Some q' /\ ring_rep q' (l ++ [i])).
Proof.
  split.
  - intros Hall. unfold allocproc. kstep. kstep.
    assert (first_proc (fun p => bool_decide (state p = UNUSED)) (procs s) 0 = None) as ->.
    { apply first_proc_None. eapply Forall_impl; [exact Hall|]. intros p Hp.
      by apply bool_decide_eq_false_2. }
    by kstep.
  - intros i p q l H Hk.
    destruct (allocproc_prefix i p q l L s H) as (q' & s1 & Hr & -> & ->).
    destruct H as [Hi Hu Hf Hq Hr0 Hl HL1 HL2 HL3].
    pose proof (lookup_lt_Some _ _ _ Hi) as Hlt.
    erewrite bind_Ok by (unfold zoom; cbn; by rewrite (kalloc_spec kend [] L (pkmem s) Hk HL3)).
    unfold setup_kstack. kstep. simpl. kstep. eexists _, _, q'. split; [reflexivity|]. cbn.
    split; [by rewrite !list_insert_insert_eq|]. split_and!; try done.
    apply (aget_insert_eq _ 0). destruct (aget_Some _ _ _ Hq). lia.
Qed.

End alloc.

(** *** Giving up the CPU *)

(** Process [i] runs on this CPU. *)
Record running (i : nat) (p : proc) (s : pstate) : Prop := {
  rn_cur : curproc s = Some i;
  rn_proc : procs s !! i = Some p;
  rn_state : state p = RUNNING;
  rn_cpu : 0 <= cpu s < Z.of_nat (length (lastQueue s))
}.

(** Waking others does not disturb the caller. *)
Lemma wakeup_running c L s i p :
  Lptable ∉ L -> running i p s ->
  exists s', wakeup c L s = Ok tt L s' /\ running i p s' /\ pkmem s' = pkmem s.
Proof.
  intros HL [Hc Hp Hs Hb]. rewrite wakeup_ok by done. eexists. split; [reflexivity|].
  split; [|done]. split; cbn; try done. rewrite list_lookup_fmap, Hp. simpl. f_equal.
  apply wake_one_other. intros [? _]. congruence.
Qed.

Lemma sched_checks_ok i p s :
  curproc s = Some i -> procs s !! i = Some p -> state p <> RUNNING ->
  0 <= cpu s < Z.of_nat (length (lastQueue s)) ->
  sched_checks [Lptable] s =
    Ok tt [Lptable] (s <| lastQueue ::= fun l => <[Z.to_nat (cpu s) := queueNumber p]> l |>).
Proof.
  intros Hc Hp Hs Hb. unfold sched_checks. kstep. kstep. kstep. kstep.
  rewrite aset_in by done. kstep. kstep. kstep. simpl.
  by rewrite bool_decide_eq_false_2.
Qed.

Lemma sched_ok swtch i p s :
  curproc s = Some i -> procs s !! i = Some p -> state p <> RUNNING ->
  0 <= cpu s < Z.of_nat (length (lastQueue s)) ->
  sched swtch [Lptable] s =
    swtch [Lptable] (s <| lastQueue ::= fun l => <[Z.to_nat (cpu s) := queueNumber p]> l |>).
Proof. intros. unfold sched. by erewrite bind_Ok by by eapply sched_checks_ok. Qed.

(** [sched] refuses to switch while another spin lock is held. *)
Lemma sched_one_lock swtch i p L s :
  curproc s = Some i -> procs s !! i = Some p ->
  0 <= cpu s < Z.of_nat (length (lastQueue s)) ->
  Lptable ∈ L -> length L <> 1%nat -> sched swtch L s = Panic "sched locks".
Proof.
  intros Hc Hp Hb HL Hn. unfold sched, sched_checks. apply bind_Panic. kstep. kstep. kstep. kstep.
  rewrite aset_in by done. kstep. kstep. kstep. rewrite bool_decide_eq_true_2 by done.
  simpl. by rewrite (proj2 (Nat.eqb_neq _ _) Hn).
Qed.

(** The lock hand-over at the two ends of [sleep]. *)
Lemma sleep_enter (lk : lockid) (a : K pstate unit) (l : list (K pstate unit)) (s : pstate) :
  kseq ((if decide (lk <> Lptable) then [acquire Lptable; release lk] else []) ++ a :: l) [lk] s
  = kseq (a :: l) [Lptable] s.
Proof.
  case_decide as H; [|by rewrite H].
  cbn [app]. change (kseq (acquire Lptable :: ?r)) with (acquire Lptable ;; kseq r).
  change (kseq (release lk :: ?r)) with (release lk ;; kseq r). kstep. erewrite bind_Ok; [done|]. unfold release. rewrite decide_True by set_solver.
  rewrite filter_cons_True by congruence. by rewrite filter_cons_False by naive_solver.
Qed.

Lemma sleep_leave (lk : lockid) (s : pstate) :
  (if decide (lk <> Lptable) then release Lptable ;; acquire lk else mret tt) [Lptable] s
  = Ok tt [lk] s.
Proof.
  case_decide as H; [|by rewrite H].
  kstep. apply acquire_free. set_solver.
Qed.

(** The process and the machine as [sleep] hands them to [swtch]. *)
Definition gone_to_sleep (c t : Z) (p : proc) : proc :=
  p <| chan := c |> <| running_time := i32 (running_time p + (t - last_time p)) |>
    <| last_time := i32 t |> <| state := SLEEPING |>.
Definition at_sleep (c : Z) (i : nat) (p : proc) (s : pstate) : pstate :=
  s <| procs ::= fun ps => <[i := gone_to_sleep c (ticks s) p]> ps |>
    <| lastQueue ::= fun l => <[Z.to_nat (cpu s) := queueNumber p]> l |>.

Lemma sleep_pre_ok c lk i p s :
  running i p s -> sleep_pre c lk [lk] s = Ok i [Lptable] (at_sleep c i p s).
Proof.
  intros [Hc Hp Hs Hb]. pose proof (lookup_lt_Some _ _ _ Hp) as Hlt.
  unfold sleep_pre. kstep. rewrite Hc. erewrite bind_Ok; [done|].
  unfold sleep_steps. rewrite sleep_enter. cbn [kseq].
  kstep. rewrite bind_assoc. kstep. kstep. rewrite bind_assoc. kstep. kstep. cbn. rewrite Hs. kstep.
  etransitivity.
  { apply (sched_checks_ok i (gone_to_sleep c (ticks s) p)); [done|cbn..|done].
       - rewrite !list_insert_insert_eq. by apply list_lookup_insert_eq.
       - done. }
  cbn. by rewrite !list_insert_insert_eq.
Qed.

Lemma sleep_post_ok lk i p s :
  procs s !! i = Some p ->
  sleep_post i lk [Lptable] s =
    Ok tt [lk] (s <| procs ::= fun ps => <[i := p <| chan := 0 |>]> ps |>).
Proof. intros H. unfold sleep_post. kstep. apply sleep_leave. Qed.

Lemma sleep_resumes swtch c lk i p s s2 p2 :
  running i p s -> swtch [Lptable] (at_sleep c i p s) = Ok tt [Lptable] s2 ->
  procs s2 !! i = Some p2 ->
  sleep swtch c lk [lk] s =
    Ok tt [lk] (s2 <| procs ::= fun ps => <[i := p2 <| chan := 0 |>]> ps |>).
Proof.
  intros H H1 H2. unfold sleep. erewrite bind_Ok by by apply sleep_pre_ok. kstep.
  by apply sleep_post_ok.
Qed.

(** [sleep(chan, lk)] called with only [lk] held: when
    the CPU is given away the process is already asleep on [chan], its ticks
    are charged, [lk] has been released and only [ptable.lock] is held, which
    every [wakeup] needs.  When it is resumed it returns holding [lk] and
    nothing else. *)
Theorem sleep_switches c lk i p s (H : running i p s) :
  exists s' p',
    procs s' = <[i := p']> (procs s) /\ asleep_on c p' /\
    running_time p' = i32 (running_time p + (ticks s - last_time p)) /\
    (accounted p -> accounted p') /\
    sleep (fun l x => Sleep c l x) c lk [lk] s = Sleep c [Lptable] s' /\
    forall swtch s2 p2, swtch [Lptable] s' = Ok tt [Lptable] s2 -> procs s2 !! i = Some p2 ->
      sleep swtch c lk [lk] s =
        Ok tt [lk] (s2 <| procs ::= fun ps => <[i := p2 <| chan := 0 |>]> ps |>).
Proof.
  exists (at_sleep c i p s), (gone_to_sleep c (ticks s) p). split_and!; [done|done|done| | |].
  - intros Ha. apply (accounted_charge p _ (ticks s)); [done|done|apply i32_eqm|].
    cbn. rewrite i32_eqm. apply eqm_eq. lia.
  - unfold sleep. by erewrite bind_Ok by by apply sleep_pre_ok.
  - intros swtch s2 p2 H1 H2. by eapply sleep_resumes.
Qed.

(** *** Concrete states *)

(** A zeroed table slot, and a machine with one free page on which process 0
    runs, at tick 9. *)
Definition blank_proc : proc :=
  mkProc 0 0 0 UNUSED 0 None 0 0 0 0 (replicate 16 0) 0 (replicate 16 0) [] 0 0 0 0 0 0 0 0 0.
Definition machine (ps : list proc) : pstate :=
  mkPstate ps (replicate 4 empty_queue) (replicate 8 0) POLICY_MLQ None 1 9 [] one_page 0 0
    (Some O) (replicate 6 (mkSeg 0 0 0 0 0 0 0 0 0 0 0 0 0)) (mkTs 0 0 0) 0 0.

Definition sleeper : proc := blank_proc <| state := SLEEPING |> <| chan := 7 |> <| pid := 3 |>.
Definition runner : proc := blank_proc <| state := RUNNING |> <| pid := 2 |>.

Lemma wakeup_wakes_all_witness :
  exists s', wakeup 7 [] (machine [sleeper]) = Ok tt [] s' /\
    forall p', procs s' !! O = Some p' -> state p' = RUNNABLE /\ sleep_time p' = 9.
Proof.
  destruct (wakeup_wakes_all 7 [] (machine [sleeper])) as (s' & H1 & _ & H2);
    [apply not_elem_of_nil|].
  exists s'. split; [exact H1|]. intros p' Hp'.
  destruct (H2 O sleeper eq_refl) as (p1 & Hp1 & _ & _ & H3).
  rewrite Hp1 in Hp'. injection Hp' as <-.
  destruct (H3 (conj eq_refl eq_refl)) as (? & _ & Hs & _). by rewrite Hs.
Defined.

Lemma alloc_pre_machine :
  alloc_pre O blank_proc empty_queue [] [] (machine [blank_proc]).
Proof.
  split; try done; try apply not_elem_of_nil; try apply empty_queue_rep; intros; lia.
Qed.

Lemma allocproc_new_witness :
  exists s' p', allocproc 0x80105000 0x80103000 [] (machine [blank_proc]) = Ok (Some O) [] s' /\
    procs s' = [p'] /\ state p' = EMBRYO /\ pid p' = 1 /\ kstack p' = 0x80100000.
Proof.
  destruct (allocproc_new 0x80100000 0x80105000 0x80103000 O blank_proc empty_queue [] []
    (machine [blank_proc]) 0x80100000 [] alloc_pre_machine one_page_inv)
    as (s' & p' & q' & H1 & H2 & H3 & H4 & _ & H5 & _).
  exists s', p'. split; [exact H1|]. split; [exact H2|]. split; [exact H3|].
  split; [exact H4|exact H5].
Defined.

Lemma allocproc_fails_witness :
  allocproc 0x80105000 0x80103000 [] (machine [runner]) = Ok None [] (machine [runner]) /\
  exists s', allocproc 0x80105000 0x80103000 [] ((machine [blank_proc]) <| pkmem := boot_kmem |>)
    = Ok None [] s' /\ nextpid s' = 2.
Proof.
  split.
  - apply (proj1 (allocproc_fails 0x80100000 0x80105000 0x80103000 [] (machine [runner])
      (not_elem_of_nil _))).
    by repeat constructor.
  - destruct (proj2 (allocproc_fails 0x80100000 0x80105000 0x80103000 []
      ((machine [blank_proc]) <| pkmem := boot_kmem |>) (not_elem_of_nil _))
      O blank_proc empty_queue []) as (s' & p' & q' & H1 & _ & _ & _ & H2 & _).
    + destruct alloc_pre_machine. by split.
    + apply boot_kmem_inv.
    + exists s'. split; [exact H1|exact H2].
Defined.

Lemma running_machine : running O runner (machine [runner]).
Proof. by split. Qed.

Lemma sleep_switches_witness :
  exists s', sleep (fun l x => Sleep 7 l x) 7 Ltickslock [Ltickslock] (machine [runner])
    = Sleep 7 [Lptable] s' /\ exists p', procs s' = [p'] /\ asleep_on 7 p'.
Proof.
  destruct (sleep_switches 7 Ltickslock O runner (machine [runner]) running_machine)
    as (s' & p' & H1 & H2 & _ & _ & H3 & _).
  exists s'. split; [exact H3|]. exists p'. split; [exact H1|exact H2].
Defined.

End Proc.
