(* ===== verification/ProcSpec.v ===== *)
(** What the operations of Proc.v promise: giving up the CPU, killing, and the
    system calls of this kernel that inspect or set scheduling data. *)

From stdpp Require Import base numbers list sets strings.
From Stdlib Require Import ZArith Lia.
From S2P Require Import Prelude Mem CString Mmu Kalloc Param Proc.
Import CString Mmu Kalloc Param Proc.

Module ProcSpec.

(** *** yield *)

(** The process and the machine as [yield] hands them to [swtch]. *)
Definition yielded (t : Z) (p : proc) : proc :=
  p <| running_time := i32 (running_time p + (t - last_time p)) |> <| state := RUNNABLE |>.
Definition at_yield (i : nat) (p : proc) (s : pstate) : pstate :=
  s <| procs ::= fun ps => <[i := yielded (ticks s) p]> ps |>
    <| lastQueue ::= fun l => <[Z.to_nat (cpu s) := queueNumber p]> l |>.

Lemma yield_runs swtch i p s :
  running i p s -> yield swtch [] s = (swtch ;; yield_resume) [Lptable] (at_yield i p s).
Proof.
  intros [Hc Hp Hs Hb]. pose proof (lookup_lt_Some _ _ _ Hp) as Hlt.
  unfold yield. kstep. rewrite bind_assoc. kstep. rewrite bind_assoc. kstep. kstep.
  rewrite bind_assoc. erewrite bind_Ok by by apply myproc_ok. kstep.
  unfold mbind at 1, K_bind at 1.
  erewrite (sched_ok swtch i (yielded (ticks s) p)); [|done|cbn..|done].
  2: { rewrite !list_insert_insert_eq. by apply list_lookup_insert_eq. }
  2: done.
  cbn. rewrite !list_insert_insert_eq. reflexivity.
Qed.

Lemma yield_resume_ok i p s :
  curproc s = Some i -> procs s !! i = Some p ->
  yield_resume [Lptable] s =
    Ok tt [] (s <| procs ::= fun ps => <[i := p <| last_time := i32 (ticks s) |>]> ps |>).
Proof.
  intros Hc Hp. unfold yield_resume. rewrite bind_assoc. kstep. rewrite bind_assoc. kstep. kstep.
  apply release_top, not_elem_of_nil.
Qed.

(** [yield] reaches the scheduler with the process runnable, its slice
    charged to [running_time] and only [ptable.lock] held; it returns with
    no lock held. *)
Theorem yield_switches i p s (H : running i p s) :
  exists s' p',
    procs s' = <[i := p']> (procs s) /\ state p' = RUNNABLE /\
    running_time p' = i32 (running_time p + (ticks s - last_time p)) /\
    aget (lastQueue s') (cpu s) = Some (queueNumber p) /\
    yield (fun l x => Sleep 0 l x) [] s = Sleep 0 [Lptable] s' /\
    forall swtch s2 p2, swtch [Lptable] s' = Ok tt [Lptable] s2 ->
      curproc s2 = Some i -> procs s2 !! i = Some p2 ->
      yield swtch [] s =
        Ok tt [] (s2 <| procs ::= fun ps => <[i := p2 <| last_time := i32 (ticks s2) |>]> ps |>).
Proof.
  exists (at_yield i p s), (yielded (ticks s) p).
  split_and!; [done|done|done| |by rewrite (yield_runs _ i p)|].
  - apply aget_insert_eq, H.
  - intros swtch s2 p2 H1 H2 H3. rewrite (yield_runs _ i p) by done.
    erewrite bind_Ok by exact H1. by apply yield_resume_ok.
Qed.

(** *** kill *)

Lemma first_pid_Some n ps i p :
  ps !! i = Some p -> pid p = n -> (forall j x, (j < i)%nat -> ps !! j = Some x -> pid x <> n) ->
  first_proc (fun p => pid p =? n) ps 0 = Some i.
Proof.
  intros Hp Hn Hf. apply first_proc_Some. exists p. split_and!; [done|by apply Z.eqb_eq|].
  intros j x Hj Hx. apply Z.eqb_neq. eauto.
Qed.

Lemma first_pid_None n ps :
  Forall (fun p => pid p <> n) ps -> first_proc (fun p => pid p =? n) ps 0 = None.
Proof.
  intros H. apply first_proc_None. eapply Forall_impl; [exact H|]. intros p Hp.
  by apply Z.eqb_neq.
Qed.

(** The pages of a history that are not on the free list go there. *)
Lemma free_history_spec kend i h p fl L s :
  procs s !! i = Some p -> syscallhistory p = h ->
  kmem_inv kend (pkmem s) fl -> Lkmem ∉ L ->
  Forall (page_ok kend) (map sc_page h) -> NoDup (map sc_page h ++ fl) ->
  exists k', free_history kend i h L s =
      Ok tt L (s <| procs ::= fun ps => <[i := p <| syscallhistory := [] |>]> ps |>
                 <| pkmem := k' |>) /\
    kmem_inv kend k' (rev (map sc_page h) ++ fl).
Proof.
  revert p fl s. induction h as [|c h IH]; intros p fl s Hp Hh Hk HL Hok Hnd; simpl.
  { exists (pkmem s). split; [|done]. destruct p, s. cbn in *. subst.
    by rewrite list_insert_id. }
  simpl in Hok, Hnd. apply Forall_cons in Hok as [Hc Hok]. apply NoDup_cons in Hnd as [Hn Hnd].
  pose proof (lookup_lt_Some _ _ _ Hp) as Hlt.
  kstep. destruct (kfree_spec kend (sc_page c) fl L (pkmem s) Hc) as (k1 & Hk1 & Hk2 & _);
    [set_solver|done|done|].
  erewrite bind_Ok by (unfold zoom; cbn; by rewrite Hk1).
  set (p1 := p <| syscallhistory := h |>).
  destruct (IH p1 (sc_page c :: fl)
    (s <| procs ::= fun ps => <[i := p1]> ps |> <| pkmem := k1 |>)) as (k' & Hk' & Hinv);
    [cbn; by apply list_lookup_insert_eq|done|done|done|done| |].
  - rewrite <- Permutation_middle. by apply NoDup_cons.
  - exists k'. split.
    + etransitivity; [exact Hk'|]. cbn. by rewrite list_insert_insert_eq.
    + by rewrite <- app_assoc.
Qed.

(** [kill(n)] marks the first process with pid [n] as killed, wakes it if it
    sleeps, charging the ticks it slept, and returns the pages of its
    system-call history to the allocator; every other process is untouched. *)
Theorem kill_marks kend n i p fl L s
    (Hp : procs s !! i = Some p) (Hn : pid p = n)
    (Hfirst : forall j x, (j < i)%nat -> procs s !! j = Some x -> pid x <> n)
    (Hk : kmem_inv kend (pkmem s) fl)
    (Hok : Forall (page_ok kend) (map sc_page (syscallhistory p)))
    (Hnd : NoDup (map sc_page (syscallhistory p) ++ fl))
    (HL : Lptable ∉ L) (HL2 : Lkmem ∉ L) :
  exists s' p', kill kend n L s = Ok 0 L s' /\
    procs s' = <[i := p']> (procs s) /\
    pid p' = n /\ killed p' = 1 /\ syscallhistory p' = [] /\
    state p' = (if decide (state p = SLEEPING) then RUNNABLE else state p) /\
    (state p = SLEEPING -> accounted p -> accounted p') /\
    kmem_inv kend (pkmem s') (rev (map sc_page (syscallhistory p)) ++ fl).
Proof.
  pose proof (lookup_lt_Some _ _ _ Hp) as Hlt.
  unfold kill. kstep. kstep. rewrite (first_pid_Some n (procs s) i p) by done.
  kstep. kstep. kstep.
  set (p1 := kill_one (ticks s) p).
  set (s1 := s <| procs ::= fun ps => <[i := p1]> ps |>).
  assert (Hh : syscallhistory p1 = syscallhistory p)
    by (unfold p1, kill_one; by destruct (bool_decide _)).
  destruct (free_history_spec kend i (syscallhistory p) p1 fl (Lptable :: L) s1)
    as (k' & Hk' & Hinv); [by apply list_lookup_insert_eq|done|done|set_solver|done|done|].
  rewrite Hh. erewrite bind_Ok by exact Hk'. kstep. eexists _, _. split; [reflexivity|].
  cbn. split; [by rewrite !list_insert_insert_eq|]. unfold p1, kill_one.
  case_decide as Hd; [rewrite bool_decide_eq_true_2 by done|rewrite bool_decide_eq_false_2 by done];
    split_and!; try done.
  intros _ Ha. apply (accounted_charge p _ (ticks s)); [done|done|apply i32_eqm|].
  cbn. rewrite i32_eqm. apply eqm_eq. lia.
Qed.

(** *** setPriority *)

(** [setPriority] of an existing process sets its priority, restarts its count
    of slices exactly when the priority changed, and counts one more entry in
    queue 1 whatever queue the process is in: the test
    [q != QUEUE_DEFAULT || q != QUEUE_PRIORITY_RR] always holds. *)
Theorem setPriority_counts n prio i p x L s
    (Hp : procs s !! i = Some p) (Hn : pid p = n)
    (Hfirst : forall j y, (j < i)%nat -> procs s !! j = Some y -> pid y <> n)
    (Hq : aget (schedulingQueues s) QUEUE_PRIORITY = Some x)
    (HL : Lptable ∉ L) (HL2 : Lqueue QUEUE_PRIORITY ∉ L) :
  exists s' p', setPriority n prio L s = Ok n L s' /\
    procs s' = <[i := p']> (procs s) /\
    priority p' = prio /\ queueNumber p' = queueNumber p /\ state p' = state p /\
    scheduled_times p' = (if priority p =? prio then scheduled_times p else 0) /\
    schedulingQueues s' =
      <[Z.to_nat QUEUE_PRIORITY := x <| size ::= fun k => i32 (k + 1) |>]> (schedulingQueues s).
Proof.
  pose proof (lookup_lt_Some _ _ _ Hp) as Hlt.
  unfold setPriority. kstep. kstep. rewrite (first_pid_Some n (procs s) i p) by done.
  kstep. kstep. rewrite bind_assoc. kstep.
  replace (negb _ || negb _) with true.
  2: { symmetry. unfold QUEUE_DEFAULT, QUEUE_PRIORITY_RR. cbn.
       destruct (priority p =? prio); cbn; destruct (queueNumber p) as [|q|q]; try done;
       by destruct q as [[]|[]|]. }
  rewrite bind_assoc. kstep. rewrite bind_assoc, bind_assoc. kstep.
  erewrite bind_Ok by (apply put_queue_ok; cbn; by apply aget_Some in Hq as [? _]).
  kstep. kstep. eexists _, _. split; [reflexivity|]. cbn.
  rewrite list_insert_insert_eq. split; [reflexivity|].
  by destruct (priority p =? prio).
Qed.

(** *** setqueue *)

(** Indices, from [k], of the processes of [ps] that have pid [n]. *)
Fixpoint matches (n : Z) (ps : list proc) (k : nat) : list nat :=
  match ps with
  | [] => []
  | p :: r => (if pid p =? n then [k] else []) ++ matches n r (S k)
  end.

Definition requeue (n q : Z) (p : proc) : proc :=
  if pid p =? n then p <| queueNumber := q |> else p.

Lemma setqueue_loop_spec n q pre todo l x r L s :
  procs s = pre ++ todo -> aget (schedulingQueues s) q = Some x -> ring_rep x l ->
  Z.of_nat (length l + length (matches n todo (length pre))) <= NPROC ->
  Lqueue q ∉ L ->
  exists x', ring_rep x' (l ++ matches n todo (length pre)) /\
    setqueue_loop n q (seq (length pre) (length todo)) r L s =
      Ok (match matches n todo (length pre) with [] => r | _ => n end) L
        (s <| procs := pre ++ map (requeue n q) todo |>
           <| schedulingQueues ::= fun qs => <[Z.to_nat q := x']> qs |>).
Proof.
  revert pre l x r s. induction todo as [|p todo IH]; intros pre l x r s Hps Hq Hr Hl HL; simpl.
  { exists x. rewrite app_nil_r. split; [done|]. rewrite app_nil_r in *. destruct s.
    cbn in *. subst. unfold mret, K_ret. do 2 f_equal.
    symmetry. apply list_insert_id. apply aget_Some in Hq as [_ ?]. done. }
  assert (Hp : procs s !! length pre = Some p) by (by rewrite Hps, list_lookup_middle).
  pose proof (aget_Some _ _ _ Hq) as [Hqb _].
  set (p' := requeue n q p).
  assert (Hlen : S (length pre) = length (pre ++ [p'])) by (rewrite length_app; simpl; lia).
  simpl in Hl. kstep.
  assert (Hp' : p' = if pid p =? n then p <| queueNumber := q |> else p) by done.
  destruct (Z.eqb_spec (pid p) n) as [Hn|Hn].
  - rewrite length_app in Hl. simpl in Hl. kstep.
    set (s1 := s <| procs ::= fun ps => <[length pre := p <| queueNumber := q |>]> ps |>).
    destruct (enqueue_ok q (length pre) L s1 x l Hq Hr) as (x1 & He & Hr1); [lia|done|].
    erewrite bind_Ok by exact He.
    edestruct (IH (pre ++ [p']) (l ++ [length pre]) x1 n
      (s1 <| schedulingQueues ::= fun qs => <[Z.to_nat q := x1]> qs |>)) as (x' & Hr' & Hrun).
    + cbn. rewrite Hps, insert_app_r_alt, Nat.sub_diag by lia. by rewrite <- app_assoc, Hp'.
    + by apply aget_insert_eq.
    + done.
    + rewrite <- Hlen. rewrite length_app. simpl. lia.
    + done.
    + exists x'. rewrite <- Hlen in *. split; [by rewrite <- app_assoc in Hr'|].
      simpl. etransitivity; [exact Hrun|]. cbn. rewrite <- app_assoc, list_insert_insert_eq.
      by destruct (matches n todo _).
  - destruct (IH (pre ++ [p']) l x r s) as (x' & Hr' & Hrun); [|done|done| |done|].
    + rewrite Hps. by rewrite <- app_assoc, Hp'.
    + by rewrite <- Hlen.
    + exists x'. rewrite <- Hlen in *. split; [done|]. simpl. rewrite Hrun.
      by rewrite <- app_assoc.
Qed.

(** [setqueue] with a queue number in range and room in the ring moves every
    process with the given pid to the queue: it appends them to the ring in
    table order and changes no other process; it returns the pid, or -1 and
    an unchanged ring when there is none. *)
Theorem setqueue_moves n q l x L s
    (Hq : aget (schedulingQueues s) q = Some x) (Hr : ring_rep x l)
    (Hroom : Z.of_nat (length l + length (matches n (procs s) 0)) <= NPROC)
    (HL : Lptable ∉ L) (HL2 : Lqueue q ∉ L) :
  exists s' x', setqueue n q L s =
      Ok (if decide (matches n (procs s) 0 = []) then -1 else n) L s' /\
    procs s' = map (requeue n q) (procs s) /\
    schedulingQueues s' = <[Z.to_nat q := x']> (schedulingQueues s) /\
    ring_rep x' (l ++ matches n (procs s) 0).
Proof.
  destruct (setqueue_loop_spec n q [] (procs s) l x (-1) (Lptable :: L) s) as (x' & Hr' & Hrun);
    [done|done|done|done|set_solver|].
  unfold setqueue. kstep. kstep. erewrite bind_Ok by exact Hrun. kstep.
  replace (if decide _ then -1 else n)
    with (match matches n (procs s) 0 with [] => -1 | _ => n end)
    by (by destruct (matches n (procs s) 0)).
  eexists _, x'. split; [reflexivity|]. done.
Qed.

(** A queue number outside 0..3 is not refused: if the process exists,
    [setqueue] indexes [schedulingQueues] out of bounds. *)
Theorem setqueue_out_of_bounds n q i p L s
    (Hp : procs s !! i = Some p) (Hn : pid p = n)
    (Hq : ~ 0 <= q < Z.of_nat (length (schedulingQueues s)))
    (HL : Lptable ∉ L) (HL2 : Lqueue q ∉ L) :
  setqueue n q L s = Fault "schedulingQueues".
Proof.
  unfold setqueue. kstep. kstep. apply bind_Fault.
  assert (Hi : i ∈ seq 0 (length (procs s))).
  { apply elem_of_seq. pose proof (lookup_lt_Some _ _ _ Hp). lia. }
  assert (Hidx : Forall (fun j => j < length (procs s))%nat (seq 0 (length (procs s)))).
  { apply Forall_forall. intros j Hj%elem_of_seq. lia. }
  revert Hi Hidx. generalize (-1) as r. induction (seq 0 (length (procs s))) as [|j idx IH];
    intros r Hi Hidx; [by apply elem_of_nil in Hi|].
  apply Forall_cons in Hidx as [Hj Hidx].
  destruct (lookup_lt_is_Some_2 (procs s) j Hj) as [pj Hpj].
  simpl. kstep. destruct (Z.eqb_spec (pid pj) n) as [Hnj|Hnj].
  - kstep. apply bind_Fault. unfold enqueue. kstep. apply bind_Fault, bind_Fault.
    unfold get_queue. kstep. cbn. by rewrite aget_out.
  - apply elem_of_cons in Hi as [->|Hi]; [naive_solver|]. by apply IH.
Qed.

(** *** Concrete runs *)

Lemma yield_switches_witness :
  exists s', yield (fun l x => Sleep 0 l x) [] (machine [runner]) = Sleep 0 [Lptable] s' /\
    exists p', procs s' = [p'] /\ state p' = RUNNABLE /\ running_time p' = 9.
Proof.
  destruct (yield_switches O runner (machine [runner]) running_machine)
    as (s' & p' & H1 & H2 & H3 & _ & H4 & _).
  exists s'. split; [exact H4|]. exists p'. split; [exact H1|]. split; [exact H2|].
  by rewrite H3.
Defined.

Definition historian : proc := sleeper <| syscallhistory := [mkCounter 0x80100000 5 2] |>.

Lemma kill_marks_witness :
  exists s' p', kill 0x80100000 3 [] ((machine [historian]) <| pkmem := boot_kmem |>) = Ok 0 [] s' /\
    procs s' = [p'] /\ killed p' = 1 /\ state p' = RUNNABLE /\
    kmem_inv 0x80100000 (pkmem s') [0x80100000].
Proof.
  destruct (kill_marks 0x80100000 3 O historian [] [] ((machine [historian]) <| pkmem := boot_kmem |>))
    as (s' & p' & H1 & H2 & _ & H3 & _ & H4 & _ & H5); try done; try apply not_elem_of_nil.
  - intros; lia.
  - apply boot_kmem_inv.
  - repeat constructor; apply page_ok_first.
  - cbn. apply NoDup_singleton.
  - exists s', p'. split_and!; [exact H1|exact H2|exact H3|exact H4|exact H5].
Defined.

Lemma setPriority_counts_witness :
  exists s', setPriority 2 6 [] (machine [runner]) = Ok 2 [] s' /\
    exists q, aget (schedulingQueues s') 1 = Some q /\ size q = 1.
Proof.
  destruct (setPriority_counts 2 6 O runner empty_queue [] (machine [runner]))
    as (s' & p' & H1 & _ & _ & _ & _ & _ & H2); try done; try apply not_elem_of_nil.
  - intros; lia.
  - exists s'. split; [exact H1|]. rewrite H2. eexists. split; reflexivity.
Defined.

Lemma setqueue_moves_witness :
  exists s' x', setqueue 2 3 [] (machine [runner]) = Ok 2 [] s' /\
    aget (schedulingQueues s') 3 = Some x' /\ ring_rep x' [O].
Proof.
  destruct (setqueue_moves 2 3 [] empty_queue [] (machine [runner]))
    as (s' & x' & H1 & _ & H2 & H3); try done; try apply not_elem_of_nil.
  exists s', x'. split; [exact H1|]. split; [|exact H3]. by rewrite H2.
Defined.

Lemma setqueue_out_of_bounds_witness :
  setqueue 2 4 [] (machine [runner]) = Fault "schedulingQueues".
Proof.
  apply (setqueue_out_of_bounds 2 4 O runner); try done; try apply not_elem_of_nil.
  cbn. lia.
Defined.

End ProcSpec.
