(* ===== verification/Wakeup.v ===== *)
(** Why [sleep] takes the condition lock: a processor that puts a process to
    sleep and one that makes the awaited condition true and calls [wakeup],
    their steps interleaved in every possible way.  The steps are those that
    [sleep] and [wakeup] of proc.c are made of in [Proc]. *)

From stdpp Require Import base numbers list sets strings relations.
From Stdlib Require Import ZArith Lia.
From S2P Require Import Prelude Kalloc Param Proc.
Import Kalloc Param Proc.

Module Wakeup.

(** What the processors share: the process table and the condition. *)
Record shared := mkShared { tbl : pstate; cond : bool }.
#[export] Instance eta_shared : Eta shared := fun s => mkShared s.(tbl) s.(cond).

(** A processor: the spin locks it holds and the steps it has to do. *)
Record thread := mkThread { held : list lockid; todo : list (K shared unit) }.

Record config := mkConfig { waiter : thread; waker : thread; mach : shared }.

Section wakeup.
(** The channel, the condition lock and the process that waits. *)
Context (c : Z) (lk : lockid) (i : nat).

(** [sleep(c, lk)] up to the switch, and the scheduler's [release]. *)
Definition waiter_code : list (K shared unit) :=
  map (zoom tbl) (sleep_steps c lk i ++ [release Lptable]).

(** [acquire(lk); cond = 1; wakeup(c); release(lk)]. *)
Definition waker_code : list (K shared unit) :=
  [acquire lk; modify (fun s => s <| cond := true |>)] ++
  map (zoom tbl) (wakeup_steps c) ++ [release lk].

(** A step of one processor; it takes no lock that the other one holds. *)
Inductive act : config -> config -> Prop :=
  | act_waiter l a r l' s s' k :
      a l s = Ok tt l' s' -> l' ## held k ->
      act (mkConfig (mkThread l (a :: r)) k s) (mkConfig (mkThread l' r) k s')
  | act_waker w l a r l' s s' :
      a l s = Ok tt l' s' -> held w ## l' ->
      act (mkConfig w (mkThread l (a :: r)) s) (mkConfig w (mkThread l' r) s').

(** Whatever the rest of the system does to other processes and to the
    clock. *)
Inductive others : config -> config -> Prop :=
  | others_run w k s t :
      procs t !! i = procs (tbl s) !! i -> curproc t = curproc (tbl s) ->
      cpu t = cpu (tbl s) -> length (lastQueue t) = length (lastQueue (tbl s)) ->
      others (mkConfig w k s) (mkConfig w k (s <| tbl := t |>)).

Definition step (x y : config) : Prop := act x y \/ others x y.

(** The waiting process holds [lk] and has found the condition false. *)
Definition start (s : shared) : config :=
  mkConfig (mkThread [lk] waiter_code) (mkThread [] waker_code) s.

(** The locks held after [a] steps of the waiter and [b] of the waker. *)
Definition waiter_locks (a : nat) : list lockid :=
  match a with 0 => [lk] | 1 => [Lptable; lk] | 8 => [] | _ => [Lptable] end%nat.
Definition waker_locks (b : nat) : list lockid :=
  match b with 0 => [] | 1 => [lk] | 2 => [lk] | 3 => [Lptable; lk] | 4 => [Lptable; lk]
  | 5 => [lk] | _ => [] end%nat.

(** How far both have come, and what that means for the process. *)
Record at_steps (a b : nat) (x : config) : Prop := {
  as_a : (a <= 8)%nat;
  as_b : (b <= 6)%nat;
  as_waiter : waiter x = mkThread (waiter_locks a) (drop a waiter_code);
  as_waker : waker x = mkThread (waker_locks b) (drop b waker_code);
  as_cond : cond (mach x) = (2 <=? b)%nat;
  as_cur : curproc (tbl (mach x)) = Some i;
  as_cpu : 0 <= cpu (tbl (mach x)) < Z.of_nat (length (lastQueue (tbl (mach x))));
  as_proc : exists q, procs (tbl (mach x)) !! i = Some q /\
    ((a < 6)%nat -> state q = RUNNING) /\ ((3 <= a)%nat -> chan q = c) /\
    ((6 <= a)%nat -> (b < 4)%nat -> state q = SLEEPING) /\
    ((4 <= b)%nat -> state q = RUNNABLE);
  as_lk : (1 <= b)%nat -> (2 <= a)%nat;
  as_table : (3 <= b)%nat -> a = 8%nat
}.

Context (Hlk : lk <> Lptable).

Lemma release_held2 (k k' : lockid) (s : pstate) :
  k <> k' -> release k' [k; k'] s = Ok tt [k] s.
Proof.
  intros H. unfold release. rewrite decide_True by set_solver.
  rewrite filter_cons_True by congruence. by rewrite filter_cons_False by naive_solver.
Qed.

(** What a step leaves alone. *)
Record keeps (s s' : shared) : Prop := {
  kp_cond : cond s' = cond s;
  kp_cur : curproc (tbl s') = curproc (tbl s);
  kp_cpu : cpu (tbl s') = cpu (tbl s);
  kp_len : length (lastQueue (tbl s')) = length (lastQueue (tbl s))
}.

Lemma keeps_table s t :
  curproc t = curproc (tbl s) -> cpu t = cpu (tbl s) ->
  length (lastQueue t) = length (lastQueue (tbl s)) -> keeps s (s <| tbl := t |>).
Proof. by split. Qed.

Lemma zoom_upd f q l s :
  procs (tbl s) !! i = Some q ->
  exists s', zoom tbl (upd_proc i f) l s = Ok tt l s' /\ keeps s s' /\
    procs (tbl s') !! i = Some (f q).
Proof.
  intros Hq. eexists. split; [|split].
  - unfold zoom. by rewrite (upd_proc_ok _ _ _ _ q).
  - by apply keeps_table.
  - cbn. apply list_lookup_insert_eq. by eapply lookup_lt_Some.
Qed.

Lemma zoom_upd_ticks (f : Z -> proc -> proc) q l s :
  procs (tbl s) !! i = Some q ->
  exists s', zoom tbl (t ← gets ticks; upd_proc i (f t)) l s = Ok tt l s' /\ keeps s s' /\
    procs (tbl s') !! i = Some (f (ticks (tbl s)) q).
Proof. apply zoom_upd. Qed.

Lemma zoom_lock (m : K pstate unit) l l' s :
  m l (tbl s) = Ok tt l' (tbl s) ->
  exists s', zoom tbl m l s = Ok tt l' s' /\ keeps s s' /\ tbl s' = tbl s.
Proof.
  intros Hm. eexists. unfold zoom. rewrite Hm. split; [reflexivity|].
  split; [by apply keeps_table|done].
Qed.

(** Step [a] of the waiter: the locks and the process before and after. *)
Lemma waiter_does a x q s :
  waiter_code !! a = Some x -> procs (tbl s) !! i = Some q ->
  curproc (tbl s) = Some i -> 0 <= cpu (tbl s) < Z.of_nat (length (lastQueue (tbl s))) ->
  ((a < 6)%nat -> state q = RUNNING) -> ((6 <= a)%nat -> state q = SLEEPING) ->
  ((3 <= a)%nat -> chan q = c) ->
  exists s' q', x (waiter_locks a) s = Ok tt (waiter_locks (S a)) s' /\ keeps s s' /\
    procs (tbl s') !! i = Some q' /\ ((S a < 6)%nat -> state q' = RUNNING) /\
    ((6 <= S a)%nat -> state q' = SLEEPING) /\ ((3 <= S a)%nat -> chan q' = c).
Proof.
  unfold waiter_code, sleep_steps. rewrite decide_True by done.
  intros Hx Hq Hc Hb Hrun Hsl Hch.
  destruct a as [|[|[|[|[|[|[|[|a]]]]]]]]; [..|done]; injection Hx as <-; cbn [waiter_locks].
  - destruct (zoom_lock (acquire Lptable) [lk] [Lptable; lk] s) as (s' & H1 & H2 & H3);
      [apply acquire_free; set_solver|].
    exists s', q. rewrite H3. split_and!; try done; try lia; auto with lia.
  - destruct (zoom_lock (release lk) [Lptable; lk] [Lptable] s) as (s' & H1 & H2 & H3);
      [by apply release_held2|].
    exists s', q. rewrite H3. split_and!; try done; try lia; auto with lia.
  - destruct (zoom_upd (fun p => p <| chan := c |>) q [Lptable] s Hq) as (s' & H1 & H2 & H3).
    exists s', (q <| chan := c |>). split_and!; try done; cbn; try lia; auto with lia.
  - edestruct (zoom_upd_ticks (fun t p => match state p with
       | RUNNING => p <| running_time := i32 (running_time p + (t - last_time p)) |>
       | RUNNABLE => p <| ready_time := i32 (ready_time p + (t - last_time p)) |>
       | _ => p end) q [Lptable] s Hq) as (s' & H1 & H2 & H3).
    rewrite (Hrun ltac:(lia)) in H3. eexists s', _. split_and!; try done; cbn; try lia; auto with lia.
  - destruct (zoom_upd_ticks (fun t p => p <| last_time := i32 t |>) q [Lptable] s Hq)
      as (s' & H1 & H2 & H3).
    eexists s', _. split_and!; try done; cbn; try lia; auto with lia.
  - destruct (zoom_upd (fun p => p <| state := SLEEPING |>) q [Lptable] s Hq) as (s' & H1 & H2 & H3).
    eexists s', _. split_and!; try done; cbn; try lia; auto with lia.
  - eexists _, q. unfold zoom. rewrite (sched_checks_ok i q); [|done|done| |done].
    2: { rewrite Hsl by lia. done. }
    split; [reflexivity|]. split; [apply keeps_table; cbn; [done..|apply length_insert]|].
    cbn. split_and!; try done; try lia; auto with lia.
  - destruct (zoom_lock (release Lptable) [Lptable] [] s) as (s' & H1 & H2 & H3);
      [apply release_top; set_solver|].
    exists s', q. rewrite H3. split_and!; try done; try lia; auto with lia.
Qed.

(** Step [b] of the waker. *)
Lemma waker_does b x q s :
  waker_code !! b = Some x -> procs (tbl s) !! i = Some q -> (b = 3%nat -> asleep_on c q) ->
  exists s' q', x (waker_locks b) s = Ok tt (waker_locks (S b)) s' /\
    keeps (s <| cond := cond s || (b =? 1)%nat |>) s' /\ procs (tbl s') !! i = Some q' /\
    (b = 3%nat -> state q' = RUNNABLE /\ chan q' = chan q) /\ (b <> 3%nat -> q' = q).
Proof.
  intros Hx Hq Hsl.
  destruct b as [|[|[|[|[|[|b]]]]]]; [..|done]; injection Hx as <-; cbn [waker_locks].
  - exists s, q. rewrite acquire_free by set_solver. rewrite orb_false_r.
    split_and!; try done; lia.
  - eexists _, q. split; [reflexivity|]. rewrite orb_true_r. split_and!; try done; lia.
  - destruct (zoom_lock (acquire Lptable) [lk] [Lptable; lk] s) as (s' & H1 & [] & H3);
      [apply acquire_free; set_solver|].
    exists s', q. rewrite H3, orb_false_r. split_and!; try done; lia.
  - eexists _, _. split; [reflexivity|]. rewrite orb_false_r. split; [by split|].
    split; [cbn; rewrite list_lookup_fmap, Hq; reflexivity|]. split; [|done]. intros _.
    by rewrite wake_one_asleep by auto.
  - destruct (zoom_lock (release Lptable) [Lptable; lk] [lk] s) as (s' & H1 & [] & H3);
      [apply release_top; set_solver|].
    exists s', q. rewrite H3, orb_false_r. split_and!; try done; lia.
  - exists s, q. rewrite release_top by set_solver. rewrite orb_false_r.
    split_and!; try done; lia.
Qed.

(** When the locks the waker takes are free. *)
Lemma lk_free a : waiter_locks a ## [lk] -> (2 <= a)%nat.
Proof.
  intros H. destruct a as [|[|a]]; [| |lia]; exfalso; apply (H lk); cbn; rewrite ?elem_of_cons; auto.
Qed.

Lemma table_free a : (2 <= a <= 8)%nat -> Lptable ∉ waiter_locks a -> a = 8%nat.
Proof.
  intros Ha H. destruct a as [|[|[|[|[|[|[|[|[|a]]]]]]]]]; try lia; exfalso; apply H; apply list_elem_of_here.
Qed.

Lemma drop_code {A} (l : list A) n x r : x :: r = drop n l -> l !! n = Some x /\ r = drop (S n) l.
Proof.
  intros H. assert (Hx : l !! n = Some x) by (by rewrite <- (Nat.add_0_r n), <- lookup_drop, <- H).
  split; [done|]. rewrite (drop_S _ _ _ Hx) in H. by injection H.
Qed.

Lemma start_at_steps p s : running i p (tbl s) -> cond s = false -> at_steps 0 0 (start s).
Proof.
  intros [] Hc. split; try done; try lia. exists p. split_and!; try done; lia.
Qed.

Lemma others_at_steps a b x y : at_steps a b x -> others x y -> at_steps a b y.
Proof.
  intros H Ho. destruct Ho as [w k s t Hp Hc Hcpu Hl]. destruct H. split; try done; cbn in *.
  - by rewrite Hc.
  - by rewrite Hcpu, Hl.
  - by rewrite Hp.
Qed.

(** Either processor's step keeps the invariant: the waker cannot take [lk]
    before the waiter has let it go, nor [ptable.lock] before the waiter is
    asleep. *)
Lemma act_at_steps a b x y :
  at_steps a b x -> act x y -> at_steps (S a) b y \/ at_steps a (S b) y.
Proof.
  intros H Hact. destruct Hact as [l m r l' s s' k Hm Hd|w l m r l' s s' Hm Hd];
    destruct H as [Ha Hb Hw Hk Hcond Hcur Hcpu (q & Hq & Hrun & Hch & Hsl & Hrn) Hl Ht];
    cbn [waiter waker mach] in *.
  - left. injection Hw as -> Hr. apply drop_code in Hr as [Hx ->].
    pose proof (lookup_lt_Some _ _ _ Hx) as Hlt. unfold waiter_code, sleep_steps in Hlt.
    rewrite decide_True in Hlt by done. cbn in Hlt.
    destruct (waiter_does a m q s Hx) as (s1 & q1 & H1 & [] & H3 & H4 & H5 & H6); try done.
    { intros. apply Hsl; lia. }
    rewrite H1 in Hm. injection Hm as <- <-. split; cbn in *; try congruence; try lia.
    exists q1. split_and!; try done; intros; [apply H5; lia|lia].
  - right. injection Hk as -> Hr. apply drop_code in Hr as [Hx ->].
    pose proof (lookup_lt_Some _ _ _ Hx) as Hlt. cbn in Hlt.
    destruct (waker_does b m q s Hx) as (s1 & q1 & H1 & [] & H3 & H4 & H5); [done| |].
    { intros ->. split; [apply Hsl|apply Hch]; lia. }
    rewrite H1 in Hm. injection Hm as <- <-. rewrite Hw in Hd. cbn in Hd.
    assert (Hl' : (1 <= S b -> 2 <= a)%nat).
    { intros _. destruct b; [by apply lk_free|apply Hl; lia]. }
    assert (Ht' : (3 <= S b)%nat -> a = 8%nat).
    { intros Hb3. destruct (decide (b = 2%nat)) as [->|]; [|apply Ht; lia].
      apply table_free; [split; [apply Hl'|]; lia|]. intros Hin. apply (Hd Lptable Hin).
      apply list_elem_of_here. }
    split; cbn in *; try congruence; try lia.
    + rewrite kp_cond0, Hcond. destruct b as [|[|[|b]]]; done.
    + exists q1. split; [done|]. destruct (decide (b = 3%nat)) as [->|Hne].
      * destruct (H4 eq_refl) as [Hs Hc']. rewrite Hs, Hc'. split_and!; try done; lia.
      * rewrite (H5 Hne). split_and!; try done; intros; [apply Hsl|apply Hrn]; lia.
Qed.

Lemma reachable_at_steps p s y :
  running i p (tbl s) -> cond s = false -> rtc step (start s) y -> exists a b, at_steps a b y.
Proof.
  intros Hr Hc. revert y. apply (rtc_ind_r (fun y => exists a b, at_steps a b y)).
  { exists 0%nat, 0%nat. by eapply start_at_steps. }
  intros x z _ [Hs|Hs] (a & b & H).
  - destruct (act_at_steps a b x z H Hs); eauto.
  - exists a, b. by eapply others_at_steps.
Qed.

(** There is always a processor that can go on. *)
Lemma waiter_can a b : (a < 8)%nat -> ((1 <= b)%nat -> (2 <= a)%nat) -> (b < 3)%nat ->
  waiter_locks (S a) ## waker_locks b.
Proof.
  intros Ha Hl Hb z Hz1 Hz2. destruct b as [|[|[|b]]]; [by apply elem_of_nil in Hz2| | |lia];
    apply list_elem_of_singleton in Hz2 as ->; specialize (Hl ltac:(lia));
    destruct a as [|[|[|[|[|[|[|[|a]]]]]]]]; try lia; cbn in Hz1;
    first [by apply elem_of_nil in Hz1|by apply list_elem_of_singleton in Hz1].
Qed.

Lemma at_steps_progress a b x :
  at_steps a b x -> a = 8%nat /\ b = 6%nat \/ exists y, act x y.
Proof.
  intros [Ha Hb Hw Hk Hcond Hcur Hcpu (q & Hq & Hrun & Hch & Hsl & Hrn) Hl Ht].
  destruct x as [w k s]. cbn [waiter waker mach] in *. subst w k. destruct (decide (a = 8%nat)) as [->|Hne].
  - destruct (decide (b = 6%nat)) as [->|Hnb]; [by left|right].
    destruct (lookup_lt_is_Some_2 waker_code b) as [m Hm]; [cbn; lia|].
    destruct (waker_does b m q s Hm) as (s' & q' & H1 & _); [done| |].
    { intros ->. split; [apply Hsl|apply Hch]; lia. }
    eexists. rewrite (drop_S _ _ _ Hm). eapply act_waker; [exact H1|]. intros z Hz. by apply elem_of_nil in Hz.
  - right. destruct (lookup_lt_is_Some_2 waiter_code a) as [m Hm].
    { unfold waiter_code, sleep_steps. rewrite decide_True by done. cbn. lia. }
    assert (Hb3 : (b < 3)%nat) by (destruct (decide (3 <= b)%nat) as [H3|]; [by apply Ht in H3|lia]).
    destruct (waiter_does a m q s Hm) as (s' & q' & H1 & _); try done.
    { intros. apply Hsl; lia. }
    eexists. rewrite (drop_S _ _ _ Hm). eapply act_waiter; [exact H1|]. apply waiter_can; [lia|done|done].
Qed.

(** Both processors have done all their steps. *)
Definition finished (x : config) : Prop := todo (waiter x) = [] /\ todo (waker x) = [].

Lemma at_steps_finished x : at_steps 8 6 x -> finished x.
Proof.
  intros H. split; [rewrite (as_waiter _ _ _ H)|by rewrite (as_waker _ _ _ H)].
  unfold waiter_code, sleep_steps. by rewrite decide_True.
Qed.

Lemma finished_at_steps a b x : at_steps a b x -> finished x -> a = 8%nat /\ b = 6%nat.
Proof.
  intros H [H1 H2]. rewrite (as_waiter _ _ _ H) in H1. rewrite (as_waker _ _ _ H) in H2.
  pose proof (as_a _ _ _ H). pose proof (as_b _ _ _ H).
  apply (f_equal length) in H1, H2. cbn [todo] in *. rewrite length_drop in H1, H2.
  unfold waiter_code, sleep_steps in H1. rewrite decide_True in H1 by done. cbn in H1, H2. lia.
Qed.

Lemma at_steps_finishes n a b x :
  at_steps a b x -> (14 <= a + b + n)%nat -> exists y, rtc act x y /\ finished y.
Proof.
  revert a b x. induction n as [|n IH]; intros a b x H Hn;
    destruct (at_steps_progress a b x H) as [[-> ->]|[y Hy]];
    try (exists x; split; [constructor|by apply at_steps_finished]).
  - pose proof (as_a _ _ _ H). pose proof (as_b _ _ _ H).
    assert (a = 8 /\ b = 6)%nat as [-> ->] by lia.
    exists x. split; [constructor|by apply at_steps_finished].
  - destruct (act_at_steps a b x y H Hy) as [H'|H'].
    + destruct (IH _ _ _ H' ltac:(lia)) as (z & Hz & Hf). exists z. split; [by eapply rtc_l|done].
    + destruct (IH _ _ _ H' ltac:(lia)) as (z & Hz & Hf). exists z. split; [by eapply rtc_l|done].
Qed.

(** C16: a process that has found its condition false and calls [sleep] with
    the condition lock held loses no wakeup, however its steps interleave with
    those of a processor that takes the lock, makes the condition true and
    calls [wakeup], and with whatever others do to other processes.  If the
    process is asleep although the condition is true, the [wakeup1] for it is
    still to come; the two never block each other for good; and when both are
    through, the condition is true and the process is runnable. *)
Theorem no_lost_wakeup p s y (Hr : running i p (tbl s)) (Hc : cond s = false)
    (Hy : rtc step (start s) y) :
  (forall q, procs (tbl (mach y)) !! i = Some q -> asleep_on c q -> cond (mach y) = true ->
    zoom tbl (wakeup1 c) ∈ todo (waker y)) /\
  (exists z, rtc act y z /\ finished z) /\
  (finished y -> cond (mach y) = true /\
    exists q, procs (tbl (mach y)) !! i = Some q /\ state q = RUNNABLE).
Proof.
  destruct (reachable_at_steps p s y Hr Hc Hy) as (a & b & H). split_and!.
  - intros q Hq [Hs _] _. destruct (as_proc _ _ _ H) as (q' & Hq' & _ & _ & _ & Hrn).
    rewrite Hq in Hq'. injection Hq' as <-. rewrite (as_waker _ _ _ H).
    destruct (decide (4 <= b)%nat) as [Hb|Hb]; [rewrite Hrn in Hs by done; done|].
    destruct b as [|[|[|[|b]]]]; [..|lia]; cbn; rewrite !elem_of_cons; tauto.
  - apply (at_steps_finishes 14 a b); [done|lia].
  - intros [-> ->]%(finished_at_steps a b y H). split; [apply (as_cond _ _ _ H)|].
    destruct (as_proc _ _ _ H) as (q & Hq & _ & _ & _ & Hrn). exists q. split; [done|]. apply Hrn. lia.
Qed.
End wakeup.

(** A process on the only processor waits for the clock; some interleaving
    runs to the end and leaves it runnable. *)
Lemma no_lost_wakeup_witness :
  exists z, rtc act (start 7 Ltickslock O (mkShared (machine [runner]) false)) z /\ finished z /\
    exists q, procs (tbl (mach z)) !! O = Some q /\ state q = RUNNABLE.
Proof.
  assert (Hne : Ltickslock <> Lptable) by done.
  destruct (no_lost_wakeup 7 Ltickslock O Hne runner (mkShared (machine [runner]) false) _
    running_machine eq_refl (rtc_refl _ _)) as (_ & (z & Hz & Hf) & _).
  exists z. split; [exact Hz|]. split; [exact Hf|].
  destruct (no_lost_wakeup 7 Ltickslock O Hne runner (mkShared (machine [runner]) false) z
    running_machine eq_refl) as (_ & _ & H); [|exact (proj2 (H Hf))].
  eapply rtc_subrel; [|exact Hz]. intros x y Hxy. by left.
Defined.

End Wakeup.
