(* ===== verification/Sched.v ===== *)
(** The scheduler (proc.c [findPriority] and [scheduler], vm.c [switchuvm] and
    [switchkvm]): selection by priority, the rotating queues of the
    multi-level policy, and one round of the scheduler loop. *)

From stdpp Require Import base numbers list sets strings.
From Stdlib Require Import ZArith Lia.
From S2P Require Import Prelude Mem CString Mmu Seg Kalloc Param Proc ProcSpec.
Import CString Mmu Seg Kalloc Param Proc ProcSpec.

Module Sched.

(** *** Selection by priority *)

(** [if (selectedP == 0) selectedP = p; if (worse selectedP p) selectedP = p;] *)
Definition fp_better (worse : proc -> proc -> bool) (sel : option (nat * proc)) (i : nat) (p : proc)
    : option (nat * proc) :=
  let s := default (i, p) sel in
  Some (if worse s.2 p then (i, p) else s).

(** Body of the loop of [findPriority] on slot [i]. *)
Definition fp_step (mode : Z) (sel : option (nat * proc)) (i : nat) (p : proc)
    : option (nat * proc) :=
  if bool_decide (state p <> RUNNABLE) then sel else
  let sel :=
    if (mode =? 1) && (queueNumber p =? QUEUE_PRIORITY) then
      fp_better (fun s p => priority s >? priority p) sel i p
    else if (mode =? 2) && (queueNumber p =? QUEUE_PRIORITY_REVERSE) then
      fp_better (fun s p => priority s <? priority p) sel i p
    else if mode =? 3 then
      fp_better (fun s p => priority s >? priority p) sel i p
    else sel in
  match sel with
  | Some (j, s) =>
      if (priority s =? priority p) && (scheduled_times s >? scheduled_times p) then Some (i, p)
      else sel
  | None => None
  end.

Fixpoint fp_loop (mode : Z) (ps : list proc) (i : nat) (sel : option (nat * proc))
    : option (nat * proc) :=
  match ps with
  | [] => sel
  | p :: r => fp_loop mode r (S i) (fp_step mode sel i p)
  end.

Definition findPriority (mode : Z) (ps : list proc) : option nat :=
  fst <$> fp_loop mode ps 0 None.

(** *** Switching address spaces *)

Section sched.
(** [&mycpu()->ts], and the switch to a process: it returns when the process
    switches back to the scheduler. *)
Variables (ts_addr : Z) (swtch_to : nat -> K pstate unit).

Definition sizeof_taskstate : Z := 104.

Definition switchuvm (po : option nat) : K pstate unit :=
  match po with
  | None => panic "switchuvm: no process"
  | Some i =>
      p ← get_proc i;
      if kstack p =? 0 then panic "switchuvm: no kstack"
      else if pgdir p =? 0 then panic "switchuvm: no pgdir"
      else
        gd ← gets gdt;
        gd' ← deref "gdt" (aset gd SEG_TSS
          ((SEG16 STS_T32A ts_addr (sizeof_taskstate - 1) 0) <| sd_s := 0 |>));
        modify (fun s => s <| gdt := gd' |>) ;;
        modify (fun s => s <| ts ::= fun t =>
          t <| ss0 := Z.shiftl SEG_KDATA 3 |> <| esp0 := u32 (kstack p + KSTACKSIZE) |>
            <| iomb := 0xFFFF |> |>) ;;
        modify (fun s => s <| tr := Z.shiftl SEG_TSS 3 |>) ;;
        modify (fun s => s <| cr3 := V2P (pgdir p) |>)
  end.

Definition switchkvm : K pstate unit :=
  modify (fun s => s <| cr3 := V2P (kpgdir s) |>).

(** *** The scheduler *)

(** The assignments to a process that starts a slice at tick [t]; the default
    policy is the only one that does not count it. *)
Definition start_slice (count : bool) (t : Z) (p : proc) : proc :=
  p <| ready_time := i32 (ready_time p + (t - last_time p)) |>
    <| state := RUNNING |> <| last_time := i32 t |>
    <| scheduled_times ::= fun n => if count then i32 (n + 1) else n |>.

(** The block that runs a selected process. *)
Definition run_proc (count : bool) (i : nat) : K pstate unit :=
  modify (fun s => s <| curproc := Some i |>) ;;
  switchuvm (Some i) ;;
  t ← gets ticks;
  upd_proc i (start_slice count t) ;;
  swtch_to i ;;
  switchkvm ;;
  modify (fun s => s <| curproc := None |>).

(** [if (p != 0 && p->state == RUNNABLE)], then run it. *)
Definition run_if_runnable (count : bool) (i : nat) : K pstate unit :=
  p ← get_proc i;
  if bool_decide (state p = RUNNABLE) then run_proc count i else mret tt.

(** Entries the rotation drops: dead processes and those moved elsewhere. *)
Definition dropped (p : proc) : bool :=
  bool_decide (state p = UNUSED) || bool_decide (state p = ZOMBIE) ||
  (negb (queueNumber p =? QUEUE_DEFAULT) && negb (queueNumber p =? QUEUE_PRIORITY_RR)).

(** The inner [for (;;)]: takes entries off the front of the ring until one
    is kept, which goes to the rear.  [p] is the variable's value before. *)
Fixpoint rotate (fuel : nat) (nq : Z) (p : option nat) : K pstate (option nat) :=
  match fuel with
  | O => fault "out of fuel"
  | S n =>
      x ← get_queue nq;
      if size x =? 0 then mret p else
      e ← deref "queue.array" (aget (array x) (front x));
      let x1 := x <| front := Z.rem (i32 (front x + 1)) NPROC |> in
      put_queue nq x1 ;;
      i ← deref "p->state" e;
      pr ← get_proc i;
      if dropped pr then
        put_queue nq (x1 <| size ::= fun k => i32 (k - 1) |>) ;;
        rotate n nq (Some i)
      else
        let r := Z.rem (i32 (rear x1 + 1)) NPROC in
        a ← deref "queue.array" (aset (array x1) r (Some i));
        put_queue nq (x1 <| rear := r |> <| array := a |>) ;;
        mret (Some i)
  end.

(** The loop over the four queues, from the one after this CPU's last. *)
Fixpoint mlq_loop (fuel : nat) (offs : list Z) (p : option nat) : K pstate unit :=
  match offs with
  | [] => mret tt
  | o :: r =>
      c ← gets cpu;
      lq ← gets lastQueue;
      last ← deref "lastQueue" (aget lq c);
      let nq := Z.rem (i32 (last + o)) 4 in
      x ← get_queue nq;
      if size x =? 0 then mlq_loop fuel r p else
      p' ← (if (nq =? QUEUE_DEFAULT) || (nq =? QUEUE_PRIORITY_RR) then rotate fuel nq p
            else
              ps ← gets procs;
              match findPriority (if nq =? QUEUE_PRIORITY then 1 else 2) ps with
              | Some i => run_proc true i ;; mret p
              | None => mret p
              end);
      match p' with
      | Some i => run_if_runnable true i
      | None => mret tt
      end ;;
      mlq_loop fuel r p'
  end.

(** One iteration of the outer [for (;;)]. *)
Definition scheduler_round (fuel : nat) : K pstate unit :=
  acquire Lptable ;;
  pol ← gets policy;
  (if pol =? POLICY_PRIORITY then
     ps ← gets procs;
     match findPriority 3 ps with
     | Some i => run_proc true i
     | None => mret tt
     end
   else if pol =? POLICY_MLQ then mlq_loop fuel [1; 2; 3; 4] None
   else
     ps ← gets procs;
     kiter (run_if_runnable false) (seq 0 (length ps))) ;;
  release Lptable.
End sched.

(** *** findPriority selects an optimal process *)

(** The processes a mode is meant to choose from, and when one is preferred:
    lower priority values first, higher first in mode 2, then fewer slices. *)
Definition eligible (mode : Z) (p : proc) : Prop :=
  state p = RUNNABLE /\
  ((mode = 1 /\ queueNumber p = QUEUE_PRIORITY) \/
   (mode = 2 /\ queueNumber p = QUEUE_PRIORITY_REVERSE) \/ mode = 3).

Definition key (mode : Z) (p : proc) : Z := if mode =? 2 then - priority p else priority p.

Definition better (mode : Z) (q s : proc) : Prop :=
  key mode q < key mode s \/
  (priority q = priority s /\ scheduled_times q < scheduled_times s).

Record fp_inv (mode : Z) (ps : list proc) (j : nat) (s : proc) : Prop := {
  fp_at : ps !! j = Some s;
  fp_runnable : state s = RUNNABLE;
  fp_best : forall k q, ps !! k = Some q -> eligible mode q -> ~ better mode q s;
  fp_first : forall k q, (k < j)%nat -> ps !! k = Some q -> eligible mode q -> better mode s q;
  fp_class : eligible mode s \/
    exists k c, ps !! k = Some c /\ eligible mode c /\ priority c = priority s /\
      scheduled_times s < scheduled_times c
}.

Definition fp_ok (mode : Z) (ps : list proc) (sel : option (nat * proc)) : Prop :=
  match sel with
  | None => Forall (fun p => ~ eligible mode p) ps
  | Some (j, s) => fp_inv mode ps j s
  end.

Lemma fp_loop_snoc mode ps p i sel :
  fp_loop mode (ps ++ [p]) i sel =
    fp_step mode (fp_loop mode ps i sel) (i + length ps) p.
Proof.
  revert i sel. induction ps as [|x ps IH]; intros i sel; simpl.
  - by rewrite Nat.add_0_r.
  - rewrite IH. f_equal. lia.
Qed.

Lemma better_trans mode a b c : better mode a b -> better mode b c -> better mode a c.
Proof. unfold better, key. destruct (mode =? 2); lia. Qed.

Lemma better_below mode q s p : ~ better mode q s -> better mode p s -> better mode p q.
Proof. unfold better, key. destruct (mode =? 2); lia. Qed.

(** The selection stays as it is when the new process is not preferred. *)
Lemma fp_inv_keep mode ps j s p :
  fp_inv mode ps j s -> (eligible mode p -> ~ better mode p s) -> fp_inv mode (ps ++ [p]) j s.
Proof.
  intros [Ha Hr Hb Hf Hc] Hp. pose proof (lookup_lt_Some _ _ _ Ha). split.
  - by apply lookup_app_l_Some.
  - done.
  - intros k q [Hk|[_ [_ ->]%list_lookup_singleton_Some]]%lookup_app_Some; eauto.
  - intros k q Hk Hq. rewrite lookup_app_l in Hq by lia. eauto.
  - destruct Hc as [?|(k & c & Hk & Hc)]; [by left|right]. exists k, c.
    split; [by apply lookup_app_l_Some|done].
Qed.

(** A new process that is preferred to the selection replaces it. *)
Lemma fp_inv_replace mode ps j s p :
  fp_inv mode ps j s -> state p = RUNNABLE -> better mode p s ->
  (eligible mode p \/ (priority p = priority s /\ scheduled_times p < scheduled_times s)) ->
  fp_inv mode (ps ++ [p]) (length ps) p.
Proof.
  intros [Ha Hr Hb Hf Hc] Hp Hbt He. split.
  - by apply list_lookup_middle.
  - done.
  - intros k q [Hk|[_ [_ ->]%list_lookup_singleton_Some]]%lookup_app_Some Hq Hbq.
    + apply (Hb k q Hk Hq). by eapply better_trans.
    + unfold better, key in Hbq. destruct (mode =? 2); lia.
  - intros k q Hk Hq Hel. rewrite lookup_app_l in Hq by lia.
    eapply better_below; [|exact Hbt]. eauto.
  - destruct He as [He|[Hpr Hst]]; [by left|]. right.
    destruct Hc as [Hc|(k & c & Hk & Hc & Hpc & Hsc)].
    + exists j, s. split; [by apply lookup_app_l_Some|]. split; [done|lia].
    + exists k, c. split; [by apply lookup_app_l_Some|]. split; [done|lia].
Qed.

(** The tie-break at the end of the loop body. *)
Definition fp_tie (sel : option (nat * proc)) (i : nat) (p : proc) : option (nat * proc) :=
  match sel with
  | Some (j, s) =>
      if (priority s =? priority p) && (scheduled_times s >? scheduled_times p) then Some (i, p)
      else sel
  | None => None
  end.

Lemma fp_tie_ok mode ps j s p :
  fp_inv mode ps j s -> state p = RUNNABLE -> (eligible mode p -> ~ key mode p < key mode s) ->
  fp_ok mode (ps ++ [p]) (fp_tie (Some (j, s)) (length ps) p).
Proof.
  intros Hi Hr Hk. unfold fp_tie.
  destruct (Z.eqb_spec (priority s) (priority p)); simpl.
  1: destruct (Z.gtb_spec (scheduled_times s) (scheduled_times p)).
  - eapply fp_inv_replace; [done|done| |]; [right|right]; lia.
  - apply fp_inv_keep; [done|]. intros He Hb. specialize (Hk He). unfold better in Hb. lia.
  - apply fp_inv_keep; [done|]. intros He Hb. specialize (Hk He). unfold better in Hb. lia.
Qed.

(** One step, for the comparison the mode uses. *)
Lemma fp_better_ok mode worse ps sel p :
  fp_ok mode ps sel -> eligible mode p ->
  (forall s, worse s p = true <-> key mode p < key mode s) ->
  fp_ok mode (ps ++ [p]) (fp_tie (fp_better worse sel (length ps) p) (length ps) p).
Proof.
  intros Hok He Hw. unfold fp_better. destruct sel as [[j s]|]; simpl in *.
  - destruct (worse s p) eqn:E.
    + apply Hw in E. simpl. rewrite Z.eqb_refl, Z.gtb_ltb, Z.ltb_irrefl. simpl.
      eapply fp_inv_replace; [done|apply He|by left|by left].
    + apply fp_tie_ok; [done|apply He|]. intros _ Hk%Hw. congruence.
  - assert (worse p p = false) as ->.
    { destruct (worse p p) eqn:E; [apply Hw in E; lia|done]. }
    simpl. rewrite Z.eqb_refl, Z.gtb_ltb, Z.ltb_irrefl. simpl.
    rewrite Forall_forall in Hok.
    assert (Hno : forall k q, ps !! k = Some q -> ~ eligible mode q).
    { intros k q Hq. apply Hok. by eapply list_elem_of_lookup_2. }
    split; [by apply list_lookup_middle|apply He| | |by left].
    + intros k q [Hk|[_ [_ ->]%list_lookup_singleton_Some]]%lookup_app_Some Hq; [naive_solver|].
      unfold better. lia.
    + intros k q Hk Hq Hel. rewrite lookup_app_l in Hq by lia. naive_solver.
Qed.

Lemma fp_step_ok mode ps sel p :
  mode = 1 \/ mode = 2 \/ mode = 3 ->
  fp_ok mode ps sel -> fp_ok mode (ps ++ [p]) (fp_step mode sel (length ps) p).
Proof.
  intros Hm Hok. unfold fp_step. destruct (bool_decide (state p <> RUNNABLE)) eqn:Er.
  { apply bool_decide_eq_true in Er. destruct sel as [[j s]|]; simpl in *.
    - apply fp_inv_keep; [done|]. by intros [? _].
    - apply Forall_app. split; [done|]. constructor; [|done]. by intros [? _]. }
  apply bool_decide_eq_false, dec_stable in Er.
  assert (Hskip : ~ eligible mode p -> fp_ok mode (ps ++ [p]) (fp_tie sel (length ps) p)).
  { intros Hne. destruct sel as [[j s]|]; [by apply fp_tie_ok|].
    apply Forall_app. split; [done|]. by constructor. }
  fold (fp_tie (if (mode =? 1) && (queueNumber p =? QUEUE_PRIORITY) then
      fp_better (fun s p => priority s >? priority p) sel (length ps) p
    else if (mode =? 2) && (queueNumber p =? QUEUE_PRIORITY_REVERSE) then
      fp_better (fun s p => priority s <? priority p) sel (length ps) p
    else if mode =? 3 then
      fp_better (fun s p => priority s >? priority p) sel (length ps) p
    else sel) (length ps) p).
  unfold eligible in *. destruct Hm as [-> | [-> | ->]]; cbn -[fp_tie fp_better fp_ok QUEUE_PRIORITY QUEUE_PRIORITY_REVERSE].
  - destruct (Z.eqb_spec (queueNumber p) QUEUE_PRIORITY).
    + apply fp_better_ok; [done|by split; [|left]|]. intros s. unfold key. simpl. lia.
    + apply Hskip. naive_solver.
  - destruct (Z.eqb_spec (queueNumber p) QUEUE_PRIORITY_REVERSE).
    + apply fp_better_ok; [done|by split; [|right; left]|]. intros s. unfold key. simpl. lia.
    + apply Hskip. naive_solver.
  - apply fp_better_ok; [done|by split; [|right; right]|]. intros s. unfold key. simpl. lia.
Qed.

Lemma fp_loop_ok mode ps :
  mode = 1 \/ mode = 2 \/ mode = 3 -> fp_ok mode ps (fp_loop mode ps 0 None).
Proof.
  intros Hm. induction ps as [|p ps IH] using rev_ind; [by constructor|].
  rewrite fp_loop_snoc. by apply fp_step_ok.
Qed.

(** [findPriority] finds nothing exactly when no process is eligible for the
    mode; otherwise it returns a runnable process to which no eligible one is
    preferred and which is strictly preferred to every eligible one before it
    in the table.  The returned process is itself eligible, or it ties with an
    eligible one in priority and has had fewer slices. *)
Theorem findPriority_optimal mode ps (Hm : mode = 1 \/ mode = 2 \/ mode = 3) :
  match findPriority mode ps with
  | None => Forall (fun p => ~ eligible mode p) ps
  | Some j => exists s, fp_inv mode ps j s
  end.
Proof.
  unfold findPriority. pose proof (fp_loop_ok mode ps Hm) as H.
  destruct (fp_loop mode ps 0 None) as [[j s]|]; simpl in *; [by exists s|done].
Qed.

(** C34: Mode 3, the priority policy: the result is the least runnable process by
    (priority, slices), the first in the table among equals. *)
Theorem findPriority_lex ps j :
  findPriority 3 ps = Some j <->
  exists s, ps !! j = Some s /\ state s = RUNNABLE /\
    forall k q, ps !! k = Some q -> state q = RUNNABLE -> k <> j ->
      priority s < priority q \/
      (priority s = priority q /\ (scheduled_times s < scheduled_times q \/
        (scheduled_times s = scheduled_times q /\ (j < k)%nat))).
Proof.
  pose proof (fp_loop_ok 3 ps ltac:(by right; right)) as H. unfold findPriority.
  assert (Hel : forall q, state q = RUNNABLE -> eligible 3 q) by (intros; split; auto).
  assert (Hspec : forall i s, fp_inv 3 ps i s -> forall k q, ps !! k = Some q ->
    state q = RUNNABLE -> k <> i -> priority s < priority q \/
      (priority s = priority q /\ (scheduled_times s < scheduled_times q \/
        (scheduled_times s = scheduled_times q /\ (i < k)%nat)))).
  { intros i s [Ha Hr Hb Hf _] k q Hk Hq Hne.
    pose proof (Hb k q Hk (Hel q Hq)) as H1. unfold better, key in *. simpl in *.
    destruct (decide (k < i)%nat) as [Hlt|Hge]; [|lia].
    pose proof (Hf k q Hlt Hk (Hel q Hq)). lia. }
  destruct (fp_loop 3 ps 0 None) as [[i s]|]; simpl in *.
  - split.
    + intros [= <-]. exists s. destruct H as [Ha Hr]. eauto using fp_inv.
    + intros (s' & Hs' & Hr' & Hmin). f_equal. destruct (decide (i = j)) as [|Hne]; [done|].
      pose proof (Hmin i s (fp_at _ _ _ _ H) (fp_runnable _ _ _ _ H) Hne).
      pose proof (Hspec i s H j s' Hs' Hr' ltac:(done)). lia.
  - split; [done|]. intros (s & Hs & Hr & _). rewrite Forall_forall in H.
    exfalso. apply (H s); [by eapply list_elem_of_lookup_2|auto].
Qed.

(** The tie-break ignores the queue: in mode 1 a process of queue 0 is taken
    although a runnable process of queue 1 is waiting. *)
Theorem findPriority_leaves_queue :
  exists ps j s, findPriority 1 ps = Some j /\ ps !! j = Some s /\
    queueNumber s = QUEUE_DEFAULT /\
    exists q, q ∈ ps /\ state q = RUNNABLE /\ queueNumber q = QUEUE_PRIORITY.
Proof.
  set (p0 := blank_proc <| state := RUNNABLE |> <| priority := 3 |>).
  set (p1 := p0 <| queueNumber := QUEUE_PRIORITY |> <| scheduled_times := 2 |>).
  exists [p1; p0], 1%nat, p0. split; [reflexivity|]. split; [done|]. split; [done|].
  exists p1. split; [set_solver|done].
Qed.



(** *** The rotating queues *)

(** What one rotation does to the list of queued processes: the dropped
    entries at the front are gone, the first one kept moves to the rear. *)
Fixpoint rot (drop : nat -> bool) (l : list nat) : option nat * list nat :=
  match l with
  | [] => (None, [])
  | i :: r => if drop i then rot drop r else (Some i, r ++ [i])
  end.

(** A slot whose process the rotation drops. *)
Definition drop_slot (ps : list proc) (i : nat) : bool :=
  match ps !! i with Some p => dropped p | None => false end.

(** Moving the oldest entry of a ring to its rear, the size left alone. *)
Lemma ring_rep_rotate q i l :
  ring_rep q (i :: l) ->
  let q1 := q <| front := Z.rem (i32 (front q + 1)) NPROC |> in
  let r := Z.rem (i32 (rear q1 + 1)) NPROC in
  exists a, aset (array q1) r (Some i) = Some a /\
    ring_rep (q1 <| rear := r |> <| array := a |>) (l ++ [i]).
Proof.
  intros H q1 r. destruct (ring_rep_deq q i l H) as [_ Hd].
  pose proof (rr_size _ _ H) as Hs. pose proof (rr_bound _ _ H) as Hb. simpl in Hs, Hb.
  destruct (ring_rep_enq _ _ i Hd) as (a & Ha & He); [lia|].
  exists a. split; [exact Ha|].
  replace (q1 <| rear := r |> <| array := a |>) with
    (q <| front := Z.rem (i32 (front q + 1)) NPROC |> <| size ::= fun n => i32 (n - 1) |>
       <| rear := r |> <| array := a |> <| size ::= fun n => i32 (n + 1) |>); [exact He|].
  cbn. f_equal. rewrite (i32_small (size q - 1)), i32_small; unfold NPROC in *; lia.
Qed.

(** The rotation of a ring of valid entries ends, with one turn of fuel per
    entry and one more, and leaves the ring that [rot] describes.  It yields
    the kept process, or the last one it dropped when none is left. *)
Lemma rotate_spec fuel nq p x l L s :
  aget (schedulingQueues s) nq = Some x -> ring_rep x l ->
  Forall (fun i => is_Some (procs s !! i)) l -> (length l < fuel)%nat ->
  exists x', ring_rep x' (rot (drop_slot (procs s)) l).2 /\
    rotate fuel nq p L s =
      Ok (match (rot (drop_slot (procs s)) l).1 with
          | Some i => Some i
          | None => match last l with Some i => Some i | None => p end
          end) L
        (s <| schedulingQueues ::= fun qs => <[Z.to_nat nq := x']> qs |>).
Proof.
  revert fuel p x s. induction l as [|i l IH]; intros fuel p x s Hq Hr Hv Hf;
    (destruct fuel as [|fuel]; [simpl in Hf; lia|]); simpl; kstep.
  { pose proof (rr_size _ _ Hr) as Hs. simpl in Hs. rewrite Hs. simpl. exists x. split; [done|].
    unfold mret, K_ret. destruct s. cbn in *. do 2 f_equal. symmetry. apply list_insert_id.
    by apply aget_Some in Hq as [_ ?]. }
  pose proof (aget_Some _ _ _ Hq) as [Hqb _].
  apply Forall_cons in Hv as [[pi Hi] Hv].
  destruct (ring_rep_deq x i l Hr) as [Hget Hd].
  pose proof (rr_size _ _ Hr) as Hs. simpl in Hs.
  destruct (Z.eqb_spec (size x) 0) as [Hz|_]; [lia|].
  rewrite Hget. kstep. kstep. kstep. kstep.
  assert (drop_slot (procs s) i = dropped pi) as -> by (unfold drop_slot; by rewrite Hi).
  destruct (dropped pi) eqn:Ed.
  - erewrite bind_Ok by (apply put_queue_ok; cbn; by rewrite length_insert).
    cbn. rewrite list_insert_insert_eq.
    set (x1 := x <| front := Z.rem (i32 (front x + 1)) NPROC |> <| size ::= fun n => i32 (n - 1) |>).
    destruct (IH fuel (Some i) x1 (s <| schedulingQueues ::= fun qs => <[Z.to_nat nq := x1]> qs |>))
      as (x' & Hr' & Hrun); [by apply aget_insert_eq|done|done|simpl in Hf; lia|].
    exists x'. split; [done|]. etransitivity; [exact Hrun|]. cbn.
    rewrite list_insert_insert_eq. f_equal.
    destruct (rot (drop_slot (procs s)) l).1; [done|].
    change (match l with [] => Some i | _ => last l end) with (last (i :: l)).
    rewrite last_cons. by destruct (last l).
  - destruct (ring_rep_rotate x i l Hr) as (a & Ha & Hrr). cbv zeta in Ha, Hrr.
    exists (x <| front := Z.rem (i32 (front x + 1)) NPROC |>
      <| rear := Z.rem (i32 (rear x + 1)) NPROC |> <| array := a |>).
    split; [exact Hrr|]. cbn in Ha |- *. rewrite Ha. kstep.
    erewrite bind_Ok by (apply put_queue_ok; cbn; by rewrite length_insert).
    cbn. by rewrite list_insert_insert_eq.
Qed.

(** [k] rotations of a queue in a row, with what each yields. *)
Fixpoint rotations (k fuel : nat) (nq : Z) : K pstate (list (option nat)) :=
  match k with
  | O => mret []
  | S k' => i ← rotate fuel nq None; r ← rotations k' fuel nq; mret (i :: r)
  end.

Lemma rotations_spec fuel nq l1 l2 x L s :
  aget (schedulingQueues s) nq = Some x -> ring_rep x (l1 ++ l2) ->
  Forall (fun i => exists p, procs s !! i = Some p /\ dropped p = false) (l1 ++ l2) ->
  (length (l1 ++ l2) < fuel)%nat ->
  exists s' x', rotations (length l1) fuel nq L s = Ok (map Some l1) L s' /\
    procs s' = procs s /\ aget (schedulingQueues s') nq = Some x' /\ ring_rep x' (l2 ++ l1).
Proof.
  revert l2 x s. induction l1 as [|i l1 IH]; intros l2 x s Hq Hr Hv Hf; simpl.
  { exists s, x. rewrite app_nil_r. split_and!; done. }
  pose proof Hv as [(p & Hp & Hd) Hv']%Forall_cons. simpl in Hf.
  destruct (rotate_spec fuel nq None x ((i :: l1) ++ l2) L s Hq Hr) as (x1 & Hr1 & Hrun).
  { eapply Forall_impl; [exact Hv|]. intros j (pj & Hj & _). by rewrite Hj. }
  { simpl. lia. }
  assert (drop_slot (procs s) i = false) as Hdi by (unfold drop_slot; by rewrite Hp).
  simpl in Hr1, Hrun. rewrite Hdi in Hr1, Hrun. simpl in Hr1, Hrun.
  erewrite bind_Ok by exact Hrun. rewrite <- app_assoc in Hr1.
  destruct (IH (l2 ++ [i]) x1 (s <| schedulingQueues ::= fun qs => <[Z.to_nat nq := x1]> qs |>))
    as (s' & x' & Hrun' & Hps & Hq' & Hr').
  - apply aget_insert_eq. by apply aget_Some in Hq as [? _].
  - done.
  - rewrite app_assoc. apply Forall_app. split; [done|]. constructor; [|done]. cbn. by exists p.
  - rewrite !length_app in *. simpl. lia.
  - erewrite bind_Ok by exact Hrun'. exists s', x'. split; [done|]. split; [done|].
    split; [done|]. by rewrite <- app_assoc in Hr'.
Qed.

(** C28: Round-robin fairness: if every entry of a rotating queue is alive and
    belongs there, then as many rotations as there are entries pick each one
    once, oldest first, and the queue ends as it began. *)
Theorem rotation_fair fuel nq l x L s
    (Hq : aget (schedulingQueues s) nq = Some x) (Hr : ring_rep x l)
    (Hv : Forall (fun i => exists p, procs s !! i = Some p /\ dropped p = false) l)
    (Hf : (length l < fuel)%nat) :
  exists s' x', rotations (length l) fuel nq L s = Ok (map Some l) L s' /\
    aget (schedulingQueues s') nq = Some x' /\ ring_rep x' l.
Proof.
  destruct (rotations_spec fuel nq l [] x L s) as (s' & x' & H1 & _ & H2 & H3);
    rewrite ?app_nil_r; try done. by exists s', x'.
Qed.

(** *** A round of the scheduler never panics *)

Record sched_inv (s : pstate) : Prop := {
  si_len : length (procs s) = Z.to_nat NPROC;
  si_mem : forall i p, procs s !! i = Some p -> state p = RUNNABLE ->
    kstack p <> 0 /\ pgdir p <> 0;
  si_queues : length (schedulingQueues s) = 4%nat;
  si_rings : forall q, q = QUEUE_DEFAULT \/ q = QUEUE_PRIORITY_RR -> exists x l,
    aget (schedulingQueues s) q = Some x /\ ring_rep x l /\
    Forall (fun i => is_Some (procs s !! i)) l;
  si_last : exists v, aget (lastQueue s) (cpu s) = Some v /\ 0 <= v < 4;
  si_gdt : length (gdt s) = Z.to_nat NSEGS
}.

(** What a process finds when the scheduler switches to it: it is the CPU's
    process and running, on its own page table, and traps from user mode
    enter on its own kernel stack. *)
Record dispatched (i : nat) (s : pstate) : Prop := {
  d_inv : sched_inv s;
  d_cur : curproc s = Some i;
  d_proc : exists p, procs s !! i = Some p /\ state p = RUNNING /\
    cr3 s = V2P (pgdir p) /\ esp0 (ts s) = u32 (kstack p + KSTACKSIZE) /\
    last_time p = i32 (ticks s)
}.

(** The machine after [switchuvm] to process [p]. *)
Definition loaded (ts_addr : Z) (p : proc) (s : pstate) : pstate :=
  s <| gdt ::= fun gd => <[Z.to_nat SEG_TSS :=
         (SEG16 STS_T32A ts_addr (sizeof_taskstate - 1) 0) <| sd_s := 0 |>]> gd |>
    <| ts := mkTs (u32 (kstack p + KSTACKSIZE)) (Z.shiftl SEG_KDATA 3) 0xFFFF |>
    <| tr := Z.shiftl SEG_TSS 3 |> <| cr3 := V2P (pgdir p) |>.

Lemma switchuvm_ok ts_addr i p L s :
  procs s !! i = Some p -> kstack p <> 0 -> pgdir p <> 0 -> length (gdt s) = Z.to_nat NSEGS ->
  switchuvm ts_addr (Some i) L s = Ok tt L (loaded ts_addr p s).
Proof.
  intros Hp Hk Hd Hg. unfold switchuvm. kstep.
  rewrite (proj2 (Z.eqb_neq _ _) Hk), (proj2 (Z.eqb_neq _ _) Hd). kstep.
  rewrite aset_in by (rewrite Hg; unfold SEG_TSS, NSEGS; lia). kstep. by destruct s.
Qed.

(** The machine when the scheduler switches to slot [i]. *)
Definition at_dispatch (ts_addr : Z) (count : bool) (i : nat) (p : proc) (s : pstate) : pstate :=
  (loaded ts_addr p (s <| curproc := Some i |>))
    <| procs ::= fun ps => <[i := start_slice count (ticks s) p]> ps |>.

Lemma at_dispatch_inv ts_addr count i p s :
  sched_inv s -> procs s !! i = Some p -> sched_inv (at_dispatch ts_addr count i p s).
Proof.
  intros [Hlen Hmem Hqs Hrings Hlast Hgdt] Hp. split.
  - change (length (<[i := start_slice count (ticks s) p]> (procs s)) = Z.to_nat NPROC).
    by rewrite length_insert.
  - intros j q. change (<[i := start_slice count (ticks s) p]> (procs s) !! j = Some q ->
      state q = RUNNABLE -> kstack q <> 0 /\ pgdir q <> 0).
    intros [(<- & <- & _)|[_ Hj]]%list_lookup_insert_Some; [done|eauto].
  - done.
  - intros q Hq. destruct (Hrings q Hq) as (x & l & H1 & H2 & H3). exists x, l.
    split_and!; [done|done|]. eapply Forall_impl; [exact H3|]. intros j [y Hj].
    change (is_Some (<[i := start_slice count (ticks s) p]> (procs s) !! j)).
    apply lookup_lt_is_Some_2. rewrite length_insert. by eapply lookup_lt_Some.
  - done.
  - change (length (<[Z.to_nat SEG_TSS :=
      (SEG16 STS_T32A ts_addr (sizeof_taskstate - 1) 0) <| sd_s := 0 |>]> (gdt s)) = Z.to_nat NSEGS).
    by rewrite length_insert.
Qed.

Lemma at_dispatch_dispatched ts_addr count i p s :
  sched_inv s -> procs s !! i = Some p -> dispatched i (at_dispatch ts_addr count i p s).
Proof.
  intros Hs Hp. split; [by apply at_dispatch_inv|done|].
  exists (start_slice count (ticks s) p). split; [|done].
  apply list_lookup_insert_eq. by eapply lookup_lt_Some.
Qed.

Lemma start_slice_accounted count t p : accounted p -> accounted (start_slice count t p).
Proof.
  intros Ha. apply (accounted_charge p _ t); [done|done|apply i32_eqm|].
  unfold start_slice. cbn. rewrite i32_eqm. apply eqm_eq. lia.
Qed.

Lemma run_proc_dispatches ts_addr swtch_to count i p s :
  sched_inv s -> procs s !! i = Some p -> state p = RUNNABLE ->
  run_proc ts_addr swtch_to count i [Lptable] s =
    (swtch_to i ;; switchkvm ;; modify (fun s => s <| curproc := None |>)) [Lptable]
      (at_dispatch ts_addr count i p s).
Proof.
  intros Hs Hp Hr. destruct (si_mem _ Hs i p Hp Hr) as [Hk Hd].
  unfold run_proc. kstep.
  erewrite bind_Ok by (apply switchuvm_ok; [exact Hp|done|done|apply (si_gdt _ Hs)]). kstep.
  erewrite bind_Ok by (apply upd_proc_ok; exact Hp). done.
Qed.

Lemma sched_inv_slot s i : sched_inv s -> (i < Z.to_nat NPROC)%nat -> exists p, procs s !! i = Some p.
Proof. intros [Hlen _ _ _ _ _] Hi. apply lookup_lt_is_Some_2. by rewrite Hlen. Qed.

Lemma sched_inv_slots s l :
  sched_inv s -> Forall (fun i => is_Some (procs s !! i)) l <->
    Forall (fun i => i < Z.to_nat NPROC)%nat l.
Proof.
  intros Hs. rewrite !Forall_forall. split; intros H i Hi; specialize (H i Hi).
  - rewrite <- (si_len _ Hs). by apply lookup_lt_is_Some_1.
  - destruct (sched_inv_slot s i Hs H) as [p Hp]. by exists p.
Qed.

Lemma rot_sub drop l : (rot drop l).2 ⊆ l.
Proof.
  induction l as [|i l IH]; simpl; [done|]. destruct (drop i); simpl; set_solver.
Qed.

Lemma rot_in drop l i : (rot drop l).1 = Some i -> i ∈ l.
Proof.
  induction l as [|j l IH]; simpl; [done|]. destruct (drop j); simpl; [set_solver|].
  intros [= ->]. set_solver.
Qed.

(** Replacing one rotating queue by another ring of valid slots. *)
Lemma sched_inv_queue s q x l :
  sched_inv s -> 0 <= q < 4 -> ring_rep x l -> Forall (fun i => is_Some (procs s !! i)) l ->
  sched_inv (s <| schedulingQueues ::= fun qs => <[Z.to_nat q := x]> qs |>).
Proof.
  intros [Hlen Hmem Hqs Hrings Hlast Hgdt] Hq Hr Hv.
  split; cbn; rewrite ?length_insert; try done.
  intros q' Hq'. destruct (decide (q' = q)) as [->|Hne].
  - exists x, l. split; [|done]. apply aget_insert_eq. rewrite Hqs. lia.
  - destruct (Hrings q' Hq') as (x' & l' & H1 & H2). exists x', l'.
    split; [|done]. by rewrite aget_insert_ne by lia.
Qed.

Section safety.
Variables (ts_addr : Z) (swtch_to : nat -> K pstate unit) (elsewhere : list nat).

(** The scheduler at work between two processes: this CPU has no process, the
    kernel's page table is loaded, and the processes that run are among
    [elsewhere], those of the other CPUs. *)
Record quiet (s : pstate) : Prop := {
  qt_inv : sched_inv s;
  qt_cur : curproc s = None;
  qt_cr3 : cr3 s = V2P (kpgdir s);
  qt_running : forall j q, procs s !! j = Some q -> state q = RUNNING -> j ∈ elsewhere
}.

(** The switch to process [i], which was runnable when the scheduler chose
    it. *)
Definition switched_to (i : nat) (s : pstate) : Prop :=
  exists count p s0, quiet s0 /\ procs s0 !! i = Some p /\ state p = RUNNABLE /\
    s = at_dispatch ts_addr count i p s0.

(** The contract of the processes: one that was runnable and is switched to as
    [dispatched] says comes back holding [ptable.lock] only, no longer running
    and with the invariant intact. *)
Definition returns_cpu : Prop := forall i s, switched_to i s -> dispatched i s ->
  exists s', swtch_to i [Lptable] s = Ok tt [Lptable] s' /\ sched_inv s' /\
    forall j q, procs s' !! j = Some q -> state q = RUNNING -> j ∈ elsewhere.

Hypothesis Hsw : returns_cpu.

Lemma run_proc_safe count i p s :
  quiet s -> procs s !! i = Some p -> state p = RUNNABLE ->
  exists s', run_proc ts_addr swtch_to count i [Lptable] s = Ok tt [Lptable] s' /\ quiet s'.
Proof.
  intros Hs Hp Hr.
  rewrite (run_proc_dispatches ts_addr swtch_to count i p s (qt_inv _ Hs) Hp Hr).
  destruct (Hsw i (at_dispatch ts_addr count i p s)) as (s2 & H2 & Hs2 & Hrun).
  { by exists count, p, s. }
  { apply at_dispatch_dispatched; [apply Hs|done]. }
  erewrite bind_Ok by exact H2. kstep. eexists. split; [reflexivity|].
  split; [by destruct Hs2|done|done|done].
Qed.

Lemma run_if_runnable_safe count i s :
  quiet s -> (i < Z.to_nat NPROC)%nat ->
  exists s', run_if_runnable ts_addr swtch_to count i [Lptable] s = Ok tt [Lptable] s' /\
    quiet s'.
Proof.
  intros Hs Hi. destruct (sched_inv_slot s i (qt_inv _ Hs) Hi) as [p Hp].
  unfold run_if_runnable. kstep. destruct (bool_decide (state p = RUNNABLE)) eqn:E.
  - apply bool_decide_eq_true in E. eauto using run_proc_safe.
  - by exists s.
Qed.

Lemma rotate_safe fuel q p s :
  quiet s -> q = QUEUE_DEFAULT \/ q = QUEUE_PRIORITY_RR -> (Z.to_nat NPROC < fuel)%nat ->
  (forall i, p = Some i -> i < Z.to_nat NPROC)%nat ->
  exists p' s', rotate fuel q p [Lptable] s = Ok p' [Lptable] s' /\ quiet s' /\
    (forall i, p' = Some i -> i < Z.to_nat NPROC)%nat.
Proof.
  intros Hs Hq Hf Hp. destruct (si_rings _ (qt_inv _ Hs) q Hq) as (x & l & H1 & Hr & Hv).
  pose proof (rr_bound _ _ Hr) as Hb.
  destruct (rotate_spec fuel q p x l [Lptable] s H1 Hr Hv) as (x' & Hr' & ->); [lia|].
  eexists _, _. split; [reflexivity|]. rewrite sched_inv_slots in Hv by apply Hs.
  rewrite Forall_forall in Hv. split.
  - destruct Hs as [Hinv Hc Hcr Hrun]. split; [|done|done|done]. eapply sched_inv_queue; [done| |done|].
    + destruct Hq as [-> | ->]; unfold QUEUE_DEFAULT, QUEUE_PRIORITY_RR; lia.
    + rewrite sched_inv_slots by done. apply Forall_forall. intros i Hi%rot_sub. auto.
  - intros i. destruct (rot _ _).1 as [j|] eqn:Ej.
    + intros [= ->]. eauto using rot_in.
    + destruct (last l) as [j|] eqn:El; [|auto]. intros [= ->].
      apply last_Some in El as [l' ->]. apply Hv. set_solver.
Qed.

Lemma select_safe mode p s :
  quiet s -> mode = 1 \/ mode = 2 \/ mode = 3 ->
  exists s', (match findPriority mode (procs s) with
      | Some i => run_proc ts_addr swtch_to true i ;; mret p
      | None => mret p
      end) [Lptable] s = Ok (p : option nat) [Lptable] s' /\ quiet s'.
Proof.
  intros Hs Hm. unfold findPriority. pose proof (fp_loop_ok mode (procs s) Hm) as Hok.
  destruct (fp_loop mode (procs s) 0 None) as [[j q]|]; simpl in *; [|by exists s].
  destruct (run_proc_safe true j q s Hs (fp_at _ _ _ _ Hok) (fp_runnable _ _ _ _ Hok))
    as (s' & Hrun & Hs'). kstep. by exists s'.
Qed.

Lemma next_queue v o :
  0 <= v < 4 -> 0 <= o <= 4 -> 0 <= Z.rem (i32 (v + o)) 4 < 4.
Proof. intros. rewrite i32_small by lia. dlia. Qed.

Lemma mlq_loop_safe fuel offs p s :
  quiet s -> (Z.to_nat NPROC < fuel)%nat -> Forall (fun o => 0 <= o <= 4) offs ->
  (forall i, p = Some i -> i < Z.to_nat NPROC)%nat ->
  exists s', mlq_loop ts_addr swtch_to fuel offs p [Lptable] s = Ok tt [Lptable] s' /\ quiet s'.
Proof.
  revert p s. induction offs as [|o offs IH]; intros p s Hs Hf Ho Hp; simpl; [by exists s|].
  apply Forall_cons in Ho as [Ho Hos].
  destruct (si_last _ (qt_inv _ Hs)) as (v & Hv & Hv4). pose proof (next_queue v o Hv4 Ho) as Hnq.
  kstep. kstep. rewrite Hv. kstep. set (nq := Z.rem (i32 (v + o)) 4) in *.
  destruct (aget_in (schedulingQueues s) nq) as [x Hx]; [rewrite (si_queues _ (qt_inv _ Hs)); lia|].
  kstep. destruct (size x =? 0); [by apply IH|].
  assert (Hsel : exists p' s', (if (nq =? QUEUE_DEFAULT) || (nq =? QUEUE_PRIORITY_RR)
      then rotate fuel nq p
      else ps ← gets procs;
        match findPriority (if nq =? QUEUE_PRIORITY then 1 else 2) ps with
        | Some i => run_proc ts_addr swtch_to true i ;; mret p
        | None => mret p
        end) [Lptable] s = Ok p' [Lptable] s' /\ quiet s' /\
      (forall i, p' = Some i -> i < Z.to_nat NPROC)%nat).
  { destruct (_ || _) eqn:E.
    - apply rotate_safe; [done| |done|done]. rewrite orb_true_iff, !Z.eqb_eq in E. done.
    - destruct (select_safe (if nq =? QUEUE_PRIORITY then 1 else 2) p s Hs) as (s' & H1 & H2).
      + destruct (nq =? QUEUE_PRIORITY); auto.
      + exists p, s'. split_and!; done. }
  destruct Hsel as (p' & s' & Hrun & Hs' & Hp'). erewrite bind_Ok by exact Hrun.
  destruct p' as [i|].
  - destruct (run_if_runnable_safe true i s' Hs' (Hp' i eq_refl)) as (s2 & H2 & Hs2).
    kstep. by apply IH.
  - kstep. by apply IH.
Qed.

Lemma default_loop_safe idx s :
  quiet s -> Forall (fun i => i < Z.to_nat NPROC)%nat idx ->
  exists s', kiter (run_if_runnable ts_addr swtch_to false) idx [Lptable] s = Ok tt [Lptable] s' /\
    quiet s'.
Proof.
  revert s. induction idx as [|i idx IH]; intros s Hs Hi; simpl; [by exists s|].
  apply Forall_cons in Hi as [Hi Hidx].
  destruct (run_if_runnable_safe false i s Hs Hi) as (s1 & H1 & Hs1). kstep. by apply IH.
Qed.

(** C20: Under every policy a round of the scheduler, with one turn of fuel more
    than a ring has slots, ends without panic or bad access, holding no lock,
    and keeps the invariant, whatever the processes do that return the CPU.
    It only ever switches to a process that is runnable, with the machine set
    up for it as [dispatched] says, and at the end this CPU has no process, the
    kernel's page table is loaded and no process runs but on other CPUs. *)
Theorem scheduler_round_safe fuel s (Hs : quiet s) (Hf : (Z.to_nat NPROC < fuel)%nat) :
  exists s', scheduler_round ts_addr swtch_to fuel [] s = Ok tt [] s' /\ quiet s'.
Proof.
  unfold scheduler_round. kstep. kstep.
  match goal with |- context [(?m ;; release Lptable) _ _] => set (body := m) end.
  assert (Hbody : exists s', body [Lptable] s = Ok tt [Lptable] s' /\ quiet s').
  { unfold body. destruct (policy s =? POLICY_PRIORITY); [|destruct (policy s =? POLICY_MLQ)].
    - kstep. unfold findPriority. pose proof (fp_loop_ok 3 (procs s) ltac:(auto)) as Hok.
      destruct (fp_loop 3 (procs s) 0 None) as [[j q]|]; simpl in *; [|by exists s].
      destruct Hok. eauto using run_proc_safe.
    - apply mlq_loop_safe; [done|done| |done]. repeat constructor; lia.
    - kstep. apply default_loop_safe; [done|]. apply Forall_forall.
      intros i Hi%elem_of_seq. rewrite <- (si_len _ (qt_inv _ Hs)). lia. }
  destruct Hbody as (s' & Hb & Hs'). exists s'. split; [|done].
  erewrite bind_Ok by exact Hb. apply release_top, not_elem_of_nil.
Qed.
End safety.

(** [yield] charges the slice to [running_time] but leaves [last_time] at the
    slice's start, so the scheduler charges the same ticks again to
    [ready_time]: after the next dispatch the three counters exceed the age of
    the process by exactly the length of the slice. *)
Theorem yield_counts_twice i p s (H : running i p s) (Ha : accounted p) :
  exists s' p', yield (fun l x => Sleep 0 l x) [] s = Sleep 0 [Lptable] s' /\
    procs s' !! i = Some p' /\
    forall t, let p2 := start_slice true t p' in
      running_time p2 + ready_time p2 + sleep_time p2 ≡32
        (last_time p2 - creation_time p2) + (ticks s - last_time p).
Proof.
  eexists _, (yielded (ticks s) p). split_and!.
  - by rewrite (yield_runs _ i p).
  - cbn. apply list_lookup_insert_eq. eapply lookup_lt_Some, H.
  - intros t p2. unfold p2, yielded, accounted in *. cbn. rewrite !i32_eqm.
    transitivity ((running_time p + ready_time p + sleep_time p) + (t - last_time p)
      + (ticks s - last_time p)); [apply eqm_eq; lia|]. rewrite Ha. apply eqm_eq. lia.
Qed.

(** *** Concrete runs *)

Lemma findPriority_optimal_witness :
  findPriority 2 [blank_proc <| state := RUNNABLE |> <| queueNumber := 2 |>] = Some O /\
  exists s, fp_inv 2 [blank_proc <| state := RUNNABLE |> <| queueNumber := 2 |>] O s.
Proof.
  split; [reflexivity|].
  exact (findPriority_optimal 2 [blank_proc <| state := RUNNABLE |> <| queueNumber := 2 |>]
    (or_intror (or_introl eq_refl))).
Defined.

Definition ready : proc :=
  blank_proc <| state := RUNNABLE |> <| kstack := 0x80100000 |> <| pgdir := 0x80101000 |>.

Definition one_entry : queue :=
  mkQueue 0 0 1 (Some O :: replicate 63 None).

Lemma one_entry_rep : ring_rep one_entry [O].
Proof.
  split; try done. intros [|k] x Hk; [|done]. by injection Hk as <-.
Qed.

Definition busy : pstate :=
  (machine (ready :: replicate 63 blank_proc))
    <| schedulingQueues := [one_entry; empty_queue; empty_queue; empty_queue] |>.

Lemma rotation_fair_witness :
  exists s' x', rotations 1 2 0 [] busy = Ok [Some O] [] s' /\
    aget (schedulingQueues s') 0 = Some x' /\ ring_rep x' [O].
Proof.
  apply (rotation_fair 2 0 [O] one_entry [] busy); [done|apply one_entry_rep| |simpl; lia].
  constructor; [|constructor]. by exists ready.
Defined.

Lemma busy_inv : sched_inv busy.
Proof.
  split; try done.
  - intros [|i] p Hp Hr; [injection Hp as <-; done|].
    change (replicate 63 blank_proc !! i = Some p) in Hp.
    apply lookup_replicate in Hp as [-> _]. done.
  - intros q [-> | ->].
    + exists one_entry, [O]. split_and!; [done|apply one_entry_rep|].
      constructor; [by exists ready|constructor].
    + exists empty_queue, []. split_and!; [done|apply empty_queue_rep|constructor].
  - exists 0. split; [done|lia].
Qed.

(** A scheduler between two processes; nothing runs on other CPUs. *)
Definition between : pstate := busy <| curproc := None |> <| cr3 := V2P (kpgdir busy) |>.

Lemma between_quiet : quiet [] between.
Proof.
  destruct busy_inv. split; [by split|done|done|].
  intros [|j] q Hq Hr; [by injection Hq as <-|].
  change (replicate 63 blank_proc !! j = Some q) in Hq.
  apply lookup_replicate in Hq as [-> _]. done.
Qed.

(** A process that goes to sleep at once. *)
Lemma sleeps_returns_cpu ts_addr :
  returns_cpu ts_addr (fun i => upd_proc i (fun p => p <| state := SLEEPING |>)) [].
Proof.
  intros i s (count & p0 & s0 & Hq0 & Hp0 & _ & ->)
    [[Hlen Hmem Hqs Hrings Hlast Hgdt] _ (p & Hp & _)].
  rewrite (upd_proc_ok i _ _ _ p Hp). eexists. split; [reflexivity|]. split.
  2: { intros j q [(<- & <- & _)|[Hne Hj]]%list_lookup_insert_Some; [done|]. cbn in Hj.
       rewrite list_lookup_insert_ne in Hj by done. by apply (qt_running _ _ Hq0). }
  revert Hlen Hmem Hqs Hrings Hlast Hgdt. generalize (at_dispatch ts_addr count i p0 s0) as s.
  intros s Hlen Hmem Hqs Hrings Hlast Hgdt. split; cbn; rewrite ?length_insert; try done.
  - intros j q Hj. apply list_lookup_insert_Some in Hj as [(<- & <- & _)|[_ Hj]]; [done|eauto].
  - intros q Hq. destruct (Hrings q Hq) as (x & l & H1 & H2 & H3). exists x, l.
    split_and!; [done|done|]. eapply Forall_impl; [exact H3|]. intros j [y Hj].
    apply lookup_lt_is_Some_2. rewrite length_insert. by eapply lookup_lt_Some.
Qed.

Lemma scheduler_round_safe_witness :
  exists s', scheduler_round 0x80112780 (fun i => upd_proc i (fun p => p <| state := SLEEPING |>))
    65 [] between = Ok tt [] s' /\ quiet [] s'.
Proof.
  apply (scheduler_round_safe 0x80112780 _ [] (sleeps_returns_cpu _) 65 between between_quiet).
  unfold NPROC. lia.
Defined.

Lemma yield_counts_twice_witness :
  exists s' p', yield (fun l x => Sleep 0 l x) [] (machine [runner]) = Sleep 0 [Lptable] s' /\
    procs s' !! O = Some p' /\
    forall t, let p2 := start_slice true t p' in
      running_time p2 + ready_time p2 + sleep_time p2 ≡32 (last_time p2 - creation_time p2) + 9.
Proof. exact (yield_counts_twice O runner (machine [runner]) running_machine eq_refl). Defined.

End Sched.
