(* ===== verification/Accounting.v ===== *)
(** The accounting of ticks over a process's life: every place of proc.c that
    assigns [running_time], [ready_time], [sleep_time] or [last_time] after
    [allocproc], in any order and any number of times. *)

From stdpp Require Import base numbers list sets strings.
From Stdlib Require Import ZArith Lia.
From S2P Require Import Prelude Mem Mmu Seg Kalloc Param Proc ProcSpec Sched.
Import Mmu Seg Kalloc Param Proc ProcSpec Sched.

Module Accounting.

(** A switch at which the run is cut. *)
Definition stop : K pstate unit := fun l s => Sleep 0 l s.

(** The ticks that [kill] forgets: those since [last_time] of a process that
    was not asleep. *)
Definition forgotten (t : Z) (p : proc) : Z :=
  if decide (state p = SLEEPING) then 0 else last_time p - t.

(** A step in the life of process [i], with the ticks by which it makes the
    counters exceed the age of the process.  The process is dispatched, goes
    to sleep, yields and runs again after that; it is woken and killed; other
    processes run and the clock ticks. *)
Inductive event (i : nat) : pstate -> Z -> pstate -> Prop :=
  | ev_dispatch ts_addr count s s' :
      run_proc ts_addr (fun _ => stop) count i [Lptable] s = Sleep 0 [Lptable] s' ->
      event i s 0 s'
  | ev_sleep c lk p s s' :
      running i p s -> sleep stop c lk [lk] s = Sleep 0 [Lptable] s' -> event i s 0 s'
  | ev_wakeup c L s s' : wakeup c L s = Ok tt L s' -> event i s 0 s'
  | ev_kill kend n L p s s' :
      first_proc (fun p => pid p =? n) (procs s) 0 = Some i -> procs s !! i = Some p ->
      kill kend n L s = Ok 0 L s' -> event i s (forgotten (ticks s) p) s'
  | ev_yield p s s' :
      running i p s -> yield stop [] s = Sleep 0 [Lptable] s' ->
      event i s (ticks s - last_time p) s'
  | ev_resume p s s' :
      running i p s -> yield_resume [Lptable] s = Ok tt [] s' ->
      event i s (last_time p - ticks s) s'
  | ev_others s s' : procs s' !! i = procs s !! i -> event i s 0 s'.

Inductive life (i : nat) : pstate -> Z -> pstate -> Prop :=
  | life_nil s : life i s 0 s
  | life_cons s e s1 e' s2 : event i s e s1 -> life i s1 e' s2 -> life i s (e + e') s2.

(** The counters exceed the age of the process by [x] ticks. *)
Definition excess (x : Z) (p : proc) : Prop :=
  running_time p + ready_time p + sleep_time p ≡32 (last_time p - creation_time p) + x.

Lemma excess_charge x e p p' t :
  excess x p -> creation_time p' = creation_time p -> last_time p' ≡32 t ->
  running_time p' + ready_time p' + sleep_time p' ≡32
    running_time p + ready_time p + sleep_time p + (t - last_time p) + e ->
  excess (x + e) p'.
Proof.
  unfold excess. intros Ha Hc Hl Ht. rewrite Ht, Ha, Hl, Hc. apply eqm_eq. lia.
Qed.

Lemma run_proc_entry ts_addr count i s s' :
  run_proc ts_addr (fun _ => stop) count i [Lptable] s = Sleep 0 [Lptable] s' ->
  exists p, procs s !! i = Some p /\ procs s' = <[i := start_slice count (ticks s) p]> (procs s).
Proof.
  unfold run_proc. kstep. destruct (procs s !! i) as [p|] eqn:Hp.
  2: { erewrite bind_Fault; [done|]. unfold switchuvm. erewrite bind_Fault; [done|].
       by apply get_proc_fault. }
  unfold switchuvm. rewrite bind_assoc. erewrite bind_Ok by (by apply get_proc_ok).
  destruct (kstack p =? 0); [by rewrite bind_Panic with (e := "switchuvm: no kstack")|].
  destruct (pgdir p =? 0); [by rewrite bind_Panic with (e := "switchuvm: no pgdir")|].
  rewrite bind_assoc. kstep. destruct (aset _ _ _) as [gd|]; [|done].
  repeat (rewrite bind_assoc; kstep). kstep. kstep.
  erewrite bind_Ok by (apply upd_proc_ok; exact Hp). unfold stop, mbind, K_bind. intros [= <-].
  by exists p.
Qed.

Lemma free_history_entry kend i h L s u L' s' p :
  procs s !! i = Some p -> free_history kend i h L s = Ok u L' s' ->
  exists h', procs s' !! i = Some (p <| syscallhistory := h' |>).
Proof.
  revert p L s. induction h as [|c h IH]; intros p L s Hp; simpl.
  { intros [= _ _ <-]. exists (syscallhistory p). by destruct p. }
  erewrite bind_Ok by (by apply upd_proc_ok).
  intros (v & L1 & s1 & Hk & Hr)%bind_Ok_inv. unfold zoom in Hk.
  destruct (kfree kend (sc_page c) L _) as [? ? k| | |]; [|done..]. injection Hk as _ <- <-.
  apply (IH (p <| syscallhistory := h |>)) in Hr; [|cbn].
  - destruct Hr as [h' Hh]. by exists h'.
  - apply list_lookup_insert_eq. by eapply lookup_lt_Some.
Qed.

Lemma kill_entry kend n L i p s s' :
  first_proc (fun p => pid p =? n) (procs s) 0 = Some i -> procs s !! i = Some p ->
  kill kend n L s = Ok 0 L s' ->
  exists h', procs s' !! i = Some ((kill_one (ticks s) p) <| syscallhistory := h' |>).
Proof.
  intros Hf Hp. unfold kill. destruct (decide (Lptable ∈ L)) as [Hin|Hin].
  { by erewrite bind_Panic by by apply acquire_held. }
  kstep. kstep. rewrite Hf. kstep. kstep.
  assert (Hp' : procs (s <| procs ::= fun ps => <[i := kill_one (ticks s) p]> ps |>) !! i
    = Some (kill_one (ticks s) p)).
  { cbn. apply list_lookup_insert_eq. by eapply lookup_lt_Some. }
  erewrite bind_Ok by (by apply get_proc_ok).
  intros (v & L1 & s1 & Hh & Hr)%bind_Ok_inv.
  destruct (free_history_entry _ _ _ _ _ _ _ _ _ Hp' Hh) as [h' Hh']. exists h'.
  apply bind_Ok_inv in Hr as (w & L2 & s2 & Hrel & Hret). injection Hret as _ <-.
  unfold release in Hrel. destruct (decide _); [|done]. by injection Hrel as _ _ <-.
Qed.

(** What each event does to the counters. *)
Lemma event_excess i s e s' p x :
  event i s e s' -> procs s !! i = Some p -> excess x p ->
  exists p', procs s' !! i = Some p' /\ excess (x + e) p'.
Proof.
  intros He Hp Hx. pose proof (lookup_lt_Some _ _ _ Hp) as Hlt.
  destruct He as [ts_addr count s s' H|c lk q s s' Hr H|c L s s' H|kend n L q s s' Hf Hq H
    |q s s' Hr H|q s s' Hr H|s s' H].
  - apply run_proc_entry in H as (q & Hq & ->). rewrite Hp in Hq. injection Hq as <-.
    eexists. split; [by apply list_lookup_insert_eq|].
    apply (excess_charge x 0 p _ (ticks s)); [done|done|apply i32_eqm|].
    unfold start_slice. cbn. rewrite i32_eqm. apply eqm_eq. lia.
  - pose proof (rn_proc _ _ _ Hr) as Hq. rewrite Hp in Hq. injection Hq as <-.
    unfold sleep in H. erewrite bind_Ok in H by by apply sleep_pre_ok. injection H as <-.
    eexists. split; [cbn; by apply list_lookup_insert_eq|].
    apply (excess_charge x 0 p _ (ticks s)); [done|done|apply i32_eqm|].
    cbn. rewrite i32_eqm. apply eqm_eq. lia.
  - destruct (decide (Lptable ∈ L)) as [Hin|Hin].
    { unfold wakeup, wakeup_steps in H. cbn [kseq] in H.
      by erewrite bind_Panic in H by by apply acquire_held. }
    rewrite wakeup_ok in H by done. injection H as <-. cbn. rewrite list_lookup_fmap, Hp.
    eexists. split; [reflexivity|]. destruct (decide (asleep_on c p)).
    + rewrite wake_one_asleep by done.
      apply (excess_charge x 0 p _ (ticks s)); [done|done|apply i32_eqm|].
      cbn. rewrite i32_eqm. apply eqm_eq. lia.
    + rewrite wake_one_other by done. by rewrite Z.add_0_r.
  - rewrite Hp in Hq. injection Hq as <-. apply (kill_entry _ _ _ i p) in H as [h' Hh]; [|done..].
    eexists. split; [exact Hh|]. unfold forgotten.
    apply (excess_charge x _ p _ (ticks s)); [done| | |].
    all: unfold kill_one; case_decide as Hd; [rewrite bool_decide_eq_true_2 by done|
      rewrite bool_decide_eq_false_2 by done]; cbn; rewrite ?i32_eqm; try done; apply eqm_eq; lia.
  - pose proof (rn_proc _ _ _ Hr) as Hq. rewrite Hp in Hq. injection Hq as <-.
    rewrite (yield_runs _ i p) in H by done. injection H as <-.
    eexists. split; [cbn; by apply list_lookup_insert_eq|].
    unfold excess, yielded in *. cbn. rewrite i32_eqm.
    transitivity (running_time p + ready_time p + sleep_time p + (ticks s - last_time p));
      [apply eqm_eq; lia|]. rewrite Hx. apply eqm_eq. lia.
  - pose proof (rn_proc _ _ _ Hr) as Hq. rewrite Hp in Hq. injection Hq as <-.
    rewrite (yield_resume_ok i p) in H by (done || apply Hr). injection H as <-.
    eexists. split; [cbn; by apply list_lookup_insert_eq|].
    apply (excess_charge x _ p _ (ticks s)); [done|done|apply i32_eqm|]. cbn. apply eqm_eq. lia.
  - exists p. rewrite H, Z.add_0_r. done.
Qed.

(** C35: over any sequence of dispatches, sleeps, wakeups, kills, yields and
    steps of others, the running, ready and sleep times of a process add up,
    modulo [2^32], to the age it had when its [last_time] was set, plus the
    excess of the events: nothing for being dispatched, going to sleep and
    being woken; the length of the slice for a [yield], which the scheduler
    charges a second time; minus the ticks that a process loses between being
    dispatched and returning from [yield], and when it is killed while it is
    not asleep.  So a process that never yields and is not killed awake is
    accounted for exactly. *)
Theorem ticks_accounted i p s e s' (Hp : procs s !! i = Some p) (Ha : accounted p)
    (Hl : life i s e s') :
  exists p', procs s' !! i = Some p' /\
    running_time p' + ready_time p' + sleep_time p' ≡32 (last_time p' - creation_time p') + e.
Proof.
  assert (Hx : excess 0 p) by (unfold excess; by rewrite Z.add_0_r).
  change (exists p', procs s' !! i = Some p' /\ excess (0 + e) p').
  clear Ha. revert p Hp Hx. generalize 0 as x. induction Hl as [s|s e s1 e' s2 He Hl IH]; intros x p Hp Hx.
  - exists p. by rewrite Z.add_0_r.
  - destruct (event_excess i s e s1 p x He Hp Hx) as (p1 & Hp1 & Hx1).
    rewrite Z.add_assoc. by apply (IH (x + e) p1).
Qed.

(** A process yields after its first nine ticks and is dispatched again: the
    nine ticks are counted twice. *)
Definition worker : proc := runner <| kstack := 0x80100000 |> <| pgdir := 0x80101000 |>.

Lemma ticks_accounted_witness :
  exists s' p', life O (machine [worker]) (9 + (0 + 0)) s' /\ procs s' !! O = Some p' /\
    running_time p' + ready_time p' + sleep_time p' ≡32 (last_time p' - creation_time p') + 9.
Proof.
  assert (Hr : running O worker (machine [worker])) by by split.
  assert (Hl : exists s', life O (machine [worker]) (9 + (0 + 0)) s').
  { eexists. eapply life_cons.
    { eapply (ev_yield O worker); [exact Hr|by rewrite (yield_runs _ O worker)]. }
    eapply life_cons; [|constructor]. eapply (ev_dispatch O 0x80112780 true). vm_compute. reflexivity. }
  destruct Hl as [s' Hl].
  destruct (ticks_accounted O worker (machine [worker]) _ s' eq_refl eq_refl Hl) as (p' & H1 & H2).
  exists s', p'. split; [exact Hl|]. split; [exact H1|exact H2].
Defined.

End Accounting.
