(* ===== verification/Syscall.v ===== *)
(** System-call entry (syscall.c, sysproc.c and [getsyscallcounter] of proc.c):
    fetching arguments from user memory, the per-process history of calls, the
    dispatcher and the process-related calls. *)

From stdpp Require Import base numbers list gmap sets strings.
From Stdlib Require Import ZArith Lia.
From S2P Require Import Prelude Mem CString Mmu Seg Kalloc Param Proc.
Import CString Mmu Seg Kalloc Param Proc.

Module Syscall.

(** The kernel with the user memory of the running process mapped at 0. *)
Record ustate := mkUstate { kst : pstate; um : mem }.
#[export] Instance eta_ustate : Eta ustate := fun s => mkUstate s.(kst) s.(um).

(** Offsets of the trap frame fields used (x86.h). *)
Definition tf_eax : Z := 28.
Definition tf_trapno : Z := 48.
Definition tf_cs : Z := 60.
Definition tf_esp : Z := 68.

Definition currproc : K ustate proc := zoom kst (i ← myproc; get_proc i).

Definition tf_read (off : Z) : K ustate Z :=
  p ← currproc; m ← gets (fun s => kmemory (pkmem (kst s))); mret (load32 m (tf p + off)).
Definition tf_write (off v : Z) : K ustate unit :=
  p ← currproc;
  modify (fun s => s <| kst ::= fun k => k <| pkmem ::= fun km =>
    km <| kmemory ::= fun m => store32 m (tf p + off) v |> |> |>).

(** *** Arguments *)

(** [None] stands for -1, [Some v] for 0 with [*ip = v]. *)
Definition fetchint (addr : Z) : K ustate (option Z) :=
  p ← currproc; m ← gets um;
  mret (if (sz p <=? addr) || (sz p <? u32 (addr + 4)) then None else Some (i32 (load32 m addr))).

(** [for (s = *pp; s < ep; s++) if (s[0] == 0) return s - *pp;] *)
Fixpoint scan_nul (m : mem) (s ep : Z) (len : Z) (fuel : nat) : option Z :=
  match fuel with
  | O => None
  | S n => if s <? ep then if load8 m s =? 0 then Some len else scan_nul m (s + 1) ep (len + 1) n
           else None
  end.

(** [Some (pp, length)], or [None] for -1.  The loop ends after at most
    [sz - addr] turns. *)
Definition fetchstr (addr : Z) : K ustate (option (Z * Z)) :=
  p ← currproc; m ← gets um;
  mret (if sz p <=? addr then None
        else n ← scan_nul m addr (sz p) 0 (Z.to_nat (sz p - addr)); Some (addr, n)).

Definition argint (n : Z) : K ustate (option Z) :=
  e ← tf_read tf_esp; fetchint (u32 (e + 4 + 4 * n)).

Definition argptr (n size : Z) : K ustate (option Z) :=
  p ← currproc; i ← argint n;
  mret (i ← i;
        if (size <? 0) || (sz p <=? u32 i) || (sz p <? u32 (u32 i + size)) then None
        else Some (u32 i)).

Definition argstr (n : Z) : K ustate (option (Z * Z)) :=
  a ← argint n;
  match a with None => mret None | Some addr => fetchstr (u32 addr) end.

(** *** The history of system calls *)

Definition newcounter (num : Z) : K pstate (option syscallcounter) :=
  c ← zoom pkmem kalloc;
  mret (if c =? 0 then None else Some (mkCounter c num 1)).

(** [while (temp->next != 0 && temp->num != num) temp = temp->next;] *)
Fixpoint stop_at (h : list syscallcounter) (num : Z) (k : nat) : nat :=
  match h with
  | [] | [_] => k
  | c :: r => if sc_num c =? num then k else stop_at r num (S k)
  end.

Definition updatesyscallhistory (num : Z) : K pstate unit :=
  me ← gets curproc;
  match me with
  | None => mret tt
  | Some i =>
      p ← get_proc i;
      match syscallhistory p with
      | [] =>
          c ← newcounter num;
          upd_proc i (fun p => p <| syscallhistory := option_list c |>)
      | h =>
          let k := stop_at h num 0 in
          t ← deref "temp" (h !! k);
          if sc_num t =? num then
            upd_proc i (fun p => p <| syscallhistory :=
              <[k := t <| sc_count ::= fun n => i32 (n + 1) |>]> h |>)
          else
            c ← newcounter num;
            upd_proc i (fun p => p <| syscallhistory := h ++ option_list c |>)
      end
  end.

Definition getsyscallcounter (num : Z) : K pstate Z :=
  me ← gets curproc;
  match me with
  | None => mret (-1)
  | Some i =>
      p ← get_proc i;
      let h := syscallhistory p in
      t ← deref "temp->next" (h !! stop_at h num 0);
      mret (if sc_num t =? num then sc_count t else 0)
  end.

(** *** The calls of sysproc.c on processes and scheduling *)

Section sysproc.
Variables (kend : Z) (swtch : K pstate unit).

Definition sys_kill : K ustate Z :=
  n ← argint 0;
  match n with None => mret (-1) | Some pid => zoom kst (kill kend pid) end.

Definition sys_getpid : K ustate Z := p ← currproc; mret (pid p).

(** The loop of [sys_sleep], [ticks0] read before it; [c] is [&ticks]. *)
Fixpoint sleep_loop (fuel : nat) (c n ticks0 : Z) : K pstate Z :=
  match fuel with
  | O => fault "out of fuel"
  | S f =>
      t ← gets ticks;
      if u32 (t - ticks0) <? u32 n then
        i ← myproc; p ← get_proc i;
        if nz (killed p) then release Ltickslock ;; mret (-1)
        else sleep swtch c Ltickslock ;; sleep_loop f c n ticks0
      else release Ltickslock ;; mret 0
  end.

Definition sys_sleep (fuel : nat) (c : Z) : K ustate Z :=
  n ← argint 0;
  match n with
  | None => mret (-1)
  | Some n => zoom kst (acquire Ltickslock ;; t0 ← gets ticks; sleep_loop fuel c n t0)
  end.

Definition sys_uptime : K ustate Z :=
  zoom kst (acquire Ltickslock ;; t ← gets ticks; release Ltickslock ;; mret (i32 t)).

Definition sys_getparentid : K ustate Z :=
  p ← currproc;
  zoom kst (j ← deref "currproc->parent" (parent p); q ← get_proc j; mret (pid q)).


Definition sys_getsyscallcounter : K ustate Z :=
  n ← argint 0;
  match n with None => mret (-1) | Some num => zoom kst (getsyscallcounter num) end.

Definition sys_setpriority : K ustate Z :=
  a ← argint 0;
  match a with
  | None => mret (-1)
  | Some pid =>
      b ← argint 1;
      match b with
      | None => mret (-1)
      | Some prio =>
          if (pid <? 0) || (pid >? NPROC) then mret (-1)
          else if prio <? 1 then mret (-1)
          else zoom kst (setPriority pid (if prio >? 6 then 5 else prio))
      end
  end.

Definition sys_setqueue : K ustate Z :=
  a ← argint 0;
  match a with
  | None => mret (-1)
  | Some pid =>
      b ← argint 1;
      match b with
      | None => mret (-1)
      | Some q =>
          if (pid <? 0) || (pid >? NPROC) then mret (-1)
          else if q <? 0 then mret (-1)
          else zoom kst (setqueue pid q)
      end
  end.

Definition sys_changepolicy : K ustate Z :=
  a ← argint 0;
  match a with None => mret (-1) | Some p => zoom kst (changepolicy p) end.

Definition sizeof_info : Z := 20.
Definition sizeof_sum : Z := 12.

(** [*pinfo = x] in user memory, field by field as [getinfo] assigns. *)
Definition store_info (pinfo : Z) (x : info) : K ustate unit :=
  modify (fun s => s <| um ::= fun m =>
    let m := store32 m (pinfo + 12) (i_sleep_time x) in
    let m := store32 m (pinfo + 8) (i_ready_time x) in
    let m := store32 m (pinfo + 4) (i_running_time x) in
    let m := store32 m pinfo (i_creation_time x) in
    store32 m (pinfo + 16) (i_termination_time x) |>).

Definition sys_getinfo : K ustate Z :=
  a ← argint 0;
  match a with
  | None => mret (-1)
  | Some pid =>
      b ← argptr 1 sizeof_info;
      match b with
      | None => mret (-1)
      | Some pinfo =>
          if (pid <? 0) || (pid >? NPROC) then mret (-1)
          else r ← zoom kst (getinfo pid); store_info pinfo r.2 ;; mret r.1
      end
  end.

(** [increment]: the caller's structures are used in place, in user memory. *)
Definition increment (pinfo suminfo t : Z) : K ustate unit :=
  acquire Lcalculation ;;
  modify (fun s => s <| um ::= fun m =>
    store32 m (suminfo + 8) (load32 m (suminfo + 8) + load32 m (pinfo + 4)) |>) ;;
  modify (fun s => s <| um ::= fun m =>
    store32 m (suminfo + 4) (load32 m (suminfo + 4) + load32 m (pinfo + 12)) |>) ;;
  modify (fun s => s <| um ::= fun m => store32 m suminfo (load32 m suminfo + t) |>) ;;
  release Lcalculation.

Definition sys_increment : K ustate Z :=
  a ← argptr 0 sizeof_info;
  match a with
  | None => mret (-1)
  | Some pinfo =>
      b ← argptr 1 sizeof_sum;
      match b with
      | None => mret (-1)
      | Some suminfo =>
          c ← argint 2;
          match c with
          | None => mret (-1)
          | Some t => increment pinfo suminfo t ;; mret 0
          end
      end
  end.
End sysproc.

(** *** The dispatcher *)

(** [NELEM(syscalls)]; every number from 1 to 29 has a handler. *)
Definition nsyscalls : Z := 30.

(** The system calls run on a state [S] that contains the caller as [g];
    [unknown] is the message for an unknown call. *)
Definition syscall {S} (g : S -> ustate) `{!Setter g} (unknown : Z -> K S unit)
    (syscalls : Z -> K S Z) : K S unit :=
  v ← zoom g (tf_read tf_eax);
  let num := i32 v in
  if (0 <? num) && (num <? nsyscalls) then
    zoom g (zoom kst (updatesyscallhistory num)) ;;
    r ← syscalls num;
    zoom g (tf_write tf_eax r)
  else unknown num ;; zoom g (tf_write tf_eax (-1)).

End Syscall.
