(* ===== verification/SyscallSpec.v ===== *)
(** What system-call entry promises: arguments stay inside the caller's
    memory, the history counts calls, the dispatcher and the calls that check
    their arguments. *)

From stdpp Require Import base numbers list gmap sets strings.
From Stdlib Require Import ZArith Lia.
From S2P Require Import Prelude Mem CString Mmu Seg Kalloc Param Proc Syscall.
Import CString Mmu Seg Kalloc Param Proc Syscall.

Module SyscallSpec.

(** Process [p], slot [i], is making the call; its memory ends below the kernel. *)
Record caller (i : nat) (p : proc) (s : ustate) : Prop := {
  ca_cur : curproc (kst s) = Some i;
  ca_proc : procs (kst s) !! i = Some p;
  ca_size : 0 <= sz p <= KERNBASE
}.

Lemma currproc_ok i p L s : caller i p s -> currproc L s = Ok p L s.
Proof.
  intros [Hc Hp _]. unfold currproc, zoom. destruct s as [k m]. cbn in *.
  erewrite bind_Ok by by apply myproc_ok. by rewrite (get_proc_ok i L k p Hp).
Qed.

#[local] Hint Resolve currproc_ok : xv6.

Lemma fetchint_ok i p addr L s :
  caller i p s -> is_u32 addr ->
  fetchint addr L s =
    Ok (if decide (addr + 4 <= sz p) then Some (i32 (load32 (um s) addr)) else None) L s.
Proof.
  intros H [Ha1 Ha2]. pose proof (ca_size _ _ _ H) as Hz. unfold fetchint. kstep. kstep.
  unfold mret, K_ret. f_equal. unfold KERNBASE in Hz.
  destruct (Z.leb_spec (sz p) addr); simpl; [by rewrite decide_False by lia|].
  rewrite u32_small by lia. destruct (Z.ltb_spec (sz p) (addr + 4)); simpl;
    [by rewrite decide_False by lia|by rewrite decide_True by lia].
Qed.

(** Address of the [n]th argument word on the user stack. *)
Definition arg_addr (s : ustate) (p : proc) (n : Z) : Z :=
  u32 (load32 (kmemory (pkmem (kst s))) (tf p + tf_esp) + 4 + 4 * n).

Lemma argint_ok i p n L s :
  caller i p s ->
  argint n L s = Ok (if decide (arg_addr s p n + 4 <= sz p)
    then Some (i32 (load32 (um s) (arg_addr s p n))) else None) L s.
Proof.
  intros H. unfold argint.
  assert (Ht : tf_read tf_esp L s = Ok (load32 (kmemory (pkmem (kst s))) (tf p + tf_esp)) L s).
  { unfold tf_read. kstep. by kstep. }
  kstep. eapply fetchint_ok; [done|]. apply u32_range.
Qed.

Lemma u32_i32_load m a : u32 (i32 (load32 m a)) = load32 m a.
Proof. rewrite (i32_eqm (load32 m a)). apply u32_small, load32_range. Qed.

(** C36: [argptr] accepts a pointer exactly when the argument word is in the
    caller's memory and the block of [size] bytes it points to lies wholly
    below the caller's size; it never changes the state. *)
Theorem argptr_in_bounds i p n size L s (H : caller i p s) (Hs : size < 2 ^ 31) :
  exists r, argptr n size L s = Ok r L s /\
    forall a, r = Some a <->
      arg_addr s p n + 4 <= sz p /\ a = load32 (um s) (arg_addr s p n) /\
      0 <= size /\ a < sz p /\ a + size <= sz p.
Proof.
  pose proof (ca_size _ _ _ H) as Hz. unfold argptr. kstep.
  erewrite bind_Ok by by eapply argint_ok. eexists. split; [reflexivity|]. intros a.
  case_decide as Hd; [|split; [done|lia]]. simpl. rewrite u32_i32_load.
  pose proof (load32_range (um s) (arg_addr s p n)) as Hr.
  set (x := load32 _ _) in *. unfold KERNBASE in Hz.
  destruct (Z.ltb_spec size 0); simpl; [split; [done|lia]|].
  destruct (Z.leb_spec (sz p) x); simpl; [split; [done|lia]|].
  rewrite u32_small by lia.
  destruct (Z.ltb_spec (sz p) (x + size)); simpl; split; try done; try lia.
  - intros [= <-]. lia.
  - intros (_ & -> & _). done.
Qed.

Lemma scan_nul_spec m s ep len fuel :
  ep - s <= Z.of_nat fuel -> forall r, scan_nul m s ep len fuel = Some r <->
    len <= r /\ s + (r - len) < ep /\ load8 m (s + (r - len)) = 0 /\
    forall k, 0 <= k < r - len -> load8 m (s + k) <> 0.
Proof.
  revert s len. induction fuel as [|n IH]; intros s len Hf r; simpl.
  { split; [done|]. lia. }
  destruct (Z.ltb_spec s ep); [|split; [done|lia]].
  destruct (Z.eqb_spec (load8 m s) 0) as [Hz|Hz].
  - split.
    + intros [= <-]. replace (s + (len - len)) with s by lia. split_and!; try done; try lia.
    + intros (H1 & H2 & H3 & H4). destruct (Z.eq_dec r len) as [->|Hne]; [done|].
      destruct (H4 0); [lia|]. by rewrite Z.add_0_r.
  - rewrite IH by lia. replace (s + 1 + (r - (len + 1))) with (s + (r - len)) by lia. split.
    + intros (H1 & H2 & H3 & H4). split_and!; try done; try lia.
      intros k Hk. destruct (Z.eq_dec k 0) as [->|Hk0]; [by rewrite Z.add_0_r|].
      replace (s + k) with (s + 1 + (k - 1)) by lia. apply H4. lia.
    + intros (H1 & H2 & H3 & H4). destruct (Z.eq_dec r len) as [->|Hne].
      { replace (s + (len - len)) with s in H3 by lia. done. }
      split_and!; try done; try lia. intros k Hk.
      replace (s + 1 + k) with (s + (k + 1)) by lia. apply H4. lia.
Qed.

(** [fetchstr] accepts an address exactly when a NUL-terminated string starts
    there inside the caller's memory, and returns the string's length. *)
Theorem fetchstr_terminated i p addr L s (H : caller i p s) (Ha : is_u32 addr) :
  exists r, fetchstr addr L s = Ok r L s /\
    forall pp n, r = Some (pp, n) <->
      pp = addr /\ 0 <= n /\ addr + n < sz p /\ load8 (um s) (addr + n) = 0 /\
      forall k, 0 <= k < n -> load8 (um s) (addr + k) <> 0.
Proof.
  unfold fetchstr. kstep. kstep. eexists. split; [reflexivity|]. intros pp n.
  pose proof (scan_nul_spec (um s) addr (sz p) 0 (Z.to_nat (sz p - addr)) ltac:(lia) n) as Hs.
  rewrite Z.sub_0_r in Hs.
  destruct (Z.leb_spec (sz p) addr); [split; [done|lia]|].
  destruct (scan_nul _ _ _ _ _) as [m|] eqn:E; simpl.
  - split.
    + intros [= <- ->]. destruct Hs as [Hs _]. specialize (Hs eq_refl). tauto.
    + intros (-> & Hn). destruct Hs as [_ Hs]. injection (Hs Hn) as ->. done.
  - split; [done|]. intros (_ & Hn). by destruct Hs as [_ Hs]; specialize (Hs Hn).
Qed.

(** *** The history is a map from call numbers to counts *)

Fixpoint hist_map (h : list syscallcounter) : gmap Z Z :=
  match h with
  | [] => ∅
  | c :: r => <[sc_num c := sc_count c]> (hist_map r)
  end.

Definition hist_count (h : list syscallcounter) (n : Z) : Z := default 0 (hist_map h !! n).

(** The walk stops at the call's node, or at the last one. *)
Lemma stop_at_cons c d r num k :
  stop_at (c :: d :: r) num k = if sc_num c =? num then k else stop_at (d :: r) num (S k).
Proof. done. Qed.

Lemma stop_at_offset h num k : stop_at h num k = (k + stop_at h num 0)%nat.
Proof.
  revert k. induction h as [|c [|d r] IH]; intros k; [simpl; lia..|].
  rewrite !stop_at_cons. destruct (sc_num c =? num); [lia|].
  rewrite (IH (S k)), (IH 1%nat). lia.
Qed.

Lemma stop_at_spec h num :
  h <> [] -> exists h1 t h2, h = h1 ++ t :: h2 /\ stop_at h num 0 = length h1 /\
    Forall (fun c => sc_num c <> num) h1 /\ (sc_num t = num \/ h2 = []).
Proof.
  induction h as [|c [|d r] IH]; intros Hne; [done| |].
  - exists [], c, []. split_and!; [done|done|constructor|by right].
  - rewrite stop_at_cons. destruct (Z.eqb_spec (sc_num c) num) as [Hc|Hc].
    + exists [], c, (d :: r). split_and!; [done|done|constructor|by left].
    + destruct IH as (h1 & t & h2 & Hh & Hs & Hf & Ht); [done|].
      exists (c :: h1), t, h2. split_and!; [by rewrite Hh| |by constructor|done].
      rewrite stop_at_offset. by rewrite Hs.
Qed.

Lemma hist_map_absent h num :
  Forall (fun c => sc_num c <> num) h -> hist_map h !! num = None.
Proof.
  induction 1 as [|c h Hc _ IH]; simpl; [apply lookup_empty|]. by rewrite lookup_insert_ne.
Qed.

Lemma hist_map_middle h1 t h2 :
  Forall (fun c => sc_num c <> sc_num t) h1 ->
  hist_map (h1 ++ t :: h2) = <[sc_num t := sc_count t]> (hist_map (h1 ++ h2)).
Proof.
  induction 1 as [|c h1 Hc _ IH]; simpl; [done|]. rewrite IH. by apply insert_insert_ne.
Qed.

Lemma hist_map_cons_absent h1 h2 c :
  Forall (fun d => sc_num d <> sc_num c) (h1 ++ h2) ->
  hist_map (h1 ++ h2 ++ [c]) = <[sc_num c := sc_count c]> (hist_map (h1 ++ h2)).
Proof.
  intros H. rewrite app_assoc, (hist_map_middle (h1 ++ h2) c []) by done. by rewrite app_nil_r.
Qed.

(** What one call does to the history of the running process. *)
Record hist_step (kend num : Z) (i : nat) (p : proc) (fl : list Z) (s s' : pstate) : Prop := {
  hs_hist : exists h' fl', procs s' = <[i := p <| syscallhistory := h' |>]> (procs s) /\
    hist_map h' = <[num := i32 (hist_count (syscallhistory p) num + 1)]>
      (hist_map (syscallhistory p)) /\
    kmem_inv kend (pkmem s') fl' /\ (length fl <= S (length fl'))%nat /\
    map sc_page h' ++ fl' ≡ₚ map sc_page (syscallhistory p) ++ fl;
  hs_cur : curproc s' = curproc s
}.

Lemma newcounter_ok kend num v fl L s :
  kmem_inv kend (pkmem s) (v :: fl) -> Lkmem ∉ L ->
  exists k', newcounter num L s = Ok (Some (mkCounter v num 1)) L (s <| pkmem := k' |>) /\
    kmem_inv kend k' fl.
Proof.
  intros Hk HL. destruct (kalloc_spec kend (v :: fl) L (pkmem s) Hk HL)
    as (k' & Hk1 & Hinv & Hv & _). exists k'. split; [|done].
  unfold newcounter. erewrite bind_Ok by (unfold zoom; by rewrite Hk1).
  destruct (Z.eqb_spec v 0) as [->|]; [by apply page_ok_nonzero in Hv|done].
Qed.

Lemma update_spec kend num i p v fl L s :
  curproc s = Some i -> procs s !! i = Some p ->
  kmem_inv kend (pkmem s) (v :: fl) -> Lkmem ∉ L ->
  exists s', updatesyscallhistory num L s = Ok tt L s' /\ hist_step kend num i p (v :: fl) s s'.
Proof.
  intros Hc Hp Hk HL. pose proof (lookup_lt_Some _ _ _ Hp) as Hlt.
  unfold updatesyscallhistory. kstep. rewrite Hc. kstep.
  destruct (newcounter_ok kend num v fl L s Hk HL) as (k' & Hn & Hk').
  destruct (decide (syscallhistory p = [])) as [Hh|Hh].
  - rewrite Hh. erewrite bind_Ok by exact Hn. erewrite upd_proc_ok by exact Hp.
    eexists. split; [reflexivity|]. split; [|done]. eexists _, fl. cbn. split; [reflexivity|].
    rewrite Hh. simpl. unfold hist_count. simpl. rewrite lookup_empty.
    split_and!; [done|done|lia|done].
  - destruct (stop_at_spec (syscallhistory p) num Hh) as (h1 & t & h2 & Ht & Hs & Hf & Hstop).
    destruct (syscallhistory p) as [|c0 h0] eqn:Eh; [done|]. rewrite Hs, Ht.
    rewrite list_lookup_middle by done. kstep.
    destruct (Z.eqb_spec (sc_num t) num) as [Hnum|Hnum].
    + erewrite upd_proc_ok by exact Hp. eexists. split; [reflexivity|]. split; [|done].
      eexists _, (v :: fl). cbn. split; [reflexivity|].
      rewrite insert_app_r_alt, Nat.sub_diag by lia. simpl. subst num.
      rewrite Eh, Ht. split_and!; [|done|simpl; lia|by rewrite !map_app].
      rewrite hist_map_middle by done.
      unfold hist_count. rewrite (hist_map_middle h1 t h2) by done. cbn.
      by rewrite lookup_insert_eq, insert_insert_eq.
    + destruct Hstop as [?|Hh2]; [done|]. subst h2.
      erewrite bind_Ok by exact Hn. erewrite upd_proc_ok by exact Hp.
      eexists. split; [reflexivity|]. split; [|done].
      eexists _, fl. cbn. split; [reflexivity|]. rewrite Eh, Ht.
      assert (Hall : Forall (fun c => sc_num c <> num) (h1 ++ [t])).
      { apply Forall_app. split; [done|by constructor]. }
      split_and!; [|done|simpl; lia|].
      * rewrite <- app_assoc. rewrite (hist_map_cons_absent h1 [t] (mkCounter v num 1)) by done.
        unfold hist_count. by rewrite hist_map_absent.
      * rewrite !map_app. simpl. rewrite <- app_assoc. done.
Qed.

Definition occurrences (n : Z) (ns : list Z) : Z := Z.of_nat (count_occ Z.eq_dec ns n).

Lemma hist_count_insert h h' num v n :
  hist_map h' = <[num := v]> (hist_map h) ->
  hist_count h' n = if decide (n = num) then v else hist_count h n.
Proof.
  intros H. unfold hist_count. rewrite H. case_decide as Hn.
  - subst. by rewrite lookup_insert_eq.
  - by rewrite lookup_insert_ne.
Qed.

Lemma updates_spec kend ns i p fl L s :
  curproc s = Some i -> procs s !! i = Some p -> kmem_inv kend (pkmem s) fl -> Lkmem ∉ L ->
  (length ns <= length fl)%nat ->
  (forall n, 0 <= hist_count (syscallhistory p) n /\
    hist_count (syscallhistory p) n + Z.of_nat (length ns) < 2 ^ 31) ->
  exists s' h', kiter updatesyscallhistory ns L s = Ok tt L s' /\ curproc s' = Some i /\
    procs s' !! i = Some (p <| syscallhistory := h' |>) /\
    (h' = [] -> ns = [] /\ syscallhistory p = []) /\
    forall n, hist_count h' n = hist_count (syscallhistory p) n + occurrences n ns.
Proof.
  revert p fl s. induction ns as [|num ns IH]; intros p fl s Hc Hp Hk HL Hlen Hb; simpl.
  { exists s, (syscallhistory p). split_and!; [done|done|by rewrite Hp; destruct p|done|].
    intros n. unfold occurrences. simpl. lia. }
  destruct fl as [|v fl]; [simpl in Hlen; lia|].
  destruct (update_spec kend num i p v fl L s Hc Hp Hk HL)
    as (s1 & H1 & [(h1 & fl1 & Hps & Hm & Hk1 & Hl1 & _) Hc1]).
  kstep. set (p1 := p <| syscallhistory := h1 |>) in *. simpl in Hl1, Hlen.
  assert (Hcount : forall n, hist_count h1 n = hist_count (syscallhistory p) n
    + (if decide (n = num) then 1 else 0)).
  { intros n. rewrite (hist_count_insert _ _ _ _ n Hm). destruct (Hb num), (Hb n).
    simpl in *. case_decide; [subst|lia]. rewrite i32_small; lia. }
  destruct (IH p1 fl1 s1) as (s' & h' & Hrun & Hc' & Hp' & He & Hn); [congruence| |done|done|lia| |].
  - rewrite Hps. apply list_lookup_insert_eq. by eapply lookup_lt_Some.
  - intros n. cbn. rewrite Hcount. destruct (Hb n). simpl in *. case_decide; lia.
  - exists s', h'. split_and!; [done|done|done| |].
    + intros [_ Hh1]%He. cbn in Hh1. subst h1. exfalso.
      assert (hist_map [] !! num = Some (i32 (hist_count (syscallhistory p) num + 1))) as Hx
        by (by rewrite Hm, lookup_insert_eq). done.
    + intros n. rewrite Hn. cbn. rewrite Hcount. unfold occurrences. simpl.
      destruct (Z.eq_dec num n), (decide (n = num)); subst; try done; lia.
Qed.

Lemma getsyscallcounter_ok num i p L s :
  curproc s = Some i -> procs s !! i = Some p -> syscallhistory p <> [] ->
  getsyscallcounter num L s = Ok (hist_count (syscallhistory p) num) L s.
Proof.
  intros Hc Hp Hh. unfold getsyscallcounter. kstep. rewrite Hc. kstep.
  destruct (stop_at_spec (syscallhistory p) num Hh) as (h1 & t & h2 & Ht & -> & Hf & Hstop).
  rewrite Ht, list_lookup_middle by done. kstep. unfold mret, K_ret, hist_count. f_equal.
  destruct (Z.eqb_spec (sc_num t) num) as [Hnum|Hnum].
  - subst num. rewrite hist_map_middle by done. by rewrite lookup_insert_eq.
  - destruct Hstop as [?|Hh2]; [done|]. subst h2. rewrite hist_map_absent; [done|].
    apply Forall_app. split; [done|by constructor].
Qed.

(** The history counts: after the calls [ns], starting from no history and
    with memory for the counters, [getsyscallcounter(n)] returns how often [n]
    was called, 0 included. *)
Theorem history_counts kend ns n i p fl L s
    (Hc : curproc s = Some i) (Hp : procs s !! i = Some p) (Hh : syscallhistory p = [])
    (Hk : kmem_inv kend (pkmem s) fl) (HL : Lkmem ∉ L) (Hlen : (length ns <= length fl)%nat)
    (Hns : 0 < Z.of_nat (length ns) < 2 ^ 31) :
  exists s', (kiter updatesyscallhistory ns ;; getsyscallcounter n) L s =
    Ok (occurrences n ns) L s'.
Proof.
  destruct (updates_spec kend ns i p fl L s Hc Hp Hk HL Hlen)
    as (s' & h' & Hrun & Hc' & Hp' & He & Hn).
  { intros m. rewrite Hh. unfold hist_count. simpl. rewrite lookup_empty. simpl. lia. }
  exists s'. erewrite bind_Ok by exact Hrun.
  erewrite getsyscallcounter_ok; [|done|done|].
  - cbn. rewrite Hn, Hh. unfold hist_count. simpl. by rewrite lookup_empty.
  - cbn. intros [-> _]%He. simpl in Hns. lia.
Qed.

(** With no history at all (the first counter could not be allocated, or
    [kill] has freed the list) [getsyscallcounter] follows a null pointer. *)
Theorem getsyscallcounter_empty num i p L s
    (Hc : curproc s = Some i) (Hp : procs s !! i = Some p) (Hh : syscallhistory p = []) :
  getsyscallcounter num L s = Fault "temp->next".
Proof. unfold getsyscallcounter. kstep. rewrite Hc. kstep. by rewrite Hh. Qed.

(** *** The dispatcher *)

Definition in_table (num : Z) : bool := (0 <? num) && (num <? nsyscalls).

Lemma tf_read_ok off i p L s :
  caller i p s -> tf_read off L s = Ok (load32 (kmemory (pkmem (kst s))) (tf p + off)) L s.
Proof. intros H. unfold tf_read. kstep. by kstep. Qed.

Lemma tf_write_ok off v i p L s :
  caller i p s -> tf_write off v L s = Ok tt L (s <| kst ::= fun k => k <| pkmem ::= fun km =>
    km <| kmemory ::= fun m => store32 m (tf p + off) v |> |> |>).
Proof. intros H. unfold tf_write. by kstep. Qed.

Section dispatcher.
Context {S : Type} (g : S -> ustate) `{!Setter g} `{!Lens g}.
Variables (unknown : Z -> K S unit) (syscalls : Z -> K S Z).

(** A number outside 1..29 runs no handler and leaves the history alone: after
    the message, -1 is what the user finds in [eax]. *)
Theorem syscall_unknown i p L s s1 (H : caller i p (g s))
    (Hn : in_table (i32 (load32 (kmemory (pkmem (kst (g s)))) (tf p + tf_eax))) = false)
    (Hmsg : unknown (i32 (load32 (kmemory (pkmem (kst (g s)))) (tf p + tf_eax))) L s = Ok tt L s1)
    (Hg : g s1 = g s) :
  syscall g unknown syscalls L s = Ok tt L (s1 <| g := (g s) <| kst ::= fun k => k <| pkmem ::= fun km =>
    km <| kmemory ::= fun m => store32 m (tf p + tf_eax) (-1) |> |> |> |>).
Proof.
  unfold syscall. erewrite bind_Ok by (apply zoom_Ok, (tf_read_ok _ i p), H).
  rewrite lens_id. unfold in_table in Hn. cbv zeta. rewrite Hn. erewrite bind_Ok by exact Hmsg.
  erewrite zoom_Ok; [|apply (tf_write_ok _ _ i p); by rewrite Hg]. by rewrite Hg.
Qed.

(** A known call is recorded in the history first; then its handler runs, and
    its result is what the user finds in [eax]. *)
Theorem syscall_dispatch kend num i p v fl L s (H : caller i p (g s))
    (Hnum : i32 (load32 (kmemory (pkmem (kst (g s)))) (tf p + tf_eax)) = num)
    (Hin : in_table num = true)
    (Hk : kmem_inv kend (pkmem (kst (g s))) (v :: fl)) (HL : Lkmem ∉ L) :
  exists k1, hist_step kend num i p (v :: fl) (kst (g s)) k1 /\
    forall r L' s' j q, syscalls num L (s <| g := (g s) <| kst := k1 |> |>) = Ok r L' s' ->
      caller j q (g s') ->
      exists s2, syscall g unknown syscalls L s = Ok tt L' s2 /\
        load32 (kmemory (pkmem (kst (g s2)))) (tf q + tf_eax) = u32 r /\ um (g s2) = um (g s').
Proof.
  destruct (update_spec kend num i p v fl L (kst (g s)) (ca_cur _ _ _ H) (ca_proc _ _ _ H) Hk HL)
    as (k1 & Hu & Hstep).
  exists k1. split; [done|]. intros r L' s' j q Hcall Hq.
  unfold syscall. erewrite bind_Ok by (apply zoom_Ok, (tf_read_ok _ i p), H).
  rewrite lens_id. cbv zeta. rewrite Hnum. unfold in_table in Hin. rewrite Hin.
  erewrite bind_Ok by (apply zoom_Ok, zoom_Ok, Hu). erewrite bind_Ok by exact Hcall.
  erewrite zoom_Ok by (by apply (tf_write_ok _ _ j q)). eexists. split; [reflexivity|].
  rewrite lens_get. cbn. split; [apply load32_store32_eq|done].
Qed.
End dispatcher.

(** *** sys_sleep *)

(** What the rest of the system does for a sleeper: some time later, at least
    one tick and less than 2^31, the process runs again, not killed. *)
Definition wakes_later (swtch : K pstate unit) (c : Z) (i : nat) : Prop :=
  forall s p, procs s !! i = Some p -> asleep_on c p -> curproc s = Some i ->
    exists s2 p2 d, swtch [Lptable] s = Ok tt [Lptable] s2 /\ running i p2 s2 /\
      killed p2 = 0 /\ 1 <= d < 2 ^ 31 /\ ticks s2 = u32 (ticks s + d).

Lemma running_wake i p s :
  running i p s -> running i (p <| chan := 0 |>)
    (s <| procs ::= fun ps => <[i := p <| chan := 0 |>]> ps |>).
Proof.
  intros [Hc Hp Hs Hb]. split; cbn; try done.
  apply list_lookup_insert_eq. by eapply lookup_lt_Some.
Qed.

Lemma sleep_loop_waits swtch c n t0 i fuel p s :
  wakes_later swtch c i -> running i p s -> killed p = 0 ->
  0 <= n < 2 ^ 31 -> Z.max 0 (n - u32 (ticks s - t0)) < Z.of_nat fuel ->
  exists s', sleep_loop swtch fuel c n t0 [Ltickslock] s = Ok 0 [] s' /\
    n <= u32 (ticks s' - t0).
Proof.
  intros Hw. revert p s. induction fuel as [|f IH]; intros p s Hr Hk Hn Hf; [lia|].
  simpl. kstep. rewrite (u32_small n) by lia.
  destruct (Z.ltb_spec (u32 (ticks s - t0)) n) as [Hlt|Hge].
  2: { kstep. exists s. split; [done|lia]. }
  pose proof Hr as [Hc Hp _ _]. pose proof (lookup_lt_Some _ _ _ Hp) as Hi.
  kstep. kstep. rewrite Hk. simpl.
  destruct (Hw (at_sleep c i p s) (gone_to_sleep c (ticks s) p)) as (s2 & p2 & d & Hs & Hr2 & Hk2 & Hd & Ht);
    [by apply list_lookup_insert_eq|done|done|].
  erewrite bind_Ok by (eapply sleep_resumes; [exact Hr|exact Hs|apply (rn_proc _ _ _ Hr2)]).
  apply (IH (p2 <| chan := 0 |>)); [by apply running_wake|done|done|].
  cbn. rewrite Ht. cbn. rewrite u32_sub_l.
  replace (ticks s + d - t0) with ((ticks s - t0) + d) by lia. rewrite <- u32_add_l.
  pose proof (u32_range (ticks s - t0)). rewrite (u32_small (_ + d)) by lia. lia.
Qed.

(** [sleep(n)] returns 0 only after at least [n] ticks, and it does return:
    with as much fuel as ticks to wait and one more, provided the sleeper is
    resumed after each tick it is woken by. *)
Theorem sys_sleep_waits swtch c n i p s fuel (H : caller i p s) (Hr : running i p (kst s))
    (Hw : wakes_later swtch c i) (Hk : killed p = 0)
    (Ha : arg_addr s p 0 + 4 <= sz p) (Hn : load32 (um s) (arg_addr s p 0) = n)
    (Hb : n < 2 ^ 31) (Hf : n < Z.of_nat fuel) :
  exists s', sys_sleep swtch fuel c [] s = Ok 0 [] s' /\
    n <= u32 (ticks (kst s') - ticks (kst s)).
Proof.
  pose proof (load32_range (um s) (arg_addr s p 0)) as Hl. rewrite Hn in Hl.
  unfold sys_sleep. erewrite bind_Ok by by eapply argint_ok.
  rewrite decide_True by done. rewrite Hn, i32_small by lia.
  destruct (sleep_loop_waits swtch c n (ticks (kst s)) i fuel p (kst s)) as (k' & Hrun & Hge);
    [done|done|done|lia|rewrite Z.sub_diag; unfold u32; rewrite Z.mod_0_l; lia|].
  exists (s <| kst := k' |>). split; [|done]. unfold zoom. kstep. kstep. by rewrite Hrun.
Qed.

(** *** Calls that check their arguments *)

(** [sys_setpriority] refuses priorities below 1; a value above 6 becomes 5,
    not the lowest priority 6; pids above 64 are refused although
    [nextpid] grows without bound. *)
Theorem sys_setpriority_clamps i p pid prio s L (H : caller i p s)
    (H0 : arg_addr s p 0 + 4 <= sz p) (H1 : arg_addr s p 1 + 4 <= sz p)
    (Hpid : i32 (load32 (um s) (arg_addr s p 0)) = pid)
    (Hprio : i32 (load32 (um s) (arg_addr s p 1)) = prio) :
  sys_setpriority L s =
    if decide (0 <= pid <= NPROC /\ 1 <= prio) then
      zoom kst (setPriority pid (if decide (prio <= MAXPRIORITY) then prio else 5)) L s
    else Ok (-1) L s.
Proof.
  unfold sys_setpriority. erewrite bind_Ok by by eapply argint_ok.
  rewrite decide_True by done. erewrite bind_Ok by by eapply argint_ok.
  rewrite (decide_True (P := arg_addr s p 1 + 4 <= sz p)) by done. rewrite Hpid, Hprio.
  destruct (Z.ltb_spec pid 0); simpl; [by rewrite decide_False by lia|].
  destruct (Z.gtb_spec pid NPROC); simpl; [by rewrite decide_False by lia|].
  destruct (Z.ltb_spec prio 1); simpl; [by rewrite decide_False by lia|].
  rewrite decide_True by lia. unfold MAXPRIORITY.
  destruct (Z.gtb_spec prio 6); [by rewrite decide_False by lia|by rewrite decide_True by lia].
Qed.

(** [sys_getinfo(64, ...)] passes the check [pid > NPROC] and reads one element
    past the end of [infos]. *)
Theorem sys_getinfo_off_by_one i p s L (H : caller i p s)
    (Hinfos : length (infos (kst s)) = Z.to_nat NPROC)
    (H0 : arg_addr s p 0 + 4 <= sz p) (Hpid : load32 (um s) (arg_addr s p 0) = NPROC)
    (H1 : arg_addr s p 1 + 4 <= sz p)
    (Hptr : load32 (um s) (arg_addr s p 1) + sizeof_info <= sz p) :
  sys_getinfo L s = Fault "infos".
Proof.
  pose proof (ca_size _ _ _ H) as Hz. pose proof (load32_range (um s) (arg_addr s p 1)) as Hr.
  unfold sys_getinfo. erewrite bind_Ok by by eapply argint_ok.
  rewrite decide_True, Hpid by done. unfold argptr. rewrite bind_assoc.
  kstep. rewrite bind_assoc. erewrite bind_Ok by by eapply argint_ok. rewrite decide_True by done.
  cbn. rewrite u32_i32_load. unfold sizeof_info, KERNBASE in *.
  destruct (Z.leb_spec (sz p) (load32 (um s) (arg_addr s p 1))); simpl; [lia|].
  rewrite u32_small by lia. destruct (Z.ltb_spec (sz p) (load32 (um s) (arg_addr s p 1) + 20)); simpl; [lia|].
  kstep. cbn. apply bind_Fault. unfold zoom. cbn. unfold getinfo. kstep. change (i32 NPROC) with 64.
  by rewrite aget_out by (rewrite Hinfos; change (Z.to_nat NPROC) with 64%nat; lia).
Qed.

(** *** Concrete runs *)

(** A process with one page of memory and its trap frame at 0x80200000: user
    stack pointer 100, call [num], and the argument words [a0] and [a1]. *)
Definition user : proc := runner <| sz := 4096 |> <| tf := 0x80200000 |>.
Definition call (num a0 a1 : Z) : ustate :=
  mkUstate
    ((machine [user]) <| infos := replicate 64 (mkInfo 0 0 0 0 0) |>
      <| pkmem := mkKmem (store32 (store32 (fun _ => 0) (0x80200000 + tf_esp) 100)
                    (0x80200000 + tf_eax) num) 1 0x80100000 |>)
    (store32 (store32 (fun _ => 0) 104 a0) 108 a1).

Lemma call_caller num a0 a1 : caller O user (call num a0 a1).
Proof. split; [done|done|]. cbn. unfold KERNBASE. lia. Qed.

Lemma call_running num a0 a1 : running O user (kst (call num a0 a1)).
Proof. by split. Qed.

Lemma call_kmem num a0 a1 : kmem_inv 0x80100000 (pkmem (kst (call num a0 a1))) [0x80100000].
Proof.
  split; [|apply NoDup_singleton|constructor; [apply page_ok_first|constructor]].
  split; [done|]. cbn. unfold tf_esp, tf_eax. by rewrite !load32_store32_ne by lia.
Qed.

Lemma argptr_in_bounds_witness :
  exists r, argptr 1 20 [] (call 27 3 512) = Ok r [] (call 27 3 512) /\ r = Some 512.
Proof.
  destruct (argptr_in_bounds O user 1 20 [] (call 27 3 512) (call_caller _ _ _) ltac:(lia))
    as (r & H1 & H2).
  exists r. split; [exact H1|]. apply H2. split_and!; by vm_compute.
Defined.

Lemma fetchstr_terminated_witness :
  exists r, fetchstr 104 [] (call 15 0x6261 0) = Ok r [] (call 15 0x6261 0) /\ r = Some (104, 2).
Proof.
  destruct (fetchstr_terminated O user 104 [] (call 15 0x6261 0) (call_caller _ _ _)
    ltac:(unfold is_u32; lia)) as (r & H1 & H2).
  exists r. split; [exact H1|]. apply H2. split; [done|]. split; [lia|]. split; [cbn; lia|].
  split; [reflexivity|]. intros k Hk.
  assert (k = 0 \/ k = 1) as [-> | ->] by lia; vm_compute; congruence.
Defined.

Lemma history_counts_witness :
  exists s', (kiter updatesyscallhistory [5] ;; getsyscallcounter 5) [] (machine [runner]) =
    Ok 1 [] s'.
Proof.
  apply (history_counts 0x80100000 [5] 5 O runner [0x80100000] [] (machine [runner])
    eq_refl eq_refl eq_refl one_page_inv (not_elem_of_nil _)); simpl; lia.
Defined.

Lemma getsyscallcounter_empty_witness :
  getsyscallcounter 5 [] (machine [runner]) = Fault "temp->next".
Proof. exact (getsyscallcounter_empty 5 O runner [] (machine [runner]) eq_refl eq_refl eq_refl). Defined.

Lemma syscall_unknown_witness :
  exists s', syscall whole (fun _ => mret tt) (fun _ => panic "not called") [] (call 30 0 0) = Ok tt [] s'.
Proof.
  eexists. exact (syscall_unknown whole (fun _ => mret tt) (fun _ => panic "not called") O user []
    (call 30 0 0) (call 30 0 0) (call_caller _ _ _) eq_refl eq_refl eq_refl).
Defined.

Lemma syscall_dispatch_witness :
  exists s2, syscall whole (fun _ => mret tt) (fun _ l s => Ok 7 l s) [] (call 11 0 0) = Ok tt [] s2 /\
    load32 (kmemory (pkmem (kst s2))) (0x80200000 + tf_eax) = 7.
Proof.
  destruct (syscall_dispatch whole (fun _ => mret tt) (fun _ l s => Ok 7 l s) 0x80100000 11 O user
    0x80100000 [] [] (call 11 0 0) (call_caller _ _ _) eq_refl eq_refl (call_kmem _ _ _) (not_elem_of_nil _))
    as (k1 & [Hh Hc] & H).
  destruct Hh as (h' & fl' & Hps & _).
  destruct (H 7 [] ((call 11 0 0) <| kst := k1 |>) O (user <| syscallhistory := h' |>) eq_refl)
    as (s2 & H1 & H2 & _).
  { split; [exact Hc|cbn; by rewrite Hps|cbn; unfold KERNBASE; lia]. }
  exists s2. split; [exact H1|]. exact H2.
Defined.

(** A world in which one tick passes and the sleeper runs again. *)
Definition next_tick : K pstate unit := fun l s =>
  Ok tt l ((machine [runner]) <| ticks := u32 (ticks s + 1) |>).

Lemma next_tick_wakes c : wakes_later next_tick c O.
Proof.
  intros s p Hp Ha Hc. eexists _, runner, 1. split; [reflexivity|]. split; [by split|].
  split; [done|]. split; [lia|done].
Qed.

Lemma sys_sleep_waits_witness :
  exists s', sys_sleep next_tick 4 7 [] (call 13 3 0) = Ok 0 [] s' /\
    3 <= u32 (ticks (kst s') - 9).
Proof.
  apply (sys_sleep_waits next_tick 7 3 O user (call 13 3 0) 4 (call_caller _ _ _)
    (call_running _ _ _) (next_tick_wakes 7)); by vm_compute.
Defined.

Lemma sys_setpriority_clamps_witness :
  sys_setpriority [] (call 25 2 9) = zoom kst (setPriority 2 5) [] (call 25 2 9).
Proof.
  exact (sys_setpriority_clamps O user 2 9 (call 25 2 9) [] (call_caller _ _ _)
    ltac:(by vm_compute) ltac:(by vm_compute) eq_refl eq_refl).
Defined.

Lemma sys_getinfo_off_by_one_witness :
  sys_getinfo [] (call 27 64 512) = Fault "infos".
Proof.
  apply (sys_getinfo_off_by_one O user (call 27 64 512) [] (call_caller _ _ _)); by vm_compute.
Defined.

End SyscallSpec.
