(* ===== verification/Spinlock.v ===== *)
(** Spin locks and interrupt nesting (spinlock.c, proc.c [mycpu]), at the level
    of the lock word, the owner field and the interrupt flag; and why the rest
    of the development may treat locks as the list of those a CPU holds. *)

From stdpp Require Import base numbers list sets strings relations.
From Stdlib Require Import ZArith Lia.
From S2P Require Import Prelude Mem Mmu Param.
Import Mmu Param.

Module Spinlock.

Record spinlock := mkLock { locked : Z; lcpu : option nat; pcs : list Z }.
#[export] Instance eta_spinlock : Eta spinlock := fun k => mkLock k.(locked) k.(lcpu) k.(pcs).

(** The part of [struct cpu] that locking uses. *)
Record cpu := mkCpu { apicid : Z; ncli : Z; intena : bool }.
#[export] Instance eta_cpu : Eta cpu := fun c => mkCpu c.(apicid) c.(ncli) c.(intena).

(** The machine seen from one CPU: its interrupt flag, the shared table of
    CPUs, the shared locks and memory. *)
Record mach := mkMach {
  ifl : bool;
  cpus : list cpu;
  lks : lockid -> spinlock;
  memory : mem
}.
#[export] Instance eta_mach : Eta mach :=
  fun m => mkMach m.(ifl) m.(cpus) m.(lks) m.(memory).

Definition initlock (k : lockid) : K mach unit :=
  modify (fun m => m <| lks ::= fun f x =>
    if decide (x = k) then (f x) <| locked := 0 |> <| lcpu := None |> else f x |>).

(** [getcallerpcs]: at most ten saved return addresses along the [ebp] chain. *)
Fixpoint caller_chain (m : mem) (ebp : Z) (n : nat) : list Z :=
  match n with
  | O => []
  | S n' =>
      if (ebp =? 0) || (ebp <? KERNBASE) || (ebp =? 0xffffffff) then replicate n 0
      else load32 m (ebp + 4) :: caller_chain m (load32 m ebp) n'
  end.
Definition getcallerpcs (m : mem) (v : Z) : list Z := caller_chain m (u32 (v - 8)) 10.

Section spinlock.
(** The local APIC id of this CPU, the address of the lock argument on the
    stack, and what the other CPUs do between two attempts to get a lock. *)
Variables (lapicid : Z) (argp : Z) (others : mach -> mach).

Fixpoint find_cpu (cs : list cpu) (i : nat) : option nat :=
  match cs with
  | [] => None
  | c :: r => if apicid c =? lapicid then Some i else find_cpu r (S i)
  end.

Definition mycpu : K mach nat :=
  e ← gets ifl;
  if (e : bool) then panic "mycpu called with interrupts enabled" else
  cs ← gets cpus;
  match find_cpu cs 0 with
  | Some i => mret i
  | None => panic "unknown apicid"
  end.

Definition get_cpu (i : nat) : K mach cpu := cs ← gets cpus; deref "cpus" (cs !! i).
Definition upd_cpu (i : nat) (f : cpu -> cpu) : K mach unit :=
  c ← get_cpu i; modify (fun m => m <| cpus ::= fun cs => <[i := f c]> cs |>).
Definition upd_lock (k : lockid) (f : spinlock -> spinlock) : K mach unit :=
  modify (fun m => m <| lks ::= fun g x => if decide (x = k) then f (g x) else g x |>).

Definition pushcli : K mach unit :=
  e ← gets ifl;
  modify (fun m => m <| ifl := false |>) ;;
  i ← mycpu;
  c ← get_cpu i;
  (if ncli c =? 0 then upd_cpu i (fun c => c <| intena := e |>) else mret tt) ;;
  upd_cpu i (fun c => c <| ncli ::= fun n => i32 (n + 1) |>).

Definition popcli : K mach unit :=
  e ← gets ifl;
  if (e : bool) then panic "popcli - interruptible" else
  i ← mycpu;
  upd_cpu i (fun c => c <| ncli ::= fun n => i32 (n - 1) |>) ;;
  c ← get_cpu i;
  if ncli c <? 0 then panic "popcli"
  else if (ncli c =? 0) && intena c then modify (fun m => m <| ifl := true |>)
  else mret tt.

Definition holding (k : lockid) : K mach bool :=
  pushcli ;;
  f ← gets lks;
  i ← mycpu;
  let r := nz (locked (f k)) && bool_decide (lcpu (f k) = Some i) in
  popcli ;; mret r.

(** [while (xchg(&lk->locked, 1) != 0);] *)
Fixpoint spin (fuel : nat) (k : lockid) : K mach unit :=
  match fuel with
  | O => fault "still spinning"
  | S n =>
      f ← gets lks;
      upd_lock k (fun x => x <| locked := 1 |>) ;;
      if nz (locked (f k)) then modify others ;; spin n k else mret tt
  end.

Definition acquire (fuel : nat) (k : lockid) : K mach unit :=
  pushcli ;;
  h ← holding k;
  if (h : bool) then panic "acquire" else
  spin fuel k ;;
  i ← mycpu;
  upd_lock k (fun x => x <| lcpu := Some i |>) ;;
  m ← gets memory;
  upd_lock k (fun x => x <| pcs := getcallerpcs m argp |>).

Definition release (k : lockid) : K mach unit :=
  h ← holding k;
  if negb h then panic "release" else
  upd_lock k (fun x => x <| pcs ::= fun l => <[0%nat := 0]> l |>) ;;
  upd_lock k (fun x => x <| lcpu := None |>) ;;
  upd_lock k (fun x => x <| locked := 0 |>) ;;
  popcli.

End spinlock.

(** *** Interrupt nesting *)

Section nesting.
Variable lapicid : Z.

(** This CPU is number [c] of the table, with state [x]. *)
Definition me (m : mach) (c : nat) (x : cpu) : Prop :=
  find_cpu lapicid (cpus m) 0 = Some c /\ cpus m !! c = Some x.

Lemma find_cpu_insert cs i k x y :
  cs !! i = Some x -> apicid y = apicid x ->
  find_cpu lapicid (<[i := y]> cs) k = find_cpu lapicid cs k.
Proof.
  revert i k. induction cs as [|c cs IH]; intros i k Hi Ha; [done|].
  destruct i as [|i]; simpl in *.
  - injection Hi as <-. by rewrite Ha.
  - destruct (apicid c =? lapicid); [done|]. by apply IH.
Qed.

Lemma me_update m c x (f : mach -> mach) y :
  me m c x -> cpus (f m) = <[c := y]> (cpus m) -> apicid y = apicid x -> me (f m) c y.
Proof.
  intros [H1 H2] Hf Ha. unfold me. rewrite Hf. split.
  - by rewrite (find_cpu_insert _ _ _ x).
  - apply list_lookup_insert_eq. by eapply lookup_lt_Some.
Qed.

Lemma mycpu_ok m c x L : me m c x -> ifl m = false -> mycpu lapicid L m = Ok c L m.
Proof. intros [H1 _] Hi. unfold mycpu. kstep. rewrite Hi. kstep. by rewrite H1. Qed.

Lemma get_cpu_ok m c x L : cpus m !! c = Some x -> get_cpu c L m = Ok x L m.
Proof. intros H. unfold get_cpu. kstep. by rewrite H. Qed.

Lemma upd_cpu_ok m c x f L :
  cpus m !! c = Some x ->
  upd_cpu c f L m = Ok tt L (m <| cpus ::= fun cs => <[c := f x]> cs |>).
Proof. intros H. unfold upd_cpu. by erewrite bind_Ok by by apply get_cpu_ok. Qed.

(** The state of the CPU after [pushcli] and [popcli]. *)
Definition pushed (m : mach) (x : cpu) : cpu :=
  x <| intena := if ncli x =? 0 then ifl m else intena x |> <| ncli := ncli x + 1 |>.
Definition after_push (m : mach) (c : nat) (x : cpu) : mach :=
  m <| ifl := false |> <| cpus ::= fun cs => <[c := pushed m x]> cs |>.
Definition after_pop (m : mach) (c : nat) (x : cpu) : mach :=
  m <| ifl := (ncli x =? 1) && intena x |>
    <| cpus ::= fun cs => <[c := x <| ncli := ncli x - 1 |>]> cs |>.

Lemma pushcli_ok m c x L :
  me m c x -> 0 <= ncli x < 2 ^ 31 - 1 -> pushcli lapicid L m = Ok tt L (after_push m c x).
Proof.
  intros Hm Hn. pose proof Hm as [_ Hx]. pose proof (lookup_lt_Some _ _ _ Hx) as Hlt.
  unfold pushcli. kstep. kstep. erewrite bind_Ok by (by eapply mycpu_ok).
  erewrite bind_Ok by (by apply get_cpu_ok).
  unfold after_push, pushed. destruct (ncli x =? 0) eqn:E.
  - erewrite bind_Ok by (by apply upd_cpu_ok).
    erewrite upd_cpu_ok by (cbn; by apply list_lookup_insert_eq).
    cbn. rewrite list_insert_insert_eq, i32_small by lia. done.
  - kstep. erewrite upd_cpu_ok by done. cbn. rewrite i32_small by lia. done.
Qed.

Lemma popcli_ok m c x L :
  me m c x -> 1 <= ncli x < 2 ^ 31 -> ifl m = false ->
  popcli lapicid L m = Ok tt L (after_pop m c x).
Proof.
  intros Hm Hn Hi. pose proof Hm as [_ Hx]. pose proof (lookup_lt_Some _ _ _ Hx) as Hlt.
  unfold popcli. kstep. rewrite Hi. erewrite bind_Ok by (by eapply mycpu_ok).
  erewrite bind_Ok by (by apply upd_cpu_ok).
  erewrite bind_Ok by (apply get_cpu_ok; cbn; by apply list_lookup_insert_eq).
  cbn. rewrite i32_small by lia. destruct (Z.ltb_spec (ncli x - 1) 0); [lia|].
  replace (ncli x - 1 =? 0) with (ncli x =? 1) by (destruct (Z.eqb_spec (ncli x) 1), (Z.eqb_spec (ncli x - 1) 0); lia || done).
  unfold after_pop. destruct (_ && _); [done|]. unfold mret, K_ret. f_equal.
  destruct m. cbn in *. by subst.
Qed.

Lemma after_push_me m c x : me m c x -> me (after_push m c x) c (pushed m x).
Proof. intros H. by apply (me_update m c x (fun m => after_push m c x)). Qed.

(** Nesting never leaves interrupts on inside. *)
Definition quiet (m : mach) (x : cpu) : Prop :=
  0 <= ncli x /\ (0 < ncli x -> ifl m = false).

(** A [popcli] undoes the [pushcli] before it, but for the saved flag. *)
Lemma push_pop m c x :
  quiet m x ->
  after_pop (after_push m c x) c (pushed m x) =
    m <| cpus ::= fun cs => <[c := x <| intena := if ncli x =? 0 then ifl m else intena x |>]> cs |>.
Proof.
  intros [Hn Hi]. unfold after_pop, after_push, pushed. cbn. rewrite list_insert_insert_eq.
  destruct m as [e cs f mm]. cbn in *. replace (ncli x + 1 - 1) with (ncli x) by lia.
  destruct (Z.eqb_spec (ncli x) 0) as [Hz|Hz]; [by rewrite Hz|].
  rewrite Hi by lia. by replace (ncli x + 1 =? 1) with false by lia.
Qed.

(** [n] times [pushcli], a body, [n] times [popcli]. *)
Fixpoint nested (n : nat) (body : K mach unit) : K mach unit :=
  match n with
  | O => body
  | S n' => pushcli lapicid ;; nested n' body ;; popcli lapicid
  end.

(** A body that leaves the CPU table alone, given interrupts off. *)
Definition interrupts_off (L : locks) (body : K mach unit) (g : mach -> mach) : Prop :=
  forall m, ifl m = false -> body L m = Ok tt L (g m) /\ ifl (g m) = false /\ cpus (g m) = cpus m.

Lemma nested_spec n body g m c x L :
  me m c x -> quiet m x -> ncli x + Z.of_nat n < 2 ^ 31 -> interrupts_off L body g ->
  (n = O -> ifl m = false) ->
  exists m', nested n body L m = Ok tt L m' /\ ifl m' = ifl m /\
    exists y, me m' c y /\ ncli y = ncli x /\ (0 < ncli x -> intena y = intena x).
Proof.
  revert m x. induction n as [|n IH]; intros m x Hm Hq Hb Hbody Hz; simpl.
  { destruct (Hbody m (Hz eq_refl)) as (H1 & H2 & H3). exists (g m). split; [done|].
    split; [by rewrite H2, Hz|]. exists x. unfold me. by rewrite H3. }
  destruct Hq as [Hn Hi].
  erewrite bind_Ok by (apply pushcli_ok; [done|lia]).
  destruct (IH (after_push m c x) (pushed m x)) as (m1 & H1 & Hi1 & y & Hy & Hny & Hiy);
    [by apply after_push_me|by split; [cbn; lia|]|cbn; lia|done|done|].
  erewrite bind_Ok by exact H1. cbn in Hny, Hi1, Hiy.
  rewrite (popcli_ok m1 c y) by (done || lia). eexists. split; [reflexivity|].
  split.
  - cbn. rewrite Hiy, Hny by lia. destruct (Z.eqb_spec (ncli x) 0) as [E|E].
    + by rewrite E.
    + replace (ncli x + 1 =? 1) with false by lia. rewrite Hi by lia. done.
  - exists (y <| ncli := ncli y - 1 |>). split; [|split; [cbn; lia|]].
    + by apply (me_update m1 c y (fun m => after_pop m c y)).
    + cbn. intros Hp. rewrite Hiy by lia. by replace (ncli x =? 0) with false by lia.
Qed.

(** [pushcli] and [popcli] nest: whatever the depth, the body between them
    runs with interrupts off, and the last [popcli] leaves the interrupt flag
    and the nesting depth as the first [pushcli] found them. *)
Theorem pushcli_nests n body g m c x L (Hm : me m c x) (Hq : quiet m x)
    (Hb : ncli x + Z.of_nat n < 2 ^ 31) (Hn : (0 < n)%nat) (Hbody : interrupts_off L body g) :
  exists m', nested n body L m = Ok tt L m' /\ ifl m' = ifl m /\
    exists y, me m' c y /\ ncli y = ncli x.
Proof.
  destruct (nested_spec n body g m c x L) as (m' & H1 & H2 & y & H3 & H4 & _); try done; [lia|].
  exists m'. split; [done|]. split; [done|]. by exists y.
Qed.
End nesting.

(** *** Spin locks as the locks a CPU holds *)

Section holds.
Variable lapicid : Z.

(** CPU [c] holds the locks [L]; [e] was its interrupt flag before it took
    the first of them. *)
Record holds (m : mach) (c : nat) (e : bool) (L : locks) : Prop := {
  h_cpu : exists x, me lapicid m c x /\ ncli x = Z.of_nat (length L) /\ (L <> [] -> intena x = e);
  h_if : ifl m = match L with [] => e | _ => false end;
  h_locks : forall k, k ∈ L <-> lcpu (lks m k) = Some c;
  h_word : forall k, k ∈ L -> locked (lks m k) <> 0;
  h_nodup : NoDup L
}.

Lemma holding_ok m c x k L0 :
  me lapicid m c x -> quiet m x -> ncli x < 2 ^ 31 - 1 ->
  holding lapicid k L0 m = Ok (nz (locked (lks m k)) && bool_decide (lcpu (lks m k) = Some c)) L0
    (m <| cpus ::= fun cs => <[c := x <| intena := if ncli x =? 0 then ifl m else intena x |>]> cs |>).
Proof.
  intros Hm Hq Hb. pose proof Hq as [Hn _]. unfold holding.
  erewrite bind_Ok by (apply pushcli_ok; [done|lia]). kstep.
  erewrite bind_Ok by (by eapply mycpu_ok; [apply after_push_me|]).
  erewrite bind_Ok by (apply popcli_ok; [by apply after_push_me|cbn; lia|done]).
  by rewrite push_pop.
Qed.

(** While some lock is held, asking changes nothing. *)
Lemma holding_inside m c x k L0 :
  me lapicid m c x -> 0 < ncli x < 2 ^ 31 - 1 -> ifl m = false ->
  holding lapicid k L0 m =
    Ok (nz (locked (lks m k)) && bool_decide (lcpu (lks m k) = Some c)) L0 m.
Proof.
  intros Hm Hn Hi. rewrite (holding_ok m c x) by (done || lia || split; auto; lia).
  f_equal. replace (ncli x =? 0) with false by lia. destruct Hm as [_ Hx], m, x. cbn in *.
  by rewrite list_insert_id.
Qed.

Lemma holds_test m c e L k :
  holds m c e L ->
  nz (locked (lks m k)) && bool_decide (lcpu (lks m k) = Some c) = bool_decide (k ∈ L).
Proof.
  intros [_ _ Hl Hw _]. destruct (decide (k ∈ L)) as [Hk|Hk].
  - rewrite (bool_decide_eq_true_2 (k ∈ L)) by done. rewrite bool_decide_eq_true_2 by by apply Hl.
    unfold nz. by rewrite (proj2 (Z.eqb_neq _ _) (Hw k Hk)).
  - rewrite (bool_decide_eq_false_2 (k ∈ L)) by done. rewrite bool_decide_eq_false_2 by by rewrite <- Hl.
    apply andb_false_r.
Qed.

Section acquire.
Variables (argp : Z) (others : mach -> mach) (c : nat).

(** The other CPUs leave alone this CPU's entry and interrupt flag and the
    locks it holds, and take no lock in its name. *)
Definition others_respect : Prop := forall m x, me lapicid m c x ->
  me lapicid (others m) c x /\ ifl (others m) = ifl m /\
  (forall k, lcpu (lks (others m) k) = Some c <-> lcpu (lks m k) = Some c) /\
  (forall k, lcpu (lks m k) = Some c -> locked (lks (others m) k) = locked (lks m k)).

(** Within [fuel] attempts the lock word is seen to be 0. *)
Fixpoint frees (fuel : nat) (k : lockid) (m : mach) : bool :=
  match fuel with
  | O => false
  | S n => (locked (lks m k) =? 0) ||
      frees n k (others (m <| lks ::= fun g x => if decide (x = k) then (g x) <| locked := 1 |> else g x |>))
  end.

(** Locks owned by this CPU survive while it spins for another one. *)
Definition same_mine (m m' : mach) : Prop :=
  ifl m' = ifl m /\ (forall x, me lapicid m c x -> me lapicid m' c x) /\
  (forall k, lcpu (lks m' k) = Some c <-> lcpu (lks m k) = Some c) /\
  (forall k, lcpu (lks m k) = Some c -> locked (lks m k) <> 0 -> locked (lks m' k) <> 0).

Lemma same_mine_trans m1 m2 m3 : same_mine m1 m2 -> same_mine m2 m3 -> same_mine m1 m3.
Proof.
  intros (A1 & A2 & A3 & A4) (B1 & B2 & B3 & B4). split_and!; [congruence|auto| |].
  - intros k. by rewrite B3, A3.
  - intros k Hk Hl. apply B4; [by apply A3|auto].
Qed.

Lemma same_mine_set m k :
  same_mine m (m <| lks ::= fun g x => if decide (x = k) then (g x) <| locked := 1 |> else g x |>).
Proof.
  split_and!; [done|done| |].
  - intros x. cbn. by case_decide.
  - intros x _ Hl. cbn. by case_decide.
Qed.

Lemma spin_ok fuel k m x L0 :
  others_respect -> me lapicid m c x -> frees fuel k m = true ->
  exists m', spin others fuel k L0 m = Ok tt L0 m' /\ same_mine m m' /\ locked (lks m' k) = 1.
Proof.
  intros Ho. revert m x. induction fuel as [|n IH]; intros m x Hm Hf; [done|].
  simpl in *. kstep. kstep. unfold nz.
  pose proof (same_mine_set m k) as Hset.
  set (m1 := m <| lks ::= fun g x => if decide (x = k) then (g x) <| locked := 1 |> else g x |>) in *.
  destruct (locked (lks m k) =? 0); simpl in *.
  - exists m1. split; [done|]. split; [done|]. cbn. by rewrite decide_True.
  - kstep. destruct (Ho m1 x Hm) as (H1 & H2 & H3 & H4).
    destruct (IH (others m1) x H1 Hf) as (m' & Hr & Hs & Hl). exists m'.
    split; [exact Hr|]. split; [|done]. eapply same_mine_trans; [exact Hset|].
    eapply same_mine_trans; [|exact Hs]. split_and!; [done|intros y Hy; by apply Ho|done|].
    intros k' Hk' Hl'. by rewrite H4.
Qed.

(** C37: A CPU that holds [L] and calls [acquire(k)] panics if it already holds
    [k]; otherwise, once the other CPUs let go of [k], the call returns with
    [k] added to the locks held, interrupts off, and their former state kept
    for the last release. *)
Theorem acquire_refines fuel k m e L L0 (Ho : others_respect) (H : holds m c e L)
    (Hb : Z.of_nat (length L) < 2 ^ 31 - 2) :
  (k ∈ L -> acquire lapicid argp others fuel k L0 m = Panic "acquire") /\
  (k ∉ L -> (forall x, me lapicid m c x -> frees fuel k (after_push m c x) = true) ->
    exists m', acquire lapicid argp others fuel k L0 m = Ok tt L0 m' /\ holds m' c e (k :: L)).
Proof.
  pose proof H as [(x & Hm & Hn & He) Hi Hl Hw Hd].
  pose proof (after_push_me lapicid m c x Hm) as Hm1.
  assert (Hhold : holding lapicid k L0 (after_push m c x) =
    Ok (bool_decide (k ∈ L)) L0 (after_push m c x)).
  { rewrite (holding_inside _ c (pushed m x)) by (done || cbn; lia).
    by rewrite <- (holds_test m c e L k H). }
  unfold acquire. split.
  - intros Hk. erewrite bind_Ok by (apply pushcli_ok; [done|lia]).
    erewrite bind_Ok by exact Hhold. by rewrite bool_decide_eq_true_2.
  - intros Hk Hf. erewrite bind_Ok by (apply pushcli_ok; [done|lia]).
    erewrite bind_Ok by exact Hhold. rewrite bool_decide_eq_false_2 by done.
    destruct (spin_ok fuel k (after_push m c x) (pushed m x) L0 Ho Hm1 (Hf x Hm))
      as (m2 & Hs & (S1 & S2 & S3 & S4) & Hk1).
    erewrite bind_Ok by exact Hs.
    erewrite bind_Ok by (eapply mycpu_ok; [by apply S2|done]). kstep. kstep.
    eexists. split; [reflexivity|]. cbn in S1, S3, S4. split.
    + exists (pushed m x). split; [by apply S2|]. split; [cbn; lia|]. intros _. cbn.
      destruct L as [|k0 L']; simpl in Hn.
      * rewrite Hn. simpl. by rewrite Hi.
      * replace (ncli x =? 0) with false by lia. by apply He.
    + done.
    + intros k'. cbn. destruct (decide (k' = k)) as [->|Hne]; [split; [done|set_solver]|].
      rewrite S3, <- Hl. set_solver.
    + intros k'. cbn. destruct (decide (k' = k)) as [->|Hne]; [intros _; cbn; lia|].
      intros [?|Hk']%elem_of_cons; [done|]. apply S4; [by apply Hl|by apply Hw].
    + by constructor.
Qed.
End acquire.

Lemma length_filter_out k (L : locks) :
  NoDup L -> k ∈ L -> length L = S (length (filter (fun x => x <> k) L)).
Proof.
  induction 1 as [|x L Hx _ IH]; [by intros ?%elem_of_nil|]. intros [<-|Hk]%elem_of_cons.
  - rewrite filter_cons_False by (intros ?; done). by rewrite filter_absent.
  - rewrite filter_cons_True by set_solver. simpl. by rewrite <- IH.
Qed.

(** [release(k)] by a CPU that does not hold [k] panics; otherwise [k] becomes
    free and leaves the locks held, and after the last one the interrupt
    flag is what it was before the first [acquire]. *)
Theorem release_refines k m c e L L0 (H : holds m c e L)
    (Hb : Z.of_nat (length L) < 2 ^ 31 - 2) :
  (k ∉ L -> release lapicid k L0 m = Panic "release") /\
  (k ∈ L -> exists m', release lapicid k L0 m = Ok tt L0 m' /\
    holds m' c e (filter (fun x => x <> k) L) /\ locked (lks m' k) = 0 /\
    forall k', k' <> k -> lks m' k' = lks m k').
Proof.
  pose proof H as [(x & Hm & Hn & He) Hi Hl Hw Hd].
  assert (Hq : quiet m x).
  { split; [lia|]. intros Hp. destruct L; [simpl in Hn; lia|done]. }
  unfold release. split.
  - intros Hk. erewrite bind_Ok by (apply (holding_ok m c x); [done|done|lia]).
    rewrite (holds_test m c e L k H). by rewrite bool_decide_eq_false_2.
  - intros Hk. pose proof (length_filter_out k L Hd Hk) as Hlen.
    assert (Hoff : ifl m = false) by (by destruct L; [apply elem_of_nil in Hk|]).
    erewrite bind_Ok by (apply (holding_inside m c x); [done|lia|done]).
    rewrite (holds_test m c e L k H), bool_decide_eq_true_2 by done. simpl. kstep. kstep. kstep.
    erewrite popcli_ok; [|exact Hm|lia|done].
    eexists. split; [reflexivity|]. split; [|split].
    + split.
      * exists (x <| ncli := ncli x - 1 |>). split; [|split; [cbn; lia|]].
        -- by apply (me_update lapicid m c x (fun m => after_pop m c x)).
        -- intros _. apply He. by destruct L; [apply elem_of_nil in Hk|].
      * cbn. rewrite He by (by destruct L; [apply elem_of_nil in Hk|]).
        destruct (filter _ L) as [|y L'] eqn:E; simpl in Hlen.
        -- replace (ncli x =? 1) with true by lia. done.
        -- replace (ncli x =? 1) with false by lia. done.
      * intros k'. cbn. rewrite list_elem_of_filter. destruct (decide (k' = k)) as [->|Hne]; [naive_solver|].
        rewrite <- Hl. naive_solver.
      * intros k'. cbn. rewrite list_elem_of_filter. intros [Hne Hk'].
        destruct (decide (k' = k)); [done|]. by apply Hw.
      * by apply NoDup_filter.
    + cbn. by rewrite decide_True.
    + intros k' Hne. cbn. by rewrite !decide_False.
Qed.
End holds.

(** *** Mutual exclusion among CPUs *)

(** Where a CPU is in [acquire] and [release] of one lock: outside, at the
    [xchg] loop, past it but not yet recorded as owner, inside, and between
    the clearing of the owner and of the lock word. *)
Inductive place := Out | Spinning | Entered | Inside | Leaving.

Record contest := mkContest { word : Z; owner : option nat; places : list place }.

(** One memory access of one CPU.  The guards are those of [holding]. *)
Inductive cstep : contest -> contest -> Prop :=
| C_call i w o ps :
    ps !! i = Some Out -> ~ (w <> 0 /\ o = Some i) ->
    cstep (mkContest w o ps) (mkContest w o (<[i := Spinning]> ps))
| C_busy i w o ps :
    ps !! i = Some Spinning -> w <> 0 ->
    cstep (mkContest w o ps) (mkContest 1 o ps)
| C_take i o ps :
    ps !! i = Some Spinning ->
    cstep (mkContest 0 o ps) (mkContest 1 o (<[i := Entered]> ps))
| C_own i w o ps :
    ps !! i = Some Entered ->
    cstep (mkContest w o ps) (mkContest w (Some i) (<[i := Inside]> ps))
| C_disown i w ps :
    ps !! i = Some Inside -> w <> 0 ->
    cstep (mkContest w (Some i) ps) (mkContest w None (<[i := Leaving]> ps))
| C_free i w o ps :
    ps !! i = Some Leaving ->
    cstep (mkContest w o ps) (mkContest 0 o (<[i := Out]> ps)).

Definition past (p : place) : Prop := p = Entered \/ p = Inside \/ p = Leaving.

Record exclusive (s : contest) : Prop := {
  ex_one : forall i j p q, places s !! i = Some p -> places s !! j = Some q ->
    past p -> past q -> i = j;
  ex_word : word s <> 0 <-> exists i p, places s !! i = Some p /\ past p;
  ex_owner : forall i, owner s = Some i <-> places s !! i = Some Inside
}.

Lemma exclusive_free s : exclusive s -> word s = 0 ->
  forall i p, places s !! i = Some p -> ~ past p.
Proof. intros [_ Hw _] Hz i p Hi Hp. apply Hw; [|done]. eauto. Qed.

(** The lock word is taken by a CPU that changes its place to or from [past]. *)
Lemma exclusive_move s i p q w o :
  exclusive s -> places s !! i = Some p ->
  (past q -> forall j r, j <> i -> places s !! j = Some r -> ~ past r) ->
  (w <> 0 <-> past q \/ exists j r, j <> i /\ places s !! j = Some r /\ past r) ->
  (forall j, o = Some j <-> (j = i /\ q = Inside) \/ (j <> i /\ places s !! j = Some Inside)) ->
  exclusive (mkContest w o (<[i := q]> (places s))).
Proof.
  intros [H1 H2 H3] Hi Hq Hw Ho. pose proof (lookup_lt_Some _ _ _ Hi) as Hlt. split; simpl.
  - intros j k a b [(<- & <- & _)|[Hne Hj]]%list_lookup_insert_Some
      [(<- & <- & _)|[Hne' Hk]]%list_lookup_insert_Some Ha Hb; try done.
    + exfalso. by apply (Hq Ha k b).
    + exfalso. by apply (Hq Hb j a).
    + eauto.
  - rewrite Hw. split.
    + intros [Hp|(j & r & Hne & Hj & Hr)].
      * exists i, q. split; [by apply list_lookup_insert_eq|done].
      * exists j, r. by rewrite list_lookup_insert_ne.
    + intros (j & r & [(<- & <- & _)|[Hne Hj]]%list_lookup_insert_Some & Hr); [by left|right].
      exists j, r. done.
  - intros j. rewrite Ho. destruct (decide (j = i)) as [->|Hne].
    + rewrite list_lookup_insert_eq by done. naive_solver.
    + rewrite list_lookup_insert_ne by done. naive_solver.
Qed.

Lemma cstep_exclusive s s' : exclusive s -> cstep s s' -> exclusive s'.
Proof.
  intros Hex Hst. pose proof Hex as [H1 H2 H3].
  assert (Hnp : ~ past Out /\ ~ past Spinning) by (unfold past; naive_solver).
  assert (Hpe : past Entered /\ past Inside /\ past Leaving) by (unfold past; naive_solver).
  inversion Hst as [i w o ps Hi Hg|i w o ps Hi Hw|i o ps Hi|i w o ps Hi|i w ps Hi Hw|i w o ps Hi];
    subst; simpl in *.
  - apply (exclusive_move (mkContest w o ps) i Out); simpl; try done; [naive_solver|..].
    + rewrite H2. split; [|naive_solver]. intros (j & r & Hj & Hr). right. exists j, r.
      split; [|done]. intros ->. naive_solver.
    + intros j. rewrite H3. split; [|naive_solver]. intros Hj. right. split; [|done]. naive_solver.
  - split; simpl; [done| |done]. rewrite <- H2. lia.
  - pose proof (exclusive_free _ Hex eq_refl) as Hfree. simpl in Hfree.
    apply (exclusive_move (mkContest 0 o ps) i Spinning); simpl; try done; [naive_solver..|].
    intros j. rewrite H3. split; [|naive_solver]. intros Hj. right. split; [|done]. naive_solver.
  - apply (exclusive_move (mkContest w o ps) i Entered); simpl; try done.
    + intros _ j r Hne Hj Hr. apply Hne. eapply H1; eauto. naive_solver.
    + rewrite H2. split; [naive_solver|]. intros _. exists i, Entered. naive_solver.
    + intros j. split; [naive_solver|]. intros [[-> _]|[Hne Hj]]; [done|].
      exfalso. apply Hne. eapply H1; eauto; naive_solver.
  - apply (exclusive_move (mkContest w (Some i) ps) i Inside); simpl; try done.
    + intros _ j r Hne Hj Hr. apply Hne. eapply H1; eauto. naive_solver.
    + naive_solver.
    + intros j. split; [done|]. intros [[_ ?]|[Hne Hj]]; [done|].
      exfalso. apply Hne. eapply H1; eauto; naive_solver.
  - assert (Hothers : forall j r, j <> i -> ps !! j = Some r -> ~ past r).
    { intros j r Hne Hj Hr. apply Hne. eapply H1; eauto. naive_solver. }
    apply (exclusive_move (mkContest w o ps) i Leaving); simpl; try done; [naive_solver..|].
    intros j. rewrite H3. split; [|naive_solver]. intros Hj. right. split; [|done]. naive_solver.
Qed.

(** C8: Whatever the interleaving of the CPUs' memory accesses, at most one of them
    is inside the critical section, and the one that is passes the test of
    [release], so that call cannot panic. *)
Theorem mutual_exclusion n s
    (Hr : rtc cstep (mkContest 0 None (replicate n Out)) s) :
  (forall i j, places s !! i = Some Inside -> places s !! j = Some Inside -> i = j) /\
  (forall i, places s !! i = Some Inside -> word s <> 0 /\ owner s = Some i).
Proof.
  assert (Hex : exclusive s).
  { assert (H0 : exclusive (mkContest 0 None (replicate n Out))).
    { assert (Hout : forall i p, replicate n Out !! i = Some p -> p = Out)
        by (intros i p [-> _]%lookup_replicate; done).
      split; simpl.
      - intros i j p q Hi%Hout Hj%Hout. subst. unfold past. naive_solver.
      - split; [done|]. intros (i & p & Hi%Hout & Hp). subst. unfold past in Hp. naive_solver.
      - intros i. split; [done|]. intros Hi%Hout. done. }
    revert H0. induction Hr; [done|]. eauto using cstep_exclusive. }
  destruct Hex as [H1 H2 H3]. split.
  - intros i j Hi Hj. eapply H1; eauto; unfold past; naive_solver.
  - intros i Hi. split; [|by apply H3]. apply H2. exists i, Inside. unfold past. naive_solver.
Qed.

(** *** Concrete runs *)

(** One CPU with interrupts on, all locks free. *)
Definition uniprocessor : mach :=
  mkMach true [mkCpu 0 0 false] (fun _ => mkLock 0 None (replicate 10 0)) (fun _ => 0).

Lemma uniprocessor_me : me 0 uniprocessor O (mkCpu 0 0 false).
Proof. by split. Qed.

Lemma pushcli_nests_witness :
  exists m', nested 0 2 (mret tt) [] uniprocessor = Ok tt [] m' /\ ifl m' = true.
Proof.
  destruct (pushcli_nests 0 2 (mret tt) (fun m => m) uniprocessor O (mkCpu 0 0 false) []
    uniprocessor_me) as (m' & H1 & H2 & _); try (cbn; lia).
  - split; cbn; [lia|]. lia.
  - intros m Hm. split_and!; done.
  - exists m'. split; [exact H1|exact H2].
Defined.

Lemma uniprocessor_holds : holds 0 uniprocessor O true [].
Proof.
  split; [|done| | |constructor].
  - exists (mkCpu 0 0 false). split; [apply uniprocessor_me|done].
  - intros k. split; [by intros ?%elem_of_nil|done].
  - by intros k ?%elem_of_nil.
Qed.

Lemma alone_respects : others_respect 0 (fun m => m) O.
Proof. intros m x H. split_and!; done. Qed.

Lemma acquire_refines_witness :
  exists m', acquire 0 0 (fun m => m) 1 Lkmem [] uniprocessor = Ok tt [] m' /\
    holds 0 m' O true [Lkmem].
Proof.
  apply (proj2 (acquire_refines 0 0 (fun m => m) O 1 Lkmem uniprocessor true [] []
    alone_respects uniprocessor_holds ltac:(simpl; lia))); [apply not_elem_of_nil|].
  intros x _. reflexivity.
Defined.

Definition holder : mach :=
  mkMach false [mkCpu 0 1 true]
    (fun k => if decide (k = Lkmem) then mkLock 1 (Some O) (replicate 10 0)
              else mkLock 0 None (replicate 10 0)) (fun _ => 0).

Lemma holder_holds : holds 0 holder O true [Lkmem].
Proof.
  split; [|done| | |apply NoDup_singleton].
  - exists (mkCpu 0 1 true). done.
  - intros k. cbn. rewrite list_elem_of_singleton. case_decide; naive_solver.
  - intros k ->%list_elem_of_singleton. by vm_compute.
Qed.

Lemma release_refines_witness :
  exists m', release 0 Lkmem [] holder = Ok tt [] m' /\ ifl m' = true /\ locked (lks m' Lkmem) = 0.
Proof.
  destruct (proj2 (release_refines 0 Lkmem holder O true [Lkmem] [] holder_holds ltac:(simpl; lia)))
    as (m' & H1 & H2 & H3 & _); [set_solver|].
  exists m'. split; [exact H1|]. split; [exact (h_if _ _ _ _ _ H2)|exact H3].
Defined.

Lemma mutual_exclusion_witness :
  exists s, rtc cstep (mkContest 0 None (replicate 2 Out)) s /\ places s !! 1%nat = Some Inside /\
    owner s = Some 1%nat.
Proof.
  assert (Hr : rtc cstep (mkContest 0 None (replicate 2 Out)) (mkContest 1 (Some 1%nat) [Out; Inside])).
  { eapply rtc_l; [eapply (C_call 1); [done|naive_solver]|]. eapply rtc_l; [by eapply (C_take 1)|].
    eapply rtc_l; [by eapply (C_own 1)|]. apply rtc_refl. }
  exists (mkContest 1 (Some 1%nat) [Out; Inside]). split; [exact Hr|]. split; [reflexivity|].
  exact (proj2 (proj2 (mutual_exclusion 2 _ Hr) 1%nat eq_refl)).
Defined.

End Spinlock.
