(* ===== verification/Console.v ===== *)
(** Console input and output (console.c), the serial port (uart.c) and the
    keyboard interrupt (kbd.c).

    The screen is the CGA memory, two bytes per cell; the cursor position is
    what the CRT controller's registers 14 and 15 hold.  [serial] are the bytes
    the serial port has sent.  The characters that [getc] returns to
    [consoleintr] before it returns -1 are a list. *)

From stdpp Require Import base numbers list sets strings.
From Stdlib Require Import ZArith Lia.
From S2P Require Import Prelude Mem CString Mmu Seg Kalloc Param Printf Kbd Proc Spinlock.
Import CString Mmu Seg Kalloc Param Printf Kbd Proc.

Module Console.

Definition BACKSPACE : Z := 0x100.
Definition INPUT_BUF : Z := 128.

Record console := mkConsole {
  panicked : Z; locking : Z;
  uart : Z; serial : list Z;
  crt : list Z; cursor : Z;
  ibuf : list Z; ir : Z; iw : Z; ie : Z;     (* input *)
  kshift : Z }.                              (* shift of kbdgetc *)
#[export] Instance eta_console : Eta console := fun c =>
  mkConsole c.(panicked) c.(locking) c.(uart) c.(serial) c.(crt) c.(cursor) c.(ibuf) c.(ir)
    c.(iw) c.(ie) c.(kshift).

(** The console with the process table. *)
Record cst := mkCst { cn : console; ck : pstate }.
#[export] Instance eta_cst : Eta cst := fun s => mkCst s.(cn) s.(ck).

Definition upd_cons (f : console -> console) : K cst unit := modify (fun s => s <| cn ::= f |>).

(** *** Output *)

(** The wait for the transmitter, at most 128 empty delays, changes nothing. *)
Definition uartputc (c : Z) : K cst unit :=
  s ← gets cn;
  if uart s =? 0 then mret tt else upd_cons (fun s => s <| serial ::= fun o => o ++ [u8 c] |>).

(** [crt[i] = v] *)
Definition crt_set (i v : Z) : K cst unit :=
  s ← gets cn; m ← deref "crt" (aset (crt s) i v); upd_cons (fun s => s <| crt := m |>).

(** [memmove(crt, crt + 80, sizeof(crt[0]) * 23 * 80)] and
    [memset(crt + pos, 0, sizeof(crt[0]) * (24 * 80 - pos))] *)
Definition scroll (m : list Z) : list Z := take 1840 (drop 80 m) ++ drop 1840 m.
Definition blank_from (m : list Z) (pos : Z) : list Z :=
  take (Z.to_nat pos) m ++ replicate (Z.to_nat (24 * 80 - pos)) 0 ++ drop 1920 m.

Definition cgaputc (c : Z) : K cst unit :=
  pos ← gets (fun s => cursor (cn s));
  pos ← (if c =? 10 then mret (pos + (80 - Z.rem pos 80))
         else if c =? BACKSPACE then mret (if pos >? 0 then pos - 1 else pos)
         else crt_set pos (Z.lor (Z.land c 0xff) 0x0700) ;; mret (pos + 1));
  if (pos <? 0) || (pos >? 25 * 80) then panic "pos under/overflow" else
  pos ← (if Z.quot pos 80 >=? 24 then
           m ← gets (fun s => crt (cn s));
           if (length m <? 1920)%nat then fault "crt" else
           upd_cons (fun s => s <| crt := blank_from (scroll m) (pos - 80) |>) ;; mret (pos - 80)
         else mret pos);
  upd_cons (fun s => s <| cursor := u16 pos |>) ;;
  crt_set pos (Z.lor 32 0x0700).

(** After a panic the CPU stops here. *)
Definition consputc (c : Z) : K cst unit :=
  s ← gets cn;
  if nz (panicked s) then fault "halted" else
  (if c =? BACKSPACE then uartputc 8 ;; uartputc 32 ;; uartputc 8 else uartputc c) ;;
  cgaputc c.

(** [args] are the arguments, [str] the strings that pointers among them
    point to. *)
Definition cprintf (fmt : list Z) (args : list Z) (str : Z -> list Z) : K cst unit :=
  lk ← gets (fun s => locking (cn s));
  (if nz lk then acquire Lcons else mret tt) ;;
  cs ← deref "buf" (cprintf_chars (fun k => nth k args 0) str fmt);
  kiter consputc cs ;;
  (if nz lk then release Lcons else mret tt).

(** *** [procdump] of proc.c *)

(** The bytes before the first 0. *)
Fixpoint cstr (l : list Z) : list Z :=
  match l with
  | [] => []
  | c :: r => if c =? 0 then [] else c :: cstr r
  end.

Definition state_name (s : procstate) : list Z :=
  lit match s with
      | UNUSED => "unused" | EMBRYO => "embryo" | SLEEPING => "sleep "
      | RUNNABLE => "runble" | RUNNING => "run   " | ZOMBIE => "zombie"
      end.

(** [for (i = 0; i < 10 && pc[i] != 0; i++) cprintf(" %p", pc[i]);] *)
Fixpoint dump_pcs (pcs : list Z) : K cst unit :=
  match pcs with
  | [] => mret tt
  | pc :: r => if pc =? 0 then mret tt else cprintf (lit " %p") [pc] (fun _ => []) ;; dump_pcs r
  end.

(** Offset of [ebp] in [struct context]. *)
Definition context_ebp : Z := 12.

Definition dump_proc (p : proc) : K cst unit :=
  if bool_decide (state p = UNUSED) then mret tt else
  cprintf (lit "%d %s %s") [pid p; 1; 2]
    (fun a => if a =? 1 then state_name (state p) else cstr (name p)) ;;
  (if bool_decide (state p = SLEEPING) then
     m ← gets (fun s => kmemory (pkmem (ck s)));
     dump_pcs (Spinlock.getcallerpcs m (u32 (load32 m (context p + context_ebp) + 8)))
   else mret tt) ;;
  cprintf [10] [] (fun _ => []).

Definition procdump : K cst unit := ps ← gets (fun s => procs (ck s)); kiter dump_proc ps.

(** *** [getchildren] of proc.c *)

(** The loop over the table: [p->parent->pid] follows a null pointer for a slot
    without a parent. *)
Fixpoint children_loop (me : Z) (ps : list proc) (acc : Z) : K cst Z :=
  match ps with
  | [] => mret acc
  | p :: r =>
      par ← deref "p->parent->pid" (parent p);
      q ← zoom ck (get_proc par);
      if pid q =? me then
        cprintf (lit "found child %d" ++ [10]) [pid p] (fun _ => []) ;;
        children_loop me r (i32 (i32 (acc * 100) + pid p))
      else children_loop me r acc
  end.

Definition getchildren : K cst Z :=
  p ← zoom ck (i ← myproc; get_proc i);
  acquire Lptable ;;
  cprintf (lit "looking for childs of %d..." ++ [10]) [pid p] (fun _ => []) ;;
  ps ← gets (fun s => procs (ck s));
  r ← children_loop (pid p) ps 0;
  release Lptable ;;
  mret r.

(** *** Input *)

Section input.
(** [&input.r], the channel readers sleep on. *)
Variable input_r : Z.

(** [while (input.e != input.w && input.buf[(input.e-1) % INPUT_BUF] != '\n')] *)
Fixpoint kill_line (fuel : nat) : K cst unit :=
  match fuel with
  | O => fault "out of fuel"
  | S f =>
      s ← gets cn;
      if ie s =? iw s then mret tt else
      b ← deref "input.buf" (aget (ibuf s) (u32 (ie s - 1) mod INPUT_BUF));
      if b =? 10 then mret tt else
      upd_cons (fun s => s <| ie := u32 (ie s - 1) |>) ;; consputc BACKSPACE ;; kill_line f
  end.

(** One turn of the loop; [true] asks for a process listing. *)
Definition intr_char (c : Z) : K cst bool :=
  s ← gets cn;
  if c =? C 80 then mret true                                   (* ^P *)
  else if c =? C 85 then                                        (* ^U *)
    kill_line (S (Z.to_nat (u32 (ie s - iw s)))) ;; mret false
  else if (c =? C 72) || (c =? 0x7f) then                       (* ^H *)
    (if ie s =? iw s then mret tt
     else upd_cons (fun s => s <| ie := u32 (ie s - 1) |>) ;; consputc BACKSPACE) ;; mret false
  else if nz c && (u32 (ie s - ir s) <? INPUT_BUF) then
    let c := if c =? 13 then 10 else c in
    b ← deref "input.buf" (aset (ibuf s) (ie s mod INPUT_BUF) (u8 c));
    upd_cons (fun s => s <| ibuf := b |> <| ie := u32 (ie s + 1) |>) ;;
    consputc c ;;
    s ← gets cn;
    (if (c =? 10) || (c =? C 68) || (ie s =? u32 (ir s + INPUT_BUF)) then
       upd_cons (fun s => s <| iw := ie s |>) ;; zoom ck (wakeup input_r)
     else mret tt) ;; mret false
  else mret false.

Fixpoint intr_loop (cs : list Z) (dump : bool) : K cst bool :=
  match cs with
  | [] => mret dump
  | c :: r => d ← intr_char c; intr_loop r (dump || d)
  end.

Definition consoleintr (cs : list Z) : K cst unit :=
  acquire Lcons ;;
  d ← intr_loop cs false;
  release Lcons ;;
  if (d : bool) then procdump else mret tt.

(** The characters [kbdgetc] makes of the bytes in the controller. *)
Fixpoint kbd_chars (bytes : list Z) (shift : Z) : option (list Z * Z) :=
  match bytes with
  | [] => '(_, s) ← kbdgetc 0 0 shift; Some ([], s)
  | b :: r => '(c, s) ← kbdgetc KBS_DIB b shift; '(cs, s) ← kbd_chars r s; Some (c :: cs, s)
  end.

Definition kbdintr (bytes : list Z) : K cst unit :=
  s ← gets cn;
  '(cs, sh) ← deref "kbd.h" (kbd_chars bytes (kshift s));
  upd_cons (fun s => s <| kshift := sh |>) ;;
  consoleintr cs.

(** [uartgetc] returns the bytes received, and none without a port. *)
Definition uartintr (bytes : list Z) : K cst unit :=
  s ← gets cn;
  consoleintr (if uart s =? 0 then [] else map u8 bytes).
End input.

(** *** The screen *)

(** A console that works: the cursor is in the first 24 rows. *)
Record cons_ok (n : console) : Prop := {
  co_alive : panicked n = 0;
  co_crt : length (crt n) = Z.to_nat (25 * 80);
  co_cursor : 0 <= cursor n < 24 * 80
}.

Definition is_char (c : Z) : Prop := 0 <= c < 256 \/ c = BACKSPACE.

(** Only the screen differs. *)
Definition with_screen (m : list Z) (pos : Z) (s : cst) : cst :=
  s <| cn ::= fun n => n <| crt := m |> <| cursor := pos |> |>.

Lemma scroll_length m : length m = 2000%nat -> length (scroll m) = 2000%nat.
Proof. intros H. unfold scroll. rewrite length_app, length_take, !length_drop. lia. Qed.

Lemma blank_length m pos :
  length m = 2000%nat -> 0 <= pos <= 1920 -> length (blank_from m pos) = 2000%nat.
Proof.
  intros H Hp. unfold blank_from. rewrite !length_app, length_take, length_replicate, length_drop. lia.
Qed.

Lemma scroll_lookup m (q : nat) :
  length m = 2000%nat -> (q < 1840)%nat -> scroll m !! q = m !! (q + 80)%nat.
Proof.
  intros H Hq. unfold scroll. rewrite lookup_app_l by (rewrite length_take, length_drop; lia).
  rewrite lookup_take_lt by lia. rewrite lookup_drop. f_equal. lia.
Qed.

Lemma blank_lookup m pos (q : nat) :
  length m = 2000%nat -> Z.of_nat q < pos -> pos <= 1920 -> blank_from m pos !! q = m !! q.
Proof.
  intros H Hq Hp. unfold blank_from. rewrite lookup_app_l by (rewrite length_take; lia).
  apply lookup_take_lt. lia.
Qed.

(** The cells before the cursor, after [c] is put where the cursor is. *)
Definition typed (c : Z) (n : console) : list Z * Z :=
  if c =? 10 then (crt n, cursor n + (80 - cursor n mod 80))
  else if c =? BACKSPACE then (crt n, Z.max 0 (cursor n - 1))
  else (<[Z.to_nat (cursor n) := Z.lor c 0x0700]> (crt n), cursor n + 1).

(** [m], [pos] show what [m0], [pos0] do, moved up by whole rows so that the
    cursor is in the first 24, with a blank under the cursor. *)
Definition shown (m0 : list Z) (pos0 : Z) (m : list Z) (pos : Z) : Prop :=
  length m = Z.to_nat (25 * 80) /\ 0 <= pos < 24 * 80 /\ m !! Z.to_nat pos = Some 0x720 /\
  exists rows, 0 <= rows <= 1 /\ pos0 = pos + 80 * rows /\
    forall q : nat, Z.of_nat q < pos -> m !! q = m0 !! (q + Z.to_nat (80 * rows))%nat.

Lemma shown_direct m0 pos0 :
  length m0 = 2000%nat -> 0 <= pos0 < 1920 -> shown m0 pos0 (<[Z.to_nat pos0 := 0x720]> m0) pos0.
Proof.
  intros Hm Hp. split; [by rewrite length_insert|]. split; [lia|].
  split; [apply list_lookup_insert_eq; lia|]. exists 0. split; [lia|]. split; [lia|].
  intros q Hq. rewrite list_lookup_insert_ne by lia. f_equal. lia.
Qed.

Lemma shown_scrolled m0 :
  length m0 = 2000%nat ->
  shown m0 1920 (<[Z.to_nat 1840 := 0x720]> (blank_from (scroll m0) 1840)) 1840.
Proof.
  intros Hm. pose proof (scroll_length m0 Hm) as Hs.
  pose proof (blank_length (scroll m0) 1840 Hs ltac:(lia)) as Hb.
  split; [by rewrite length_insert|]. split; [lia|]. split; [apply list_lookup_insert_eq; lia|].
  exists 1. split; [lia|]. split; [lia|]. intros q Hq.
  rewrite list_lookup_insert_ne by lia. rewrite blank_lookup by lia.
  rewrite scroll_lookup by lia. f_equal.
Qed.

Lemma crt_set_ok i v L s :
  0 <= i < Z.of_nat (length (crt (cn s))) ->
  crt_set i v L s = Ok tt L (s <| cn ::= fun n => n <| crt ::= <[Z.to_nat i := v]> |> |>).
Proof. intros H. unfold crt_set. kstep. by rewrite aset_in. Qed.

Lemma typed_range c n :
  cons_ok n -> length (typed c n).1 = 2000%nat /\ 0 <= (typed c n).2 <= 1920.
Proof.
  intros [_ Hm Hp]. unfold typed.
  destruct (c =? 10); [|destruct (c =? BACKSPACE)]; cbn; rewrite ?length_insert; split; try lia.
  all: try done. dlia.
Qed.

(** The end of [cgaputc]: scroll if need be, set the cursor and blank it. *)
Definition settle (pos : Z) : K cst unit :=
  if (pos <? 0) || (pos >? 25 * 80) then panic "pos under/overflow" else
  pos ← (if Z.quot pos 80 >=? 24 then
           m ← gets (fun s => crt (cn s));
           if (length m <? 1920)%nat then fault "crt" else
           upd_cons (fun s => s <| crt := blank_from (scroll m) (pos - 80) |>) ;; mret (pos - 80)
         else mret pos);
  upd_cons (fun s => s <| cursor := u16 pos |>) ;;
  crt_set pos (Z.lor 32 0x0700).

Lemma settle_ok pos L s :
  length (crt (cn s)) = 2000%nat -> 0 <= pos <= 1920 ->
  exists m pos', settle pos L s = Ok tt L (with_screen m pos' s) /\ shown (crt (cn s)) pos m pos'.
Proof.
  intros Hm Hp. unfold settle.
  destruct (Z.ltb_spec pos 0); [lia|]. rewrite Z.gtb_ltb. destruct (Z.ltb_spec (25 * 80) pos); [lia|].
  cbn [orb]. rewrite Z.geb_leb, Z.quot_div_nonneg by lia.
  destruct (decide (pos = 1920)) as [->|Hne].
  - change (24 <=? 1920 / 80) with true. cbv iota. rewrite bind_assoc. kstep. rewrite Hm.
    change (2000 <? 1920)%nat with false. cbv iota. rewrite bind_assoc. kstep. kstep. kstep.
    change (1920 - 80) with 1840. rewrite crt_set_ok.
    2: { cbn. rewrite (blank_length _ 1840); [lia|by apply scroll_length|lia]. }
    eexists _, _. split; [|by apply shown_scrolled]. by destruct s as [[]].
  - destruct (Z.leb_spec 24 (pos / 80)) as [H1|_]; [dlia|]. kstep. kstep.
    rewrite crt_set_ok by (cbn; lia). eexists _, _. split; [|by apply shown_direct; [|lia]].
    unfold with_screen, u16. destruct s as [[]]. cbn. by rewrite Z.mod_small by lia.
Qed.

Lemma cgaputc_ok c L s :
  cons_ok (cn s) -> is_char c ->
  exists m pos, cgaputc c L s = Ok tt L (with_screen m pos s) /\
    shown (typed c (cn s)).1 (typed c (cn s)).2 m pos.
Proof.
  intros Hok Hc. pose proof (typed_range c _ Hok) as [Ht1 Ht2]. destruct Hok as [_ Hm Hp].
  unfold typed, is_char in *. unfold cgaputc. kstep.
  destruct (Z.eqb_spec c 10); [|destruct (Z.eqb_spec c BACKSPACE)]; cbn [fst snd] in *.
  - kstep. rewrite Z.rem_mod_nonneg by lia. apply settle_ok; [done|dlia].
  - kstep. rewrite Z.gtb_ltb. destruct (Z.ltb_spec 0 (cursor (cn s))) as [H|H].
    + rewrite Z.max_r by lia. apply settle_ok; [done|lia].
    + rewrite Z.max_l by lia. assert (cursor (cn s) = 0) as E by lia. rewrite E. apply settle_ok; [done|lia].
  - rewrite bind_assoc. erewrite bind_Ok by (apply crt_set_ok; lia). kstep.
    assert (Z.land c 0xff = c) as ->.
    { change 0xff with (Z.ones 8). rewrite Z.land_ones by lia. apply Z.mod_small. lia. }
    set (s1 := s <| cn ::= _ |>).
    destruct (settle_ok (cursor (cn s) + 1) L s1) as (m & pos & R & Hs); [done|lia|].
    exists m, pos. split; [|done]. exact R.
Qed.

(** *** Output as a stream *)

(** The serial port has sent [bytes] more, if there is one; the screen still
    works and nothing else differs. *)
Record wrote (bytes : list Z) (s s' : cst) : Prop := {
  wr_ok : cons_ok (cn s');
  wr_same : s' = s <| cn ::= fun n =>
    n <| serial ::= fun o => if uart n =? 0 then o else o ++ bytes |> <| crt := crt (cn s') |>
      <| cursor := cursor (cn s') |> |>
}.

Lemma wrote_nil s : cons_ok (cn s) -> wrote [] s s.
Proof. intros H. split; [done|]. destruct s as [[]]. cbn. rewrite app_nil_r. by destruct (_ =? 0). Qed.

Lemma wrote_trans b1 b2 s1 s2 s3 : wrote b1 s1 s2 -> wrote b2 s2 s3 -> wrote (b1 ++ b2) s1 s3.
Proof.
  intros [_ E1] [H2 E2]. split; [done|]. rewrite E2 at 1. rewrite E1. destruct s1 as [[]]. cbn.
  destruct (_ =? 0); [done|]. by rewrite app_assoc.
Qed.

(** What [consputc] sends for a character. *)
Definition sent (c : Z) : list Z := if c =? BACKSPACE then [8; 32; 8] else [u8 c].

Lemma uartputc_ok c L s :
  uartputc c L s = Ok tt L (s <| cn ::= fun n =>
    n <| serial ::= fun o => if uart n =? 0 then o else o ++ [u8 c] |> |>).
Proof.
  unfold uartputc. kstep. destruct (uart (cn s) =? 0) eqn:E; cbn; destruct s as [[]]; cbn in *.
  - unfold mret, K_ret. by rewrite E.
  - unfold upd_cons, modify. cbn. by rewrite E.
Qed.

Lemma uart_sends c L s :
  exists s', (if c =? BACKSPACE then uartputc 8 ;; uartputc 32 ;; uartputc 8 else uartputc c) L s = Ok tt L s' /\
    s' = s <| cn ::= fun n => n <| serial ::= fun o => if uart n =? 0 then o else o ++ sent c |> |>.
Proof.
  unfold sent. destruct (c =? BACKSPACE).
  - erewrite bind_Ok by apply uartputc_ok. erewrite bind_Ok by apply uartputc_ok. rewrite uartputc_ok.
    eexists. split; [reflexivity|]. destruct s as [[]]. cbn. destruct (_ =? 0); [done|].
    by rewrite <- !app_assoc.
  - eexists. split; [apply uartputc_ok|done].
Qed.

Lemma consputc_ok c L s :
  cons_ok (cn s) -> is_char c -> exists s', consputc c L s = Ok tt L s' /\ wrote (sent c) s s'.
Proof.
  intros Hok Hc. pose proof Hok as [Ha Hm Hp]. unfold consputc. kstep. rewrite Ha. cbn [nz negb Z.eqb].
  destruct (uart_sends c L s) as (s1 & R & E). erewrite bind_Ok by exact R.
  assert (cons_ok (cn s1)) as Hok1 by (rewrite E; by split).
  destruct (cgaputc_ok c L s1 Hok1 Hc) as (m & pos & R2 & Hs1 & Hs2 & _).
  eexists. split; [exact R2|]. split; [by split; [rewrite E| |]|]. rewrite E. by destruct s as [[]].
Qed.

Lemma kiter_consputc_ok cs L s :
  cons_ok (cn s) -> Forall is_char cs ->
  exists s', kiter consputc cs L s = Ok tt L s' /\ wrote (concat (map sent cs)) s s'.
Proof.
  intros Hok Hcs. revert s Hok. induction Hcs as [|c cs Hc _ IH]; intros s Hok.
  { exists s. split; [done|]. by apply wrote_nil. }
  destruct (consputc_ok c L s Hok Hc) as (s1 & R1 & W1). cbn [kiter]. erewrite bind_Ok by exact R1.
  destruct (IH s1 (wr_ok _ _ _ W1)) as (s2 & R2 & W2). exists s2. split; [done|].
  by eapply wrote_trans.
Qed.

(** What a message does: it goes to the serial line and the screen. *)
Lemma cprintf_ok fmt args str L s :
  cons_ok (cn s) -> Lcons ∉ L -> bytes fmt -> (forall p, bytes (str p)) ->
  exists o s', cprintf fmt args str L s = Ok tt L s' /\ wrote o s s'.
Proof.
  intros Hok HL Hf Hs. pose proof (cprintf_renders (fun k => nth k args 0) str fmt) as R. unfold cprintf_chars in R.
  set (cs := render _ _ _ _ _) in R.
  assert (Hcs : Forall is_char cs).
  { eapply Forall_impl; [by eapply cprintf_bytes|]. intros c Hc. by left. }
  unfold cprintf. kstep. destruct (nz (locking (cn s))).
  - kstep. erewrite bind_Ok by (unfold cprintf_chars; by rewrite R).
    destruct (kiter_consputc_ok cs (Lcons :: L) s Hok Hcs) as (s' & R' & W). erewrite bind_Ok by exact R'.
    eexists _, s'. split; [by apply release_top|exact W].
  - erewrite bind_Ok by done. erewrite bind_Ok by (unfold cprintf_chars; by rewrite R).
    destruct (kiter_consputc_ok cs L s Hok Hcs) as (s' & R' & W). erewrite bind_Ok by exact R'. by eexists _, s'.
Qed.

(** *** Input as lines

    The input buffer holds the bytes [ready] for readers, then those of the
    [line] still being edited. *)

Record input_rep (n : console) (ready line : list Z) : Prop := {
  in_len : length (ibuf n) = Z.to_nat INPUT_BUF;
  in_r : is_u32 (ir n);
  in_w : iw n = u32 (ir n + Z.of_nat (length ready));
  in_e : ie n = u32 (ir n + Z.of_nat (length (ready ++ line)));
  in_bound : Z.of_nat (length (ready ++ line)) <= INPUT_BUF;
  in_bytes : ring_holds INPUT_BUF (ibuf n) (ir n) (ready ++ line);
  in_line : 10 ∉ line
}.

(** What a typed character does to the lines. *)
Definition edit (st : list Z * list Z) (c : Z) : list Z * list Z :=
  let '(ready, line) := st in
  if c =? C 80 then st
  else if c =? C 85 then (ready, [])
  else if (c =? C 72) || (c =? 0x7f) then (ready, removelast line)
  else if nz c && (Z.of_nat (length (ready ++ line)) <? INPUT_BUF) then
    let c := if c =? 13 then 10 else c in
    let line := line ++ [c] in
    if (c =? 10) || (c =? C 68) || (Z.of_nat (length (ready ++ line)) =? INPUT_BUF)
    then (ready ++ line, []) else (ready, line)
  else st.

Lemma input_divides : (INPUT_BUF | 2 ^ 32).
Proof. by exists (2 ^ 25). Qed.

Lemma input_rep_screen n ready line o m pos :
  input_rep n ready line ->
  input_rep (n <| serial := o |> <| crt := m |> <| cursor := pos |>) ready line.
Proof. intros []. by split. Qed.

Lemma wrote_input b s s' ready line :
  wrote b s s' -> input_rep (cn s) ready line -> input_rep (cn s') ready line.
Proof. intros [_ ->] []. by split. Qed.

Lemma wrote_procs b s s' : wrote b s s' -> ck s' = ck s.
Proof. by intros [_ ->]. Qed.

Lemma input_room n ready line :
  input_rep n ready line -> u32 (ie n - ir n) = Z.of_nat (length (ready ++ line)).
Proof.
  intros [_ Hr _ He Hb _ _]. rewrite He. rewrite u32_sub_l. unfold INPUT_BUF in *.
  replace (_ - _) with (Z.of_nat (length (ready ++ line))) by lia. apply u32_small. lia.
Qed.

Lemma input_no_line n ready line :
  input_rep n ready line -> (ie n =? iw n) = bool_decide (line = []).
Proof.
  intros [_ Hr Hw He Hb _ _]. rewrite Hw, He, length_app in *. unfold u32, INPUT_BUF, is_u32 in *.
  destruct line as [|x line]; cbn [length] in *.
  - by rewrite Nat.add_0_r, Z.eqb_refl.
  - apply Z.eqb_neq. change (2 ^ 32) with 4294967296 in *. dlia.
Qed.

Lemma input_full n ready line :
  input_rep n ready line ->
  (ie n =? u32 (ir n + INPUT_BUF)) = (Z.of_nat (length (ready ++ line)) =? INPUT_BUF).
Proof.
  intros [_ Hr _ He Hb _ _]. rewrite He.
  destruct (Z.eqb_spec (Z.of_nat (length (ready ++ line))) INPUT_BUF) as [->|E]; [apply Z.eqb_refl|].
  apply Z.eqb_neq. unfold u32, INPUT_BUF, is_u32 in *. change (2 ^ 32) with 4294967296 in *. dlia.
Qed.

(** Taking back the last byte of the line. *)
Lemma input_back n ready line c :
  input_rep n ready (line ++ [c]) ->
  aget (ibuf n) (u32 (ie n - 1) mod INPUT_BUF) = Some c /\ c <> 10 /\
  input_rep (n <| ie := u32 (ie n - 1) |>) ready line.
Proof.
  intros [Hl Hr Hw He Hb Hx Hn]. rewrite app_assoc, length_app in *. cbn [length] in *.
  assert (E : u32 (ie n - 1) = u32 (ir n + Z.of_nat (length (ready ++ line)))).
  { rewrite He, u32_sub_l. f_equal. lia. }
  split; [|split; [set_solver|]].
  - rewrite E, u32_mod by (apply input_divides || done).
    specialize (Hx (length (ready ++ line)) c). rewrite list_lookup_middle in Hx by done.
    unfold aget. rewrite (proj2 (Z.leb_le _ _)) by (unfold INPUT_BUF; dlia). auto.
  - split; cbn; try done; [lia|by eapply ring_prefix|set_solver].
Qed.

(** Appending a byte. *)
Lemma input_put n ready line c :
  input_rep n ready line -> Z.of_nat (length (ready ++ line)) < INPUT_BUF ->
  exists b, aset (ibuf n) (ie n mod INPUT_BUF) c = Some b /\
    (c <> 10 -> input_rep (n <| ibuf := b |> <| ie := u32 (ie n + 1) |>) ready (line ++ [c])) /\
    input_rep (n <| ibuf := b |> <| ie := u32 (ie n + 1) |> <| iw := u32 (ie n + 1) |>)
      (ready ++ line ++ [c]) [].
Proof.
  intros [Hl Hr Hw He Hb Hx Hn] Hlt.
  assert (Hi : ie n mod INPUT_BUF = (ir n + Z.of_nat (length (ready ++ line))) mod INPUT_BUF)
    by (rewrite He; apply u32_mod; [apply input_divides|done]).
  assert (0 <= ie n mod INPUT_BUF < INPUT_BUF) by (unfold INPUT_BUF; dlia).
  rewrite aset_in by (rewrite Hl; unfold INPUT_BUF in *; lia). eexists. split; [done|].
  assert (Hput : ring_holds INPUT_BUF (<[Z.to_nat (ie n mod INPUT_BUF) := c]> (ibuf n)) (ir n)
    (ready ++ line ++ [c])).
  { rewrite Hi, app_assoc. apply ring_put; [done|rewrite Hl; done|done|done]. }
  assert (Hlen : Z.of_nat (length (ready ++ line ++ [c])) = Z.of_nat (length (ready ++ line)) + 1)
    by (rewrite !length_app; cbn; lia).
  assert (He' : u32 (ie n + 1) = u32 (ir n + Z.of_nat (length (ready ++ line ++ [c]))))
    by (rewrite Hlen, He, u32_add_l; f_equal; lia).
  split; [intros Hc|]; split; cbn; rewrite ?length_insert, ?app_nil_r; try done; try lia.
  all: set_solver.
Qed.

(** A working console with these lines. *)
Definition cons_inv (s : cst) (lines : list Z * list Z) : Prop :=
  cons_ok (cn s) /\ input_rep (cn s) lines.1 lines.2.

(** Dropping the last byte and rubbing it out on the screen. *)
Lemma erase_ok L s ready line c :
  cons_inv s (ready, line ++ [c]) ->
  exists s', (upd_cons (fun n => n <| ie := u32 (ie n - 1) |>) ;; consputc BACKSPACE) L s = Ok tt L s' /\
    cons_inv s' (ready, line) /\ ck s' = ck s.
Proof.
  intros [Hok Hr]. apply input_back in Hr as (_ & _ & Hr). cbn [fst snd] in Hr. kstep.
  set (s1 := s <| cn ::= _ |>).
  destruct (consputc_ok BACKSPACE L s1) as (s2 & R & W); [by destruct Hok|by right|].
  exists s2. split; [exact R|]. split; [split|].
  - apply (wr_ok _ _ _ W).
  - by eapply wrote_input.
  - by rewrite (wrote_procs _ _ _ W).
Qed.

Lemma kill_line_ok L fuel s ready line :
  cons_inv s (ready, line) -> (length line < fuel)%nat ->
  exists s', kill_line fuel L s = Ok tt L s' /\ cons_inv s' (ready, []) /\ ck s' = ck s.
Proof.
  revert fuel s. induction line as [|c line IH] using rev_ind; intros fuel s Hi Hf;
    (destruct fuel as [|fuel]; [lia|]); pose proof (input_no_line _ _ _ (proj2 Hi)) as He;
    cbn [kill_line fst snd] in *; kstep; rewrite He.
  - by exists s.
  - rewrite bool_decide_eq_false_2 by (by destruct line).
    destruct (input_back _ _ _ _ (proj2 Hi)) as (Hg & Hc & _). rewrite Hg. kstep.
    rewrite (proj2 (Z.eqb_neq c 10) Hc). destruct (erase_ok L s ready line c Hi) as (s1 & R & Hi1 & Hk).
    rewrite <- bind_assoc, (bind_Ok _ _ _ _ _ _ _ R). rewrite length_app in Hf. cbn in Hf.
    destruct (IH fuel s1 Hi1) as (s2 & R2 & Hi2 & Hk2); [lia|].
    exists s2. split; [exact R2|]. split; [exact Hi2|]. by rewrite Hk2.
Qed.

Section intr.
Variable input_r : Z.

(** Readers, if any became ready to read, have been woken. *)
Definition woken (s s' : cst) (ready ready' : list Z) : Prop :=
  if decide (ready' = ready) then ck s' = ck s
  else ck s' = (ck s) <| procs ::= map (wake_one input_r (ticks (ck s))) |>.

Lemma removelast_snoc (l : list Z) c : removelast (l ++ [c]) = l.
Proof. rewrite removelast_app by done. apply app_nil_r. Qed.

(** A character that is stored. *)
Lemma store_char_ok s ready line c b L :
  cons_inv s (ready, line) -> Lptable ∉ L -> 0 <= c < 256 -> c <> 13 ->
  Z.of_nat (length (ready ++ line)) < INPUT_BUF ->
  aset (ibuf (cn s)) (ie (cn s) mod INPUT_BUF) (u8 c) = Some b ->
  let done := (c =? 10) || (c =? C 68) || (Z.of_nat (length (ready ++ line ++ [c])) =? INPUT_BUF) in
  exists s', (upd_cons (fun n => n <| ibuf := b |> <| ie := u32 (ie n + 1) |>) ;;
      consputc c ;;
      n ← gets cn;
      (if (c =? 10) || (c =? C 68) || (ie n =? u32 (ir n + INPUT_BUF)) then
         upd_cons (fun n => n <| iw := ie n |>) ;; zoom ck (wakeup input_r)
       else mret tt) ;; mret false) L s = Ok false L s' /\
    cons_inv s' (if done then (ready ++ line ++ [c], []) else (ready, line ++ [c])) /\
    ck s' = if done then (ck s) <| procs ::= map (wake_one input_r (ticks (ck s))) |> else ck s.
Proof.
  intros [Hok Hr] HL Hc Hcr Hlt Hb. rewrite u8_small in Hb by done. cbn [fst snd] in Hr.
  destruct (input_put _ _ _ c Hr Hlt) as (b' & Hb' & Hput & Hcommit).
  rewrite Hb in Hb'. injection Hb' as <-. intros dn. kstep.
  set (s1 := s <| cn ::= _ |>).
  destruct (consputc_ok c L s1) as (s2 & R & W); [by destruct Hok|by left|].
  erewrite bind_Ok by exact R. kstep.
  assert (Hfull : (ie (cn s2) =? u32 (ir (cn s2) + INPUT_BUF)) =
    (Z.of_nat (length (ready ++ line ++ [c])) =? INPUT_BUF)).
  { rewrite (wr_same _ _ _ W). cbn.
    pose proof (input_full _ _ _ Hcommit) as E. rewrite app_nil_r in E. exact E. }
  rewrite Hfull. fold dn. destruct dn eqn:Edn.
  - rewrite !bind_assoc. kstep. rewrite (bind_Ok _ _ _ _ _ _ _ (zoom_Ok ck _ _ _ _ _ _ (wakeup_ok input_r L _ HL))).
    eexists. split; [reflexivity|]. split; [split|].
    + destruct (wr_ok _ _ _ W). by split.
    + cbn [fst snd]. rewrite (wr_same _ _ _ W). destruct Hcommit. by split.
    + cbn. by rewrite (wrote_procs _ _ _ W).
  - kstep. exists s2. split; [done|]. split; [split|].
    + apply (wr_ok _ _ _ W).
    + eapply wrote_input; [done|]. apply Hput. intros ->. by unfold dn in Edn.
    + by rewrite (wrote_procs _ _ _ W).
Qed.

Lemma edit_prefix lines c : lines.1 `prefix_of` (edit lines c).1.
Proof.
  destruct lines as [ready line]. unfold edit.
  repeat match goal with |- context [if ?b then _ else _] => destruct b end; cbn;
    first [done | apply prefix_app_r; done].
Qed.

Lemma woken_trans s1 s2 s3 r1 r2 r3 :
  woken s1 s2 r1 r2 -> woken s2 s3 r2 r3 -> r1 `prefix_of` r2 -> r2 `prefix_of` r3 ->
  woken s1 s3 r1 r3.
Proof.
  unfold woken. intros H1 H2 P1 P2. destruct (decide (r3 = r1)) as [->|N].
  - assert (r1 = r2) as <- by by apply (anti_symm prefix). rewrite decide_True in * by done. congruence.
  - destruct (decide (r3 = r2)) as [->|N2].
    + rewrite decide_False in H1 by done. congruence.
    + destruct (decide (r2 = r1)); rewrite H2, H1; [done|]. destruct (ck s1). cbn. f_equal.
      rewrite map_map. apply map_ext. intros p.
      destruct (decide (asleep_on input_r p)) as [Ha|Ha].
      * rewrite (wake_one_asleep _ _ p) by done. by rewrite wake_one_other by (by intros [? _]).
      * by rewrite !(wake_one_other _ _ p).
Qed.

Lemma intr_char_ok c L s lines :
  cons_inv s lines -> Lptable ∉ L -> 0 <= c < 256 ->
  exists s', intr_char input_r c L s = Ok (c =? C 80) L s' /\ cons_inv s' (edit lines c) /\
    woken s s' lines.1 (edit lines c).1.
Proof.
  intros Hi HL Hc. destruct lines as [ready line]. pose proof Hi as [Hok Hr]. cbn [fst snd] in *.
  unfold intr_char, edit. kstep.
  assert (Hstay : forall s', ck s' = ck s -> woken s s' ready ready)
    by (intros s' E; unfold woken; by rewrite decide_True).
  destruct (Z.eqb_spec c (C 80)) as [E80|E80].
  { exists s. split; [done|]. split; [done|]. by apply Hstay. }
  destruct (Z.eqb_spec c (C 85)).
  { destruct (kill_line_ok L (S (Z.to_nat (u32 (ie (cn s) - iw (cn s))))) s ready line Hi) as (s1 & R & Hi1 & Hk).
    { destruct Hr as [_ ? Hw He Hb _ _]. rewrite Hw, He, length_app in *. rewrite u32_sub_l, u32_sub_r.
      replace (_ - _) with (Z.of_nat (length line)) by lia. unfold INPUT_BUF in Hb.
      rewrite u32_small by lia. lia. }
    erewrite bind_Ok by exact R. exists s1. split; [done|]. split; [exact Hi1|]. by apply Hstay. }
  destruct ((c =? C 72) || (c =? 127)).
  { rewrite (input_no_line _ _ _ Hr). destruct line as [|x line _] using rev_ind.
    - rewrite bool_decide_eq_true_2 by done. kstep. exists s. split; [done|]. split; [done|]. by apply Hstay.
    - rewrite bool_decide_eq_false_2 by (by destruct line).
      destruct (erase_ok L s ready line x Hi) as (s1 & R & Hi1 & Hk).
      rewrite (bind_Ok _ _ _ _ _ _ _ R). rewrite removelast_snoc.
      exists s1. split; [done|]. split; [exact Hi1|]. by apply Hstay. }
  rewrite (input_room _ _ _ Hr).
  destruct (nz c && _) eqn:Ef; [|exists s; split; [done|]; split; [done|]; by apply Hstay].
  apply andb_true_iff in Ef as [_ Hlt%Z.ltb_lt].
  set (c' := if c =? 13 then 10 else c).
  assert (Hc' : 0 <= c' < 256 /\ c' <> 13) by (unfold c'; destruct (Z.eqb_spec c 13); lia).
  destruct (input_put _ _ _ (u8 c') Hr Hlt) as (b & Hb & _). rewrite Hb. kstep.
  destruct (store_char_ok s ready line c' b L Hi HL) as (s' & R & Hi' & Hk); [tauto..|done|done|].
  exists s'. split; [exact R|].
  revert Hi' Hk. generalize ((c' =? 10) || (c' =? C 68) || (Z.of_nat (length (ready ++ line ++ [c'])) =? INPUT_BUF)).
  intros [] Hi' Hk; (split; [exact Hi'|]); unfold woken; rewrite Hk; cbn [fst].
  - rewrite decide_False; [done|]. intros E. apply (f_equal length) in E.
    rewrite !length_app in E. cbn in E. lia.
  - by rewrite decide_True.
Qed.

Lemma intr_loop_ok cs L : forall s lines d,
  cons_inv s lines -> Lptable ∉ L -> Forall (fun c => 0 <= c < 256) cs ->
  exists s', intr_loop input_r cs d L s = Ok (d || existsb (fun c => c =? C 80) cs) L s' /\
    cons_inv s' (foldl edit lines cs) /\ woken s s' lines.1 (foldl edit lines cs).1 /\
    lines.1 `prefix_of` (foldl edit lines cs).1.
Proof.
  induction cs as [|c cs IH]; intros s lines d Hi HL Hcs; cbn [intr_loop foldl existsb].
  { exists s. rewrite orb_false_r. split; [done|]. split; [done|]. unfold woken. by rewrite decide_True. }
  apply Forall_cons in Hcs as [Hc Hcs].
  destruct (intr_char_ok c L s lines Hi HL Hc) as (s1 & R1 & Hi1 & W1). erewrite bind_Ok by exact R1.
  destruct (IH s1 (edit lines c) (d || (c =? C 80)) Hi1 HL Hcs) as (s2 & R2 & Hi2 & W2 & P2).
  exists s2. rewrite R2, orb_assoc. split; [done|]. split; [done|].
  pose proof (edit_prefix lines c). split; [by eapply woken_trans|by etrans].
Qed.

(** C17: The console interrupt handler edits lines: each character typed is
    appended to the line being edited, kills it, rubs out its last byte or,
    at its end or when the buffer is full, hands it to the readers; the
    buffer never overflows, the screen never does, and when there is
    something new to read nobody is left asleep waiting for it. *)
Theorem consoleintr_edits s lines cs
  (Hi : cons_inv s lines) (Hcs : Forall (fun c => 0 <= c < 256) cs) (Hp : C 80 ∉ cs) :
  exists s', consoleintr input_r cs [] s = Ok tt [] s' /\ cons_inv s' (foldl edit lines cs) /\
    ((foldl edit lines cs).1 = lines.1 -> ck s' = ck s) /\
    ((foldl edit lines cs).1 <> lines.1 -> Forall (fun p => ~ asleep_on input_r p) (procs (ck s'))).
Proof.
  destruct (intr_loop_ok cs [Lcons] s lines false Hi ltac:(set_solver) Hcs) as (s' & R & Hi' & W & _).
  assert (existsb (fun c => c =? C 80) cs = false) as E.
  { apply not_true_is_false. intros (x & Hx & Ex%Z.eqb_eq)%existsb_exists. subst x.
    by apply Hp, list_elem_of_In. }
  unfold consoleintr. kstep. erewrite bind_Ok by exact R. rewrite E. kstep.
  exists s'. split; [done|]. split; [done|]. unfold woken in W. split; intros H.
  - by rewrite decide_True in W.
  - rewrite decide_False in W by done. rewrite W. cbn. apply Forall_fmap, Forall_forall.
    intros p _. cbn. destruct (decide (asleep_on input_r p)).
    + rewrite wake_one_asleep by done. by intros [? _].
    + by rewrite wake_one_other.
Qed.

End intr.

(** *** Children *)

Lemma line_bytes s : bytes (lit s ++ [10]).
Proof. apply Forall_app. split; [apply lit_bytes|]. constructor; [lia|constructor]. Qed.

Lemma children_loop_null me i : forall ps acc L s p,
  cons_ok (cn s) -> Lcons ∉ L -> ps !! i = Some p -> parent p = None ->
  (forall q, q ∈ ps -> match parent q with Some j => is_Some (procs (ck s) !! j) | None => True end) ->
  children_loop me ps acc L s = Fault "p->parent->pid".
Proof.
  induction i as [|i IH]; intros [|q ps] acc L s p Hok HL Hp Hpar Hall; try done; cbn [children_loop].
  { injection Hp as ->. by rewrite Hpar. }
  pose proof (Hall q ltac:(apply elem_of_cons; by left)) as Hq. destruct (parent q) as [j|]; [|done].
  destruct Hq as [x Hx]. kstep. erewrite bind_Ok by (apply zoom_Ok; apply get_proc_ok; exact Hx).
  change (s <| ck := ck s |>) with (mkCst (cn s) (ck s)). replace (mkCst (cn s) (ck s)) with s by by destruct s.
  assert (Hall' : forall q, q ∈ ps -> match parent q with Some j => is_Some (procs (ck s) !! j) | None => True end).
  { intros y Hy. apply Hall. apply elem_of_cons. by right. }
  destruct (pid x =? me); [|by eapply IH].
  destruct (cprintf_ok (lit "found child %d" ++ [10]) [pid q] (fun _ => []) L s Hok HL) as (o & s' & R & W);
    [apply line_bytes|constructor|].
  erewrite bind_Ok by exact R. eapply IH; [apply W|done..|]. by rewrite (wrote_procs _ _ _ W).
Qed.

(** [getchildren] follows [p->parent] of every slot of the table, so it
    dereferences a null pointer as soon as one slot has no parent: the first
    process and every unused slot. *)
Theorem getchildren_null_parent i p me L s
    (Hok : cons_ok (cn s)) (HL : Lptable ∉ L /\ Lcons ∉ L)
    (Hp : procs (ck s) !! i = Some p) (Hpar : parent p = None)
    (Hme : curproc (ck s) = Some me) (Hlt : is_Some (procs (ck s) !! me))
    (Hall : forall q j, q ∈ procs (ck s) -> parent q = Some j -> is_Some (procs (ck s) !! j)) :
  getchildren L s = Fault "p->parent->pid".
Proof.
  destruct Hlt as [pm Hpm], HL as [HL1 HL2]. unfold getchildren.
  assert (R : zoom ck (i ← myproc; get_proc i) L s = Ok pm L s).
  { rewrite (zoom_Ok ck _ L s pm L (ck s)); [by destruct s|].
    erewrite bind_Ok by by apply myproc_ok. by apply get_proc_ok. }
  erewrite bind_Ok by exact R. kstep.
  destruct (cprintf_ok (lit "looking for childs of %d..." ++ [10]) [pid pm] (fun _ => []) (Lptable :: L) s Hok)
    as (o & s' & R' & W); [set_solver|apply line_bytes|constructor|].
  erewrite bind_Ok by exact R'. pose proof (wrote_procs _ _ _ W) as E.
  rewrite (bind_Ok (gets (fun s => procs (ck s))) _ _ s' (procs (ck s)) (Lptable :: L) s') by (by rewrite <- E).
  assert (Hl : children_loop (pid pm) (procs (ck s)) 0 (Lptable :: L) s' = Fault "p->parent->pid").
  { eapply children_loop_null; [apply W|set_solver|exact Hp|done|]. intros q Hq.
    destruct (parent q) as [j|] eqn:Ej; [|done]. rewrite E. eauto. }
  unfold mbind, K_bind. by rewrite Hl.
Qed.

(** *** Concrete runs *)

Definition demo_console : console :=
  mkConsole 0 1 1 [] (replicate 2000 0) 0 (replicate 128 0) 5 5 5 0.

Lemma demo_console_ok : cons_inv (mkCst demo_console (machine [runner])) ([], []).
Proof. split; split; try done; try (cbn; unfold INPUT_BUF; lia). set_solver. Qed.

Lemma consoleintr_edits_witness :
  exists s', consoleintr 99 [97; 98; 8; 99; 13; 100] [] (mkCst demo_console (machine [runner])) = Ok tt [] s' /\
    cons_inv s' ([97; 99; 10], [100]).
Proof.
  destruct (consoleintr_edits 99 _ _ [97; 98; 8; 99; 13; 100] demo_console_ok) as (s' & R & Hi & _);
    [repeat (constructor; [lia|]); constructor|set_solver|].
  exists s'. split; [exact R|exact Hi].
Defined.

Lemma getchildren_null_parent_witness :
  getchildren [] (mkCst demo_console (machine [runner])) = Fault "p->parent->pid".
Proof.
  apply (getchildren_null_parent O runner O); try done; [by split; apply not_elem_of_nil|].
  intros q j ->%list_elem_of_singleton. done.
Defined.

End Console.
