(* ===== verification/Sleeplock.v ===== *)
(** Sleep locks (sleeplock.c): locks a process may hold while it sleeps. *)

From stdpp Require Import base numbers list sets strings relations.
From Stdlib Require Import ZArith Lia.
From S2P Require Import Prelude Mem CString Mmu Seg Kalloc Param Proc.
Import CString Mmu Seg Kalloc Param Proc.

Module Sleeplock.

Record sleeplock := mkSleeplock { slocked : Z; spid : Z }.
#[export] Instance eta_sleeplock : Eta sleeplock := fun k => mkSleeplock k.(slocked) k.(spid).

(** One sleep lock with the process table. *)
Record slstate := mkSl { slk : sleeplock; slp : pstate }.
#[export] Instance eta_slstate : Eta slstate := fun s => mkSl s.(slk) s.(slp).

Section sleeplock.
(** The lock's address, its inner spin lock, and what the other processes do
    while this one sleeps. *)
Variables (addr : Z) (k : Z) (swtch : K slstate unit).

Definition initsleeplock : K slstate unit :=
  modify (fun s => s <| slk := mkSleeplock 0 0 |>).

Definition mypid : K slstate Z := zoom slp (i ← myproc; p ← get_proc i; mret (pid p)).

(** [while (lk->locked) sleep(lk, &lk->lk);] *)
Fixpoint wait_free (fuel : nat) : K slstate unit :=
  match fuel with
  | O => fault "out of fuel"
  | S f =>
      l ← gets (fun s => slocked (slk s));
      if nz l then sleep_in slp swtch addr (Lsleep k) ;; wait_free f else mret tt
  end.

Definition acquiresleep (fuel : nat) : K slstate unit :=
  acquire (Lsleep k) ;;
  wait_free fuel ;;
  modify (fun s => s <| slk ::= fun l => l <| slocked := 1 |> |>) ;;
  n ← mypid;
  modify (fun s => s <| slk ::= fun l => l <| spid := n |> |>) ;;
  release (Lsleep k).

Definition releasesleep : K slstate unit :=
  acquire (Lsleep k) ;;
  modify (fun s => s <| slk ::= fun l => l <| slocked := 0 |> |>) ;;
  modify (fun s => s <| slk ::= fun l => l <| spid := 0 |> |>) ;;
  zoom slp (wakeup addr) ;;
  release (Lsleep k).

Definition holdingsleep : K slstate bool :=
  acquire (Lsleep k) ;;
  l ← gets slk;
  n ← (if nz (slocked l) then mypid else mret 0);
  release (Lsleep k) ;;
  mret (nz (slocked l) && (spid l =? n)).

(** *** Sleeping and going on *)

(** The state in which the process sleeps, and in which it goes on. *)
Definition asleep_now (i : nat) (p : proc) (s : slstate) : slstate :=
  s <| slp := at_sleep addr i p (slp s) |>.
Definition awake_now (i : nat) (p : proc) (s : slstate) : slstate :=
  s <| slp ::= fun t => t <| procs ::= fun ps => <[i := p <| chan := 0 |>]> ps |> |>.

Lemma sleep_in_ok i p p2 s s2 :
  running i p (slp s) -> swtch [Lptable] (asleep_now i p s) = Ok tt [Lptable] s2 ->
  procs (slp s2) !! i = Some p2 ->
  sleep_in slp swtch addr (Lsleep k) [Lsleep k] s = Ok tt [Lsleep k] (awake_now i p2 s2).
Proof.
  intros Hr Hs Hp. unfold sleep_in.
  erewrite bind_Ok by (unfold zoom; by rewrite (sleep_pre_ok addr (Lsleep k) i p) by done).
  erewrite bind_Ok by exact Hs. unfold zoom. by rewrite (sleep_post_ok (Lsleep k) i p2) by done.
Qed.

Lemma mypid_ok i p L s :
  curproc (slp s) = Some i -> procs (slp s) !! i = Some p -> mypid L s = Ok (pid p) L s.
Proof.
  intros Hc Hp. unfold mypid, zoom. destruct s. cbn in *. erewrite bind_Ok by by apply myproc_ok.
  by erewrite bind_Ok by by apply get_proc_ok.
Qed.

(** A free lock is taken at once. *)
Lemma acquiresleep_free i p s f :
  curproc (slp s) = Some i -> procs (slp s) !! i = Some p -> slocked (slk s) = 0 ->
  acquiresleep (S f) [] s = Ok tt [] (s <| slk := mkSleeplock 1 (pid p) |>).
Proof.
  intros Hc Hp Hl. unfold acquiresleep. kstep.
  erewrite bind_Ok by (cbn [wait_free]; kstep; by rewrite Hl). kstep.
  erewrite bind_Ok by (by apply (mypid_ok i p)). kstep.
  rewrite release_top by apply not_elem_of_nil. by destruct s as [[]].
Qed.

Lemma releasesleep_ok i p s :
  running i p (slp s) -> exists s', releasesleep [] s = Ok tt [] s' /\
    slk s' = mkSleeplock 0 0 /\ running i p (slp s').
Proof.
  intros Hr. unfold releasesleep. kstep. kstep. kstep.
  destruct (wakeup_running addr [Lsleep k] (slp s) i p) as (t & Hw & Hr' & _); [set_solver|done|].
  erewrite bind_Ok by (unfold zoom; cbn; by rewrite Hw).
  rewrite release_top by apply not_elem_of_nil. eexists. split; [reflexivity|]. done.
Qed.

Lemma holdingsleep_mine i p L s :
  curproc (slp s) = Some i -> procs (slp s) !! i = Some p -> Lsleep k ∉ L ->
  slk s = mkSleeplock 1 (pid p) -> holdingsleep L s = Ok true L s.
Proof.
  intros Hc Hp HL Hl. unfold holdingsleep. kstep. kstep. rewrite Hl. simpl.
  erewrite bind_Ok by (by apply (mypid_ok i p)). kstep. by rewrite Z.eqb_refl.
Qed.

Lemma acquiresleep_sleeps i p s f :
  running i p (slp s) -> slocked (slk s) <> 0 ->
  (forall t, swtch [Lptable] t = Sleep addr [Lptable] t) ->
  acquiresleep (S f) [] s = Sleep addr [Lptable] (s <| slp ::= at_sleep addr i p |>).
Proof.
  intros Hr Hl Hsw. unfold acquiresleep. kstep. cbn [wait_free]. rewrite bind_assoc. kstep. unfold nz.
  rewrite (proj2 (Z.eqb_neq _ _) Hl). cbn [negb]. unfold sleep_in. rewrite !bind_assoc.
  rewrite (bind_Ok _ _ _ _ _ _ _ (zoom_Ok slp _ _ _ _ _ _ (sleep_pre_ok addr (Lsleep k) i p (slp s) Hr))).
  rewrite !bind_assoc. unfold mbind, K_bind. by rewrite Hsw.
Qed.

Lemma holdingsleep_free L s :
  Lsleep k ∉ L -> slocked (slk s) = 0 -> holdingsleep L s = Ok false L s.
Proof. intros HL Hl. unfold holdingsleep. kstep. kstep. rewrite Hl. simpl. kstep. by kstep. Qed.

(** A caller that slept and was resumed goes on as if it called again. *)
Lemma acquiresleep_resumes i p p2 s s2 f :
  running i p (slp s) -> slocked (slk s) <> 0 ->
  swtch [Lptable] (asleep_now i p s) = Ok tt [Lptable] s2 -> procs (slp s2) !! i = Some p2 ->
  acquiresleep (S f) [] s = acquiresleep f [] (awake_now i p2 s2).
Proof.
  intros Hr Hl Hs Hp. unfold acquiresleep.
  erewrite !bind_Ok by (apply acquire_free, not_elem_of_nil). cbn [wait_free]. rewrite !bind_assoc. kstep. unfold nz.
  rewrite (proj2 (Z.eqb_neq _ _) Hl). cbn [negb]. rewrite bind_assoc.
  by erewrite bind_Ok by (by eapply sleep_in_ok).
Qed.

(** [releasesleep] frees the lock and leaves no process asleep on it. *)
Theorem releasesleep_frees L s (HL : Lsleep k ∉ L) (HL2 : Lptable ∉ L) :
  exists s', releasesleep L s = Ok tt L s' /\ slocked (slk s') = 0 /\
    Forall (fun p => ~ asleep_on addr p) (procs (slp s')).
Proof.
  unfold releasesleep. kstep. kstep. kstep.
  erewrite bind_Ok.
  2: { apply zoom_Ok, wakeup_ok. set_solver. }
  rewrite release_top by done. eexists. split; [reflexivity|]. split; [done|].
  cbn. apply Forall_fmap, Forall_forall. intros p _. simpl.
  destruct (decide (asleep_on addr p)).
  - rewrite wake_one_asleep by done. by intros [? _].
  - by rewrite wake_one_other.
Qed.

(** [holdingsleep] tells whether the lock is held under the caller's pid. *)
Theorem holdingsleep_iff i p L s (Hc : curproc (slp s) = Some i)
    (Hp : procs (slp s) !! i = Some p) (HL : Lsleep k ∉ L) :
  exists b, holdingsleep L s = Ok b L s /\
    (b = true <-> slocked (slk s) <> 0 /\ spid (slk s) = pid p).
Proof.
  unfold holdingsleep. kstep. kstep. unfold nz.
  destruct (Z.eqb_spec (slocked (slk s)) 0) as [E|E]; simpl.
  - kstep. kstep. exists false. split; [done|naive_solver].
  - erewrite bind_Ok by (by apply (mypid_ok i p)). kstep. eexists. split; [done|]. rewrite Z.eqb_eq. tauto.
Qed.
End sleeplock.

(** *** Many processes and one lock

    Every process is outside, waits in [acquiresleep] or holds the lock.  The
    spin lock inside makes each stretch of [acquiresleep] and [releasesleep]
    between two sleeps one step; [acquiresleep_resumes] is what a process does
    when it is resumed.  Meanwhile others change the table as they like, short
    of ending these processes; a process that waits they can only wake, as
    [kill] does. *)
Section many.
Variables (addr k : Z).

Inductive phase := Outside | Waiting | Inside.

(** A switch at which the run of the caller is cut. *)
Definition stop : K slstate unit := fun l s => Sleep addr l s.

(** The machine as the processor sees it on which process [i] runs. *)
Definition seen_by (i : nat) (s : slstate) : slstate :=
  s <| slp ::= fun t => t <| curproc := Some i |> |>.

Definition set_phase (i : nat) (a : phase) (ph : nat -> phase) (j : nat) : phase :=
  if decide (j = i) then a else ph j.

Inductive move : (nat -> phase) * slstate -> (nat -> phase) * slstate -> Prop :=
  | mv_take i p ph s s' :
      ph i = Outside -> running i p (slp (seen_by i s)) ->
      acquiresleep addr k stop 1 [] (seen_by i s) = Ok tt [] s' ->
      move (ph, s) (set_phase i Inside ph, s')
  | mv_wait i p ph s s' :
      ph i = Outside -> running i p (slp (seen_by i s)) ->
      acquiresleep addr k stop 1 [] (seen_by i s) = Sleep addr [Lptable] s' ->
      move (ph, s) (set_phase i Waiting ph, s')
  | mv_resume i p ph s :
      ph i = Waiting -> procs (slp s) !! i = Some p -> state p = RUNNABLE ->
      move (ph, s) (set_phase i Outside ph, awake_now i (p <| state := RUNNING |>) s)
  | mv_release i p ph s s' :
      ph i = Inside -> running i p (slp (seen_by i s)) ->
      releasesleep addr k [] (seen_by i s) = Ok tt [] s' ->
      move (ph, s) (set_phase i Outside ph, s')
  | mv_others ph s t :
      (forall i p, procs (slp s) !! i = Some p -> exists p', procs t !! i = Some p' /\ pid p' = pid p /\
        (ph i = Waiting -> state p' = RUNNABLE \/ state p' = state p /\ chan p' = chan p)) ->
      move (ph, s) (ph, s <| slp := t |>).

(** The lock is free and nobody is inside, or one process is and the lock says
    so; who waits while the lock is free has been woken. *)
Record exclusive (c : (nat -> phase) * slstate) : Prop := {
  ex_lock :
    (slocked (slk c.2) = 0 /\ forall i, c.1 i <> Inside) \/
    exists i p, c.1 i = Inside /\ procs (slp c.2) !! i = Some p /\ slk c.2 = mkSleeplock 1 (pid p) /\
      forall j, c.1 j = Inside -> j = i;
  ex_wait : forall i, c.1 i = Waiting -> exists p, procs (slp c.2) !! i = Some p /\
    (state p = RUNNABLE \/ asleep_on addr p /\ slocked (slk c.2) <> 0)
}.

Lemma set_phase_eq i a ph : set_phase i a ph i = a.
Proof. unfold set_phase. by rewrite decide_True. Qed.
Lemma set_phase_ne i a ph j : j <> i -> set_phase i a ph j = ph j.
Proof. intros. unfold set_phase. by rewrite decide_False. Qed.

Lemma take_exclusive i p ph s :
  exclusive (ph, s) -> ph i = Outside -> running i p (slp (seen_by i s)) -> slocked (slk s) = 0 ->
  exclusive (set_phase i Inside ph, (seen_by i s) <| slk := mkSleeplock 1 (pid p) |>).
Proof.
  intros [Hl Hw] Hph Hr H0. cbn [fst snd] in *. split; cbn [fst snd].
  - right. exists i, p. rewrite set_phase_eq. split_and!; [done|apply (rn_proc _ _ _ Hr)|done|].
    intros j Hj. destruct (decide (j = i)) as [|Hne]; [done|]. rewrite set_phase_ne in Hj by done.
    destruct Hl as [[_ Hl]|(i' & p' & _ & _ & E & _)]; [by destruct (Hl j)|by rewrite E in H0].
  - intros j Hj. destruct (decide (j = i)) as [->|Hne]; [by rewrite set_phase_eq in Hj|].
    rewrite set_phase_ne in Hj by done. destruct (Hw j Hj) as (q & Hq & [?|[_ ?]]); [|done].
    exists q. split; [done|by left].
Qed.

Lemma wait_exclusive i p ph s :
  exclusive (ph, s) -> ph i = Outside -> running i p (slp (seen_by i s)) -> slocked (slk s) <> 0 ->
  exclusive (set_phase i Waiting ph, asleep_now addr i p (seen_by i s)).
Proof.
  intros [Hl Hw] Hph Hr H0. cbn [fst snd] in *. pose proof (lookup_lt_Some _ _ _ (rn_proc _ _ _ Hr)) as Hlt.
  split; cbn [fst snd].
  - right. destruct Hl as [[? _]|(i' & p' & Hi & Hp & E & Hu)]; [done|].
    assert (i' <> i) by (intros ->; congruence). exists i', p'. rewrite set_phase_ne by done.
    split_and!; [done| |done|].
    + cbn. by rewrite list_lookup_insert_ne by done.
    + intros j Hj. destruct (decide (j = i)) as [->|Hne]; [by rewrite set_phase_eq in Hj|].
      rewrite set_phase_ne in Hj by done. by apply Hu.
  - intros j Hj. destruct (decide (j = i)) as [->|Hne].
    + eexists. split; [cbn; by apply list_lookup_insert_eq|]. by right.
    + rewrite set_phase_ne in Hj by done. destruct (Hw j Hj) as (q & Hq & Hor). exists q.
      split; [cbn; by rewrite list_lookup_insert_ne by done|done].
Qed.

Lemma resume_exclusive i p ph s :
  exclusive (ph, s) -> ph i = Waiting -> procs (slp s) !! i = Some p ->
  exclusive (set_phase i Outside ph, awake_now i (p <| state := RUNNING |>) s).
Proof.
  intros [Hl Hw] Hph Hp. cbn [fst snd] in *. split; cbn [fst snd].
  - destruct Hl as [[H0 Hn]|(i' & p' & Hi & Hp' & E & Hu)].
    + left. split; [done|]. intros j. destruct (decide (j = i)) as [->|Hne]; [by rewrite set_phase_eq|].
      rewrite set_phase_ne by done. apply Hn.
    + right. assert (i' <> i) by (intros ->; congruence). exists i', p'. rewrite set_phase_ne by done.
      split_and!; [done|cbn; by rewrite list_lookup_insert_ne by done|done|].
      intros j Hj. destruct (decide (j = i)) as [->|Hne]; [by rewrite set_phase_eq in Hj|].
      rewrite set_phase_ne in Hj by done. by apply Hu.
  - intros j Hj. destruct (decide (j = i)) as [->|Hne]; [by rewrite set_phase_eq in Hj|].
    rewrite set_phase_ne in Hj by done. destruct (Hw j Hj) as (q & Hq & Hor). exists q.
    split; [cbn; by rewrite list_lookup_insert_ne by done|done].
Qed.

Lemma release_exclusive i p ph s s' :
  exclusive (ph, s) -> ph i = Inside -> running i p (slp (seen_by i s)) ->
  releasesleep addr k [] (seen_by i s) = Ok tt [] s' -> exclusive (set_phase i Outside ph, s').
Proof.
  intros [Hl Hw] Hph Hr. cbn [fst snd] in *. unfold releasesleep. kstep. kstep. kstep.
  erewrite bind_Ok by (apply zoom_Ok, wakeup_ok; set_solver).
  rewrite release_top by apply not_elem_of_nil. intros [= <-]. split; cbn [fst snd].
  - left. split; [done|]. intros j. destruct (decide (j = i)) as [->|Hne]; [by rewrite set_phase_eq|].
    rewrite set_phase_ne by done. intros Hj.
    destruct Hl as [[_ Hn]|(i' & p' & _ & _ & _ & Hu)]; [by destruct (Hn i)|].
    apply Hne. by rewrite (Hu _ Hj), (Hu _ Hph).
  - intros j Hj. destruct (decide (j = i)) as [->|Hne]; [by rewrite set_phase_eq in Hj|].
    rewrite set_phase_ne in Hj by done. destruct (Hw j Hj) as (q & Hq & Hor).
    exists (wake_one addr (ticks (slp s)) q). split; [cbn; by rewrite list_lookup_fmap, Hq|]. left.
    destruct (decide (asleep_on addr q)) as [Ha|Ha]; [by rewrite wake_one_asleep|].
    rewrite wake_one_other by done. by destruct Hor as [?|[? _]].
Qed.

Lemma others_exclusive ph s t :
  exclusive (ph, s) ->
  (forall i p, procs (slp s) !! i = Some p -> exists p', procs t !! i = Some p' /\ pid p' = pid p /\
    (ph i = Waiting -> state p' = RUNNABLE \/ state p' = state p /\ chan p' = chan p)) ->
  exclusive (ph, s <| slp := t |>).
Proof.
  intros [Hl Hw] Ht. split; cbn [fst snd] in *.
  - destruct Hl as [Hl|(i & p & Hi & Hp & E & Hu)]; [by left|right].
    destruct (Ht i p Hp) as (p' & Hp' & Hpid & _). exists i, p'. rewrite Hpid. by split_and!.
  - intros j Hj. destruct (Hw j Hj) as (q & Hq & Hor). destruct (Ht j q Hq) as (q' & Hq' & _ & Hs).
    exists q'. destruct (Hs Hj) as [Hst|[Hst Hch]]; [by split; [|left]|]. split; [done|]. unfold asleep_on in *. by rewrite Hst, Hch.
Qed.

Lemma move_exclusive c c' : exclusive c -> move c c' -> exclusive c'.
Proof.
  intros H Hm. destruct Hm as [i p ph s s' Hph Hr R|i p ph s s' Hph Hr R|i p ph s Hph Hp Hs|i p ph s s' Hph Hr R|].
  - destruct (decide (slocked (slk s) = 0)) as [H0|H0].
    + rewrite (acquiresleep_free addr k stop i p) in R by (done || apply Hr). injection R as <-.
      by apply take_exclusive.
    + by rewrite (acquiresleep_sleeps addr k stop i p) in R.
  - destruct (decide (slocked (slk s) = 0)) as [H0|H0].
    + by rewrite (acquiresleep_free addr k stop i p) in R by (done || apply Hr).
    + rewrite (acquiresleep_sleeps addr k stop i p) in R by done. injection R as <-.
      by apply (wait_exclusive i p).
  - by apply resume_exclusive.
  - by eapply release_exclusive.
  - by apply others_exclusive.
Qed.

End many.

(** *** Concrete runs *)

(** One process takes the lock, another has to wait for it and is resumed when
    it is let go. *)
Definition two : slstate := mkSl (mkSleeplock 0 0) (machine [runner; runner <| pid := 3 |>]).


Lemma releasesleep_frees_witness :
  exists s', releasesleep 7 0 [] (mkSl (mkSleeplock 1 2) (machine [runner; sleeper])) = Ok tt [] s' /\
    slocked (slk s') = 0.
Proof.
  destruct (releasesleep_frees 7 0 [] (mkSl (mkSleeplock 1 2) (machine [runner; sleeper]))
    (not_elem_of_nil _) (not_elem_of_nil _)) as (s' & H1 & H2 & _).
  exists s'. split; [exact H1|exact H2].
Defined.

Lemma holdingsleep_iff_witness :
  exists b, holdingsleep 0 [] (mkSl (mkSleeplock 1 2) (machine [runner])) = Ok b []
    (mkSl (mkSleeplock 1 2) (machine [runner])) /\ b = true.
Proof.
  destruct (holdingsleep_iff 0 O runner [] (mkSl (mkSleeplock 1 2) (machine [runner])) eq_refl eq_refl
    (not_elem_of_nil _)) as (b & H1 & H2).
  exists b. split; [exact H1|]. by apply H2.
Defined.

End Sleeplock.
