(* ===== verification/Pipe.v ===== *)
(** Pipes (pipe.c): a ring of 512 bytes between a writer and a reader that
    sleep when it is full or empty. *)

From stdpp Require Import base numbers list sets strings.
From Stdlib Require Import ZArith Lia.
From S2P Require Import Prelude Mem CString Mmu Seg Kalloc Param Proc.
Import CString Mmu Seg Kalloc Param Proc.

Module Pipe.

Definition PIPESIZE : Z := 512.

Record pipe := mkPipe {
  data : list Z; nread : Z; nwrite : Z; readopen : Z; writeopen : Z }.
#[export] Instance eta_pipe : Eta pipe := fun p =>
  mkPipe p.(data) p.(nread) p.(nwrite) p.(readopen) p.(writeopen).

(** A pipe, the processes, and the memory of the caller's buffer. *)
Record pst := mkPst { pp : pipe; pk : pstate; ub : mem }.
#[export] Instance eta_pst : Eta pst := fun s => mkPst s.(pp) s.(pk) s.(ub).

Section pipe.
(** [end], the page of the pipe, and what the other processes do while this
    one sleeps. *)
Variables (kend pg : Z) (swtch : K pst unit).

(** [&p->nread] and [&p->nwrite], after the lock (52 bytes) and the data. *)
Definition nread_chan : Z := pg + 564.
Definition nwrite_chan : Z := pg + 568.

Definition mykilled : K pst Z := zoom pk (i ← myproc; p ← get_proc i; mret (killed p)).

Definition pipeclose (writable : bool) : K pst unit :=
  acquire Lpipe ;;
  (if writable then
     modify (fun s => s <| pp ::= fun p => p <| writeopen := 0 |> |>) ;;
     zoom pk (wakeup nread_chan)
   else
     modify (fun s => s <| pp ::= fun p => p <| readopen := 0 |> |>) ;;
     zoom pk (wakeup nwrite_chan)) ;;
  p ← gets pp;
  if (readopen p =? 0) && (writeopen p =? 0) then
    release Lpipe ;; zoom pk (zoom pkmem (kfree kend pg))
  else release Lpipe.

(** The [while] loop of [pipewrite]; [false] means it returned -1. *)
Fixpoint wait_room (fuel : nat) : K pst bool :=
  match fuel with
  | O => fault "out of fuel"
  | S f =>
      p ← gets pp;
      if nwrite p =? u32 (nread p + PIPESIZE) then
        k ← (if readopen p =? 0 then mret 1 else mykilled);
        if nz k then release Lpipe ;; mret false
        else zoom pk (wakeup nread_chan) ;; sleep_in pk swtch nwrite_chan Lpipe ;; wait_room f
      else mret true
  end.

(** [p->data[p->nwrite++ % PIPESIZE] = c] *)
Definition put_byte (c : Z) : K pst unit :=
  p ← gets pp;
  d ← deref "p->data" (aset (data p) (nwrite p mod PIPESIZE) c);
  modify (fun s => s <| pp := p <| data := d |> <| nwrite := u32 (nwrite p + 1) |> |>).

(** The [for] loop from index [i], [r] bytes to go, and the end of the call. *)
Fixpoint write_loop (fuel : nat) (addr i n : Z) (r : nat) : K pst Z :=
  match r with
  | O => zoom pk (wakeup nread_chan) ;; release Lpipe ;; mret n
  | S r' =>
      go ← wait_room fuel;
      if (go : bool) then
        m ← gets ub; put_byte (load8 m (addr + i)) ;; write_loop fuel addr (i + 1) n r'
      else mret (-1)
  end.

Definition pipewrite (fuel : nat) (addr n : Z) : K pst Z :=
  acquire Lpipe ;; write_loop fuel addr 0 n (Z.to_nat n).

(** The [while] loop of [piperead]; [false] means it returned -1. *)
Fixpoint wait_data (fuel : nat) : K pst bool :=
  match fuel with
  | O => fault "out of fuel"
  | S f =>
      p ← gets pp;
      if (nread p =? nwrite p) && nz (writeopen p) then
        k ← mykilled;
        if nz k then release Lpipe ;; mret false
        else sleep_in pk swtch nread_chan Lpipe ;; wait_data f
      else mret true
  end.

(** The copy loop from index [i]; returns the number of bytes copied. *)
Fixpoint read_loop (addr i : Z) (r : nat) : K pst Z :=
  match r with
  | O => mret i
  | S r' =>
      p ← gets pp;
      if nread p =? nwrite p then mret i
      else
        c ← deref "p->data" (aget (data p) (nread p mod PIPESIZE));
        modify (fun s => s <| pp ::= fun p => p <| nread := u32 (nread p + 1) |> |>) ;;
        modify (fun s => s <| ub ::= fun m => store8 m (addr + i) c |>) ;;
        read_loop addr (i + 1) r'
  end.

Definition piperead (fuel : nat) (addr n : Z) : K pst Z :=
  acquire Lpipe ;;
  go ← wait_data fuel;
  if (go : bool) then
    i ← read_loop addr 0 (Z.to_nat n);
    zoom pk (wakeup nwrite_chan) ;; release Lpipe ;; mret i
  else mret (-1).

End pipe.

(** *** The ring as a queue of bytes *)

(** The pipe holds the bytes [l], oldest first.  The counters run freely
    modulo [2^32]. *)
Record pipe_rep (p : pipe) (l : list Z) : Prop := {
  pr_data : length (data p) = Z.to_nat PIPESIZE;
  pr_nread : is_u32 (nread p);
  pr_nwrite : nwrite p = u32 (nread p + Z.of_nat (length l));
  pr_bound : Z.of_nat (length l) <= PIPESIZE;
  pr_bytes : forall k x, l !! k = Some x ->
    data p !! Z.to_nat ((nread p + Z.of_nat k) mod PIPESIZE) = Some x;
  pr_range : Forall (fun c => 0 <= c < 256) l
}.

Lemma u32_mod_pipe x : u32 x mod PIPESIZE = x mod PIPESIZE.
Proof.
  unfold u32, PIPESIZE. change (2 ^ 32) with (512 * 8388608).
  rewrite Z.rem_mul_r by lia. rewrite Z.mul_comm, Z.mod_add by lia. apply Z.mod_mod. lia.
Qed.

Lemma pipe_full p l :
  pipe_rep p l -> (nwrite p =? u32 (nread p + PIPESIZE)) = (Z.of_nat (length l) =? PIPESIZE).
Proof.
  intros [_ Hn Hw Hb _ _]. rewrite Hw. destruct (Z.eqb_spec (Z.of_nat (length l)) PIPESIZE) as [E|E].
  - rewrite E. apply Z.eqb_refl.
  - apply Z.eqb_neq. unfold u32, PIPESIZE, is_u32 in *. change (2 ^ 32) with 4294967296 in *. dlia.
Qed.

Lemma pipe_empty p l :
  pipe_rep p l -> (nread p =? nwrite p) = bool_decide (l = []).
Proof.
  intros [_ Hn Hw Hb _ _]. rewrite Hw. unfold u32, PIPESIZE, is_u32 in *.
  destruct l as [|x l]; simpl.
  - rewrite Z.add_0_r, Z.mod_small by done. apply Z.eqb_refl.
  - apply Z.eqb_neq. simpl in Hb. change (2 ^ 32) with 4294967296 in *. dlia.
Qed.

Lemma pipe_slot_inj n j k :
  0 <= j < PIPESIZE -> 0 <= k < PIPESIZE -> (n + j) mod PIPESIZE = (n + k) mod PIPESIZE -> j = k.
Proof. unfold PIPESIZE. intros. dlia. Qed.

Lemma pipe_put p l c :
  pipe_rep p l -> Z.of_nat (length l) < PIPESIZE -> 0 <= c < 256 ->
  exists d, aset (data p) (nwrite p mod PIPESIZE) c = Some d /\
    pipe_rep (p <| data := d |> <| nwrite := u32 (nwrite p + 1) |>) (l ++ [c]).
Proof.
  intros [Hd Hn Hw Hb Hx Hr] Hl Hc.
  assert (Hslot : nwrite p mod PIPESIZE = (nread p + Z.of_nat (length l)) mod PIPESIZE)
    by (rewrite Hw; apply u32_mod_pipe).
  rewrite Hslot. set (r := (nread p + Z.of_nat (length l)) mod PIPESIZE).
  assert (0 <= r < PIPESIZE) by (unfold r, PIPESIZE; dlia).
  rewrite aset_in by (rewrite Hd; unfold PIPESIZE in *; lia). eexists. split; [done|]. split; simpl.
  - by rewrite length_insert.
  - done.
  - rewrite Hw, u32_add_l, length_app. simpl. f_equal. lia.
  - rewrite length_app. simpl. lia.
  - intros k x [Hk|[Hk1 Hk2]]%lookup_app_Some.
    + pose proof (lookup_lt_Some _ _ _ Hk) as Hlt.
      rewrite list_lookup_insert_ne; [by apply Hx|]. intros Heq.
      apply Z2Nat.inj in Heq; [|lia|unfold PIPESIZE; dlia].
      unfold r in Heq. apply pipe_slot_inj in Heq; unfold PIPESIZE in *; lia.
    + apply list_lookup_singleton_Some in Hk2 as [Hk2 <-].
      replace k with (length l) by lia. fold r.
      apply list_lookup_insert_eq. rewrite Hd. unfold PIPESIZE in *. lia.
  - apply Forall_app. split; [done|by constructor].
Qed.

Lemma pipe_get p x l :
  pipe_rep p (x :: l) ->
  aget (data p) (nread p mod PIPESIZE) = Some x /\
  pipe_rep (p <| nread := u32 (nread p + 1) |>) l.
Proof.
  intros [Hd Hn Hw Hb Hx Hr]. simpl in Hb. split.
  - unfold aget. rewrite <- (Hx O x eq_refl), Z.add_0_r.
    destruct (Z.leb_spec 0 (nread p mod PIPESIZE)) as [|H]; [done|]. unfold PIPESIZE in H. dlia.
  - split; simpl; try done.
    + apply u32_range.
    + rewrite Hw, u32_add_l. simpl. f_equal. lia.
    + lia.
    + intros k y Hk. rewrite <- (Hx (S k) y Hk). do 2 f_equal.
      rewrite <- Zplus_mod_idemp_l, u32_mod_pipe, Zplus_mod_idemp_l. f_equal. lia.
    + by apply Forall_cons in Hr as [_ Hr].
Qed.

(** *** Writing and reading under concurrency *)

Section transfer.
Variables (kend pg : Z) (swtch : K pst unit) (i : nat).

Definition asleep_at (c : Z) (p : proc) (s : pst) : pst := s <| pk := at_sleep c i p (pk s) |>.
Definition awake_at (p : proc) (s : pst) : pst :=
  s <| pk ::= fun t => t <| procs ::= fun ps => <[i := p <| chan := 0 |>]> ps |> |>.

(** The calling process: running and not killed. *)
Definition active (s : pst) : Prop := exists p, running i p (pk s) /\ killed p = 0.

(** The bytes that readers have received so far, a function of their memory. *)
Variable received : mem -> list Z.

Definition nobody_waits (c : Z) (s : pst) : Prop :=
  Forall (fun q => ~ asleep_on c q) (procs (pk s)).

(** What readers do for a writer that sleeps on a full pipe, once none of them
    sleeps on the pipe itself: they take some bytes from its front into their
    own memory, leave the read end open and the writer's buffer alone, and let
    the writer go on. *)
Definition readers_drain (addr n : Z) : Prop := forall s p l,
  procs (pk s) !! i = Some p -> asleep_on (nwrite_chan pg) p ->
  nobody_waits (nread_chan pg) s -> pipe_rep (pp s) l ->
  readopen (pp s) <> 0 -> Z.of_nat (length l) = PIPESIZE ->
  exists s2 l1 l2, swtch [Lptable] s = Ok tt [Lptable] s2 /\ l = l1 ++ l2 /\ l1 <> [] /\
    received (ub s2) = received (ub s) ++ l1 /\ pipe_rep (pp s2) l2 /\
    readopen (pp s2) <> 0 /\ active s2 /\ same_on addr (addr + n) (ub s) (ub s2).

(** What writers do for a reader that sleeps on an empty pipe: write some
    bytes, or close the write end. *)
Definition writers_feed : Prop := forall s p,
  procs (pk s) !! i = Some p -> asleep_on (nread_chan pg) p -> pipe_rep (pp s) [] ->
  exists s2 l, swtch [Lptable] s = Ok tt [Lptable] s2 /\ pipe_rep (pp s2) l /\
    (l <> [] \/ writeopen (pp s2) = 0) /\ active s2 /\ ub s2 = ub s.

Lemma pipe_sleep_ok c p p2 s s2 :
  running i p (pk s) -> swtch [Lptable] (asleep_at c p s) = Ok tt [Lptable] s2 ->
  procs (pk s2) !! i = Some p2 ->
  sleep_in pk swtch c Lpipe [Lpipe] s = Ok tt [Lpipe] (awake_at p2 s2).
Proof.
  intros Hr Hs Hp. unfold sleep_in.
  erewrite bind_Ok by (unfold zoom; by rewrite (sleep_pre_ok c Lpipe i p) by done).
  erewrite bind_Ok by exact Hs. unfold zoom. by rewrite (sleep_post_ok Lpipe i p2) by done.
Qed.

Lemma awake_active p s : running i p (pk s) -> killed p = 0 -> active (awake_at p s).
Proof.
  intros [Hc Hp Hs Hb] Hk. exists (p <| chan := 0 |>). split; [|done]. split; cbn; try done.
  apply list_lookup_insert_eq. by eapply lookup_lt_Some.
Qed.

Lemma mykilled_ok L s : active s -> mykilled L s = Ok 0 L s.
Proof.
  intros (p & [Hc Hp _ _] & Hk). unfold mykilled, zoom. destruct s. cbn in *.
  erewrite bind_Ok by by apply myproc_ok. erewrite bind_Ok by by apply get_proc_ok.
  by rewrite Hk.
Qed.

Lemma wake_one_awake c t p : ~ asleep_on c (wake_one c t p).
Proof.
  destruct (decide (asleep_on c p)); [|by rewrite wake_one_other].
  rewrite wake_one_asleep by done. by intros [? _].
Qed.

Lemma wakeup_pk c s :
  active s -> exists s', zoom pk (wakeup c) [Lpipe] s = Ok tt [Lpipe] s' /\ active s' /\
    pp s' = pp s /\ ub s' = ub s /\ nobody_waits c s'.
Proof.
  intros (p & Hr & Hk). unfold zoom. pose proof (wakeup_ok c [Lpipe] (pk s)) as Hw.
  destruct (wakeup_running c [Lpipe] (pk s) i p) as (k & Hk' & Hr' & _); [set_solver|done|].
  rewrite Hk' in Hw. injection Hw as ->; [|set_solver]. rewrite Hk'.
  eexists. split; [reflexivity|]. split; [by exists p|]. split_and!; [done|done|].
  unfold nobody_waits. cbn. apply Forall_map, Forall_true. intros. apply wake_one_awake.
Qed.

Lemma nobody_waits_asleep c p s :
  nobody_waits (nread_chan pg) s -> c <> nread_chan pg ->
  nobody_waits (nread_chan pg) (asleep_at c p s).
Proof.
  intros H Hc. unfold nobody_waits. cbn. apply Forall_insert; [done|]. intros [_ E]. by cbn in E.
Qed.

(** The writer gets room: at once, or after a sleep on the full pipe during
    which readers received a prefix. *)
Lemma wait_room_ok f addr n l s :
  readers_drain addr n -> active s -> pipe_rep (pp s) l -> readopen (pp s) <> 0 ->
  exists s' l1 l2, wait_room pg swtch (S (S f)) [Lpipe] s = Ok true [Lpipe] s' /\
    l = l1 ++ l2 /\ Z.of_nat (length l2) < PIPESIZE /\ pipe_rep (pp s') l2 /\
    readopen (pp s') <> 0 /\ active s' /\ received (ub s') = received (ub s) ++ l1 /\
    same_on addr (addr + n) (ub s) (ub s') /\
    (Z.of_nat (length l) < PIPESIZE -> ub s' = ub s).
Proof.
  intros Hdr Ha Hl Ho. cbn [wait_room]. kstep. rewrite (pipe_full _ _ Hl).
  destruct (Z.eqb_spec (Z.of_nat (length l)) PIPESIZE) as [E|E].
  2: { exists s, [], l. pose proof (pr_bound _ _ Hl). rewrite app_nil_r. split_and!; try done. lia. }
  rewrite (proj2 (Z.eqb_neq _ _) Ho). erewrite bind_Ok by by apply mykilled_ok. simpl.
  destruct (wakeup_pk (nread_chan pg) s Ha) as (s1 & H1 & (p & Hr1 & Hk1) & Hpp & Hub & Hnw).
  erewrite bind_Ok by exact H1. pose proof (rn_proc _ _ _ Hr1) as Hp1.
  destruct (Hdr (asleep_at (nwrite_chan pg) p s1) (gone_to_sleep (nwrite_chan pg) (ticks (pk s1)) p) l)
    as (s2 & l1 & l2 & H2 & -> & Hne & Hrc & Hl2 & Ho2 & (p2 & Hr2 & Hk2) & Hub2).
  { cbn. apply list_lookup_insert_eq. by eapply lookup_lt_Some. }
  { done. }
  { apply nobody_waits_asleep; [done|]. unfold nread_chan, nwrite_chan. lia. }
  { cbn. by rewrite Hpp. } { cbn. by rewrite Hpp. } { done. }
  erewrite bind_Ok by (eapply pipe_sleep_ok; [exact Hr1|exact H2|apply (rn_proc _ _ _ Hr2)]).
  assert (Hlen : Z.of_nat (length l2) < PIPESIZE).
  { rewrite length_app in E. destruct l1; [done|]. simpl in E. lia. }
  kstep. change (pp (awake_at p2 s2)) with (pp s2). rewrite (pipe_full _ _ Hl2).
  destruct (Z.eqb_spec (Z.of_nat (length l2)) PIPESIZE); [lia|].
  cbn in Hrc, Hub2. rewrite Hub in Hrc, Hub2.
  exists (awake_at p2 s2), l1, l2. split_and!; try done; [by apply awake_active|lia].
Qed.

Lemma put_byte_ok c l s L :
  pipe_rep (pp s) l -> Z.of_nat (length l) < PIPESIZE -> 0 <= c < 256 ->
  exists p', put_byte c L s = Ok tt L (s <| pp := p' |>) /\ pipe_rep p' (l ++ [c]) /\
    readopen p' = readopen (pp s).
Proof.
  intros Hl Hb Hc. destruct (pipe_put _ _ c Hl Hb Hc) as (d & Hd & Hr).
  eexists. unfold put_byte. kstep. rewrite Hd. kstep. split; [done|]. split; [exact Hr|done].
Qed.

Lemma write_loop_ok f addr k n r l s :
  readers_drain addr n -> 0 <= k -> k + Z.of_nat r <= n ->
  active s -> pipe_rep (pp s) l -> readopen (pp s) <> 0 ->
  exists s' l', write_loop pg swtch (S (S f)) addr k n r [Lpipe] s = Ok n [] s' /\
    received (ub s) ++ l ++ bytes_at (ub s) (addr + k) r = received (ub s') ++ l' /\
    pipe_rep (pp s') l' /\ same_on addr (addr + n) (ub s) (ub s') /\
    nobody_waits (nread_chan pg) s' /\
    (Z.of_nat (length l + r) <= PIPESIZE -> ub s' = ub s).
Proof.
  intros Hdr. revert k l s. induction r as [|r IH]; intros k l s Hk Hr Ha Hl Ho; cbn [write_loop].
  - destruct (wakeup_pk (nread_chan pg) s Ha) as (s1 & H1 & Ha1 & Hpp & Hub & Hnw).
    erewrite bind_Ok by exact H1. kstep. exists s1, l. simpl. rewrite app_nil_r, Hub.
    split_and!; try done. by rewrite Hpp.
  - destruct (wait_room_ok f addr n l s Hdr Ha Hl Ho)
      as (s1 & l1 & l2 & H1 & -> & Hb & Hl2 & Ho1 & Ha1 & Hrc & Hub & Hsm).
    erewrite bind_Ok by exact H1. cbv iota. kstep.
    destruct (put_byte_ok (load8 (ub s1) (addr + k)) l2 s1 [Lpipe] Hl2 Hb
      (load8_range _ _)) as (p' & H2 & Hp' & Ho2).
    erewrite bind_Ok by exact H2.
    destruct (IH (k + 1) (l2 ++ [load8 (ub s1) (addr + k)]) (s1 <| pp := p' |>))
      as (s' & l' & H3 & Heq & Hl' & Hub' & Hnw & Hsm');
      [lia|lia|done|done|cbn; by rewrite Ho2|].
    exists s', l'. cbn in Heq, Hub', Hsm'. split; [done|]. split; [|split; [done|]].
    + rewrite <- Heq, Hrc, Z.add_assoc. rewrite <- (bytes_at_same (ub s) (ub s1) (addr + k) (S r)).
      * simpl. by rewrite <- !app_assoc.
      * intros a Hin. apply Hub. lia.
    + rewrite !length_app in *. simpl in *. split_and!; [|done|].
      * intros a Hin. by rewrite Hub', Hub.
      * intros Hfit. rewrite Hsm' by lia. apply Hsm. lia.
Qed.


(** With the read end closed, [pipewrite] to a full pipe returns -1 and
    changes nothing. *)
Theorem pipewrite_closed f addr n l s (Hl : pipe_rep (pp s) l) (Ho : readopen (pp s) = 0)
    (Hfull : Z.of_nat (length l) = PIPESIZE) (Hn : 0 < n) :
  pipewrite pg swtch (S f) addr n [] s = Ok (-1) [] s.
Proof.
  unfold pipewrite. kstep. destruct (Z.to_nat n) as [|r] eqn:E; [lia|]. cbn [write_loop wait_room].
  rewrite bind_assoc. kstep. rewrite (pipe_full _ _ Hl), Hfull, Ho. simpl.
  rewrite bind_assoc. kstep. simpl. rewrite bind_assoc. kstep. by kstep.
Qed.

(** The copy loop takes bytes from the front of the pipe. *)
Lemma read_loop_ok addr k r l s L :
  pipe_rep (pp s) l ->
  exists s', read_loop addr k r L s = Ok (k + Z.of_nat (Nat.min r (length l))) L s' /\
    pipe_rep (pp s') (drop r l) /\ bytes_at (ub s') (addr + k) (Nat.min r (length l)) = take r l /\
    pk s' = pk s /\ writeopen (pp s') = writeopen (pp s) /\
    same_outside (addr + k) (addr + k + Z.of_nat r) (ub s) (ub s').
Proof.
  revert k l s. induction r as [|r IH]; intros k l s Hl; cbn [read_loop].
  { exists s. simpl. rewrite Z.add_0_r. split_and!; done. }
  kstep. rewrite (pipe_empty _ _ Hl). destruct l as [|x l]; simpl.
  { exists s. rewrite Z.add_0_r. split_and!; done. }
  destruct (pipe_get _ _ _ Hl) as [Hg Hl']. rewrite Hg. kstep. kstep. kstep.
  destruct (IH (k + 1) l (s <| pp ::= fun p => p <| nread := u32 (nread p + 1) |> |>
    <| ub ::= fun m => store8 m (addr + k) x |>)) as (s' & H1 & H2 & H3 & H4 & H5 & H6);
    [cbn in *; done|].
  exists s'. split_and!; try done.
  - etransitivity; [exact H1|]. f_equal. lia.
  - rewrite <- Z.add_assoc, H3. f_equal. unfold load8. rewrite H6 by lia. cbn.
    rewrite store8_eq. pose proof (pr_range _ _ Hl) as [Hx _]%Forall_cons.
    unfold u8 at 1. rewrite u8_small by done. by apply u8_small.
  - intros a Hout. rewrite H6 by lia. cbn. by apply store8_ne; lia.
Qed.


(** [pipeclose] gives the pipe's page back exactly when the other end is
    already closed; otherwise it only records that this end is. *)
Theorem pipeclose_frees writable fl s (Ha : active s) (Hk : kmem_inv kend (pkmem (pk s)) fl)
    (Hp : page_ok kend pg) (Hn : pg ∉ fl) :
  exists s', pipeclose kend pg writable [] s = Ok tt [] s' /\
    pp s' = (if writable then (pp s) <| writeopen := 0 |> else (pp s) <| readopen := 0 |>) /\
    kmem_inv kend (pkmem (pk s'))
      (if (if writable then readopen (pp s) else writeopen (pp s)) =? 0 then pg :: fl else fl).
Proof.
  destruct Ha as (p & Hr & _). unfold pipeclose. kstep.
  destruct (wakeup_running (if writable then nread_chan pg else nwrite_chan pg) [Lpipe] (pk s) i p)
    as (k & Hw & _ & Hmem); [set_solver|done|]. rewrite <- Hmem in Hk.
  destruct (kfree_spec kend pg fl [] k.(pkmem) Hp Hn Hk) as (km & Hf & Hinv & _); [set_solver|].
  destruct writable; rewrite bind_assoc; kstep;
    erewrite bind_Ok by (unfold zoom; cbn; by rewrite Hw); kstep; cbn;
    rewrite ?andb_true_r; destruct (_ =? 0); try kstep; unfold zoom; cbn;
    rewrite ?Hf, ?release_top by apply not_elem_of_nil; eexists; split; reflexivity || done.
Qed.
End transfer.

(** *** Concrete runs *)

(** A fresh pipe, a pipe about to wrap its counters, and a caller. *)
Definition empty_pipe (n : Z) : pipe := mkPipe (replicate 512 0) n n 1 1.
Definition piped (p : pipe) : pst := mkPst p (machine [runner]) (fun a => a mod 256).

Lemma empty_pipe_rep n : is_u32 n -> pipe_rep (empty_pipe n) [].
Proof.
  intros H. split; [done|done| |done|done|constructor].
  simpl. by rewrite Z.add_0_r, u32_small.
Qed.

Lemma piped_active p : active O (piped p).
Proof. exists runner. split; [apply running_machine|done]. Qed.

(** A reader whose memory counts, at 2^32, the bytes it keeps after that
    address; one that takes a byte; and a writer that closes its end. *)
Definition kept (m : mem) : list Z :=
  map (fun k => m (2 ^ 32 + 1 + Z.of_nat k)) (seq 0 (Z.to_nat (m (2 ^ 32)))).
Definition keep (x : Z) (m : mem) : mem := fun a =>
  if a =? 2 ^ 32 then Z.max 0 (m (2 ^ 32)) + 1
  else if a =? 2 ^ 32 + 1 + Z.max 0 (m (2 ^ 32)) then x else m a.
Definition one_taken : K pst unit := fun L s =>
  Ok tt L (s <| ub ::= keep (default 0 (aget (data (pp s)) (nread (pp s) mod PIPESIZE))) |>
             <| pp ::= fun p => p <| nread := u32 (nread p + 1) |> |> <| pk := machine [runner] |>).
Definition writer_gone : K pst unit := fun L s =>
  Ok tt L (s <| pp ::= fun p => p <| writeopen := 0 |> |> <| pk := machine [runner] |>).

Lemma kept_keep x m : kept (keep x m) = kept m ++ [x].
Proof.
  unfold kept. unfold keep at 2. rewrite Z.eqb_refl.
  rewrite Z2Nat.inj_add, Z2Nat.inj_max, Nat.max_0_l by lia.
  rewrite seq_app, map_app. f_equal.
  - apply map_ext_in. intros k Hk%in_seq. unfold keep.
    rewrite (proj2 (Z.eqb_neq _ (2 ^ 32))) by lia. by rewrite (proj2 (Z.eqb_neq _ _)) by lia.
  - simpl map. unfold keep. rewrite (proj2 (Z.eqb_neq _ (2 ^ 32))) by lia.
    by rewrite (proj2 (Z.eqb_eq _ _)) by lia.
Qed.

Lemma one_taken_drains pg addr n :
  addr + n <= 2 ^ 32 -> readers_drain pg one_taken O kept addr n.
Proof.
  intros Hn s p l Hp Ha Hw Hl Ho Hfull. destruct l as [|x l]; [done|].
  destruct (pipe_get _ _ _ Hl) as [Hg Hl'].
  eexists _, [x], l. split; [reflexivity|]. split_and!; try done.
  - cbn. rewrite Hg. apply kept_keep.
  - exists runner. split; [apply running_machine|done].
  - intros a Hin. cbn. unfold keep. rewrite (proj2 (Z.eqb_neq _ (2 ^ 32))) by lia.
    by rewrite (proj2 (Z.eqb_neq _ _)) by lia.
Qed.

Lemma writer_gone_feeds pg : writers_feed pg writer_gone O.
Proof.
  intros s p Hp Ha Hl. eexists _, []. split; [reflexivity|]. split; [by destruct Hl|].
  split; [by right|]. split; [exists runner; split; [apply running_machine|done]|done].
Qed.

Definition full_pipe (r : Z) : pipe := mkPipe (replicate 512 7) 0 512 r 1.

Lemma full_pipe_rep r : pipe_rep (full_pipe r) (replicate 512 7).
Proof.
  split; [done| | | | |].
  - unfold is_u32. cbn. lia.
  - rewrite length_replicate. reflexivity.
  - rewrite length_replicate. unfold PIPESIZE. lia.
  - intros k x [-> Hk]%lookup_replicate. cbn -[replicate].
    apply lookup_replicate. split; [done|]. unfold PIPESIZE. rewrite Z.mod_small; lia.
  - apply Forall_replicate. lia.
Qed.


Lemma pipewrite_closed_witness :
  pipewrite 0x80100000 one_taken 1 65 3 [] (piped (full_pipe 0)) = Ok (-1) [] (piped (full_pipe 0)).
Proof.
  apply (pipewrite_closed 0x80100000 one_taken 0 65 3 (replicate 512 7));
    [apply full_pipe_rep|done|by rewrite length_replicate|lia].
Defined.


Lemma pipeclose_frees_witness :
  exists s', pipeclose 0x80100000 0x80100000 true []
      (mkPst (mkPipe [] 0 0 0 1) ((machine [runner]) <| pkmem := boot_kmem |>) (fun _ => 0))
    = Ok tt [] s' /\ kmem_inv 0x80100000 (pkmem (pk s')) [0x80100000].
Proof.
  destruct (pipeclose_frees 0x80100000 0x80100000 O true []
    (mkPst (mkPipe [] 0 0 0 1) ((machine [runner]) <| pkmem := boot_kmem |>) (fun _ => 0)))
    as (s' & H1 & _ & H2).
  - exists runner. split; [by split|done].
  - apply boot_kmem_inv.
  - apply page_ok_first.
  - apply not_elem_of_nil.
  - exists s'. split; [exact H1|exact H2].
Defined.

End Pipe.
