(* ===== verification/Bio.v ===== *)
(** The buffer cache (bio.c, buf.h) over the in-memory disk (memide.c).

    A block's contents are a memory of [BSIZE] bytes from offset 0.  The
    doubly linked list of buffers is the list of their indices, most recently
    used first.  [wtrace] is a history variable: the writes the disk has seen,
    which the crash argument of LogCrash.v cuts at any point. *)

From stdpp Require Import base numbers list sets strings.
From Stdlib Require Import ZArith Lia.
From S2P Require Import Prelude Mem CString Mmu Seg Kalloc Param Proc Sleeplock.
Import CString Mmu Seg Kalloc Param Proc Sleeplock.

Module Bio.

Abbreviation block := mem.

Record buf := mkBuf {
  flags : Z; bdev : Z; blockno : Z; bl : sleeplock; refcnt : Z; bdata : block }.
#[export] Instance eta_buf : Eta buf := fun b =>
  mkBuf b.(flags) b.(bdev) b.(blockno) b.(bl) b.(refcnt) b.(bdata).

Definition B_VALID : Z := 0x2.
Definition B_DIRTY : Z := 0x4.

Record bst := mkBst {
  bufs : list buf;
  order : list nat;             (* head.next, ..., head.prev *)
  disk : Z -> block;            (* memdisk *)
  disksize : Z;
  wtrace : list (Z * block);
  bk : pstate }.
#[export] Instance eta_bst : Eta bst := fun s =>
  mkBst s.(bufs) s.(order) s.(disk) s.(disksize) s.(wtrace) s.(bk).

Definition get_buf (i : nat) : K bst buf := bs ← gets bufs; deref "buf" (bs !! i).
Definition upd_buf (i : nat) (f : buf -> buf) : K bst unit :=
  b ← get_buf i; modify (fun s => s <| bufs ::= fun bs => <[i := f b]> bs |>).

(** Runs an operation of Sleeplock.v on the lock of buffer [i]. *)
Definition on_lock {A} (i : nat) (m : K slstate A) : K bst A := fun l s =>
  match bufs s !! i with
  | None => Fault "buf"
  | Some b =>
      let put t := s <| bufs ::= fun bs => <[i := b <| bl := slk t |>]> bs |> <| bk := slp t |> in
      match m l (mkSl (bl b) (bk s)) with
      | Ok a l' t => Ok a l' (put t)
      | Panic e => Panic e
      | Fault e => Fault e
      | Sleep c l' t => Sleep c l' (put t)
      end
  end.

Section bio.
(** Addresses of the buffers' sleep locks. *)
Variable lock_addr : nat -> Z.

(** [acquiresleep] of a lock that is free; of a held one, it sleeps. *)
Definition lock_buf (i : nat) : K bst unit :=
  on_lock i (acquiresleep (lock_addr i) (Z.of_nat i) (fun l s => Sleep (lock_addr i) l s) 1).
Definition unlock_buf (i : nat) : K bst unit :=
  on_lock i (releasesleep (lock_addr i) (Z.of_nat i)).
Definition holds_buf (i : nat) : K bst bool := on_lock i (holdingsleep (Z.of_nat i)).

(** The disk of memide.c. *)
Definition iderw (i : nat) : K bst unit :=
  h ← holds_buf i;
  if negb h then panic "iderw: buf not locked" else
  b ← get_buf i;
  n ← gets disksize;
  if Z.land (flags b) (Z.lor B_VALID B_DIRTY) =? B_VALID then panic "iderw: nothing to do"
  else if negb (bdev b =? 1) then panic "iderw: request not for disk 1"
  else if n <=? blockno b then panic "iderw: block out of range"
  else
    (if nz (Z.land (flags b) B_DIRTY) then
       upd_buf i (fun b => b <| flags ::= fun f => Z.land f (Z.lnot B_DIRTY) |>) ;;
       modify (fun s => s <| disk ::= fun d x => if x =? blockno b then bdata b else d x |>
         <| wtrace ::= fun t => t ++ [(blockno b, bdata b)] |>)
     else
       d ← gets disk; upd_buf i (fun b => b <| bdata := d (blockno b) |>)) ;;
    upd_buf i (fun b => b <| flags ::= fun f => Z.lor f B_VALID |>).

Definition binit : K bst unit :=
  modify (fun s => s <| order := [] |>) ;;
  kiter (fun i =>
    upd_buf i (fun b => b <| bl := mkSleeplock 0 0 |>) ;;
    modify (fun s => s <| order ::= cons i |>)) (seq 0 (Z.to_nat NBUF)).

(** First buffer along a list of indices that satisfies a test. *)
Fixpoint find_buf (t : buf -> bool) (bs : list buf) (o : list nat) : option nat :=
  match o with
  | [] => None
  | i :: r => match bs !! i with
              | Some b => if t b then Some i else find_buf t bs r
              | None => find_buf t bs r
              end
  end.

Definition is_block (d n : Z) (b : buf) : bool := (bdev b =? d) && (blockno b =? n).
Definition is_free (b : buf) : bool := (refcnt b =? 0) && (Z.land (flags b) B_DIRTY =? 0).

Definition bget (d n : Z) : K bst nat :=
  acquire Lbcache ;;
  bs ← gets bufs;
  o ← gets order;
  match find_buf (is_block d n) bs o with
  | Some i =>
      upd_buf i (fun b => b <| refcnt ::= fun r => u32 (r + 1) |>) ;;
      release Lbcache ;; lock_buf i ;; mret i
  | None =>
      match find_buf is_free bs (rev o) with
      | Some i =>
          upd_buf i (fun b => b <| bdev := d |> <| blockno := n |> <| flags := 0 |>
            <| refcnt := 1 |>) ;;
          release Lbcache ;; lock_buf i ;; mret i
      | None => panic "bget: no buffers"
      end
  end.

Definition bread (d n : Z) : K bst nat :=
  i ← bget d n;
  b ← get_buf i;
  (if Z.land (flags b) B_VALID =? 0 then iderw i else mret tt) ;;
  mret i.

Definition bwrite (i : nat) : K bst unit :=
  h ← holds_buf i;
  if negb h then panic "bwrite" else
  upd_buf i (fun b => b <| flags ::= fun f => Z.lor f B_DIRTY |>) ;;
  iderw i.

Definition brelse (i : nat) : K bst unit :=
  h ← holds_buf i;
  if negb h then panic "brelse" else
  unlock_buf i ;;
  acquire Lbcache ;;
  upd_buf i (fun b => b <| refcnt ::= fun r => u32 (r - 1) |>) ;;
  b ← get_buf i;
  (if refcnt b =? 0 then
     modify (fun s => s <| order ::= fun o => i :: filter (fun j => j <> i) o |>)
   else mret tt) ;;
  release Lbcache.

End bio.

End Bio.
