(* ===== verification/BioSpec.v ===== *)
(** What the buffer cache promises to the log and the file system: one
    coherent view of the disk's blocks, whatever is cached.

    The invariant [bio_ok s V H P] says that the cache and the disk in [s]
    together show block contents [V], that the running process holds the
    buffers [H], and that the blocks [P] are dirty, pinned in the cache. *)

From stdpp Require Import base numbers list sets strings.
From Stdlib Require Import ZArith Lia.
From S2P Require Import Prelude Mem CString Mmu Seg Kalloc Param Proc Sleeplock Bio.
Import CString Mmu Seg Kalloc Param Proc Sleeplock Bio.

Module BioSpec.

Definition valid (b : buf) : bool := nz (Z.land (flags b) B_VALID).
Definition dirty (b : buf) : bool := nz (Z.land (flags b) B_DIRTY).

Section spec.
Variables (lock_addr : nat -> Z) (me : nat) (mp : Z).

Record bio_ok (s : bst) (V : Z -> block) (H : list nat) (P : list Z) : Prop := {
  bo_len : length (bufs s) = Z.to_nat NBUF;
  bo_order : order s ≡ₚ seq 0 (Z.to_nat NBUF);
  bo_flags : forall i b, bufs s !! i = Some b ->
    flags b = 0 \/ flags b = 2 \/ (flags b = 6 /\ bdev b = 1);
  bo_uniq : forall i j b c, bufs s !! i = Some b -> bufs s !! j = Some c ->
    bdev b = 1 -> bdev c = 1 -> blockno b = blockno c -> i = j;
  bo_held : forall i, i ∈ H -> exists b, bufs s !! i = Some b /\ bdev b = 1 /\ refcnt b = 1 /\
    bl b = mkSleeplock 1 mp /\ valid b = true /\ 0 <= blockno b < disksize s;
  bo_idle : forall i b, bufs s !! i = Some b -> i ∉ H -> refcnt b = 0 /\ slocked (bl b) = 0;
  bo_view : forall i b, bufs s !! i = Some b -> bdev b = 1 -> valid b = true ->
    bdata b = V (blockno b);
  bo_dirty : forall n, n ∈ P <->
    exists i b, bufs s !! i = Some b /\ bdev b = 1 /\ dirty b = true /\ blockno b = n;
  bo_synced : forall n, n ∉ P ->
    (forall i b, i ∈ H -> bufs s !! i = Some b -> blockno b <> n) -> V n = disk s n;
  bo_nodup : NoDup H;
  bo_run : exists p, running me p (bk s) /\ pid p = mp
}.

(** The buffers of a held index. *)
Definition holds_block (s : bst) (H : list nat) (n : Z) : Prop :=
  exists i b, i ∈ H /\ bufs s !! i = Some b /\ blockno b = n.

Lemma dirty_valid s V H P i b :
  bio_ok s V H P -> bufs s !! i = Some b -> dirty b = true -> valid b = true /\ bdev b = 1.
Proof.
  intros Hok Hb Hd. unfold dirty, valid, nz, B_DIRTY, B_VALID in *.
  destruct (bo_flags _ _ _ _ Hok i b Hb) as [E|[E|[E ?]]]; rewrite E in *; done.
Qed.

(** The invariant depends on the view and the set of pinned blocks only up to
    extensional equality. *)
Lemma bio_ok_ext s V V' H P P' :
  bio_ok s V H P -> (forall n, V n = V' n) -> (forall n, n ∈ P <-> n ∈ P') -> bio_ok s V' H P'.
Proof.
  intros [H1 H2 H3 H4 H5 H6 H7 H8 H9 H10 H11] HV HP. split; try done.
  - intros. rewrite <- HV. eauto.
  - intros n. by rewrite <- HP, H8.
  - intros n Hn Hh. rewrite <- HV. apply H9; [by rewrite HP|done].
Qed.

#[export] Instance bio_ok_proper s :
  Proper (pointwise_relation Z eq ==> eq ==> Permutation ==> iff) (bio_ok s).
Proof.
  intros V V' HV H H' <- P P' HP.
  split; intros Hok; eapply bio_ok_ext; eauto; intros n; by rewrite HP.
Qed.

(** *** Locks of the buffers *)

Lemma lock_buf_ok i b s p :
  bufs s !! i = Some b -> slocked (bl b) = 0 -> running me p (bk s) -> pid p = mp ->
  lock_buf lock_addr i [] s =
    Ok tt [] (s <| bufs ::= fun bs => <[i := b <| bl := mkSleeplock 1 mp |>]> bs |>).
Proof.
  intros Hb Hl [Hc Hp _ _] <-. unfold lock_buf, on_lock. rewrite Hb.
  rewrite (acquiresleep_free _ _ _ me p) by done. by destruct s.
Qed.

Lemma holds_buf_ok i b s p L :
  bufs s !! i = Some b -> bl b = mkSleeplock 1 mp -> running me p (bk s) -> pid p = mp ->
  Lsleep (Z.of_nat i) ∉ L -> holds_buf i L s = Ok true L s.
Proof.
  intros Hb Hl [Hc Hp _ _] <- HL. unfold holds_buf, on_lock. rewrite Hb.
  rewrite (holdingsleep_mine _ me p) by done. cbn. f_equal. destruct s, b. cbn in *.
  by rewrite list_insert_id.
Qed.

Lemma unlock_buf_ok i b s p :
  bufs s !! i = Some b -> running me p (bk s) ->
  exists k, running me p k /\ unlock_buf lock_addr i [] s =
    Ok tt [] (s <| bufs ::= fun bs => <[i := b <| bl := mkSleeplock 0 0 |>]> bs |> <| bk := k |>).
Proof.
  intros Hb Hr. unfold unlock_buf, on_lock. rewrite Hb.
  destruct (releasesleep_ok (lock_addr i) (Z.of_nat i) me p (mkSl (bl b) (bk s)) Hr)
    as (t & -> & Hs & Hr'). exists (slp t). split; [done|]. by rewrite Hs.
Qed.

Lemma get_buf_ok i b s L : bufs s !! i = Some b -> get_buf i L s = Ok b L s.
Proof. intros H. unfold get_buf. kstep. by rewrite H. Qed.

Lemma upd_buf_ok i f b s L :
  bufs s !! i = Some b -> upd_buf i f L s = Ok tt L (s <| bufs ::= fun bs => <[i := f b]> bs |>).
Proof. intros H. unfold upd_buf. by erewrite bind_Ok by by apply get_buf_ok. Qed.

(** *** The disk *)

Lemma iderw_read i b s p :
  bufs s !! i = Some b -> bl b = mkSleeplock 1 mp -> running me p (bk s) -> pid p = mp ->
  flags b = 0 -> bdev b = 1 -> blockno b < disksize s ->
  iderw i [] s = Ok tt [] (s <| bufs ::= fun bs =>
    <[i := b <| bdata := disk s (blockno b) |> <| flags := 2 |>]> bs |>).
Proof.
  intros Hb Hl Hr Hp Hf Hd Hn. pose proof (lookup_lt_Some _ _ _ Hb) as Hlt. unfold iderw.
  erewrite bind_Ok by (apply (holds_buf_ok i b s p); try done; apply not_elem_of_nil). simpl.
  erewrite bind_Ok by by apply get_buf_ok. kstep. rewrite Hf, Hd. simpl.
  destruct (Z.leb_spec (disksize s) (blockno b)); [lia|]. rewrite bind_assoc. kstep.
  erewrite bind_Ok by by apply upd_buf_ok.
  erewrite upd_buf_ok by (cbn; by apply list_lookup_insert_eq).
  cbn. by rewrite list_insert_insert_eq, Hf, ?Hd.
Qed.

Lemma iderw_write i b s p :
  bufs s !! i = Some b -> bl b = mkSleeplock 1 mp -> running me p (bk s) -> pid p = mp ->
  flags b = 6 -> bdev b = 1 -> blockno b < disksize s ->
  iderw i [] s = Ok tt [] (s <| bufs ::= fun bs => <[i := b <| flags := 2 |>]> bs |>
    <| disk ::= fun d x => if x =? blockno b then bdata b else d x |>
    <| wtrace ::= fun t => t ++ [(blockno b, bdata b)] |>).
Proof.
  intros Hb Hl Hr Hp Hf Hd Hn. pose proof (lookup_lt_Some _ _ _ Hb) as Hlt. unfold iderw.
  erewrite bind_Ok by (apply (holds_buf_ok i b s p); try done; apply not_elem_of_nil). simpl.
  erewrite bind_Ok by by apply get_buf_ok. kstep. rewrite Hf, Hd. simpl.
  destruct (Z.leb_spec (disksize s) (blockno b)); [lia|]. rewrite bind_assoc.
  erewrite bind_Ok by by apply upd_buf_ok. kstep.
  erewrite upd_buf_ok by (cbn; by apply list_lookup_insert_eq).
  cbn. by rewrite list_insert_insert_eq, Hf, ?Hd.
Qed.

(** *** Searching the list of buffers *)

Lemma find_buf_Some t bs o i :
  find_buf t bs o = Some i -> i ∈ o /\ exists b, bs !! i = Some b /\ t b = true.
Proof.
  induction o as [|j o IH]; simpl; [done|]. destruct (bs !! j) as [b|] eqn:E.
  - destruct (t b) eqn:Et; [intros [= <-]; split; [set_solver|by exists b]|].
    intros [H1 H2]%IH. split; [set_solver|done].
  - intros [H1 H2]%IH. split; [set_solver|done].
Qed.

Lemma find_buf_None t bs o i b :
  find_buf t bs o = None -> i ∈ o -> bs !! i = Some b -> t b = false.
Proof.
  induction o as [|j o IH]; simpl; [by intros _ ?%elem_of_nil|].
  intros Hf [<-|Hi]%elem_of_cons Hb.
  - rewrite Hb in Hf. by destruct (t b).
  - destruct (bs !! j) as [c|]; [destruct (t c); [done|]|]; eauto.
Qed.

Lemma all_in_order s V H P i b : bio_ok s V H P -> bufs s !! i = Some b -> i ∈ order s.
Proof.
  intros Hok Hb. rewrite (bo_order _ _ _ _ Hok). apply elem_of_seq.
  apply lookup_lt_Some in Hb. rewrite (bo_len _ _ _ _ Hok) in Hb. lia.
Qed.

(** Indices of the dirty buffers, at most one per dirty block. *)
Definition dirty_at (s : bst) (i : nat) : bool :=
  match bufs s !! i with Some b => dirty b | None => false end.
Definition dirty_idx (s : bst) : list nat :=
  filter (fun i => dirty_at s i = true) (seq 0 (Z.to_nat NBUF)).

Lemma dirty_idx_length s V H P : bio_ok s V H P -> (length (dirty_idx s) <= length P)%nat.
Proof.
  intros Hok. set (no i := match bufs s !! i with Some b => blockno b | None => 0 end).
  assert (Hin : forall i, i ∈ dirty_idx s -> exists b, bufs s !! i = Some b /\ dirty b = true).
  { intros i [Hd _]%list_elem_of_filter. unfold dirty_at in Hd.
    destruct (bufs s !! i) as [b|]; [by exists b|done]. }
  rewrite <- (length_fmap no (dirty_idx s)). apply submseteq_length, NoDup_submseteq.
  - apply NoDup_fmap_2_strong; [|apply NoDup_filter, NoDup_seq].
    intros i j (b & Hb & Hbd)%Hin (c & Hc & Hcd)%Hin. unfold no. rewrite Hb, Hc.
    destruct (dirty_valid _ _ _ _ _ _ Hok Hb Hbd) as [_ H1].
    destruct (dirty_valid _ _ _ _ _ _ Hok Hc Hcd) as [_ H2].
    by apply (bo_uniq _ _ _ _ Hok).
  - intros n (i & -> & (b & Hb & Hbd)%Hin)%list_elem_of_fmap. unfold no. rewrite Hb.
    apply (bo_dirty _ _ _ _ Hok). exists i, b.
    destruct (dirty_valid _ _ _ _ _ _ Hok Hb Hbd). done.
Qed.

(** With fewer held and dirty buffers than buffers, one can be recycled. *)
Lemma free_buf_exists s V H P :
  bio_ok s V H P -> Z.of_nat (length H + length P) < NBUF ->
  exists i, find_buf is_free (bufs s) (rev (order s)) = Some i.
Proof.
  intros Hok Hlt. destruct (find_buf is_free (bufs s) (rev (order s))) as [i|] eqn:E; [by exists i|].
  exfalso. pose proof (dirty_idx_length s V H P Hok) as Hd.
  assert (Hsub : seq 0 (Z.to_nat NBUF) ⊆+ H ++ dirty_idx s).
  { apply NoDup_submseteq; [apply NoDup_seq|]. intros i Hi. apply elem_of_app.
    destruct (decide (i ∈ H)) as [|Hn]; [by left|right].
    pose proof Hi as Hi'%elem_of_seq.
    destruct (lookup_lt_is_Some_2 (bufs s) i) as [b Hb]; [rewrite (bo_len _ _ _ _ Hok); lia|].
    apply list_elem_of_filter. split; [|done]. unfold dirty_at. rewrite Hb.
    pose proof (find_buf_None _ _ _ i b E) as Hf.
    destruct (bo_idle _ _ _ _ Hok i b Hb Hn) as [Hr _]. unfold is_free, dirty, nz in *.
    rewrite Hr in Hf. destruct (Z.land (flags b) B_DIRTY =? 0); [|done].
    discriminate Hf; [|done]. rewrite list_elem_of_In, <- in_rev, <- list_elem_of_In.
    by eapply all_in_order. }
  apply submseteq_length in Hsub. rewrite length_seq, length_app in Hsub. unfold NBUF in *. lia.
Qed.

(** *** bread *)

(** A buffer that is not held becomes held, showing block [n]. *)
Lemma bio_ok_take s V H P i b b' n :
  bio_ok s V H P -> bufs s !! i = Some b -> i ∉ H ->
  bdev b' = 1 -> blockno b' = n -> refcnt b' = 1 -> bl b' = mkSleeplock 1 mp ->
  (flags b' = 2 \/ flags b' = 6) -> (flags b' = 6 <-> n ∈ P) ->
  bdata b' = V n -> 0 <= n < disksize s ->
  (dirty b = true -> blockno b = n) ->
  (forall j c, j <> i -> bufs s !! j = Some c -> bdev c = 1 -> blockno c <> n) ->
  bio_ok (s <| bufs ::= fun bs => <[i := b']> bs |>) V (i :: H) P.
Proof.
  intros Hok Hb Hi Hd Hn Hrc Hl Hf Hdp Hdata Hrange Hdirty Hothers.
  pose proof Hok as [H1 H2 H3 H4 H5 H6 H7 H8 H9 H10 H11].
  pose proof (lookup_lt_Some _ _ _ Hb) as Hlt.
  assert (Hv : valid b' = true) by (unfold valid; destruct Hf as [-> | ->]; done).
  split; cbn.
  - by rewrite length_insert.
  - done.
  - intros j c [(<- & <- & _)|[Hne Hc]]%list_lookup_insert_Some; [|eauto]. naive_solver.
  - intros j k c d [(<- & <- & _)|[Hne Hc]]%list_lookup_insert_Some
      [(<- & <- & _)|[Hne' Hc']]%list_lookup_insert_Some Hd1 Hd2 Heq; try done; eauto.
    + exfalso. apply (Hothers k d); congruence.
    + exfalso. apply (Hothers j c); congruence.
  - intros j [-> | Hj]%elem_of_cons.
    + exists b'. split; [by apply list_lookup_insert_eq|]. rewrite Hn. done.
    + destruct (H5 j Hj) as (c & Hc & Hrest). exists c. split; [|done].
      rewrite list_lookup_insert_ne; [done|]. by intros ->.
  - intros j c [(<- & <- & _)|[Hne Hc]]%list_lookup_insert_Some Hj; [set_solver|].
    apply (H6 j c Hc). set_solver.
  - intros j c [(<- & <- & _)|[Hne Hc]]%list_lookup_insert_Some; [by rewrite Hn|eauto].
  - intros m. rewrite H8. split.
    + intros (j & c & Hc & Hdv & Hdc & Hm). destruct (decide (j = i)) as [->|Hne].
      * rewrite Hb in Hc. injection Hc as <-. exists i, b'.
        split; [by apply list_lookup_insert_eq|]. rewrite Hdirty in Hm by done. subst m.
        split; [done|]. split; [|done]. unfold dirty. rewrite (proj2 Hdp); [done|].
        apply H8. exists i, b. by rewrite Hdirty.
      * exists j, c. by rewrite list_lookup_insert_ne.
    + intros (j & c & [(<- & <- & _)|[Hne Hc]]%list_lookup_insert_Some & Hdv & Hdc & Hm).
      * apply H8. rewrite <- Hm, Hn. apply Hdp. destruct Hf as [E|E]; [|done].
        unfold dirty in Hdc. by rewrite E in Hdc.
      * exists j, c. done.
  - intros m Hm Hheld. apply H9; [done|]. intros j c Hj Hc. apply (Hheld j c); [set_solver|].
    rewrite list_lookup_insert_ne; [done|]. by intros ->.
  - by constructor.
  - done.
Qed.

(** The state after an operation on buffer [i] that leaves the disk alone. *)
Record only_buf (i : nat) (s s' : bst) : Prop := {
  ob_others : forall j, j <> i -> bufs s' !! j = bufs s !! j;
  ob_disk : disk s' = disk s;
  ob_size : disksize s' = disksize s;
  ob_trace : wtrace s' = wtrace s
}.

(** Buffer [i] shows block [n] with contents [d]. *)
Definition shows (s : bst) (i : nat) (n : Z) (d : block) : Prop :=
  exists b, bufs s !! i = Some b /\ blockno b = n /\ bdata b = d.

(** Getting a buffer from [bget], locked but perhaps not read yet. *)
Lemma bget_ok s V H P n :
  bio_ok s V H P -> ~ holds_block s H n ->
  (n ∈ P \/ Z.of_nat (length H + length P) < NBUF) ->
  exists i b b', bget lock_addr 1 n [] s = Ok i [] (s <| bufs ::= fun bs => <[i := b']> bs |>) /\
    bufs s !! i = Some b /\ (i ∉ H) /\
    b' = mkBuf (flags b') 1 n (mkSleeplock 1 mp) 1 (bdata b') /\
    ((b' = b <| refcnt := 1 |> <| bl := mkSleeplock 1 mp |> /\ bdev b = 1 /\ blockno b = n) \/
     (flags b' = 0 /\ dirty b = false /\
      forall j c, bufs s !! j = Some c -> bdev c = 1 -> blockno c <> n)).
Proof.
  intros Hok Hnh Hroom. pose proof Hok as [H1 H2 H3 H4 H5 H6 H7 H8 H9 H10 (p & Hrun & Hpid)].
  unfold bget. kstep. kstep. kstep.
  destruct (find_buf (is_block 1 n) (bufs s) (order s)) as [i|] eqn:E.
  - apply find_buf_Some in E as (_ & b & Hb & Ht). unfold is_block in Ht.
    apply andb_true_iff in Ht as [Hd%Z.eqb_eq Hn%Z.eqb_eq].
    assert (Hi : i ∉ H) by (intros Hi; apply Hnh; exists i, b; done).
    destruct (H6 i b Hb Hi) as [Hr Hl]. pose proof (lookup_lt_Some _ _ _ Hb) as Hlt.
    erewrite bind_Ok by by apply upd_buf_ok. kstep.
    erewrite bind_Ok.
    2: { eapply lock_buf_ok; [cbn; by apply list_lookup_insert_eq|done|done|done]. }
    exists i, b, (b <| refcnt := 1 |> <| bl := mkSleeplock 1 mp |>). split_and!; try done.
    + unfold mret, K_ret. cbn. by rewrite list_insert_insert_eq, Hr.
    + cbn. by rewrite Hd, Hn.
    + by left.
  - destruct Hroom as [HnP|Hroom].
    { apply H8 in HnP as (j & c & Hc & Hd & _ & Hn).
      pose proof (find_buf_None _ _ _ j c E (all_in_order _ _ _ _ _ _ Hok Hc) Hc) as Hx.
      unfold is_block in Hx. by rewrite Hd, Hn, !Z.eqb_refl in Hx. }
    destruct (free_buf_exists s V H P Hok Hroom) as [i Hi0]. rewrite Hi0.
    apply find_buf_Some in Hi0 as (_ & b & Hb & Ht). unfold is_free in Ht.
    apply andb_true_iff in Ht as [Hr%Z.eqb_eq Hdt].
    assert (Hi : i ∉ H).
    { intros Hi. destruct (H5 i Hi) as (c & Hc & _ & Hrc & _). rewrite Hb in Hc. injection Hc as <-. lia. }
    destruct (H6 i b Hb Hi) as [_ Hl]. pose proof (lookup_lt_Some _ _ _ Hb) as Hlt.
    erewrite bind_Ok by by apply upd_buf_ok. kstep.
    erewrite bind_Ok.
    2: { eapply lock_buf_ok; [cbn; by apply list_lookup_insert_eq|done|done|done]. }
    eexists i, b, _. split_and!.
    + unfold mret, K_ret. cbn. rewrite list_insert_insert_eq. reflexivity.
    + done.
    + done.
    + done.
    + right. split_and!; [done|unfold dirty, nz; by rewrite Hdt|]. intros j c Hc Hd Hn.
      pose proof (find_buf_None _ _ _ j c E (all_in_order _ _ _ _ _ _ Hok Hc) Hc) as Hx.
      unfold is_block in Hx. rewrite Hd, Hn, !Z.eqb_refl in Hx. done.
Qed.

(** [bread] of a block in range that the process does not hold, when it is
    pinned in the cache or a buffer can be recycled, returns a locked buffer
    with the block's contents in the view, which does not change; disk and
    other buffers are untouched. *)
Lemma bread_spec s V H P n :
  bio_ok s V H P -> 0 <= n < disksize s -> ~ holds_block s H n ->
  (n ∈ P \/ Z.of_nat (length H + length P) < NBUF) ->
  exists i s', bread lock_addr 1 n [] s = Ok i [] s' /\ (i ∉ H) /\
    bio_ok s' V (i :: H) P /\ shows s' i n (V n) /\ only_buf i s s'.
Proof.
  intros Hok Hn Hnh Hroom.
  destruct (bget_ok s V H P n Hok Hnh Hroom) as (i & b & b' & Hget & Hb & Hi & Hb' & Hcase).
  pose proof Hok as [H1 H2 H3 H4 H5 H6 H7 H8 H9 H10 (p & Hrun & Hpid)].
  pose proof (lookup_lt_Some _ _ _ Hb) as Hlt.
  unfold bread. erewrite bind_Ok by exact Hget.
  erewrite bind_Ok by (apply get_buf_ok; cbn; by apply list_lookup_insert_eq).
  assert (HVdisk : flags b' = 0 -> V n = disk s n).
  { intros Hz. apply H9.
    - rewrite H8. intros (j & c & Hc & Hd & Hdc & Hcn).
      destruct Hcase as [(Hbb & Hbd & Hbn)|(_ & _ & Hno)]; [|by apply (Hno j c)].
      assert (j = i) as -> by (apply (H4 j i c b); congruence).
      rewrite Hb in Hc. injection Hc as <-. rewrite Hbb in Hz. cbn in Hz.
      unfold dirty in Hdc. by rewrite Hz in Hdc.
    - intros j c Hj Hc Hcn. apply Hnh. by exists j, c. }
  assert (Hothers : forall j c, j <> i -> bufs s !! j = Some c -> bdev c = 1 -> blockno c <> n).
  { intros j c Hne Hc Hd Hcn. destruct Hcase as [(_ & Hbd & Hbn)|(_ & _ & Hno)]; [|by apply (Hno j c)].
    apply Hne. apply (H4 j i c b); congruence. }
  assert (HnP : flags b' = 0 -> n ∉ P).
  { intros Hz. rewrite H8. intros (j & c & Hc & Hd & Hdc & Hcn).
    destruct (decide (j = i)) as [->|Hne]; [|by apply (Hothers j c)].
    rewrite Hb in Hc. injection Hc as <-. destruct Hcase as [(Hbb & _)|(_ & Hdb & _)]; [|congruence].
    rewrite Hbb in Hz. cbn in Hz. unfold dirty in Hdc. by rewrite Hz in Hdc. }
  destruct (Z.eqb_spec (Z.land (flags b') B_VALID) 0) as [Hinv|Hval].
  - assert (Hz : flags b' = 0).
    { destruct Hcase as [(Hbb & _)|[Hz _]]; [|done]. rewrite Hbb in *. cbn in *.
      destruct (H3 i b Hb) as [E|[E|[E _]]]; rewrite E in *; done. }
    erewrite bind_Ok.
    2: { eapply iderw_read; [cbn; by apply list_lookup_insert_eq|by rewrite Hb'|done|done|done
           |by rewrite Hb'|rewrite Hb'; cbn; lia]. }
    exists i. eexists. split; [reflexivity|]. split; [done|]. cbn. rewrite list_insert_insert_eq.
    rewrite Hb'. cbn. split; [|split].
    + eapply (bio_ok_take s V H P i b _ n Hok Hb Hi); cbn; try done; [by left| | |].
      * split; [done|]. intros Hp. by destruct (HnP Hz).
      * by rewrite HVdisk.
      * intros Hd. destruct Hcase as [(_ & _ & ?)|(_ & Hdb & _)]; [done|congruence].
    + eexists. split; [by apply list_lookup_insert_eq|]. cbn. by rewrite HVdisk.
    + split; cbn; try done. intros j Hne. by rewrite list_lookup_insert_ne.
  - kstep. exists i. eexists. split; [reflexivity|]. split; [done|].
    destruct Hcase as [(Hbb & Hbd & Hbn)|(Hz & _)]; [|by rewrite Hz in Hval].
    rewrite Hbb in Hval. cbn in Hval.
    assert (Hv : valid b = true) by (unfold valid, nz; by rewrite (proj2 (Z.eqb_neq _ _) Hval)).
    pose proof (H7 i b Hb Hbd Hv) as Hdata. rewrite Hbn in Hdata.
    split; [|split].
    + eapply (bio_ok_take s V H P i b b' n Hok Hb Hi); rewrite ?Hbb; cbn; try done.
      * destruct (H3 i b Hb) as [E|[E|[E _]]]; rewrite E in *; [done|auto..].
      * rewrite H8. split.
        -- intros E. exists i, b. unfold dirty. by rewrite E.
        -- intros (j & c & Hc & Hd & Hdc & Hcn).
           assert (j = i) as -> by (apply (H4 j i c b); congruence).
           rewrite Hb in Hc. injection Hc as <-.
           destruct (H3 i b Hb) as [E|[E|[E _]]]; unfold dirty in Hdc; rewrite E in *; done.
    + exists b'. split; [by apply list_lookup_insert_eq|]. by rewrite Hbb.
    + split; cbn; try done. intros j Hne. by rewrite list_lookup_insert_ne.
Qed.

(** *** Operations on a held buffer *)

(** A held buffer changes contents, dirtiness, or its block on disk. *)
Lemma bio_ok_update s s' V V' H P P' i b b' :
  bio_ok s V H P -> i ∈ H -> bufs s !! i = Some b ->
  bufs s' = <[i := b']> (bufs s) -> order s' = order s -> disksize s' = disksize s -> bk s' = bk s ->
  bdev b' = bdev b -> blockno b' = blockno b -> refcnt b' = refcnt b -> bl b' = bl b ->
  (flags b' = 2 \/ flags b' = 6) -> (blockno b ∈ P' <-> flags b' = 6) ->
  (forall m, m <> blockno b -> (m ∈ P' <-> m ∈ P) /\ V' m = V m /\ disk s' m = disk s m) ->
  V' (blockno b) = bdata b' ->
  bio_ok s' V' H P'.
Proof.
  intros Hok Hi Hb Hbufs Ho Hsz Hbk Hd Hn Hrc Hl Hf HP Hm HV.
  pose proof Hok as [H1 H2 H3 H4 H5 H6 H7 H8 H9 H10 H11].
  pose proof (lookup_lt_Some _ _ _ Hb) as Hlt.
  destruct (H5 i Hi) as (b0 & Hb0 & Hbd & _). rewrite Hb in Hb0. injection Hb0 as <-.
  assert (Huniq : forall j c, j <> i -> bufs s !! j = Some c -> bdev c = 1 -> blockno c <> blockno b).
  { intros j c Hne Hc Hdc Heq. apply Hne. apply (H4 j i c b); congruence. }
  split; rewrite ?Hbufs, ?Ho, ?Hsz, ?Hbk; try done.
  - by rewrite length_insert.
  - intros j c [(<- & <- & _)|[Hne Hc]]%list_lookup_insert_Some; [|eauto].
    destruct Hf as [E|E]; rewrite E, ?Hd; auto.
  - intros j k c d [(<- & <- & _)|[Hne Hc]]%list_lookup_insert_Some
      [(<- & <- & _)|[Hne' Hc']]%list_lookup_insert_Some Hd1 Hd2 Heq; try done; eauto.
    + exfalso. apply (Huniq k d); congruence.
    + exfalso. apply (Huniq j c); congruence.
  - intros j Hj. destruct (H5 j Hj) as (c & Hc & Hrest). destruct (decide (j = i)) as [->|Hne].
    + exists b'. rewrite list_lookup_insert_eq by done. rewrite Hb in Hc. injection Hc as <-.
      rewrite Hd, Hn, Hrc, Hl. destruct Hrest as (? & ? & ? & ? & ?). split_and!; try done; try lia.
      unfold valid. by destruct Hf as [-> | ->].
    + exists c. by rewrite list_lookup_insert_ne.
  - intros j c [(<- & <- & _)|[Hne Hc]]%list_lookup_insert_Some Hj; [done|eauto].
  - intros j c [(<- & <- & _)|[Hne Hc]]%list_lookup_insert_Some Hdc Hv; [by rewrite Hn|].
    destruct (Hm (blockno c)) as (_ & -> & _); eauto.
  - intros m. destruct (decide (m = blockno b)) as [->|Hmb].
    + rewrite HP. split.
      * intros E. exists i, b'. rewrite list_lookup_insert_eq by done. unfold dirty. rewrite E, Hd, Hn. done.
      * intros (j & c & [(<- & <- & _)|[Hne Hc]]%list_lookup_insert_Some & Hdc & Hdt & Hcn).
        -- destruct Hf as [E|E]; [|done]. unfold dirty in Hdt. by rewrite E in Hdt.
        -- by destruct (Huniq j c).
    + destruct (Hm m Hmb) as (-> & _ & _). rewrite H8. split.
      * intros (j & c & Hc & Hrest). exists j, c. rewrite list_lookup_insert_ne; [done|].
        intros ->. rewrite Hb in Hc. injection Hc as <-. naive_solver.
      * intros (j & c & [(<- & <- & _)|[Hne Hc]]%list_lookup_insert_Some & Hdc & Hdt & Hcn).
        -- congruence.
        -- exists j, c. done.
  - intros m HmP Hheld. assert (Hmb : m <> blockno b).
    { intros ->. apply (Hheld i b' Hi); [by apply list_lookup_insert_eq|done]. }
    destruct (Hm m Hmb) as (HPP & -> & ->). apply H9; [by rewrite <- HPP|].
    intros j c Hj Hc. destruct (decide (j = i)) as [->|Hne]; [congruence|].
    apply (Hheld j c Hj). by rewrite list_lookup_insert_ne.
Qed.

(** The view with block [n] changed. *)
Definition vset (V : Z -> block) (n : Z) (d : block) : Z -> block :=
  fun m => if m =? n then d else V m.

Lemma held_flags s V H P i b :
  bio_ok s V H P -> i ∈ H -> bufs s !! i = Some b -> flags b = 2 \/ flags b = 6.
Proof.
  intros Hok Hi Hb. destruct (bo_held _ _ _ _ Hok i Hi) as (c & Hc & _ & _ & _ & Hv & _).
  rewrite Hb in Hc. injection Hc as <-. unfold valid in Hv.
  destruct (bo_flags _ _ _ _ Hok i b Hb) as [E|[E|[E _]]]; auto. by rewrite E in Hv.
Qed.

Lemma held_dirty s V H P i b :
  bio_ok s V H P -> i ∈ H -> bufs s !! i = Some b -> (blockno b ∈ P <-> flags b = 6).
Proof.
  intros Hok Hi Hb. destruct (bo_held _ _ _ _ Hok i Hi) as (c & Hc & Hd & _).
  rewrite Hb in Hc. injection Hc as <-. rewrite (bo_dirty _ _ _ _ Hok). split.
  - intros (j & c & Hc & Hdc & Hdt & Hn).
    assert (j = i) as -> by (apply (bo_uniq _ _ _ _ Hok j i c b); congruence).
    rewrite Hb in Hc. injection Hc as <-. unfold dirty in Hdt.
    destruct (held_flags _ _ _ _ _ _ Hok Hi Hb) as [E|E]; [|done]. by rewrite E in Hdt.
  - intros E. exists i, b. unfold dirty. by rewrite E.
Qed.

(** Storing new contents in a held buffer. *)
Lemma set_data_spec s V H P i n d f :
  bio_ok s V H P -> i ∈ H -> shows s i n d ->
  exists s', upd_buf i (fun b => b <| bdata ::= f |>) [] s = Ok tt [] s' /\
    bio_ok s' (vset V n (f d)) H P /\ shows s' i n (f d) /\ only_buf i s s'.
Proof.
  intros Hok Hi (b & Hb & Hn & Hdata). pose proof (lookup_lt_Some _ _ _ Hb) as Hlt.
  rewrite (upd_buf_ok i _ b) by done. eexists. split; [reflexivity|]. split; [|split].
  - eapply (bio_ok_update s _ V _ H P P i b); try done.
    + exact (held_flags _ _ _ _ _ _ Hok Hi Hb).
    + exact (held_dirty _ _ _ _ _ _ Hok Hi Hb).
    + intros m Hm. split_and!; try done. unfold vset. rewrite <- Hn.
      by rewrite (proj2 (Z.eqb_neq _ _) Hm).
    + unfold vset. rewrite Hn, Z.eqb_refl. cbn. by rewrite Hdata.
  - eexists. split; [by apply list_lookup_insert_eq|]. cbn. by rewrite Hdata.
  - split; cbn; try done. intros j Hne. by rewrite list_lookup_insert_ne.
Qed.

(** Marking a held buffer dirty pins its block. *)
Lemma set_dirty_spec s V H P P' i n d :
  bio_ok s V H P -> i ∈ H -> shows s i n d -> (forall m, m ∈ P' <-> m = n \/ m ∈ P) ->
  exists s', (forall L, upd_buf i (fun b => b <| flags ::= fun f => Z.lor f B_DIRTY |>) L s = Ok tt L s') /\
    bio_ok s' V H P' /\ shows s' i n d /\ only_buf i s s'.
Proof.
  intros Hok Hi (b & Hb & Hn & Hdata) HP'. pose proof (lookup_lt_Some _ _ _ Hb) as Hlt.
  eexists. split; [intros L; by rewrite (upd_buf_ok i _ b)|].
  destruct (bo_held _ _ _ _ Hok i Hi) as (c & Hc & Hd & _ & _ & Hv & _).
  rewrite Hb in Hc. injection Hc as <-.
  assert (Hf : Z.lor (flags b) B_DIRTY = 6).
  { destruct (held_flags _ _ _ _ _ _ Hok Hi Hb) as [E|E]; by rewrite E. }
  split; [|split].
  - eapply (bio_ok_update s _ V V H P P' i b); cbn; try done.
    + by right.
    + rewrite HP'. naive_solver.
    + intros m Hm. split_and!; try done. rewrite HP'. naive_solver.
    + symmetry. by apply (bo_view _ _ _ _ Hok i b).
  - eexists. split; [by apply list_lookup_insert_eq|]. done.
  - split; cbn; try done. intros j Hne. by rewrite list_lookup_insert_ne.
Qed.

(** [bwrite] of a held buffer puts its contents on the disk, as one write. *)
Lemma bwrite_spec s V H P i n d :
  bio_ok s V H P -> i ∈ H -> shows s i n d ->
  exists s', bwrite i [] s = Ok tt [] s' /\
    bio_ok s' V H (filter (fun m => m <> n) P) /\ shows s' i n d /\
    (forall j, j <> i -> bufs s' !! j = bufs s !! j) /\ disksize s' = disksize s /\
    disk s' = vset (disk s) n d /\ wtrace s' = wtrace s ++ [(n, d)].
Proof.
  intros Hok Hi (b & Hb & Hn & Hdata). pose proof (lookup_lt_Some _ _ _ Hb) as Hlt.
  destruct (bo_held _ _ _ _ Hok i Hi) as (c & Hc & Hd & Hrc & Hl & Hv & Hr1 & Hr2).
  rewrite Hb in Hc. injection Hc as <-.
  destruct (bo_run _ _ _ _ Hok) as (p & Hrun & Hpid).
  assert (Hf : Z.lor (flags b) B_DIRTY = 6).
  { destruct (held_flags _ _ _ _ _ _ Hok Hi Hb) as [E|E]; by rewrite E. }
  unfold bwrite. erewrite bind_Ok by (apply (holds_buf_ok i b s p); try done; apply not_elem_of_nil).
  simpl. erewrite bind_Ok by by apply upd_buf_ok.
  erewrite (iderw_write i (b <| flags := 6 |>)); cbn; [| |done|done|done|done|done|done].
  2: { rewrite Hf. by apply list_lookup_insert_eq. }
  eexists. split; [reflexivity|]. cbn. rewrite list_insert_insert_eq. split; [|split_and!].
  - eapply (bio_ok_update s _ V V H P _ i b _ Hok Hi Hb); cbn; try done.
    + by left.
    + rewrite list_elem_of_filter. naive_solver.
    + intros m Hm. rewrite list_elem_of_filter. rewrite (proj2 (Z.eqb_neq _ _) Hm). naive_solver.
    + symmetry. by apply (bo_view _ _ _ _ Hok i b).
  - eexists. split; [by apply list_lookup_insert_eq|]. done.
  - intros j Hne. by rewrite list_lookup_insert_ne.
  - done.
  - by rewrite Hn, Hdata.
  - by rewrite Hn, Hdata.
Qed.

Lemma move_front i (o : list nat) n :
  o ≡ₚ seq 0 n -> (i < n)%nat -> i :: filter (fun j => j <> i) o ≡ₚ seq 0 n.
Proof.
  intros Ho Hi. rewrite <- Ho. assert (Hin : i ∈ o) by (rewrite Ho; apply elem_of_seq; lia).
  assert (Hnd : NoDup o) by (rewrite Ho; apply NoDup_seq). clear Ho Hi.
  induction o as [|j o IH]; [by apply elem_of_nil in Hin|].
  apply NoDup_cons in Hnd as [Hj Hnd]. destruct (decide (j = i)) as [->|Hne].
  - rewrite filter_cons_False by (intros ?; done). f_equiv.
    by rewrite filter_absent.
  - rewrite filter_cons_True by done. rewrite perm_swap. f_equiv. apply IH; set_solver.
Qed.

(** Releasing a held buffer whose block is pinned or equal to the disk's. *)
Lemma brelse_spec s V H P i n d :
  bio_ok s V H P -> i ∈ H -> shows s i n d -> (n ∈ P \/ V n = disk s n) ->
  exists s', brelse lock_addr i [] s = Ok tt [] s' /\
    bio_ok s' V (filter (fun j => j <> i) H) P /\ only_buf i s s' /\
    (forall j m e, shows s j m e -> shows s' j m e).
Proof.
  intros Hok Hi (b & Hb & Hn & Hdata) Hsync. pose proof (lookup_lt_Some _ _ _ Hb) as Hlt.
  pose proof Hok as [H1 H2 H3 H4 H5 H6 H7 H8 H9 H10 (p & Hrun & Hpid)].
  destruct (H5 i Hi) as (c & Hc & Hd & Hrc & Hl & Hv & Hr).
  rewrite Hb in Hc. injection Hc as <-.
  unfold brelse. erewrite bind_Ok by (apply (holds_buf_ok i b s p); try done; apply not_elem_of_nil).
  simpl. destruct (unlock_buf_ok i b s p Hb Hrun) as (k & Hk & Hul).
  erewrite bind_Ok by exact Hul. kstep.
  erewrite bind_Ok by (apply upd_buf_ok; cbn; by apply list_lookup_insert_eq).
  erewrite bind_Ok by (apply get_buf_ok; cbn; rewrite list_insert_insert_eq; by apply list_lookup_insert_eq).
  cbn. rewrite Hrc. simpl. kstep. rewrite release_top by apply not_elem_of_nil.
  eexists. split; [reflexivity|]. cbn. rewrite list_insert_insert_eq.
  set (b' := mkBuf _ _ _ _ _ _).
  assert (Hsame : forall j c, <[i := b']> (bufs s) !! j = Some c -> exists c0, bufs s !! j = Some c0 /\
    flags c = flags c0 /\ bdev c = bdev c0 /\ blockno c = blockno c0 /\ bdata c = bdata c0).
  { intros j c [(<- & <- & _)|[Hne Hc]]%list_lookup_insert_Some; [by exists b|by exists c]. }
  assert (Hback : forall j c0, bufs s !! j = Some c0 -> exists c, <[i := b']> (bufs s) !! j = Some c /\
    flags c = flags c0 /\ bdev c = bdev c0 /\ blockno c = blockno c0 /\ bdata c = bdata c0).
  { intros j c0 Hc. destruct (decide (j = i)) as [->|Hne].
    - rewrite Hb in Hc. injection Hc as <-. exists b'. by rewrite list_lookup_insert_eq.
    - exists c0. by rewrite list_lookup_insert_ne. }
  split; [|split].
  - split; cbn; try done.
    + by rewrite length_insert.
    + apply move_front; [done|]. by rewrite <- H1.
    + intros j c (c0 & Hc0 & -> & -> & _)%Hsame. eauto.
    + intros j m c e (c0 & Hc0 & _ & -> & -> & _)%Hsame (e0 & He0 & _ & -> & -> & _)%Hsame. eauto.
    + intros j [Hne Hj]%list_elem_of_filter. destruct (H5 j Hj) as (c & Hc & Hrest).
      exists c. by rewrite list_lookup_insert_ne.
    + intros j c [(<- & <- & _)|[Hne Hc]]%list_lookup_insert_Some Hj; [done|].
      apply (H6 j c Hc). intros Hj'. apply Hj, list_elem_of_filter. done.
    + intros j c (c0 & Hc0 & Hf0 & -> & -> & ->)%Hsame. unfold valid. rewrite Hf0. eauto.
    + intros m. rewrite H8. split.
      * intros (j & c & (c' & Hc' & Hf & Hd' & Hn' & _)%Hback & Hrest). exists j, c'.
        unfold dirty in *. rewrite Hf, Hd', Hn'. done.
      * intros (j & c & (c' & Hc' & Hf & Hd' & Hn' & _)%Hsame & Hrest). exists j, c'.
        unfold dirty in *. rewrite Hf, Hd', Hn' in Hrest. done.
    + intros m Hm Hheld. destruct (decide (m = n)) as [->|Hmn]; [by destruct Hsync|].
      apply H9; [done|]. intros j c Hj Hc. destruct (decide (j = i)) as [->|Hne]; [congruence|].
      apply (Hheld j c); [by apply list_elem_of_filter|by rewrite list_lookup_insert_ne].
    + by apply NoDup_filter.
    + by exists p.
  - split; cbn; try done. intros j Hne. by rewrite list_lookup_insert_ne.
  - intros j m e (c & (c' & Hc' & _ & _ & Hn' & Hd')%Hback & Hcn & Hcd). exists c'.
    split; [done|]. by rewrite Hn', Hd'.
Qed.

(** *** What the cache promises *)

Lemma binit_loop k m L s :
  (k + m <= length (bufs s))%nat ->
  exists bs, kiter (fun i =>
      upd_buf i (fun b => b <| bl := mkSleeplock 0 0 |>) ;;
      modify (fun s => s <| order ::= cons i |>)) (seq k m) L s =
      Ok tt L (s <| bufs := bs |> <| order := rev (seq k m) ++ order s |>) /\
    length bs = length (bufs s) /\
    forall i b, bs !! i = Some b -> exists c, bufs s !! i = Some c /\
      (b = c /\ ~ (k <= i < k + m)%nat \/ b = c <| bl := mkSleeplock 0 0 |>).
Proof.
  revert k s. induction m as [|m IH]; intros k s Hk; cbn [seq kiter].
  { exists (bufs s). split_and!; [by destruct s|done|]. intros i b Hb. exists b. split; [done|].
    left. split; [done|lia]. }
  destruct (lookup_lt_is_Some_2 (bufs s) k) as [b0 Hb0]; [lia|].
  rewrite bind_assoc. erewrite bind_Ok by (by apply upd_buf_ok). kstep.
  set (s1 := s <| bufs ::= _ |> <| order ::= _ |>).
  destruct (IH (S k) s1) as (bs & R & Hlen & Hbs); [cbn; rewrite length_insert; lia|].
  exists bs. split_and!.
  - rewrite R. cbn. by rewrite <- app_assoc.
  - rewrite Hlen. cbn. apply length_insert.
  - intros i b Hb. destruct (Hbs i b Hb) as (c & Hc & Hrel). cbn in Hc.
    apply list_lookup_insert_Some in Hc as [(<- & <- & _)|[Hne Hc]].
    + exists b0. split; [done|]. right. by destruct Hrel as [[-> _] | ->].
    + exists c. split; [done|]. destruct Hrel as [[-> Hr] | ->]; [left; split; [done|lia]|by right].
Qed.

(** A buffer as the loader leaves it: all zero but for its lock and data. *)
Definition unused (b : buf) : Prop := flags b = 0 /\ bdev b = 0 /\ refcnt b = 0.

(** [binit] on the zeroed buffers sets up a cache that is coherent with the
    disk, has no buffer held and none dirty. *)
Theorem binit_ready s p
  (Hlen : length (bufs s) = Z.to_nat NBUF) (Hz : Forall unused (bufs s))
  (Hr : running me p (bk s)) (Hp : pid p = mp) :
  exists s', binit [] s = Ok tt [] s' /\ bio_ok s' (disk s) [] [] /\ wtrace s' = wtrace s.
Proof.
  unfold binit. kstep. set (s0 := s <| order := [] |>).
  destruct (binit_loop 0 (Z.to_nat NBUF) [] s0) as (bs & R & Hl & Hbs); [cbn; lia|].
  eexists. split; [exact R|]. split; [|done]. rewrite Forall_lookup in Hz.
  assert (Hb : forall i b, bs !! i = Some b -> unused b /\ slocked (bl b) = 0).
  { intros i b Hi. pose proof (lookup_lt_Some _ _ _ Hi) as Hlt.
    destruct (Hbs i b Hi) as (c & Hc & [[-> Hn] | ->]).
    - cbn in Hl. lia.
    - split; [|done]. exact (Hz i c Hc). }
  split; cbn; try done.
  - by rewrite Hl.
  - rewrite app_nil_r. symmetry. apply Permutation_rev.
  - intros i b [[? _] _]%Hb. by left.
  - intros i j b c [(_ & Hd & _) _]%Hb _ Hd'. congruence.
  - by intros i ?%elem_of_nil.
  - intros i b [(_ & _ & ?) ?]%Hb. done.
  - intros i b [(_ & Hd & _) _]%Hb Hd'. congruence.
  - intros n. split; [by intros ?%elem_of_nil|].
    intros (i & b & [(_ & Hd & _) _]%Hb & Hd' & _). congruence.
  - constructor.
  - by exists p.
Qed.

(** C12: A block written through the cache is on the disk when the write returns,
    and every later [bread], of that block or another, returns a buffer that
    holds the latest contents of its block. *)
Theorem bwrite_bread s V P n d
  (Hok : bio_ok s V [] P) (Hn : 0 <= n < disksize s)
  (Hroom : Z.of_nat (length P) < NBUF) :
  exists s', (i ← bread lock_addr 1 n;
      upd_buf i (fun b => b <| bdata ::= fun _ => d |>) ;; bwrite i ;; brelse lock_addr i) [] s =
      Ok tt [] s' /\ disk s' n = d /\ wtrace s' = wtrace s ++ [(n, d)] /\
    forall m, 0 <= m < disksize s -> exists j s'',
      bread lock_addr 1 m [] s' = Ok j [] s'' /\ shows s'' j m (vset V n d m).
Proof.
  destruct (bread_spec s V [] P n Hok Hn) as (i & s1 & R1 & _ & O1 & S1 & B1);
    [by intros (? & ? & ?%elem_of_nil & _)|by right|].
  assert (Hi : i ∈ [i]) by set_solver.
  destruct (set_data_spec s1 V [i] P i n (V n) (fun _ => d) O1 Hi S1) as (s2 & R2 & O2 & S2 & B2).
  destruct (bwrite_spec s2 _ [i] P i n d O2 Hi S2) as (s3 & R3 & O3 & S3 & _ & Z3 & D3 & T3).
  destruct (brelse_spec s3 _ [i] _ i n d O3 Hi S3) as (s4 & R4 & O4 & B4 & _).
  { right. rewrite D3. unfold vset. by rewrite Z.eqb_refl. }
  exists s4. rewrite (bind_Ok _ _ _ _ _ _ _ R1), (bind_Ok _ _ _ _ _ _ _ R2), (bind_Ok _ _ _ _ _ _ _ R3).
  rewrite (ob_disk _ _ _ B4), (ob_trace _ _ _ B4), D3, T3, (ob_trace _ _ _ B2), (ob_trace _ _ _ B1).
  unfold vset at 1. rewrite Z.eqb_refl. split_and!; try done. intros m Hm.
  rewrite filter_cons_False in O4 by (intros ?; done).
  destruct (bread_spec s4 _ [] _ m O4) as (j & s5 & R5 & _ & _ & S5 & _); [|by intros (? & ? & ?%elem_of_nil & _)| |].
  - rewrite (ob_size _ _ _ B4), Z3, (ob_size _ _ _ B2), (ob_size _ _ _ B1). done.
  - right. simpl. pose proof (length_filter (fun m => m <> n) P). lia.
  - by exists j, s5.
Qed.

(** [bread] of a block whose buffer is locked neither returns the buffer nor
    gives the block a second one: it counts the caller as a user, so that the
    buffer is not recycled, and puts it to sleep on the buffer's lock, with no
    lock of the cache held. *)
Theorem bread_waits s d n i b p
  (Hf : find_buf (is_block d n) (bufs s) (order s) = Some i) (Hb : bufs s !! i = Some b)
  (Hl : slocked (bl b) <> 0) (Hr : running me p (bk s)) :
  exists s', bread lock_addr d n [] s = Sleep (lock_addr i) [Lptable] s' /\
    bufs s' = <[i := b <| refcnt ::= fun r => u32 (r + 1) |>]> (bufs s) /\
    procs (bk s') !! me = Some (gone_to_sleep (lock_addr i) (ticks (bk s)) p) /\ disk s' = disk s.
Proof.
  pose proof (lookup_lt_Some _ _ _ Hb) as Hlt. pose proof (lookup_lt_Some _ _ _ (rn_proc _ _ _ Hr)) as Hm.
  unfold bread, bget. rewrite bind_assoc. kstep. rewrite bind_assoc. kstep. rewrite bind_assoc. kstep.
  rewrite Hf. rewrite bind_assoc. erewrite bind_Ok by (by apply upd_buf_ok).
  rewrite bind_assoc. kstep. rewrite bind_assoc. unfold lock_buf, on_lock, mbind, K_bind. cbn.
  rewrite list_lookup_insert_eq by done.
  rewrite (acquiresleep_sleeps _ _ _ me p) by done. cbn.
  eexists. split; [reflexivity|]. cbn. rewrite list_insert_insert_eq. split_and!; [by destruct b| |done].
  by apply list_lookup_insert_eq.
Qed.

(** Only the holder of a buffer may write or release it: on a buffer nobody
    holds, [bwrite], [brelse] and [iderw] panic. *)
Theorem unlocked_buffer_panics s V H P i b
  (Hok : bio_ok s V H P) (Hb : bufs s !! i = Some b) (Hi : i ∉ H) :
  bwrite i [] s = Panic "bwrite" /\ brelse lock_addr i [] s = Panic "brelse" /\
  iderw i [] s = Panic "iderw: buf not locked".
Proof.
  destruct (bo_idle _ _ _ _ Hok i b Hb Hi) as [_ Hl].
  assert (Hh : holds_buf i [] s = Ok false [] s).
  { unfold holds_buf, on_lock. rewrite Hb.
    rewrite holdingsleep_free by (done || apply not_elem_of_nil). cbn. f_equal. destruct s, b. cbn in *.
    by rewrite list_insert_id. }
  unfold bwrite, brelse, iderw. by rewrite !(bind_Ok _ _ _ _ _ _ _ Hh).
Qed.

End spec.

(** *** Concrete runs *)

Definition blank_buf : buf := mkBuf 0 0 0 (mkSleeplock 0 0) 0 (fun _ => 0).

(** The cache after [binit], over a disk [D] of [size] blocks, with buffers
    [bs] in use at its front. *)
Definition cache_with (bs : list buf) (D : Z -> block) (size : Z) : bst :=
  mkBst (bs ++ replicate (Z.to_nat NBUF - length bs) blank_buf) (seq 0 (Z.to_nat NBUF)) D size []
    (machine [runner]).

(** A cache with one dirty block in it. *)
Definition dirty_buf (n : Z) (d : block) : buf := mkBuf 6 1 n (mkSleeplock 0 0) 0 d.

Lemma fresh_ok D size : bio_ok 0 2 (cache_with [] D size) D [] [].
Proof.
  assert (Hb : forall i b, bufs (cache_with [] D size) !! i = Some b -> b = blank_buf).
  { intros i b. cbn [cache_with bufs app]. by intros [? _]%lookup_replicate. }
  split; cbn [cache_with order disk bk disksize]; try done.
  - by intros i b ->%Hb; left.
  - by intros i j b c ->%Hb _ ?.
  - by intros i ?%elem_of_nil.
  - by intros i b ->%Hb.
  - by intros i b ->%Hb ?.
  - intros n. split; [by intros ?%elem_of_nil|]. by intros (i & b & ->%Hb & ? & _).
  - constructor.
  - exists runner. split; [apply running_machine|done].
Qed.

Lemma one_dirty_ok D size n d :
  bio_ok 0 2 (cache_with [dirty_buf n d] D size) (vset D n d) [] [n].
Proof.
  assert (Hb : forall i b, bufs (cache_with [dirty_buf n d] D size) !! i = Some b ->
    i = 0%nat /\ b = dirty_buf n d \/ b = blank_buf).
  { intros [|i] b; cbn [cache_with bufs app]; [by intros [= <-]; left|].
    rewrite <- lookup_tail. intros [? _]%lookup_replicate. by right. }
  split; cbn [cache_with order disk bk disksize]; try done.
  - intros i b [[_ ->] | ->]%Hb; [by right; right|by left].
  - by intros i j b c [[-> ->] | ->]%Hb [[-> ->] | ->]%Hb ? ? ?.
  - by intros i ?%elem_of_nil.
  - by intros i b [[_ ->] | ->]%Hb.
  - intros i b [[_ ->] | ->]%Hb ? ?; [|done]. cbn. unfold vset. by rewrite Z.eqb_refl.
  - intros m. rewrite list_elem_of_singleton. split.
    + intros ->. by exists 0%nat, (dirty_buf n d).
    + by intros (i & b & [[_ ->] | ->]%Hb & ? & ? & <-).
  - intros m Hm _. unfold vset. rewrite (proj2 (Z.eqb_neq _ _)); [done|set_solver].
  - constructor.
  - exists runner. split; [apply running_machine|done].
Qed.

Lemma binit_ready_witness :
  exists s', binit [] (cache_with [] (fun _ _ => 0) 1000) = Ok tt [] s' /\
    bio_ok 0 2 s' (fun _ _ => 0) [] [] /\ wtrace s' = [].
Proof.
  apply (binit_ready 0 2 (cache_with [] (fun _ _ => 0) 1000) runner); [done| |apply running_machine|done].
  apply Forall_replicate. done.
Defined.

Lemma bwrite_bread_witness :
  exists s', (i ← bread (fun i => 100 + Z.of_nat i) 1 9;
      upd_buf i (fun b => b <| bdata ::= fun _ _ => 7 |>) ;; bwrite i ;;
      brelse (fun i => 100 + Z.of_nat i) i) [] (cache_with [] (fun _ _ => 0) 1000) =
      Ok tt [] s' /\ disk s' 9 = (fun _ => 7) /\ wtrace s' = [(9, (fun _ => 7) : block)] /\
    forall m, 0 <= m < 1000 -> exists j s'',
      bread (fun i => 100 + Z.of_nat i) 1 m [] s' = Ok j [] s'' /\
      shows s'' j m (vset (fun _ _ => 0) 9 (fun _ => 7) m).
Proof.
  apply (bwrite_bread (fun i => 100 + Z.of_nat i) 0 2 (cache_with [] (fun _ _ => 0) 1000)
    (fun _ _ => 0) [] 9 (fun _ => 7)); [apply fresh_ok|by vm_compute|done].
Defined.

(** A buffer another process has locked. *)
Definition locked_buf (n : Z) : buf := mkBuf 2 1 n (mkSleeplock 1 5) 1 (fun _ => 0).

Lemma bread_waits_witness :
  exists s', bread (fun i => 100 + Z.of_nat i) 1 9 [] (cache_with [locked_buf 9] (fun _ _ => 0) 1000) =
      Sleep 100 [Lptable] s' /\
    bufs s' = <[0%nat := (locked_buf 9) <| refcnt := 2 |>]>
      (bufs (cache_with [locked_buf 9] (fun _ _ => 0) 1000)) /\
    procs (bk s') !! 0%nat = Some (gone_to_sleep 100 (ticks (machine [runner])) runner) /\
    disk s' = (fun _ _ => 0).
Proof.
  apply (bread_waits (fun i => 100 + Z.of_nat i) 0 (cache_with [locked_buf 9] (fun _ _ => 0) 1000)
    1 9 0%nat (locked_buf 9) runner); [done|done|done|apply running_machine].
Defined.

Lemma unlocked_buffer_panics_witness :
  bwrite 3 [] (cache_with [] (fun _ _ => 0) 1000) = Panic "bwrite" /\
  brelse (fun i => 100 + Z.of_nat i) 3 [] (cache_with [] (fun _ _ => 0) 1000) = Panic "brelse" /\
  iderw 3 [] (cache_with [] (fun _ _ => 0) 1000) = Panic "iderw: buf not locked".
Proof.
  apply (unlocked_buffer_panics (fun i => 100 + Z.of_nat i) 0 2 _ (fun _ _ => 0) [] [] 3%nat blank_buf);
    [apply fresh_ok|done|set_solver].
Defined.

End BioSpec.
