(* ===== verification/Log.v ===== *)
(** The write-ahead log (log.c): transactions, commit and recovery, over the
    buffer cache; [readsb] of fs.c, which [initlog] calls. *)

From stdpp Require Import base numbers list sets strings.
From Stdlib Require Import ZArith Lia.
From S2P Require Import Prelude Mem CString Mmu Seg Kalloc Param Proc Sleeplock Bio.
Import CString Mmu Seg Kalloc Param Proc Sleeplock Bio.

Module Log.

(** [struct log], with the fields of its [struct logheader]. *)
Record log := mkLog {
  lstart : Z; lsize : Z; outstanding : Z; committing : Z; ldev : Z;
  lhn : Z; lhblock : list Z }.
#[export] Instance eta_log : Eta log := fun g =>
  mkLog g.(lstart) g.(lsize) g.(outstanding) g.(committing) g.(ldev) g.(lhn) g.(lhblock).

Record lst := mkLst { lb : bst; lg : log }.
#[export] Instance eta_lst : Eta lst := fun s => mkLst s.(lb) s.(lg).

(** The process table inside. *)
Definition lbk (s : lst) : pstate := bk (lb s).
#[export] Instance setter_lbk : Setter lbk := fun f s => s <| lb ::= fun b => b <| bk ::= f |> |>.

(** Offsets in the header block: [n], then [block[i]]. *)
Definition hdr_n (d : block) : Z := i32 (load32 d 0).
Definition hdr_block (d : block) (i : Z) : Z := i32 (load32 d (4 + 4 * i)).
Definition sizeof_logheader : Z := 4 + 4 * LOGSIZE.

Record superblock := mkSb {
  sb_size : Z; sb_nblocks : Z; sb_ninodes : Z; sb_nlog : Z; sb_logstart : Z;
  sb_inodestart : Z; sb_bmapstart : Z }.

Definition load_sb (d : block) : superblock :=
  mkSb (load32 d 0) (load32 d 4) (load32 d 8) (load32 d 12) (load32 d 16) (load32 d 20)
    (load32 d 24).

Section log.
(** Addresses of the buffers' locks and of [log], and what the other processes
    do while this one sleeps. *)
Variables (lock_addr : nat -> Z) (log_addr : Z) (swtch : K lst unit).

Definition get_data (i : nat) : K lst block := zoom lb (b ← get_buf i; mret (bdata b)).

Definition readsb (dev : Z) : K lst superblock :=
  bp ← zoom lb (bread lock_addr dev 1);
  d ← get_data bp;
  zoom lb (brelse lock_addr bp) ;; mret (load_sb d).

(** One turn of the loop of [install_trans]. *)
Definition install_one (tail : Z) : K lst unit :=
  g ← gets lg;
  lbuf ← zoom lb (bread lock_addr (ldev g) (u32 (lstart g + tail + 1)));
  n ← deref "log.lh.block" (aget (lhblock g) tail);
  dbuf ← zoom lb (bread lock_addr (ldev g) (u32 n));
  d ← get_data lbuf;
  zoom lb (upd_buf dbuf (fun b => b <| bdata := d |>)) ;;
  zoom lb (bwrite dbuf) ;;
  zoom lb (brelse lock_addr lbuf) ;;
  zoom lb (brelse lock_addr dbuf).

(** [for (tail = 0; tail < log.lh.n; tail++)] *)
Definition tails (n : Z) : list Z := map Z.of_nat (seq 0 (Z.to_nat n)).

Definition install_trans : K lst unit :=
  n ← gets (fun s => lhn (lg s)); kiter install_one (tails n).

(** [log.lh.block[i] = lh->block[i]] *)
Definition read_entry (d : block) (i : Z) : K lst unit :=
  bs ← gets (fun s => lhblock (lg s));
  bs' ← deref "log.lh.block" (aset bs i (hdr_block d i));
  modify (fun s => s <| lg ::= fun g => g <| lhblock := bs' |> |>).

Definition read_head : K lst unit :=
  g ← gets lg;
  buf ← zoom lb (bread lock_addr (ldev g) (u32 (lstart g)));
  d ← get_data buf;
  modify (fun s => s <| lg ::= fun g => g <| lhn := hdr_n d |> |>) ;;
  kiter (read_entry d) (tails (hdr_n d)) ;;
  zoom lb (brelse lock_addr buf).

(** [hb->block[i] = log.lh.block[i]] *)
Definition write_entry (buf : nat) (i : Z) : K lst unit :=
  bs ← gets (fun s => lhblock (lg s));
  n ← deref "log.lh.block" (aget bs i);
  zoom lb (upd_buf buf (fun b => b <| bdata ::= fun d => store32 d (4 + 4 * i) n |>)).

Definition write_head : K lst unit :=
  g ← gets lg;
  buf ← zoom lb (bread lock_addr (ldev g) (u32 (lstart g)));
  zoom lb (upd_buf buf (fun b => b <| bdata ::= fun d => store32 d 0 (lhn g) |>)) ;;
  kiter (write_entry buf) (tails (lhn g)) ;;
  zoom lb (bwrite buf) ;;
  zoom lb (brelse lock_addr buf).

Definition clear_n : K lst unit := modify (fun s => s <| lg ::= fun g => g <| lhn := 0 |> |>).

Definition recover_from_log : K lst unit :=
  read_head ;; install_trans ;; clear_n ;; write_head.

Definition initlog (dev : Z) : K lst unit :=
  if BSIZE <=? sizeof_logheader then panic "initlog: too big logheader" else
  sb ← readsb dev;
  modify (fun s => s <| lg ::= fun g => g <| lstart := i32 (sb_logstart sb) |>
    <| lsize := i32 (sb_nlog sb) |> <| ldev := dev |> |>) ;;
  recover_from_log.

(** *** Operations and transactions *)

Fixpoint begin_loop (fuel : nat) : K lst unit :=
  match fuel with
  | O => fault "out of fuel"
  | S f =>
      g ← gets lg;
      if nz (committing g) then sleep_in lbk swtch log_addr Llog ;; begin_loop f
      else if lhn g + (outstanding g + 1) * MAXOPBLOCKS >? LOGSIZE then
        sleep_in lbk swtch log_addr Llog ;; begin_loop f
      else
        modify (fun s => s <| lg ::= fun g => g <| outstanding := i32 (outstanding g + 1) |> |>) ;;
        release Llog
  end.

Definition begin_op (fuel : nat) : K lst unit := acquire Llog ;; begin_loop fuel.

(** One turn of the loop of [write_log]. *)
Definition write_log_one (tail : Z) : K lst unit :=
  g ← gets lg;
  to ← zoom lb (bread lock_addr (ldev g) (u32 (lstart g + tail + 1)));
  n ← deref "log.lh.block" (aget (lhblock g) tail);
  from ← zoom lb (bread lock_addr (ldev g) (u32 n));
  d ← get_data from;
  zoom lb (upd_buf to (fun b => b <| bdata := d |>)) ;;
  zoom lb (bwrite to) ;;
  zoom lb (brelse lock_addr from) ;;
  zoom lb (brelse lock_addr to).

Definition write_log : K lst unit :=
  n ← gets (fun s => lhn (lg s)); kiter write_log_one (tails n).

Definition commit : K lst unit :=
  n ← gets (fun s => lhn (lg s));
  if n >? 0 then
    write_log ;; write_head ;; install_trans ;; clear_n ;; write_head
  else mret tt.

Definition end_op : K lst unit :=
  acquire Llog ;;
  modify (fun s => s <| lg ::= fun g => g <| outstanding := i32 (outstanding g - 1) |> |>) ;;
  g ← gets lg;
  if nz (committing g) then panic "log.committing" else
  (if outstanding g =? 0 then
     modify (fun s => s <| lg ::= fun g => g <| committing := 1 |> |>)
   else zoom lbk (wakeup log_addr)) ;;
  release Llog ;;
  if outstanding g =? 0 then
    commit ;;
    acquire Llog ;;
    modify (fun s => s <| lg ::= fun g => g <| committing := 0 |> |>) ;;
    zoom lbk (wakeup log_addr) ;;
    release Llog
  else mret tt.

(** [for (i = 0; i < log.lh.n; i++) if (log.lh.block[i] == b->blockno) break;] *)
Fixpoint absorb (bs : list Z) (n : nat) (b : Z) (i : nat) : nat :=
  match n, bs with
  | S n', x :: r => if x =? b then i else absorb r n' b (S i)
  | _, _ => i
  end.

Definition log_write (b : nat) : K lst unit :=
  g ← gets lg;
  if (LOGSIZE <=? lhn g) || (lsize g - 1 <=? lhn g) then panic "too big a transaction"
  else if outstanding g <? 1 then panic "log_write outside of trans"
  else
    acquire Llog ;;
    bf ← zoom lb (get_buf b);
    let i := absorb (lhblock g) (Z.to_nat (lhn g)) (i32 (blockno bf)) 0 in
    bs ← deref "log.lh.block" (aset (lhblock g) (Z.of_nat i) (i32 (blockno bf)));
    modify (fun s => s <| lg ::= fun g => g <| lhblock := bs |> |>) ;;
    (if Z.of_nat i =? lhn g then
       modify (fun s => s <| lg ::= fun g => g <| lhn := i32 (lhn g + 1) |> |>)
     else mret tt) ;;
    zoom lb (upd_buf b (fun b => b <| flags ::= fun f => Z.lor f B_DIRTY |>)) ;;
    release Llog.

End log.

End Log.
