(* ===== verification/LogSpec.v ===== *)
(** What the log does to the disk: the exact sequence of block writes of a
    commit and of a recovery, and the contents they leave. *)

From stdpp Require Import base numbers list sets strings.
From Stdlib Require Import ZArith Lia.
From S2P Require Import Prelude Mem CString Mmu Seg Kalloc Param Proc Sleeplock Bio BioSpec Log.
Import CString Mmu Seg Kalloc Param Proc Sleeplock Bio BioSpec Log.

Module LogSpec.

Section log.
Variables (lock_addr : nat -> Z) (me : nat) (mp : Z).

Abbreviation bok := (bio_ok me mp).

Lemma shows_other i j s s' n d : only_buf i s s' -> j <> i -> shows s j n d -> shows s' j n d.
Proof. intros Ho Hne (b & Hb & Hrest). exists b. by rewrite (ob_others _ _ _ Ho). Qed.

Lemma get_data_ok i s n d : shows (lb s) i n d -> get_data i [] s = Ok d [] s.
Proof.
  intros (b & Hb & _ & <-). unfold get_data, zoom. erewrite bind_Ok by by apply get_buf_ok.
  by destruct s.
Qed.

Lemma not_holding i s n m d : shows s i n d -> n <> m -> ~ holds_block s [i] m.
Proof.
  intros (b & Hb & Hn & _) Hne (j & c & ->%list_elem_of_singleton & Hc & Hm). congruence.
Qed.

Lemma not_holding_nil s m : ~ holds_block s [] m.
Proof. by intros (j & c & ?%elem_of_nil & _). Qed.

Lemma filter_first (j i : nat) : j <> i -> filter (fun x => x <> j) [j; i] = [i].
Proof.
  intros. rewrite filter_cons_False by (intros ?; done). by rewrite filter_cons_True by done.
Qed.

Lemma filter_single (i : nat) : filter (fun x => x <> i) [i] = [].
Proof. by rewrite filter_cons_False by (intros ?; done). Qed.

(** Takes one step of a log function: an operation of the cache. *)
Ltac lbstep H := erewrite bind_Ok by (apply zoom_Ok; exact H).

(** *** Copying blocks *)

(** [write_log]'s loop body copies a pinned block to its log block. *)
Lemma write_log_one_spec s V P k n a :
  bok (lb s) V [] P -> ldev (lg s) = 1 -> aget (lhblock (lg s)) k = Some n ->
  a = lstart (lg s) + k + 1 -> disksize (lb s) < 2 ^ 31 -> 0 <= a < disksize (lb s) ->
  0 <= n < disksize (lb s) -> a <> n -> n ∈ P -> a ∉ P -> Z.of_nat (length P) < NBUF ->
  exists t, write_log_one lock_addr k [] s = Ok tt [] (s <| lb := t |>) /\
    bok t (vset V a (V n)) [] P /\ disksize t = disksize (lb s) /\
    wtrace t = wtrace (lb s) ++ [(a, V n)].
Proof.
  intros Hok Hdev Hn Ha Hsz Har Hnr Hne HnP HaP Hroom. unfold write_log_one. kstep.
  rewrite <- Ha, Hdev, (u32_small a) by lia.
  destruct (bread_spec lock_addr me mp (lb s) V [] P a Hok Har) as (i & s1 & R1 & _ & O1 & S1 & B1);
    [apply not_holding_nil|right; done|]. lbstep R1. rewrite Hn. kstep. rewrite (u32_small n) by lia.
  destruct (bread_spec lock_addr me mp s1 V [i] P n O1) as (j & s2 & R2 & Hj & O2 & S2 & B2);
    [by rewrite (ob_size _ _ _ B1)|by eapply not_holding|by left|]. lbstep R2.
  assert (Hij : i <> j) by set_solver.
  pose proof (shows_other j i s1 s2 a _ B2 Hij S1) as S1'.
  erewrite bind_Ok by (eapply get_data_ok; exact S2).
  destruct (set_data_spec lock_addr me mp s2 V [j; i] P i a (V a) (fun _ => V n) O2) as (s3 & R3 & O3 & S3 & B3);
    [set_solver|done|]. lbstep R3.
  pose proof (shows_other i j s2 s3 n _ B3 ltac:(done) S2) as S2'.
  destruct (bwrite_spec lock_addr me mp s3 _ _ P i a (V n) O3) as (s4 & R4 & O4 & S4 & B4 & Z4 & D4 & T4);
    [set_solver|done|]. lbstep R4. rewrite filter_absent in O4 by done.
  assert (S5 : shows s4 j n (V n)) by (destruct S2' as (b & Hb & Hr); exists b; by rewrite B4).
  destruct (brelse_spec lock_addr me mp s4 _ _ P j n (V n) O4) as (s5 & R5 & O5 & B5 & K5);
    [set_solver|done|by left|]. lbstep R5. rewrite filter_first in O5 by done.
  destruct (brelse_spec lock_addr me mp s5 _ _ P i a (V n) O5) as (s6 & R6 & O6 & B6 & K6);
    [set_solver|by apply K5|right|].
  { rewrite (ob_disk _ _ _ B5), D4. unfold vset. by rewrite Z.eqb_refl. }
  rewrite filter_single in O6. exists s6. split; [|split_and!].
  - erewrite zoom_Ok by exact R6. by destruct s.
  - done.
  - rewrite (ob_size _ _ _ B6), (ob_size _ _ _ B5), Z4, (ob_size _ _ _ B3), (ob_size _ _ _ B2).
    apply (ob_size _ _ _ B1).
  - rewrite (ob_trace _ _ _ B6), (ob_trace _ _ _ B5), T4, (ob_trace _ _ _ B3), (ob_trace _ _ _ B2).
    by rewrite (ob_trace _ _ _ B1).
Qed.

(** [install_trans]'s loop body copies a log block to its home. *)
Lemma install_one_spec s V P k n a :
  bok (lb s) V [] P -> ldev (lg s) = 1 -> aget (lhblock (lg s)) k = Some n ->
  a = lstart (lg s) + k + 1 -> disksize (lb s) < 2 ^ 31 -> 0 <= a < disksize (lb s) ->
  0 <= n < disksize (lb s) -> a <> n -> a ∉ P -> Z.of_nat (length P) < NBUF ->
  (n ∈ P \/ Z.of_nat (1 + length P) < NBUF) ->
  exists t, install_one lock_addr k [] s = Ok tt [] (s <| lb := t |>) /\
    bok t (vset V n (V a)) [] (filter (fun m => m <> n) P) /\ disksize t = disksize (lb s) /\
    wtrace t = wtrace (lb s) ++ [(n, V a)].
Proof.
  intros Hok Hdev Hn Ha Hsz Har Hnr Hne HaP Hroom Hroom2. unfold install_one. kstep.
  rewrite <- Ha, Hdev, (u32_small a) by lia.
  assert (Hsync : V a = disk (lb s) a).
  { apply (bo_synced _ _ _ _ _ _ Hok); [done|]. by intros ? ? ?%elem_of_nil. }
  destruct (bread_spec lock_addr me mp (lb s) V [] P a Hok Har) as (i & s1 & R1 & _ & O1 & S1 & B1);
    [apply not_holding_nil|right; done|]. lbstep R1. rewrite Hn. kstep. rewrite (u32_small n) by lia.
  destruct (bread_spec lock_addr me mp s1 V [i] P n O1) as (j & s2 & R2 & Hj & O2 & S2 & B2);
    [by rewrite (ob_size _ _ _ B1)|by eapply not_holding|done|]. lbstep R2.
  assert (Hij : i <> j) by set_solver.
  pose proof (shows_other j i s1 s2 a _ B2 Hij S1) as S1'.
  erewrite bind_Ok by (eapply get_data_ok; exact S1').
  destruct (set_data_spec lock_addr me mp s2 V [j; i] P j n (V n) (fun _ => V a) O2)
    as (s3 & R3 & O3 & S3 & B3); [set_solver|done|]. lbstep R3.
  pose proof (shows_other j i s2 s3 a _ B3 Hij S1') as S1''.
  destruct (bwrite_spec lock_addr me mp s3 _ _ P j n (V a) O3) as (s4 & R4 & O4 & S4 & B4 & Z4 & D4 & T4);
    [set_solver|done|]. lbstep R4.
  assert (S5 : shows s4 i a (V a)) by (destruct S1'' as (b & Hb & Hr); exists b; by rewrite B4).
  destruct (brelse_spec lock_addr me mp s4 _ _ _ i a (V a) O4) as (s5 & R5 & O5 & B5 & K5);
    [set_solver|done|right|].
  { rewrite D4, (ob_disk _ _ _ B3), (ob_disk _ _ _ B2), (ob_disk _ _ _ B1). unfold vset.
    by rewrite (proj2 (Z.eqb_neq _ _) Hne). }
  lbstep R5.
  assert (filter (fun x => x <> i) [j; i] = [j]) as HF.
  { rewrite filter_cons_True by done. by rewrite filter_cons_False by (intros ?; done). }
  rewrite HF in O5.
  destruct (brelse_spec lock_addr me mp s5 _ _ _ j n (V a) O5) as (s6 & R6 & O6 & B6 & K6);
    [set_solver|by apply K5|right|].
  { rewrite (ob_disk _ _ _ B5), D4. unfold vset. by rewrite Z.eqb_refl. }
  rewrite filter_single in O6. exists s6. split; [|split_and!].
  - erewrite zoom_Ok by exact R6. by destruct s.
  - done.
  - rewrite (ob_size _ _ _ B6), (ob_size _ _ _ B5), Z4, (ob_size _ _ _ B3), (ob_size _ _ _ B2).
    apply (ob_size _ _ _ B1).
  - rewrite (ob_trace _ _ _ B6), (ob_trace _ _ _ B5), T4, (ob_trace _ _ _ B3), (ob_trace _ _ _ B2).
    by rewrite (ob_trace _ _ _ B1).
Qed.

(** *** The loops *)

Lemma tails_seq k n : map Z.of_nat (seq k (S n)) = Z.of_nat k :: map Z.of_nat (seq (S k) n).
Proof. done. Qed.

(** Log blocks of the list [l], the first at [a]. *)
Fixpoint log_copies (V : Z -> block) (a : Z) (l : list Z) : list (Z * block) :=
  match l with
  | [] => []
  | n :: r => (a, V n) :: log_copies V (a + 1) r
  end.

(** A view after a list of block writes. *)
Definition apply_writes (ws : list (Z * block)) (V : Z -> block) : Z -> block :=
  fold_left (fun V w => vset V w.1 w.2) ws V.

Lemma apply_writes_app ws1 ws2 V : apply_writes (ws1 ++ ws2) V = apply_writes ws2 (apply_writes ws1 V).
Proof. apply fold_left_app. Qed.

Lemma apply_writes_other ws V n : n ∉ ws.*1 -> apply_writes ws V n = V n.
Proof.
  revert V. induction ws as [|[m d] ws IH]; intros V Hn; [done|]. simpl in *.
  apply not_elem_of_cons in Hn as [Hm Hn]. rewrite IH by done. unfold vset. simpl.
  by rewrite (proj2 (Z.eqb_neq _ _) Hm).
Qed.

Lemma log_copies_keys V a l :
  (log_copies V a l).*1 = map (fun k => a + Z.of_nat k) (seq 0 (length l)).
Proof.
  revert a. induction l as [|n l IH]; intros a; [done|]. simpl. rewrite IH, Z.add_0_r. f_equal.
  rewrite <- seq_shift, map_map. apply map_ext. intros k. lia.
Qed.

Lemma log_copies_fresh V a l n : ~ (a <= n < a + Z.of_nat (length l)) -> n ∉ (log_copies V a l).*1.
Proof.
  intros Hn. rewrite log_copies_keys. intros (k & -> & Hk%elem_of_seq)%list_elem_of_fmap. lia.
Qed.

Lemma log_copies_ext V V' a l : (forall n, n ∈ l -> V n = V' n) -> log_copies V a l = log_copies V' a l.
Proof.
  revert a. induction l as [|n l IH]; intros a H; [done|]. simpl.
  rewrite (H n) by set_solver. f_equal. apply IH. set_solver.
Qed.

(** The static part of a transaction: the log's place on the disk and the
    home blocks [l], none of them in the log. *)
Record placed (start size : Z) (l : list Z) : Prop := {
  pl_size : size < 2 ^ 31;
  pl_start : 0 <= start;
  pl_end : start + Z.of_nat (length l) < size;
  pl_homes : Forall (fun n => 0 <= n < size /\ ~ (start <= n <= start + Z.of_nat (length l))) l
}.

Lemma write_log_loop s V P k l :
  bok (lb s) V [] P -> ldev (lg s) = 1 ->
  (forall j n, l !! j = Some n -> aget (lhblock (lg s)) (Z.of_nat (k + j)) = Some n) ->
  disksize (lb s) < 2 ^ 31 -> 0 <= lstart (lg s) ->
  lstart (lg s) + Z.of_nat (k + length l) < disksize (lb s) ->
  Forall (fun n => 0 <= n < disksize (lb s) /\ n ∈ P) l ->
  Forall (fun n => ~ (lstart (lg s) <= n <= lstart (lg s) + Z.of_nat (k + length l))) P ->
  Z.of_nat (length P) < NBUF ->
  exists t, kiter (write_log_one lock_addr) (map Z.of_nat (seq k (length l))) [] s =
      Ok tt [] (s <| lb := t |>) /\
    bok t (apply_writes (log_copies V (lstart (lg s) + Z.of_nat k + 1) l) V) [] P /\
    disksize t = disksize (lb s) /\
    wtrace t = wtrace (lb s) ++ log_copies V (lstart (lg s) + Z.of_nat k + 1) l.
Proof.
  revert s V k. induction l as [|n l IH]; intros s V k Hok Hdev Hl Hsz Hst Hend Hn HP Hroom.
  { exists (lb s). simpl. rewrite app_nil_r. split_and!; try done. by destruct s. }
  cbn [length seq map kiter]. apply Forall_cons in Hn as [[Hnr HnP] Hn].
  cbn [length] in Hend, HP.
  assert (Hlog : forall m, m ∈ P -> ~ (lstart (lg s) <= m <= lstart (lg s) + Z.of_nat (k + S (length l)))).
  { by rewrite Forall_forall in HP. }
  set (a := lstart (lg s) + Z.of_nat k + 1).
  destruct (write_log_one_spec s V P (Z.of_nat k) n a) as (t1 & R1 & O1 & Z1 & T1); try done.
  { rewrite <- (Nat.add_0_r k). by apply (Hl O). }
  { unfold a. lia. }
  { unfold a. intros E. apply (Hlog n HnP). lia. }
  { intros Ha. apply (Hlog a Ha). unfold a. lia. }
  erewrite bind_Ok by exact R1.
  destruct (IH (s <| lb := t1 |>) (vset V a (V n)) (S k)) as (t & R & O & Zt & T); cbn; try done.
  - intros j m Hj. replace (S (k + j)) with (k + S j)%nat by lia. by apply Hl.
  - by rewrite Z1.
  - rewrite Z1. lia.
  - by rewrite Z1.
  - apply Forall_forall. intros m Hm E. apply (Hlog m Hm). lia.
  - assert (Hcopies : log_copies (vset V a (V n)) (lstart (lg s) + Z.of_nat (S k) + 1) l
      = log_copies V (a + 1) l).
    { replace (lstart (lg s) + Z.of_nat (S k) + 1) with (a + 1) by (unfold a; lia).
      apply log_copies_ext. intros m Hm. rewrite Forall_forall in Hn. destruct (Hn m Hm) as [_ HmP].
      unfold vset. destruct (Z.eqb_spec m a) as [->|]; [|done]. exfalso. apply (Hlog a HmP). unfold a. lia. }
    cbn in O, T. rewrite Hcopies in O, T. exists t. split_and!; [done|done| |].
    + cbn in Zt. congruence.
    + rewrite T, T1, <- app_assoc. done.
Qed.

(** Home blocks [l] with the contents of the log blocks from [a]. *)
Fixpoint installs (V : Z -> block) (a : Z) (l : list Z) : list (Z * block) :=
  match l with
  | [] => []
  | n :: r => (n, V a) :: installs V (a + 1) r
  end.

Lemma installs_keys V a l : (installs V a l).*1 = l.
Proof. revert a. induction l as [|n l IH]; intros a; [done|]. simpl. by rewrite IH. Qed.

Lemma installs_ext V V' a l :
  (forall n, a <= n < a + Z.of_nat (length l) -> V n = V' n) -> installs V a l = installs V' a l.
Proof.
  revert a. induction l as [|n l IH]; intros a H; [done|]. simpl.
  rewrite (H a) by (simpl; lia). f_equal. apply IH. intros m Hm. apply H. simpl. lia.
Qed.

Lemma filter_notin_cons (n : Z) l (P : list Z) :
  filter (fun m => m ∉ l) (filter (fun m => m <> n) P) = filter (fun m => m ∉ n :: l) P.
Proof.
  rewrite list_filter_filter. apply list_filter_iff. intros m. set_solver.
Qed.

Lemma filter_self_nil (l : list Z) : filter (fun m => m ∉ l) l = [].
Proof.
  apply elem_of_nil_inv. intros x [? ?]%list_elem_of_filter. done.
Qed.

Lemma install_loop s V P k l :
  bok (lb s) V [] P -> ldev (lg s) = 1 ->
  (forall j n, l !! j = Some n -> aget (lhblock (lg s)) (Z.of_nat (k + j)) = Some n) ->
  disksize (lb s) < 2 ^ 31 -> 0 <= lstart (lg s) ->
  lstart (lg s) + Z.of_nat (k + length l) < disksize (lb s) ->
  Forall (fun n => 0 <= n < disksize (lb s) /\
    ~ (lstart (lg s) <= n <= lstart (lg s) + Z.of_nat (k + length l))) l ->
  Forall (fun n => ~ (lstart (lg s) <= n <= lstart (lg s) + Z.of_nat (k + length l))) P ->
  Z.of_nat (length P) < NBUF ->
  ((NoDup l /\ forall n, n ∈ l -> n ∈ P) \/ Z.of_nat (1 + length P) < NBUF) ->
  exists t, kiter (install_one lock_addr) (map Z.of_nat (seq k (length l))) [] s =
      Ok tt [] (s <| lb := t |>) /\
    bok t (apply_writes (installs V (lstart (lg s) + Z.of_nat k + 1) l) V) []
      (filter (fun m => m ∉ l) P) /\
    disksize t = disksize (lb s) /\
    wtrace t = wtrace (lb s) ++ installs V (lstart (lg s) + Z.of_nat k + 1) l.
Proof.
  revert s V P k. induction l as [|n l IH]; intros s V P k Hok Hdev Hl Hsz Hst Hend Hn HP Hroom Hroom2.
  { exists (lb s). simpl. rewrite app_nil_r. split_and!; try done; [by destruct s|].
    eapply bio_ok_ext; [exact Hok|done|]. intros m. rewrite list_elem_of_filter. set_solver. }
  cbn [length seq map kiter] in *. apply Forall_cons in Hn as [[Hnr Hnl] Hn].
  assert (Hlog : forall m, m ∈ P -> ~ (lstart (lg s) <= m <= lstart (lg s) + Z.of_nat (k + S (length l)))).
  { by rewrite Forall_forall in HP. }
  set (a := lstart (lg s) + Z.of_nat k + 1).
  destruct (install_one_spec s V P (Z.of_nat k) n a) as (t1 & R1 & O1 & Z1 & T1); try done.
  { rewrite <- (Nat.add_0_r k). by apply (Hl O). }
  { unfold a. lia. }
  { unfold a. lia. }
  { intros Ha. apply (Hlog a Ha). unfold a. lia. }
  { destruct Hroom2 as [[_ Hin]|?]; [left; apply Hin; set_solver|by right]. }
  erewrite bind_Ok by exact R1.
  pose proof (length_filter (fun m => m <> n) P) as Hlen.
  destruct (IH (s <| lb := t1 |>) (vset V n (V a)) (filter (fun m => m <> n) P) (S k))
    as (t & R & O & Zt & T); cbn; rewrite ?Z1; try done; try lia.
  - intros j m Hj. replace (S (k + j)) with (k + S j)%nat by lia. by apply Hl.
  - eapply Forall_impl; [exact Hn|]. intros m [Hm1 Hm2]. split; [done|lia].
  - apply Forall_forall. intros m [_ Hm]%list_elem_of_filter E. apply (Hlog m Hm). lia.
  - destruct Hroom2 as [[Hnd Hin]|?]; [left|right; lia].
    apply NoDup_cons in Hnd as [Hnl' Hnd]. split; [done|]. intros m Hm.
    apply list_elem_of_filter. set_solver.
  - assert (Hcopies : installs (vset V n (V a)) (lstart (lg s) + Z.of_nat (S k) + 1) l
      = installs V (a + 1) l).
    { replace (lstart (lg s) + Z.of_nat (S k) + 1) with (a + 1) by (unfold a; lia).
      apply installs_ext. intros m Hm. unfold vset.
      destruct (Z.eqb_spec m n) as [->|]; [|done]. exfalso. apply Hnl. unfold a in Hm. lia. }
    cbn in O, T. rewrite Hcopies in O, T. rewrite filter_notin_cons in O.
    exists t. split_and!; [done|done| |].
    + cbn in Zt. congruence.
    + rewrite T, T1, <- app_assoc. done.
Qed.

(** *** The header block *)

Fixpoint put_entries (d : block) (k : nat) (l : list Z) : block :=
  match l with
  | [] => d
  | n :: r => put_entries (store32 d (4 + 4 * Z.of_nat k) n) (S k) r
  end.

(** The header that records the home blocks [l]. *)
Definition header (d : block) (l : list Z) : block :=
  put_entries (store32 d 0 (Z.of_nat (length l))) 0 l.

Lemma put_entries_below d k l x :
  x + 4 <= 4 + 4 * Z.of_nat k -> load32 (put_entries d k l) x = load32 d x.
Proof.
  revert d k. induction l as [|n l IH]; intros d k Hx; [done|]. simpl.
  rewrite IH by lia. by apply load32_store32_ne; lia.
Qed.

Lemma put_entries_at d k l j n :
  l !! j = Some n -> load32 (put_entries d k l) (4 + 4 * Z.of_nat (k + j)) = u32 n.
Proof.
  revert d k j. induction l as [|m l IH]; intros d k j Hj; [done|]. destruct j as [|j]; simpl in *.
  - injection Hj as ->. rewrite Nat.add_0_r, put_entries_below by lia. apply load32_store32_eq.
  - replace (k + S j)%nat with (S k + j)%nat by lia. by apply IH.
Qed.

Lemma header_n d l : Z.of_nat (length l) < 2 ^ 31 -> hdr_n (header d l) = Z.of_nat (length l).
Proof.
  intros Hl. unfold hdr_n, header. rewrite put_entries_below by lia.
  rewrite load32_store32_eq, u32_small, i32_small by lia. done.
Qed.

Lemma header_block d l j n :
  l !! j = Some n -> 0 <= n < 2 ^ 31 -> hdr_block (header d l) (Z.of_nat j) = n.
Proof.
  intros Hj Hn. unfold hdr_block, header. rewrite (put_entries_at _ 0 l j n) by done.
  by rewrite u32_small, i32_small by lia.
Qed.

Lemma vset_vset V n d e m : vset (vset V n d) n e m = vset V n e m.
Proof. unfold vset. by destruct (m =? n). Qed.

(** The loop of [write_head] on the held header buffer. *)
Lemma write_entries s V P i a d k l :
  bok (lb s) V [i] P -> shows (lb s) i a d ->
  (forall j n, l !! j = Some n -> aget (lhblock (lg s)) (Z.of_nat (k + j)) = Some n) ->
  exists t, kiter (write_entry i) (map Z.of_nat (seq k (length l))) [] s = Ok tt [] (s <| lb := t |>) /\
    bok t (vset V a (put_entries d k l)) [i] P /\ shows t i a (put_entries d k l) /\
    only_buf i (lb s) t.
Proof.
  revert s V d k. induction l as [|n l IH]; intros s V d k Hok Hs Hl; cbn [length seq map kiter].
  { exists (lb s). simpl. split_and!; try done; [by destruct s|].
    - eapply bio_ok_ext; [exact Hok| |done]. intros m. unfold vset.
      destruct (Z.eqb_spec m a) as [->|]; [|done].
      destruct Hs as (b & Hb & Hn & Hd).
      destruct (bo_held _ _ _ _ _ _ Hok i) as (c & Hc & Hdv & _ & _ & Hv & _); [set_solver|].
      rewrite Hb in Hc. injection Hc as <-. rewrite <- Hn, <- Hd. symmetry.
      by apply (bo_view _ _ _ _ _ _ Hok i b). }
  destruct (set_data_spec lock_addr me mp (lb s) V [i] P i a d
    (fun d => store32 d (4 + 4 * Z.of_nat k) n) Hok) as (t1 & R1 & O1 & S1 & B1); [set_solver|done|].
  assert (Hk : aget (lhblock (lg s)) (Z.of_nat k) = Some n).
  { rewrite <- (Nat.add_0_r k). by apply (Hl O). }
  erewrite bind_Ok by (unfold write_entry; kstep; rewrite Hk; kstep; apply zoom_Ok; exact R1).
  destruct (IH (s <| lb := t1 |>) (vset V a (store32 d (4 + 4 * Z.of_nat k) n))
    (store32 d (4 + 4 * Z.of_nat k) n) (S k)) as (t & R & O & S & B); [done|done| |].
  { intros j m Hj. cbn. replace (S (k + j)) with (k + S j)%nat by lia. by apply Hl. }
  exists t. split_and!.
  - etransitivity; [exact R|]. done.
  - eapply bio_ok_ext; [exact O| |done]. intros m. apply vset_vset.
  - done.
  - destruct B as [b1 b2 b3 b4], B1 as [c1 c2 c3 c4]. cbn in *. split; try congruence.
    intros j Hj. by rewrite b1, c1.
Qed.

Lemma write_head_spec s V P l :
  bok (lb s) V [] P -> ldev (lg s) = 1 -> lhn (lg s) = Z.of_nat (length l) ->
  (forall j n, l !! j = Some n -> aget (lhblock (lg s)) (Z.of_nat j) = Some n) ->
  disksize (lb s) < 2 ^ 31 -> 0 <= lstart (lg s) < disksize (lb s) ->
  lstart (lg s) ∉ P -> Z.of_nat (length P) < NBUF ->
  exists t, write_head lock_addr [] s = Ok tt [] (s <| lb := t |>) /\
    bok t (vset V (lstart (lg s)) (header (V (lstart (lg s))) l)) [] P /\
    disksize t = disksize (lb s) /\
    wtrace t = wtrace (lb s) ++ [(lstart (lg s), header (V (lstart (lg s))) l)].
Proof.
  intros Hok Hdev Hn Hl Hsz Hst HP Hroom. unfold write_head. kstep.
  set (a := lstart (lg s)) in *. rewrite Hdev, (u32_small a) by lia.
  destruct (bread_spec lock_addr me mp (lb s) V [] P a Hok Hst) as (i & s1 & R1 & _ & O1 & S1 & B1);
    [apply not_holding_nil|right; done|]. lbstep R1.
  destruct (set_data_spec lock_addr me mp s1 V [i] P i a (V a) (fun d => store32 d 0 (lhn (lg s))) O1)
    as (s2 & R2 & O2 & S2 & B2); [set_solver|done|]. lbstep R2.
  destruct (write_entries (s <| lb := s2 |>) (vset V a (store32 (V a) 0 (lhn (lg s)))) P i a
    (store32 (V a) 0 (lhn (lg s))) 0 l) as (s3 & R3 & O3 & S3 & B3); [done..|].
  unfold tails. rewrite Hn, Nat2Z.id. erewrite bind_Ok by exact R3.
  set (hd := put_entries (store32 (V a) 0 (lhn (lg s))) 0 l) in *.
  destruct (bwrite_spec lock_addr me mp s3 _ _ P i a hd O3) as (s4 & R4 & O4 & S4 & B4 & Z4 & D4 & T4);
    [set_solver|exact S3|]. lbstep R4. rewrite filter_absent in O4 by done.
  destruct (brelse_spec lock_addr me mp s4 _ _ P i a hd O4) as (s5 & R5 & O5 & B5 & _);
    [set_solver|exact S4|right|].
  { rewrite D4. unfold vset. by rewrite Z.eqb_refl. }
  assert (hd = header (V a) l) as Hhd by (unfold hd, header; by rewrite Hn).
  rewrite filter_single in O5. exists s5. rewrite <- Hhd. split_and!.
  - erewrite zoom_Ok by exact R5. by destruct s.
  - eapply bio_ok_ext; [exact O5| |done]. intros m. by rewrite vset_vset.
  - rewrite (ob_size _ _ _ B5), Z4, (ob_size _ _ _ B3). cbn. rewrite (ob_size _ _ _ B2).
    apply (ob_size _ _ _ B1).
  - rewrite (ob_trace _ _ _ B5), T4, (ob_trace _ _ _ B3). cbn. rewrite (ob_trace _ _ _ B2).
    by rewrite (ob_trace _ _ _ B1).
Qed.

(** The home blocks a header lists. *)
Definition homes (d : block) : list Z := map (hdr_block d) (tails (hdr_n d)).

Lemma homes_length d : Z.of_nat (length (homes d)) = Z.max 0 (hdr_n d).
Proof. unfold homes, tails. rewrite !length_map, length_seq. lia. Qed.

Lemma homes_lookup d j n :
  homes d !! j = Some n <-> (j < Z.to_nat (hdr_n d))%nat /\ n = hdr_block d (Z.of_nat j).
Proof.
  clear lock_addr. unfold homes, tails. rewrite !list_lookup_fmap.
  destruct (decide (j < Z.to_nat (hdr_n d))%nat) as [Hj|Hj].
  - rewrite lookup_seq_lt by done. simpl. naive_solver.
  - rewrite lookup_seq_ge by lia. naive_solver.
Qed.

Lemma homes_header d l :
  Z.of_nat (length l) < 2 ^ 31 -> Forall (fun n => 0 <= n < 2 ^ 31) l -> homes (header d l) = l.
Proof.
  clear lock_addr. intros Hl Hr. apply list_eq. intros j. apply option_eq. intros n.
  rewrite homes_lookup, header_n by done. rewrite Nat2Z.id. rewrite Forall_lookup in Hr. split.
  - intros [Hj ->]. destruct (lookup_lt_is_Some_2 l j Hj) as [m Hm].
    rewrite (header_block d l j m) by eauto. done.
  - intros Hj. split; [by eapply lookup_lt_Some|]. by rewrite (header_block d l j n) by eauto.
Qed.

Lemma read_entries d k m L s :
  (k + m <= length (lhblock (lg s)))%nat ->
  exists bs, kiter (read_entry d) (map Z.of_nat (seq k m)) L s =
      Ok tt L (s <| lg ::= fun g => g <| lhblock := bs |> |>) /\
    length bs = length (lhblock (lg s)) /\
    (forall j, (j < k)%nat -> bs !! j = lhblock (lg s) !! j) /\
    (forall j, (k <= j < k + m)%nat -> bs !! j = Some (hdr_block d (Z.of_nat j))).
Proof.
  revert k s. induction m as [|m IH]; intros k s Hk; cbn [seq map kiter].
  { exists (lhblock (lg s)). split_and!; try done; [by destruct s as [? []]|]. intros. lia. }
  erewrite bind_Ok.
  2: { unfold read_entry. kstep. rewrite aset_in by lia. by kstep. }
  destruct (IH (S k) (s <| lg ::= fun g => g <| lhblock := <[Z.to_nat (Z.of_nat k) :=
    hdr_block d (Z.of_nat k)]> (lhblock g) |> |>)) as (bs & R & Hlen & Hlo & Hhi).
  { cbn. rewrite length_insert. lia. }
  cbn in Hlen, Hlo. rewrite length_insert in Hlen. rewrite Nat2Z.id in *.
  exists bs. split_and!; [done|done| |].
  - intros j Hj. rewrite Hlo by lia. by rewrite list_lookup_insert_ne by lia.
  - intros j Hj. destruct (decide (j = k)) as [->|Hne]; [|apply Hhi; lia].
    rewrite Hlo by lia. apply list_lookup_insert_eq. lia.
Qed.

Lemma read_head_spec s V :
  bok (lb s) V [] [] -> ldev (lg s) = 1 -> disksize (lb s) < 2 ^ 31 ->
  0 <= lstart (lg s) < disksize (lb s) ->
  hdr_n (V (lstart (lg s))) <= Z.of_nat (length (lhblock (lg s))) ->
  exists t g, read_head lock_addr [] s = Ok tt [] (mkLst t g) /\ bok t V [] [] /\
    disksize t = disksize (lb s) /\ wtrace t = wtrace (lb s) /\
    lstart g = lstart (lg s) /\ ldev g = 1 /\ lhn g = hdr_n (V (lstart (lg s))) /\
    lsize g = lsize (lg s) /\ outstanding g = outstanding (lg s) /\ committing g = committing (lg s) /\
    length (lhblock g) = length (lhblock (lg s)) /\
    forall j n, homes (V (lstart (lg s))) !! j = Some n -> aget (lhblock g) (Z.of_nat j) = Some n.
Proof.
  intros Hok Hdev Hsz Hst Hn. unfold read_head. kstep. set (a := lstart (lg s)) in *.
  rewrite Hdev, (u32_small a) by lia.
  destruct (bread_spec lock_addr me mp (lb s) V [] [] a Hok Hst) as (i & s1 & R1 & _ & O1 & S1 & B1);
    [apply not_holding_nil|right; done|]. lbstep R1.
  erewrite bind_Ok by (eapply get_data_ok; exact S1). kstep.
  set (n := hdr_n (V a)) in *. unfold tails.
  destruct (read_entries (V a) 0 (Z.to_nat n) []
    (mkLst s1 ((lg s) <| lhn := n |>))) as (bs & R2 & Hlen & _ & Hbs); [cbn; lia|].
  erewrite bind_Ok by exact R2.
  destruct (brelse_spec lock_addr me mp s1 V [i] [] i a (V a) O1) as (s2 & R3 & O3 & B3 & _);
    [set_solver|done|right|].
  { rewrite (ob_disk _ _ _ B1). apply (bo_synced _ _ _ _ _ _ Hok); [set_solver|].
    by intros ? ? ?%elem_of_nil. }
  rewrite filter_single in O3. eexists s2, _. split; [erewrite zoom_Ok by exact R3; reflexivity|].
  cbn. split_and!; try done.
  - rewrite (ob_size _ _ _ B3). apply (ob_size _ _ _ B1).
  - rewrite (ob_trace _ _ _ B3). apply (ob_trace _ _ _ B1).
  - intros j m [Hj ->]%homes_lookup. rewrite aget_of_nat. apply Hbs. fold n in Hj. lia.
Qed.

(** *** Commit and recovery *)

(** The disk after recovery from a disk [D] whose log starts at [start]. *)
Definition recovery_writes (start : Z) (D : Z -> block) : list (Z * block) :=
  installs D (start + 1) (homes (D start)) ++ [(start, header (D start) [])].
Definition recovered (start : Z) (D : Z -> block) : Z -> block :=
  apply_writes (recovery_writes start D) D.

(** A header fit for recovery: its blocks are on the disk, outside the log. *)
Definition good_header (start size : Z) (D : Z -> block) : Prop :=
  0 <= hdr_n (D start) <= LOGSIZE /\ placed start size (homes (D start)).

(** The second half of a commit, which is all of a recovery but the reading
    of the header. *)
Lemma install_clear_spec s V P l :
  bok (lb s) V [] P -> ldev (lg s) = 1 -> lhn (lg s) = Z.of_nat (length l) ->
  (forall j n, l !! j = Some n -> aget (lhblock (lg s)) (Z.of_nat j) = Some n) ->
  placed (lstart (lg s)) (disksize (lb s)) l ->
  P = l /\ NoDup l /\ Z.of_nat (length l) < NBUF \/ P = [] ->
  exists t, (install_trans lock_addr ;; clear_n ;; write_head lock_addr) [] s =
      Ok tt [] (s <| lb := t |> <| lg ::= fun g => g <| lhn := 0 |> |>) /\
    bok t (apply_writes (installs V (lstart (lg s) + 1) l ++
      [(lstart (lg s), header (V (lstart (lg s))) [])]) V) [] [] /\
    disksize t = disksize (lb s) /\
    wtrace t = wtrace (lb s) ++ installs V (lstart (lg s) + 1) l ++
      [(lstart (lg s), header (V (lstart (lg s))) [])].
Proof.
  intros Hok Hdev Hn Hl [Hsz Hst Hend Hh] HP. set (a := lstart (lg s)) in *.
  assert (Hh' : Forall (fun n => ~ (a <= n <= a + Z.of_nat (length l))) l).
  { eapply Forall_impl; [exact Hh|]. by intros n [_ ?]. }
  destruct (install_loop s V P 0 l) as (t & R & O & Z1 & T); try done.
  { destruct HP as [[-> _] | ->]; [done|constructor]. }
  { destruct HP as [(-> & _ & ?) | ->]; done. }
  { destruct HP as [(-> & ? & _) | ->]; [by left|by right]. }
  unfold install_trans, tails. rewrite bind_assoc. kstep. rewrite Hn, Nat2Z.id.
  erewrite bind_Ok by exact R. unfold clear_n. kstep. rewrite Z.add_0_r in O, T. fold a in O, T.
  assert (HF : filter (fun m => m ∉ l) P = []).
  { destruct HP as [[-> _] | ->]; [apply filter_self_nil|done]. }
  rewrite HF in O. set (V1 := apply_writes _ V) in O.
  assert (HV1 : V1 a = V a).
  { apply apply_writes_other. rewrite installs_keys. rewrite Forall_forall in Hh'.
    intros Hin. specialize (Hh' _ Hin). lia. }
  destruct (write_head_spec (s <| lb := t |> <| lg ::= fun g => g <| lhn := 0 |> |>) V1 [] [])
    as (t' & R' & O' & Z' & T'); cbn; try done.
  { lia. } { fold a. lia. } { set_solver. }
  cbn in O', Z', T'. fold a in O', T'. rewrite HV1 in O', T'.
  exists t'. split_and!; [exact R'| |lia|by rewrite T', T, <- app_assoc].
  eapply bio_ok_ext; [exact O'| |done]. intros m. by rewrite apply_writes_app.
Qed.

Lemma recover_spec s V :
  bok (lb s) V [] [] -> ldev (lg s) = 1 -> length (lhblock (lg s)) = Z.to_nat LOGSIZE ->
  good_header (lstart (lg s)) (disksize (lb s)) V ->
  exists t g, recover_from_log lock_addr [] s = Ok tt [] (mkLst t g) /\
    bok t (recovered (lstart (lg s)) V) [] [] /\ disksize t = disksize (lb s) /\
    wtrace t = wtrace (lb s) ++ recovery_writes (lstart (lg s)) V /\
    lhn g = 0 /\ lstart g = lstart (lg s) /\ ldev g = 1 /\ lsize g = lsize (lg s) /\
    outstanding g = outstanding (lg s) /\ committing g = committing (lg s).
Proof.
  intros Hok Hdev Hlb [Hn Hp]. pose proof Hp as [Hsz Hst Hend _]. set (a := lstart (lg s)) in *.
  assert (Hll : Z.of_nat (length (homes (V a))) = hdr_n (V a)) by (rewrite homes_length; lia).
  destruct (read_head_spec s V)
    as (t1 & g1 & R1 & O1 & Z1 & T1 & Hs1 & Hd1 & Hn1 & Hz1 & Ho1 & Hc1 & Hlen1 & Hbl1);
    try done; fold a; [lia|rewrite Hlb; unfold LOGSIZE, MAXOPBLOCKS in *; lia|].
  unfold recover_from_log. erewrite bind_Ok by exact R1.
  destruct (install_clear_spec (mkLst t1 g1) V [] (homes (V a))) as (t2 & R2 & O2 & Z2 & T2);
    cbn; rewrite ?Z1, ?Hs1; try done; [by rewrite Hn1|by right|].
  cbn in R2, O2, Z2, T2. rewrite Hs1 in O2, T2. exists t2. eexists. split; [exact R2|].
  split_and!; try done; [congruence|by rewrite T2, T1].
Qed.

(** The writes of a commit of the blocks [l] with contents [V]: the copies in
    the log, the header (the commit point), the blocks themselves, and the
    header again, empty. *)
Definition home_writes (V : Z -> block) (l : list Z) : list (Z * block) := map (fun n => (n, V n)) l.
Definition commit_writes (start : Z) (V : Z -> block) (l : list Z) : list (Z * block) :=
  log_copies V (start + 1) l ++ (start, header (V start) l) ::
  home_writes V l ++ [(start, header (header (V start) l) [])].

Lemma home_writes_keys V l : (home_writes V l).*1 = l.
Proof. unfold home_writes. rewrite <- list_fmap_compose. apply list_fmap_id. Qed.

Lemma installs_home V D a l :
  (forall j n, l !! j = Some n -> D (a + Z.of_nat j) = V n) -> installs D a l = home_writes V l.
Proof.
  revert a. induction l as [|n l IH]; intros a H; [done|]. simpl.
  rewrite (IH (a + 1)); [|intros j m Hj; rewrite <- (H (S j) m) by done; f_equal; lia].
  by rewrite <- (H 0%nat n), Z.add_0_r by done.
Qed.

Lemma log_copies_at V D a l j n :
  l !! j = Some n -> apply_writes (log_copies V a l) D (a + Z.of_nat j) = V n.
Proof.
  revert a j D. induction l as [|m l IH]; intros a [|j] D H; simpl in *; try done.
  - injection H as ->. rewrite Z.add_0_r.
    rewrite apply_writes_other by (apply log_copies_fresh; lia). unfold vset. by rewrite Z.eqb_refl.
  - rewrite <- (IH (a + 1) j (vset D a (V m))) by done. f_equal. lia.
Qed.

Lemma commit_spec s V l :
  bok (lb s) V [] l -> ldev (lg s) = 1 -> lhn (lg s) = Z.of_nat (length l) -> l <> [] ->
  (forall j n, l !! j = Some n -> aget (lhblock (lg s)) (Z.of_nat j) = Some n) ->
  placed (lstart (lg s)) (disksize (lb s)) l -> NoDup l -> Z.of_nat (length l) < NBUF ->
  exists t, commit lock_addr [] s = Ok tt [] (s <| lb := t |> <| lg ::= fun g => g <| lhn := 0 |> |>) /\
    bok t (apply_writes (commit_writes (lstart (lg s)) V l) V) [] [] /\
    disksize t = disksize (lb s) /\
    wtrace t = wtrace (lb s) ++ commit_writes (lstart (lg s)) V l.
Proof.
  intros Hok Hdev Hn Hne Hl Hp Hnd Hroom. pose proof Hp as [Hsz Hst Hend Hh].
  set (a := lstart (lg s)) in *. rewrite Forall_forall in Hh.
  unfold commit. kstep. rewrite Hn.
  destruct (Z.gtb_spec (Z.of_nat (length l)) 0); [|destruct l; simpl in *; [done|lia]].
  destruct (write_log_loop s V l 0 l) as (t1 & R1 & O1 & Z1 & T1); try done.
  { rewrite Forall_forall. intros n Hn'. split; [by apply Hh|done]. }
  { rewrite Forall_forall. intros n Hn'. by apply Hh. }
  unfold write_log, tails. rewrite bind_assoc. kstep. rewrite Hn, Nat2Z.id. erewrite bind_Ok by exact R1.
  rewrite Z.add_0_r in O1, T1. fold a in O1, T1. set (V1 := apply_writes _ V) in O1.
  assert (HV1 : V1 a = V a) by (apply apply_writes_other, log_copies_fresh; lia).
  destruct (write_head_spec (s <| lb := t1 |>) V1 l l) as (t2 & R2 & O2 & Z2 & T2); cbn; try done.
  { lia. } { fold a. lia. } { intros Hin. destruct (Hh _ Hin) as [_ Hh']. fold a in Hh'. lia. }
  cbn in R2, O2, Z2, T2. fold a in O2, T2. rewrite HV1 in O2, T2. erewrite bind_Ok by exact R2.
  set (V2 := vset V1 a (header (V a) l)) in O2.
  destruct (install_clear_spec (s <| lb := t2 |>) V2 l l) as (t3 & R3 & O3 & Z3 & T3); cbn; try done.
  { by rewrite Z2, Z1. } { by left. }
  cbn in R3, O3, Z3, T3. fold a in O3, T3.
  assert (HV2 : installs V2 (a + 1) l = home_writes V l).
  { apply installs_home. intros j n Hj. unfold V2, vset. rewrite (proj2 (Z.eqb_neq _ _)) by lia.
    by apply log_copies_at. }
  assert (HVa : V2 a = header (V a) l) by (unfold V2, vset; by rewrite Z.eqb_refl).
  rewrite HV2, HVa in O3, T3. exists t3. split_and!; [exact R3| |lia|].
  - eapply bio_ok_ext; [exact O3| |done]. intros m. unfold commit_writes.
    by rewrite (apply_writes_app (log_copies _ _ _)).
  - rewrite T3, T2, T1. unfold commit_writes. by rewrite <- !app_assoc.
Qed.

End log.

End LogSpec.
