(* ===== verification/LogCrash.v ===== *)
(** The log's promises: a transaction's writes stay in the cache until the
    last operation ends, and reach the disk all or none, wherever the commit
    is cut by a crash. *)

From stdpp Require Import base numbers list sets strings.
From Stdlib Require Import ZArith Lia.
From S2P Require Import Prelude Mem CString Mmu Seg Kalloc Param Proc Sleeplock Bio BioSpec Log.
From S2P Require Import LogSpec.
Import CString Mmu Seg Kalloc Param Proc Sleeplock Bio BioSpec Log LogSpec.

Module LogCrash.

(** *** The disk when a commit is cut short *)

(** The blocks of the log itself: the header and [len] copies. *)
Definition in_area (start len n : Z) : Prop := start <= n <= start + len.

Lemma home_writes_at V D l n : n ∈ l -> apply_writes (home_writes V l) D n = V n.
Proof.
  induction l as [|m l IH] using rev_ind; intros Hn; [by apply elem_of_nil in Hn|].
  unfold home_writes in *. rewrite map_app, apply_writes_app. simpl. unfold vset at 1. simpl.
  destruct (Z.eqb_spec n m) as [->|Hne]; [done|]. apply IH. set_solver.
Qed.

Lemma take_keys k (W : list (Z * block)) n : n ∉ W.*1 -> n ∉ (take k W).*1.
Proof. rewrite fmap_take. intros Hn Hin. by apply Hn, (subseteq_take k). Qed.

(** Recovery of a disk whose header is empty leaves all but the header. *)
Lemma recovered_empty start D n :
  homes (D start) = [] -> n <> start -> recovered start D n = D n.
Proof.
  intros H Hn. unfold recovered, recovery_writes. rewrite H. simpl. unfold vset. simpl.
  by rewrite (proj2 (Z.eqb_neq _ _) Hn).
Qed.

(** Recovery of a disk whose header lists [l], with the copies of [V]. *)
Lemma recovered_full start D V l n :
  homes (D start) = l -> (forall j m, l !! j = Some m -> D (start + 1 + Z.of_nat j) = V m) ->
  (n ∉ l -> D n = V n) -> n <> start -> recovered start D n = V n.
Proof.
  intros Hl HD Hn Hns. unfold recovered, recovery_writes. rewrite Hl, (installs_home V) by done.
  rewrite apply_writes_app. simpl. unfold vset. simpl. rewrite (proj2 (Z.eqb_neq _ _) Hns).
  destruct (decide (n ∈ l)) as [Hin|Hout]; [by apply home_writes_at|].
  rewrite apply_writes_other; [auto|by rewrite home_writes_keys].
Qed.

Section crash.
Context (start size : Z) (D V : Z -> block) (l : list Z).
Context (Hold : forall n, n ∉ l -> D n = V n) (Hempty : hdr_n (D start) = 0).
Context (Hp : placed start size l) (Hlen : Z.of_nat (length l) <= LOGSIZE).

Lemma start_notin : start ∉ l.
Proof.
  destruct Hp as [_ _ _ Hh]. rewrite Forall_forall in Hh. intros Hin. specialize (Hh _ Hin). lia.
Qed.

Lemma homes_small : Forall (fun n => 0 <= n < 2 ^ 31) l.
Proof. destruct Hp as [? _ _ Hh]. eapply Forall_impl; [exact Hh|]. intros n [? _]. lia. Qed.

Lemma len_small : Z.of_nat (length l) < 2 ^ 31.
Proof. unfold LOGSIZE, MAXOPBLOCKS in Hlen. lia. Qed.

Lemma homes_zero d : hdr_n d = 0 -> homes d = [].
Proof. intros H. unfold homes. by rewrite H. Qed.

(** What recovery finds after the first [k] writes of a commit. *)
Inductive cut (D1 : Z -> block) : Prop :=
| cut_before : homes (D1 start) = [] -> hdr_n (D1 start) = 0 ->
    (forall n, ~ in_area start (Z.of_nat (length l)) n -> D1 n = D n) -> cut D1
| cut_during : D1 start = header (V start) l ->
    (forall j m, l !! j = Some m -> D1 (start + 1 + Z.of_nat j) = V m) ->
    (forall n, n ∉ l -> ~ in_area start (Z.of_nat (length l)) n -> D1 n = V n) -> cut D1
| cut_after : homes (D1 start) = [] -> hdr_n (D1 start) = 0 ->
    (forall n, ~ in_area start (Z.of_nat (length l)) n -> D1 n = V n) -> cut D1.

Lemma commit_cut k : cut (apply_writes (take k (commit_writes start V l)) D).
Proof.
  pose proof start_notin as Hns. unfold commit_writes. rewrite take_app, apply_writes_app.
  set (C := log_copies V (start + 1) l).
  assert (HC : forall n, ~ in_area start (Z.of_nat (length l)) n \/ n = start -> n ∉ C.*1).
  { intros n Hn. apply log_copies_fresh. unfold in_area in Hn. lia. }
  destruct (k - length C)%nat as [|k'] eqn:Hk; simpl.
  { assert (Hs : apply_writes (take k C) D start = D start).
    { apply apply_writes_other, take_keys, HC. by right. }
    apply cut_before; rewrite ?Hs; [by apply homes_zero|done|].
    intros n Hn. apply apply_writes_other, take_keys, HC. by left. }
  rewrite (take_ge C k) by lia. set (D1 := vset (apply_writes C D) start (header (V start) l)).
  assert (HD1 : forall n, n <> start -> D1 n = apply_writes C D n).
  { intros n Hn. unfold D1, vset. by rewrite (proj2 (Z.eqb_neq _ _) Hn). }
  assert (HDs : D1 start = header (V start) l) by (unfold D1, vset; by rewrite Z.eqb_refl).
  rewrite take_app, apply_writes_app. set (H1 := take k' (home_writes V l)).
  assert (HH : forall n, n ∉ l -> apply_writes H1 D1 n = D1 n).
  { intros n Hn. apply apply_writes_other, take_keys. by rewrite home_writes_keys. }
  destruct (k' - length (home_writes V l))%nat as [|k''] eqn:Hk'; simpl.
  - apply cut_during; [by rewrite HH| |].
    + intros j m Hj. rewrite HH.
      * rewrite HD1 by lia. by apply log_copies_at.
      * destruct Hp as [_ _ _ Hh]. rewrite Forall_forall in Hh. intros Hin. specialize (Hh _ Hin).
        apply lookup_lt_Some in Hj. lia.
    + intros n Hn Ha. rewrite HH, HD1 by (done || (unfold in_area in Ha; lia)).
      rewrite apply_writes_other by (apply HC; by left). by apply Hold.
  - unfold H1. rewrite (take_ge (home_writes V l)), take_nil by lia. simpl.
    assert (Hn0 : hdr_n (header (header (V start) l) []) = 0) by (rewrite header_n; done).
    apply cut_after; unfold vset; rewrite ?Z.eqb_refl; [by apply homes_zero|done|].
    intros n Ha. rewrite (proj2 (Z.eqb_neq _ _)) by (unfold in_area in Ha; simpl; lia).
    destruct (decide (n ∈ l)) as [Hin|Hout]; [by apply home_writes_at|].
    rewrite apply_writes_other by (by rewrite home_writes_keys).
    rewrite HD1 by (unfold in_area in Ha; lia).
    rewrite apply_writes_other by (apply HC; by left). by apply Hold.
Qed.

Lemma cut_good D1 : cut D1 -> good_header start size D1.
Proof.
  assert (Hz : homes (D1 start) = [] -> hdr_n (D1 start) = 0 -> good_header start size D1).
  { intros H1 H2. destruct Hp as [? ? ? _].
    split; [rewrite H2; done|]. rewrite H1. split; simpl; [lia..|constructor]. }
  intros [? ? _|Hs _ _|? ? _]; try by apply Hz.
  unfold good_header. rewrite Hs, header_n, homes_header by (apply len_small || apply homes_small).
  split; [lia|done].
Qed.

Lemma cut_keeps D1 n :
  cut D1 -> n ∉ l -> ~ in_area start (Z.of_nat (length l)) n -> D1 n = D n.
Proof. intros [_ _ HD|_ _ HD|_ _ HD] Hn Ha; rewrite HD, ?Hold; auto. Qed.

Lemma cut_all_or_none D1 :
  cut D1 ->
  (forall n, ~ in_area start (Z.of_nat (length l)) n -> recovered start D1 n = D n) \/
  (forall n, ~ in_area start (Z.of_nat (length l)) n -> recovered start D1 n = V n).
Proof.
  assert (Hns : forall n, ~ in_area start (Z.of_nat (length l)) n -> n <> start).
  { unfold in_area. lia. }
  intros [H _ HD|Hs Hc HD|H _ HD].
  - left. intros n Hn. rewrite recovered_empty by auto. auto.
  - right. intros n Hn. apply (recovered_full _ _ _ l); auto.
    rewrite Hs. apply homes_header; [apply len_small|apply homes_small].
  - right. intros n Hn. rewrite recovered_empty by auto. auto.
Qed.

End crash.

(** The disk when the commit has run to its end. *)
Lemma commit_final V D l start size n :
  placed start size l -> (n ∉ l -> D n = V n) -> ~ in_area start (Z.of_nat (length l)) n ->
  apply_writes (commit_writes start V l) D n = V n.
Proof.
  intros Hp Hn Ha. unfold in_area in Ha. unfold commit_writes. rewrite apply_writes_app. simpl.
  rewrite apply_writes_app. simpl. unfold vset at 1. simpl. rewrite (proj2 (Z.eqb_neq n start)) by lia.
  destruct (decide (n ∈ l)) as [Hin|Hout]; [by apply home_writes_at|].
  rewrite apply_writes_other by (by rewrite home_writes_keys). unfold vset.
  rewrite (proj2 (Z.eqb_neq n start)) by lia.
  rewrite apply_writes_other by (apply log_copies_fresh; lia). auto.
Qed.

(** *** Transactions *)

Section txn.
Variables (lock_addr : nat -> Z) (log_addr : Z) (swtch : K lst unit).

(** The log and the cache in a transaction that has logged the blocks [l]:
    [V] is what readers of the cache see, [H] the buffers held. *)
Record in_txn (me : nat) (mp : Z) (s : lst) (V : Z -> block) (H : list nat) (l : list Z) : Prop := {
  it_cache : bio_ok me mp (lb s) V H l;
  it_dev : ldev (lg s) = 1;
  it_n : lhn (lg s) = Z.of_nat (length l);
  it_blocks : forall j n, l !! j = Some n -> lhblock (lg s) !! j = Some n;
  it_len : length (lhblock (lg s)) = Z.to_nat LOGSIZE;
  it_size : lsize (lg s) <= LOGSIZE;
  it_fits : Z.of_nat (length l) <= lsize (lg s) - 1;
  it_area : 0 <= lstart (lg s) /\ lstart (lg s) + lsize (lg s) <= disksize (lb s) < 2 ^ 31;
  it_homes : Forall (fun n => 0 <= n < disksize (lb s) /\
    ~ in_area (lstart (lg s)) (lsize (lg s) - 1) n) l;
  it_nodup : NoDup l
}.

Section caller.
Variables (me : nat) (mp : Z).

Lemma in_txn_placed s V H l : in_txn me mp s V H l -> placed (lstart (lg s)) (disksize (lb s)) l.
Proof.
  intros [? ? ? ? ? ? Hf [? ?] Hh _]. split; [lia..|].
  eapply Forall_impl; [exact Hh|]. unfold in_area. intros n [? ?]. lia.
Qed.

Lemma in_txn_room s V H l : in_txn me mp s V H l -> Z.of_nat (length l) < NBUF.
Proof. intros [? ? ? ? ? ? Hf _ _ _]. unfold NBUF, LOGSIZE, MAXOPBLOCKS in *. lia. Qed.

(** The blocks logged after [n] is. *)
Definition log_add (l : list Z) (n : Z) : list Z := if decide (n ∈ l) then l else l ++ [n].

Lemma elem_of_log_add l n m : m ∈ log_add l n <-> m = n \/ m ∈ l.
Proof. clear lock_addr log_addr swtch me mp. unfold log_add. case_decide; set_solver. Qed.

Lemma absorb_spec bs l n i :
  (forall j m, l !! j = Some m -> bs !! j = Some m) ->
  exists k, absorb bs (length l) n i = (i + k)%nat /\
    (l !! k = Some n \/ k = length l /\ n ∉ l).
Proof.
  revert bs i. induction l as [|m l IH]; intros bs i Hl.
  { exists 0%nat. destruct bs; simpl; split; [lia|right; set_solver|lia|right; set_solver]. }
  destruct bs as [|x bs]; [by specialize (Hl 0%nat m eq_refl)|].
  assert (x = m) as -> by (specialize (Hl 0%nat m eq_refl); simpl in Hl; congruence).
  simpl. destruct (Z.eqb_spec m n) as [->|Hne]; [exists 0%nat; split; [lia|by left]|].
  destruct (IH bs (S i)) as (k & -> & Hk); [by intros j y Hy; apply (Hl (S j))|].
  exists (S k). split; [lia|]. destruct Hk as [Hk|[-> Hk]]; [by left|right].
  split; [done|]. set_solver.
Qed.

(** Entering a block in the table of the header. *)
Lemma log_add_blocks l n bs k :
  (forall j m, l !! j = Some m -> bs !! j = Some m) -> (length l < length bs)%nat ->
  l !! k = Some n \/ k = length l /\ n ∉ l ->
  (forall j m, log_add l n !! j = Some m -> <[k := n]> bs !! j = Some m) /\
  (if (Z.of_nat k =? Z.of_nat (length l)) then Z.of_nat (length l) + 1 else Z.of_nat (length l)) =
    Z.of_nat (length (log_add l n)).
Proof.
  intros Hl Hlen [Hk|[-> Hn]]; unfold log_add.
  - rewrite decide_True by by eapply list_elem_of_lookup_2.
    pose proof (lookup_lt_Some _ _ _ Hk). destruct (Z.eqb_spec (Z.of_nat k) (Z.of_nat (length l))); [lia|].
    split; [|done]. intros j m Hj. destruct (decide (j = k)) as [->|].
    + rewrite list_lookup_insert_eq by lia. congruence.
    + rewrite list_lookup_insert_ne by done. auto.
  - rewrite decide_False by done. rewrite Z.eqb_refl, length_app. simpl. split; [|lia].
    intros j m [Hj|[Hlo Hj]]%lookup_app_Some.
    + rewrite list_lookup_insert_ne by (apply lookup_lt_Some in Hj; lia). auto.
    + apply list_lookup_singleton_Some in Hj as [Hj ->].
      replace j with (length l) by lia. by apply list_lookup_insert_eq.
Qed.

(** [log_write] on one of the buffers held. *)
Lemma log_write_spec s V H i n d l :
  in_txn me mp s V H l -> i ∈ H -> shows (lb s) i n d ->
  0 <= n < disksize (lb s) -> ~ in_area (lstart (lg s)) (lsize (lg s) - 1) n ->
  1 <= outstanding (lg s) -> Z.of_nat (length l) < lsize (lg s) - 1 ->
  exists s', log_write i [] s = Ok tt [] s' /\ in_txn me mp s' V H (log_add l n) /\
    shows (lb s') i n d /\ only_buf i (lb s) (lb s') /\
    lg s' = (lg s) <| lhn := lhn (lg s') |> <| lhblock := lhblock (lg s') |>.
Proof.
  intros Ht HiH Hi Hn Ha Hop Hroom.
  pose proof Ht as [Hc Hd Hln Hbl Hlen Hsz Hf [Hst Hend] Hh Hnd].
  assert (Hnd' : NoDup (log_add l n)).
  { unfold log_add. case_decide; [done|]. apply NoDup_app. split_and!; [done|set_solver|apply NoDup_singleton]. }
  assert (Hlt : (length l < length (lhblock (lg s)))%nat) by lia.
  destruct (absorb_spec (lhblock (lg s)) l n 0 Hbl) as (k & Hk & Hkl). simpl in Hk.
  destruct (log_add_blocks l n (lhblock (lg s)) k Hbl Hlt Hkl) as [Hbl' Hn'].
  assert (Hkr : (k <= length l)%nat) by (destruct Hkl as [?%lookup_lt_Some|[-> _]]; lia).
  destruct (set_dirty_spec lock_addr me mp (lb s) V H l (log_add l n) i n d Hc)
    as (t & R & O & S & B); [done|done|apply elem_of_log_add|].
  unfold log_write. kstep. rewrite Hln. unfold LOGSIZE, MAXOPBLOCKS in *.
  destruct (Z.leb_spec (10 * 3) (Z.of_nat (length l))); [lia|].
  destruct (Z.leb_spec (lsize (lg s) - 1) (Z.of_nat (length l))); [lia|].
  destruct (Z.ltb_spec (outstanding (lg s)) 1); [lia|]. cbn [orb].
  destruct Hi as (b & Hb & Hbn & Hbd). kstep.
  erewrite bind_Ok by (apply zoom_Ok, get_buf_ok; exact Hb).
  rewrite Hbn, (i32_small n) by lia. rewrite Nat2Z.id, Hk, aset_in by lia. rewrite Nat2Z.id.
  kstep. kstep.
  set (g' := (lg s) <| lhblock := <[k := n]> (lhblock (lg s)) |>
    <| lhn := Z.of_nat (length (log_add l n)) |>).
  erewrite (bind_Ok _ _ _ _ tt [Llog] (mkLst (lb s) g')).
  2: { unfold g'. rewrite <- Hn', <- Hln. destruct (Z.of_nat k =? lhn (lg s)); [|by destruct s as [? []]].
       unfold modify. rewrite <- (i32_small (lhn (lg s) + 1)) by lia. done. }
  erewrite bind_Ok by (apply zoom_Ok, R). rewrite release_top by set_solver.
  eexists. split; [reflexivity|].
  split; [|done]. split; cbn; rewrite ?(ob_size _ _ _ B), ?length_insert; try done.
  - rewrite <- Hn'. destruct (Z.of_nat k =? _); lia.
  - rewrite Forall_forall in Hh |- *. intros m [-> | Hm]%elem_of_log_add; auto.
Qed.

(** [log_write] on a buffer the caller holds records its block in the header
    once, however often it is written, pins the buffer in the cache, and
    writes nothing to the disk; the transaction keeps its invariant. *)
Theorem log_write_records s V i n d l
  (Ht : in_txn me mp s V [i] l) (Hi : shows (lb s) i n d)
  (Hn : 0 <= n < disksize (lb s)) (Ha : ~ in_area (lstart (lg s)) (lsize (lg s) - 1) n)
  (Hop : 1 <= outstanding (lg s)) (Hroom : Z.of_nat (length l) < lsize (lg s) - 1) :
  exists s', log_write i [] s = Ok tt [] s' /\ in_txn me mp s' V [i] (log_add l n) /\
    NoDup (log_add l n) /\ shows (lb s') i n d /\ outstanding (lg s') = outstanding (lg s) /\
    disk (lb s') = disk (lb s) /\ wtrace (lb s') = wtrace (lb s).
Proof.
  destruct (log_write_spec s V [i] i n d l Ht ltac:(set_solver) Hi Hn Ha Hop Hroom)
    as (s' & R & Ht' & S & B & E).
  exists s'. split; [done|]. split; [done|]. split; [apply Ht'|]. split; [done|].
  split; [by rewrite E|]. split; [apply B|apply B].
Qed.

(** [begin_op] admits an operation exactly when no commit is under way and
    [MAXOPBLOCKS] blocks for it and for every outstanding operation fit in
    what is left of [LOGSIZE]; otherwise the caller goes to sleep on the log
    with the log's lock released, and its process is asleep there before any
    other process can run. *)
Theorem begin_op_admits s p f
  (Hr : running me p (lbk s)) (Ho : 0 <= outstanding (lg s) < 2 ^ 31 - 1) :
  (committing (lg s) = 0 /\ lhn (lg s) + (outstanding (lg s) + 1) * MAXOPBLOCKS <= LOGSIZE ->
   begin_op log_addr swtch (S f) [] s =
     Ok tt [] (s <| lg ::= fun g => g <| outstanding := outstanding g + 1 |> |>)) /\
  (~ (committing (lg s) = 0 /\ lhn (lg s) + (outstanding (lg s) + 1) * MAXOPBLOCKS <= LOGSIZE) ->
   (forall t, swtch [Lptable] t = Sleep log_addr [Lptable] t) ->
   begin_op log_addr swtch (S f) [] s =
     Sleep log_addr [Lptable] (s <| lb ::= fun b => b <| bk ::= at_sleep log_addr me p |> |>)).
Proof.
  set (t := s <| lb ::= fun b => b <| bk ::= at_sleep log_addr me p |> |>).
  assert (Hsleep : swtch [Lptable] t = Sleep log_addr [Lptable] t ->
    (sleep_in lbk swtch log_addr Llog ;; begin_loop log_addr swtch f) [Llog] s =
      Sleep log_addr [Lptable] t).
  { intros Hsw. unfold sleep_in. rewrite bind_assoc.
    erewrite (bind_Ok _ _ _ _ me [Lptable] t) by
      exact (zoom_Ok lbk _ _ _ _ _ _ (sleep_pre_ok log_addr Llog me p (lbk s) Hr)).
    rewrite bind_assoc. unfold mbind, K_bind. by rewrite Hsw. }
  unfold begin_op. kstep. cbn [begin_loop]. kstep. unfold nz.
  destruct (Z.eqb_spec (committing (lg s)) 0) as [Hc|Hc]; cbn [negb];
    destruct (Z.gtb_spec (lhn (lg s) + (outstanding (lg s) + 1) * MAXOPBLOCKS) LOGSIZE) as [Hg|Hg];
    (split; [intros [? ?]|intros Hno Hsw]); try lia; try (by apply Hsleep).
  kstep. rewrite release_top by set_solver. cbn. by rewrite i32_small by lia.
Qed.

Lemma wakeup_log s V H P L :
  bio_ok me mp (lb s) V H P -> Lptable ∉ L ->
  exists k, zoom lbk (wakeup log_addr) L s = Ok tt L (s <| lb ::= fun b => b <| bk := k |> |>) /\
    bio_ok me mp ((lb s) <| bk := k |>) V H P.
Proof.
  intros Hok HL. destruct (bo_run _ _ _ _ _ _ Hok) as (p & Hr & Hpid).
  destruct (wakeup_running log_addr L (bk (lb s)) me p HL Hr) as (k & R & Hr' & _).
  exists k. split; [by erewrite zoom_Ok by exact R|]. destruct Hok. split; cbn; eauto.
Qed.

(** What the end of the last operation of a transaction does. *)
Lemma end_op_spec s V l :
  in_txn me mp s V [] l -> l <> [] -> outstanding (lg s) = 1 -> committing (lg s) = 0 ->
  exists s', end_op lock_addr log_addr [] s = Ok tt [] s' /\
    bio_ok me mp (lb s') (apply_writes (commit_writes (lstart (lg s)) V l) V) [] [] /\
    wtrace (lb s') = wtrace (lb s) ++ commit_writes (lstart (lg s)) V l /\
    disksize (lb s') = disksize (lb s) /\
    lg s' = (lg s) <| outstanding := 0 |> <| committing := 0 |> <| lhn := 0 |>.
Proof.
  intros Ht Hne Ho Hcm. pose proof Ht as [Hc Hd Hln Hbl _ _ _ _ _ Hnd].
  pose proof (in_txn_placed _ _ _ _ Ht) as Hp. pose proof (in_txn_room _ _ _ _ Ht) as Hroom.
  set (s1 := mkLst (lb s) ((lg s) <| outstanding := 0 |> <| committing := 1 |>)).
  destruct (commit_spec lock_addr me mp s1 V l) as (t & R & O & Z1 & T); try done.
  { intros j n Hj. rewrite aget_of_nat. by apply Hbl. }
  set (s2 := s1 <| lb := t |> <| lg ::= fun g => g <| lhn := 0 |> |>) in R.
  set (s3 := s2 <| lg ::= fun g => g <| committing := 0 |> |>).
  destruct (wakeup_log s3 _ [] [] [Llog] O) as (k & Rw & Ow); [set_solver|].
  exists (s3 <| lb ::= fun b => b <| bk := k |> |>). split; [|done].
  unfold end_op. kstep.
  set (s0 := mkLst (lb s) ((lg s) <| outstanding := 0 |>)).
  erewrite (bind_Ok _ _ _ _ tt [Llog] s0) by (unfold modify; cbn; by rewrite Ho).
  kstep. change (outstanding (lg s0) =? 0) with true. change (committing (lg s0)) with (committing (lg s)).
  rewrite Hcm. cbn [nz Z.eqb negb]. cbv iota. kstep. kstep.
  erewrite bind_Ok by exact R. kstep.
  erewrite (bind_Ok _ _ _ _ tt [Llog] s3) by done. erewrite bind_Ok by exact Rw.
  by rewrite release_top by set_solver.
Qed.

Lemma readsb_spec s V :
  bio_ok me mp (lb s) V [] [] -> 1 < disksize (lb s) ->
  exists t, readsb lock_addr 1 [] s = Ok (load_sb (V 1)) [] (s <| lb := t |>) /\
    bio_ok me mp t V [] [] /\ disksize t = disksize (lb s) /\ wtrace t = wtrace (lb s).
Proof.
  intros Hok Hsz. unfold readsb.
  destruct (bread_spec lock_addr me mp (lb s) V [] [] 1 Hok) as (i & s1 & R1 & _ & O1 & S1 & B1);
    [lia|apply not_holding_nil|right; done|]. erewrite bind_Ok by (apply zoom_Ok; exact R1).
  erewrite bind_Ok by (eapply get_data_ok; exact S1).
  destruct (brelse_spec lock_addr me mp s1 V [i] [] i 1 (V 1) O1) as (s2 & R3 & O3 & B3 & _);
    [set_solver|done|right|].
  { rewrite (ob_disk _ _ _ B1). apply (bo_synced _ _ _ _ _ _ Hok); [set_solver|].
    by intros ? ? ?%elem_of_nil. }
  rewrite filter_single in O3. exists s2. split; [by erewrite bind_Ok by (apply zoom_Ok; exact R3)|].
  split_and!; [done| |].
  - rewrite (ob_size _ _ _ B3). apply (ob_size _ _ _ B1).
  - rewrite (ob_trace _ _ _ B3). apply (ob_trace _ _ _ B1).
Qed.

Lemma initlog_spec s V start :
  bio_ok me mp (lb s) V [] [] -> 1 < disksize (lb s) ->
  length (lhblock (lg s)) = Z.to_nat LOGSIZE ->
  start = i32 (sb_logstart (load_sb (V 1))) -> good_header start (disksize (lb s)) V ->
  exists s', initlog lock_addr 1 [] s = Ok tt [] s' /\
    bio_ok me mp (lb s') (recovered start V) [] [] /\ lhn (lg s') = 0.
Proof.
  intros Hok Hsz Hlen Hst Hg. destruct (readsb_spec s V Hok Hsz) as (t & R & O & Z1 & T).
  unfold initlog. change (BSIZE <=? sizeof_logheader) with false. cbv iota.
  erewrite bind_Ok by exact R. kstep. rewrite <- Hst.
  set (s1 := s <| lb := t |> <| lg ::= _ |>).
  destruct (recover_spec lock_addr me mp s1 V) as (t' & g' & R' & O' & _ & _ & Hn & _); try done.
  { by rewrite <- Z1 in Hg. }
  by exists (mkLst t' g').
Qed.

End caller.

(** C1: The last operation of a transaction commits it, and the commit is atomic.
    [end_op] returns with the log empty and every block at home on the disk;
    and if the machine stops after any number [k] of the block writes it does,
    then [initlog] on the disk as those writes left it, with an empty cache,
    recovers, outside the log, either exactly the disk before [end_op] or
    exactly the blocks the transaction wrote. *)
Theorem end_op_atomic me mp s V l
  (Ht : in_txn me mp s V [] l) (Hne : l <> [])
  (Ho : outstanding (lg s) = 1) (Hcm : committing (lg s) = 0)
  (Hempty : hdr_n (disk (lb s) (lstart (lg s))) = 0)
  (Hsb : i32 (sb_logstart (load_sb (disk (lb s) 1))) = lstart (lg s))
  (H1 : ~ in_area (lstart (lg s)) (Z.of_nat (length l)) 1) (H1l : 1 ∉ l) :
  exists s' W, end_op lock_addr log_addr [] s = Ok tt [] s' /\
    lg s' = (lg s) <| outstanding := 0 |> <| committing := 0 |> <| lhn := 0 |> /\
    wtrace (lb s') = wtrace (lb s) ++ W /\
    (forall n, ~ in_area (lstart (lg s)) (Z.of_nat (length l)) n -> disk (lb s') n = V n) /\
    forall k me' mp' r, bio_ok me' mp' (lb r) (apply_writes (take k W) (disk (lb s))) [] [] ->
      disksize (lb r) = disksize (lb s) -> length (lhblock (lg r)) = Z.to_nat LOGSIZE ->
      exists r', initlog lock_addr 1 [] r = Ok tt [] r' /\ lhn (lg r') = 0 /\
        ((forall n, ~ in_area (lstart (lg s)) (Z.of_nat (length l)) n ->
            disk (lb r') n = disk (lb s) n) \/
         (forall n, ~ in_area (lstart (lg s)) (Z.of_nat (length l)) n -> disk (lb r') n = V n)).
Proof.
  destruct (end_op_spec me mp s V l Ht Hne Ho Hcm) as (s' & R & O & T & _ & Hg).
  pose proof (in_txn_placed _ _ _ _ _ _ Ht) as Hp. pose proof Ht as [Hc _ _ _ _ ? ? [? ?] _ _].
  assert (Hlen : Z.of_nat (length l) <= LOGSIZE) by lia.
  assert (Hold : forall n, n ∉ l -> disk (lb s) n = V n).
  { intros n Hn. symmetry. apply (bo_synced _ _ _ _ _ _ Hc); [done|]. by intros ? ? ?%elem_of_nil. }
  assert (Hdisk : forall mm mm' t U n, bio_ok mm mm' t U [] [] -> disk t n = U n).
  { intros ?? t U n Hok. symmetry. apply (bo_synced _ _ _ _ _ _ Hok); [set_solver|].
    by intros ? ? ?%elem_of_nil. }
  exists s', (commit_writes (lstart (lg s)) V l). split_and!; [done|done|done| |].
  - intros n Hn. erewrite Hdisk by exact O.
    by eapply commit_final.
  - intros k me' mp' r Hr Hsz Hbl.
    pose proof (commit_cut _ _ _ V l Hold Hempty Hp k) as Hcut.
    destruct (initlog_spec me' mp' r _ (lstart (lg s)) Hr) as (r' & Rr & Or & Hn0); [|done| | |].
    { rewrite Hsz. unfold in_area in H1. destruct l; simpl in *; [done|lia]. }
    { erewrite cut_keeps by eauto. done. }
    { rewrite Hsz. by eapply cut_good. }
    exists r'. split_and!; [done..|].
    destruct (cut_all_or_none _ _ _ _ l Hp Hlen _ Hcut) as [HD|HV]; [left|right]; intros n Hn;
      erewrite Hdisk by exact Or; auto.
Qed.

End txn.

(** *** Concrete runs *)

(** The disk of a file system with its log at block 2, and a transaction that
    has written block 40. *)
Definition demo_disk : Z -> block := vset (fun _ _ => 0) 1 (store32 (fun _ => 0) 16 2).
Definition demo_log (n : Z) (l : list Z) : log := mkLog 2 LOGSIZE 1 0 1 n (l ++ replicate (30 - length l) 0).
Definition demo_view : Z -> block := vset demo_disk 40 (fun _ => 7).
Definition demo_txn : lst := mkLst (cache_with [dirty_buf 40 (fun _ => 7)] demo_disk 1000) (demo_log 1 [40]).

Lemma demo_in_txn : in_txn 0 2 demo_txn demo_view [] [40].
Proof.
  split; try done.
  - apply one_dirty_ok.
  - by intros [|j] n; cbn; intros [= <-].
  - constructor; [|constructor]. cbn. split; [lia|]. unfold in_area, LOGSIZE, MAXOPBLOCKS. lia.
  - apply NoDup_singleton.
Qed.

Lemma end_op_atomic_witness :
  exists s' W, end_op (fun i => 100 + Z.of_nat i) 50 [] demo_txn = Ok tt [] s' /\
    lg s' = (demo_log 0 [40]) <| outstanding := 0 |> /\ wtrace (lb s') = W /\
    (forall n, ~ in_area 2 1 n -> disk (lb s') n = demo_view n) /\
    forall k me' mp' r, bio_ok me' mp' (lb r) (apply_writes (take k W) demo_disk) [] [] ->
      disksize (lb r) = 1000 -> length (lhblock (lg r)) = Z.to_nat LOGSIZE ->
      exists r', initlog (fun i => 100 + Z.of_nat i) 1 [] r = Ok tt [] r' /\ lhn (lg r') = 0 /\
        ((forall n, ~ in_area 2 1 n -> disk (lb r') n = demo_disk n) \/
         (forall n, ~ in_area 2 1 n -> disk (lb r') n = demo_view n)).
Proof.
  apply (end_op_atomic (fun i => 100 + Z.of_nat i) 50 0 2 demo_txn demo_view [40] demo_in_txn);
    try done; [unfold in_area; cbn; lia|set_solver].
Defined.

(** The first write of a transaction, of block 40. *)
Definition held_buf (n : Z) (d : block) : buf := mkBuf 2 1 n (mkSleeplock 1 2) 1 d.
Definition demo_held : lst := mkLst (cache_with [held_buf 40 (fun _ => 7)] demo_disk 1000) (demo_log 0 []).

Lemma demo_held_in_txn : in_txn 0 2 demo_held demo_view [0%nat] [].
Proof.
  assert (Hb : forall i b, bufs (lb demo_held) !! i = Some b ->
    i = 0%nat /\ b = held_buf 40 (fun _ => 7) \/ b = blank_buf).
  { intros [|i] b; cbn [demo_held lb cache_with bufs app]; [by intros [= <-]; left|].
    rewrite <- lookup_tail. intros [? _]%lookup_replicate. by right. }
  split; try done; [|constructor..]. split; cbn [demo_held lb cache_with order disk bk disksize]; try done.
  - intros i b [[_ ->] | ->]%Hb; [by right; left|by left].
  - by intros i j b c [[-> ->] | ->]%Hb [[-> ->] | ->]%Hb ? ? ?.
  - intros i ->%list_elem_of_singleton. by exists (held_buf 40 (fun _ => 7)).
  - intros i b [[-> ->] | ->]%Hb ?; [set_solver|done].
  - by intros i b [[_ ->] | ->]%Hb ? ?.
  - intros n. split; [by intros ?%elem_of_nil|]. by intros (i & b & [[_ ->] | ->]%Hb & ? & ? & _).
  - intros n _ Hn. unfold demo_view, vset. specialize (Hn 0%nat _ ltac:(set_solver) eq_refl). cbn in Hn.
    by rewrite (proj2 (Z.eqb_neq n 40)).
  - apply NoDup_singleton.
  - exists runner. split; [apply running_machine|done].
Qed.

Lemma log_write_records_witness :
  exists s', log_write 0 [] demo_held = Ok tt [] s' /\ in_txn 0 2 s' demo_view [0%nat] [40] /\
    NoDup [40] /\ shows (lb s') 0 40 (fun _ => 7) /\ outstanding (lg s') = 1 /\
    disk (lb s') = demo_disk /\ wtrace (lb s') = [].
Proof.
  apply (log_write_records (fun i => 100 + Z.of_nat i) 0 2 demo_held demo_view 0%nat 40 (fun _ => 7) []
    demo_held_in_txn); try done.
  - by exists (held_buf 40 (fun _ => 7)).
  - unfold in_area. cbn. unfold LOGSIZE, MAXOPBLOCKS. lia.
Defined.

Lemma begin_op_admits_witness :
  let s := mkLst (cache_with [] demo_disk 1000) (demo_log 11 []) in
  begin_op 50 (fun l t => Sleep 50 l t) 1 [] s =
    Sleep 50 [Lptable] (s <| lb ::= fun b => b <| bk ::= at_sleep 50 0 runner |> |>).
Proof.
  intros s. apply (begin_op_admits 50 (fun l t => Sleep 50 l t) 0 s runner 0); [apply running_machine|done| |done].
  cbn. unfold LOGSIZE, MAXOPBLOCKS. lia.
Defined.

End LogCrash.
