(* ===== verification/Inode.v ===== *)
(** Blocks and inodes of the file system (fs.c, fs.h, file.h): the block
    allocator, the inode cache, and the mapping from file offsets to blocks.

    A [struct inode *] is an index into [icache.inode], the null pointer is
    [None].  Inode [i]'s sleep lock has number [NBUF + i], after those of the
    buffers.  A process that finds a sleep lock taken goes to sleep: the
    outcome is [Sleep]. *)

From stdpp Require Import base numbers list sets strings.
From Stdlib Require Import ZArith Lia.
From S2P Require Import Prelude Mem CString Mmu Seg Kalloc Param Printf Proc Sleeplock Console Bio.
From S2P Require Import Log.
Import CString Mmu Seg Kalloc Param Printf Proc Sleeplock Console Bio Log.

Module Inode.

Definition ROOTINO : Z := 1.
Definition NDIRECT : Z := 12.
Definition NINDIRECT : Z := BSIZE / 4.
Definition MAXFILE : Z := NDIRECT + NINDIRECT.
Definition sizeof_dinode : Z := 64.
Definition IPB : Z := BSIZE / sizeof_dinode.
Definition IBLOCK (i : Z) (sb : superblock) : Z := u32 (i / IPB + sb_inodestart sb).
Definition BPB : Z := BSIZE * 8.
Definition BBLOCK (b : Z) (sb : superblock) : Z := u32 (b / BPB + sb_bmapstart sb).

Definition T_DIR : Z := 1.
Definition T_FILE : Z := 2.
Definition T_DEV : Z := 3.

Record inode := mkInode {
  idev : Z; inum : Z; iref : Z; ilk : sleeplock; ivalid : Z;
  itype : Z; imajor : Z; iminor : Z; inlink : Z; isize : Z; iaddrs : list Z }.
#[export] Instance eta_inode : Eta inode := fun i =>
  mkInode i.(idev) i.(inum) i.(iref) i.(ilk) i.(ivalid) i.(itype) i.(imajor) i.(iminor)
    i.(inlink) i.(isize) i.(iaddrs).

(** Offsets in [struct dinode]. *)
Definition di_type : Z := 0.
Definition di_major : Z := 2.
Definition di_minor : Z := 4.
Definition di_nlink : Z := 6.
Definition di_size : Z := 8.
Definition di_addrs : Z := 12.

(** The functions that entries of [devsw] point to. *)
Inductive devfn := consoleread_fn | consolewrite_fn.
Record devsw_entry := mkDevsw { dread : option devfn; dwrite : option devfn }.
#[export] Instance eta_devsw : Eta devsw_entry := fun d => mkDevsw d.(dread) d.(dwrite).

(** The file system: the log and the buffers under it, [icache], [sb], the
    console and [devsw]. *)
Record fstate := mkFstate {
  fl : lst; icache : list inode; sb : superblock; fcons : console; devsw : list devsw_entry }.
#[export] Instance eta_fstate : Eta fstate := fun s =>
  mkFstate s.(fl) s.(icache) s.(sb) s.(fcons) s.(devsw).

(** The process table inside, and the console with it. *)
Definition fbk (s : fstate) : pstate := lbk (fl s).
#[export] Instance setter_fbk : Setter fbk := fun f s => s <| fl ::= fun l => l <| lbk ::= f |> |>.
Definition fcst (s : fstate) : cst := mkCst (fcons s) (fbk s).
#[export] Instance setter_fcst : Setter fcst := fun f s =>
  let t := f (fcst s) in s <| fcons := cn t |> <| fbk := ck t |>.

Definition get_inode (i : nat) : K fstate inode := l ← gets icache; deref "icache" (l !! i).
Definition upd_inode (i : nat) (f : inode -> inode) : K fstate unit :=
  n ← get_inode i; modify (fun s => s <| icache ::= fun l => <[i := f n]> l |>).

(** Runs an operation of Sleeplock.v on the lock of inode [i]. *)
Definition on_ilock {A} (i : nat) (m : K slstate A) : K fstate A := fun l s =>
  match icache s !! i with
  | None => Fault "icache"
  | Some n =>
      let put t := s <| icache ::= fun c => <[i := n <| ilk := slk t |>]> c |> <| fbk := slp t |> in
      match m l (mkSl (ilk n) (fbk s)) with
      | Ok a l' t => Ok a l' (put t)
      | Panic e => Panic e
      | Fault e => Fault e
      | Sleep c l' t => Sleep c l' (put t)
      end
  end.

Section inode.
(** Addresses of the sleep locks of buffers and inodes. *)
Variables (lock_addr ilock_addr : nat -> Z).

Definition ilock_id (i : nat) : Z := NBUF + Z.of_nat i.

Definition lock_inode (i : nat) : K fstate unit :=
  on_ilock i (acquiresleep (ilock_addr i) (ilock_id i) (fun l s => Sleep (ilock_addr i) l s) 1).
Definition unlock_inode (i : nat) : K fstate unit :=
  on_ilock i (releasesleep (ilock_addr i) (ilock_id i)).
Definition holds_inode (i : nat) : K fstate bool := on_ilock i (holdingsleep (ilock_id i)).

(** The block layer, from the file system. *)
Definition fbread (dev n : Z) : K fstate nat := zoom fl (zoom lb (bread lock_addr dev n)).
Definition fbrelse (b : nat) : K fstate unit := zoom fl (zoom lb (brelse lock_addr b)).
Definition fdata (b : nat) : K fstate block := zoom fl (get_data b).
Definition fupd (b : nat) (f : block -> block) : K fstate unit :=
  zoom fl (zoom lb (upd_buf b (fun x => x <| bdata ::= f |>))).
Definition flog_write (b : nat) : K fstate unit := zoom fl (log_write b).

(** *** Blocks *)

Definition bzero (dev bno : Z) : K fstate unit :=
  bp ← fbread dev bno;
  fupd bp (fun d => memset d 0 0 BSIZE) ;;
  flog_write bp ;;
  fbrelse bp.

Definition bit_mask (bi : Z) : Z := Z.shiftl 1 (bi mod 8).

(** [for (bi = 0; bi < BPB && b + bi < sb.size; bi++)]: the first bit that is
    0, from [bi] on; [n] is [BPB - bi]. *)
Fixpoint find_free (d : block) (b size bi : Z) (n : nat) : option Z :=
  match n with
  | O => None
  | S n' =>
      if u32 (b + bi) <? size then
        if Z.land (load8 d (bi / 8)) (bit_mask bi) =? 0 then Some bi
        else find_free d b size (bi + 1) n'
      else None
  end.

(** [for (b = 0; b < sb.size; b += BPB)] *)
Fixpoint balloc_loop (dev b : Z) (fuel : nat) : K fstate Z :=
  match fuel with
  | O => fault "out of fuel"
  | S f =>
      s ← gets sb;
      if u32 b <? sb_size s then
        bp ← fbread dev (BBLOCK b s);
        d ← fdata bp;
        match find_free d b (sb_size s) 0 (Z.to_nat BPB) with
        | Some bi =>
            fupd bp (fun d => store8 d (bi / 8) (Z.lor (load8 d (bi / 8)) (bit_mask bi))) ;;
            flog_write bp ;;
            fbrelse bp ;;
            bzero dev (b + bi) ;;
            mret (u32 (b + bi))
        | None => fbrelse bp ;; balloc_loop dev (i32 (b + BPB)) f
        end
      else panic "balloc: out of blocks"
  end.

(** One turn for each block of the bitmap, and the last test. *)
Definition balloc (dev : Z) : K fstate Z :=
  s ← gets sb; balloc_loop dev 0 (Z.to_nat (sb_size s / BPB) + 2).

Definition bfree (dev b : Z) : K fstate unit :=
  s ← gets sb;
  bp ← fbread dev (BBLOCK b s);
  let bi := b mod BPB in
  let m := bit_mask bi in
  d ← fdata bp;
  if Z.land (load8 d (bi / 8)) m =? 0 then panic "freeing free block" else
  fupd bp (fun d => store8 d (bi / 8) (Z.land (load8 d (bi / 8)) (Z.lnot m))) ;;
  flog_write bp ;;
  fbrelse bp.

(** *** The inode cache *)

Definition iinit (dev : Z) : K fstate unit :=
  kiter (fun i => upd_inode i (fun n => n <| ilk := mkSleeplock 0 0 |>)) (seq 0 (Z.to_nat NINODE)) ;;
  s ← zoom fl (readsb lock_addr dev);
  modify (fun f => f <| sb := s |>) ;;
  zoom fcst (cprintf (lit "sb: size %d nblocks %d ninodes %d nlog %d logstart %d inodestart %d bmap start %d" ++ [10])
    [sb_size s; sb_nblocks s; sb_ninodes s; sb_nlog s; sb_logstart s; sb_inodestart s; sb_bmapstart s]
    (fun _ => [])).

(** The loop of [iget]: the entry that holds the inode, or else the first
    empty one. *)
Fixpoint iget_scan (dev n : Z) (l : list inode) (i : nat) (empty : option nat) : (nat + option nat) :=
  match l with
  | [] => inr empty
  | x :: r =>
      if (iref x >? 0) && (idev x =? dev) && (inum x =? n) then inl i
      else iget_scan dev n r (S i)
        (match empty with None => if iref x =? 0 then Some i else None | Some _ => empty end)
  end.

Definition iget (dev n : Z) : K fstate nat :=
  acquire Licache ;;
  l ← gets icache;
  match iget_scan dev n l 0 None with
  | inl i => upd_inode i (fun x => x <| iref := i32 (iref x + 1) |>) ;; release Licache ;; mret i
  | inr None => panic "iget: no inodes"
  | inr (Some i) =>
      upd_inode i (fun x => x <| idev := dev |> <| inum := n |> <| iref := 1 |> <| ivalid := 0 |>) ;;
      release Licache ;; mret i
  end.

Definition idup (ip : nat) : K fstate nat :=
  acquire Licache ;;
  upd_inode ip (fun x => x <| iref := i32 (iref x + 1) |>) ;;
  release Licache ;; mret ip.

(** Offset of inode [n] in its block. *)
Definition dip_off (n : Z) : Z := sizeof_dinode * (n mod IPB).

Fixpoint ialloc_loop (dev type n : Z) (fuel : nat) : K fstate nat :=
  match fuel with
  | O => fault "out of fuel"
  | S f =>
      s ← gets sb;
      if u32 n <? sb_ninodes s then
        bp ← fbread dev (IBLOCK n s);
        d ← fdata bp;
        if i16 (load16 d (dip_off n + di_type)) =? 0 then
          fupd bp (fun d => store16 (memset d (dip_off n) 0 sizeof_dinode) (dip_off n + di_type) type) ;;
          flog_write bp ;;
          fbrelse bp ;;
          iget dev n
        else fbrelse bp ;; ialloc_loop dev type (i32 (n + 1)) f
      else panic "ialloc: no inodes"
  end.

Definition ialloc (dev type : Z) : K fstate nat :=
  s ← gets sb; ialloc_loop dev type 1 (Z.to_nat (sb_ninodes s) + 1).

(** [memmove(dip->addrs, ip->addrs, sizeof(ip->addrs))] and back. *)
Fixpoint store_addrs (d : block) (a : Z) (l : list Z) : block :=
  match l with
  | [] => d
  | x :: r => store_addrs (store32 d a x) (a + 4) r
  end.
Definition load_addrs (d : block) (a : Z) : list Z :=
  map (fun k => load32 d (a + 4 * Z.of_nat k)) (seq 0 (Z.to_nat (NDIRECT + 1))).

Definition store_dinode (d : block) (o : Z) (n : inode) : block :=
  let d := store16 d (o + di_type) (itype n) in
  let d := store16 d (o + di_major) (imajor n) in
  let d := store16 d (o + di_minor) (iminor n) in
  let d := store16 d (o + di_nlink) (inlink n) in
  let d := store32 d (o + di_size) (isize n) in
  store_addrs d (o + di_addrs) (iaddrs n).

Definition load_dinode (d : block) (o : Z) (n : inode) : inode :=
  n <| itype := i16 (load16 d (o + di_type)) |> <| imajor := i16 (load16 d (o + di_major)) |>
    <| iminor := i16 (load16 d (o + di_minor)) |> <| inlink := i16 (load16 d (o + di_nlink)) |>
    <| isize := load32 d (o + di_size) |> <| iaddrs := load_addrs d (o + di_addrs) |>.

Definition iupdate (ip : nat) : K fstate unit :=
  n ← get_inode ip;
  s ← gets sb;
  bp ← fbread (idev n) (IBLOCK (inum n) s);
  fupd bp (fun d => store_dinode d (dip_off (inum n)) n) ;;
  flog_write bp ;;
  fbrelse bp.

Definition ilock (ip : option nat) : K fstate unit :=
  match ip with
  | None => panic "ilock"
  | Some ip =>
      n ← get_inode ip;
      if iref n <? 1 then panic "ilock" else
      lock_inode ip ;;
      n ← get_inode ip;
      if ivalid n =? 0 then
        s ← gets sb;
        bp ← fbread (idev n) (IBLOCK (inum n) s);
        d ← fdata bp;
        upd_inode ip (load_dinode d (dip_off (inum n))) ;;
        fbrelse bp ;;
        upd_inode ip (fun n => n <| ivalid := 1 |>) ;;
        n ← get_inode ip;
        if itype n =? 0 then panic "ilock: no type" else mret tt
      else mret tt
  end.

Definition iunlock (ip : option nat) : K fstate unit :=
  match ip with
  | None => panic "iunlock"
  | Some ip =>
      h ← holds_inode ip;
      n ← get_inode ip;
      if negb h || (iref n <? 1) then panic "iunlock" else unlock_inode ip
  end.

(** *** Contents *)

(** [ip->addrs[k] = v] *)
Definition set_addr (ip : nat) (k v : Z) : K fstate unit :=
  n ← get_inode ip;
  a ← deref "ip->addrs" (aset (iaddrs n) k v);
  upd_inode ip (fun n => n <| iaddrs := a |>).
Definition get_addr (ip : nat) (k : Z) : K fstate Z :=
  n ← get_inode ip; deref "ip->addrs" (aget (iaddrs n) k).

(** The block [ip->addrs[k]], allocated if there is none. *)
Definition addr_alloc (ip : nat) (k : Z) : K fstate Z :=
  addr ← get_addr ip k;
  if addr =? 0 then
    n ← get_inode ip;
    addr ← balloc (idev n);
    set_addr ip k addr ;; mret addr
  else mret addr.

Definition bmap (ip : nat) (bn : Z) : K fstate Z :=
  if bn <? NDIRECT then addr_alloc ip bn
  else
    let bn := bn - NDIRECT in
    if bn <? NINDIRECT then
      addr ← addr_alloc ip NDIRECT;
      n ← get_inode ip;
      bp ← fbread (idev n) addr;
      d ← fdata bp;
      let addr := load32 d (4 * bn) in
      addr ← (if addr =? 0 then
                addr ← balloc (idev n);
                fupd bp (fun d => store32 d (4 * bn) addr) ;; flog_write bp ;; mret addr
              else mret addr);
      fbrelse bp ;; mret addr
    else panic "bmap: out of range".

(** [if (ip->addrs[k]) { bfree(ip->dev, ip->addrs[k]); ip->addrs[k] = 0; }] *)
Definition trunc_direct (ip : nat) (k : Z) : K fstate unit :=
  addr ← get_addr ip k;
  if nz addr then n ← get_inode ip; bfree (idev n) addr ;; set_addr ip k 0 else mret tt.

Definition zseq (a n : Z) : list Z := map (fun k => a + Z.of_nat k) (seq 0 (Z.to_nat n)).

(** [if (a[j]) bfree(ip->dev, a[j]);] *)
Definition trunc_indirect (dev : Z) (bp : nat) (j : Z) : K fstate unit :=
  d ← fdata bp;
  if nz (load32 d (4 * j)) then bfree dev (load32 d (4 * j)) else mret tt.

Definition itrunc (ip : nat) : K fstate unit :=
  kiter (trunc_direct ip) (zseq 0 NDIRECT) ;;
  addr ← get_addr ip NDIRECT;
  (if nz addr then
     n ← get_inode ip;
     bp ← fbread (idev n) addr;
     kiter (trunc_indirect (idev n) bp) (zseq 0 NINDIRECT) ;;
     fbrelse bp ;;
     bfree (idev n) addr ;;
     set_addr ip NDIRECT 0
   else mret tt) ;;
  upd_inode ip (fun n => n <| isize := 0 |>) ;;
  iupdate ip.

Definition iput (ip : nat) : K fstate unit :=
  lock_inode ip ;;
  n ← get_inode ip;
  (if nz (ivalid n) && (inlink n =? 0) then
     acquire Licache ;;
     n ← get_inode ip;
     let r := iref n in
     release Licache ;;
     if r =? 1 then
       itrunc ip ;;
       upd_inode ip (fun n => n <| itype := 0 |>) ;;
       iupdate ip ;;
       upd_inode ip (fun n => n <| ivalid := 0 |>)
     else mret tt
   else mret tt) ;;
  unlock_inode ip ;;
  acquire Licache ;;
  upd_inode ip (fun n => n <| iref := i32 (iref n - 1) |>) ;;
  release Licache.

Definition iunlockput (ip : option nat) : K fstate unit :=
  iunlock ip ;;
  match ip with Some ip => iput ip | None => fault "iput" end.

(** [struct stat], in the order of its fields. *)
Record stat := mkStat { st_type : Z; st_dev : Z; st_ino : Z; st_nlink : Z; st_size : Z }.

Definition stati (ip : nat) : K fstate stat :=
  n ← get_inode ip;
  mret (mkStat (itype n) (i32 (idev n)) (inum n) (inlink n) (isize n)).

End inode.

End Inode.
