(* ===== verification/Fs.v ===== *)
(** Files, directories and paths of fs.c, and the console as a device
    (console.c).

    [readi] returns the bytes it copies to its destination, in order;
    [writei] takes the bytes of its source.  A path is the bytes of its string
    before the 0; a directory name is an array of [DIRSIZ] bytes. *)

From stdpp Require Import base numbers list sets strings.
From Stdlib Require Import ZArith Lia.
From S2P Require Import Prelude Mem CString Mmu Seg Kalloc Param Printf Kbd Proc Sleeplock Console.
From S2P Require Import Bio Log Inode.
Import CString Mmu Seg Kalloc Param Printf Proc Sleeplock Console Bio Log Inode.

Module Fs.

Definition DIRSIZ : Z := 14.
Definition sizeof_dirent : Z := 16.
Definition CONSOLE : Z := 1.

(** [struct inode *] as a word: 0 is the null pointer. *)
Definition inode_ptr (i : nat) : Z := Z.of_nat i + 1.
Definition ptr_inode (p : Z) : option nat := if p >? 0 then Some (Z.to_nat (p - 1)) else None.

Section fs.
(** Addresses of the sleep locks and of [input.r], and what the other
    processes do while this one waits for input. *)
Variables (lock_addr ilock_addr : nat -> Z) (input_r : Z) (swtch : K fstate unit).

(** *** The console as a device *)

Definition mykilled : K fstate Z := zoom fbk (i ← myproc; p ← get_proc i; mret (killed p)).

(** [while (input.r == input.w)]; [false] means the process was killed. *)
Fixpoint wait_input (fuel : nat) : K fstate bool :=
  match fuel with
  | O => fault "out of fuel"
  | S f =>
      c ← gets fcons;
      if ir c =? iw c then
        k ← mykilled;
        if nz k then mret false else sleep_in fbk swtch input_r Lcons ;; wait_input f
      else mret true
  end.

(** [while (n > 0)] of [consoleread]: the bytes stored, and whether the process
    was not killed on the way. *)
Fixpoint cread_loop (fuel : nat) (n : nat) (target : Z) : K fstate (bool * list Z) :=
  match n with
  | O => mret (true, [])
  | S n' =>
      go ← wait_input fuel;
      if (go : bool) then
        s ← gets fcons;
        c ← deref "input.buf" (aget (ibuf s) (ir s mod INPUT_BUF));
        modify (fun f => f <| fcons ::= fun s => s <| ir := u32 (ir s + 1) |> |>) ;;
        if c =? Kbd.C 68 then
          (if Z.of_nat n <? target then
             modify (fun f => f <| fcons ::= fun s => s <| ir := u32 (ir s - 1) |> |>)
           else mret tt) ;; mret (true, [])
        else if c =? 10 then mret (true, [c])
        else '(ok, l) ← cread_loop fuel n' target; mret (ok, c :: l)
      else mret (false, [])
  end.

Definition consoleread (fuel : nat) (ip : nat) (n : Z) : K fstate (Z * list Z) :=
  iunlock ilock_addr (Some ip) ;;
  acquire Lcons ;;
  '(ok, l) ← cread_loop fuel (Z.to_nat n) (u32 n);
  release Lcons ;;
  ilock lock_addr ilock_addr (Some ip) ;;
  mret (if (ok : bool) then Z.of_nat (length l) else -1, l).

Definition consolewrite (ip : nat) (buf : list Z) : K fstate Z :=
  iunlock ilock_addr (Some ip) ;;
  acquire Lcons ;;
  zoom fcst (kiter consputc (map u8 buf)) ;;
  release Lcons ;;
  ilock lock_addr ilock_addr (Some ip) ;;
  mret (Z.of_nat (length buf)).

(** Up to the routing of the keyboard interrupt. *)
Definition consoleinit : K fstate unit :=
  d ← gets devsw;
  d ← deref "devsw" (aset d CONSOLE (mkDevsw (Some consoleread_fn) (Some consolewrite_fn)));
  modify (fun s => s <| devsw := d |>) ;;
  modify (fun s => s <| fcons ::= fun c => c <| locking := 1 |> |>).

(** *** Reading and writing *)

(** The entry of [devsw] for a device inode. *)
Definition device (n : inode) : K fstate (option devsw_entry) :=
  if (imajor n <? 0) || (imajor n >=? NDEV) then mret None
  else d ← gets devsw; e ← deref "devsw" (aget d (imajor n)); mret (Some e).

(** The loop of [readi], to copy [n - tot] bytes from [off] on. *)
Fixpoint readi_loop (ip : nat) (off tot n : Z) (fuel : nat) : K fstate (list Z) :=
  match fuel with
  | O => fault "out of fuel"
  | S f =>
      if tot <? n then
        b ← bmap lock_addr ip (off / BSIZE);
        x ← get_inode ip;
        bp ← fbread lock_addr (idev x) b;
        let m := Z.min (n - tot) (BSIZE - off mod BSIZE) in
        d ← fdata bp;
        fbrelse lock_addr bp ;;
        r ← readi_loop ip (off + m) (tot + m) n f;
        mret (bytes_at d (off mod BSIZE) (Z.to_nat m) ++ r)
      else mret []
  end.

(** Each turn but the first starts a block. *)
Definition rw_fuel (n : Z) : nat := Z.to_nat (n / BSIZE) + 3.

Definition readi (fuel : nat) (ip : nat) (off n : Z) : K fstate (Z * list Z) :=
  x ← get_inode ip;
  if itype x =? T_DEV then
    e ← device x;
    match e with
    | Some (mkDevsw (Some consoleread_fn) _) => consoleread fuel ip (i32 n)
    | _ => mret (-1, [])
    end
  else if (off >? isize x) || (u32 (off + n) <? off) then mret (-1, [])
  else
    let n := if u32 (off + n) >? isize x then isize x - off else n in
    l ← readi_loop ip off 0 n (rw_fuel n);
    mret (i32 n, l).

(** The loop of [writei]; returns the last [off]. *)
Fixpoint writei_loop (ip : nat) (src : list Z) (off : Z) (fuel : nat) : K fstate Z :=
  match fuel with
  | O => fault "out of fuel"
  | S f =>
      if bool_decide (src <> []) then
        b ← bmap lock_addr ip (off / BSIZE);
        x ← get_inode ip;
        bp ← fbread lock_addr (idev x) b;
        let m := Z.min (Z.of_nat (length src)) (BSIZE - off mod BSIZE) in
        fupd bp (fun d => store_bytes d (off mod BSIZE) (take (Z.to_nat m) src)) ;;
        flog_write bp ;;
        fbrelse lock_addr bp ;;
        writei_loop ip (drop (Z.to_nat m) src) (off + m) f
      else mret off
  end.

Definition writei (ip : nat) (src : list Z) (off : Z) : K fstate Z :=
  let n := Z.of_nat (length src) in
  x ← get_inode ip;
  if itype x =? T_DEV then
    e ← device x;
    match e with
    | Some (mkDevsw _ (Some consolewrite_fn)) => consolewrite ip src
    | _ => mret (-1)
    end
  else if (off >? isize x) || (u32 (off + n) <? off) then mret (-1)
  else if u32 (off + n) >? MAXFILE * BSIZE then mret (-1)
  else
    off ← writei_loop ip src off (rw_fuel n);
    x ← get_inode ip;
    (if (n >? 0) && (off >? isize x) then
       upd_inode ip (fun x => x <| isize := off |>) ;; iupdate lock_addr ip
     else mret tt) ;;
    mret (i32 n).

(** *** Directories *)

(** Two names side by side in memory, for the routines of string.c. *)
Definition two_names (s t : list Z) : mem := fun x =>
  if x <? DIRSIZ then nth (Z.to_nat x) s 0 else nth (Z.to_nat (x - DIRSIZ)) t 0.

Definition namecmp (s t : list Z) : Z := strncmp (two_names s t) 0 DIRSIZ (Z.to_nat DIRSIZ).

(** [struct dirent] from and to its 16 bytes. *)
Definition de_inum (de : list Z) : Z := nth 0 de 0 + 2 ^ 8 * nth 1 de 0.
Definition de_name (de : list Z) : list Z := drop 2 de.
Definition mk_dirent (n : Z) (name : list Z) : list Z := [u8 n; u8 (n / 2 ^ 8)] ++ name.

(** The loop of [dirlookup] from [off]: the entry's number and offset. *)
Fixpoint dir_search (fuel : nat) (dp : nat) (name : list Z) (off : Z) (k : nat)
    : K fstate (option (Z * Z)) :=
  match k with
  | O => fault "out of fuel"
  | S k' =>
      x ← get_inode dp;
      if off <? isize x then
        '(r, de) ← readi fuel dp off sizeof_dirent;
        if negb (r =? sizeof_dirent) then panic "dirlookup read"
        else if negb (de_inum de =? 0) && (namecmp name (de_name de) =? 0) then
          mret (Some (de_inum de, off))
        else dir_search fuel dp name (u32 (off + sizeof_dirent)) k'
      else mret None
  end.

Definition dir_fuel (x : inode) : nat := Z.to_nat (isize x / sizeof_dirent) + 2.

(** The inode, and the offset stored through [poff]. *)
Definition dirlookup (fuel : nat) (dp : nat) (name : list Z) : K fstate (option (nat * Z)) :=
  x ← get_inode dp;
  if negb (itype x =? T_DIR) then panic "dirlookup not DIR" else
  r ← dir_search fuel dp name 0 (dir_fuel x);
  match r with
  | Some (n, off) => i ← iget (idev x) n; mret (Some (i, off))
  | None => mret None
  end.

(** The search of [dirlink] for an unused entry. *)
Fixpoint dir_slot (fuel : nat) (dp : nat) (off : Z) (k : nat) : K fstate Z :=
  match k with
  | O => fault "out of fuel"
  | S k' =>
      x ← get_inode dp;
      if u32 off <? isize x then
        '(r, de) ← readi fuel dp (u32 off) sizeof_dirent;
        if negb (r =? sizeof_dirent) then panic "dirlink read"
        else if de_inum de =? 0 then mret off
        else dir_slot fuel dp (i32 (off + sizeof_dirent)) k'
      else mret off
  end.

(** [strncpy(de.name, name, DIRSIZ)] *)
Definition copy_name (name : list Z) : list Z :=
  bytes_at (strncpy (two_names name []) DIRSIZ 0 DIRSIZ) DIRSIZ (Z.to_nat DIRSIZ).

Definition dirlink (fuel : nat) (dp : nat) (name : list Z) (n : Z) : K fstate Z :=
  r ← dirlookup fuel dp name;
  match r with
  | Some (ip, _) => iput lock_addr ilock_addr ip ;; mret (-1)
  | None =>
      x ← get_inode dp;
      off ← dir_slot fuel dp 0 (dir_fuel x);
      r ← writei dp (mk_dirent (u16 n) (copy_name name)) (u32 off);
      if negb (r =? sizeof_dirent) then panic "dirlink" else mret 0
  end.

(** *** Paths *)

Definition slash : Z := 47.

(** [while ( *path == '/') path++;] and [while ( *path != '/' && *path != 0)] *)
Fixpoint skip_slashes (path : list Z) : list Z :=
  match path with
  | c :: r => if c =? slash then skip_slashes r else path
  | [] => []
  end.
Fixpoint span_elem (path : list Z) : list Z * list Z :=
  match path with
  | c :: r => if c =? slash then ([], path) else let '(e, q) := span_elem r in (c :: e, q)
  | [] => ([], [])
  end.

(** The rest of the path, and the contents of [name]. *)
Definition skipelem (path name : list Z) : option (list Z * list Z) :=
  match skip_slashes path with
  | [] => None
  | p =>
      let '(s, path) := span_elem p in
      let len := Z.of_nat (length s) in
      let name :=
        if len >=? DIRSIZ then take (Z.to_nat DIRSIZ) s
        else s ++ [0] ++ drop (length s + 1) name in
      Some (skip_slashes path, name)
  end.

Fixpoint namex_loop (fuel : nat) (ip : nat) (path name : list Z) (parent : bool) (k : nat)
    : K fstate (option (nat * list Z)) :=
  match k with
  | O => fault "out of fuel"
  | S k' =>
      match skipelem path name with
      | Some (path, name) =>
          ilock lock_addr ilock_addr (Some ip) ;;
          x ← get_inode ip;
          if negb (itype x =? T_DIR) then
            iunlockput lock_addr ilock_addr (Some ip) ;; mret None
          else if parent && bool_decide (path = []) then
            iunlock ilock_addr (Some ip) ;; mret (Some (ip, name))
          else
            r ← dirlookup fuel ip name;
            match r with
            | None => iunlockput lock_addr ilock_addr (Some ip) ;; mret None
            | Some (next, _) =>
                iunlockput lock_addr ilock_addr (Some ip) ;;
                namex_loop fuel next path name parent k'
            end
      | None =>
          if parent then iput lock_addr ilock_addr ip ;; mret None
          else mret (Some (ip, name))
      end
  end.

Definition namex (fuel : nat) (path : list Z) (parent : bool) (name : list Z)
    : K fstate (option (nat * list Z)) :=
  ip ← (if bool_decide (head path = Some slash) then iget ROOTDEV ROOTINO
        else
          c ← zoom fbk (i ← myproc; p ← get_proc i; mret (cwd p));
          ip ← deref "cwd" (ptr_inode c); idup ip);
  namex_loop fuel ip path name parent (length path + 1).

(** [name] starts with whatever is on the stack. *)
Definition namei (fuel : nat) (path : list Z) : K fstate (option nat) :=
  r ← namex fuel path false (replicate (Z.to_nat DIRSIZ) 0); mret (fst <$> r).

Definition nameiparent (fuel : nat) (path : list Z) : K fstate (option (nat * list Z)) :=
  namex fuel path true (replicate (Z.to_nat DIRSIZ) 0).

End fs.

End Fs.
