(* ===== verification/FsSpec.v ===== *)
(** What the file system promises: inodes survive the trip to the disk, paths
    split at slashes, [readi] returns the bytes of the file and [writei] puts
    them there.

    The contents of the blocks are the view [V] of BioSpec.v: what a reader of
    the buffer cache sees. *)

From stdpp Require Import base numbers list sets strings.
From Stdlib Require Import ZArith Lia.
From S2P Require Import Prelude Mem CString Mmu Seg Kalloc Param Printf Kbd Proc Sleeplock Console.
From S2P Require Import Bio BioSpec Log LogSpec LogCrash Inode Fs.
Import CString Mmu Seg Kalloc Param Printf Proc Sleeplock Console Bio BioSpec Log LogSpec LogCrash Inode Fs.

Module FsSpec.

(** *** Inodes on disk *)

(** The values the fields of [struct dinode] can hold. *)
Record dinode_ok (n : inode) : Prop := {
  dk_type : - 2 ^ 15 <= itype n < 2 ^ 15;
  dk_major : - 2 ^ 15 <= imajor n < 2 ^ 15;
  dk_minor : - 2 ^ 15 <= iminor n < 2 ^ 15;
  dk_nlink : - 2 ^ 15 <= inlink n < 2 ^ 15;
  dk_size : is_u32 (isize n);
  dk_addrs : Forall is_u32 (iaddrs n);
  dk_len : length (iaddrs n) = Z.to_nat (NDIRECT + 1)
}.

(** The fields that live on disk. *)
Definition same_dinode (n m : inode) : Prop :=
  itype n = itype m /\ imajor n = imajor m /\ iminor n = iminor m /\ inlink n = inlink m /\
  isize n = isize m /\ iaddrs n = iaddrs m.

Lemma i16_u16 x : - 2 ^ 15 <= x < 2 ^ 15 -> i16 (u16 x) = x.
Proof. unfold i16, u16. intros. dlia. Qed.

Lemma store_addrs_out l d a x :
  ~ (a <= x < a + 4 * Z.of_nat (length l)) -> store_addrs d a l x = d x.
Proof.
  revert d a. induction l as [|y l IH]; intros d a H; [done|]. cbn [store_addrs length] in *.
  rewrite IH by lia. apply store32_out. lia.
Qed.

Lemma store_addrs_load l d a k x :
  l !! k = Some x -> load32 (store_addrs d a l) (a + 4 * Z.of_nat k) = u32 x.
Proof.
  revert d a k. induction l as [|y l IH]; intros d a k H; [done|]. cbn [store_addrs].
  destruct k as [|k].
  - injection H as ->. rewrite Z.mul_0_r, Z.add_0_r. rewrite (load32_same (store32 d a x)).
    + apply load32_store32_eq.
    + intros z Hz. apply store_addrs_out. lia.
  - replace (a + 4 * Z.of_nat (S k)) with (a + 4 + 4 * Z.of_nat k) by lia. by apply IH.
Qed.

Lemma load_store_addrs l d a :
  Forall is_u32 l -> length l = Z.to_nat (NDIRECT + 1) -> load_addrs (store_addrs d a l) a = l.
Proof.
  intros Hl Hlen. unfold load_addrs. rewrite <- Hlen. apply list_eq. intros k.
  destruct (decide (k < length l)%nat) as [Hk|Hk].
  - destruct (lookup_lt_is_Some_2 l k Hk) as [x Hx]. rewrite Hx, list_lookup_fmap, lookup_seq_lt by done.
    cbn. f_equal. rewrite (store_addrs_load l d a k x Hx). apply u32_small. by eapply Forall_lookup_1 in Hl.
  - rewrite !lookup_ge_None_2; [done|lia|rewrite length_map, length_seq; lia].
Qed.

(** Reading a field where later stores did not go. *)
Ltac skip_stores := intros ? ?; repeat first
  [ rewrite store_addrs_out by lia | rewrite store32_out by lia | rewrite store16_out by lia ]; done.

Lemma load_store_dinode d o n x :
  dinode_ok n -> same_dinode (load_dinode (store_dinode d o n) o x) n.
Proof.
  intros [H1 H2 H3 H4 H5 H6 H7]. unfold load_dinode, store_dinode, di_type, di_major, di_minor, di_nlink,
    di_size, di_addrs. cbn zeta.
  set (d1 := store16 d _ _). set (d2 := store16 d1 _ _). set (d3 := store16 d2 _ _).
  set (d4 := store16 d3 _ _). set (d5 := store32 d4 _ _).
  repeat split; cbn.
  - rewrite (load16_same d1) by (unfold d5, d4, d3, d2; skip_stores).
    unfold d1. rewrite load16_store16_eq. by apply i16_u16.
  - rewrite (load16_same d2) by (unfold d5, d4, d3; skip_stores).
    unfold d2. rewrite load16_store16_eq. by apply i16_u16.
  - rewrite (load16_same d3) by (unfold d5, d4; skip_stores).
    unfold d3. rewrite load16_store16_eq. by apply i16_u16.
  - rewrite (load16_same d4) by (unfold d5; skip_stores).
    unfold d4. rewrite load16_store16_eq. by apply i16_u16.
  - rewrite (load32_same d5) by skip_stores. unfold d5. rewrite load32_store32_eq. by apply u32_small.
  - by apply load_store_addrs.
Qed.

Lemma store_dinode_out d o n y :
  length (iaddrs n) = Z.to_nat (NDIRECT + 1) -> ~ (o <= y < o + sizeof_dinode) ->
  store_dinode d o n y = d y.
Proof.
  unfold sizeof_dinode, NDIRECT. intros Hl Hy.
  unfold store_dinode, di_type, di_major, di_minor, di_nlink, di_size, di_addrs. cbn zeta.
  rewrite store_addrs_out by lia. rewrite store32_out by lia. by rewrite !store16_out by lia.
Qed.

Lemma load_dinode_same d d' o x :
  same_on o (o + sizeof_dinode) d d' -> load_dinode d' o x = load_dinode d o x.
Proof.
  unfold sizeof_dinode. intros H. unfold load_dinode, di_type, di_major, di_minor, di_nlink, di_size, di_addrs.
  assert (H16 : forall k, 0 <= k <= 62 -> load16 d' (o + k) = load16 d (o + k)).
  { intros k Hk. apply load16_same. intros z Hz. apply H. lia. }
  assert (H32 : forall k, 0 <= k <= 60 -> load32 d' (o + k) = load32 d (o + k)).
  { intros k Hk. apply load32_same. intros z Hz. apply H. lia. }
  assert (load_addrs d' (o + 12) = load_addrs d (o + 12)) as ->.
  { unfold load_addrs. apply map_ext_in. intros k Hk%in_seq. unfold NDIRECT in Hk.
    rewrite <- Z.add_assoc. apply H32. lia. }
  by rewrite !H16, H32 by lia.
Qed.

(** An inode written to its slot of a block is read back unchanged, and the
    other inodes of the block stay as they were. *)
Theorem dinode_roundtrip d n x k (Hn : dinode_ok n) (Hk : 0 <= inum n) (Hk2 : 0 <= k) :
  same_dinode (load_dinode (store_dinode d (dip_off (inum n)) n) (dip_off (inum n)) x) n /\
  (k mod IPB <> inum n mod IPB ->
   load_dinode (store_dinode d (dip_off (inum n)) n) (dip_off k) x = load_dinode d (dip_off k) x).
Proof.
  split; [by apply load_store_dinode|]. intros Hne. apply load_dinode_same.
  intros z Hz. apply store_dinode_out; [apply Hn|]. unfold dip_off, sizeof_dinode in *. lia.
Qed.

(** *** Paths *)

(** The pieces between slashes. *)
Fixpoint split_path (path : list Z) : list (list Z) :=
  match path with
  | [] => [[]]
  | c :: r =>
      if c =? slash then [] :: split_path r
      else match split_path r with
           | e :: es => (c :: e) :: es
           | [] => [[c]]
           end
  end.

Definition elements (path : list Z) : list (list Z) := filter (fun e => e <> []) (split_path path).

(** An element as [name] holds it: cut after 14 bytes, or ended by a 0. *)
Definition holds_name (name e : list Z) : Prop :=
  take (Z.to_nat DIRSIZ) (e ++ [0]) `prefix_of` name.

Lemma elements_slash r : elements (slash :: r) = elements r.
Proof. done. Qed.

Lemma elements_skip path : elements (skip_slashes path) = elements path.
Proof.
  induction path as [|c r IH]; [done|]. cbn [skip_slashes]. destruct (Z.eqb_spec c slash) as [->|]; [|done].
  by rewrite IH, elements_slash.
Qed.

Lemma split_path_span path :
  split_path path = match (span_elem path).2 with
    | [] => [(span_elem path).1] | _ :: r => (span_elem path).1 :: split_path r end.
Proof.
  induction path as [|c r IH]; [done|]. cbn [split_path span_elem]. destruct (c =? slash); [done|].
  rewrite IH. destruct (span_elem r) as [e [|x q]]; done.
Qed.

Lemma span_elem_stop path e q :
  span_elem path = (e, q) -> path = e ++ q /\ slash ∉ e /\ (q = [] \/ exists r, q = slash :: r).
Proof.
  revert e q. induction path as [|c r IH]; intros e q; cbn.
  { intros [= <- <-]. split; [done|]. split; [set_solver|by left]. }
  destruct (Z.eqb_spec c slash) as [->|Hc].
  - intros [= <- <-]. split; [done|]. split; [set_solver|right; by exists r].
  - destruct (span_elem r) as [e' q'] eqn:E. intros [= <- <-].
    destruct (IH e' q' eq_refl) as (-> & Hs & Hq). split; [done|]. split; [set_solver|done].
Qed.

Lemma skip_slashes_head path : skip_slashes path = [] \/
  exists c r, skip_slashes path = c :: r /\ c <> slash.
Proof.
  induction path as [|c r IH]; [by left|]. cbn. destruct (Z.eqb_spec c slash); [done|].
  right. by exists c, r.
Qed.

(** The first element and the rest of a path that starts with neither. *)
Lemma elements_span c r e q :
  c <> slash -> span_elem (c :: r) = (e, q) -> e <> [] /\ elements (c :: r) = e :: elements (skip_slashes q).
Proof.
  intros Hc E. pose proof E as E'. cbn in E'. rewrite (proj2 (Z.eqb_neq _ _) Hc) in E'.
  destruct (span_elem r) as [e' q'] eqn:Er. injection E' as <- <-. split; [done|].
  unfold elements at 1. rewrite split_path_span, E. cbn [fst snd].
  destruct (span_elem_stop _ _ _ Er) as (_ & _ & [-> | [r' ->]]).
  - by rewrite filter_cons_True by done.
  - rewrite filter_cons_True by done. f_equal. rewrite elements_skip. done.
Qed.

(** [skipelem] takes the first element off a path: it returns 0 when there
    is none, and else leaves in [name] the element, cut after 14 bytes or
    ended by a 0, and returns a path with the remaining elements that is
    empty exactly when there are none. *)
Theorem skipelem_elements path name (Hn : length name = Z.to_nat DIRSIZ) :
  match elements path with
  | [] => skipelem path name = None
  | e :: es => exists rest name', skipelem path name = Some (rest, name') /\
      elements rest = es /\ (rest = [] <-> es = []) /\
      holds_name name' e /\ length name' = Z.to_nat DIRSIZ
  end.
Proof.
  rewrite <- elements_skip. unfold skipelem. destruct (skip_slashes_head path) as [E|(c & r & E & Hc)]; rewrite E; [done|].
  destruct (span_elem (c :: r)) as [e q] eqn:Es. destruct (elements_span c r e q Hc Es) as [_ ->].
  eexists _, _. split; [reflexivity|]. split; [done|]. unfold DIRSIZ in *. split.
  - destruct (skip_slashes_head q) as [->|(c' & r' & -> & Hc')]; [done|].
    destruct (span_elem (c' :: r')) as [e' q'] eqn:Es'.
    by destruct (elements_span c' r' e' q' Hc' Es') as [_ ->].
  - unfold holds_name. rewrite Z.geb_leb. destruct (Z.leb_spec 14 (Z.of_nat (length e))) as [H|H].
    + rewrite take_app_le by (unfold DIRSIZ; lia). split; [done|]. rewrite length_take. lia.
    + unfold DIRSIZ. rewrite take_ge by (rewrite length_app; cbn; lia). split.
      * rewrite app_assoc. by apply prefix_app_r.
      * rewrite !length_app, length_drop. cbn [length]. lia.
Qed.

(** *** Contents of files *)

Section contents.
Variables (lock_addr ilock_addr : nat -> Z) (input_r : Z) (swtch : K fstate unit) (me : nat) (mp : Z).

Definition set_lb (t : bst) (s : fstate) : fstate := s <| fl ::= fun l => l <| lb := t |> |>.

(** Nothing that outlives the call has changed. *)
Record quiet (s t : bst) : Prop := {
  qu_size : disksize t = disksize s;
  qu_disk : disk t = disk s;
  qu_trace : wtrace t = wtrace s
}.

Lemma quiet_refl s : quiet s s.
Proof. by split. Qed.
Lemma quiet_trans s t u : quiet s t -> quiet t u -> quiet s u.
Proof. intros [? ? ?] [? ? ?]. split; congruence. Qed.

(** Reading a block and letting go of it. *)
Lemma peek_ok s V P n :
  bio_ok me mp (lb (fl s)) V [] P -> 0 <= n < disksize (lb (fl s)) -> Z.of_nat (length P) < NBUF ->
  exists bp s1 t, fbread lock_addr 1 n [] s = Ok bp [] s1 /\ icache s1 = icache s /\
    fdata bp [] s1 = Ok (V n) [] s1 /\ fbrelse lock_addr bp [] s1 = Ok tt [] (set_lb t s) /\
    bio_ok me mp t V [] P /\ quiet (lb (fl s)) t.
Proof.
  intros Hok Hn Hroom.
  destruct (bread_spec lock_addr me mp (lb (fl s)) V [] P n Hok Hn) as (i & s1 & R1 & _ & O1 & S1 & B1);
    [apply not_holding_nil|by right|].
  destruct (brelse_spec lock_addr me mp s1 V [i] P i n (V n) O1) as (s2 & R3 & O3 & B3 & _);
    [set_solver|done| |].
  { destruct (decide (n ∈ P)) as [|Hp]; [by left|right]. rewrite (ob_disk _ _ _ B1).
    apply (bo_synced _ _ _ _ _ _ Hok); [done|]. intros j b Hj. by apply elem_of_nil in Hj. }
  exists i, (set_lb s1 s), s2.
  split; [exact (zoom_Ok fl _ _ _ _ _ _ (zoom_Ok lb _ _ _ _ _ _ R1))|]. split; [done|].
  split; [unfold fdata; erewrite zoom_Ok by (eapply get_data_ok; exact S1); by destruct s as [[]]|].
  split; [unfold fbrelse; erewrite zoom_Ok by (apply zoom_Ok; exact R3); by destruct s as [[]]|]. split.
  - rewrite filter_cons_False in O3 by naive_solver. exact O3.
  - destruct B1, B3. split; congruence.
Qed.

(** The block that holds block [bn] of the file. *)
Definition file_block (V : Z -> block) (x : inode) (bn : Z) : Z :=
  if bn <? NDIRECT then nth (Z.to_nat bn) (iaddrs x) 0
  else load32 (V (nth (Z.to_nat NDIRECT) (iaddrs x) 0)) (4 * (bn - NDIRECT)).

Definition file_byte (V : Z -> block) (x : inode) (k : Z) : Z :=
  load8 (V (file_block V x (k / BSIZE))) (k mod BSIZE).

(** The [n] bytes of the file from [off] on. *)
Definition file_bytes (V : Z -> block) (x : inode) (off : Z) (n : nat) : list Z :=
  map (fun j => file_byte V x (off + Z.of_nat j)) (seq 0 n).

(** A file or directory all of whose blocks are allocated. *)
Record file_ok (size : Z) (V : Z -> block) (x : inode) : Prop := {
  fo_dev : idev x = 1;
  fo_type : itype x <> T_DEV;
  fo_addrs : length (iaddrs x) = Z.to_nat (NDIRECT + 1);
  fo_size : 0 <= isize x <= MAXFILE * BSIZE;
  fo_blocks : forall bn, 0 <= bn -> bn * BSIZE < isize x -> 0 < file_block V x bn < size;
  fo_indirect : NDIRECT * BSIZE < isize x -> 0 < nth (Z.to_nat NDIRECT) (iaddrs x) 0 < size
}.

Lemma file_bytes_app V x off a b :
  file_bytes V x off (a + b) = file_bytes V x off a ++ file_bytes V x (off + Z.of_nat a) b.
Proof.
  unfold file_bytes. rewrite seq_app, map_app. f_equal. cbn [Nat.add].
  rewrite <- (Nat.add_0_r a) at 1. rewrite <- fmap_add_seq, map_map. apply map_ext.
  intros j. f_equal. lia.
Qed.

Lemma bytes_at_map d a n : bytes_at d a n = map (fun j => load8 d (a + Z.of_nat j)) (seq 0 n).
Proof.
  apply list_eq. intros k. destruct (decide (k < n)%nat) as [Hk|Hk].
  - by rewrite bytes_at_lookup, list_lookup_fmap, lookup_seq_lt by done.
  - rewrite !lookup_ge_None_2; [done|rewrite length_map, length_seq; lia|rewrite bytes_at_length; lia].
Qed.

(** Within one block the bytes of the file are those of the block. *)
Lemma file_bytes_block V x off n :
  0 <= off -> off mod BSIZE + Z.of_nat n <= BSIZE ->
  file_bytes V x off n = bytes_at (V (file_block V x (off / BSIZE))) (off mod BSIZE) n.
Proof.
  intros Ho Hn. rewrite bytes_at_map. unfold file_bytes. apply map_ext_in. intros j Hj%in_seq.
  unfold file_byte, BSIZE in *.
  replace ((off + Z.of_nat j) / 512) with (off / 512) by dlia.
  by replace ((off + Z.of_nat j) mod 512) with (off mod 512 + Z.of_nat j) by dlia.
Qed.

Lemma get_inode_ok ip x L s : icache s !! ip = Some x -> get_inode ip L s = Ok x L s.
Proof. intros H. unfold get_inode. kstep. by rewrite H. Qed.

Lemma get_addr_ok ip x k L s :
  icache s !! ip = Some x -> 0 <= k < Z.of_nat (length (iaddrs x)) ->
  get_addr ip k L s = Ok (nth (Z.to_nat k) (iaddrs x) 0) L s.
Proof.
  intros Hx Hk. unfold get_addr. erewrite bind_Ok by by apply get_inode_ok.
  destruct (aget_in (iaddrs x) k Hk) as [a Ha]. rewrite Ha.
  apply aget_Some in Ha as [_ Ha]. by rewrite (nth_lookup_Some _ _ 0 _ Ha).
Qed.

(** [ip->addrs[k]] when it is there. *)
Lemma addr_alloc_there ip x k L s :
  icache s !! ip = Some x -> 0 <= k < Z.of_nat (length (iaddrs x)) ->
  nth (Z.to_nat k) (iaddrs x) 0 <> 0 ->
  addr_alloc lock_addr ip k L s = Ok (nth (Z.to_nat k) (iaddrs x) 0) L s.
Proof.
  intros Hx Hk Hnz. unfold addr_alloc. erewrite bind_Ok by by apply get_addr_ok.
  by rewrite (proj2 (Z.eqb_neq _ _) Hnz).
Qed.

Lemma bmap_ok ip x s V P bn :
  bio_ok me mp (lb (fl s)) V [] P -> Z.of_nat (length P) < NBUF -> icache s !! ip = Some x ->
  file_ok (disksize (lb (fl s))) V x -> 0 <= bn -> bn * BSIZE < isize x ->
  exists t, bmap lock_addr ip bn [] s = Ok (file_block V x bn) [] (set_lb t s) /\
    bio_ok me mp t V [] P /\ quiet (lb (fl s)) t.
Proof.
  intros Hok Hroom Hx Hf Hbn Hlt. pose proof (fo_blocks _ _ _ Hf bn Hbn Hlt) as Hb.
  pose proof (fo_addrs _ _ _ Hf) as Hl. unfold bmap, file_block in *. destruct (Z.ltb_spec bn NDIRECT) as [Hd|Hd].
  - exists (lb (fl s)). split; [|split; [done|apply quiet_refl]].
    erewrite addr_alloc_there; [by destruct s as [[]]|done|unfold NDIRECT in *; lia|lia].
  - pose proof (fo_size _ _ _ Hf) as Hs. unfold MAXFILE in Hs.
    assert (Hin : bn - NDIRECT < NINDIRECT) by (unfold NINDIRECT, BSIZE, NDIRECT in *; dlia).
    rewrite (proj2 (Z.ltb_lt _ _) Hin).
    pose proof (fo_indirect _ _ _ Hf ltac:(unfold BSIZE in *; lia)) as Hi.
    erewrite bind_Ok; [|eapply addr_alloc_there; [done|unfold NDIRECT in *; lia|lia]].
    erewrite bind_Ok by by apply get_inode_ok. rewrite (fo_dev _ _ _ Hf).
    set (b12 := nth (Z.to_nat NDIRECT) (iaddrs x) 0) in *.
    destruct (peek_ok s V P b12 Hok) as (bp & s1 & t & R1 & _ & R2 & R3 & O & Q); [lia|done|].
    exists t. split; [|done]. erewrite bind_Ok by exact R1. erewrite bind_Ok by exact R2.
    rewrite (proj2 (Z.eqb_neq _ _)) by lia. kstep. by erewrite bind_Ok by exact R3.
Qed.

Lemma set_lb_twice t u s : set_lb t (set_lb u s) = set_lb t s.
Proof. by destruct s as [[]]. Qed.

Lemma file_ok_quiet s t V x :
  quiet s t -> file_ok (disksize s) V x -> file_ok (disksize t) V x.
Proof. intros [-> _ _]. done. Qed.

(** Blocks that [n] bytes from [off] reach into. *)
Definition blocks_of (off n : Z) : Z :=
  if n <=? 0 then 0 else (off mod BSIZE + n + (BSIZE - 1)) / BSIZE.

Lemma blocks_of_step off n m :
  m = Z.min n (BSIZE - off mod BSIZE) -> 0 < n -> 1 + blocks_of (off + m) (n - m) <= blocks_of off n.
Proof.
  intros Hm Hn. unfold blocks_of, BSIZE in *. destruct (Z.leb_spec n 0); [lia|].
  destruct (Z.leb_spec (n - m) 0); dlia.
Qed.

Lemma blocks_of_fuel off n : 0 <= n -> blocks_of off n < Z.of_nat (rw_fuel n).
Proof.
  intros Hn. unfold blocks_of, rw_fuel, BSIZE. destruct (Z.leb_spec n 0); dlia.
Qed.

Lemma blocks_of_nonneg off n : 0 <= blocks_of off n.
Proof. unfold blocks_of, BSIZE. destruct (Z.leb_spec n 0); dlia. Qed.

Lemma readi_loop_ok ip x V P fuel : forall s off tot n,
  bio_ok me mp (lb (fl s)) V [] P -> Z.of_nat (length P) < NBUF -> icache s !! ip = Some x ->
  file_ok (disksize (lb (fl s))) V x -> 0 <= off -> tot <= n -> off + (n - tot) <= isize x ->
  blocks_of off (n - tot) < Z.of_nat fuel ->
  exists t, readi_loop lock_addr ip off tot n fuel [] s =
      Ok (file_bytes V x off (Z.to_nat (n - tot))) [] (set_lb t s) /\
    bio_ok me mp t V [] P /\ quiet (lb (fl s)) t.
Proof.
  induction fuel as [|fuel IH]; intros s off tot n Hok Hroom Hx Hf Ho Ht Hsz Hfuel.
  { pose proof (blocks_of_nonneg off (n - tot)). lia. }
  cbn [readi_loop]. destruct (Z.ltb_spec tot n) as [Hlt|Hge].
  2: { exists (lb (fl s)). replace (Z.to_nat (n - tot)) with 0%nat by lia.
       split; [by destruct s as [[]]|]. split; [done|apply quiet_refl]. }
  destruct (bmap_ok ip x s V P (off / BSIZE) Hok Hroom Hx Hf) as (t1 & R1 & O1 & Q1);
    [unfold BSIZE; dlia|unfold BSIZE in *; dlia|].
  erewrite bind_Ok by exact R1. erewrite bind_Ok by (by apply get_inode_ok). rewrite (fo_dev _ _ _ Hf).
  pose proof (fo_blocks _ _ _ Hf (off / BSIZE) ltac:(unfold BSIZE; dlia) ltac:(unfold BSIZE in *; dlia)) as Hb.
  destruct (peek_ok (set_lb t1 s) V P (file_block V x (off / BSIZE)) O1) as (bp & s2 & t3 & R2 & _ & R3 & R4 & O3 & Q3);
    [cbn; rewrite (qu_size _ _ Q1); lia|done|].
  erewrite bind_Ok by exact R2. erewrite bind_Ok by exact R3. erewrite bind_Ok by exact R4.
  rewrite set_lb_twice. set (m := Z.min (n - tot) (BSIZE - off mod BSIZE)).
  assert (Hm : 0 < m <= n - tot /\ off mod BSIZE + m <= BSIZE) by (unfold m, BSIZE in *; dlia).
  pose proof (quiet_trans _ _ _ Q1 Q3) as Q.
  destruct (IH (set_lb t3 s) (off + m) (tot + m) n) as (t4 & R5 & O5 & Q5); try done; try lia.
  { cbn. by eapply file_ok_quiet. }
  { pose proof (blocks_of_step off (n - tot) m eq_refl ltac:(lia)).
    replace (n - (tot + m)) with (n - tot - m) by lia. lia. }
  erewrite bind_Ok by exact R5. exists t4. rewrite set_lb_twice. split; [|split; [done|by eapply quiet_trans]].
  unfold mret, K_ret. f_equal. rewrite <- file_bytes_block by lia.
  replace (Z.to_nat (n - tot)) with (Z.to_nat m + Z.to_nat (n - (tot + m)))%nat by lia.
  rewrite file_bytes_app. do 2 f_equal. lia.
Qed.

(** [readi] of a file returns the bytes of the file from [off] on: as many as
    asked for, or as there are, and -1 for an offset past the end.  It changes
    nothing on the disk and holds no buffer afterwards. *)
Lemma readi_spec fuel ip x s V P off n :
  bio_ok me mp (lb (fl s)) V [] P -> Z.of_nat (length P) < NBUF -> icache s !! ip = Some x ->
  file_ok (disksize (lb (fl s))) V x -> is_u32 off -> 0 <= n < 2 ^ 31 ->
  let got := Z.min n (isize x - off) in
  exists t, readi lock_addr ilock_addr input_r swtch fuel ip off n [] s =
      Ok (if off <=? isize x then (got, file_bytes V x off (Z.to_nat got)) else (-1, [])) [] (set_lb t s) /\
    bio_ok me mp t V [] P /\ quiet (lb (fl s)) t.
Proof.
  intros Hok Hroom Hx Hf Ho Hn got. unfold readi. erewrite bind_Ok by by apply get_inode_ok.
  rewrite (proj2 (Z.eqb_neq _ _) (fo_type _ _ _ Hf)). rewrite Z.gtb_ltb, Z.ltb_antisym.
  pose proof (fo_size _ _ _ Hf) as Hs. change (MAXFILE * BSIZE) with 71680 in Hs.
  destruct (Z.leb_spec off (isize x)) as [Hle|Hgt].
  2: { exists (lb (fl s)). split; [by destruct s as [[]]|]. split; [done|apply quiet_refl]. }
  unfold is_u32 in Ho. rewrite u32_small by lia.
  destruct (Z.ltb_spec (off + n) off); [lia|]. cbn [negb orb].
  assert ((if off + n >? isize x then isize x - off else n) = got) as ->.
  { rewrite Z.gtb_ltb. destruct (Z.ltb_spec (isize x) (off + n)); unfold got; lia. }
  destruct (readi_loop_ok ip x V P (rw_fuel got) s off 0 got Hok Hroom Hx Hf) as (t & R & O & Q);
    [lia|unfold got; lia|unfold got; lia| |].
  { rewrite Z.sub_0_r. apply blocks_of_fuel. unfold got. lia. }
  erewrite bind_Ok by exact R. exists t. rewrite Z.sub_0_r, i32_small by (unfold got; lia). done.
Qed.

(** *** Writing *)

Definition set_fl (g : lst) (s : fstate) : fstate := s <| fl := g |>.

(** The log's geometry and the disk are untouched. *)
Record same_log (a b : lst) : Prop := {
  sl_start : lstart (lg b) = lstart (lg a);
  sl_size : lsize (lg b) = lsize (lg a);
  sl_out : outstanding (lg b) = outstanding (lg a);
  sl_quiet : quiet (lb a) (lb b)
}.

Lemma same_log_refl a : same_log a a.
Proof. by split. Qed.
Lemma same_log_trans a b c : same_log a b -> same_log b c -> same_log a c.
Proof. intros [? ? ? ?] [? ? ? ?]. split; try congruence. by eapply quiet_trans. Qed.

Lemma in_txn_lb g t V V' H H' l :
  in_txn me mp g V H l -> bio_ok me mp t V' H' l -> disksize t = disksize (lb g) ->
  in_txn me mp (g <| lb := t |>) V' H' l.
Proof. intros [] Hok E. split; cbn; rewrite ?E; done. Qed.

Lemma only_buf_quiet i s t : only_buf i s t -> quiet s t.
Proof. intros []. by split. Qed.

(** A block that the log may take: not part of the log itself. *)
Definition loggable (g : lst) (n : Z) : Prop :=
  0 <= n < disksize (lb g) /\ ~ in_area (lstart (lg g)) (lsize (lg g) - 1) n.

Lemma loggable_same a b n : same_log a b -> loggable a n -> loggable b n.
Proof. intros [E1 E2 _ [E3 _ _]]. unfold loggable. by rewrite E1, E2, E3. Qed.

(** Reading a block, changing it and logging the change. *)
Lemma poke_ok s V l n f :
  in_txn me mp (fl s) V [] l -> 1 <= outstanding (lg (fl s)) -> loggable (fl s) n ->
  Z.of_nat (length l) < lsize (lg (fl s)) - 1 ->
  exists bp s1 s2 s3 g, fbread lock_addr 1 n [] s = Ok bp [] s1 /\ icache s1 = icache s /\
    fdata bp [] s1 = Ok (V n) [] s1 /\ fupd bp f [] s1 = Ok tt [] s2 /\
    flog_write bp [] s2 = Ok tt [] s3 /\ fbrelse lock_addr bp [] s3 = Ok tt [] (set_fl g s) /\
    in_txn me mp g (vset V n (f (V n))) [] (log_add l n) /\ same_log (fl s) g.
Proof.
  intros Ht Hop [Hn Ha] Hroom. pose proof (it_cache _ _ _ _ _ _ Ht) as Hok.
  pose proof (it_size _ _ _ _ _ _ Ht) as Hsz. unfold LOGSIZE, MAXOPBLOCKS in Hsz.
  destruct (bread_spec lock_addr me mp (lb (fl s)) V [] l n Hok Hn) as (i & t1 & R1 & _ & O1 & S1 & B1);
    [apply not_holding_nil|right; unfold NBUF, MAXOPBLOCKS; cbn; lia|].
  destruct (set_data_spec lock_addr me mp t1 V [i] l i n (V n) f O1) as (t2 & R2 & O2 & S2 & B2);
    [set_solver|done|].
  set (g2 := (fl s) <| lb := t2 |>).
  assert (Ht2 : in_txn me mp g2 (vset V n (f (V n))) [i] l).
  { eapply in_txn_lb; [done|done|]. by rewrite (ob_size _ _ _ B2), (ob_size _ _ _ B1). }
  assert (E2 : disksize (lb g2) = disksize (lb (fl s)))
    by (cbn; by rewrite (ob_size _ _ _ B2), (ob_size _ _ _ B1)).
  destruct (log_write_spec lock_addr me mp g2 _ [i] i n (f (V n)) l Ht2) as (g3 & R3 & Ht3 & S3 & B3 & E3);
    [set_solver|done|by rewrite E2|done|done|done|].
  destruct (brelse_spec lock_addr me mp (lb g3) _ [i] (log_add l n) i n (f (V n)) (it_cache _ _ _ _ _ _ Ht3))
    as (t4 & R4 & O4 & B4 & _); [set_solver|done|left; unfold log_add; case_decide; set_solver|].
  exists i, (set_lb t1 s), (set_lb t2 s), (set_fl g3 s), (g3 <| lb := t4 |>).
  split; [exact (zoom_Ok fl _ _ _ _ _ _ (zoom_Ok lb _ _ _ _ _ _ R1))|]. split; [done|].
  split; [unfold fdata; erewrite zoom_Ok by (eapply get_data_ok; exact S1); by destruct s as [[]]|].
  split; [unfold fupd; erewrite zoom_Ok by (apply zoom_Ok; exact R2); by destruct s as [[]]|].
  split; [unfold flog_write; erewrite zoom_Ok by exact R3; by destruct s|].
  split; [unfold fbrelse; erewrite zoom_Ok by (apply zoom_Ok; exact R4); by destruct s|].
  rewrite filter_cons_False in O4 by naive_solver. split.
  - eapply in_txn_lb; [done|done|]. apply B4.
  - split; cbn; [by rewrite E3..|].
    eapply quiet_trans; [apply (only_buf_quiet i); exact B1|].
    eapply quiet_trans; [apply (only_buf_quiet i); exact B2|].
    eapply quiet_trans; apply (only_buf_quiet i); [exact B3|exact B4].
Qed.

Lemma log_add_new l n : n ∉ l -> log_add l n = l ++ [n].
Proof. intros H. unfold log_add. by rewrite decide_False. Qed.

(** Operations that zero blocks, one after the other. *)
Lemma bzero_ok s V l n :
  in_txn me mp (fl s) V [] l -> 1 <= outstanding (lg (fl s)) -> loggable (fl s) n ->
  Z.of_nat (length l) < lsize (lg (fl s)) - 1 ->
  exists g V', bzero lock_addr 1 n [] s = Ok tt [] (set_fl g s) /\
    in_txn me mp g V' [] (log_add l n) /\ same_log (fl s) g.
Proof.
  intros Ht Ho Hn Hroom.
  destruct (poke_ok s V l n (fun d => memset d 0 0 BSIZE) Ht Ho Hn Hroom)
    as (bp & s1 & s2 & s3 & g & R1 & _ & _ & R3 & R4 & R5 & Ht' & Hs).
  eexists g, _. split; [|split; [exact Ht'|exact Hs]]. unfold bzero.
  erewrite bind_Ok by exact R1. erewrite bind_Ok by exact R3. by erewrite bind_Ok by exact R4.
Qed.

Lemma bzero_all_ok ns : forall s V l,
  in_txn me mp (fl s) V [] l -> 1 <= outstanding (lg (fl s)) -> Forall (loggable (fl s)) ns ->
  NoDup (l ++ ns) -> Z.of_nat (length l + length ns) <= lsize (lg (fl s)) - 1 ->
  exists g V', kiter (bzero lock_addr 1) ns [] s = Ok tt [] (set_fl g s) /\
    in_txn me mp g V' [] (l ++ ns) /\ same_log (fl s) g.
Proof.
  induction ns as [|n ns IH]; intros s V l Ht Ho Hn Hnd Hroom; cbn [kiter].
  { exists (fl s), V. rewrite app_nil_r. split; [by destruct s|]. split; [done|apply same_log_refl]. }
  apply Forall_cons in Hn as [Hn Hns]. cbn [length] in Hroom.
  destruct (bzero_ok s V l n Ht Ho Hn ltac:(lia)) as (g & V' & R & Ht' & Hs).
  erewrite bind_Ok by exact R. rewrite log_add_new in Ht' by (apply NoDup_app in Hnd; set_solver).
  destruct (IH (set_fl g s) V' (l ++ [n])) as (g2 & V2 & R2 & Ht2 & Hs2).
  - done.
  - cbn. by rewrite (sl_out _ _ Hs).
  - eapply Forall_impl; [exact Hns|]. intros m. by apply loggable_same.
  - by rewrite <- app_assoc.
  - cbn. rewrite (sl_size _ _ Hs), length_app. cbn. lia.
  - exists g2, V2. rewrite <- app_assoc in Ht2. split; [by rewrite R2|]. split; [done|]. by eapply same_log_trans.
Qed.

Lemma bzero_panics s V l n :
  in_txn me mp (fl s) V [] l -> 0 <= n < disksize (lb (fl s)) ->
  Z.of_nat (length l) = lsize (lg (fl s)) - 1 ->
  bzero lock_addr 1 n [] s = Panic "too big a transaction".
Proof.
  intros Ht Hn Hl. pose proof (it_cache _ _ _ _ _ _ Ht) as Hok.
  pose proof (it_size _ _ _ _ _ _ Ht) as Hsz. unfold LOGSIZE, MAXOPBLOCKS in Hsz.
  destruct (bread_spec lock_addr me mp (lb (fl s)) V [] l n Hok Hn) as (i & t1 & R1 & _ & O1 & S1 & B1);
    [apply not_holding_nil|right; unfold NBUF, MAXOPBLOCKS; cbn; lia|].
  destruct (set_data_spec lock_addr me mp t1 V [i] l i n (V n) (fun d => memset d 0 0 BSIZE) O1) as (t2 & R2 & _);
    [set_solver|done|].
  unfold bzero. erewrite bind_Ok by exact (zoom_Ok fl _ _ _ _ _ _ (zoom_Ok lb _ _ _ _ _ _ R1)).
  erewrite bind_Ok by (unfold fupd; apply zoom_Ok, zoom_Ok; exact R2).
  apply bind_Panic. unfold flog_write, zoom, log_write. kstep. cbn.
  rewrite (it_n _ _ _ _ _ _ Ht), Hl. rewrite (proj2 (Z.leb_le (lsize (lg (fl s)) - 1) _)) by lia.
  by rewrite orb_true_r.
Qed.

(** C40: Operations that stay within what [begin_op] reserved for them can
    panic.  [begin_op] reserves [MAXOPBLOCKS] blocks for each of up to three
    operations, [LOGSIZE] in all; but on the log that mkfs makes, of [LOGSIZE]
    blocks with its header, [log_write] takes one block less.  With nothing
    logged three operations are admitted, the first 29 blocks they zero are
    logged, and the thirtieth, the tenth of the third operation, panics. *)
Theorem reserved_write_panics (log_addr : Z) (lswtch : K lst unit) s V ns n
  (Ht : in_txn me mp (fl s) V [] []) (Ho : outstanding (lg (fl s)) = 0) (Hc : committing (lg (fl s)) = 0)
  (Hz : lsize (lg (fl s)) = LOGSIZE) (Hns : Forall (loggable (fl s)) (n :: ns)) (Hnd : NoDup (n :: ns))
  (Hlen : Z.of_nat (length (n :: ns)) = 3 * MAXOPBLOCKS) :
  let begin := zoom fl (begin_op log_addr lswtch 1) in
  exists s', (begin ;; begin ;; begin ;; kiter (bzero lock_addr 1) ns) [] s = Ok tt [] s' /\
    outstanding (lg (fl s')) = 3 /\ bzero lock_addr 1 n [] s' = Panic "too big a transaction".
Proof.
  intros begin. pose proof (it_n _ _ _ _ _ _ Ht) as Hn0. cbn in Hn0.
  destruct (bo_run _ _ _ _ _ _ (it_cache _ _ _ _ _ _ Ht)) as (p & Hr & _).
  assert (Hb : forall k, 0 <= k < 3 ->
    begin [] (s <| fl ::= fun x => x <| lg ::= fun g => g <| outstanding := k |> |> |>) =
      Ok tt [] (s <| fl ::= fun x => x <| lg ::= fun g => g <| outstanding := k + 1 |> |> |>)).
  { intros k Hk. set (g := (fl s) <| lg ::= fun g => g <| outstanding := k |> |>).
    destruct (begin_op_admits log_addr lswtch me g p 0) as [Hadmit _]; [exact Hr|cbn; lia|].
    unfold begin. erewrite zoom_Ok; [|apply Hadmit; cbn; rewrite Hn0; unfold LOGSIZE, MAXOPBLOCKS; split; [done|lia]].
    done. }
  assert (Hs0 : s = s <| fl ::= fun x => x <| lg ::= fun g => g <| outstanding := 0 |> |> |>)
    by (rewrite <- Ho; by destruct s as [[? []]]).
  pose proof (Hb 0 ltac:(lia)) as Hb0. rewrite <- Hs0 in Hb0. erewrite bind_Ok by exact Hb0.
  erewrite bind_Ok by (apply Hb; lia). erewrite bind_Ok by (apply Hb; lia).
  set (s3 := s <| fl ::= fun x => x <| lg ::= fun g => g <| outstanding := 0 + 1 + 1 + 1 |> |> |>).
  apply Forall_cons in Hns as [Hl Hls]. apply NoDup_cons in Hnd as [_ Hnd].
  unfold MAXOPBLOCKS, LOGSIZE in *. cbn [length] in Hlen.
  destruct (bzero_all_ok ns s3 V []) as (g & V' & R & Ht' & Hs).
  { by destruct Ht. } { done. } { done. } { done. } { cbn. rewrite Hz. unfold MAXOPBLOCKS. lia. }
  exists (set_fl g s3). split; [exact R|]. split; [cbn; by rewrite (sl_out _ _ Hs)|].
  apply (bzero_panics _ V' ([] ++ ns)); [done| |].
  - destruct Hl as [Hl _]. destruct (sl_quiet _ _ Hs) as [E _ _]. cbn in *. by rewrite E.
  - cbn. rewrite (sl_size _ _ Hs). cbn. rewrite Hz. unfold MAXOPBLOCKS. lia.
Qed.

(** Block numbers of the file's own range. *)
Definition in_file (x : inode) (bn : Z) : Prop := 0 <= bn /\ bn * BSIZE < isize x.

(** No block serves twice. *)
Record file_inj (V : Z -> block) (x : inode) : Prop := {
  fj_data : forall a b, in_file x a -> in_file x b -> file_block V x a = file_block V x b -> a = b;
  fj_indirect : forall a, in_file x a -> NDIRECT * BSIZE < isize x ->
    file_block V x a <> nth (Z.to_nat NDIRECT) (iaddrs x) 0
}.

(** [V'] is [V] with [src] at [off] in the file. *)
Record written (V V' : Z -> block) (x : inode) (off : Z) (src : list Z) : Prop := {
  wn_blocks : forall bn, in_file x bn -> file_block V' x bn = file_block V x bn;
  wn_bytes : forall k, 0 <= k < isize x -> file_byte V' x k =
    if (off <=? k) && (k <? off + Z.of_nat (length src)) then u8 (nth (Z.to_nat (k - off)) src 0)
    else file_byte V x k;
  wn_others : forall n, (forall bn, in_file x bn -> file_block V x bn <> n) -> V' n = V n
}.

Lemma written_nil V x off : written V V x off [].
Proof.
  split; try done. intros k Hk.
  destruct (Z.leb_spec off k), (Z.ltb_spec k (off + Z.of_nat (length (@nil Z)))); (done || cbn in *; lia).
Qed.

Lemma written_app V V1 V2 x off a b :
  written V V1 x off a -> written V1 V2 x (off + Z.of_nat (length a)) b -> written V V2 x off (a ++ b).
Proof.
  intros [A1 A2 A3] [B1 B2 B3]. split.
  - intros bn Hbn. by rewrite B1, A1.
  - intros k Hk. rewrite B2, A2, length_app by done.
    destruct (Z.leb_spec (off + Z.of_nat (length a)) k), (Z.ltb_spec k (off + Z.of_nat (length a) + Z.of_nat (length b))),
      (Z.leb_spec off k), (Z.ltb_spec k (off + Z.of_nat (length a))),
      (Z.ltb_spec k (off + Z.of_nat (length a + length b))); cbn [andb]; try lia; try done.
    + rewrite app_nth2 by lia. do 2 f_equal. lia.
    + by rewrite app_nth1 by lia.
  - intros n Hn. rewrite B3, A3; [done|done|]. intros bn Hbn. rewrite A1 by done. auto.
Qed.

Lemma written_ok size V V' x off src : written V V' x off src -> file_ok size V x -> file_ok size V' x.
Proof.
  intros [H _ _] [F1 F2 F3 F4 F5 F6]. split; try done. intros bn H1 H2. rewrite H by done. auto.
Qed.

Lemma written_inj V V' x off src : written V V' x off src -> file_inj V x -> file_inj V' x.
Proof.
  intros [H _ _] [F1 F2]. split.
  - intros a b Ha Hb. rewrite !H by done. auto.
  - intros a Ha. rewrite H by done. auto.
Qed.

(** Storing within one block. *)
Lemma written_block V x off src :
  file_inj V x -> src <> [] -> 0 <= off -> off + Z.of_nat (length src) <= isize x ->
  off mod BSIZE + Z.of_nat (length src) <= BSIZE ->
  written V (vset V (file_block V x (off / BSIZE))
    (store_bytes (V (file_block V x (off / BSIZE))) (off mod BSIZE) src)) x off src.
Proof.
  intros [F1 F2] Hne Ho Hsz Hb. set (bn := off / BSIZE). set (n := file_block V x bn).
  assert (0 < length src)%nat by (destruct src; [done|cbn; lia]).
  assert (Hbn : in_file x bn) by (unfold in_file, bn, BSIZE in *; dlia).
  assert (Hblk : forall a, in_file x a -> file_block (vset V n (store_bytes (V n) (off mod BSIZE) src)) x a =
    file_block V x a).
  { intros a [Ha1 Ha2]. unfold file_block. destruct (Z.ltb_spec a NDIRECT); [done|]. unfold vset.
    destruct (Z.eqb_spec (nth (Z.to_nat NDIRECT) (iaddrs x) 0) n) as [E|]; [|done].
    exfalso. apply (F2 bn Hbn); [unfold BSIZE in *; lia|]. by rewrite E. }
  split; [done| |].
  - intros k Hk. unfold file_byte. assert (Hki : in_file x (k / BSIZE)) by (unfold in_file, BSIZE; dlia).
    rewrite Hblk by done. unfold vset.
    destruct (Z.eqb_spec (file_block V x (k / BSIZE)) n) as [E|E].
    + apply F1 in E; [|done|done].
      destruct (Z.leb_spec off k), (Z.ltb_spec k (off + Z.of_nat (length src))); cbn [andb].
      2-4: unfold load8; rewrite store_bytes_out by (unfold bn, BSIZE in *; dlia); fold n; by rewrite E.
      destruct (lookup_lt_is_Some_2 src (Z.to_nat (k - off))) as [c Hc]; [lia|].
      rewrite (nth_lookup_Some _ _ 0 _ Hc). unfold load8.
      replace (k mod BSIZE) with (off mod BSIZE + Z.of_nat (Z.to_nat (k - off))) by (unfold bn, BSIZE in *; dlia).
      rewrite (store_bytes_in src _ _ _ c Hc). apply u8_small, u8_range.
    + destruct (Z.leb_spec off k), (Z.ltb_spec k (off + Z.of_nat (length src))); cbn [andb]; try done.
      exfalso. apply E. unfold n. f_equal. unfold bn, BSIZE in *. dlia.
  - intros m Hm. unfold vset. destruct (Z.eqb_spec m n) as [->|]; [|done]. by destruct (Hm bn Hbn).
Qed.

Lemma log_add_length l n : (length (log_add l n) <= S (length l))%nat.
Proof. unfold log_add. case_decide; [lia|rewrite length_app; cbn; lia]. Qed.

Lemma set_fl_twice g h s : set_fl g (set_fl h s) = set_fl g s.
Proof. by destruct s. Qed.

(** What the log and the cache must offer for the file to be written. *)
Record writable (g : lst) (V : Z -> block) (l : list Z) (x : inode) : Prop := {
  wr_txn : in_txn me mp g V [] l;
  wr_out : 1 <= outstanding (lg g);
  wr_ok : file_ok (disksize (lb g)) V x;
  wr_inj : file_inj V x;
  wr_log : forall bn, in_file x bn -> loggable g (file_block V x bn)
}.

Lemma writable_room g V l x : writable g V l x -> Z.of_nat (length l) < NBUF.
Proof.
  intros [Ht _ _ _ _]. pose proof (it_fits _ _ _ _ _ _ Ht). pose proof (it_size _ _ _ _ _ _ Ht).
  change NBUF with 30. change LOGSIZE with 30 in *. lia.
Qed.

Lemma writable_lb g V l x t :
  writable g V l x -> bio_ok me mp t V [] l -> quiet (lb g) t -> writable (g <| lb := t |>) V l x.
Proof.
  intros [Ht Ho Hf Hj Hl] Hok Hq. pose proof (qu_size _ _ Hq) as E. split; try done.
  - by eapply in_txn_lb.
  - by eapply file_ok_quiet.
  - intros bn Hbn. specialize (Hl bn Hbn). unfold loggable in *. cbn. by rewrite E.
Qed.

Lemma writable_written g g' V V' l l' x off src :
  writable g V l x -> same_log g g' -> in_txn me mp g' V' [] l' -> written V V' x off src ->
  writable g' V' l' x.
Proof.
  intros [Ht Ho Hf Hj Hl] Hs Ht' Hw. split; [done|by rewrite (sl_out _ _ Hs)| |by eapply written_inj|].
  - rewrite (qu_size _ _ (sl_quiet _ _ Hs)). by eapply written_ok.
  - intros bn Hbn. rewrite (wn_blocks _ _ _ _ _ Hw) by done. eapply loggable_same; eauto.
Qed.

Lemma writei_loop_ok ip x fuel : forall s V l off src,
  writable (fl s) V l x -> icache s !! ip = Some x -> 0 <= off ->
  off + Z.of_nat (length src) <= isize x -> blocks_of off (Z.of_nat (length src)) < Z.of_nat fuel ->
  Z.of_nat (length l) + blocks_of off (Z.of_nat (length src)) <= lsize (lg (fl s)) - 1 ->
  exists g V' l', writei_loop lock_addr ip src off fuel [] s =
      Ok (off + Z.of_nat (length src)) [] (set_fl g s) /\
    writable g V' l' x /\ same_log (fl s) g /\ written V V' x off src.
Proof.
  induction fuel as [|fuel IH]; intros s V l off src Hw Hx Ho Hsz Hfuel Hlog.
  { pose proof (blocks_of_nonneg off (Z.of_nat (length src))). lia. }
  cbn [writei_loop]. case_bool_decide as Hne.
  2: { destruct src; [|by contradict Hne]. exists (fl s), V, l. split; [|split; [done|]].
       - unfold mret, K_ret. f_equal; [cbn; lia|by destruct s].
       - split; [apply same_log_refl|apply written_nil]. }
  assert (0 < length src)%nat by (destruct src; [done|cbn; lia]).
  set (n := Z.of_nat (length src)) in *. set (m := Z.min n (BSIZE - off mod BSIZE)).
  assert (Hm : 0 < m <= n /\ off mod BSIZE + m <= BSIZE) by (unfold m, BSIZE in *; dlia).
  pose proof (blocks_of_step off n m eq_refl ltac:(lia)) as Hstep.
  pose proof (blocks_of_nonneg (off + m) (n - m)) as Hnn.
  assert (Hbn : in_file x (off / BSIZE)) by (unfold in_file, BSIZE in *; dlia).
  destruct (bmap_ok ip x s V l (off / BSIZE)) as (t & R1 & O1 & Q1);
    [apply Hw|by eapply writable_room|done|apply Hw|apply Hbn|apply Hbn|].
  pose proof (writable_lb _ _ _ _ t Hw O1 Q1) as Hw1.
  erewrite bind_Ok by exact R1. erewrite bind_Ok by (by apply get_inode_ok).
  rewrite (fo_dev _ _ _ (wr_ok _ _ _ _ Hw)).
  set (src1 := take (Z.to_nat m) src).
  assert (Hl1 : Z.of_nat (length src1) = m) by (unfold src1; rewrite length_take; lia).
  destruct (poke_ok (set_lb t s) V l (file_block V x (off / BSIZE))
    (fun d => store_bytes d (off mod BSIZE) src1))
    as (bp & s1 & s2 & s3 & g1 & R2 & _ & _ & R3 & R4 & R5 & T1 & S1);
    [apply Hw1|apply Hw1|by apply (wr_log _ _ _ _ Hw1)|cbn; lia|].
  erewrite bind_Ok by exact R2. erewrite bind_Ok by exact R3. erewrite bind_Ok by exact R4.
  erewrite bind_Ok by exact R5. replace (set_fl g1 (set_lb t s)) with (set_fl g1 s) by by destruct s as [[]].
  assert (Hwn := written_block V x off src1 (wr_inj _ _ _ _ Hw) ltac:(by intros E; rewrite E in Hl1; cbn in Hl1; lia)
    Ho ltac:(lia) ltac:(lia)).
  pose proof (writable_written _ _ _ _ _ _ _ _ _ Hw1 S1 T1 Hwn) as Hw2.
  pose proof (log_add_length l (file_block V x (off / BSIZE))).
  assert (Hl2 : Z.of_nat (length (drop (Z.to_nat m) src)) = n - m) by (rewrite length_drop; lia).
  destruct (IH (set_fl g1 s) _ _ (off + m) (drop (Z.to_nat m) src) Hw2 Hx) as (g & V' & l' & R6 & Hw3 & S3 & Hwn3);
    rewrite ?Hl2; cbn; rewrite ?(sl_size _ _ S1); cbn; try lia.
  exists g, V', l'. rewrite R6, set_fl_twice, Hl2. split; [f_equal; lia|]. split; [done|]. split.
  - eapply same_log_trans; [|done]. eapply same_log_trans; [|done]. by split.
  - rewrite <- (take_drop (Z.to_nat m) src). eapply written_app; [done|]. fold src1. by rewrite Hl1.
Qed.

(** [writei] of bytes that lie within a file stores them through the log, in
    place: the file has them from [off] on, its other bytes are as they were and
    so is every block of the disk that is not the file's. *)
Lemma writei_spec ip x s V l off src :
  writable (fl s) V l x -> icache s !! ip = Some x -> 0 <= off ->
  off + Z.of_nat (length src) <= isize x ->
  Z.of_nat (length l) + blocks_of off (Z.of_nat (length src)) <= lsize (lg (fl s)) - 1 ->
  exists g V' l', writei lock_addr ilock_addr ip src off [] s =
      Ok (Z.of_nat (length src)) [] (set_fl g s) /\
    writable g V' l' x /\ same_log (fl s) g /\ written V V' x off src.
Proof.
  intros Hw Hx Ho Hsz Hlog. pose proof (fo_size _ _ _ (wr_ok _ _ _ _ Hw)) as Hs.
  change (MAXFILE * BSIZE) with 71680 in Hs.
  unfold writei. erewrite bind_Ok by by apply get_inode_ok.
  rewrite (proj2 (Z.eqb_neq _ _) (fo_type _ _ _ (wr_ok _ _ _ _ Hw))).
  rewrite !u32_small by lia. rewrite Z.gtb_ltb, (proj2 (Z.ltb_ge (isize x) off)), (proj2 (Z.ltb_ge _ off)) by lia.
  cbn [orb]. rewrite Z.gtb_ltb, (proj2 (Z.ltb_ge _ _)) by (change (MAXFILE * BSIZE) with 71680; lia).
  destruct (writei_loop_ok ip x (rw_fuel (Z.of_nat (length src))) s V l off src) as (g & V' & l' & R & H);
    [done..|apply blocks_of_fuel; lia|done|].
  exists g, V', l'. split; [|done]. erewrite bind_Ok by exact R. erewrite bind_Ok by by apply get_inode_ok.
  rewrite (Z.gtb_ltb _ (isize x)), (proj2 (Z.ltb_ge (isize x) _)), andb_false_r by lia.
  kstep. unfold mret, K_ret. f_equal. apply i32_small. lia.
Qed.

Lemma file_bytes_length V x off n : length (file_bytes V x off n) = n.
Proof. unfold file_bytes. by rewrite length_map, length_seq. Qed.

Lemma written_read V V' x off src :
  written V V' x off src -> 0 <= off -> off + Z.of_nat (length src) <= isize x ->
  Forall (fun c => 0 <= c < 256) src -> file_bytes V' x off (length src) = src.
Proof.
  intros Hw Ho Hsz Hb. unfold file_bytes. apply list_eq. intros k.
  destruct (src !! k) as [c|] eqn:Hc.
  - pose proof (lookup_lt_Some _ _ _ Hc). rewrite list_lookup_fmap, lookup_seq_lt by done. cbn.
    rewrite (wn_bytes _ _ _ _ _ Hw) by lia.
    destruct (Z.leb_spec off (off + Z.of_nat k)), (Z.ltb_spec (off + Z.of_nat k) (off + Z.of_nat (length src))); try lia.
    cbn [andb]. replace (Z.to_nat (off + Z.of_nat k - off)) with k by lia.
    rewrite (nth_lookup_Some _ _ 0 _ Hc). f_equal. apply u8_small. by eapply (Forall_lookup_1 _ _ _ _ Hb).
  - apply lookup_ge_None in Hc. apply lookup_ge_None. by rewrite length_map, length_seq.
Qed.

Lemma written_elsewhere V V' x off src k n :
  written V V' x off src -> 0 <= k -> k + Z.of_nat n <= isize x ->
  k + Z.of_nat n <= off \/ off + Z.of_nat (length src) <= k -> file_bytes V' x k n = file_bytes V x k n.
Proof.
  intros Hw Hk Hsz Hd. unfold file_bytes. apply map_ext_in. intros j Hj%in_seq.
  rewrite (wn_bytes _ _ _ _ _ Hw) by lia.
  destruct (Z.leb_spec off (k + Z.of_nat j)), (Z.ltb_spec (k + Z.of_nat j) (off + Z.of_nat (length src))); (done || lia).
Qed.

(** C6: What [writei] stores in a file, [readi] returns.  Inside a transaction
    with room in the log, [writei] of bytes within the file succeeds; [readi]
    at that offset then returns them, and of any range of the file that they
    do not touch it returns what it returned before. *)
Theorem writei_readi fuel ip x s V l off src
  (Hw : writable (fl s) V l x) (Hx : icache s !! ip = Some x) (Ho : 0 <= off)
  (Hsz : off + Z.of_nat (length src) <= isize x) (Hb : Forall (fun c => 0 <= c < 256) src)
  (Hlog : Z.of_nat (length l) + blocks_of off (Z.of_nat (length src)) <= lsize (lg (fl s)) - 1) :
  let n := Z.of_nat (length src) in
  let read := readi lock_addr ilock_addr input_r swtch fuel ip in
  exists s1, writei lock_addr ilock_addr ip src off [] s = Ok n [] s1 /\
    (exists t, read off n [] s1 = Ok (n, src) [] t) /\
    forall k m, 0 <= k -> 0 <= m -> k + m <= isize x -> k + m <= off \/ off + n <= k ->
      exists d t t', read k m [] s = Ok (m, d) [] t /\ read k m [] s1 = Ok (m, d) [] t'.
Proof.
  intros n read. pose proof (fo_size _ _ _ (wr_ok _ _ _ _ Hw)) as Hs. change (MAXFILE * BSIZE) with 71680 in Hs.
  destruct (writei_spec ip x s V l off src Hw Hx Ho Hsz Hlog) as (g & V' & l' & R & Hw' & Hs' & Hwn).
  assert (Hread : forall s V l k m, writable (fl s) V l x -> icache s !! ip = Some x -> 0 <= k -> 0 <= m ->
    k + m <= isize x -> exists t, read k m [] s = Ok (m, file_bytes V x k (Z.to_nat m)) [] t).
  { intros s0 V0 l0 k m H0 Hx0 Hk Hm Hkm. destruct (readi_spec fuel ip x s0 V0 l0 k m) as (t & Rt & _);
      [apply H0|by eapply writable_room|done|apply H0|unfold is_u32; lia|lia|].
    exists (set_lb t s0). unfold read. rewrite Rt, (proj2 (Z.leb_le _ _)), Z.min_l by lia. done. }
  exists (set_fl g s). split; [done|]. split.
  - destruct (Hread (set_fl g s) V' l' off n Hw' Hx Ho) as (t & Rt); [lia|done|]. exists t. rewrite Rt.
    unfold n. by rewrite Nat2Z.id, (written_read _ _ _ _ _ Hwn).
  - intros k m Hk Hm Hkm Hd. destruct (Hread s V l k m Hw Hx Hk Hm Hkm) as (t & Rt).
    destruct (Hread (set_fl g s) V' l' k m Hw' Hx Hk Hm Hkm) as (t' & Rt').
    exists (file_bytes V x k (Z.to_nat m)), t, t'. split; [done|]. rewrite Rt'.
    by rewrite (written_elsewhere _ _ _ _ _ k (Z.to_nat m) Hwn) by lia.
Qed.

End contents.

(** *** Concrete runs *)

(** A file of 700 bytes in blocks 60 and 61, in the first entry of the cache. *)
Definition demo_inode : inode :=
  mkInode 1 7 1 (mkSleeplock 1 2) 1 T_FILE 0 0 1 700 [60; 61; 0; 0; 0; 0; 0; 0; 0; 0; 0; 0; 0].
Definition demo_fs (x : inode) : fstate :=
  mkFstate demo_txn [x] (mkSb 1000 941 200 30 2 32 58) demo_console [].

Lemma demo_blocks bn : in_file demo_inode bn -> bn = 0 \/ bn = 1.
Proof. unfold in_file, BSIZE. change (isize demo_inode) with 700. lia. Qed.

Lemma demo_writable : writable 0 2 (fl (demo_fs demo_inode)) demo_view [40] demo_inode.
Proof.
  split; [apply demo_in_txn|done| | |].
  - split; try done. intros bn H1 H2. by destruct (demo_blocks bn) as [-> | ->].
  - split; [by intros a b [-> | ->]%demo_blocks [-> | ->]%demo_blocks|done].
  - intros bn [-> | ->]%demo_blocks; (split; [by cbn|]); intros H; vm_compute in H; naive_solver.
Qed.

Lemma writei_readi_witness :
  let read := readi (fun i => 100 + Z.of_nat i) (fun i => 500 + Z.of_nat i) 99 (fun l t => Sleep 99 l t) 5 0 in
  exists s1, writei (fun i => 100 + Z.of_nat i) (fun i => 500 + Z.of_nat i) 0 [1; 2; 3; 4] 510 []
      (demo_fs demo_inode) = Ok 4 [] s1 /\
    (exists t, read 510 4 [] s1 = Ok (4, [1; 2; 3; 4]) [] t) /\
    forall k m, 0 <= k -> 0 <= m -> k + m <= 700 -> k + m <= 510 \/ 514 <= k ->
      exists d t t', read k m [] (demo_fs demo_inode) = Ok (m, d) [] t /\ read k m [] s1 = Ok (m, d) [] t'.
Proof.
  apply (writei_readi (fun i => 100 + Z.of_nat i) (fun i => 500 + Z.of_nat i) 99 (fun l t => Sleep 99 l t) 0 2
    5 0 demo_inode (demo_fs demo_inode) demo_view [40] 510 [1; 2; 3; 4] demo_writable); try done.
  repeat (constructor; [lia|]). constructor.
Defined.

(** A file system on which nothing is logged; blocks 100 to 129 are zeroed. *)
Definition demo_idle : fstate :=
  mkFstate (mkLst (cache_with [] demo_disk 1000) ((demo_log 0 []) <| outstanding := 0 |>)) []
    (mkSb 1000 941 200 30 2 32 58) demo_console [].

Lemma demo_idle_in_txn : in_txn 0 2 (fl demo_idle) demo_disk [] [].
Proof. split; try done; [apply fresh_ok|constructor..]. Qed.

Lemma reserved_write_panics_witness :
  let begin := zoom fl (begin_op 50 (fun l t => Sleep 50 l t) 1) in
  exists s', (begin ;; begin ;; begin ;;
      kiter (bzero (fun i => 100 + Z.of_nat i) 1) (map Z.of_nat (seq 101 29))) [] demo_idle = Ok tt [] s' /\
    outstanding (lg (fl s')) = 3 /\
    bzero (fun i => 100 + Z.of_nat i) 1 100 [] s' = Panic "too big a transaction".
Proof.
  apply (reserved_write_panics (fun i => 100 + Z.of_nat i) (fun i => 500 + Z.of_nat i) 0 2 50 (fun l t => Sleep 50 l t) demo_idle demo_disk
    (map Z.of_nat (seq 101 29)) 100 demo_idle_in_txn); try done.
  - apply Forall_forall. intros x Hx.
    assert (100 <= x <= 129)
      by (apply elem_of_cons in Hx as [->|(k & -> & Hk%elem_of_seq)%list_elem_of_fmap]; lia).
    unfold loggable, in_area. change (disksize (lb (fl demo_idle))) with 1000.
    change (lstart (lg (fl demo_idle))) with 2. change (lsize (lg (fl demo_idle))) with 30. lia.
  - apply (bool_decide_eq_true_1 (NoDup _)). by vm_compute.
Defined.

Lemma dinode_roundtrip_witness :
  same_dinode (load_dinode (store_dinode (fun _ => 9) (dip_off 7) demo_inode) (dip_off 7) demo_inode) demo_inode /\
  (3 mod IPB <> 7 mod IPB ->
   load_dinode (store_dinode (fun _ => 9) (dip_off 7) demo_inode) (dip_off 3) demo_inode =
   load_dinode (fun _ => 9) (dip_off 3) demo_inode).
Proof.
  apply (dinode_roundtrip (fun _ => 9) demo_inode demo_inode 3); try done.
  split; try done. repeat (constructor; [done|]). constructor.
Defined.

(** The path "/usr//bin". *)
Lemma skipelem_elements_witness :
  exists rest name', skipelem [47; 117; 115; 114; 47; 47; 98; 105; 110] (replicate 14 0) = Some (rest, name') /\
    elements rest = [[98; 105; 110]] /\ (rest = [] <-> [[98; 105; 110]] = []) /\
    holds_name name' [117; 115; 114] /\ length name' = Z.to_nat DIRSIZ.
Proof. exact (skipelem_elements [47; 117; 115; 114; 47; 47; 98; 105; 110] (replicate 14 0) eq_refl). Defined.

End FsSpec.
