(* ===== verification/DirSpec.v ===== *)
(** Directories and the inode table (fs.c): [iget] keeps one entry per inode
    and counts its references, [namecmp] compares names cut after [DIRSIZ]
    bytes, and [dirlookup] finds the first entry of a directory with a given
    name. *)

From stdpp Require Import base numbers list sets strings.
From Stdlib Require Import ZArith Lia.
From S2P Require Import Prelude Mem CString Mmu Seg Kalloc Param Printf Kbd Proc Sleeplock Console.
From S2P Require Import Bio BioSpec Log LogSpec LogCrash Inode Fs FsSpec.
Import CString Mmu Seg Kalloc Param Printf Proc Sleeplock Console Bio BioSpec Log LogSpec LogCrash Inode Fs FsSpec.
Open Scope Z_scope.

Module DirSpec.

(** *** The inode table *)

(** The entry is in use for inode [n] of device [dev]. *)
Definition is_for (dev n : Z) (x : inode) : Prop := 0 < iref x /\ idev x = dev /\ inum x = n.

#[export] Instance is_for_decision dev n x : Decision (is_for dev n x).
Proof. unfold is_for. apply _. Defined.

(** No two entries in use hold the same inode, and no count is negative. *)
Record icache_ok (l : list inode) : Prop := {
  ic_unique : forall i j x y, l !! i = Some x -> l !! j = Some y ->
    is_for (idev y) (inum y) x -> 0 < iref y -> i = j;
  ic_counts : Forall (fun x => 0 <= iref x < 2 ^ 31 - 1) l
}.

(** References to an inode. *)
Fixpoint irefs (l : list inode) (dev n : Z) : Z :=
  match l with
  | [] => 0
  | x :: r => (if bool_decide (idev x = dev /\ inum x = n) then iref x else 0) + irefs r dev n
  end.

Lemma iget_scan_hit dev n l : forall i e k x,
  l !! k = Some x -> is_for dev n x -> (forall j y, (j < k)%nat -> l !! j = Some y -> ~ is_for dev n y) ->
  iget_scan dev n l i e = inl (i + k)%nat.
Proof.
  induction l as [|y l IH]; intros i e [|k] x Hx Hf Hb; try done; cbn [iget_scan].
  - injection Hx as ->. destruct Hf as (? & -> & ->). rewrite Z.gtb_ltb, (proj2 (Z.ltb_lt _ _)), !Z.eqb_refl by done.
    cbn. f_equal. lia.
  - pose proof (Hb 0%nat y ltac:(lia) eq_refl) as Hy. unfold is_for in Hy.
    destruct ((iref y >? 0) && (idev y =? dev) && (inum y =? n)) eqn:E.
    + rewrite Z.gtb_ltb in E. apply andb_true_iff in E as [[?%Z.ltb_lt ?%Z.eqb_eq]%andb_true_iff ?%Z.eqb_eq]. tauto.
    + rewrite (IH (S i) _ k x); [f_equal; lia|done|done|]. intros j z Hj Hz. apply (Hb (S j) z); [lia|done].
Qed.

(** The first entry not in use. *)
Definition first_free (l : list inode) : option nat := fst <$> list_find (fun x => iref x = 0) l.

Lemma iget_scan_miss dev n l : forall i e,
  (forall j y, l !! j = Some y -> ~ is_for dev n y) ->
  iget_scan dev n l i e = inr (match e with Some k => Some k | None => Nat.add i <$> first_free l end).
Proof.
  induction l as [|y l IH]; intros i e Hb; cbn [iget_scan]; [by destruct e|].
  pose proof (Hb 0%nat y eq_refl) as Hy. unfold is_for in Hy.
  destruct ((iref y >? 0) && (idev y =? dev) && (inum y =? n)) eqn:E.
  { rewrite Z.gtb_ltb in E. apply andb_true_iff in E as [[?%Z.ltb_lt ?%Z.eqb_eq]%andb_true_iff ?%Z.eqb_eq]. tauto. }
  rewrite IH by (intros j z; apply (Hb (S j))). f_equal. destruct e; [done|]. unfold first_free. cbn [list_find].
  destruct (Z.eqb_spec (iref y) 0); [rewrite decide_True by done; cbn; f_equal; lia|].
  rewrite decide_False by done. destruct (list_find _ l) as [[]|]; cbn; [f_equal; lia|done].
Qed.

(** Whether some entry holds the inode. *)
Lemma is_for_dec dev n (l : list inode) :
  (exists k x, l !! k = Some x /\ is_for dev n x /\ forall j y, (j < k)%nat -> l !! j = Some y -> ~ is_for dev n y) \/
  forall j y, l !! j = Some y -> ~ is_for dev n y.
Proof.
  destruct (list_find (is_for dev n) l) as [[k x]|] eqn:E.
  - left. apply list_find_Some in E as (? & ? & H). exists k, x. naive_solver.
  - right. apply list_find_None in E. intros j y Hy. by apply (Forall_lookup_1 _ _ _ _ E Hy).
Qed.

Lemma upd_inode_ok i f x L s :
  icache s !! i = Some x -> upd_inode i f L s = Ok tt L (s <| icache ::= fun l => <[i := f x]> l |>).
Proof. intros Hx. unfold upd_inode. by erewrite bind_Ok by by apply get_inode_ok. Qed.

(** What [iget] leaves in the entry it returns. *)
Lemma icache_ok_insert l i x dev n :
  icache_ok l -> is_for dev n x -> iref x < 2 ^ 31 - 1 ->
  (forall j y, l !! j = Some y -> is_for dev n y -> j = i) -> icache_ok (<[i := x]> l).
Proof.
  intros [U C] (Hx1 & Hx2 & Hx3) Hlt Ho. split; [|by apply Forall_insert; [|lia]].
  intros a b y z Hy Hz Hyz Hz0. apply list_lookup_insert_Some in Hy, Hz.
  destruct Hy as [(-> & <- & _)|(Ha & Hy)], Hz as [(-> & <- & _)|(Hb & Hz)]; [done| | |by eapply U].
  - destruct Hyz as (_ & E1 & E2). symmetry. apply (Ho b z Hz). split_and!; congruence.
  - destruct Hyz as (H1 & E1 & E2). apply (Ho a y Hy). split_and!; congruence.
Qed.

Lemma irefs_insert l i x y dev n :
  l !! i = Some y -> idev x = dev -> inum x = n ->
  irefs (<[i := x]> l) dev n =
    irefs l dev n + iref x - (if bool_decide (idev y = dev /\ inum y = n) then iref y else 0).
Proof.
  revert i. induction l as [|z l IH]; intros [|i] Hy E1 E2; try done; cbn [irefs list_insert insert].
  - injection Hy as ->. rewrite (bool_decide_true (idev x = dev /\ inum x = n)) by done. lia.
  - setoid_rewrite (IH i Hy E1 E2). lia.
Qed.

Lemma irefs_insert_ne l i x y dev n :
  l !! i = Some y -> ~ (idev x = dev /\ inum x = n) -> ~ (idev y = dev /\ inum y = n) \/ iref y = 0 ->
  irefs (<[i := x]> l) dev n = irefs l dev n.
Proof.
  revert i. induction l as [|z l IH]; intros [|i] Hy E1 E2; try done; cbn [irefs list_insert insert].
  - injection Hy as ->. rewrite (bool_decide_false (idev x = dev /\ inum x = n)) by done.
    case_bool_decide; [destruct E2; [done|lia]|done].
  - by setoid_rewrite (IH i Hy E1 E2).
Qed.

Lemma irefs_none l dev n : icache_ok l -> (forall j y, l !! j = Some y -> ~ is_for dev n y) -> irefs l dev n = 0.
Proof.
  intros [_ C]. induction C as [|y l Hy C IH]; intros Hb; [done|]. cbn [irefs].
  rewrite IH by (intros j z; apply (Hb (S j))). case_bool_decide as E; [|lia].
  pose proof (Hb 0%nat y eq_refl). unfold is_for in *. lia.
Qed.

(** C19: [iget] hands out the one entry of an inode.  While the table has an
    entry for it or a free one, [iget] returns an entry that is in use for
    that inode, counts one more reference to it and none more to any other,
    and keeps the table without duplicates. *)
Theorem iget_refs s dev n
  (Hok : icache_ok (icache s))
  (Hmax : forall j y, icache s !! j = Some y -> is_for dev n y -> iref y < 2 ^ 31 - 2)
  (Hfree : (exists j y, icache s !! j = Some y /\ is_for dev n y) \/ first_free (icache s) <> None) :
  exists i x s', iget dev n [] s = Ok i [] s' /\ icache s' !! i = Some x /\ is_for dev n x /\
    icache_ok (icache s') /\ irefs (icache s') dev n = irefs (icache s) dev n + 1 /\
    forall dev' n', (dev', n') <> (dev, n) -> irefs (icache s') dev' n' = irefs (icache s) dev' n'.
Proof.
  unfold iget. kstep. kstep. destruct (is_for_dec dev n (icache s)) as [(k & x & Hx & Hf & Hb)|Hb].
  - rewrite (iget_scan_hit dev n _ 0 None k x Hx Hf Hb). cbn [Nat.add].
    pose proof (Hmax k x Hx Hf) as Hlt. destruct Hf as (Hf1 & Hf2 & Hf3).
    set (x' := x <| iref := i32 (iref x + 1) |>).
    assert (Ex : iref x' = iref x + 1) by (apply i32_small; lia).
    erewrite bind_Ok by (apply upd_inode_ok; exact Hx). kstep.
    exists k, x'. eexists. split; [reflexivity|]. cbn -[x'].
    assert (Hf' : is_for dev n x') by (split; [rewrite Ex; lia|done]).
    split; [apply list_lookup_insert_eq; by eapply lookup_lt_Some|]. split; [done|]. split; [|split].
    + eapply (icache_ok_insert _ _ x' dev n); [done|done|rewrite Ex; lia|].
      intros j y Hy (? & E1 & E2). symmetry. apply (ic_unique _ Hok _ _ _ _ Hx Hy); [|done].
      rewrite E1, E2. done.
    + rewrite (irefs_insert _ _ x' x) by done. rewrite bool_decide_true, Ex by done. lia.
    + intros dev' n' Hne. apply (irefs_insert_ne _ _ _ x); [done|cbn; naive_solver|left; naive_solver].
  - rewrite iget_scan_miss by done. destruct Hfree as [(j & y & Hy & Hf)|Hfree]; [by destruct (Hb j y Hy)|].
    unfold first_free in *. destruct (list_find _ (icache s)) as [[k x]|] eqn:E; [|done]. cbn [fmap option_fmap option_map fst Nat.add].
    apply list_find_Some in E as (Hx & Hx0 & _).
    set (x' := x <| idev := dev |> <| inum := n |> <| iref := 1 |> <| ivalid := 0 |>).
    erewrite bind_Ok by (apply upd_inode_ok; exact Hx). kstep.
    exists k, x'. eexists. split; [reflexivity|]. cbn -[x'].
    split; [apply list_lookup_insert_eq; by eapply lookup_lt_Some|]. split; [done|]. split; [|split].
    + eapply (icache_ok_insert _ _ _ dev n); [done|done|cbn; lia|]. intros j y Hy Hf. by destruct (Hb j y Hy).
    + rewrite (irefs_insert _ _ _ x) by done. cbn. case_bool_decide; lia.
    + intros dev' n' Hne. apply (irefs_insert_ne _ _ _ x); [done|cbn; naive_solver|by right].
Qed.

(** *** Names *)

(** The name in an array: its bytes up to the first 0, at most [n] of them. *)
Fixpoint cut_name (n : nat) (l : list Z) : list Z :=
  match n, l with
  | S n', c :: r => if u8 c =? 0 then [] else u8 c :: cut_name n' r
  | _, _ => []
  end.

Lemma cstrn_cut m n : forall p l,
  (forall k, (k < n)%nat -> m (p + Z.of_nat k) = nth k l 0) -> cstrn m p n = cut_name n l.
Proof.
  induction n as [|n IH]; intros p l Hm; [done|]. cbn [cstrn cut_name]. unfold load8.
  pose proof (Hm 0%nat ltac:(lia)) as H0. cbn [Z.of_nat] in H0. rewrite Z.add_0_r in H0. rewrite H0.
  destruct l as [|c l]; [done|]. cbn [nth]. destruct (u8 c =? 0); [done|]. f_equal. apply IH. intros k Hk.
  specialize (Hm (S k) ltac:(lia)). cbn [nth] in Hm. rewrite <- Hm. f_equal. lia.
Qed.

Lemma namecmp_zero s t :
  namecmp s t = 0 <-> cut_name (Z.to_nat DIRSIZ) s = cut_name (Z.to_nat DIRSIZ) t.
Proof.
  unfold namecmp. rewrite strncmp_bytes_cmp, (bytes_cmp_eq _ _ (cstrn_range _ _ _) (cstrn_range _ _ _)).
  rewrite (cstrn_cut _ _ 0 s), (cstrn_cut _ _ DIRSIZ t); [done|..]; intros k Hk; unfold two_names, DIRSIZ in *.
  - destruct (Z.ltb_spec (14 + Z.of_nat k) 14); [lia|]. f_equal. lia.
  - destruct (Z.ltb_spec (0 + Z.of_nat k) 14); [|lia]. f_equal. lia.
Qed.

(** *** Lookup *)

(** The entries of a directory, and the one that carries the name. *)
Definition entries (V : Z -> block) (x : inode) : list (list Z) :=
  map (fun k => file_bytes V x (sizeof_dirent * Z.of_nat k) (Z.to_nat sizeof_dirent))
    (seq 0 (Z.to_nat (isize x / sizeof_dirent))).
Definition names (name de : list Z) : Prop :=
  de_inum de <> 0 /\ cut_name (Z.to_nat DIRSIZ) name = cut_name (Z.to_nat DIRSIZ) (de_name de).

Lemma names_iff name de :
  negb (de_inum de =? 0) && (namecmp name (de_name de) =? 0) = true <-> names name de.
Proof.
  unfold names. rewrite andb_true_iff, negb_true_iff, Z.eqb_neq, Z.eqb_eq, namecmp_zero. done.
Qed.

Section lookup.
Variables (lock_addr ilock_addr : nat -> Z) (input_r : Z) (swtch : K fstate unit) (me : nat) (mp : Z).

(** What the search from entry [k] on returns. *)
Definition search_from (V : Z -> block) (x : inode) (name : list Z) (k : nat) : option (Z * Z) :=
  '(j, de) ← list_find (names name) (drop k (entries V x));
  Some (de_inum de, sizeof_dirent * Z.of_nat (k + j)).

Lemma entries_drop V x k : (k < Z.to_nat (isize x / sizeof_dirent))%nat ->
  drop k (entries V x) = file_bytes V x (sizeof_dirent * Z.of_nat k) (Z.to_nat sizeof_dirent) ::
    drop (S k) (entries V x).
Proof.
  intros Hk. apply drop_S. unfold entries. rewrite list_lookup_fmap, lookup_seq_lt by done. done.
Qed.

Lemma search_from_step V x name k : (k < Z.to_nat (isize x / sizeof_dirent))%nat ->
  let de := file_bytes V x (sizeof_dirent * Z.of_nat k) (Z.to_nat sizeof_dirent) in
  search_from V x name k =
    if negb (de_inum de =? 0) && (namecmp name (de_name de) =? 0)
    then Some (de_inum de, sizeof_dirent * Z.of_nat k) else search_from V x name (S k).
Proof.
  intros Hk de. unfold search_from. rewrite entries_drop by done. fold de. cbn [list_find].
  pose proof (names_iff name de) as Hn. destruct (negb _ && _).
  - rewrite decide_True by (by apply Hn). cbn. do 3 f_equal. lia.
  - rewrite decide_False by (intros H%Hn; done).
    destruct (list_find _ _) as [[j d]|]; cbn; [|done]. do 3 f_equal. lia.
Qed.

Lemma dir_search_ok fuel dp x V P name n : forall s k,
  bio_ok me mp (lb (fl s)) V [] P -> Z.of_nat (length P) < NBUF -> icache s !! dp = Some x ->
  file_ok (disksize (lb (fl s))) V x -> isize x mod sizeof_dirent = 0 ->
  (k <= Z.to_nat (isize x / sizeof_dirent))%nat -> (Z.to_nat (isize x / sizeof_dirent) - k < n)%nat ->
  exists t, dir_search lock_addr ilock_addr input_r swtch fuel dp name (sizeof_dirent * Z.of_nat k) n [] s =
      Ok (search_from V x name k) [] (set_lb t s) /\
    bio_ok me mp t V [] P /\ quiet (lb (fl s)) t.
Proof.
  induction n as [|n IH]; intros s k Hok Hroom Hx Hf Hmod Hk Hn; [lia|]. cbn [dir_search].
  pose proof (fo_size _ _ _ Hf) as Hs. change (MAXFILE * BSIZE) with 71680 in Hs.
  erewrite bind_Ok by by apply get_inode_ok. unfold sizeof_dirent in *.
  destruct (Z.ltb_spec (16 * Z.of_nat k) (isize x)) as [Hlt|Hge].
  2: { exists (lb (fl s)). split; [|split; [done|apply quiet_refl]].
       unfold search_from. rewrite drop_ge; [by destruct s as [[]]|].
       unfold entries, sizeof_dirent. rewrite length_map, length_seq. dlia. }
  assert (Hk' : (k < Z.to_nat (isize x / 16))%nat) by dlia.
  destruct (readi_spec lock_addr ilock_addr input_r swtch me mp fuel dp x s V P (16 * Z.of_nat k) 16)
    as (t & R & O & Q); [done..|unfold is_u32; lia|lia|].
  rewrite (proj2 (Z.leb_le _ _)), Z.min_l in R by dlia. erewrite bind_Ok by exact R. cbn [negb].
  rewrite Z.eqb_refl. cbn [negb]. change 16 with sizeof_dirent. rewrite search_from_step by done.
  destruct (negb _ && _).
  - exists t. done.
  - destruct (IH (set_lb t s) (S k)) as (t2 & R2 & O2 & Q2); try done; try lia; [by eapply file_ok_quiet|].
    exists t2. rewrite set_lb_twice in R2. rewrite <- R2. split; [|split; [done|by eapply quiet_trans]].
    f_equal. unfold sizeof_dirent. rewrite u32_small by lia. lia.
Qed.

Lemma dirlookup_run fuel dp x s V P name
  (Hok : bio_ok me mp (lb (fl s)) V [] P) (Hroom : Z.of_nat (length P) < NBUF) (Hx : icache s !! dp = Some x)
  (Hf : file_ok (disksize (lb (fl s))) V x) (Ht : itype x = T_DIR) (Hmod : isize x mod sizeof_dirent = 0) :
  exists t, bio_ok me mp t V [] P /\ disk t = disk (lb (fl s)) /\
    dirlookup lock_addr ilock_addr input_r swtch fuel dp name [] s =
      match list_find (names name) (entries V x) with
      | Some (k, de) => (i ← iget (idev x) (de_inum de); mret (Some (i, sizeof_dirent * Z.of_nat k))) [] (set_lb t s)
      | None => Ok None [] (set_lb t s)
      end.
Proof.
  pose proof (fo_size _ _ _ Hf) as Hs. unfold dirlookup. erewrite bind_Ok by by apply get_inode_ok.
  rewrite Ht, Z.eqb_refl. cbn [negb].
  destruct (dir_search_ok fuel dp x V P name (dir_fuel x) s 0 Hok Hroom Hx Hf Hmod) as (t & R & O & Q);
    [lia|unfold dir_fuel; lia|].
  exists t. split; [done|]. split; [apply Q|]. erewrite bind_Ok by exact R. unfold search_from. rewrite drop_0.
  by destruct (list_find _ _) as [[k de]|].
Qed.

(** C18: [dirlookup] returns the first entry in use whose name, cut after
    [DIRSIZ] bytes, is the name asked for: an inode-table entry for the number
    it holds and its offset; nothing when there is none; and it changes
    neither the disk nor what readers see there. *)
Theorem dirlookup_finds fuel dp x s V P name
  (Hok : bio_ok me mp (lb (fl s)) V [] P) (Hroom : Z.of_nat (length P) < NBUF) (Hx : icache s !! dp = Some x)
  (Hf : file_ok (disksize (lb (fl s))) V x) (Ht : itype x = T_DIR) (Hmod : isize x mod sizeof_dirent = 0) :
  exists t, bio_ok me mp t V [] P /\ disk t = disk (lb (fl s)) /\
    dirlookup lock_addr ilock_addr input_r swtch fuel dp name [] s =
      match list_find (names name) (entries V x) with
      | Some (k, de) => (i ← iget (idev x) (de_inum de); mret (Some (i, sizeof_dirent * Z.of_nat k))) [] (set_lb t s)
      | None => Ok None [] (set_lb t s)
      end.
Proof. exact (dirlookup_run fuel dp x s V P name Hok Hroom Hx Hf Ht Hmod). Qed.

End lookup.

(** *** Concrete runs *)

(** A root directory of two entries: inode 1 as "." and inode 7 as "a". *)
Definition demo_dir : inode :=
  mkInode 1 1 1 (mkSleeplock 1 2) 1 T_DIR 0 0 1 32 [60; 0; 0; 0; 0; 0; 0; 0; 0; 0; 0; 0; 0].
Definition demo_dir_disk : Z -> block :=
  vset (fun _ _ => 0) 60 (fun k => nth (Z.to_nat k) ([1; 0; 46] ++ replicate 13 0 ++ [7; 0; 97]) 0).
Definition demo_dir_fs : fstate :=
  mkFstate (mkLst (cache_with [] demo_dir_disk 1000) (demo_log 0 [])) [demo_dir; demo_inode]
    (mkSb 1000 941 200 30 2 32 58) demo_console [].

Lemma dirlookup_finds_witness :
  exists t, bio_ok 0 2 t demo_dir_disk [] [] /\ disk t = demo_dir_disk /\
    dirlookup (fun i => 100 + Z.of_nat i) (fun i => 500 + Z.of_nat i) 99 (fun l t => Sleep 99 l t) 5 0 [97; 0; 5]
      [] demo_dir_fs = (i ← iget 1 7; mret (Some (i, 16))) [] (set_lb t demo_dir_fs).
Proof.
  destruct (dirlookup_finds (fun i => 100 + Z.of_nat i) (fun i => 500 + Z.of_nat i) 99 (fun l t => Sleep 99 l t) 0 2
    5 0 demo_dir demo_dir_fs demo_dir_disk [] [97; 0; 5]) as (t & O & D & R); [apply fresh_ok|done|done| |done|done|].
  - split; try done. intros bn H1 H2. change (isize demo_dir) with 32 in H2. unfold BSIZE in H2.
    by replace bn with 0 by lia.
  - exists t. split; [done|]. split; [done|]. rewrite R.
    assert (list_find (names [97; 0; 5]) (entries demo_dir_disk demo_dir) =
      Some (1%nat, [7; 0; 97] ++ replicate 13 0)) as -> by by vm_compute. done.
Defined.

Lemma demo_icache_ok : icache_ok [demo_dir; demo_inode].
Proof.
  split; [|repeat (constructor; [done|]); constructor].
  by intros [|[|]] [|[|]] x y [= <-] [= <-] (? & ? & ?) ?.
Qed.

Lemma iget_refs_witness :
  exists i x s', iget 1 7 [] demo_dir_fs = Ok i [] s' /\ icache s' !! i = Some x /\ is_for 1 7 x /\
    icache_ok (icache s') /\ irefs (icache s') 1 7 = irefs (icache demo_dir_fs) 1 7 + 1 /\
    forall dev' n', (dev', n') <> (1, 7) -> irefs (icache s') dev' n' = irefs (icache demo_dir_fs) dev' n'.
Proof.
  apply (iget_refs demo_dir_fs 1 7 demo_icache_ok).
  - by intros [|[|]] y [= <-] ?.
  - left. by exists 1%nat, demo_inode.
Defined.

End DirSpec.
