(* ===== verification/File.v ===== *)
(** Open files (file.c) and the creation of pipes ([pipealloc] of pipe.c).

    A [struct file *] is an index into [ftable.file].  From here up a function
    that has to wait, for a lock, for room in the log, for a pipe or for input,
    has outcome [Sleep]; what happens around such a wait is the subject of
    Sleeplock.v, LogCrash.v and Pipe.v. *)

From stdpp Require Import base numbers list gmap sets strings.
From Stdlib Require Import ZArith Lia.
From S2P Require Import Prelude Mem CString Mmu Seg Kalloc Param Printf Proc Sleeplock Pipe Console.
From S2P Require Import Bio Log Inode Fs.
Import CString Mmu Seg Kalloc Param Proc Sleeplock Console Bio Log Inode Fs.

Module File.

Inductive filetype := FD_NONE | FD_PIPE | FD_INODE.
#[export] Instance filetype_eq_dec : EqDecision filetype.
Proof. solve_decision. Defined.

Record file := mkFile {
  ftype : filetype; fref : Z; readable : Z; writable : Z;
  fpipe : Z; fip : option nat; foff : Z }.
#[export] Instance eta_file : Eta file := fun f =>
  mkFile f.(ftype) f.(fref) f.(readable) f.(writable) f.(fpipe) f.(fip) f.(foff).

(** The file system with [ftable], the pipes by the address of their page,
    and the user memory of the running process. *)
Record filest := mkFilest {
  fs : fstate; ftable : list file; pipes : gmap Z Pipe.pipe; fum : mem }.
#[export] Instance eta_filest : Eta filest := fun s =>
  mkFilest s.(fs) s.(ftable) s.(pipes) s.(fum).

Definition fpk (s : filest) : pstate := fbk (fs s).
#[export] Instance setter_fpk : Setter fpk := fun f s => s <| fs ::= fun x => x <| fbk ::= f |> |>.

Definition get_file (i : nat) : K filest file := l ← gets ftable; deref "ftable" (l !! i).
Definition upd_file (i : nat) (f : file -> file) : K filest unit :=
  x ← get_file i; modify (fun s => s <| ftable ::= fun l => <[i := f x]> l |>).

(** The CPU is given away: the process sleeps on its channel. *)
Definition park {S} (g : S -> pstate) : K S unit := fun l s =>
  match curproc (g s) ≫= fun i => procs (g s) !! i with
  | Some p => Sleep (chan p) l s
  | None => Fault "sleep"
  end.

(** Runs an operation of Pipe.v on the pipe in page [pg]. *)
Definition on_pipe {A} (pg : Z) (m : K Pipe.pst A) : K filest A := fun l s =>
  match pipes s !! pg with
  | None => Fault "pipe"
  | Some p =>
      let put t := s <| pipes ::= <[pg := Pipe.pp t]> |> <| fpk := Pipe.pk t |> <| fum := Pipe.ub t |> in
      match m l (Pipe.mkPst p (fpk s) (fum s)) with
      | Ok a l' t => Ok a l' (put t)
      | Panic e => Panic e
      | Fault e => Fault e
      | Sleep c l' t => Sleep c l' (put t)
      end
  end.

Section file.
(** [end], and the addresses of the locks, of [log] and of [input.r]. *)
Variables (kend : Z) (lock_addr ilock_addr : nat -> Z) (log_addr input_r : Z).

Definition f_begin_op : K fstate unit := zoom fl (begin_op log_addr (park lbk) 1).
Definition f_end_op : K fstate unit := zoom fl (end_op lock_addr log_addr).
Definition f_readi (ip : nat) (off n : Z) : K fstate (Z * list Z) :=
  readi lock_addr ilock_addr input_r (park fbk) 1 ip off n.
Definition f_writei (ip : nat) (src : list Z) (off : Z) : K fstate Z :=
  writei lock_addr ilock_addr ip src off.

(** [for (f = ftable.file; ...) if (f->ref == 0)] *)
Fixpoint free_file (l : list file) (i : nat) : option nat :=
  match l with
  | [] => None
  | f :: r => if fref f =? 0 then Some i else free_file r (S i)
  end.

Definition filealloc : K filest (option nat) :=
  acquire Lftable ;;
  l ← gets ftable;
  match free_file l 0 with
  | Some i => upd_file i (fun f => f <| fref := 1 |>) ;; release Lftable ;; mret (Some i)
  | None => release Lftable ;; mret None
  end.

Definition filedup (i : nat) : K filest nat :=
  acquire Lftable ;;
  f ← get_file i;
  if fref f <? 1 then panic "filedup" else
  upd_file i (fun f => f <| fref := i32 (fref f + 1) |>) ;;
  release Lftable ;; mret i.

Definition fileclose (i : nat) : K filest unit :=
  acquire Lftable ;;
  f ← get_file i;
  if fref f <? 1 then panic "fileclose" else
  upd_file i (fun f => f <| fref := fref f - 1 |>) ;;
  ff ← get_file i;
  if fref ff >? 0 then release Lftable
  else
    upd_file i (fun f => f <| fref := 0 |> <| ftype := FD_NONE |>) ;;
    release Lftable ;;
    match ftype ff with
    | FD_PIPE => on_pipe (fpipe ff) (Pipe.pipeclose kend (fpipe ff) (nz (writable ff)))
    | FD_INODE =>
        zoom fs f_begin_op ;;
        ip ← deref "ff.ip" (fip ff);
        zoom fs (iput lock_addr ilock_addr ip) ;;
        zoom fs f_end_op
    | FD_NONE => mret tt
    end.

Definition filestat (i : nat) : K filest (option stat) :=
  f ← get_file i;
  match ftype f with
  | FD_INODE =>
      zoom fs (ilock lock_addr ilock_addr (fip f)) ;;
      ip ← deref "f->ip" (fip f);
      st ← zoom fs (stati ip);
      zoom fs (iunlock ilock_addr (fip f)) ;;
      mret (Some st)
  | _ => mret None
  end.

(** The bytes read are stored at [addr] in user memory. *)
Definition fileread (i : nat) (addr n : Z) : K filest Z :=
  f ← get_file i;
  if readable f =? 0 then mret (-1)
  else match ftype f with
  | FD_PIPE => on_pipe (fpipe f) (Pipe.piperead (fpipe f) (park Pipe.pk) 1 addr n)
  | FD_INODE =>
      zoom fs (ilock lock_addr ilock_addr (fip f)) ;;
      ip ← deref "f->ip" (fip f);
      '(r, l) ← zoom fs (f_readi ip (foff f) (u32 n));
      modify (fun s => s <| fum ::= fun m => store_bytes m addr l |>) ;;
      (if r >? 0 then upd_file i (fun f => f <| foff := u32 (foff f + r) |>) else mret tt) ;;
      zoom fs (iunlock ilock_addr (fip f)) ;;
      mret r
  | FD_NONE => panic "fileread"
  end.

Definition write_max : Z := Z.quot (MAXOPBLOCKS - 1 - 1 - 2) 2 * 512.

(** The loop of [filewrite] from index [k]; returns the last [i]. *)
Fixpoint filewrite_loop (i : nat) (addr k n : Z) (fuel : nat) : K filest Z :=
  match fuel with
  | O => fault "out of fuel"
  | S fu =>
      if k <? n then
        let n1 := if n - k >? write_max then write_max else n - k in
        zoom fs f_begin_op ;;
        f ← get_file i;
        zoom fs (ilock lock_addr ilock_addr (fip f)) ;;
        ip ← deref "f->ip" (fip f);
        m ← gets fum;
        f ← get_file i;
        r ← zoom fs (f_writei ip (bytes_at m (addr + k) (Z.to_nat n1)) (foff f));
        (if r >? 0 then upd_file i (fun f => f <| foff := u32 (foff f + r) |>) else mret tt) ;;
        zoom fs (iunlock ilock_addr (fip f)) ;;
        zoom fs f_end_op ;;
        if r <? 0 then mret k
        else if negb (r =? n1) then panic "short filewrite"
        else filewrite_loop i addr (k + r) n fu
      else mret k
  end.

Definition filewrite (i : nat) (addr n : Z) : K filest Z :=
  f ← get_file i;
  if writable f =? 0 then mret (-1)
  else match ftype f with
  | FD_PIPE => on_pipe (fpipe f) (Pipe.pipewrite (fpipe f) (park Pipe.pk) 1 addr n)
  | FD_INODE =>
      k ← filewrite_loop i addr 0 n (Z.to_nat (n / write_max) + 2);
      mret (if k =? n then n else -1)
  | FD_NONE => panic "filewrite"
  end.

(** [pipealloc]: the pipe's bytes are what the page holds, after the lock. *)
Definition pipe_bad (f0 f1 : option nat) (p : Z) : K filest (option (nat * nat)) :=
  (if p =? 0 then mret tt else zoom fpk (zoom pkmem (kfree kend p))) ;;
  (match f0 with Some i => fileclose i | None => mret tt end) ;;
  (match f1 with Some i => fileclose i | None => mret tt end) ;;
  mret None.

Definition pipealloc : K filest (option (nat * nat)) :=
  f0 ← filealloc;
  match f0 with
  | None => pipe_bad None None 0
  | Some i0 =>
      f1 ← filealloc;
      match f1 with
      | None => pipe_bad f0 None 0
      | Some i1 =>
          p ← zoom fpk (zoom pkmem kalloc);
          if p =? 0 then pipe_bad f0 f1 0
          else
            m ← gets (fun s => kmemory (pkmem (fpk s)));
            modify (fun s => s <| pipes ::= <[p := Pipe.mkPipe (bytes_at m (p + 52) 512) 0 0 1 1]> |>) ;;
            upd_file i0 (fun f => f <| ftype := FD_PIPE |> <| readable := 1 |> <| writable := 0 |>
              <| fpipe := p |>) ;;
            upd_file i1 (fun f => f <| ftype := FD_PIPE |> <| readable := 0 |> <| writable := 1 |>
              <| fpipe := p |>) ;;
            mret (Some (i0, i1))
      end
  end.

End file.

End File.
