(* ===== verification/ProcLife.v ===== *)
(** The life of a process (proc.c): the first process, [fork], [exit], [wait]
    and [growproc]; [seginit] and [kvmalloc] of vm.c.

    A [struct file *] in [ofile] is a word, 0 or [file_ptr i]; [cwd] is 0 or
    [inode_ptr i]. *)

From stdpp Require Import base numbers list gmap sets strings.
From Stdlib Require Import ZArith Lia.
From S2P Require Import Prelude Mem CString Mmu Seg Kalloc Vm Param Printf Proc Sched Syscall.
From S2P Require Import Sleeplock Pipe Console Bio Log Inode Fs File.
Import CString Mmu Seg Kalloc Vm Param Printf Proc Sched Syscall Sleeplock Console Bio Log Inode Fs File.

Module ProcLife.

Definition file_ptr (i : nat) : Z := Z.of_nat i + 1.
Definition ptr_file (p : Z) : option nat := if p >? 0 then Some (Z.to_nat (p - 1)) else None.

(** Offsets in [struct trapframe] (x86.h), besides those of Syscall.v. *)
Definition tf_es : Z := 40.
Definition tf_ds : Z := 44.
Definition tf_eip : Z := 56.
Definition tf_eflags : Z := 64.
Definition tf_ss : Z := 72.

(** [safestrcpy] between two arrays of 16 bytes. *)
Definition copy_pname (old s : list Z) : list Z :=
  bytes_at (safestrcpy (fun x => if x <? 16 then nth (Z.to_nat x) old 0 else nth (Z.to_nat (x - 16)) s 0)
    0 16 16) 0 16.

Section life.
(** [end] and [data]; the addresses of [trapret], [forkret], [mycpu()->ts], the
    locks, [log] and [input.r]; [&ptable.proc[i]]; the bound on the loops over
    pages; and what the other processes do while this one does not run. *)
Variables (kend data trapret forkret_addr ts_addr : Z) (lock_addr ilock_addr : nat -> Z)
  (log_addr input_r : Z) (proc_addr : nat -> Z) (fuel : nat).

(** *** Setting up *)

Definition seginit : K pstate unit :=
  g ← gets gdt;
  g ← deref "gdt" (aset g SEG_KCODE (SEG (Z.lor STA_X STA_R) 0 0xffffffff 0));
  g ← deref "gdt" (aset g SEG_KDATA (SEG STA_W 0 0xffffffff 0));
  g ← deref "gdt" (aset g SEG_UCODE (SEG (Z.lor STA_X STA_R) 0 0xffffffff DPL_USER));
  g ← deref "gdt" (aset g SEG_UDATA (SEG STA_W 0 0xffffffff DPL_USER));
  modify (fun s => s <| gdt := g |>).

Definition kvmalloc : K pstate unit :=
  d ← zoom pkmem (setupkvm kend data fuel);
  modify (fun s => s <| kpgdir := d |>) ;;
  switchkvm.

(** Stores to the trap frame at [a]. *)
Definition tf_set16 (a off v : Z) : K pstate unit :=
  modify (fun s => s <| pkmem ::= fun k => k <| kmemory ::= fun m => store16 m (a + off) v |> |>).
Definition tf_set32 (a off v : Z) : K pstate unit :=
  modify (fun s => s <| pkmem ::= fun k => k <| kmemory ::= fun m => store32 m (a + off) v |> |>).

(** [userinit] on the process that [allocproc] returned, up to its name;
    [init], [size] are the initcode linked into the kernel. *)
Definition first_image (i : nat) (init size : Z) : K pstate unit :=
  modify (fun s => s <| initproc := Some i |>) ;;
  d ← zoom pkmem (setupkvm kend data fuel);
  upd_proc i (fun p => p <| pgdir := d |>) ;;
  (if d =? 0 then panic "userinit: out of memory?" else mret tt) ;;
  zoom pkmem (inituvm fuel d init size) ;;
  upd_proc i (fun p => p <| sz := PGSIZE |>) ;;
  p ← get_proc i;
  modify (fun s => s <| pkmem ::= fun k => k <| kmemory ::= fun m => memset m (tf p) 0 sizeof_trapframe |> |>) ;;
  tf_set16 (tf p) tf_cs (Z.lor (Z.shiftl SEG_UCODE 3) DPL_USER) ;;
  tf_set16 (tf p) tf_ds (Z.lor (Z.shiftl SEG_UDATA 3) DPL_USER) ;;
  tf_set16 (tf p) tf_es (Z.lor (Z.shiftl SEG_UDATA 3) DPL_USER) ;;
  tf_set16 (tf p) tf_ss (Z.lor (Z.shiftl SEG_UDATA 3) DPL_USER) ;;
  tf_set32 (tf p) tf_eflags FL_IF ;;
  tf_set32 (tf p) tf_esp PGSIZE ;;
  tf_set32 (tf p) tf_eip 0 ;;
  upd_proc i (fun p => p <| name := copy_pname (name p) (lit "initcode" ++ [0]) |>).

(** [acquire(&ptable.lock); p->state = RUNNABLE; release(&ptable.lock);] *)
Definition make_runnable (i : nat) : K pstate unit :=
  acquire Lptable ;; upd_proc i (fun p => p <| state := RUNNABLE |>) ;; release Lptable.

Definition userinit (init size : Z) : K fstate unit :=
  zoom fbk init_queues ;;
  np ← zoom fbk (allocproc trapret forkret_addr);
  i ← deref "allocproc" np;
  zoom fbk (first_image i init size) ;;
  c ← namei lock_addr ilock_addr input_r (park fbk) 1 [slash];
  zoom fbk (upd_proc i (fun p => p <| cwd := match c with Some j => inode_ptr j | None => 0 end |>)) ;;
  zoom fbk (make_runnable i).

(** The first process that runs initialises the file system; the result is
    the new value of [first]. *)
Definition forkret (first : Z) : K fstate Z :=
  release Lptable ;;
  if nz first then
    iinit lock_addr ROOTDEV ;; zoom fl (initlog lock_addr ROOTDEV) ;; mret 0
  else mret first.

(** *** Growing *)

Definition growproc (n : Z) : K pstate Z :=
  i ← myproc;
  p ← get_proc i;
  r ← (if n >? 0 then
         s ← zoom pkmem (allocuvm kend fuel (pgdir p) (sz p) (u32 (sz p + n)));
         mret (if s =? 0 then None else Some s)
       else if n <? 0 then
         s ← zoom pkmem (deallocuvm kend fuel (pgdir p) (sz p) (u32 (sz p + n)));
         mret (if s =? 0 then None else Some s)
       else mret (Some (sz p)));
  match r with
  | None => mret (-1)
  | Some s =>
      upd_proc i (fun p => p <| sz := s |>) ;;
      switchuvm ts_addr (Some i) ;;
      mret 0
  end.

(** *** fork *)

(** The part of [fork] before the files: [None] is its second return of -1. *)
Definition fork_image (me np : nat) : K pstate bool :=
  p ← get_proc me;
  d ← zoom pkmem (copyuvm kend data fuel (pgdir p) (sz p));
  upd_proc np (fun q => q <| pgdir := d |>) ;;
  q ← get_proc np;
  if d =? 0 then
    zoom pkmem (kfree kend (kstack q)) ;;
    upd_proc np (fun q => q <| kstack := 0 |> <| state := UNUSED |>) ;;
    mret false
  else
    upd_proc np (fun q => q <| sz := sz p |> <| parent := Some me |>) ;;
    modify (fun s => s <| pkmem ::= fun k =>
      k <| kmemory ::= fun m => memmove m (tf q) (tf p) sizeof_trapframe |> |>) ;;
    tf_set32 (tf q) tf_eax 0 ;;
    mret true.

(** [if (curproc->ofile[i]) np->ofile[i] = filedup(curproc->ofile[i]);] *)
Definition fork_fd (me np : nat) (fd : Z) : K filest unit :=
  p ← zoom fpk (get_proc me);
  o ← deref "ofile" (aget (ofile p) fd);
  match ptr_file o with
  | None => mret tt
  | Some f =>
      filedup f ;;
      q ← zoom fpk (get_proc np);
      l ← deref "ofile" (aset (ofile q) fd o);
      zoom fpk (upd_proc np (fun q => q <| ofile := l |>))
  end.

Definition fork : K filest Z :=
  me ← zoom fpk myproc;
  a ← zoom fpk (allocproc trapret forkret_addr);
  match a with
  | None => mret (-1)
  | Some np =>
      ok ← zoom fpk (fork_image me np);
      if negb ok then mret (-1) else
      kiter (fork_fd me np) (zseq 0 NOFILE) ;;
      p ← zoom fpk (get_proc me);
      c ← deref "cwd" (ptr_inode (cwd p));
      zoom fs (idup c) ;;
      zoom fpk (upd_proc np (fun q => q <| cwd := cwd p |> <| name := copy_pname (name q) (name p) |>)) ;;
      q ← zoom fpk (get_proc np);
      zoom fpk (make_runnable np) ;;
      mret (pid q)
  end.

(** *** exit *)

(** [infos[curproc->pid]] is written, wherever that is. *)
Definition record_info (i : nat) : K pstate unit :=
  t ← gets ticks;
  upd_proc i (fun p => p <| termination_time := i32 t |>) ;;
  p ← get_proc i;
  l ← gets infos;
  l ← deref "infos" (aset l (pid p) (mkInfo (creation_time p) (running_time p) (ready_time p)
        (sleep_time p) (termination_time p)));
  modify (fun s => s <| infos := l |>).

Definition exit_fd (i : nat) (fd : Z) : K filest unit :=
  p ← zoom fpk (get_proc i);
  o ← deref "ofile" (aget (ofile p) fd);
  match ptr_file o with
  | None => mret tt
  | Some f =>
      fileclose kend lock_addr ilock_addr log_addr f ;;
      p ← zoom fpk (get_proc i);
      l ← deref "ofile" (aset (ofile p) fd 0);
      zoom fpk (upd_proc i (fun p => p <| ofile := l |>))
  end.

Definition chan_of (p : option nat) : Z := match p with Some i => proc_addr i | None => 0 end.

(** [if (p->parent == curproc)] of the loop that passes children to init. *)
Definition adopt (i j : nat) : K pstate unit :=
  p ← get_proc j;
  if bool_decide (parent p = Some i) then
    ini ← gets initproc;
    upd_proc j (fun p => p <| parent := ini |>) ;;
    if bool_decide (state p = ZOMBIE) then wakeup1 (chan_of ini) else mret tt
  else mret tt.

(** From [acquire(&ptable.lock)] to the switch. *)
Definition exit_end (i : nat) : K pstate unit :=
  acquire Lptable ;;
  p ← get_proc i;
  wakeup1 (chan_of (parent p)) ;;
  ps ← gets procs;
  kiter (adopt i) (seq 0 (length ps)) ;;
  upd_proc i (fun p => p <| state := ZOMBIE |>) ;;
  sched_checks.

Definition exit (swtch : K filest unit) : K filest unit :=
  i ← zoom fpk myproc;
  ini ← gets (fun s => initproc (fpk s));
  if bool_decide (Some i = ini) then panic "init exiting" else
  zoom fpk (record_info i) ;;
  kiter (exit_fd i) (zseq 0 NOFILE) ;;
  p ← zoom fpk (get_proc i);
  zoom fpk (free_history kend i (syscallhistory p)) ;;
  zoom fs (f_begin_op log_addr) ;;
  p ← zoom fpk (get_proc i);
  c ← deref "cwd" (ptr_inode (cwd p));
  zoom fs (iput lock_addr ilock_addr c) ;;
  zoom fs (f_end_op lock_addr log_addr) ;;
  zoom fpk (upd_proc i (fun p => p <| cwd := 0 |>)) ;;
  zoom fpk (exit_end i) ;;
  swtch ;;
  panic "zombie exit".

(** *** wait *)

(** The child found: its stack, its memory and its slot are freed. *)
Definition reap (j : nat) : K pstate Z :=
  p ← get_proc j;
  zoom pkmem (kfree kend (kstack p)) ;;
  upd_proc j (fun p => p <| kstack := 0 |>) ;;
  zoom pkmem (freevm kend fuel (pgdir p)) ;;
  upd_proc j (fun p => p <| pid := 0 |> <| parent := None |>
    <| name ::= fun l => <[0%nat := 0]> l |> <| killed := 0 |> <| state := UNUSED |>) ;;
  release Lptable ;;
  mret (pid p).

Definition is_child (i : nat) (p : proc) : bool := bool_decide (parent p = Some i).

Fixpoint wait_loop (swtch : K pstate unit) (i : nat) (turns : nat) : K pstate Z :=
  match turns with
  | O => fault "out of fuel"
  | S n =>
      ps ← gets procs;
      match first_proc (fun p => is_child i p && bool_decide (state p = ZOMBIE)) ps 0 with
      | Some j => reap j
      | None =>
          p ← get_proc i;
          if negb (existsb (is_child i) ps) || nz (killed p) then release Lptable ;; mret (-1)
          else sleep swtch (proc_addr i) Lptable ;; wait_loop swtch i n
      end
  end.

Definition wait (swtch : K pstate unit) (turns : nat) : K pstate Z :=
  i ← myproc; acquire Lptable ;; wait_loop swtch i turns.

End life.

End ProcLife.
