(* ===== verification/Exec.v ===== *)
(** [exec] (exec.c, elf.h): replacing the image of a process. *)

From stdpp Require Import base numbers list gmap sets strings.
From Stdlib Require Import ZArith Lia.
From S2P Require Import Prelude Mem CString Mmu Seg Kalloc Vm Param Printf Proc Sched Syscall.
From S2P Require Import Sleeplock Pipe Console Bio Log Inode Fs File ProcLife.
Import CString Mmu Seg Kalloc Vm Param Printf Proc Sched Syscall Sleeplock Console Bio Log Inode Fs File ProcLife.

Module Exec.

Definition MAXARG : Z := 32.
Definition ELF_MAGIC : Z := 0x464C457F.
Definition ELF_PROG_LOAD : Z := 1.
Definition sizeof_elfhdr : Z := 52.
Definition sizeof_proghdr : Z := 32.

(** [struct elfhdr] and [struct proghdr], the fields that are used. *)
Record elfhdr := mkElf { magic : Z; entry : Z; phoff : Z; phnum : Z }.
Record proghdr := mkPh {
  ph_type : Z; ph_off : Z; ph_vaddr : Z; ph_filesz : Z; ph_memsz : Z }.

(** Bytes as memory from address 0. *)
Definition mem_of (l : list Z) : mem := fun x => nth (Z.to_nat x) l 0.
Definition load_elf (l : list Z) : elfhdr :=
  let m := mem_of l in mkElf (load32 m 0) (load32 m 24) (load32 m 28) (load16 m 44).
Definition load_ph (l : list Z) : proghdr :=
  let m := mem_of l in
  mkPh (load32 m 0) (load32 m 4) (load32 m 8) (load32 m 16) (load32 m 20).

(** The kernel sees the user memory of the current process below [KERNBASE]. *)
Definition with_user {A} (um : mem) (m : K kmem A) : K kmem A := fun l k =>
  let restore k' := k' <| kmemory ::= fun m' x => if x <? KERNBASE then kmemory k x else m' x |> in
  match m l (k <| kmemory := fun x => if x <? KERNBASE then um x else kmemory k x |>) with
  | Ok a l' k' => Ok a l' (restore k')
  | Panic e => Panic e
  | Fault e => Fault e
  | Sleep c l' k' => Sleep c l' (restore k')
  end.

(** What a process finds at [va] once [pgdir] is loaded. *)
Definition user_view (m : mem) (pgdir : Z) : mem := fun va =>
  let pde := load32 m (pgdir + 4 * PDX va) in
  let pte := load32 m (P2V (PTE_ADDR pde) + 4 * PTX va) in
  if nz (Z.land pde PTE_P) && nz (Z.land pte PTE_P) && nz (Z.land pte PTE_U)
  then m (P2V (PTE_ADDR pte) + va mod PGSIZE) else 0.

Definition fkm (s : filest) : kmem := pkmem (fpk s).
#[export] Instance setter_fkm : Setter fkm := fun f s => s <| fpk ::= fun p => p <| pkmem ::= f |> |>.
Definition fcon (s : filest) : cst := fcst (fs s).
#[export] Instance setter_fcon : Setter fcon := fun f s => s <| fs ::= fun x => x <| fcst ::= f |> |>.

Section exec.
(** As in ProcLife.v; [ustack] is the address of the array on the kernel
    stack, [sfuel] bounds the lengths of strings. *)
Variables (kend data ts_addr : Z) (lock_addr ilock_addr : nat -> Z) (log_addr input_r ustack : Z)
  (fuel sfuel : nat).

(** [readi] of an open inode. *)
Definition rd (ip : nat) (off n : Z) : K filest (Z * list Z) :=
  zoom fs (f_readi lock_addr ilock_addr input_r ip off n).

(** [readi] into kernel memory, for [loaduvm]. *)
Definition readi_to (ip : nat) (dst off n : Z) : K filest Z :=
  '(r, l) ← rd ip off n;
  modify (fun s => s <| fkm ::= fun k => k <| kmemory ::= fun m => store_bytes m dst l |> |>) ;;
  mret r.

(** [bad:] *)
Definition exec_bad (pgdir : Z) (ip : option nat) : K filest Z :=
  (if pgdir =? 0 then mret tt else zoom fkm (freevm kend fuel pgdir)) ;;
  (match ip with
   | Some i => zoom fs (iunlockput lock_addr ilock_addr (Some i)) ;; zoom fs (f_end_op lock_addr log_addr)
   | None => mret tt
   end) ;;
  mret (-1).

(** The program headers from the [i]th on, [n] left; [None] is [goto bad]. *)
Fixpoint load_segments (ip : nat) (pgdir off sz : Z) (n : nat) : K filest (option Z) :=
  match n with
  | O => mret (Some sz)
  | S n' =>
      '(r, l) ← rd ip (u32 off) sizeof_proghdr;
      let ph := load_ph l in
      if negb (r =? sizeof_proghdr) then mret None
      else if negb (ph_type ph =? ELF_PROG_LOAD) then
        load_segments ip pgdir (i32 (off + sizeof_proghdr)) sz n'
      else if ph_memsz ph <? ph_filesz ph then mret None
      else if u32 (ph_vaddr ph + ph_memsz ph) <? ph_vaddr ph then mret None
      else
        sz ← zoom fkm (allocuvm kend fuel pgdir sz (u32 (ph_vaddr ph + ph_memsz ph)));
        if sz =? 0 then mret None
        else if nz (ph_vaddr ph mod PGSIZE) then mret None
        else
          r ← loaduvm fkm (readi_to ip) fuel pgdir (ph_vaddr ph) (ph_off ph) (ph_filesz ph);
          if r <? 0 then mret None
          else load_segments ip pgdir (i32 (off + sizeof_proghdr)) sz n'
  end.

(** [ustack[i] = v] *)
Definition set_ustack (i v : Z) : K filest unit :=
  if i <? 3 + MAXARG + 1 then
    modify (fun s => s <| fkm ::= fun k => k <| kmemory ::= fun m => store32 m (ustack + 4 * i) v |> |>)
  else fault "ustack".

(** [copyout], from the memory the kernel sees. *)
Definition copy_to_user (pgdir va p len : Z) : K filest Z :=
  u ← gets fum; zoom fkm (with_user u (copyout fuel pgdir va p len)).

(** The argument strings at [argv]: how many, and the stack pointer after. *)
Fixpoint push_args (pgdir sp argc : Z) (argv : list Z) : K filest (option (Z * Z)) :=
  match argv with
  | [] => mret (Some (argc, sp))
  | a :: r =>
      if argc >=? MAXARG then mret None
      else
        u ← gets fum;
        n ← deref "strlen" (strlen u a sfuel);
        let sp := Z.land (u32 (sp - (n + 1))) (Z.lnot 3) in
        x ← copy_to_user pgdir sp a (n + 1);
        if x <? 0 then mret None
        else set_ustack (3 + argc) sp ;; push_args pgdir sp (argc + 1) r
  end.

(** [for (last = s = path; *s; s++) if ( *s == '/') last = s + 1;] *)
Fixpoint last_elem (s last : list Z) : list Z :=
  match s with
  | [] => last
  | c :: r => if c =? slash then last_elem r r else last_elem r last
  end.

(** From [sz = PGROUNDUP(sz)] on: the stack, the arguments and the switch. *)
Definition exec_commit (pgdir sz ent : Z) (path : list Z) (argv : list Z) : K filest Z :=
  let sz := PGROUNDUP sz in
  sz ← zoom fkm (allocuvm kend fuel pgdir sz (u32 (sz + 2 * PGSIZE)));
  if sz =? 0 then exec_bad pgdir None
  else
    zoom fkm (clearpteu pgdir (u32 (sz - 2 * PGSIZE))) ;;
    a ← push_args pgdir sz 0 argv;
    match a with
    | None => exec_bad pgdir None
    | Some (argc, sp) =>
        set_ustack (3 + argc) 0 ;;
        set_ustack 0 0xffffffff ;;
        set_ustack 1 argc ;;
        set_ustack 2 (u32 (sp - (argc + 1) * 4)) ;;
        let sp := u32 (sp - (3 + argc + 1) * 4) in
        x ← copy_to_user pgdir sp ustack ((3 + argc + 1) * 4);
        if x <? 0 then exec_bad pgdir None
        else
          i ← zoom fpk myproc;
          zoom fpk (upd_proc i (fun p => p <| name := copy_pname (name p) (last_elem path path ++ [0]) |>)) ;;
          p ← zoom fpk (get_proc i);
          let oldpgdir := Proc.pgdir p in
          zoom fpk (upd_proc i (fun p => p <| Proc.pgdir := pgdir |> <| Proc.sz := sz |>)) ;;
          zoom fpk (tf_set32 (tf p) tf_eip ent) ;;
          zoom fpk (tf_set32 (tf p) tf_esp sp) ;;
          zoom fpk (switchuvm ts_addr (Some i)) ;;
          zoom fkm (freevm kend fuel oldpgdir) ;;
          modify (fun s => s <| fum := user_view (kmemory (fkm s)) pgdir |>) ;;
          mret 0
    end.

(** [argv] are the user pointers before the null one. *)
Definition exec (path : list Z) (argv : list Z) : K filest Z :=
  zoom fs (f_begin_op log_addr) ;;
  o ← zoom fs (namei lock_addr ilock_addr input_r (park fbk) 1 path);
  match o with
  | None =>
      zoom fs (f_end_op lock_addr log_addr) ;;
      zoom fcon (cprintf (lit "exec: fail" ++ [10]) [] (fun _ => [])) ;;
      mret (-1)
  | Some ip =>
      zoom fs (ilock lock_addr ilock_addr (Some ip)) ;;
      '(r, l) ← rd ip 0 sizeof_elfhdr;
      let elf := load_elf l in
      if negb (r =? sizeof_elfhdr) then exec_bad 0 (Some ip)
      else if negb (magic elf =? ELF_MAGIC) then exec_bad 0 (Some ip)
      else
        pgdir ← zoom fkm (setupkvm kend data fuel);
        if pgdir =? 0 then exec_bad 0 (Some ip)
        else
          sz ← load_segments ip pgdir (i32 (phoff elf)) 0 (Z.to_nat (phnum elf));
          match sz with
          | None => exec_bad pgdir (Some ip)
          | Some sz =>
              zoom fs (iunlockput lock_addr ilock_addr (Some ip)) ;;
              zoom fs (f_end_op lock_addr log_addr) ;;
              exec_commit pgdir sz (entry elf) path argv
          end
  end.
End exec.

End Exec.
