(* ===== verification/Sysfile.v ===== *)
(** The file system calls (sysfile.c). *)

From stdpp Require Import base numbers list gmap sets strings.
From Stdlib Require Import ZArith Lia.
From S2P Require Import Prelude Mem CString Mmu Seg Kalloc Vm Param Printf Proc Sched Syscall.
From S2P Require Import Sleeplock Pipe Console Bio Log Inode Fs File ProcLife Exec.
Import CString Mmu Seg Kalloc Vm Param Printf Proc Syscall Sleeplock Console Bio Log Inode Fs File
  ProcLife Exec.

Module Sysfile.

Definition O_RDONLY : Z := 0x000.
Definition O_WRONLY : Z := 0x001.
Definition O_RDWR : Z := 0x002.
Definition O_CREATE : Z := 0x200.

(** The caller of a system call, inside the whole state. *)
Definition fus (s : filest) : ustate := mkUstate (fpk s) (fum s).
#[export] Instance setter_fus : Setter fus := fun f s =>
  let t := f (fus s) in s <| fpk := kst t |> <| fum := um t |>.

Section sysfile.
Variables (kend data ts_addr : Z) (lock_addr ilock_addr : nat -> Z) (log_addr input_r ustack : Z)
  (fuel sfuel : nat).

Definition begin : K filest unit := zoom fs (f_begin_op log_addr).
Definition end_ : K filest unit := zoom fs (f_end_op lock_addr log_addr).
Definition s_ilock (ip : nat) : K filest unit := zoom fs (ilock lock_addr ilock_addr (Some ip)).
Definition s_iunlock (ip : nat) : K filest unit := zoom fs (iunlock ilock_addr (Some ip)).
Definition s_iunlockput (ip : nat) : K filest unit := zoom fs (iunlockput lock_addr ilock_addr (Some ip)).
Definition s_iput (ip : nat) : K filest unit := zoom fs (iput lock_addr ilock_addr ip).
Definition s_inode (ip : nat) : K filest inode := zoom fs (get_inode ip).
Definition s_iupdate (ip : nat) : K filest unit := zoom fs (iupdate lock_addr ip).
Definition s_namei (path : list Z) : K filest (option nat) :=
  zoom fs (namei lock_addr ilock_addr input_r (park fbk) 1 path).
Definition s_nameiparent (path : list Z) : K filest (option (nat * list Z)) :=
  zoom fs (nameiparent lock_addr ilock_addr input_r (park fbk) 1 path).
Definition s_dirlookup (dp : nat) (name : list Z) : K filest (option (nat * Z)) :=
  zoom fs (dirlookup lock_addr ilock_addr input_r (park fbk) 1 dp name).
Definition s_dirlink (dp : nat) (name : list Z) (n : Z) : K filest Z :=
  zoom fs (dirlink lock_addr ilock_addr input_r (park fbk) 1 dp name n).
Definition s_fileclose (f : nat) : K filest unit := fileclose kend lock_addr ilock_addr log_addr f.

(** [ip->nlink += d; iupdate(ip);] *)
Definition add_links (ip : nat) (d : Z) : K filest unit :=
  zoom fs (upd_inode ip (fun n => n <| inlink := i16 (inlink n + d) |>)) ;; s_iupdate ip.

(** *** Arguments *)

(** A string argument: its bytes. *)
Definition argpath (n : Z) : K filest (option (list Z)) :=
  a ← zoom fus (argstr n);
  m ← gets fum;
  mret (match a with Some (p, len) => Some (bytes_at m p (Z.to_nat len)) | None => None end).

(** The descriptor and its file. *)
Definition argfd (n : Z) : K filest (option (Z * nat)) :=
  a ← zoom fus (argint n);
  match a with
  | None => mret None
  | Some fd =>
      if (fd <? 0) || (fd >=? NOFILE) then mret None
      else
        p ← zoom fpk (i ← myproc; get_proc i);
        o ← deref "ofile" (aget (ofile p) fd);
        mret (match ptr_file o with Some f => Some (fd, f) | None => None end)
  end.

(** [curproc->ofile[fd] = v] *)
Definition set_ofile (fd v : Z) : K filest unit :=
  zoom fpk (i ← myproc; p ← get_proc i;
    l ← deref "ofile" (aset (ofile p) fd v); upd_proc i (fun p => p <| ofile := l |>)).

Fixpoint free_fd (l : list Z) (fd : Z) : option Z :=
  match l with
  | [] => None
  | o :: r => if o =? 0 then Some fd else free_fd r (fd + 1)
  end.

Definition fdalloc (f : nat) : K filest Z :=
  p ← zoom fpk (i ← myproc; get_proc i);
  match free_fd (take (Z.to_nat NOFILE) (ofile p)) 0 with
  | Some fd => set_ofile fd (file_ptr f) ;; mret fd
  | None => mret (-1)
  end.

(** *** Descriptors *)

Definition sys_dup : K filest Z :=
  a ← argfd 0;
  match a with
  | None => mret (-1)
  | Some (_, f) =>
      fd ← fdalloc f;
      if fd <? 0 then mret (-1) else filedup f ;; mret fd
  end.

(** The arguments of [read] and [write]: file, buffer, length. *)
Definition rw_args : K filest (option (nat * Z * Z)) :=
  a ← argfd 0;
  match a with
  | None => mret None
  | Some (_, f) =>
      n ← zoom fus (argint 2);
      match n with
      | None => mret None
      | Some n =>
          p ← zoom fus (argptr 1 n);
          mret (match p with Some p => Some (f, p, n) | None => None end)
      end
  end.

Definition sys_read : K filest Z :=
  a ← rw_args;
  match a with
  | None => mret (-1)
  | Some (f, p, n) => fileread lock_addr ilock_addr input_r f p n
  end.

Definition sys_write : K filest Z :=
  a ← rw_args;
  match a with
  | None => mret (-1)
  | Some (f, p, n) => filewrite lock_addr ilock_addr log_addr f p n
  end.

Definition sys_close : K filest Z :=
  a ← argfd 0;
  match a with
  | None => mret (-1)
  | Some (fd, f) => set_ofile fd 0 ;; s_fileclose f ;; mret 0
  end.

Definition sizeof_stat : Z := 20.

Definition store_stat (m : mem) (a : Z) (st : stat) : mem :=
  let m := store32 m (a + 4) (st_dev st) in
  let m := store32 m (a + 8) (st_ino st) in
  let m := store16 m a (st_type st) in
  let m := store16 m (a + 12) (st_nlink st) in
  store32 m (a + 16) (st_size st).

Definition sys_fstat : K filest Z :=
  a ← argfd 0;
  match a with
  | None => mret (-1)
  | Some (_, f) =>
      p ← zoom fus (argptr 1 sizeof_stat);
      match p with
      | None => mret (-1)
      | Some p =>
          st ← filestat lock_addr ilock_addr f;
          match st with
          | None => mret (-1)
          | Some st => modify (fun s => s <| fum ::= fun m => store_stat m p st |>) ;; mret 0
          end
      end
  end.

Definition sys_pipe : K filest Z :=
  a ← zoom fus (argptr 0 8);
  match a with
  | None => mret (-1)
  | Some fd =>
      r ← pipealloc kend lock_addr ilock_addr log_addr;
      match r with
      | None => mret (-1)
      | Some (rf, wf) =>
          fd0 ← fdalloc rf;
          fd1 ← (if fd0 <? 0 then mret (-1) else fdalloc wf);
          if fd1 <? 0 then
            (if fd0 >=? 0 then set_ofile fd0 0 else mret tt) ;;
            s_fileclose rf ;; s_fileclose wf ;; mret (-1)
          else
            modify (fun s => s <| fum ::= fun m => store32 (store32 m fd fd0) (fd + 4) fd1 |>) ;;
            mret 0
      end
  end.

(** *** Links *)

Definition link_bad (ip : nat) : K filest Z :=
  s_ilock ip ;; add_links ip (-1) ;; s_iunlockput ip ;; end_ ;; mret (-1).

Definition sys_link : K filest Z :=
  o ← argpath 0;
  match o with
  | None => mret (-1)
  | Some old =>
  n ← argpath 1;
  match n with
  | None => mret (-1)
  | Some new =>
      begin ;;
      i ← s_namei old;
      match i with
      | None => end_ ;; mret (-1)
      | Some ip =>
          s_ilock ip ;;
          x ← s_inode ip;
          if itype x =? T_DIR then s_iunlockput ip ;; end_ ;; mret (-1)
          else
            add_links ip 1 ;;
            s_iunlock ip ;;
            d ← s_nameiparent new;
            match d with
            | None => link_bad ip
            | Some (dp, name) =>
                s_ilock dp ;;
                y ← s_inode dp;
                x ← s_inode ip;
                r ← (if negb (idev y =? idev x) then mret (-1) else s_dirlink dp name (inum x));
                if r <? 0 then s_iunlockput dp ;; link_bad ip
                else s_iunlockput dp ;; s_iput ip ;; end_ ;; mret 0
            end
      end
  end
  end.

(** The loop of [isdirempty] from [off]. *)
Fixpoint empty_from (dp : nat) (off : Z) (k : nat) : K filest bool :=
  match k with
  | O => fault "out of fuel"
  | S k' =>
      x ← s_inode dp;
      if u32 off <? isize x then
        '(r, de) ← rd lock_addr ilock_addr input_r dp (u32 off) sizeof_dirent;
        if negb (r =? sizeof_dirent) then panic "isdirempty: readi"
        else if negb (de_inum de =? 0) then mret false
        else empty_from dp (i32 (off + sizeof_dirent)) k'
      else mret true
  end.

Definition isdirempty (dp : nat) : K filest bool :=
  x ← s_inode dp; empty_from dp (2 * sizeof_dirent) (dir_fuel x).

Definition unlink_bad (dp : nat) : K filest Z := s_iunlockput dp ;; end_ ;; mret (-1).

(** [sys_unlink] once the entry at [off] and its inode, locked, are known. *)
Definition unlink_entry (dp ip : nat) (off : Z) : K filest Z :=
  r ← zoom fs (f_writei lock_addr ilock_addr dp (replicate (Z.to_nat sizeof_dirent) 0) off);
  if negb (r =? sizeof_dirent) then panic "unlink: writei" else
  x ← s_inode ip;
  (if itype x =? T_DIR then add_links dp (-1) else mret tt) ;;
  s_iunlockput dp ;;
  add_links ip (-1) ;;
  s_iunlockput ip ;;
  end_ ;; mret 0.

Definition sys_unlink : K filest Z :=
  a ← argpath 0;
  match a with
  | None => mret (-1)
  | Some path =>
      begin ;;
      d ← s_nameiparent path;
      match d with
      | None => end_ ;; mret (-1)
      | Some (dp, name) =>
          s_ilock dp ;;
          if (namecmp name (lit "." ++ [0]) =? 0) || (namecmp name (lit ".." ++ [0]) =? 0) then unlink_bad dp
          else
            r ← s_dirlookup dp name;
            match r with
            | None => unlink_bad dp
            | Some (ip, off) =>
                s_ilock ip ;;
                x ← s_inode ip;
                if inlink x <? 1 then panic "unlink: nlink < 1" else
                e ← (if itype x =? T_DIR then isdirempty ip else mret true);
                if negb e then s_iunlockput ip ;; unlink_bad dp
                else unlink_entry dp ip off
            end
      end
  end.

(** *** Creating and opening *)

Definition create (path : list Z) (type major minor : Z) : K filest (option nat) :=
  d ← s_nameiparent path;
  match d with
  | None => mret None
  | Some (dp, name) =>
      s_ilock dp ;;
      r ← s_dirlookup dp name;
      match r with
      | Some (ip, _) =>
          s_iunlockput dp ;;
          s_ilock ip ;;
          x ← s_inode ip;
          if (type =? T_FILE) && (itype x =? T_FILE) then mret (Some ip)
          else s_iunlockput ip ;; mret None
      | None =>
          y ← s_inode dp;
          ip ← zoom fs (ialloc lock_addr (idev y) type);
          s_ilock ip ;;
          zoom fs (upd_inode ip (fun n => n <| imajor := major |> <| iminor := minor |> <| inlink := 1 |>)) ;;
          s_iupdate ip ;;
          x ← s_inode ip;
          (if type =? T_DIR then
             add_links dp 1 ;;
             r ← s_dirlink ip (lit "." ++ [0]) (inum x);
             r ← (if r <? 0 then mret r else s_dirlink ip (lit ".." ++ [0]) (inum y));
             if r <? 0 then panic "create dots" else mret tt
           else mret tt) ;;
          r ← s_dirlink dp name (inum x);
          if r <? 0 then panic "create: dirlink" else
          s_iunlockput dp ;; mret (Some ip)
      end
  end.

(** The second half of [sys_open]: a descriptor for the locked inode. *)
Definition open_fd (ip : nat) (omode : Z) : K filest Z :=
  f ← filealloc;
  fd ← (match f with Some f => fdalloc f | None => mret (-1) end);
  match f with
  | Some f =>
      if fd <? 0 then s_fileclose f ;; s_iunlockput ip ;; end_ ;; mret (-1)
      else
        s_iunlock ip ;;
        end_ ;;
        upd_file f (fun x => x <| ftype := FD_INODE |> <| fip := Some ip |> <| foff := 0 |>
          <| readable := if nz (Z.land omode O_WRONLY) then 0 else 1 |>
          <| writable := if nz (Z.land omode O_WRONLY) || nz (Z.land omode O_RDWR) then 1 else 0 |>) ;;
        mret fd
  | None => s_iunlockput ip ;; end_ ;; mret (-1)
  end.

Definition sys_open : K filest Z :=
  a ← argpath 0;
  match a with
  | None => mret (-1)
  | Some path =>
  m ← zoom fus (argint 1);
  match m with
  | None => mret (-1)
  | Some omode =>
      begin ;;
      if nz (Z.land omode O_CREATE) then
        i ← create path T_FILE 0 0;
        match i with
        | None => end_ ;; mret (-1)
        | Some ip => open_fd ip omode
        end
      else
        i ← s_namei path;
        match i with
        | None => end_ ;; mret (-1)
        | Some ip =>
            s_ilock ip ;;
            x ← s_inode ip;
            if (itype x =? T_DIR) && negb (omode =? O_RDONLY) then
              s_iunlockput ip ;; end_ ;; mret (-1)
            else open_fd ip omode
        end
  end
  end.

(** The end of [mkdir] and [mknod]. *)
Definition created (i : option nat) : K filest Z :=
  match i with
  | None => end_ ;; mret (-1)
  | Some ip => s_iunlockput ip ;; end_ ;; mret 0
  end.

Definition sys_mkdir : K filest Z :=
  begin ;;
  a ← argpath 0;
  i ← (match a with Some path => create path T_DIR 0 0 | None => mret None end);
  created i.

Definition sys_mknod : K filest Z :=
  begin ;;
  a ← argpath 0;
  i ← (match a with
       | None => mret None
       | Some path =>
           x ← zoom fus (argint 1);
           match x with
           | None => mret None
           | Some major =>
               y ← zoom fus (argint 2);
               match y with
               | None => mret None
               | Some minor => create path T_DEV (i16 major) (i16 minor)
               end
           end
       end);
  created i.

Definition sys_chdir : K filest Z :=
  begin ;;
  a ← argpath 0;
  i ← (match a with Some path => s_namei path | None => mret None end);
  match i with
  | None => end_ ;; mret (-1)
  | Some ip =>
      s_ilock ip ;;
      x ← s_inode ip;
      if negb (itype x =? T_DIR) then s_iunlockput ip ;; end_ ;; mret (-1)
      else
        s_iunlock ip ;;
        p ← zoom fpk (i ← myproc; get_proc i);
        c ← deref "cwd" (ptr_inode (cwd p));
        s_iput c ;;
        end_ ;;
        zoom fpk (i ← myproc; upd_proc i (fun p => p <| cwd := inode_ptr ip |>)) ;;
        mret 0
  end.

(** [for (i = 0;; i++)] of [sys_exec]: the pointers, [None] for -1. *)
Fixpoint exec_args (uargv i : Z) (n : nat) : K filest (option (list Z)) :=
  match n with
  | O => mret None
  | S n' =>
      a ← zoom fus (fetchint (u32 (uargv + 4 * i)));
      match a with
      | None => mret None
      | Some w =>
          if u32 w =? 0 then mret (Some [])
          else
            s ← zoom fus (fetchstr (u32 w));
            match s with
            | None => mret None
            | Some (p, _) => r ← exec_args uargv (i + 1) n'; mret (cons p <$> r)
            end
      end
  end.

Definition sys_exec : K filest Z :=
  a ← argpath 0;
  match a with
  | None => mret (-1)
  | Some path =>
      u ← zoom fus (argint 1);
      match u with
      | None => mret (-1)
      | Some uargv =>
          v ← exec_args (u32 uargv) 0 (Z.to_nat MAXARG);
          match v with
          | None => mret (-1)
          | Some argv =>
              exec kend data ts_addr lock_addr ilock_addr log_addr input_r ustack fuel sfuel path argv
          end
      end
  end.
End sysfile.

End Sysfile.
