(* ===== verification/Trap.v ===== *)
(** Traps, interrupts and the table of system calls (trap.c, syscall.c,
    sysproc.c): the composition of the kernel.

    What the devices hold when they interrupt is an argument of [trap]: the
    bytes of the keyboard controller and of the serial port, and [%cr2].  The
    disk is that of memide.c, whose interrupt handler is empty.  [lapiceoi]
    acknowledges the interrupt and changes no state that is modelled. *)

From stdpp Require Import base numbers list gmap sets strings.
From Stdlib Require Import ZArith Lia.
From S2P Require Import Prelude Mem CString Mmu Seg Kalloc Vm Param Printf Proc Sched Syscall.
From S2P Require Import Sleeplock Pipe Console Bio Log Inode Fs File ProcLife Exec Sysfile.
Import CString Mmu Seg Kalloc Vm Param Printf Proc Syscall Sleeplock Console Bio Log Inode Fs File
  ProcLife Exec Sysfile.

Module Trap.

Definition T_SYSCALL : Z := 64.
Definition T_IRQ0 : Z := 32.
Definition IRQ_TIMER : Z := 0.
Definition IRQ_KBD : Z := 1.
Definition IRQ_COM1 : Z := 4.
Definition IRQ_IDE : Z := 14.
Definition IRQ_SPURIOUS : Z := 31.

Definition tf_err : Z := 52.

(** [tvinit]: the gates of [idt], from the entry points [vectors]. *)
Definition tvinit (vectors : Z -> Z) : list gatedesc :=
  let idt := map (fun i => SETGATE false (Z.shiftl SEG_KCODE 3) (vectors (Z.of_nat i)) 0) (seq 0 256) in
  <[Z.to_nat T_SYSCALL := SETGATE true (Z.shiftl SEG_KCODE 3) (vectors T_SYSCALL) DPL_USER]> idt.

Section trap.
(** As in ProcLife.v and Exec.v; [ticks_addr] is [&ticks]; [swtch] is what the
    other processes do while this one does not run, [turns] bounds how often
    one call waits. *)
Variables (kend data trapret forkret_addr ts_addr : Z) (lock_addr ilock_addr : nat -> Z)
  (log_addr input_r ustack ticks_addr : Z) (proc_addr : nat -> Z) (fuel sfuel turns : nat)
  (swtch : K pstate unit) (swtch_away : K filest unit).

(** *** System calls *)

Definition sys_fork : K filest Z := fork kend data trapret forkret_addr fuel.

Definition sys_exit : K filest Z :=
  exit kend lock_addr ilock_addr log_addr proc_addr swtch_away ;; mret 0.

Definition sys_wait : K filest Z := zoom fpk (wait kend proc_addr fuel swtch turns).

(** The memory the process sees follows its page table. *)
Definition see_memory : K filest unit :=
  p ← zoom fpk (i ← myproc; get_proc i);
  modify (fun s => s <| fum := user_view (kmemory (fkm s)) (Proc.pgdir p) |>).

Definition sys_sbrk : K filest Z :=
  a ← zoom fus (argint 0);
  match a with
  | None => mret (-1)
  | Some n =>
      p ← zoom fpk (i ← myproc; get_proc i);
      r ← zoom fpk (growproc kend ts_addr fuel n);
      see_memory ;;
      mret (if r <? 0 then -1 else i32 (Proc.sz p))
  end.

Definition sys_getchildren : K filest Z := zoom fcon getchildren.

(** [syscalls[num]] *)
Definition syscalls (num : Z) : K filest Z :=
  match num with
  | 1 => sys_fork
  | 2 => sys_exit
  | 3 => sys_wait
  | 4 => sys_pipe kend lock_addr ilock_addr log_addr
  | 5 => sys_read lock_addr ilock_addr input_r
  | 6 => zoom fus (sys_kill kend)
  | 7 => sys_exec kend data ts_addr lock_addr ilock_addr log_addr input_r ustack fuel sfuel
  | 8 => sys_fstat lock_addr ilock_addr
  | 9 => sys_chdir lock_addr ilock_addr log_addr input_r
  | 10 => sys_dup
  | 11 => zoom fus sys_getpid
  | 12 => sys_sbrk
  | 13 => zoom fus (sys_sleep swtch turns ticks_addr)
  | 14 => zoom fus sys_uptime
  | 15 => sys_open kend lock_addr ilock_addr log_addr input_r
  | 16 => sys_write lock_addr ilock_addr log_addr
  | 17 => sys_mknod lock_addr ilock_addr log_addr input_r
  | 18 => sys_unlink lock_addr ilock_addr log_addr input_r
  | 19 => sys_link lock_addr ilock_addr log_addr input_r
  | 20 => sys_mkdir lock_addr ilock_addr log_addr input_r
  | 21 => sys_close kend lock_addr ilock_addr log_addr
  | 22 => zoom fus sys_getparentid
  | 23 => sys_getchildren
  | 24 => zoom fus sys_getsyscallcounter
  | 25 => zoom fus sys_setpriority
  | 26 => zoom fus sys_changepolicy
  | 27 => zoom fus sys_getinfo
  | 28 => zoom fus sys_setqueue
  | 29 => zoom fus sys_increment
  | _ => fault "syscalls"
  end.

Definition unknown_call (num : Z) : K filest unit :=
  p ← zoom fpk (i ← myproc; get_proc i);
  zoom fcon (cprintf (lit "%d %s: unknown sys call %d" ++ [10]) [pid p; 1; num] (fun _ => cstr (name p))).

Definition ksyscall : K filest unit := syscall fus unknown_call syscalls.

(** *** Interrupts *)

(** [ticks++; wakeup(&ticks)], on the first CPU. *)
Definition timer : K pstate unit :=
  c ← gets cpu;
  if c =? 0 then
    acquire Ltickslock ;;
    modify (fun s => s <| ticks := u32 (ticks s + 1) |>) ;;
    wakeup ticks_addr ;;
    release Ltickslock
  else mret tt.

(** A field of the trap frame at [a]. *)
Definition tf_get (a off : Z) : K filest Z := gets (fun s => load32 (kmemory (fkm s)) (a + off)).
Definition tf_get16 (a off : Z) : K filest Z := gets (fun s => load16 (kmemory (fkm s)) (a + off)).

(** The default case: a fault. *)
Definition bad_trap (a trapno cr2 : Z) : K filest unit :=
  me ← gets (fun s => curproc (fpk s));
  cs ← tf_get16 a tf_cs;
  eip ← tf_get a tf_eip;
  err ← tf_get a tf_err;
  c ← gets (fun s => cpu (fpk s));
  match me with
  | Some i =>
      if Z.land cs 3 =? 0 then
        zoom fcon (cprintf (lit "unexpected trap %d from cpu %d eip %x (cr2=0x%x)" ++ [10])
          [trapno; c; eip; cr2] (fun _ => [])) ;; panic "trap"
      else
        p ← zoom fpk (get_proc i);
        zoom fcon (cprintf (lit "pid %d %s: trap %d err %d on cpu %d eip 0x%x addr 0x%x--kill proc" ++ [10])
          [pid p; 1; trapno; err; c; eip; cr2] (fun _ => cstr (name p))) ;;
        zoom fpk (upd_proc i (fun p => p <| killed := 1 |>))
  | None =>
      zoom fcon (cprintf (lit "unexpected trap %d from cpu %d eip %x (cr2=0x%x)" ++ [10])
        [trapno; c; eip; cr2] (fun _ => [])) ;; panic "trap"
  end.

(** [switch (tf->trapno)] *)
Definition interrupt (a trapno cr2 : Z) (kbd serial : list Z) : K filest unit :=
  if trapno =? T_IRQ0 + IRQ_TIMER then zoom fpk timer
  else if trapno =? T_IRQ0 + IRQ_IDE then mret tt
  else if trapno =? T_IRQ0 + IRQ_IDE + 1 then mret tt
  else if trapno =? T_IRQ0 + IRQ_KBD then zoom fcon (kbdintr input_r kbd)
  else if trapno =? T_IRQ0 + IRQ_COM1 then zoom fcon (uartintr input_r serial)
  else if (trapno =? T_IRQ0 + 7) || (trapno =? T_IRQ0 + IRQ_SPURIOUS) then
    c ← gets (fun s => cpu (fpk s));
    cs ← tf_get16 a tf_cs;
    eip ← tf_get a tf_eip;
    zoom fcon (cprintf (lit "cpu%d: spurious interrupt at %x:%x" ++ [10]) [c; cs; eip] (fun _ => []))
  else bad_trap a trapno cr2.

(** [if (myproc() && myproc()->killed && (tf->cs & 3) == DPL_USER) exit();] *)
Definition exit_if_killed (a : Z) : K filest unit :=
  me ← gets (fun s => curproc (fpk s));
  match me with
  | None => mret tt
  | Some i =>
      p ← zoom fpk (get_proc i);
      cs ← tf_get16 a tf_cs;
      if nz (killed p) && (Z.land cs 3 =? DPL_USER) then
        exit kend lock_addr ilock_addr log_addr proc_addr swtch_away
      else mret tt
  end.

(** Whether the tick that the timer just counted ends the process's slice. *)
Definition must_yield (policy queue ticks : Z) : bool :=
  if negb (policy =? POLICY_DEFAULT) && (policy =? POLICY_MLQ) then
    if queue =? QUEUE_PRIORITY_RR then true else ticks mod QUANTUM =? 0
  else true.

Definition yield_on_tick (trapno : Z) : K pstate unit :=
  me ← gets curproc;
  match me with
  | None => mret tt
  | Some i =>
      p ← get_proc i;
      if bool_decide (state p = RUNNING) && (trapno =? T_IRQ0 + IRQ_TIMER) then
        pol ← gets policy;
        t ← gets ticks;
        if must_yield pol (queueNumber p) t then yield swtch else mret tt
      else mret tt
  end.

(** [if (myproc()->killed) exit();] *)
Definition syscall_exit : K filest unit :=
  p ← zoom fpk (i ← myproc; get_proc i);
  if nz (killed p) then exit kend lock_addr ilock_addr log_addr proc_addr swtch_away else mret tt.

Definition trap (a cr2 : Z) (kbd serial : list Z) : K filest unit :=
  trapno ← tf_get a tf_trapno;
  if trapno =? T_SYSCALL then
    syscall_exit ;;
    zoom fpk (i ← myproc; upd_proc i (fun p => p <| tf := a |>)) ;;
    ksyscall ;;
    syscall_exit
  else
    interrupt a trapno cr2 kbd serial ;;
    exit_if_killed a ;;
    zoom fpk (yield_on_tick trapno) ;;
    exit_if_killed a.

End trap.

End Trap.
