(* ===== verification/LifeSpec.v ===== *)
(** The life of a process: [growproc] keeps the image of a process in step with
    its size, [exit] hands the children over and wakes who waits for them,
    [wait] returns all memory of the child, and the interrupt gates. *)

From stdpp Require Import base numbers list sets strings.
From Stdlib Require Import ZArith Lia.
From S2P Require Import Prelude Mem CString Mmu Seg Kalloc Vm VmSpec Param Printf Proc Sched.
From S2P Require Import Syscall Sleeplock Pipe Console Bio BioSpec Log LogSpec LogCrash Inode Fs.
From S2P Require Import FsSpec File ProcLife Exec Sysfile Trap.
Import CString Mmu Seg Kalloc Vm VmSpec Param Proc Sched Console Bio BioSpec Log LogCrash Inode Fs FsSpec File ProcLife Trap.

Module LifeSpec.

Section life.
Context (kend ts_addr : Z) (Hkend : KERNBASE < kend).

(** *** Growing *)

(** The process's address space is isolated and maps exactly the pages below
    its size. *)
Record image (s : pstate) (p : proc) (l : list Z) : Prop := {
  im_kmem : kmem_inv kend (pkmem s) l;
  im_as : as_ok kend (kmemory (pkmem s)) (pgdir p) l;
  im_sz : 0 <= sz p < KERNBASE;
  im_map : forall va, upage va -> mapped (kmemory (pkmem s)) (pgdir p) va = (va <? sz p)
}.

Lemma upage_round a va : upage va -> 0 <= a < KERNBASE -> a <= va <-> PGROUNDUP a <= va.
Proof.
  intros [Hv Hm] Ha. destruct (PGROUNDUP_bounds a) as [E Hr]; [lia|unfold KERNBASE, PGSIZE in *; lia|].
  unfold PGSIZE in *. dlia.
Qed.

(** Entries that are the same map the same. *)
Lemma mapped_pte m m' pg va : pte_at m' pg va = pte_at m pg va -> mapped m' pg va = mapped m pg va.
Proof. unfold mapped. by intros ->. Qed.

Lemma below_iff a b va : upage va -> 0 <= a < KERNBASE -> below (PGROUNDUP a) b va <-> a <= va < b.
Proof.
  intros Hu Ha. unfold below. rewrite <- (upage_round a va) by done. destruct Hu as [_ Hm].
  unfold PGSIZE in *. dlia.
Qed.

Lemma switchuvm_loads i p L s :
  procs s !! i = Some p -> kstack p <> 0 -> pgdir p <> 0 -> length (gdt s) = Z.to_nat NSEGS ->
  exists s', switchuvm ts_addr (Some i) L s = Ok tt L s' /\ procs s' = procs s /\ pkmem s' = pkmem s /\
    cr3 s' = V2P (pgdir p).
Proof.
  intros Hp Hk Hd Hg. unfold switchuvm. erewrite bind_Ok by by apply get_proc_ok.
  rewrite (proj2 (Z.eqb_neq _ _) Hk), (proj2 (Z.eqb_neq _ _) Hd). kstep. rewrite aset_in by (rewrite Hg; done).
  kstep. kstep. kstep. kstep. eexists. split; [reflexivity|]. done.
Qed.

(** The stores and the switch that end [growproc]. *)
Lemma grow_end i p v L s :
  procs s !! i = Some p -> kstack p <> 0 -> pgdir p <> 0 -> length (gdt s) = Z.to_nat NSEGS ->
  exists s', (upd_proc i (fun p => p <| sz := v |>) ;; switchuvm ts_addr (Some i) ;; mret 0) L s = Ok 0 L s' /\
    procs s' !! i = Some (p <| sz := v |>) /\ pkmem s' = pkmem s /\ cr3 s' = V2P (pgdir p).
Proof.
  intros Hp Hk Hd Hg. erewrite bind_Ok by by apply upd_proc_ok.
  set (s1 := s <| procs ::= _ |>).
  assert (Hp1 : procs s1 !! i = Some (p <| sz := v |>))
    by (apply list_lookup_insert_eq; by eapply lookup_lt_Some).
  destruct (switchuvm_loads i _ L s1 Hp1 Hk Hd Hg) as (s' & R & E1 & E2 & E3).
  erewrite bind_Ok by exact R. exists s'. split; [done|]. split; [by rewrite E1|]. done.
Qed.

Lemma image_change s p l k' l' a b v :
  image s p l -> kmem_inv kend k' l' -> as_ok kend (kmemory k') (pgdir p) l' -> 0 <= v < KERNBASE ->
  (forall va, upage va -> ~ (a <= va < b) ->
    pte_at (kmemory k') (pgdir p) va = pte_at (kmemory (pkmem s)) (pgdir p) va) ->
  (forall va, upage va -> a <= va < b -> mapped (kmemory k') (pgdir p) va = (va <? v)) ->
  (forall va, ~ (a <= va < b) -> va < sz p <-> va < v) ->
  forall s' p', pkmem s' = k' -> p' = p <| sz := v |> -> image s' p' l'.
Proof.
  intros [M A Hsz Hmap] M' A' Hv Hkeep Hnew Heq s' p' <- ->. split; try done. intros va Hu. cbn.
  destruct (decide (a <= va < b)) as [Hva|Hva]; [by apply Hnew|].
  rewrite (mapped_pte _ _ _ _ (Hkeep va Hu Hva)), Hmap by done. specialize (Heq va Hva).
  destruct (Z.ltb_spec va (sz p)), (Z.ltb_spec va v); (done || lia).
Qed.

(** Growing calls [allocuvm], shrinking [deallocuvm]. *)
Lemma image_alloc fuel s p l n :
  image s p l -> 0 < n -> sz p + n < KERNBASE -> 2 * (n / PGSIZE) + 4 <= Z.of_nat fuel ->
  exists k' l' r, allocuvm kend fuel (pgdir p) (sz p) (sz p + n) [] (pkmem s) = Ok r [] k' /\
    (r = sz p + n \/ r = 0) /\
    (forall va, upage va -> va < sz p -> pte_at (kmemory k') (pgdir p) va = pte_at (kmemory (pkmem s)) (pgdir p) va) /\
    forall s' p', pkmem s' = k' -> p' = p <| sz := if r =? 0 then sz p else sz p + n |> -> image s' p' l'.
Proof.
  intros Hi Hpos Hn Hf. pose proof Hi as [M A Hsz Hmap].
  destruct (alloc_spec kend Hkend fuel (pgdir p) (sz p) (sz p + n) [] (pkmem s) l)
    as (k' & l' & r & R & M' & A' & K & Hr);
    [done..|set_solver|lia|lia|by replace (sz p + n - sz p) with n by lia| |].
  { intros va Hu Hva. rewrite Hmap by done. apply Z.ltb_ge. rewrite (upage_round (sz p)) by done. lia. }
  assert (Hkeep : forall va, upage va -> ~ (sz p <= va < sz p + n) ->
    pte_at (kmemory k') (pgdir p) va = pte_at (kmemory (pkmem s)) (pgdir p) va).
  { intros va Hu Hva. apply K; [by apply upage_u32|]. by rewrite below_iff. }
  exists k', l', r. split; [done|]. split; [naive_solver|]. split; [intros va Hu Hva; apply Hkeep; [done|lia]|].
  eapply (image_change _ _ _ _ _ (sz p) (sz p + n)); [done..|destruct (r =? 0); lia|done| |].
  - intros va Hu Hva. rewrite (upage_round (sz p)) in Hva by done. destruct Hr as [[-> Hnew]|[-> Hgone]].
    + rewrite (proj2 (Z.eqb_neq _ _)), (proj2 (Z.ltb_lt _ _)) by lia. by apply Hnew.
    + rewrite Hgone by done. symmetry. apply Z.ltb_ge. apply (upage_round (sz p)); [done|done|lia].
  - intros va Hva. destruct (r =? 0); lia.
Qed.

Lemma image_dealloc fuel s p l v :
  image s p l -> 0 <= v < sz p -> (sz p - v) / PGSIZE + 2 <= Z.of_nat fuel ->
  exists k' l', deallocuvm kend fuel (pgdir p) (sz p) v [] (pkmem s) = Ok v [] k' /\
    (forall va, upage va -> va < v -> pte_at (kmemory k') (pgdir p) va = pte_at (kmemory (pkmem s)) (pgdir p) va) /\
    forall s' p', pkmem s' = k' -> p' = p <| sz := v |> -> image s' p' l'.
Proof.
  intros Hi Hv Hf. pose proof Hi as [M A Hsz Hmap].
  destruct (dealloc_spec kend Hkend fuel (pgdir p) (sz p) v [] (pkmem s) l) as (k' & l' & R & [M' A' K G _ _ _]);
    [done..|set_solver|lia|lia|done|].
  assert (Hkeep : forall va, upage va -> ~ (v <= va < sz p) ->
    pte_at (kmemory k') (pgdir p) va = pte_at (kmemory (pkmem s)) (pgdir p) va).
  { intros va Hu Hva. apply K; [by apply upage_u32|]. by rewrite below_iff by (done || lia). }
  exists k', l'. split; [done|]. split; [intros va Hu Hva; apply Hkeep; [done|lia]|].
  eapply (image_change _ _ _ _ _ v (sz p)); [done..|lia|done| |lia].
  intros va Hu Hva. rewrite (proj2 (Z.ltb_ge _ _)) by lia. apply G; [done|]. by rewrite below_iff by (done || lia).
Qed.

(** For a new size above 0 and below the kernel. *)
Lemma growproc_inside fuel i p s l n
  (Hc : curproc s = Some i) (Hp : procs s !! i = Some p) (Hi : image s p l)
  (Hk : kstack p <> 0) (Hd : pgdir p <> 0) (Hg : length (gdt s) = Z.to_nat NSEGS)
  (Hn : 0 <= sz p + n < KERNBASE) (Hz : n = 0 \/ sz p + n <> 0) (Hf : 2 * (Z.abs n / PGSIZE) + 4 <= Z.of_nat fuel) :
  exists r s' l', growproc kend ts_addr fuel n [] s = Ok r [] s' /\
    let p' := p <| sz := if r =? 0 then sz p + n else sz p |> in
    (r = 0 /\ cr3 s' = V2P (pgdir p) \/ r = -1 /\ 0 < n) /\
    procs s' !! i = Some p' /\ image s' p' l' /\
    forall va, upage va -> va < sz p -> va < sz p + n ->
      pte_at (kmemory (pkmem s')) (pgdir p) va = pte_at (kmemory (pkmem s)) (pgdir p) va.
Proof.
  unfold growproc. erewrite bind_Ok by by apply myproc_ok. erewrite bind_Ok by by apply get_proc_ok.
  pose proof (im_sz _ _ _ Hi) as Hsz. rewrite u32_small by (unfold KERNBASE in *; lia). rewrite Z.gtb_ltb.
  destruct (Z.ltb_spec 0 n) as [Hpos|Hle]; [|destruct (Z.ltb_spec n 0) as [Hneg|Hz0]].
  - destruct (image_alloc fuel s p l n Hi) as (k' & l' & r & R & Hr & K & Him);
      [lia|lia|by rewrite Z.abs_eq in Hf by lia|].
    erewrite bind_Ok by (erewrite bind_Ok by (exact (zoom_Ok pkmem _ _ _ _ _ _ R)); reflexivity).
    pose (s1 := s <| pkmem := k' |>). destruct (Z.eqb_spec r 0) as [E|E].
    + exists (-1), s1, l'. split; [done|]. cbn [Z.eqb]. split; [by right|].
      split; [by destruct p|]. split; [by apply Him|]. intros va Hu H1 H2. by apply K.
    + assert (r = sz p + n) as -> by naive_solver.
      destruct (grow_end i p (sz p + n) [] s1 Hp Hk Hd Hg) as (s' & R' & E1 & E2 & E3).
      exists 0, s', l'. split; [exact R'|]. cbn [Z.eqb]. split; [by left|]. split; [done|].
      split; [by apply Him|]. intros va Hu H1 H2. rewrite E2. by apply K.
  - destruct (image_dealloc fuel s p l (sz p + n) Hi) as (k' & l' & R & K & Him);
      [lia|replace (sz p - (sz p + n)) with (Z.abs n) by lia; unfold PGSIZE in *; dlia|].
    erewrite bind_Ok by (erewrite bind_Ok by (exact (zoom_Ok pkmem _ _ _ _ _ _ R)); reflexivity).
    rewrite (proj2 (Z.eqb_neq _ _)) by lia. pose (s1 := s <| pkmem := k' |>).
    destruct (grow_end i p (sz p + n) [] s1 Hp Hk Hd Hg) as (s' & R' & E1 & E2 & E3).
    exists 0, s', l'. split; [exact R'|]. cbn [Z.eqb]. split; [by left|]. split; [done|].
    split; [by apply Him|]. intros va Hu H1 H2. rewrite E2. by apply K.
  - assert (n = 0) as -> by lia. rewrite (bind_Ok (mret (Some (sz p))) _ [] s (Some (sz p)) [] s) by done.
    destruct (grow_end i p (sz p) [] s Hp Hk Hd Hg) as (s' & R' & E1 & E2 & E3).
    exists 0, s', l. split; [exact R'|]. cbn [Z.eqb]. rewrite Z.add_0_r. split; [by left|]. split; [done|].
    split; [|intros va _ _ _; by rewrite E2]. destruct Hi as [M A _ Hm]. split; rewrite ?E2; done.
Qed.


(** Shrinking to nothing goes wrong: [deallocuvm] then returns the new size
    0, which [growproc] takes for a failure.  It returns -1 and leaves the size
    as it was, but every page of the process is gone. *)
Theorem growproc_to_zero fuel i p s l
  (Hc : curproc s = Some i) (Hp : procs s !! i = Some p) (Hi : image s p l)
  (Hs : 0 < sz p) (Hf : sz p / PGSIZE + 2 <= Z.of_nat fuel) :
  exists s', growproc kend ts_addr fuel (- sz p) [] s = Ok (-1) [] s' /\ procs s' !! i = Some p /\
    forall va, upage va -> mapped (kmemory (pkmem s')) (pgdir p) va = false.
Proof.
  unfold growproc. erewrite bind_Ok by by apply myproc_ok. erewrite bind_Ok by by apply get_proc_ok.
  rewrite Z.add_opp_diag_r, Z.gtb_ltb, (proj2 (Z.ltb_ge _ _)), (proj2 (Z.ltb_lt _ _)) by lia.
  change (u32 0) with 0.
  destruct (image_dealloc fuel s p l 0 Hi) as (k' & l' & R & K & Him); [lia|by rewrite Z.sub_0_r|].
  erewrite bind_Ok by (erewrite bind_Ok by (exact (zoom_Ok pkmem _ _ _ _ _ _ R)); reflexivity).
  pose (s1 := s <| pkmem := k' |>). exists s1. split; [done|]. split; [done|]. intros va Hu.
  etransitivity; [exact (im_map _ _ _ (Him s1 _ eq_refl eq_refl) va Hu)|]. apply Z.ltb_ge, Hu.
Qed.

(** *** wait *)

(** Freeing a page that an address space does not use keeps it isolated. *)
Lemma as_ok_free pg v L k l :
  kmem_inv kend k l -> as_ok kend (kmemory k) pg l -> Lkmem ∉ L -> page_ok kend v -> v ∉ l ->
  ~ own (kmemory k) pg v -> (forall va, upage va -> mapped (kmemory k) pg va = true -> frame (kmemory k) pg va <> v) ->
  exists k', kfree kend v L k = Ok tt L k' /\ kmem_inv kend k' (v :: l) /\ as_ok kend (kmemory k') pg (v :: l) /\
    (forall w, own (kmemory k') pg w <-> own (kmemory k) pg w) /\
    (forall va, pte_at (kmemory k') pg va = pte_at (kmemory k) pg va).
Proof.
  intros M [A1 A2 A3] HL Pv Hl Ho Hfr.
  destruct (free_unused kend pg v L k l M A1 HL Pv Hl Ho) as (k' & R & M' & P' & Ht & He & _).
  exists k'. split; [done|]. split; [done|]. split; [|split; [intros w; by apply same_tables_own|done]].
  split; [done| |].
  - intros va Hu. unfold mapped, frame. rewrite He. intros Hm. destruct (A2 va Hu Hm) as (? & ? & Hno).
    split_and!; [done| |by rewrite (same_tables_own _ _ _ _ Ht)].
    apply not_elem_of_cons. split; [by apply Hfr|done].
  - intros x y Hx Hy. unfold mapped, frame. rewrite !He. by apply A3.
Qed.

(** The memory a process holds: its stack, its tables and its pages. *)
Definition holds (m : mem) (p : proc) (v : Z) : Prop :=
  v = kstack p \/ own m (pgdir p) v \/
  exists va, upage va /\ mapped m (pgdir p) va = true /\ v = frame m (pgdir p) va.

(** A process whose memory is its own. *)
Record whole_proc (s : pstate) (p : proc) (l : list Z) : Prop := {
  wp_kmem : kmem_inv kend (pkmem s) l;
  wp_as : as_ok kend (kmemory (pkmem s)) (pgdir p) l;
  wp_dir : pgdir p <> 0;
  wp_stack : page_ok kend (kstack p) /\ kstack p ∉ l;
  wp_stack_own : ~ own (kmemory (pkmem s)) (pgdir p) (kstack p);
  wp_stack_frame : forall va, upage va -> mapped (kmemory (pkmem s)) (pgdir p) va = true ->
    frame (kmemory (pkmem s)) (pgdir p) va <> kstack p
}.

Lemma reap_ok fuel j p s l :
  procs s !! j = Some p -> whole_proc s p l -> KERNBASE / PGSIZE + 2 <= Z.of_nat fuel ->
  exists k' l' s', reap kend fuel j [Lptable] s = Ok (pid p) [] s' /\
    pkmem s' = k' /\ kmem_inv kend k' l' /\ (forall v, v ∈ l' <-> v ∈ l \/ holds (kmemory (pkmem s)) p v) /\
    procs s' = <[j := p <| kstack := 0 |> <| pid := 0 |> <| parent := None |>
      <| name ::= fun l => <[0%nat := 0]> l |> <| killed := 0 |> <| state := UNUSED |>]> (procs s).
Proof.
  intros Hp [M A Hd [Ps Hs] Ho Hfr] Hf. unfold reap. erewrite bind_Ok by by apply get_proc_ok.
  destruct (as_ok_free (pgdir p) (kstack p) [Lptable] (pkmem s) l) as (k1 & R1 & M1 & A1 & O1 & E1);
    [done|done|set_solver|done..|].
  erewrite bind_Ok by exact (zoom_Ok pkmem _ _ _ _ _ _ R1). pose (s1 := s <| pkmem := k1 |>).
  rewrite (bind_Ok _ _ _ _ _ _ _ (upd_proc_ok j _ [Lptable] s1 p Hp)).
  set (s2 := s1 <| procs ::= _ |>).
  destruct (freevm_spec kend Hkend fuel (pgdir p) [Lptable] k1 _ M1 A1) as (k2 & l2 & R2 & M2 & F2 & _);
    [set_solver|done|done|].
  assert (R2' : freevm kend fuel (pgdir p) [Lptable] (pkmem s2) = Ok tt [Lptable] k2) by exact R2.
  erewrite bind_Ok by exact (zoom_Ok pkmem _ _ _ _ _ _ R2').
  assert (Hp2 : procs (s2 <| pkmem := k2 |>) !! j = Some (p <| kstack := 0 |>)).
  { cbn. apply list_lookup_insert_eq. by eapply lookup_lt_Some. }
  rewrite (bind_Ok _ _ _ _ _ _ _ (upd_proc_ok j _ [Lptable] _ _ Hp2)).
  rewrite (bind_Ok _ _ _ _ _ _ _ (release_top Lptable [] _ (not_elem_of_nil _))).
  exists k2, l2. eexists. split; [reflexivity|]. split; [done|]. split; [done|]. split.
  - intros v. rewrite F2, elem_of_cons, O1. unfold holds, mapped, frame. setoid_rewrite E1. tauto.
  - cbn. by rewrite list_insert_insert_eq.
Qed.

Section wait.
Context (proc_addr : nat -> Z) (swtch : K pstate unit).

(** C4: [wait] of a process with a dead child returns the child's pid and gives
    back all the child held - its kernel stack, the frames of its pages, its
    page tables and directory - and nothing else; the slot of that child is
    free and no other changes. *)
Theorem wait_reaps fuel turns i j p s l
  (Hc : curproc s = Some i) (Hj : procs s !! j = Some p)
  (Hpar : parent p = Some i) (Hz : state p = ZOMBIE)
  (Hfirst : forall k q, (k < j)%nat -> procs s !! k = Some q -> ~ (parent q = Some i /\ state q = ZOMBIE))
  (Hw : whole_proc s p l) (Hf : KERNBASE / PGSIZE + 2 <= Z.of_nat fuel) :
  exists s' l', wait kend proc_addr fuel swtch (S turns) [] s = Ok (pid p) [] s' /\
    kmem_inv kend (pkmem s') l' /\ (forall v, v ∈ l' <-> v ∈ l \/ holds (kmemory (pkmem s)) p v) /\
    (exists p', procs s' !! j = Some p' /\ state p' = UNUSED /\ pid p' = 0 /\ parent p' = None /\
      killed p' = 0 /\ kstack p' = 0) /\
    forall k, k <> j -> procs s' !! k = procs s !! k.
Proof.
  unfold wait. erewrite bind_Ok by by apply myproc_ok. kstep. cbn [wait_loop]. kstep.
  assert (first_proc (fun p => is_child i p && bool_decide (state p = ZOMBIE)) (procs s) 0 = Some j) as ->.
  { apply first_proc_Some. exists p. split; [done|]. unfold is_child. split.
    - by rewrite !bool_decide_true.
    - intros k q Hk Hq. specialize (Hfirst k q Hk Hq). apply andb_false_iff. rewrite !bool_decide_eq_false.
      destruct (decide (parent q = Some i)); tauto. }
  destruct (reap_ok fuel j p s l Hj Hw Hf) as (k' & l' & s' & R & <- & M & F & E). exists s', l'.
  split; [exact R|]. split; [done|]. split; [done|]. rewrite E. split.
  - eexists. split; [apply list_lookup_insert_eq; by eapply lookup_lt_Some|]. done.
  - intros k Hk. by rewrite list_lookup_insert_ne.
Qed.

End wait.

End life.

(** *** exit *)

Section exit.
Context (proc_addr : nat -> Z).

(** What [adopt] does to the table. *)
Definition adopt_ps (i : nat) (ini : option nat) (c t : Z) (j : nat) (ps : list proc) : list proc :=
  match ps !! j with
  | Some p =>
      if decide (parent p = Some i) then
        let ps' := <[j := p <| parent := ini |>]> ps in
        if decide (state p = ZOMBIE) then map (wake_one c t) ps' else ps'
      else ps
  | None => ps
  end.

Lemma adopt_ok i j L s : (j < length (procs s))%nat ->
  adopt proc_addr i j L s = Ok tt L
    (s <| procs := adopt_ps i (initproc s) (chan_of proc_addr (initproc s)) (ticks s) j (procs s) |>).
Proof.
  intros Hj. destruct (lookup_lt_is_Some_2 (procs s) j Hj) as [p Hp]. unfold adopt, adopt_ps. rewrite Hp.
  erewrite bind_Ok by by apply get_proc_ok.
  destruct (decide (parent p = Some i)) as [E|E]; [rewrite bool_decide_true by done|rewrite bool_decide_false by done; by destruct s].
  kstep. erewrite bind_Ok by by apply upd_proc_ok.
  destruct (decide (state p = ZOMBIE)); [by rewrite bool_decide_true|by rewrite bool_decide_false].
Qed.

(** A child of [i] is given to [ini]. *)
Definition to_init (i : nat) (ini : option nat) (q : proc) : proc :=
  if decide (parent q = Some i) then q <| parent := ini |> else q.

(** Some child of [i] is dead. *)
Definition dead_child (i : nat) (ps : list proc) : Prop := Exists (fun z => parent z = Some i /\ state z = ZOMBIE) ps.

(** The table when the loop has passed [n] slots: their children of [i] are init's, and
    when a dead one was among them those asleep on [c] are awake. *)
Definition passed (i : nat) (ini : option nat) (c t : Z) (n : nat) (ps : list proc) : list proc :=
  imap (fun j q => let q := if decide (j < n)%nat then to_init i ini q else q in
    if decide (dead_child i (take n ps)) then wake_one c t q else q) ps.

Lemma wake_idem c t q : wake_one c t (wake_one c t q) = wake_one c t q.
Proof.
  destruct (decide (asleep_on c q)) as [H|H]; [|by rewrite !(wake_one_other _ _ _ H)].
  rewrite (wake_one_asleep _ _ _ H). apply wake_one_other. by intros [? _].
Qed.

Lemma wake_parent c t q x : wake_one c t (q <| parent := x |>) = (wake_one c t q) <| parent := x |>.
Proof. unfold wake_one. cbn. by destruct (bool_decide _ && _). Qed.

Lemma wake_same c t q : parent (wake_one c t q) = parent q /\ (state (wake_one c t q) = ZOMBIE <-> state q = ZOMBIE).
Proof.
  destruct (decide (asleep_on c q)) as [H|H]; [|by rewrite (wake_one_other _ _ _ H)].
  rewrite (wake_one_asleep _ _ _ H). split; [done|]. destruct H as [-> _]. cbn. split; discriminate.
Qed.

Lemma dead_step i n ps q : ps !! n = Some q ->
  dead_child i (take (S n) ps) <-> dead_child i (take n ps) \/ parent q = Some i /\ state q = ZOMBIE.
Proof. intros Hq. unfold dead_child. rewrite (take_S_r _ _ q), Exists_app, Exists_cons, Exists_nil by done. tauto. Qed.

Lemma passed_step i ini c t n ps : (n < length ps)%nat ->
  adopt_ps i ini c t n (passed i ini c t n ps) = passed i ini c t (S n) ps.
Proof.
  intros Hn. destruct (lookup_lt_is_Some_2 ps n Hn) as [q0 Hq0]. pose proof (dead_step i n ps q0 Hq0) as Hdead.
  assert (Hl : passed i ini c t n ps !! n = Some (if decide (dead_child i (take n ps)) then wake_one c t q0 else q0)).
  { unfold passed. rewrite list_lookup_imap, Hq0. cbn. by rewrite (decide_False (P := (n < n)%nat)) by lia. }
  destruct (wake_same c t q0) as [Wp Wz].
  set (w := if decide (dead_child i (take n ps)) then wake_one c t q0 else q0) in *.
  assert (Ew : parent w = parent q0 /\ (state w = ZOMBIE <-> state q0 = ZOMBIE)) by (unfold w; by destruct (decide _)).
  destruct Ew as [Ep Ez]. unfold adopt_ps. rewrite Hl, Ep.
  assert (Hk : forall k q, ps !! k = Some q -> k <> n -> (k < n)%nat <-> (k < S n)%nat) by (intros; lia).
  destruct (decide (parent q0 = Some i)) as [Hp|Hp].
  - assert (E1 : <[n := w <| parent := ini |>]> (passed i ini c t n ps) =
      imap (fun j q => let q := if decide (j < S n)%nat then to_init i ini q else q in
        if decide (dead_child i (take n ps)) then wake_one c t q else q) ps).
    { apply list_eq. intros k. unfold passed. rewrite list_lookup_imap. destruct (decide (k = n)) as [->|Hne].
      - rewrite list_lookup_insert_eq by (by rewrite length_imap). rewrite Hq0. cbn.
        rewrite (decide_True (P := (n < S n)%nat)) by lia. unfold to_init. rewrite (decide_True (P := parent q0 = Some i)) by done.
        f_equal. unfold w. destruct (decide _); [by rewrite wake_parent|done].
      - rewrite list_lookup_insert_ne, list_lookup_imap by done. destruct (ps !! k) as [q|] eqn:Eq; [|done]. cbn. f_equal.
        by rewrite (decide_ext _ _ _ _ (Hk k q Eq Hne)). }
    rewrite E1. unfold passed. destruct (decide (state w = ZOMBIE)) as [Hz|Hz].
    + rewrite fmap_imap. apply imap_ext. intros j q _. cbn.
      rewrite (decide_True (P := dead_child i (take (S n) ps))) by (apply Hdead; right; split; [done|by apply Ez]).
      destruct (decide (dead_child i (take n ps))); [by rewrite wake_idem|done].
    + apply imap_ext. intros j q _. cbn.
      rewrite (decide_ext (dead_child i (take (S n) ps)) (dead_child i (take n ps))); [done|]. rewrite Hdead, <- Ez. tauto.
  - unfold passed. apply imap_ext. intros j q Hj. cbn.
    rewrite (decide_ext (dead_child i (take (S n) ps)) (dead_child i (take n ps))) by (rewrite Hdead; tauto).
    destruct (decide (j = n)) as [->|Hne].
    + assert (q = q0) as -> by congruence. unfold to_init. rewrite (decide_False (P := parent q0 = Some i)) by done. by destruct (decide (n < n)%nat), (decide (n < S n)%nat).
    + by rewrite (decide_ext _ _ _ _ (Hk j q Hj Hne)).
Qed.

Lemma adopt_all i L ps k n s :
  (k + n)%nat = length ps -> procs s = passed i (initproc s) (chan_of proc_addr (initproc s)) (ticks s) k ps ->
  kiter (adopt proc_addr i) (seq k n) L s =
    Ok tt L (s <| procs := passed i (initproc s) (chan_of proc_addr (initproc s)) (ticks s) (length ps) ps |>).
Proof.
  revert k s. induction n as [|n IH]; intros k s Hn H; cbn [seq kiter].
  - replace (length ps) with k by lia. rewrite <- H. by destruct s.
  - erewrite bind_Ok by (apply adopt_ok; rewrite H; unfold passed; rewrite length_imap; lia).
    rewrite H, passed_step by lia. rewrite IH; [by destruct s|lia|done].
Qed.

(** The entry of a sleeping process that is made runnable at tick [t]. *)
Definition woken (t : Z) (q : proc) : proc :=
  q <| sleep_time := i32 (sleep_time q + (t - last_time q)) |> <| state := RUNNABLE |> <| last_time := i32 t |>.

Lemma passed_0 i ini c t ps : passed i ini c t 0 ps = ps.
Proof.
  apply list_eq. intros j. unfold passed. rewrite list_lookup_imap. destruct (ps !! j); [|done]. cbn.
  rewrite (decide_False (P := (j < 0)%nat)) by lia. by rewrite decide_False by (intros H%Exists_nil; done).
Qed.

Lemma wake_to_init i ini c t q : wake_one c t (to_init i ini q) = to_init i ini (wake_one c t q).
Proof.
  unfold to_init. rewrite (proj1 (wake_same c t q)). destruct (decide _); [apply wake_parent|done].
Qed.

Lemma dead_wake i c t ps : dead_child i (map (wake_one c t) ps) <-> dead_child i ps.
Proof.
  unfold dead_child. rewrite Exists_fmap. split; intros H; (eapply Exists_impl; [exact H|]); intros q; cbn; by destruct (wake_same c t q) as [-> ->].
Qed.

(** The loop after [wakeup1] of [c]. *)
Lemma passed_all i ini c c2 t ps j q :
  ps !! j = Some q -> passed i ini c2 t (length (map (wake_one c t) ps)) (map (wake_one c t) ps) !! j =
    Some (to_init i ini (if decide (asleep_on c q \/ dead_child i ps /\ asleep_on c2 q) then woken t q else q)).
Proof.
  intros Hq. unfold passed. rewrite list_lookup_imap, list_lookup_fmap, Hq. cbn. f_equal. pose proof (lookup_lt_Some _ _ _ Hq).
  rewrite (decide_True (P := (j < _)%nat)) by (by rewrite length_map).
  rewrite take_ge by done. rewrite (decide_ext _ _ _ _ (dead_wake i c t ps)), wake_to_init.
  destruct (decide (asleep_on c q)) as [H1|H1].
  - rewrite (decide_True (P := _ \/ _)) by tauto. rewrite (wake_one_asleep _ _ _ H1). fold (woken t q).
    destruct (decide (dead_child i ps)); [|done]. by rewrite wake_one_other by (by intros [? _]).
  - rewrite !(wake_one_other c t q) by done. destruct (decide (dead_child i ps)) as [H2|H2]; [|by rewrite decide_False by tauto].
    destruct (decide (asleep_on c2 q)) as [H3|H3].
    + rewrite (decide_True (P := _ \/ _)) by tauto. by rewrite (wake_one_asleep _ _ _ H3).
    + rewrite decide_False by tauto. by rewrite wake_one_other.
Qed.

(** C11: The last part of [exit], from taking the table's lock to the switch, changes the
    process table exactly so: the process is a zombie; each of its children has init as
    its parent; and awake, with its sleep accounted, is who slept on the channel of the
    parent, which is where the parent sleeps in [wait], and, if a child handed over is dead
    already, who slept on the channel of init.  Nothing else changes in any process, and
    outside the table only the processor's note of its last queue; the table's lock is held
    for the scheduler. *)
Theorem exit_hands_over i p s
  (Hc : curproc s = Some i) (Hp : procs s !! i = Some p) (Hrun : state p = RUNNING) (Hini : initproc s <> Some i)
  (Hself : parent p <> Some i) (Hcpu : 0 <= cpu s < Z.of_nat (length (lastQueue s))) :
  exists ps, exit_end proc_addr i [] s = Ok tt [Lptable]
      (s <| procs := ps |> <| lastQueue ::= <[Z.to_nat (cpu s) := queueNumber p]> |>) /\ length ps = length (procs s) /\
    ps !! i = Some (p <| state := ZOMBIE |>) /\
    forall j q, j <> i -> procs s !! j = Some q ->
      ps !! j = Some (to_init i (initproc s)
        (if decide (asleep_on (chan_of proc_addr (parent p)) q \/
                    dead_child i (procs s) /\ asleep_on (chan_of proc_addr (initproc s)) q)
         then woken (ticks s) q else q)).
Proof.
  unfold exit_end. kstep. erewrite bind_Ok by by apply get_proc_ok.
  set (c := chan_of proc_addr (parent p)). set (c2 := chan_of proc_addr (initproc s)).
  erewrite bind_Ok by done. set (s1 := s <| procs ::= map (wake_one c (ticks s)) |>).
  rewrite (bind_Ok (gets procs) _ [Lptable] s1 (procs s1) [Lptable] s1) by done.
  erewrite bind_Ok by (apply (adopt_all i [Lptable] (procs s1) 0 (length (procs s1)) s1); [lia|by rewrite passed_0]).
  set (s2 := s1 <| procs := _ |>).
  assert (H2 : forall j q, procs s !! j = Some q -> procs s2 !! j = Some (to_init i (initproc s)
    (if decide (asleep_on c q \/ dead_child i (procs s) /\ asleep_on c2 q) then woken (ticks s) q else q))).
  { intros j q Hq. unfold s2. cbn. by apply passed_all. }
  assert (Hp2 : procs s2 !! i = Some p).
  { rewrite (H2 i p Hp), decide_False by (intros [[? _]|[_ [? _]]]; congruence). unfold to_init. by rewrite decide_False. }
  erewrite bind_Ok by (apply upd_proc_ok; exact Hp2). set (s3 := s2 <| procs ::= _ |>).
  assert (Hp3 : procs s3 !! i = Some (p <| state := ZOMBIE |>))
    by (cbn; apply list_lookup_insert_eq; by eapply lookup_lt_Some).
  rewrite (sched_checks_ok i _ s3 Hc Hp3) by done. eexists. split; [reflexivity|]. split; [|split; [exact Hp3|]].
  - cbn. unfold passed. by rewrite length_insert, length_imap, length_map.
  - intros j q Hj Hq. cbn. rewrite list_lookup_insert_ne by done. by apply H2.
Qed.

End exit.

(** [exit] writes the times of the process to [infos[pid]] without a bounds
    test: once pids have reached [NPROC] it stores outside the array. *)
Theorem exit_overflows_infos kend lock_addr ilock_addr log_addr proc_addr swtch i p s
  (Hc : curproc (fpk s) = Some i) (Hp : procs (fpk s) !! i = Some p) (Hini : initproc (fpk s) <> Some i)
  (Hl : length (infos (fpk s)) = Z.to_nat NPROC) (Hpid : NPROC <= pid p) :
  exit kend lock_addr ilock_addr log_addr proc_addr swtch [] s = Fault "infos".
Proof.
  assert (R : record_info i [] (fpk s) = Fault "infos").
  { unfold record_info. kstep. erewrite bind_Ok by by apply upd_proc_ok.
    erewrite bind_Ok by (apply get_proc_ok; cbn; apply list_lookup_insert_eq; by eapply lookup_lt_Some).
    kstep. cbn. by rewrite aset_out by (rewrite Hl; lia). }
  unfold exit. erewrite bind_Ok by (apply zoom_Ok; by apply myproc_ok). kstep.
  rewrite bool_decide_false by (cbn; congruence). unfold mbind, K_bind, zoom. cbn. by rewrite R.
Qed.

(** *** Traps *)

(** The interrupt table: every vector has a present gate to its entry point
    in the kernel's code segment, and only the system call gate can be
    entered from user mode and leaves interrupts on. *)
Theorem tvinit_gates vectors i (Hi : 0 <= i < 256) :
  exists d, tvinit vectors !! Z.to_nat i = Some d /\ gate_offset d = u32 (vectors i) /\
    gd_cs d = Z.shiftl SEG_KCODE 3 /\ gd_p d = 1 /\
    gd_dpl d = (if i =? T_SYSCALL then DPL_USER else 0) /\
    gd_type d = (if i =? T_SYSCALL then STS_TG32 else STS_IG32).
Proof.
  unfold tvinit. set (idt := map _ _).
  assert (Hidt : idt !! Z.to_nat i = Some (SETGATE false (Z.shiftl SEG_KCODE 3) (vectors i) 0)).
  { unfold idt. rewrite list_lookup_fmap, lookup_seq_lt by lia. cbn. by rewrite Z2Nat.id by lia. }
  assert (E : forall b sel off d, gate_offset (SETGATE b sel off d) = u32 off).
  { intros b sel off d. unfold gate_offset. cbn. rewrite land_ffff, Z.shiftr_div_pow2 by lia.
    pose proof (u32_range off). change (2 ^ 32) with 4294967296 in *. change (2 ^ 16) with 65536. dlia. }
  destruct (Z.eqb_spec i T_SYSCALL) as [->|Hne].
  - eexists. split; [apply list_lookup_insert_eq; by eapply lookup_lt_Some|]. by rewrite E.
  - eexists. rewrite list_lookup_insert_ne by (unfold T_SYSCALL in *; lia). split; [exact Hidt|]. by rewrite E.
Qed.

(** *** Concrete runs

    A process of one page, in the address space of VmSpec.v; the dead child is
    the same with a kernel stack at 0x80304000. *)

Definition demo_proc : proc := runner <| sz := 0x1000 |> <| pgdir := VmSpec.demo_dir |> <| kstack := 0x80304000 |>.
Definition demo_pstate (ps : list proc) : pstate := (machine ps) <| pkmem := demo_kmem |>.

Lemma demo_image ps : image demo_end (demo_pstate ps) demo_proc [demo_free].
Proof.
  split; [apply demo_kmem_inv|apply demo_as_ok|done|]. intros va Hu. cbn.
  destruct (mapped demo_mem VmSpec.demo_dir va) eqn:E.
  - apply demo_mapped in E as ->; done.
  - symmetry. apply Z.ltb_ge. destruct (decide (va = 0)) as [->|]; [by vm_compute in E|].
    destruct Hu as [? ?]. unfold PGSIZE in *. dlia.
Qed.


Lemma growproc_to_zero_witness :
  exists s', growproc demo_end 0x80112780 8 (- 0x1000) [] (demo_pstate [demo_proc]) = Ok (-1) [] s' /\
    procs s' !! 0%nat = Some demo_proc /\
    forall va, upage va -> mapped (kmemory (pkmem s')) VmSpec.demo_dir va = false.
Proof.
  apply (growproc_to_zero demo_end 0x80112780 demo_above 8 0 demo_proc (demo_pstate [demo_proc]) [demo_free]);
    [done|done|apply demo_image|by vm_compute..].
Defined.

Definition demo_child : proc := demo_proc <| state := ZOMBIE |> <| pid := 3 |> <| parent := Some 0%nat |>.

Lemma demo_whole ps : whole_proc demo_end (demo_pstate ps) demo_child [demo_free].
Proof.
  split; [apply demo_kmem_inv|apply demo_as_ok|done| | |].
  - split; [unfold page_ok, is_u32; vm_compute; intuition discriminate|].
    rewrite list_elem_of_singleton. vm_compute. discriminate.
  - intros [H|(n & Hn & Hh & H)]; [done|]. cbn in Hh. rewrite demo_has in Hh by done. by apply Z.eqb_eq in Hh as ->.
  - intros va Hu ->%demo_mapped; done.
Qed.

Lemma wait_reaps_witness :
  let s := demo_pstate [runner; demo_child] in
  exists s' l', wait demo_end (fun i => Z.of_nat i) (Z.to_nat 0x80002) (fun l t => Sleep 99 l t) 1 [] s = Ok 3 [] s' /\
    kmem_inv demo_end (pkmem s') l' /\
    (forall v, v ∈ l' <-> v ∈ [demo_free] \/ holds demo_mem demo_child v) /\
    (exists p', procs s' !! 1%nat = Some p' /\ state p' = UNUSED /\ pid p' = 0 /\ parent p' = None /\
      killed p' = 0 /\ kstack p' = 0) /\
    forall k, k <> 1%nat -> procs s' !! k = procs s !! k.
Proof.
  intros s. apply (wait_reaps demo_end demo_above (fun i => Z.of_nat i) (fun l t => Sleep 99 l t) (Z.to_nat 0x80002) 0
    0 1 demo_child s [demo_free]); [done..| |apply demo_whole|].
  - intros [|k] q Hk Hq; [|lia]. injection Hq as <-. by intros [? _].
  - rewrite Z2Nat.id by lia. by vm_compute.
Defined.

Lemma exit_hands_over_witness :
  let s := (machine [runner <| parent := Some 1%nat |>; sleeper; demo_child])
    <| initproc := Some 1%nat |> in
  exists ps, exit_end (fun i => 6 + Z.of_nat i) 0 [] s = Ok tt [Lptable]
      (s <| procs := ps |> <| lastQueue ::= <[0%nat := 0]> |>) /\
    ps = [runner <| parent := Some 1%nat |> <| state := ZOMBIE |>; woken 9 sleeper; demo_child <| parent := Some 1%nat |>].
Proof.
  intros s. destruct (exit_hands_over (fun i => 6 + Z.of_nat i) 0 (runner <| parent := Some 1%nat |>) s)
    as (ps & R & Hl & H0 & H); [done..|].
  exists ps. split; [done|]. pose proof (H 1%nat sleeper ltac:(done) eq_refl) as H1. pose proof (H 2%nat demo_child ltac:(done) eq_refl) as H2.
  rewrite (decide_True (P := _ \/ _)) in H1 by (by left). rewrite (decide_False (P := _ \/ _)) in H2 by (by intros [[? _]|[_ [? _]]]).
  destruct ps as [|x [|y [|z [|w ps]]]]; try done. injection H0 as ->. injection H1 as ->. by injection H2 as ->.
Defined.

Definition demo_filest (p : proc) : filest :=
  mkFilest (mkFstate (mkLst ((cache_with [] demo_disk 1000) <| bk := (machine [p])
    <| infos := replicate 64 (mkInfo 0 0 0 0 0) |> |>) (demo_log 0 [])) [] (mkSb 1000 941 200 30 2 32 58)
    demo_console []) [] ∅ (fun _ => 0).

Lemma exit_overflows_infos_witness :
  exit 0 (fun i => 100 + Z.of_nat i) (fun i => 500 + Z.of_nat i) 50 (fun i => Z.of_nat i) (fun l t => Sleep 99 l t) []
    (demo_filest (runner <| pid := 64 |>)) = Fault "infos".
Proof. by eapply (exit_overflows_infos 0 _ _ 50 _ _ 0 (runner <| pid := 64 |>)). Defined.

Lemma tvinit_gates_witness :
  exists d, tvinit (fun i => 0x80105000 + 5 * i) !! 64%nat = Some d /\ gate_offset d = 0x80105140 /\
    gd_cs d = 8 /\ gd_p d = 1 /\ gd_dpl d = 3 /\ gd_type d = STS_TG32.
Proof. apply (tvinit_gates (fun i => 0x80105000 + 5 * i) 64). lia. Defined.

End LifeSpec.
