(* ===== verification/Preempt.v ===== *)
(** Preemption: a run of timer traps (trap.c [trap]) taken by the process that
    has the first CPU, up to the one that switches it away. *)

From stdpp Require Import base numbers list gmap sets strings.
From Stdlib Require Import ZArith Lia.
From S2P Require Import Prelude Mem Mmu Kalloc Param Proc ProcSpec Sched Syscall.
From S2P Require Import Console Bio Log Inode Fs File ProcLife Exec Sysfile Trap.
From S2P Require Import BioSpec LogCrash FsSpec LifeSpec.
Import Mmu Kalloc Param Proc ProcSpec Syscall Console Bio Log Inode Fs File ProcLife Exec Trap.
Import BioSpec LogCrash FsSpec LifeSpec.

Module Preempt.

Section slice.
Variables (kend data trapret forkret_addr ts_addr : Z) (lock_addr ilock_addr : nat -> Z)
  (log_addr input_r ustack ticks_addr : Z) (proc_addr : nat -> Z) (fuel sfuel turns : nat)
  (swtch_away : K filest unit).

(** The switch at which the run of the process is cut. *)
Definition away : K pstate unit := fun l s => Sleep 0 l s.

(** [trap] on the frame at [a]. *)
Definition timer_trap (a cr2 : Z) : K filest unit :=
  trap kend data trapret forkret_addr ts_addr lock_addr ilock_addr log_addr input_r ustack ticks_addr
    proc_addr fuel sfuel turns away swtch_away a cr2 [] [].

(** Process [i], not killed, runs on the first CPU, and the frame at [a] is that
    of a timer interrupt. *)
Record interrupted (i : nat) (a : Z) (p : proc) (s : filest) : Prop := {
  in_running : running i p (fpk s);
  in_alive : killed p = 0;
  in_cpu : cpu (fpk s) = 0;
  in_frame : load32 (kmemory (fkm s)) (a + tf_trapno) = T_IRQ0 + IRQ_TIMER
}.

(** The machine when the tick is counted and sleepers on [ticks] are awake. *)
Definition ticked (t : pstate) : pstate :=
  t <| ticks := u32 (ticks t + 1) |> <| procs ::= map (wake_one ticks_addr (u32 (ticks t + 1))) |>.

Lemma timer_ok t : cpu t = 0 -> timer ticks_addr [] t = Ok tt [] (ticked t).
Proof.
  intros Hc. unfold timer. kstep. rewrite Hc. cbn [Z.eqb]. kstep. kstep.
  erewrite bind_Ok by (apply wakeup_ok; set_solver). apply release_top, not_elem_of_nil.
Qed.

Lemma ticked_running i p t : running i p t -> running i p (ticked t).
Proof.
  intros [Hc Hp Hs Hb]. split; cbn; try done. rewrite list_lookup_fmap, Hp. cbn. f_equal.
  apply wake_one_other. intros [? _]. congruence.
Qed.

Lemma exit_if_killed_ok i p a L s :
  curproc (fpk s) = Some i -> procs (fpk s) !! i = Some p -> killed p = 0 ->
  exit_if_killed kend lock_addr ilock_addr log_addr proc_addr swtch_away a L s = Ok tt L s.
Proof.
  intros Hc Hp Hk. unfold exit_if_killed. kstep. rewrite Hc.
  erewrite bind_Ok by (apply zoom_Ok, get_proc_ok; exact Hp). unfold tf_get16. kstep. rewrite Hk. cbn.
  by destruct s as [[[[]]]].
Qed.

(** One timer trap: it returns to the process, or ends in its [yield]. *)
Lemma timer_trap_ok i a p cr2 s :
  interrupted i a p s ->
  let t := ticked (fpk s) in
  timer_trap a cr2 [] s =
    if must_yield (policy (fpk s)) (queueNumber p) (ticks t)
    then Sleep 0 [Lptable] (s <| fpk := at_yield i p t |>) else Ok tt [] (s <| fpk := t |>).
Proof.
  intros [Hr Hk Hc Hf] t. pose proof (ticked_running i p (fpk s) Hr) as Hr'. fold t in Hr'.
  unfold timer_trap, trap, tf_get. kstep. rewrite Hf.
  change (T_IRQ0 + IRQ_TIMER =? T_SYSCALL) with false. cbv iota.
  unfold interrupt. rewrite Z.eqb_refl.
  erewrite bind_Ok by (apply zoom_Ok, timer_ok; exact Hc). fold t.
  erewrite bind_Ok by (apply (exit_if_killed_ok i p); [apply Hr'|apply Hr'|done]).
  assert (Hy : zoom fpk (yield_on_tick away (T_IRQ0 + IRQ_TIMER)) [] (s <| fpk := t |>) =
    if must_yield (policy (fpk s)) (queueNumber p) (ticks t)
    then Sleep 0 [Lptable] (s <| fpk := at_yield i p t |>) else Ok tt [] (s <| fpk := t |>)).
  { unfold zoom. change (fpk (s <| fpk := t |>)) with t. unfold yield_on_tick. kstep.
    rewrite (rn_cur _ _ _ Hr'). erewrite bind_Ok by (apply get_proc_ok, Hr').
    rewrite bool_decide_true by apply Hr'. rewrite Z.eqb_refl. cbn [andb]. kstep. kstep.
    change (policy t) with (policy (fpk s)).
    destruct (must_yield _ _ _); [by rewrite (yield_runs away i p)|done]. }
  destruct (must_yield _ _ _).
  - unfold mbind, K_bind. by rewrite Hy.
  - erewrite bind_Ok by exact Hy. apply (exit_if_killed_ok i p); [apply Hr'|apply Hr'|done].
Qed.

(** Between two traps the process runs in user mode, or in the kernel without
    giving up the CPU; the count of ticks stands still, for only this CPU
    counts. *)
Definition goes_on (i : nat) (s s' : filest) : Prop :=
  ticks (fpk s') = ticks (fpk s) /\ exists a p, interrupted i a p s'.

(** [n] timer traps in a row, from each of which the process returned. *)
Inductive slice (i : nat) : filest -> nat -> filest -> Prop :=
  | slice_start s : slice i s 0 s
  | slice_trap s n s1 s2 s3 a p cr2 :
      slice i s n s1 -> goes_on i s1 s2 -> interrupted i a p s2 ->
      timer_trap a cr2 [] s2 = Ok tt [] s3 -> slice i s (S n) s3.

Lemma must_yield_quantum pol q t : t mod QUANTUM = 0 -> must_yield pol q t = true.
Proof.
  intros H. unfold must_yield. destruct (_ && _); [|done]. destruct (q =? _); [done|]. by apply Z.eqb_eq.
Qed.

Lemma slice_ticks i s n s' :
  slice i s n s' -> is_u32 (ticks (fpk s)) -> ticks (fpk s') = u32 (ticks (fpk s) + Z.of_nat n) /\
    forall k, 1 <= k <= Z.of_nat n -> u32 (ticks (fpk s) + k) mod QUANTUM <> 0.
Proof.
  intros H Ht. induction H as [s|s n s1 s2 s3 a p cr2 _ IH [Hg _] Hi R].
  { rewrite Z.add_0_r, u32_small by (unfold is_u32 in Ht; lia). split; [done|lia]. }
  destruct (IH Ht) as [E Hno]. rewrite (timer_trap_ok i a p cr2 s2 Hi) in R.
  assert (Et : ticks (ticked (fpk s2)) = u32 (ticks (fpk s) + Z.of_nat (S n))).
  { cbn. rewrite Hg, E, u32_add_l. f_equal. lia. }
  destruct (must_yield _ _ _) eqn:Ey; [done|]. injection R as <-. split; [exact Et|].
  intros k Hk. destruct (decide (k = Z.of_nat (S n))) as [->|Hne]; [|apply Hno; lia].
  intros H0. rewrite <- Et in H0. by rewrite must_yield_quantum in Ey.
Qed.

Lemma quantum_ends t : is_u32 t -> exists k, 1 <= k <= QUANTUM /\ u32 (t + k) mod QUANTUM = 0.
Proof.
  intros Ht. destruct (decide (t + (QUANTUM - t mod QUANTUM) < 2 ^ 32)) as [Hlt|Hge].
  - exists (QUANTUM - t mod QUANTUM). split; [unfold QUANTUM; dlia|].
    rewrite u32_small by (unfold is_u32, QUANTUM in *; dlia). unfold QUANTUM; dlia.
  - exists (2 ^ 32 - t). unfold is_u32 in Ht. split; [unfold QUANTUM in *; dlia|].
    by replace (t + (2 ^ 32 - t)) with (2 ^ 32) by lia.
Qed.

(** C29: Preemption.  A process that holds the first CPU and is not killed returns from fewer than
    [QUANTUM] timer traps in a row, whatever it does in between short of giving
    up the CPU and however policy and queue change, also when the count of ticks
    wraps around.  The next timer trap either returns to it or ends in [yield]
    with its slice charged and the process runnable; it ends there at once, but
    for the processes of the queues that are not round robin under the
    multi-level policy, for which it does when the count is a multiple of
    [QUANTUM]. *)
Theorem slice_bounded i s n s1 s2 a p cr2 (Hs : slice i s n s1) (Ht : is_u32 (ticks (fpk s)))
    (Hg : goes_on i s1 s2) (Hi : interrupted i a p s2) :
  let t := u32 (ticks (fpk s) + Z.of_nat (S n)) in
  Z.of_nat n < QUANTUM /\
  if bool_decide (policy (fpk s2) = POLICY_MLQ /\ queueNumber p <> QUEUE_PRIORITY_RR /\ t mod QUANTUM <> 0)
  then exists s3, timer_trap a cr2 [] s2 = Ok tt [] s3 /\ running i p (fpk s3)
  else exists s3 p', timer_trap a cr2 [] s2 = Sleep 0 [Lptable] s3 /\ procs (fpk s3) !! i = Some p' /\
    state p' = RUNNABLE /\ running_time p' = i32 (running_time p + (t - last_time p)).
Proof.
  intros t. destruct (slice_ticks i s n s1 Hs Ht) as [E Hno]. split.
  { destruct (quantum_ends _ Ht) as (k & Hk & H0). destruct (Z.lt_ge_cases (Z.of_nat n) QUANTUM) as [|Hge]; [done|].
    by destruct (Hno k ltac:(lia)). }
  pose proof (timer_trap_ok i a p cr2 s2 Hi) as R. cbn zeta in R.
  pose proof (ticked_running i p _ (in_running _ _ _ _ Hi)) as Hr.
  assert (Et : ticks (ticked (fpk s2)) = t).
  { cbn. rewrite (proj1 Hg), E, u32_add_l. unfold t. f_equal. lia. }
  rewrite Et in R. unfold must_yield in R.
  case_bool_decide as Hb.
  - destruct Hb as (Hpol & Hq & Hm). rewrite Hpol in R. cbn [POLICY_MLQ POLICY_DEFAULT] in R.
    rewrite (proj2 (Z.eqb_neq _ _) Hq), (proj2 (Z.eqb_neq _ _) Hm) in R.
    eexists. split; [exact R|exact Hr].
  - exists (s2 <| fpk := at_yield i p (ticked (fpk s2)) |>), (yielded t p).
    split; [|split; [cbn; rewrite <- Et; apply list_lookup_insert_eq; by eapply lookup_lt_Some, Hr|done]].
    rewrite R. destruct (Z.eqb_spec (policy (fpk s2)) POLICY_MLQ) as [Hpol|Hpol]; [|by rewrite andb_false_r].
    rewrite Hpol. change (negb (POLICY_MLQ =? POLICY_DEFAULT) && true) with true. cbv iota.
    destruct (Z.eqb_spec (queueNumber p) QUEUE_PRIORITY_RR) as [|Hq]; [done|].
    destruct (Z.eqb_spec (t mod QUANTUM) 0) as [|Hm]; [done|]. by destruct Hb.
Qed.
End slice.

(** A process of the default queue under the multi-level policy, at tick 998:
    it returns from one timer trap and is switched away by the next. *)
Definition hog : filest :=
  (demo_filest runner) <| fpk ::= fun t => t <| policy := POLICY_MLQ |> <| ticks := 998 |>
    <| pkmem ::= fun k => k <| kmemory := store32 (fun _ => 0) (0x80100000 + tf_trapno) (T_IRQ0 + IRQ_TIMER) |> |> |>.

Definition hog_trap : K filest unit :=
  timer_trap 0 0 0 0 0 (fun i => 100 + Z.of_nat i) (fun i => 500 + Z.of_nat i) 50 0 0 7
    (fun i => Z.of_nat i) 0 0 0 (fun l s => Sleep 99 l s) 0x80100000 0.

Lemma slice_bounded_witness :
  exists s1 s3, hog_trap [] hog = Ok tt [] s1 /\ hog_trap [] s1 = Sleep 0 [Lptable] s3 /\
    exists p', procs (fpk s3) !! O = Some p' /\ state p' = RUNNABLE /\ running_time p' = 1000.
Proof.
  assert (Hi : interrupted 0 0x80100000 runner hog).
  { split; [by split|done|done|by vm_compute]. }
  assert (Hg : goes_on 0 hog hog) by (split; [done|by eexists _, _]).
  pose proof (slice_bounded 0 0 0 0 0 (fun i => 100 + Z.of_nat i) (fun i => 500 + Z.of_nat i) 50 0 0 7
    (fun i => Z.of_nat i) 0 0 0 (fun l s => Sleep 99 l s)) as H.
  destruct (H 0%nat hog 0%nat hog hog 0x80100000 runner 0 (slice_start _ _ _ _ _ _ _ _ _ _ _ _ _ _ _ _ _ _)
    ltac:(by unfold is_u32; vm_compute) Hg Hi) as (_ & s1 & R1 & Hr1).
  assert (E : s1 = hog <| fpk := ticked 7 (fpk hog) |>).
  { rewrite (timer_trap_ok _ _ _ _ _ _ _ _ _ _ _ _ _ _ _ _ 0 _ runner) in R1 by done. vm_compute in R1. by injection R1 as <-. }
  subst s1. set (s1 := hog <| fpk := ticked 7 (fpk hog) |>) in *.
  assert (Hi1 : interrupted 0 0x80100000 runner s1) by (split; [exact Hr1|done|done|by vm_compute]).
  assert (Hg1 : goes_on 0 s1 s1) by (split; [done|by eexists _, _]).
  destruct (H 0%nat hog 1%nat s1 s1 0x80100000 runner 0) as (_ & s3 & p' & R3 & Hp & Hs & Ht);
    [by eapply slice_trap; [constructor|exact Hg|exact Hi|exact R1]|by unfold is_u32; vm_compute|done|done|].
  exists s1, s3. split; [exact R1|]. split; [exact R3|]. exists p'. split; [exact Hp|]. split; [exact Hs|exact Ht].
Defined.

End Preempt.
