(* ===== verification/ForkSpec.v ===== *)
(** What [fork] promises: the child is a copy of the parent that shares no memory
    with it, has the same open files and returns 0 from the call; when memory
    runs out, nothing is lost. *)

From stdpp Require Import base numbers list sets strings.
From Stdlib Require Import ZArith Lia.
From S2P Require Import Prelude Mem CString Mmu Seg Kalloc Vm VmSpec CopySpec Param Printf Proc Sched.
From S2P Require Import Syscall Sleeplock Pipe Console Bio BioSpec Log LogSpec LogCrash Inode Fs.
From S2P Require Import FsSpec DirSpec File ProcLife Exec Sysfile Trap LifeSpec.
Import CString Mmu Seg Kalloc Vm VmSpec CopySpec Param Proc Sched Syscall Console Bio BioSpec Log LogCrash Inode Fs FsSpec DirSpec File ProcLife Trap LifeSpec.

Module ForkSpec.

Section mem.
Context (kend : Z) (Hkend : KERNBASE < kend).

(** *** Address spaces when other pages change *)

(** An address space whose tables do not change stays as it is. *)
Lemma as_same m m' pg l l' : as_ok kend m pg l -> (forall v, own m pg v -> same_on v (v + PGSIZE) m m') ->
  (forall v, v ∈ l' -> v ∈ l) ->
  as_ok kend m' pg l' /\ (forall va, pte_at m' pg va = pte_at m pg va) /\ forall v, own m' pg v <-> own m pg v.
Proof.
  intros [P F I] Ho Hs. destruct (frame_entries m m' pg Ho) as [Ht He].
  pose proof (fun v => same_tables_own _ _ _ v Ht) as Hown. split; [|done]. split.
  - by apply (pt_ok_tables kend m m' pg l l').
  - intros va Hu. unfold mapped, frame. rewrite He. intros Hm. destruct (F va Hu Hm) as (? & ? & ?).
    split_and!; [done|auto|by rewrite Hown].
  - intros va va' Hu Hu'. unfold mapped, frame. rewrite !He. by apply I.
Qed.

(** An address space that uses none of the pages [l] does not see them change. *)
Lemma as_keep m m' pg l l' : as_ok kend m pg l -> Forall (page_ok kend) l -> only_pages l m m' ->
  (forall v, v ∈ l' -> v ∈ l) ->
  as_ok kend m' pg l' /\ (forall va, pte_at m' pg va = pte_at m pg va) /\
  (forall v, own m' pg v <-> own m pg v) /\
  forall va o, upage va -> mapped m pg va = true -> 0 <= o < PGSIZE ->
    load8 m' (frame m pg va + o) = load8 m (frame m pg va + o).
Proof.
  intros A Hl Ho Hs. destruct (as_same m m' pg l l' A) as (A' & E & W); [|done|].
  { intros v Hv. destruct (own_page kend m pg l v (as_pt _ _ _ _ A) Hv) as [Pv Hn]. by apply (only_pages_same kend l). }
  split; [done|]. split; [done|]. split; [done|].
  intros va o Hu Hm Hoo. destruct (as_frame _ _ _ _ A va Hu Hm) as (Pf & Nf & _). unfold load8. f_equal.
  apply (only_pages_same kend l m m' (frame m pg va)); try done. lia.
Qed.

(** A page that an address space does not use may count as one of the pages
    that are not its own. *)
Lemma as_more m pg v l : as_ok kend m pg l -> ~ own m pg v ->
  (forall va, upage va -> mapped m pg va = true -> frame m pg va <> v) -> as_ok kend m pg (v :: l).
Proof.
  intros [[P1 P2 P3 P4] F I] Ho Hf. split; [split; [done| | |done]| |done].
  - apply not_elem_of_cons. split; [|done]. intros ->. apply Ho. by left.
  - intros i Hi Hh. destruct (P3 i Hi Hh) as (? & ? & ?). split_and!; [done| |done].
    apply not_elem_of_cons. split; [|done]. intros <-. apply Ho. right. eauto.
  - intros va Hu Hm. destruct (F va Hu Hm) as (? & ? & ?). split_and!; [done| |done].
    apply not_elem_of_cons. split; [by apply Hf|done].
Qed.

Lemma as_sub m pg l l' : as_ok kend m pg l -> (forall v, v ∈ l' -> v ∈ l) -> as_ok kend m pg l'.
Proof.
  intros [[P1 P2 P3 P4] F I] Hs. assert (Hs' : forall v, v ∉ l -> v ∉ l') by auto. split; [split; [done|auto| |done]| |done].
  - intros i Hi Hh. destruct (P3 i Hi Hh) as (? & ? & ?). auto.
  - intros va Hu Hm. destruct (F va Hu Hm) as (? & ? & ?). auto.
Qed.

(** A copy stays one when a page changes that is neither the parent's nor the
    copy's; [m] to [m1] is before, [m2] to [m'] after the copying. *)
Lemma copy_keep m m1 m2 m' pg d sz v l l' :
  as_ok kend m pg (v :: l) -> Forall (page_ok kend) (v :: l) -> only_pages [v] m m1 ->
  (forall va, upage va -> va < sz -> mapped m pg va = true) ->
  copy_of m1 m2 pg d sz l -> as_ok kend m2 d (v :: l') -> only_pages [v] m2 m' ->
  copy_of m m' pg d sz l.
Proof.
  intros A Hl O1 Hmap C A2 O2. pose proof (Forall_inv Hl) as Pv.
  assert (Hl1 : Forall (page_ok kend) [v]) by by apply Forall_cons.
  assert (Hsub : forall (l : list Z) x, x ∈ [v] -> x ∈ v :: l) by (intros ll x ->%list_elem_of_singleton; by left).
  assert (S : forall l m m', only_pages [v] m m' -> only_pages (v :: l) m m').
  { intros ll a b H x Hx. apply H. intros (w & Hw & Hin). apply Hx. exists w. auto. }
  destruct (as_keep m m1 pg (v :: l) l A Hl (S _ _ _ O1)) as (_ & E1 & _ & B1); [by right|].
  assert (A2' : as_ok kend m2 d [v]) by (by apply (as_sub m2 d (v :: l')); [|apply Hsub]).
  destruct (as_keep m2 m' d [v] [v] A2' Hl1 O2) as (_ & E2 & _ & B2); [done|].
  destruct C as [C1 C2 C3 C4]. split.
  - intros va Hu. unfold mapped. rewrite E2. by apply C1.
  - intros va Hu Hva. unfold frame. rewrite E2. by apply C2.
  - intros va Hu Hva. rewrite E2, C3, E1 by done. done.
  - intros va o Hu Hva Ho. assert (frame m' d va = frame m2 d va) as -> by (unfold frame; by rewrite E2).
    rewrite B2; [|done|rewrite C1 by done; by apply Z.ltb_lt|done]. rewrite C4 by done.
    assert (frame m1 pg va = frame m pg va) as -> by (unfold frame; by rewrite E1).
    apply B1; auto.
Qed.

(** *** The trap frame *)

(** The trap frame at [b] in [m'] is that at [a] in [m], except that [eax] is 0. *)
Definition child_tf (m m' : mem) (a b : Z) : Prop :=
  load32 m' (b + tf_eax) = 0 /\
  forall o, 0 <= o < sizeof_trapframe -> ~ (tf_eax <= o < tf_eax + 4) -> load8 m' (b + o) = load8 m (a + o).

(** The last lines of [fork] on the frames. *)
Definition copy_tf (a b : Z) (m : mem) : mem := store32 (memmove m b a sizeof_trapframe) (b + tf_eax) 0.

(** The trap frame of a process at the top of its kernel stack. *)
Definition top_tf (v : Z) : Z := v + KSTACKSIZE - sizeof_trapframe.

Lemma copy_tf_ok m u v : page_ok kend u -> page_ok kend v -> u <> v ->
  child_tf m (copy_tf (top_tf u) (top_tf v) m) (top_tf u) (top_tf v) /\
  same_outside (top_tf v) (v + PGSIZE) m (copy_tf (top_tf u) (top_tf v) m).
Proof.
  intros Pu Pv Hne. pose proof (page_ok_range kend u Pu). pose proof (page_ok_range kend v Pv).
  assert (Hc : forall x, memmove m (top_tf v) (top_tf u) sizeof_trapframe x =
    if (top_tf v <=? x) && (x <? top_tf v + sizeof_trapframe) then load8 m (top_tf u + (x - top_tf v)) else m x).
  { intros x. apply memmove_copies; unfold region, top_tf, KSTACKSIZE, sizeof_trapframe, KERNBASE, PHYSTOP, PGSIZE in *; lia. }
  unfold copy_tf. set (mm := memmove _ _ _ _) in *. clearbody mm. split; [split|].
  - apply load32_store32_eq.
  - intros o Ho Hn. unfold load8. rewrite store32_out by lia.
    rewrite Hc, (proj2 (Z.leb_le _ _)), (proj2 (Z.ltb_lt _ _)) by lia. cbn [andb].
    replace (top_tf v + o - top_tf v) with o by lia. apply u8_small, u8_range.
  - intros x Hx. unfold top_tf, tf_eax, KSTACKSIZE, sizeof_trapframe, PGSIZE in *. rewrite store32_out by lia. rewrite Hc.
    destruct (Z.leb_spec (v + 4096 - 76) x), (Z.ltb_spec x (v + 4096 - 76 + 76)); (done || lia).
Qed.

(** The parent's frame is where the copying of pages does not reach. *)
Lemma child_tf_source m m2 m' u l b : page_ok kend u -> u ∉ l -> Forall (page_ok kend) l -> only_pages l m m2 ->
  child_tf m2 m' (top_tf u) b -> child_tf m m' (top_tf u) b.
Proof.
  intros Pu Nu Hl Ho [H1 H2]. split; [done|]. intros o Hoo Hn. rewrite H2 by done. unfold load8. f_equal.
  apply (only_pages_same kend l m m2 u); try done. unfold top_tf, KSTACKSIZE, sizeof_trapframe, PGSIZE in *. lia.
Qed.

End mem.

(** *** [fork_image] *)

Section image.
Context (kend : Z).

(** The slot [np] has a kernel stack of its own, and the parent's trap frame is on
    the parent's. *)
Record stacks (m : mem) (p q : proc) (l : list Z) : Prop := {
  sk_mine : page_ok kend (kstack p) /\ kstack p ∉ l;
  sk_tf : tf p = top_tf (kstack p);
  sk_new : page_ok kend (kstack q) /\ kstack q ∉ l;
  sk_ne : kstack p <> kstack q;
  sk_newtf : tf q = top_tf (kstack q);
  sk_apart : as_ok kend m (pgdir p) (kstack q :: l) }.

(** The child's entry in the process table. *)
Definition imaged (me : nat) (d : Z) (p q : proc) : proc :=
  q <| pgdir := d |> <| sz := sz p |> <| parent := Some me |>.

Lemma fork_image_run data fuel (Hkend : KERNBASE < kend) (Hdata : data_ok data)
    (Hfuel : KERNBASE / PGSIZE + 2 <= Z.of_nat fuel) me np p q l L s :
  me <> np -> procs s !! me = Some p -> procs s !! np = Some q -> image kend s p l -> Lkmem ∉ L ->
  exists k1 l1 d, copyuvm kend data fuel (pgdir p) (sz p) L (pkmem s) = Ok d L k1 /\
    kmem_inv kend k1 l1 /\ only_pages l (kmemory (pkmem s)) (kmemory k1) /\
    (d <> 0 /\ as_ok kend (kmemory k1) d l1 /\ copy_of (kmemory (pkmem s)) (kmemory k1) (pgdir p) d (sz p) l /\
       (forall v, v ∈ l -> v ∈ l1 \/ own (kmemory k1) d v \/
         exists va, upage va /\ mapped (kmemory k1) d va = true /\ v = frame (kmemory k1) d va) /\
       (forall v, v ∈ l1 \/ own (kmemory k1) d v -> v ∈ l) /\
       fork_image kend data fuel me np L s = Ok true L
         (s <| procs ::= <[np := imaged me d p q]> |> <| pkmem := k1 <| kmemory ::= copy_tf (tf p) (tf q) |> |>) \/
     d = 0 /\ (forall v, v ∈ l1 <-> v ∈ l) /\ Z.of_nat (length l) <= 68 + sz p / PGSIZE + sz p / 2 ^ 22 /\
       fork_image kend data fuel me np L s =
         (zoom pkmem (kfree kend (kstack q)) ;;
          upd_proc np (fun q => q <| kstack := 0 |> <| state := UNUSED |>) ;; mret false) L
         (s <| procs ::= <[np := q <| pgdir := 0 |>]> |> <| pkmem := k1 |>)).
Proof.
  intros Hne Hp Hq [Hk Ha Hsz Hm] HL.
  destruct (copyuvm_spec kend data fuel (pgdir p) (sz p) L (pkmem s) l) as (k1 & l1 & d & R & Hk1 & Ho & C); try done.
  { intros va Hu Hva. rewrite Hm by done. by apply Z.ltb_lt. }
  exists k1, l1, d. split; [done|]. split; [done|]. split; [done|].
  pose proof (lookup_lt_Some _ _ _ Hq) as Hlt.
  assert (E : fork_image kend data fuel me np L s = (q' ← get_proc np;
    if d =? 0 then zoom pkmem (kfree kend (kstack q')) ;; upd_proc np (fun q => q <| kstack := 0 |> <| state := UNUSED |>) ;; mret false
    else upd_proc np (fun q => q <| sz := sz p |> <| parent := Some me |>) ;;
      modify (fun s => s <| pkmem ::= fun k => k <| kmemory ::= fun m => memmove m (tf q') (tf p) sizeof_trapframe |> |>) ;;
      tf_set32 (tf q') tf_eax 0 ;; mret true) L (s <| procs ::= <[np := q <| pgdir := d |>]> |> <| pkmem := k1 |>)).
  { unfold fork_image. erewrite bind_Ok by by apply get_proc_ok. erewrite bind_Ok by (unfold zoom; cbn; by rewrite R).
    by erewrite bind_Ok by by apply upd_proc_ok. }
  rewrite E. clear E. erewrite bind_Ok by (apply get_proc_ok; cbn; by apply list_lookup_insert_eq).
  destruct C as [(Hd & C1 & C2 & C3 & C4)|(-> & C1 & C2)]; [left|right; split_and!; done].
  split_and!; try done. rewrite (proj2 (Z.eqb_neq _ _) Hd).
  erewrite bind_Ok by (apply upd_proc_ok; cbn; by apply list_lookup_insert_eq).
  unfold tf_set32. kstep. kstep. apply (f_equal (Ok true L)). destruct s; cbn. by rewrite list_insert_insert_eq.
Qed.

(** In state [s'] the child [c] is a copy of what the parent [p] was in memory
    [m]: the parent is as before, the child has the stack page and other pages of
    the free list [l], with the parent's bytes, and its own trap frame; what
    is left of the free pages is [l']. *)
Record twin (trapret forkret : Z) (m : mem) (s' : pstate) (p c : proc) (l l' : list Z) : Prop := {
  tw_parent : image kend s' p l';
  tw_child : whole_proc kend s' c l';
  tw_size : sz c = sz p;
  tw_copy : copy_of m (kmemory (pkmem s')) (pgdir p) (pgdir c) (sz p) l;
  tw_tf : child_tf m (kmemory (pkmem s')) (tf p) (tf c);
  tw_stack : fresh_stack trapret forkret (kmemory (pkmem s')) (kstack c);
  tw_pages v : v ∈ kstack c :: l <-> v ∈ l' \/ holds (kmemory (pkmem s')) c v;
  tw_only : only_pages (kstack c :: l) m (kmemory (pkmem s')) }.

Lemma fresh_stack_same trapret forkret m m' v : same_on v (top_tf v) m m' ->
  fresh_stack trapret forkret m v -> fresh_stack trapret forkret m' v.
Proof.
  unfold fresh_stack, top_tf. cbv zeta. intros Hs (H1 & H2 & H3 & H4 & H5 & H6).
  assert (E : forall x, v <= x -> x + 4 <= v + KSTACKSIZE - sizeof_trapframe -> load32 m' x = load32 m x).
  { intros x Hx Hx4. apply load32_same. intros y Hy. apply Hs. lia. }
  unfold sizeof_context, context_eip, KSTACKSIZE, sizeof_trapframe in *.
  by rewrite !E by lia.
Qed.

Lemma only_pages_mono (l l' : list Z) m m' : (forall v, v ∈ l -> v ∈ l') -> only_pages l m m' -> only_pages l' m m'.
Proof. intros Hs H x Hx. apply H. intros (v & Hv & Hin). apply Hx. exists v. auto. Qed.

Lemma only_page_outside v m m' : same_outside v (v + PGSIZE) m m' -> only_pages [v] m m'.
Proof. intros H. apply (only_pages_in [v] m m' v); [by left|done]. Qed.

(** Memory is [m] before [allocproc] writes the new stack [v], [m1] after, [m2] when the
    pages are copied, and [m'] when the trap frame is. *)
Lemma twin_mem m m1 m2 m' pg d sz v l l1 :
  as_ok kend m pg (v :: l) -> NoDup (v :: l) -> Forall (page_ok kend) (v :: l) ->
  (forall va, upage va -> va < sz -> mapped m1 pg va = true) ->
  only_pages [v] m m1 -> only_pages l m1 m2 -> only_pages [v] m2 m' ->
  as_ok kend m2 d l1 -> copy_of m1 m2 pg d sz l -> (forall w, w ∈ l1 \/ own m2 d w -> w ∈ l) ->
  only_pages (v :: l) m m' /\ copy_of m m' pg d sz l /\
  (as_ok kend m' pg l1 /\ forall va, pte_at m' pg va = pte_at m1 pg va) /\
  as_ok kend m' d l1 /\ (forall va, pte_at m' d va = pte_at m2 d va) /\ (forall w, own m' d w <-> own m2 d w) /\
  ~ own m' d v /\ forall va, upage va -> mapped m' d va = true -> frame m' d va <> v.
Proof.
  intros Ha Hnd Hl Hmap O1 O2 O3 Ad C Hsub. apply NoDup_cons in Hnd as [Hv _].
  assert (Hone : forall (ll : list Z) w, w ∈ [v] -> w ∈ v :: ll) by (intros ll w ->%list_elem_of_singleton; by left).
  assert (Hno : ~ own m2 d v) by (intros Ho; apply Hv, Hsub; by right).
  assert (Hnf : forall va, upage va -> mapped m2 d va = true -> frame m2 d va <> v).
  { intros va Hu Hma E. apply Hv. rewrite <- E. apply (co_frame _ _ _ _ _ _ C); [done|].
    rewrite (co_map _ _ _ _ _ _ C) in Hma by done. by apply Z.ltb_lt. }
  pose proof (as_more kend _ _ _ _ Ad Hno Hnf) as Ad'.
  assert (Hl1 : Forall (page_ok kend) (v :: l1)).
  { inversion Hl as [|? ? Pv Pl]; subst. apply Forall_cons. split; [done|]. apply Forall_forall. intros w Hw.
    apply (proj1 (Forall_forall _ _) Pl). auto. }
  assert (Hall : only_pages (v :: l) m m').
  { eapply only_pages_trans; [eapply only_pages_mono, O1; apply Hone|].
    eapply only_pages_trans; [eapply only_pages_mono, O2; by right|eapply only_pages_mono, O3; apply Hone]. }
  destruct (as_keep kend m m' pg (v :: l) l1 Ha Hl Hall) as (A1 & E1 & _); [right; auto|].
  destruct (as_keep kend m2 m' d (v :: l1) l1 Ad' Hl1) as (A2 & E2 & W2 & _);
    [eapply only_pages_mono, O3; apply Hone|by right|].
  destruct (as_keep kend m m1 pg (v :: l) l Ha Hl) as (_ & E0 & _); [eapply only_pages_mono, O1; apply Hone|by right|].
  split; [done|]. split; [|split; [split; [done|intros va; by rewrite E0]|]].
  { apply (copy_keep kend m m1 m2 m' pg d sz v l l1); try done. intros va Hu Hva. unfold mapped. rewrite <- E0. by apply Hmap. }
  split_and!; try done; [by rewrite W2|]. intros va Hu. unfold mapped, frame. rewrite E2. by apply Hnf.
Qed.

Lemma twin_of trapret forkret me m s k1 p q d l l1 (ps : list proc) :
  image kend s p l -> stacks m p q l -> only_pages [kstack q] m (kmemory (pkmem s)) ->
  fresh_stack trapret forkret (kmemory (pkmem s)) (kstack q) -> kmem_inv kend k1 l1 ->
  only_pages l (kmemory (pkmem s)) (kmemory k1) -> d <> 0 -> as_ok kend (kmemory k1) d l1 ->
  copy_of (kmemory (pkmem s)) (kmemory k1) (pgdir p) d (sz p) l ->
  (forall v, v ∈ l -> v ∈ l1 \/ own (kmemory k1) d v \/
    exists va, upage va /\ mapped (kmemory k1) d va = true /\ v = frame (kmemory k1) d va) ->
  (forall v, v ∈ l1 \/ own (kmemory k1) d v -> v ∈ l) ->
  twin trapret forkret m (s <| procs := ps |> <| pkmem := k1 <| kmemory ::= copy_tf (tf p) (tf q) |> |>)
    p (imaged me d p q) l l1.
Proof.
  intros [Hk Ha Hsz Hm] [[P1 N1] T1 [P2 N2] Hne T2 Hap] O1 Hfs Hk1 O2 Hd Ad C Hin Hsub.
  set (v := kstack q) in *. set (m1 := kmemory (pkmem s)) in *.
  assert (Hvl : Forall (page_ok kend) (v :: l)) by (apply Forall_cons; split; [done|apply Hk]).
  assert (Hvd : NoDup (v :: l)) by (apply NoDup_cons; split; [done|apply Hk]).
  destruct (copy_tf_ok kend (kmemory k1) (kstack p) v P1 P2 Hne) as [Htf Hout]. rewrite <- T1, <- T2 in Htf, Hout.
  assert (Hout' : same_outside v (v + PGSIZE) (kmemory k1) (copy_tf (tf p) (tf q) (kmemory k1))).
  { eapply same_outside_weaken; [| |exact Hout]; [rewrite T2; unfold top_tf, KSTACKSIZE, sizeof_trapframe; lia|lia]. }
  assert (Hk' : kmem_inv kend (k1 <| kmemory ::= copy_tf (tf p) (tf q) |>) l1).
  { apply (kmem_inv_upd kend k1 v l1); try done. intros Hv. apply N2, Hsub. by left. }
  set (m' := copy_tf (tf p) (tf q) (kmemory k1)) in *.
  set (s' := s <| procs := ps |> <| pkmem := _ |>). assert (Em : kmemory (pkmem s') = m') by reflexivity.
  assert (Ek : kmem_inv kend (pkmem s') l1) by exact Hk'. clearbody m' s'.
  destruct (twin_mem m m1 (kmemory k1) m' (pgdir p) d (sz p) v l l1) as (W & C' & [A1 E1] & A2 & E2 & V2 & Hno & Hnf); try done.
  { intros va Hu Hva. rewrite Hm by done. by apply Z.ltb_lt. }
  { by apply only_page_outside. }
  split; rewrite ?Em; try done; [split|split| | |]; rewrite ?Em; try done.
  - intros va Hu. rewrite <- Hm by done. unfold mapped. by rewrite E1.
  - split; [done|]. intros Hv. apply N2, Hsub. by left.
  - rewrite T1 in *. apply (child_tf_source kend m (kmemory k1) m' (kstack p) (v :: l)); try done.
    + by apply not_elem_of_cons.
    + eapply only_pages_trans; [eapply only_pages_mono, O1; intros w ->%list_elem_of_singleton; by left|].
      eapply only_pages_mono, O2; by right.
  - apply (fresh_stack_same trapret forkret m1 m' v); [|done]. intros x Hx. rewrite Hout by (rewrite T2; lia).
    apply (only_pages_same kend l m1 _ v); try done; [apply Hk|]. unfold top_tf, KSTACKSIZE, sizeof_trapframe, PGSIZE in *. lia.
  - intros w. cbn [kstack imaged]. unfold holds. cbn. fold v. split.
    + intros [->|Hw]%elem_of_cons; [by right; left|]. destruct (Hin w Hw) as [?|[?|(va & Hu & Hma & ->)]].
      * by left.
      * right. right. left. by rewrite V2.
      * right. right. right. exists va. unfold mapped, frame. by rewrite E2.
    + rewrite elem_of_cons. intros [?|[?|[?|(va & Hu & Hma & ->)]]].
      * right. auto.
      * by left.
      * right. apply Hsub. right. by rewrite <- V2.
      * right. apply (co_frame _ _ _ _ _ _ C'); [done|]. rewrite (co_map _ _ _ _ _ _ C') in Hma by done. by apply Z.ltb_lt.
Qed.

End image.

(** *** The open files *)

(** How often [i] is open in the table of descriptors [l], and the file table with
    that many more references. *)
Definition uses (i : nat) (l : list Z) : Z := Z.of_nat (length (filter (fun w => ptr_file w = Some i) l)).
Definition dup_table (l : list Z) (ft : list file) : list file :=
  imap (fun i f => f <| fref := fref f + uses i l |>) ft.

(** Every descriptor is free or refers to a file with a reference. *)
Definition open_files (ft : list file) (l : list Z) : Prop :=
  length l = Z.to_nat NOFILE /\
  Forall (fun w => w = 0 \/ exists i f, ptr_file w = Some i /\ ft !! i = Some f /\ 1 <= fref f < 2 ^ 31 - NOFILE) l.

Lemma uses_bound i l : 0 <= uses i l <= Z.of_nat (length l).
Proof. unfold uses. pose proof (length_filter (fun w => ptr_file w = Some i) l). lia. Qed.

Lemma uses_app i l w : uses i (l ++ [w]) = uses i l + if decide (ptr_file w = Some i) then 1 else 0.
Proof.
  unfold uses. rewrite filter_app, length_app, filter_cons, filter_nil.
  destruct (decide _); simpl length; lia.
Qed.

Lemma dup_table_nil ft : dup_table [] ft = ft.
Proof.
  apply list_eq. intros i. unfold dup_table. rewrite list_lookup_imap. destruct (ft !! i) as [f|]; [|done].
  cbn. f_equal. destruct f. cbn. f_equal. unfold uses. cbn. lia.
Qed.

Lemma dup_table_lookup l ft i f : ft !! i = Some f -> dup_table l ft !! i = Some (f <| fref := fref f + uses i l |>).
Proof. intros H. unfold dup_table. by rewrite list_lookup_imap, H. Qed.

Lemma dup_table_null l ft : dup_table (l ++ [0]) ft = dup_table l ft.
Proof.
  apply list_eq. intros i. unfold dup_table. rewrite !list_lookup_imap. destruct (ft !! i); [|done].
  cbn. rewrite uses_app, decide_False by done. by rewrite Z.add_0_r.
Qed.

Lemma dup_table_app l ft w j f : ptr_file w = Some j -> dup_table l ft !! j = Some f ->
  dup_table (l ++ [w]) ft = <[j := f <| fref := fref f + 1 |>]> (dup_table l ft).
Proof.
  intros Hw Hf. apply list_eq. intros i. destruct (decide (j = i)) as [<-|Hne].
  - rewrite list_lookup_insert_eq by by eapply lookup_lt_Some.
    unfold dup_table in *. rewrite list_lookup_imap in *. destruct (ft !! j) as [f0|]; [|done]. cbn in *.
    injection Hf as <-. f_equal. cbn. rewrite uses_app, decide_True by done. by rewrite Z.add_assoc.
  - rewrite list_lookup_insert_ne by done. unfold dup_table. rewrite !list_lookup_imap. destruct (ft !! i); [|done]. cbn.
    rewrite uses_app, decide_False by congruence. by rewrite Z.add_0_r.
Qed.

Lemma put_fpk s : s <| fpk := fpk s |> = s.
Proof. by destruct s as [[[[]]]]. Qed.

Lemma fpk_get_proc i p L s : procs (fpk s) !! i = Some p -> zoom fpk (get_proc i) L s = Ok p L s.
Proof. intros H. rewrite (zoom_Ok _ _ _ _ _ _ _ (get_proc_ok i L _ p H)). by rewrite put_fpk. Qed.

Lemma fpk_upd_proc i f p L s : procs (fpk s) !! i = Some p ->
  zoom fpk (upd_proc i f) L s = Ok tt L (s <| fpk := (fpk s) <| procs ::= <[i := f p]> |> |>).
Proof. intros H. by rewrite (zoom_Ok _ _ _ _ _ _ _ (upd_proc_ok i f L _ p H)). Qed.

Lemma filedup_ok j f L s : ftable s !! j = Some f -> 1 <= fref f < 2 ^ 31 - 1 -> Lftable ∉ L ->
  filedup j L s = Ok j L (s <| ftable ::= <[j := f <| fref := fref f + 1 |>]> |>).
Proof.
  intros Hf Hr HL. unfold filedup. kstep. unfold upd_file.
  rewrite (bind_Ok _ _ _ _ f (Lftable :: L) s) by (unfold get_file; kstep; by rewrite Hf).
  destruct (Z.ltb_spec (fref f) 1); [lia|]. rewrite bind_assoc.
  rewrite (bind_Ok _ _ _ _ f (Lftable :: L) s) by (unfold get_file; kstep; by rewrite Hf).
  kstep. erewrite bind_Ok by by apply release_top. rewrite i32_small by lia. done.
Qed.

Section files.
Context (me np : nat) (p c : proc) (ops : list Z) (s0 : filest) (L : locks).
Context (Hne : me <> np) (Hp : procs (fpk s0) !! me = Some p) (Hc : procs (fpk s0) !! np = Some c).
Context (Hops : ofile p = ops) (Hopen : open_files (ftable s0) ops) (Hclean : ofile c = replicate (Z.to_nat NOFILE) 0).
Context (HL : Lftable ∉ L).

Definition slots (k : nat) : list Z := take k ops ++ replicate (Z.to_nat NOFILE - k) 0.

(** The state when the first [k] descriptors are copied. *)
Definition copied (k : nat) : filest :=
  s0 <| ftable := dup_table (take k ops) (ftable s0) |>
     <| fpk := (fpk s0) <| procs ::= <[np := c <| ofile := slots k |>]> |> |>.

Lemma copied_0 : copied 0 = s0.
Proof.
  unfold copied, slots. rewrite Nat.sub_0_r, <- Hclean. change (take 0 ops) with (@nil Z). cbn [app]. rewrite dup_table_nil.
  assert (E : c <| ofile := ofile c |> = c) by by destruct c. rewrite E.
  assert (Ei : (fpk s0) <| procs ::= <[np := c]> |> = fpk s0).
  { pose proof (list_insert_id _ _ _ Hc). destruct (fpk s0). cbn in *. by f_equal. }
  rewrite Ei. assert (Et : s0 <| ftable := ftable s0 |> = s0) by by destruct s0. rewrite Et. apply put_fpk.
Qed.

Lemma copied_me k : procs (fpk (copied k)) !! me = Some p.
Proof. cbn. by rewrite list_lookup_insert_ne. Qed.

Lemma copied_np k : procs (fpk (copied k)) !! np = Some (c <| ofile := slots k |>).
Proof. cbn. apply list_lookup_insert_eq. by eapply lookup_lt_Some. Qed.

Lemma slots_next k w : ops !! k = Some w -> (k < Z.to_nat NOFILE)%nat ->
  slots (S k) = <[k := w]> (slots k) /\ length (slots k) = Z.to_nat NOFILE /\ (w = 0 -> slots (S k) = slots k).
Proof.
  intros Hw Hk. pose proof (lookup_lt_Some _ _ _ Hw) as Hl. unfold slots. rewrite (take_S_r _ _ _ Hw).
  replace (Z.to_nat NOFILE - k)%nat with (S (Z.to_nat NOFILE - S k)) by lia. cbn [replicate].
  rewrite <- app_assoc. cbn [app]. split_and!.
  - rewrite insert_app_r_alt by (rewrite length_take; lia). f_equal.
    by replace (k - length (take k ops))%nat with 0%nat by (rewrite length_take; lia).
  - rewrite length_app, length_take. cbn [length]. rewrite length_replicate. lia.
  - by intros ->.
Qed.

Lemma fork_fd_step k : (k < Z.to_nat NOFILE)%nat -> fork_fd me np (Z.of_nat k) L (copied k) = Ok tt L (copied (S k)).
Proof.
  intros Hk. destruct Hopen as [Hlen Hall]. destruct (lookup_lt_is_Some_2 ops k) as [w Hw]; [lia|].
  destruct (slots_next k w Hw Hk) as (Hs & Hsl & Hs0).
  unfold fork_fd. erewrite bind_Ok by apply fpk_get_proc, copied_me. rewrite Hops, aget_of_nat, Hw. kstep.
  destruct (proj1 (Forall_lookup _ _) Hall k w Hw) as [->|(j & f & Hj & Hf & Hr)].
  - cbn. unfold copied. rewrite Hs0, (take_S_r _ _ _ Hw), dup_table_null by done. done.
  - rewrite Hj. pose proof (uses_bound j (take k ops)) as Hu. rewrite length_take in Hu.
    pose proof (dup_table_lookup (take k ops) _ j f Hf) as Hd. change NOFILE with 16 in *.
    erewrite bind_Ok by (apply filedup_ok; [exact Hd|cbn; lia|done]).
    erewrite bind_Ok by (apply fpk_get_proc; cbn; apply list_lookup_insert_eq; by eapply lookup_lt_Some).
    cbn [ofile]. rewrite aset_in by (cbn; lia). kstep. rewrite Nat2Z.id.
    erewrite fpk_upd_proc by (cbn; apply list_lookup_insert_eq; by eapply lookup_lt_Some).
    apply (f_equal (Ok tt L)). unfold copied. rewrite (take_S_r _ _ _ Hw), (dup_table_app _ _ w j _ Hj Hd), Hs. cbn.
    by rewrite list_insert_insert_eq.
Qed.

Lemma fork_fds : kiter (fork_fd me np) (zseq 0 NOFILE) L s0 = Ok tt L
  (s0 <| ftable := dup_table ops (ftable s0) |> <| fpk := (fpk s0) <| procs ::= <[np := c <| ofile := ops |>]> |> |>).
Proof.
  assert (H : forall n k, (k + n = Z.to_nat NOFILE)%nat ->
    kiter (fork_fd me np) (map (fun i => 0 + Z.of_nat i) (seq k n)) L (copied k) = Ok tt L (copied (Z.to_nat NOFILE))).
  { induction n as [|n IH]; intros k Hk; [by replace (Z.to_nat NOFILE) with k by lia|].
    cbn [seq map kiter]. rewrite Z.add_0_l. erewrite bind_Ok by (apply fork_fd_step; lia). apply IH. lia. }
  pose proof (H (Z.to_nat NOFILE) 0%nat eq_refl) as R. rewrite copied_0 in R. unfold zseq. rewrite R.
  unfold copied, slots. destruct Hopen as [Hlen _]. rewrite Nat.sub_diag, <- Hlen, firstn_all. cbn [replicate].
  by rewrite app_nil_r.
Qed.

End files.

(** *** [fork] *)

Section fork.
Context (kend data trapret forkret_addr : Z) (fuel : nat) (Hkend : KERNBASE < kend) (Hdata : data_ok data)
  (Hfuel : KERNBASE / PGSIZE + 2 <= Z.of_nat fuel).

(** Process [me] may fork: it is well formed, with its trap frame on its kernel
    stack and its files and directory in their tables; [np] is the slot
    [allocproc] will find, and [l] are the free pages. *)
Record forkable (me np : nat) (p q : proc) (qu : queue) (ql : list nat) (c : nat) (x : inode)
    (L : locks) (s : filest) (l : list Z) : Prop := {
  fk_cur : curproc (fpk s) = Some me;
  fk_me : procs (fpk s) !! me = Some p;
  fk_run : state p = RUNNING;
  fk_image : image kend (fpk s) p l;
  fk_stack : page_ok kend (kstack p) /\ kstack p ∉ l;
  fk_tf : tf p = top_tf (kstack p);
  fk_slot : alloc_pre np q qu ql L (fpk s);
  fk_clean : ofile q = replicate (Z.to_nat NOFILE) 0;
  fk_open : open_files (ftable s) (ofile p);
  fk_cwd : ptr_inode (cwd p) = Some c /\ icache (fs s) !! c = Some x;
  fk_locks : (Lftable ∉ L) /\ Licache ∉ L }.

(** The child [ch] runs as a twin of its parent, with the parent's files, which have a
    reference more for each descriptor. *)
Record forked (me np : nat) (p q ch : proc) (ql : list nat) (c : nat) (x : inode)
    (s s' : filest) (l l' : list Z) : Prop := {
  fd_table : procs (fpk s') = <[np := ch]> (procs (fpk s));
  fd_twin : twin kend trapret forkret_addr (kmemory (pkmem (fpk s))) (fpk s') p ch (tail l) l';
  fd_stack : head l = Some (kstack ch);
  fd_pid : pid ch = nextpid (fpk s) /\ nextpid (fpk s') = i32 (nextpid (fpk s) + 1);
  fd_parent : parent ch = Some me;
  fd_ready : state ch = RUNNABLE /\ queueNumber ch = QUEUE_DEFAULT /\ priority ch = 3 /\
    exists qu', aget (schedulingQueues (fpk s')) 0 = Some qu' /\ ring_rep qu' (ql ++ [np]);
  fd_history : syscallhistory ch = [];
  fd_names : cwd ch = cwd p /\ name ch = copy_pname (name q) (name p);
  fd_files : ofile ch = ofile p /\ ftable s' = dup_table (ofile p) (ftable s);
  fd_cwd : icache (fs s') = <[c := x <| iref := i32 (iref x + 1) |>]> (icache (fs s)) }.

(** Nothing happened, except that a pid is used up and the slot is in queue 0. *)
Record refused (np : nat) (p : proc) (ql : list nat) (s s' : filest) (l l' : list Z) : Prop := {
  rf_table : exists q', procs (fpk s') = <[np := q']> (procs (fpk s)) /\ state q' = UNUSED;
  rf_used : nextpid (fpk s') = i32 (nextpid (fpk s) + 1) /\
    exists qu', aget (schedulingQueues (fpk s')) 0 = Some qu' /\ ring_rep qu' (ql ++ [np]);
  rf_pages v : v ∈ l' <-> v ∈ l;
  rf_scarce : Z.of_nat (length l) <= 69 + sz p / PGSIZE + sz p / 2 ^ 22;
  rf_image : image kend (fpk s') p l';
  rf_only : only_pages l (kmemory (pkmem (fpk s))) (kmemory (pkmem (fpk s')));
  rf_files : ftable s' = ftable s /\ icache (fs s') = icache (fs s) }.

Lemma idup_ok ip x L s : icache s !! ip = Some x -> Licache ∉ L ->
  idup ip L s = Ok ip L (s <| icache ::= <[ip := x <| iref := i32 (iref x + 1) |>]> |>).
Proof.
  intros Hx HL. unfold idup. kstep. erewrite bind_Ok by by apply upd_inode_ok.
  by erewrite bind_Ok by by apply release_top.
Qed.

(** What the child has when [fork] is done with its entry. *)
Definition finished (p ch : proc) : proc :=
  ch <| ofile := ofile p |> <| cwd := cwd p |> <| name := copy_pname (name ch) (name p) |> <| state := RUNNABLE |>.

(** [fork] from the loop over the descriptors on. *)
Definition fork_rest (me np : nat) : K filest Z :=
  kiter (fork_fd me np) (zseq 0 NOFILE) ;;
  p ← zoom fpk (get_proc me);
  c ← deref "cwd" (ptr_inode (cwd p));
  zoom fs (idup c) ;;
  zoom fpk (upd_proc np (fun q => q <| cwd := cwd p |> <| name := copy_pname (name q) (name p) |>)) ;;
  q ← zoom fpk (get_proc np);
  zoom fpk (make_runnable np) ;;
  mret (pid q).

Lemma fork_rest_ok me np p ch c x L s :
  me <> np -> procs (fpk s) !! me = Some p -> procs (fpk s) !! np = Some ch ->
  open_files (ftable s) (ofile p) -> ofile ch = replicate (Z.to_nat NOFILE) 0 ->
  ptr_inode (cwd p) = Some c -> icache (fs s) !! c = Some x -> Lftable ∉ L -> Licache ∉ L -> Lptable ∉ L ->
  exists s', fork_rest me np L s = Ok (pid ch) L s' /\
    fpk s' = (fpk s) <| procs ::= <[np := finished p ch]> |> /\
    ftable s' = dup_table (ofile p) (ftable s) /\
    icache (fs s') = <[c := x <| iref := i32 (iref x + 1) |>]> (icache (fs s)).
Proof.
  intros Hne Hp Hc Ho Hcl Hcwd Hx HL1 HL2 HL3. pose proof (lookup_lt_Some _ _ _ Hc) as Hlt.
  unfold fork_rest. erewrite bind_Ok by (by apply (fork_fds me np p ch (ofile p) s L)).
  erewrite bind_Ok by (apply fpk_get_proc; cbn; by rewrite list_lookup_insert_ne).
  rewrite Hcwd. kstep. erewrite bind_Ok by (apply zoom_Ok; by apply idup_ok).
  erewrite bind_Ok by (apply fpk_upd_proc; cbn; by apply list_lookup_insert_eq).
  erewrite bind_Ok by (apply fpk_get_proc; cbn; apply list_lookup_insert_eq; by rewrite length_insert).
  erewrite bind_Ok.
  2: { apply zoom_Ok. unfold make_runnable. kstep.
       erewrite bind_Ok by (apply upd_proc_ok; cbn; apply list_lookup_insert_eq; by rewrite length_insert).
       by apply release_top. }
  eexists. split; [reflexivity|]. split; [|done].
  cbn. unfold fpk. rewrite !list_insert_insert_eq. done.
Qed.

Notation fork := (ProcLife.fork kend data trapret forkret_addr fuel).

Lemma fork_unfold me L s : curproc (fpk s) = Some me ->
  fork L s = (a ← zoom fpk (allocproc trapret forkret_addr);
    match a with
    | None => mret (-1)
    | Some np => ok ← zoom fpk (fork_image kend data fuel me np); if negb ok then mret (-1) else fork_rest me np
    end) L s.
Proof.
  intros Hc. unfold ProcLife.fork. erewrite bind_Ok by (apply zoom_Ok; by apply myproc_ok). by rewrite put_fpk.
Qed.

(** Only the memory matters for an image. *)
Lemma image_same s s' p l l' : image kend s p l -> Forall (page_ok kend) l -> kmem_inv kend (pkmem s') l' ->
  only_pages l (kmemory (pkmem s)) (kmemory (pkmem s')) -> (forall v, v ∈ l' -> v ∈ l) -> image kend s' p l'.
Proof.
  intros [Hk Ha Hsz Hm] Hl Hk' Ho Hs. destruct (as_keep kend _ _ _ _ l' Ha Hl Ho Hs) as (A & E & _).
  split; [done..|]. intros va Hu. rewrite <- Hm by done. unfold mapped. by rewrite E.
Qed.

(** What [allocproc] leaves for [fork_image]: the entry [e] with the stack [v]. *)
Record allocated (me np : nat) (p q : proc) (ql : list nat) (s : pstate) (v : Z) (fl : list Z) (s1 : pstate) (e : proc) : Prop := {
  al_table : procs s1 = <[np := e]> (procs s);
  al_ne : me <> np;
  al_np : procs s1 !! np = Some e;
  al_me : procs s1 !! me = Some p;
  al_image : image kend s1 p fl;
  al_stacks : stacks kend (kmemory (pkmem s)) p e fl;
  al_one : only_pages [v] (kmemory (pkmem s)) (kmemory (pkmem s1));
  al_fresh : fresh_stack trapret forkret_addr (kmemory (pkmem s1)) v;
  al_queue : exists qu', aget (schedulingQueues s1) 0 = Some qu' /\ ring_rep qu' (ql ++ [np]);
  al_next : nextpid s1 = i32 (nextpid s + 1);
  al_entry : kstack e = v /\ pid e = nextpid s /\ queueNumber e = QUEUE_DEFAULT /\
    priority e = 3 /\ syscallhistory e = [] /\ ofile e = ofile q /\ name e = name q }.

Lemma alloc_for_fork me np p q qu ql c x L s v fl :
  forkable me np p q qu ql c x L s (v :: fl) ->
  exists s1 e, allocproc trapret forkret_addr L (fpk s) = Ok (Some np) L s1 /\ allocated me np p q ql (fpk s) v fl s1 e.
Proof.
  intros [Hcur Hme Hrun Him [Pk Nk] Htf Hslot Hcl Hop Hcwd HL].
  pose proof (ki_pages _ _ _ (im_kmem _ _ _ _ Him)) as Hl. pose proof (ki_nodup _ _ _ (im_kmem _ _ _ _ Him)) as Hd.
  destruct (allocproc_new kend trapret forkret_addr np q qu ql L (fpk s) v fl Hslot (im_kmem _ _ _ _ Him))
    as (s1 & e & qu' & R & Eps & _ & Epid & Enext & Eks & Epr & Eqn & Ehist & _ & Eof & Ename & Etf & _ & Equ & Hring & Hk & Hfs & Hout & _).
  apply only_page_outside in Hout. apply NoDup_cons in Hd as [Nv Hd]. apply not_elem_of_cons in Nk as [Hkv Nk].
  assert (Hne : me <> np).
  { intros ->. pose proof (ap_slot _ _ _ _ _ _ Hslot). pose proof (ap_unused _ _ _ _ _ _ Hslot). congruence. }
  exists s1, e. split; [done|]. split; try done.
  - rewrite Eps. apply list_lookup_insert_eq. eapply lookup_lt_Some, Hslot.
  - by rewrite Eps, list_lookup_insert_ne.
  - apply (image_same (fpk s) s1 p (v :: fl) fl); try done; [|by right].
    eapply only_pages_mono, Hout. intros w ->%list_elem_of_singleton. by left.
  - split; rewrite ?Eks; try done; [|apply Him]. split; [|done]. by apply Forall_inv in Hl.
  - by exists qu'.
Qed.

Lemma twin_ext m s s' p c c' l l' : twin kend trapret forkret_addr m s p c l l' -> pkmem s' = pkmem s ->
  pgdir c' = pgdir c -> sz c' = sz c -> tf c' = tf c -> kstack c' = kstack c ->
  twin kend trapret forkret_addr m s' p c' l l'.
Proof.
  intros [[] [] ? ? ? ? Hp ?] E E1 E2 E3 E4.
  split; [split|split|..]; rewrite ?E, ?E1, ?E2, ?E3, ?E4; try done.
  intros v. unfold holds. rewrite E1, E4. apply Hp.
Qed.

Lemma refused_alloc me np p q qu ql c x L s : forkable me np p q qu ql c x L s [] ->
  exists s', fork L s = Ok (-1) L s' /\ refused np p ql s s' [] [].
Proof.
  intros F. pose proof F as [Hcur Hme Hrun Him [Pk Nk] Htf Hslot Hcl Hop Hcwd HL].
  destruct (proj2 (allocproc_fails kend trapret forkret_addr L (fpk s) (ap_ptable _ _ _ _ _ _ Hslot)) np q qu ql Hslot (im_kmem _ _ _ _ Him))
    as (s1 & q' & qu' & R & Eps & Eu & _ & En & Ek & Equ).
  rewrite (fork_unfold me) by done. erewrite bind_Ok by (apply zoom_Ok; exact R).
  eexists. split; [reflexivity|]. split.
  - by exists q'.
  - split; [exact En|by exists qu'].
  - done.
  - assert (0 <= sz p / PGSIZE /\ 0 <= sz p / 2 ^ 22) by (split; (apply Z.div_pos; [apply Him|done])). cbn [length]. lia.
  - change (image kend s1 p []). destruct Him as [? ? ? ?]. split; by rewrite ?Ek.
  - change (only_pages [] (kmemory (pkmem (fpk s))) (kmemory (pkmem s1))). rewrite Ek. apply only_pages_refl.
  - done.
Qed.

Lemma fork_granted me np p q qu ql c x L s v fl s1 e k1 l1 d :
  forkable me np p q qu ql c x L s (v :: fl) -> allocproc trapret forkret_addr L (fpk s) = Ok (Some np) L s1 ->
  allocated me np p q ql (fpk s) v fl s1 e ->
  fork_image kend data fuel me np L s1 = Ok true L
    (s1 <| procs ::= <[np := imaged me d p e]> |> <| pkmem := k1 <| kmemory ::= copy_tf (tf p) (tf e) |> |>) ->
  twin kend trapret forkret_addr (kmemory (pkmem (fpk s)))
    (s1 <| procs ::= <[np := imaged me d p e]> |> <| pkmem := k1 <| kmemory ::= copy_tf (tf p) (tf e) |> |>)
    p (imaged me d p e) fl l1 ->
  exists s', fork L s = Ok (nextpid (fpk s)) L s' /\ exists ch, forked me np p q ch ql c x s s' (v :: fl) l1.
Proof.
  intros [Hcur Hme Hrun Him0 _ _ Hslot Hcl Hop [Hcwd Hx] [HL1 HL2]] R1
    [Eps Hne Hnp Hme1 _ _ _ _ Hq Hnext (Eks & Epid & Eqn & Epr & Ehist & Eof & Ename)] R2 Htw.
  set (s2 := s1 <| procs ::= _ |> <| pkmem := _ |>) in *.
  assert (E2 : procs s2 = <[np := imaged me d p e]> (procs s1) /\ schedulingQueues s2 = schedulingQueues s1 /\ nextpid s2 = nextpid s1) by done.
  clearbody s2. destruct E2 as (E2 & E2q & E2n). pose proof (lookup_lt_Some _ _ _ Hnp) as Hlt.
  rewrite (fork_unfold me) by done. erewrite bind_Ok by (apply zoom_Ok; exact R1).
  cbv iota beta. erewrite bind_Ok by (apply zoom_Ok; exact R2). cbn [negb].
  set (s3 := s <| fpk := s1 |> <| fpk := s2 |>).
  assert (E3 : fpk s3 = s2 /\ ftable s3 = ftable s /\ icache (fs s3) = icache (fs s)) by done. destruct E3 as (E3 & E3f & E3i).
  destruct (fork_rest_ok me np p (imaged me d p e) c x L s3) as (s' & R & Es & Ef & Ei);
    rewrite ?E3, ?E2, ?E3f, ?E3i; try done; [by rewrite list_lookup_insert_ne|by apply list_lookup_insert_eq
      |by rewrite <- Hcl, <- Eof|apply Hslot|].
  exists s'. split; [by rewrite R; cbn; rewrite Epid|]. exists (finished p (imaged me d p e)).
  split; rewrite ?Es, ?E3, ?Ef, ?Ei.
  - cbn. by rewrite E2, list_insert_insert_eq, Eps, list_insert_insert_eq.
  - apply (twin_ext _ s2 _ _ (imaged me d p e) _ _ _ Htw); reflexivity.
  - cbn. by rewrite Eks.
  - cbn. by rewrite E2n, Hnext.
  - done.
  - cbn. by rewrite E2q.
  - exact Ehist.
  - cbn. by rewrite Ename.
  - done.
  - done.
Qed.

Lemma fork_undone me np p q qu ql c x L s v fl s1 e k1 l1 :
  forkable me np p q qu ql c x L s (v :: fl) -> allocproc trapret forkret_addr L (fpk s) = Ok (Some np) L s1 ->
  allocated me np p q ql (fpk s) v fl s1 e -> kmem_inv kend k1 l1 ->
  only_pages fl (kmemory (pkmem s1)) (kmemory k1) -> (forall w, w ∈ l1 <-> w ∈ fl) ->
  Z.of_nat (length fl) <= 68 + sz p / PGSIZE + sz p / 2 ^ 22 -> fork_image kend data fuel me np L s1 =
    (zoom pkmem (kfree kend (kstack e)) ;;
     upd_proc np (fun q => q <| kstack := 0 |> <| state := UNUSED |>) ;; mret false) L
    (s1 <| procs ::= <[np := e <| pgdir := 0 |>]> |> <| pkmem := k1 |>) ->
  exists s' l', fork L s = Ok (-1) L s' /\ refused np p ql s s' (v :: fl) l'.
Proof.
  intros [Hcur Hme Hrun Him0 _ _ Hslot _ _ _ _] R1 [Eps Hne Hnp Hme1 Him Hst Hone _ Hq Hnext (Eks & _)] Hk1 Honly Hset Hfew R2.
  destruct Hst as [_ _ [Pv Nv] _ _ _]. rewrite Eks in *. pose proof (lookup_lt_Some _ _ _ Hnp) as Hlt.
  destruct (kfree_spec kend v l1 L k1 Pv) as (k2 & R3 & Hk2 & Hout & _); [by rewrite Hset|done|apply Hslot|].
  set (e' := e <| pgdir := 0 |> <| kstack := 0 |> <| state := UNUSED |>).
  assert (R4 : exists s2, fork_image kend data fuel me np L s1 = Ok false L s2 /\ procs s2 = <[np := e']> (procs s1) /\ pkmem s2 = k2 /\
    nextpid s2 = nextpid s1 /\ schedulingQueues s2 = schedulingQueues s1).
  { rewrite R2. erewrite bind_Ok by (apply zoom_Ok; exact R3).
    erewrite bind_Ok by (apply upd_proc_ok; cbn; by apply list_lookup_insert_eq).
    eexists. split; [reflexivity|]. split; [|done]. cbn. by rewrite list_insert_insert_eq. }
  destruct R4 as (s2 & R4 & E2 & Ek & En & Eq). clear R2.
  assert (Hall : only_pages (v :: fl) (kmemory (pkmem (fpk s))) (kmemory k2)).
  { assert (H1 : forall w, w ∈ [v] -> w ∈ v :: fl) by (intros w ->%list_elem_of_singleton; by left).
    eapply only_pages_trans; [eapply only_pages_mono, Hone; apply H1|].
    eapply only_pages_trans; [eapply only_pages_mono, Honly; by right|].
    eapply only_pages_mono, only_page_outside, Hout. apply H1. }
  assert (Hset' : forall w, w ∈ v :: l1 <-> w ∈ v :: fl) by (intros w; by rewrite !elem_of_cons, Hset).
  exists (s <| fpk := s1 |> <| fpk := s2 |>), (v :: l1).
  split. { rewrite (fork_unfold me) by done. erewrite bind_Ok by (apply zoom_Ok; exact R1).
    cbv iota beta. by erewrite bind_Ok by (apply zoom_Ok; exact R4). }
  split; change (fpk (s <| fpk := s1 |> <| fpk := s2 |>)) with s2; rewrite ?Ek; try done.
  - exists e'. by rewrite E2, Eps, list_insert_insert_eq.
  - by rewrite En, Eq.
  - cbn [length]. lia.
  - apply (image_same (fpk s) s2 p (v :: fl)); rewrite ?Ek; try done; [apply Him0|apply Hset'].
Qed.

(** Process [me] calls [fork]: as [forkable], but whether a slot is free is open.  Slots that
    are not in use have no open files, and queue 0 has room. *)
Record may_fork (me : nat) (p : proc) (qu : queue) (ql : list nat) (c : nat) (x : inode)
    (L : locks) (s : filest) (l : list Z) : Prop := {
  mf_cur : curproc (fpk s) = Some me;
  mf_me : procs (fpk s) !! me = Some p;
  mf_run : state p = RUNNING;
  mf_image : image kend (fpk s) p l;
  mf_stack : page_ok kend (kstack p) /\ kstack p ∉ l;
  mf_tf : tf p = top_tf (kstack p);
  mf_queue : aget (schedulingQueues (fpk s)) 0 = Some qu /\ ring_rep qu ql /\ Z.of_nat (length ql) < NPROC;
  mf_clean : Forall (fun q => state q = UNUSED -> ofile q = replicate (Z.to_nat NOFILE) 0) (procs (fpk s));
  mf_open : open_files (ftable s) (ofile p);
  mf_cwd : ptr_inode (cwd p) = Some c /\ icache (fs s) !! c = Some x;
  mf_locks : (Lftable ∉ L) /\ (Licache ∉ L) /\ (Lptable ∉ L) /\ (Lqueue 0 ∉ L) /\ Lkmem ∉ L }.

(** The first free slot, or none. *)
Lemma find_slot (ps : list proc) :
  Forall (fun q => state q <> UNUSED) ps \/
  exists np q, ps !! np = Some q /\ state q = UNUSED /\ forall j x, (j < np)%nat -> ps !! j = Some x -> state x <> UNUSED.
Proof.
  destruct (first_proc (fun q => bool_decide (state q = UNUSED)) ps 0) as [np|] eqn:E.
  - apply first_proc_Some in E as (q & Hq & Hu & Hf). right. exists np, q. split; [done|]. split; [by apply bool_decide_eq_true in Hu|].
    intros j y Hj Hy. by apply (bool_decide_eq_false _), (Hf j y).
  - left. apply first_proc_None in E. eapply Forall_impl; [exact E|]. intros q Hq. by apply bool_decide_eq_false in Hq.
Qed.

(** [fork] with a free slot. *)
Lemma fork_in_slot me np p q qu ql c x L s l : forkable me np p q qu ql c x L s l ->
  exists r s' l', fork L s = Ok r L s' /\
    (r = nextpid (fpk s) /\ (exists ch, forked me np p q ch ql c x s s' l l') \/ r = -1 /\ refused np p ql s s' l l').
Proof.
  intros H. destruct l as [|v fl].
  { destruct (refused_alloc me np p q qu ql c x L s H) as (s' & R & Hr). exists (-1), s', []. auto. }
  destruct (alloc_for_fork me np p q qu ql c x L s v fl H) as (s1 & e & R1 & Al).
  pose proof (fk_slot _ _ _ _ _ _ _ _ _ _ _ H) as Hslot.
  destruct (fork_image_run kend data fuel Hkend Hdata Hfuel me np p e fl L s1) as (k1 & l1 & d & _ & Hk1 & Honly & Hcase);
    try apply Al; [apply Hslot|].
  destruct Hcase as [(Hd & Ad & Hco & Hin & Hsub & R2)|(-> & Hset & Hfew & R2)].
  - destruct (fork_granted me np p q qu ql c x L s v fl s1 e k1 l1 d H R1 Al R2) as (s' & R & Hf).
    + pose proof Al as [_ _ _ _ Him Hst Hone Hfs _ _ (Eks & _)]. rewrite <- Eks in Hone, Hfs.
      by apply (twin_of kend trapret forkret_addr me _ s1 k1 p e d fl l1).
    + exists (nextpid (fpk s)), s', l1. auto.
  - destruct (fork_undone me np p q qu ql c x L s v fl s1 e k1 l1 H R1 Al Hk1 Honly Hset Hfew R2) as (s' & l' & R & Hr).
    exists (-1), s', l'. auto.
Qed.

(** C2: [fork] copies the calling process or returns -1 for one of two reasons.  When
    it returns a pid, the child is in the first slot that was free, as a runnable process with
    that pid at the tail of its queue; its address space has the parent's pages, byte for
    byte and with the same flags, in frames of its own; it will start in [forkret] and return
    from the system call with the parent's registers and 0 in eax; every open file has a
    reference more for each descriptor, and the directory one; the parent and all other
    processes are unchanged, and every page that is no longer free belongs to the child.
    When no slot is free it returns -1 and nothing at all has changed.  Otherwise it returns -1
    only when fewer pages are free than a copy can need; then the same pages are free as
    before and no file has a new reference, but a pid is used up and the slot, free again, stays in
    queue 0. *)
Theorem fork_copies_process me p qu ql c x L s l (H : may_fork me p qu ql c x L s l) :
  exists r s' l', fork L s = Ok r L s' /\
    ((exists np q ch, r = nextpid (fpk s) /\ procs (fpk s) !! np = Some q /\ state q = UNUSED /\
       (forall j y, (j < np)%nat -> procs (fpk s) !! j = Some y -> state y <> UNUSED) /\
       forked me np p q ch ql c x s s' l l') \/
     (r = -1 /\ s' = s /\ l' = l /\ Forall (fun q => state q <> UNUSED) (procs (fpk s))) \/
     (exists np, r = -1 /\ refused np p ql s s' l l')).
Proof.
  destruct H as [Hcur Hme Hrun Him Hst Htf (Hq & Hr & Hroom) Hcl Hop Hcwd (HL1 & HL2 & HL3 & HL4 & HL5)].
  destruct (find_slot (procs (fpk s))) as [Hfull|(np & q & Hnp & Hu & Hfirst)].
  - exists (-1), s, l. split; [|auto 10]. rewrite (fork_unfold me) by done.
    erewrite bind_Ok by (apply zoom_Ok; by apply (proj1 (allocproc_fails kend trapret forkret_addr L (fpk s) HL3))).
    by rewrite put_fpk.
  - destruct (fork_in_slot me np p q qu ql c x L s l) as (r & s' & l' & R & Hcase).
    { split; try done. by apply (proj1 (Forall_lookup _ _) Hcl np). }
    exists r, s', l'. split; [done|]. destruct Hcase as [(-> & ch & Hf)|(-> & Hf)]; [left; by exists np, q, ch|right; right; by exists np].
Qed.

End fork.

(** *** A concrete fork

    The process of LifeSpec.v with [demo_pages] more free pages, a file that is open twice and
    a working directory; slot 1 is free. *)

Definition demo_pages : nat := Z.to_nat 70.
Definition spare (n : nat) : Z := 0x80400000 + PGSIZE * Z.of_nat n.
Fixpoint spares (n : nat) : list Z := match n with O => [] | S n => spare n :: spares n end.
Fixpoint with_spares (n : nat) : kmem :=
  match n with
  | O => demo_kmem
  | S n => match kfree demo_end (spare n) [] (with_spares n) with Ok _ _ k => k | _ => demo_kmem end
  end.

Lemma spares_length n : length (spares n) = n.
Proof. induction n as [|n IH]; [done|]. cbn [spares length]. by rewrite IH. Qed.

Lemma spares_below n v : v ∈ spares n -> 0x80400000 <= v < spare n.
Proof.
  induction n as [|n IH]; [by intros ?%elem_of_nil|]. intros [->|Hv%IH]%elem_of_cons; unfold spare, PGSIZE in *; lia.
Qed.

Lemma with_spares_ok n : (n <= demo_pages)%nat ->
  kmem_inv demo_end (with_spares n) (spares n ++ [demo_free]) /\
  as_ok demo_end (kmemory (with_spares n)) VmSpec.demo_dir (spares n ++ [demo_free]) /\
  (forall w, own (kmemory (with_spares n)) VmSpec.demo_dir w <-> own demo_mem VmSpec.demo_dir w) /\
  forall va, pte_at (kmemory (with_spares n)) VmSpec.demo_dir va = pte_at demo_mem VmSpec.demo_dir va.
Proof.
  induction n as [|n IH]; intros Hn; [split; [apply demo_kmem_inv|split; [apply demo_as_ok|done]]|].
  destruct IH as (M & A & O & E); [lia|].
  assert (Hp : 0x80400000 <= spare n < 0x80400000 + PGSIZE * 70 /\ spare n mod PGSIZE = 0).
  { unfold spare, demo_pages, PGSIZE in *. split; [lia|]. dlia. }
  assert (Hlow : VmSpec.demo_dir < 0x80400000 /\ demo_tab < 0x80400000 /\ demo_page < 0x80400000 /\ demo_free < 0x80400000) by done.
  destruct (as_ok_free demo_end VmSpec.demo_dir (spare n) [] (with_spares n) (spares n ++ [demo_free]))
    as (k' & R & M' & A' & O' & E'); try done.
  - apply not_elem_of_nil.
  - unfold page_ok, is_u32, demo_end, V2P, KERNBASE, PHYSTOP, PGSIZE in *. rewrite u32_small by lia. lia.
  - rewrite elem_of_app, list_elem_of_singleton. intros [Hv%spares_below|Hv]; lia.
  - rewrite O. intros [Hv|(i & Hi & Hh & Hv)]; [lia|]. rewrite demo_has in Hh by done. apply Z.eqb_eq in Hh as ->.
    change (tab demo_mem VmSpec.demo_dir 0) with demo_tab in Hv. lia.
  - intros va Hu. unfold mapped, frame. rewrite E. intros ->%demo_mapped Hv; [|done].
    change (demo_page = spare n) in Hv. lia.
  - cbn [with_spares spares app]. rewrite R. split; [done|]. split; [done|].
    split; [intros w; by rewrite O', O|intros va; by rewrite E', E].
Qed.

Definition demo_parent : proc :=
  demo_proc <| tf := top_tf 0x80304000 |> <| ofile := [1; 0; 1] ++ replicate 13 0 |> <| cwd := 1 |>.
Definition demo_fork (k : kmem) : filest :=
  let f := demo_filest runner in
  (f <| fs := ((fs f) <| icache := [demo_inode] |>) |> <| ftable := [mkFile FD_INODE 2 1 1 0 (Some O) 0] |>)
    <| fpk := (machine [demo_parent; blank_proc]) <| pkmem := k |> |>.

Lemma demo_may_fork n : (n <= demo_pages)%nat ->
  may_fork demo_end 0 demo_parent empty_queue [] 0 demo_inode [] (demo_fork (with_spares n)) (spares n ++ [demo_free]).
Proof.
  intros Hn. destruct (with_spares_ok n Hn) as (M & A & _ & E). set (k := with_spares n) in *. clearbody k.
  split; try done.
  - split; try done. intros va Hu. change (va <? sz demo_parent) with (va <? sz demo_proc).
    rewrite <- (im_map _ _ _ _ (demo_image []) va Hu). exact (f_equal present (E va)).
  - split; [unfold page_ok, is_u32; vm_compute; intuition discriminate|].
    rewrite elem_of_app, list_elem_of_singleton. intros [Hv%spares_below|Hv]; [cbn in Hv; lia|done].
  - by repeat constructor.
  - split; [done|]. apply Forall_forall. intros w Hw.
    assert (Hc : w = 1 \/ w = 0) by (cbn in Hw; repeat (apply elem_of_cons in Hw as [->|Hw]; [tauto|]); by apply elem_of_nil in Hw).
    destruct Hc as [->| ->]; [right|by left]. exists O. eexists. split; [done|]. by split.
  - split_and!; apply not_elem_of_nil.
Qed.

Lemma fork_copies_process_witness :
  exists s' ch l', ProcLife.fork demo_end 0x80108000 0x80105000 0x80103000 (Z.to_nat 600000) [] (demo_fork (with_spares demo_pages))
      = Ok 1 [] s' /\
    forked demo_end 0x80105000 0x80103000 0 1 demo_parent blank_proc ch [] 0 demo_inode
      (demo_fork (with_spares demo_pages)) s' (spares demo_pages ++ [demo_free]) l'.
Proof.
  destruct (fork_copies_process demo_end 0x80108000 0x80105000 0x80103000 (Z.to_nat 600000)) with
    (me := O) (p := demo_parent) (qu := empty_queue) (ql := @nil nat) (c := O) (x := demo_inode)
    (L := @nil lockid) (s := demo_fork (with_spares demo_pages)) (l := spares demo_pages ++ [demo_free])
    as (r & s' & l' & R & [(np & q & ch & -> & Hnp & Hu & _ & Hf)|[(_ & _ & _ & Hfull)|(np & _ & Hr)]]).
  - exact demo_above.
  - split; [done|]. unfold KERNLINK, KERNBASE, EXTMEM, PHYSTOP. lia.
  - rewrite Z2Nat.id by lia. change (KERNBASE / PGSIZE) with 524288. lia.
  - apply demo_may_fork. apply le_n.
  - destruct np as [|[|np]]; [by injection Hnp as <-| |done]. injection Hnp as <-. exists s', ch, l'. split; [exact R|exact Hf].
  - exfalso. apply (proj1 (Forall_lookup _ _) Hfull 1%nat blank_proc); reflexivity.
  - pose proof (rf_scarce _ _ _ _ _ _ _ _ Hr) as Hs. rewrite length_app, spares_length in Hs.
    change (sz demo_parent / PGSIZE) with 1 in Hs. change (sz demo_parent / 2 ^ 22) with 0 in Hs. unfold demo_pages in Hs. cbn [length] in Hs. lia.
Defined.

End ForkSpec.
