(* ===== verification/InitSpec.v ===== *)
(** The first process: what [inituvm] and [userinit] make. *)

From stdpp Require Import base numbers list sets strings.
From Stdlib Require Import ZArith Lia.
From S2P Require Import Prelude Mem CString Mmu Seg Kalloc Vm VmSpec CopySpec Param Printf Proc Sched.
From S2P Require Import Syscall Sleeplock Pipe Console Bio BioSpec Log LogSpec LogCrash Inode Fs.
From S2P Require Import FsSpec DirSpec File ProcLife Exec Sysfile Trap LifeSpec ForkSpec.
Import CString Mmu Seg Kalloc Vm VmSpec CopySpec Param Printf Proc Sched Syscall Console Bio BioSpec Log LogCrash Inode Fs FsSpec DirSpec File ProcLife Trap LifeSpec ForkSpec.

Module InitSpec.

Section init.
Context (kend data : Z) (fuel : nat) (Hkend : KERNBASE < kend) (Hdata : data_ok data)
  (Hfuel : KERNBASE / PGSIZE + 2 <= Z.of_nat fuel).

(** *** [inituvm] *)

Definition user_flags (_ : Z) : Z := 7.
Definition zeros (_ _ : Z) : Z := 0.

(** The memory of a process of one page: the page has the bytes of [code] in [m0], then
    zeros; everything is made of the pages [l0], of which [l] are left. *)
Record one_page_image (l0 : list Z) (m0 : mem) (code size : Z) (m : mem) (d : Z) (l : list Z) : Prop := {
  op_as : as_ok kend m d l;
  op_dir : d <> 0;
  op_map va : upage va -> mapped m d va = (va <? PGSIZE);
  op_flags : PTE_FLAGS (pte_at m d 0) = 7;
  op_bytes o : 0 <= o < PGSIZE -> load8 m (frame m d 0 + o) = if o <? size then load8 m0 (code + o) else 0;
  op_used v : v ∈ l0 -> v ∈ l \/ own m d v \/ exists va, upage va /\ mapped m d va = true /\ v = frame m d va;
  op_sub v : v ∈ l \/ own m d v \/ (exists va, upage va /\ mapped m d va = true /\ v = frame m d va) -> v ∈ l0;
  op_only : only_pages l0 m0 m }.

(** The bytes are copied into the page that is mapped at 0. *)
Lemma init_copy l0 m0 d m l code size :
  Forall (page_ok kend) l0 -> building kend user_flags zeros l0 m0 d m l PGSIZE ->
  0 <= size < PGSIZE -> KERNBASE <= code -> code + size <= kend -> kend < 2 ^ 32 ->
  let m' := memmove m (frame m d 0) code size in
  same_outside (frame m d 0) (frame m d 0 + PGSIZE) m m' /\ one_page_image l0 m0 code size m' d l.
Proof.
  intros Hl0 B Hsize Hcode Hend Hk32 m'. assert (Hu : upage 0) by (unfold upage, KERNBASE; split; [lia|done]).
  assert (Hm : mapped m d 0 = true) by by rewrite (bd_map _ _ _ _ _ _ _ _ _ B).
  destruct (as_frame _ _ _ _ (bd_as _ _ _ _ _ _ _ _ _ B) 0 Hu Hm) as (Pv & Nv & Ov).
  destruct (bd_new _ _ _ _ _ _ _ _ _ B 0 Hu ltac:(done)) as (Hin & Hfl & Hby). set (v := frame m d 0) in *.
  pose proof (page_ok_range kend v Pv) as Hvr. pose proof (proj1 (proj2 (proj2 Pv))) as Hvk.
  assert (Hc : forall x, m' x = if (v <=? x) && (x <? v + size) then load8 m (code + (x - v)) else m x).
  { intros x. apply memmove_copies; unfold region, KERNBASE, PHYSTOP, PGSIZE in *; lia. }
  clearbody m'. assert (Hout : same_outside v (v + PGSIZE) m m').
  { intros x Hx. rewrite Hc. destruct (Z.leb_spec v x), (Z.ltb_spec x (v + size)); try done. lia. }
  split; [done|]. destruct (as_same kend m m' d l l (bd_as _ _ _ _ _ _ _ _ _ B)) as (A & E & W); [|done|].
  { intros w Hw. destruct (own_page kend _ _ _ _ (as_pt _ _ _ _ (bd_as _ _ _ _ _ _ _ _ _ B)) Hw) as [Pw _].
    eapply same_outside_on; [exact Hout|]. destruct (pages_disjoint kend w v Pw Pv); [by intros ->|lia|lia]. }
  assert (Hfr : forall va, frame m' d va = frame m d va) by (intros va; unfold frame; by rewrite E).
  assert (Hmp : forall va, mapped m' d va = mapped m d va) by (intros va; unfold mapped; by rewrite E).
  assert (Hold : forall x, x < kend -> m x = m0 x).
  { intros x Hx. apply (bd_out _ _ _ _ _ _ _ _ _ B). intros (w & Hw & Hxw).
    apply (proj1 (Forall_forall _ _) Hl0) in Hw as (_ & _ & ? & _). lia. }
  split; [done|by destruct (building_dir _ _ _ _ _ _ _ _ _ B) as (_ & ? & _)| |by rewrite E| | | |].
  - intros va Hva. rewrite Hmp. by apply (bd_map _ _ _ _ _ _ _ _ _ B).
  - intros o Ho. rewrite Hfr. fold v. unfold load8. rewrite Hc, (proj2 (Z.leb_le _ _)) by lia. cbn [andb].
    replace (v + o <? v + size) with (o <? size) by (destruct (Z.ltb_spec o size), (Z.ltb_spec (v + o) (v + size)); done || lia).
    destruct (Z.ltb_spec o size) as [H|H]; [|by rewrite Hby].
    replace (v + o - v) with o by lia. unfold load8. rewrite Hold by lia. apply u8_small, u8_range.
  - intros w Hw. destruct (bd_used _ _ _ _ _ _ _ _ _ B w Hw) as [?|[?|(va & ? & ? & ->)]]; [by left|right; left; by rewrite W|].
    right. right. exists va. by rewrite Hmp, Hfr.
  - intros w [?|[Hw|(va & Hva & Hv & ->)]]; [by apply B|apply (bd_own _ _ _ _ _ _ _ _ _ B); by rewrite <- W|].
    rewrite Hfr. rewrite Hmp in Hv. apply (bd_new _ _ _ _ _ _ _ _ _ B); [done|].
    rewrite (bd_map _ _ _ _ _ _ _ _ _ B) in Hv by done. by apply Z.ltb_lt.
  - eapply only_pages_trans; [apply B|]. by apply (only_pages_in l0 _ _ v).
Qed.

Lemma inituvm_spec l0 m0 d k l code size L :
  Forall (page_ok kend) l0 -> NoDup l0 -> 70 < Z.of_nat (length l0) ->
  building kend user_flags zeros l0 m0 d (kmemory k) l 0 -> kmem_inv kend k l -> Lkmem ∉ L ->
  0 <= size < PGSIZE -> KERNBASE <= code -> code + size <= kend -> kend < 2 ^ 32 ->
  exists k' l', inituvm fuel d code size L k = Ok tt L k' /\ kmem_inv kend k' l' /\
    one_page_image l0 m0 code size (kmemory k') d l'.
Proof.
  intros Hl0 Hnd Hmany B Hk HL Hsize Hcode Hend Hk32. unfold inituvm. rewrite Z.geb_leb, (proj2 (Z.leb_gt _ _)) by lia.
  pose proof (building_count kend user_flags zeros l0 m0 d _ l 0 B Hnd ltac:(done)) as Hc. change (0 / PGSIZE) with 0 in Hc. change (0 / 2 ^ 22) with 0 in Hc.
  destruct l as [|v l]; [cbn in Hc; lia|].
  destruct (kalloc_spec kend (v :: l) L k Hk HL) as (k1 & R1 & Hk1 & Pv & Hnv & Hm1 & _). erewrite bind_Ok by exact R1. kstep.
  set (k2 := k1 <| kmemory ::= _ |>).
  assert (Hz : same_outside v (v + PGSIZE) (kmemory k1) (memset (kmemory k1) v 0 PGSIZE) /\
    forall o, 0 <= o < PGSIZE -> memset (kmemory k1) v 0 PGSIZE (v + o) = 0).
  { split; [intros x Hx|intros o Ho]; rewrite memset_fill.
    - destruct (Z.leb_spec v x), (Z.ltb_spec x (v + PGSIZE)); (done || lia).
    - by rewrite (proj2 (Z.leb_le _ _)), (proj2 (Z.ltb_lt _ _)) by lia. }
  destruct Hz as [Hz1 Hz2]. rewrite <- Hm1 in B.
  assert (B2 : building kend user_flags zeros l0 m0 d (kmemory k2) (v :: l) 0) by by apply (building_fill kend Hkend user_flags zeros l0 m0 Hl0 d (kmemory k1)).
  assert (Hk2 : kmem_inv kend k2 l) by exact (kmem_inv_upd kend k1 v l _ Hk1 Pv Hnv Hz1).
  assert (Hb2 : forall o, 0 <= o < PGSIZE -> kmemory k2 (v + o) = zeros 0 o) by exact Hz2. clearbody k2.
  assert (Hf0 : (0 < fuel)%nat) by (change (KERNBASE / PGSIZE) with 524288 in Hfuel; lia).
  destruct (map_built kend Hkend user_flags zeros l0 m0 Hl0 fuel d k2 v l 0 (Z.lor PTE_W PTE_U) L B2 Hk2) as (k3 & l3 & r & R3 & Hk3 & Hres);
    try done; [apply NoDup_cons; split; [done|apply Hk1]|].
  destruct Hres as [(-> & B3 & Hfr)|(-> & -> & B3)].
  2: { pose proof (building_count kend user_flags zeros l0 m0 d _ [v] 0 B3 Hnd ltac:(done)) as Hc'.
       change (0 / PGSIZE) with 0 in Hc'. change (0 / 2 ^ 22) with 0 in Hc'. cbn [length] in Hc'. lia. }
  erewrite bind_Ok by exact R3. destruct (init_copy l0 m0 d (kmemory k3) l3 code size Hl0 B3 Hsize Hcode Hend Hk32) as [Hout H1].
  rewrite Hfr in Hout, H1. eexists _, l3. split; [reflexivity|]. split; [|exact H1].
  assert (Hu : upage 0) by (unfold upage, KERNBASE; split; [lia|done]).
  assert (Hm : mapped (kmemory k3) d 0 = true) by by rewrite (bd_map _ _ _ _ _ _ _ _ _ B3).
  destruct (as_frame _ _ _ _ (bd_as _ _ _ _ _ _ _ _ _ B3) 0 Hu Hm) as (_ & Nv & _). rewrite Hfr in Nv.
  exact (kmem_inv_upd kend k3 v l3 (fun m => memmove m v code size) Hk3 Pv Nv Hout).
Qed.

(** *** The trap frame of the first process *)

Definition user_cs : Z := Z.lor (Z.shiftl SEG_UCODE 3) DPL_USER.
Definition user_ds : Z := Z.lor (Z.shiftl SEG_UDATA 3) DPL_USER.

(** The stores of [userinit] to the trap frame at [a]. *)
Definition init_tf (a : Z) (m : mem) : mem :=
  let m := memset m a 0 sizeof_trapframe in
  let m := store16 m (a + tf_cs) user_cs in
  let m := store16 m (a + tf_ds) user_ds in
  let m := store16 m (a + tf_es) user_ds in
  let m := store16 m (a + tf_ss) user_ds in
  let m := store32 m (a + tf_eflags) FL_IF in
  let m := store32 m (a + tf_esp) PGSIZE in
  store32 m (a + tf_eip) 0.

(** It returns to address 0 in user mode with the stack at the top of its page and
    interrupts on. *)
Definition starts_user (m : mem) (a : Z) : Prop :=
  load32 m (a + tf_eip) = 0 /\ load32 m (a + tf_esp) = PGSIZE /\ load32 m (a + tf_eflags) = FL_IF /\
  load16 m (a + tf_cs) = user_cs /\ load16 m (a + tf_ds) = user_ds /\ load16 m (a + tf_es) = user_ds /\
  load16 m (a + tf_ss) = user_ds.

Lemma load16_store32_ne m a b v : b + 2 <= a \/ a + 4 <= b -> load16 (store32 m a v) b = load16 m b.
Proof. intros H. unfold load16, load8. by rewrite !store32_out by lia. Qed.

Lemma load16_store16_ne m a b v : b + 2 <= a \/ a + 2 <= b -> load16 (store16 m a v) b = load16 m b.
Proof. intros H. unfold load16, load8. by rewrite !store16_out by lia. Qed.

Lemma init_tf_ok a m : starts_user (init_tf a m) a /\ same_outside a (a + sizeof_trapframe) m (init_tf a m).
Proof.
  unfold starts_user, init_tf, tf_eip, tf_esp, tf_eflags, tf_cs, tf_ds, tf_es, tf_ss, sizeof_trapframe. cbv zeta. split.
  - split_and!.
    + by rewrite load32_store32_eq.
    + rewrite load32_store32_ne by lia. by rewrite load32_store32_eq.
    + rewrite !load32_store32_ne by lia. by rewrite load32_store32_eq.
    + rewrite !load16_store32_ne, !load16_store16_ne by lia. by rewrite load16_store16_eq.
    + rewrite !load16_store32_ne, !load16_store16_ne by lia. by rewrite load16_store16_eq.
    + rewrite !load16_store32_ne, !load16_store16_ne by lia. by rewrite load16_store16_eq.
    + rewrite !load16_store32_ne by lia. by rewrite load16_store16_eq.
  - intros x Hx. rewrite !store32_out by lia. rewrite !store16_out by lia. rewrite memset_fill.
    destruct (Z.leb_spec a x), (Z.ltb_spec x (a + 76)); (done || lia).
Qed.

(** *** [first_image] *)

(** The entry of the first process. *)
Definition first_entry (d : Z) (e : proc) : proc :=
  e <| pgdir := d |> <| sz := PGSIZE |> <| name := copy_pname (name e) (lit "initcode" ++ [0]) |>.

Lemma first_image_run i e l L s code size :
  procs s !! i = Some e -> kmem_inv kend (pkmem s) l -> 70 < Z.of_nat (length l) -> Lkmem ∉ L ->
  0 <= size < PGSIZE -> KERNBASE <= code -> code + size <= kend -> kend < 2 ^ 32 ->
  exists k' l' d, kmem_inv kend k' l' /\ one_page_image l (kmemory (pkmem s)) code size (kmemory k') d l' /\
    first_image kend data fuel i code size L s = Ok tt L
      (s <| initproc := Some i |> <| procs ::= <[i := first_entry d e]> |> <| pkmem := k' <| kmemory ::= init_tf (tf e) |> |>).
Proof.
  intros He Hk Hmany HL Hsize Hcode Hend Hk32. pose proof (ki_pages _ _ _ Hk) as Hl. pose proof (ki_nodup _ _ _ Hk) as Hnd.
  pose proof (lookup_lt_Some _ _ _ He) as Hlt.
  destruct (setupkvm_spec kend data Hkend user_flags zeros l (kmemory (pkmem s)) Hl fuel L (pkmem s) eq_refl Hk HL Hdata Hfuel)
    as (k1 & l1 & d & R1 & Hk1 & Hres).
  destruct Hres as [(Hd & B & _)|(_ & _ & _ & Hfew)]; [|lia].
  destruct (inituvm_spec l (kmemory (pkmem s)) d k1 l1 code size L) as (k2 & l2 & R2 & Hk2 & H1); try done.
  exists k2, l2, d. split; [done|]. split; [done|].
  unfold first_image. kstep. erewrite bind_Ok by (apply zoom_Ok; exact R1).
  erewrite bind_Ok by (apply upd_proc_ok; exact He). rewrite (proj2 (Z.eqb_neq _ _) Hd). kstep.
  erewrite bind_Ok by (apply zoom_Ok; exact R2).
  erewrite bind_Ok by (apply upd_proc_ok; cbn; by apply list_lookup_insert_eq).
  erewrite bind_Ok by (apply get_proc_ok; cbn; apply list_lookup_insert_eq; by rewrite length_insert).
  unfold tf_set16, tf_set32. do 8 kstep.
  erewrite upd_proc_ok by (cbn; apply list_lookup_insert_eq; by rewrite length_insert).
  apply (f_equal (Ok tt L)). destruct s. cbn. by rewrite !list_insert_insert_eq.
Qed.

(** The first process [p] in state [s'], with the pages [l'] free: its stack, which makes
    it start at [forkret] and return to user mode at address 0, and a page at 0 with the
    bytes of [code] in [m]. *)
Record first_proc (trapret forkret : Z) (m : mem) (code size : Z) (s' : pstate) (p : proc) (l' : list Z) : Prop := {
  fi_whole : whole_proc kend s' p l';
  fi_sz : sz p = PGSIZE;
  fi_map va : upage va -> mapped (kmemory (pkmem s')) (pgdir p) va = (va <? PGSIZE);
  fi_flags : PTE_FLAGS (pte_at (kmemory (pkmem s')) (pgdir p) 0) = 7;
  fi_bytes o : 0 <= o < PGSIZE -> load8 (kmemory (pkmem s')) (frame (kmemory (pkmem s')) (pgdir p) 0 + o) =
    if o <? size then load8 m (code + o) else 0;
  fi_tf : tf p = top_tf (kstack p) /\ starts_user (kmemory (pkmem s')) (tf p);
  fi_stack : fresh_stack trapret forkret (kmemory (pkmem s')) (kstack p) }.

(** It is made of pages of [l], of which [l'] are left, and no other memory changed. *)
Record first_ok (trapret forkret : Z) (m : mem) (code size : Z) (s' : pstate) (p : proc) (l l' : list Z) : Prop := {
  fi_proc : first_proc trapret forkret m code size s' p l';
  fi_pages v : v ∈ l <-> v ∈ l' \/ holds (kmemory (pkmem s')) p v;
  fi_only : only_pages l m (kmemory (pkmem s')) }.

Lemma below_pages l m m' x : Forall (page_ok kend) l -> only_pages l m m' -> x < kend -> m' x = m x.
Proof.
  intros Hl Ho Hx. apply Ho. intros (v & Hv & Hin). apply (proj1 (Forall_forall _ _) Hl) in Hv as (_ & _ & ? & _). lia.
Qed.

Lemma first_mem m m1 m2 m' d v l l' code size :
  page_ok kend v -> Forall (page_ok kend) l -> v ∉ l -> only_pages [v] m m1 ->
  one_page_image l m1 code size m2 d l' -> only_pages [v] m2 m' -> 0 <= size -> code + size <= kend ->
  only_pages (v :: l) m m' /\ as_ok kend m' d l' /\ (forall w, own m' d w <-> own m2 d w) /\
  (forall va, pte_at m' d va = pte_at m2 d va) /\ ~ own m' d v /\
  (forall va, upage va -> mapped m' d va = true -> frame m' d va <> v) /\
  forall o, 0 <= o < PGSIZE -> load8 m' (frame m' d 0 + o) = if o <? size then load8 m (code + o) else 0.
Proof.
  intros Pv Hl Hv O1 [A Hd Hmap Hfl Hby Hused Hsub O2] O3 Hsz Hend.
  assert (Hno : ~ own m2 d v) by (intros Ho; apply Hv, Hsub; auto).
  assert (Hnf : forall va, upage va -> mapped m2 d va = true -> frame m2 d va <> v).
  { intros va Hu Hm E. apply Hv, Hsub. right. right. exists va. auto. }
  assert (Hl' : Forall (page_ok kend) (v :: l')).
  { apply Forall_cons. split; [done|]. apply Forall_forall. intros w Hw. apply (proj1 (Forall_forall _ _) Hl). auto. }
  assert (Hone : forall (ll : list Z) w, w ∈ [v] -> w ∈ v :: ll) by (intros ll w ->%list_elem_of_singleton; by left).
  destruct (as_keep kend m2 m' d (v :: l') l' (as_more kend _ _ _ _ A Hno Hnf) Hl') as (A' & E & W & B);
    [eapply only_pages_mono, O3; apply Hone|by right|].
  split. { eapply only_pages_trans; [eapply only_pages_mono, O1; apply Hone|].
    eapply only_pages_trans; [eapply only_pages_mono, O2; by right|eapply only_pages_mono, O3; apply Hone]. }
  split; [done|]. split; [done|]. split; [done|]. split; [by rewrite W|].
  split. { intros va Hu. unfold mapped, frame. rewrite E. by apply Hnf. }
  intros o Ho. assert (Hf0 : frame m' d 0 = frame m2 d 0) by (unfold frame; by rewrite E). rewrite Hf0.
  assert (Hu : upage 0) by (unfold upage, KERNBASE; split; [lia|done]).
  rewrite (B 0 o Hu) by (by rewrite ?Hmap). rewrite Hby by done. destruct (Z.ltb_spec o size); [|done].
  unfold load8. f_equal. apply (below_pages [v] m m1); [by apply Forall_cons|done|lia].
Qed.

Lemma first_of trapret forkret m s k' e d l l' code size i (ps : list proc) :
  page_ok kend (kstack e) -> tf e = top_tf (kstack e) -> kstack e ∉ l -> Forall (page_ok kend) l ->
  only_pages [kstack e] m (kmemory (pkmem s)) -> fresh_stack trapret forkret (kmemory (pkmem s)) (kstack e) ->
  kmem_inv kend k' l' -> one_page_image l (kmemory (pkmem s)) code size (kmemory k') d l' ->
  0 <= size -> code + size <= kend ->
  first_ok trapret forkret m code size
    (s <| initproc := i |> <| procs := ps |> <| pkmem := k' <| kmemory ::= init_tf (tf e) |> |>) (first_entry d e) (kstack e :: l) l'.
Proof.
  intros Pv Etf Hv Hl O1 Hfs Hk' H1 Hsz Hend. set (v := kstack e) in *. destruct (init_tf_ok (tf e) (kmemory k')) as [Hst Hout].
  assert (Hv' : v ∉ l') by (intros Hin; apply Hv, (op_sub _ _ _ _ _ _ _ H1); by left).
  assert (Hout' : same_outside v (v + PGSIZE) (kmemory k') (init_tf (tf e) (kmemory k'))).
  { eapply same_outside_weaken; [| |exact Hout]; rewrite Etf; unfold top_tf, KSTACKSIZE, sizeof_trapframe, PGSIZE; lia. }
  assert (Hk2 : kmem_inv kend (k' <| kmemory ::= init_tf (tf e) |>) l') by (by apply (kmem_inv_upd kend k' v l')).
  set (m' := init_tf (tf e) (kmemory k')) in *. set (s' := _ <| pkmem := _ |>).
  assert (Em : kmemory (pkmem s') = m') by reflexivity. assert (Ek : kmem_inv kend (pkmem s') l') by exact Hk2. clearbody m' s'.
  destruct (first_mem m (kmemory (pkmem s)) (kmemory k') m' d v l l' code size) as (O4 & A & W & E & Hno & Hnf & Hby); try done.
  { by apply only_page_outside. }
  pose proof H1 as [_ Hd Hmap Hfl _ Hused Hsub O2].
  split; rewrite ?Em; [split; rewrite ?Em; [split; rewrite ?Em; try done|done| |by cbn; rewrite E|done|by split|]| |done].
  - intros va Hu. unfold mapped. cbn. rewrite E. by apply Hmap.
  - apply (fresh_stack_same trapret forkret (kmemory (pkmem s)) m' v); [|done]. intros x Hx. rewrite Hout by (rewrite Etf; lia).
    apply (only_pages_same kend l (kmemory (pkmem s)) _ v); try done. unfold top_tf, KSTACKSIZE, sizeof_trapframe, PGSIZE in *. lia.
  - intros w. unfold holds. cbn. fold v. rewrite elem_of_cons. split.
    + intros [->|Hw]; [by right; left|]. destruct (Hused w Hw) as [?|[?|(va & ? & ? & ->)]]; [by left|right; right; left; by rewrite W|].
      right. right. right. exists va. unfold mapped, frame. by rewrite E.
    + intros [?|[?|[?|(va & Hu & Hm & ->)]]]; [right; auto|by left|right; apply Hsub; right; left; by rewrite <- W|].
      right. apply Hsub. right. right. exists va. unfold mapped, frame in *. by rewrite E in *.
Qed.

Lemma first_ext trapret forkret m code size s s' p p' l l' :
  first_ok trapret forkret m code size s p l l' -> pkmem s' = pkmem s ->
  pgdir p' = pgdir p -> sz p' = sz p -> tf p' = tf p -> kstack p' = kstack p ->
  first_ok trapret forkret m code size s' p' l l'.
Proof.
  intros [[[] ? ? ? ? [? ?] ?] Hp ?] E E1 E2 E3 E4.
  split; [split; [split|..]|..]; rewrite ?E, ?E1, ?E2, ?E3, ?E4; try done.
  intros v. unfold holds. rewrite E1, E4. apply Hp.
Qed.

(** *** [userinit] *)

(** The root directory gets the first entry of an empty table. *)
Lemma namei_root lock_addr ilock_addr input_r (s : fstate) x :
  icache s !! 0%nat = Some x -> Forall (fun y => iref y = 0) (icache s) ->
  namei lock_addr ilock_addr input_r (park fbk) 1 [slash] [] s =
    Ok (Some 0%nat) [] (s <| icache ::= <[0%nat := x <| idev := ROOTDEV |> <| inum := ROOTINO |> <| iref := 1 |> <| ivalid := 0 |>]> |>).
Proof.
  intros Hx Hall. unfold namei, namex. rewrite bool_decide_true by done. rewrite bind_assoc.
  assert (R : iget ROOTDEV ROOTINO [] s = Ok 0%nat []
    (s <| icache ::= <[0%nat := x <| idev := ROOTDEV |> <| inum := ROOTINO |> <| iref := 1 |> <| ivalid := 0 |>]> |>)).
  { unfold iget. kstep. kstep. rewrite iget_scan_miss.
    - unfold first_free. pose proof (proj1 (Forall_lookup _ _) Hall 0%nat x Hx) as H0. destruct (icache s) as [|y r] eqn:E; [done|].
      injection Hx as ->. cbn [list_find]. rewrite decide_True by done. cbn.
      erewrite bind_Ok by (apply upd_inode_ok; by rewrite E). by kstep.
    - intros j y Hy (Hpos & _). pose proof (proj1 (Forall_lookup _ _) Hall j y Hy) as H0. cbv beta in H0. lia. }
  erewrite bind_Ok by exact R. cbn [namex_loop length Nat.add]. cbn. done.
Qed.

(** What [userinit] leaves: the first process, ready in slot 0, and the root directory as
    its working directory. *)
Record first_ready (trapret forkret code size : Z) (s s' : fstate) (p : proc) (x : inode) (l l' : list Z) : Prop := {
  fr_table : procs (fbk s') = <[0%nat := p]> (procs (fbk s));
  fr_image : first_ok trapret forkret (kmemory (pkmem (fbk s))) code size (fbk s') p l l';
  fr_state : state p = RUNNABLE /\ pid p = nextpid (fbk s) /\ initproc (fbk s') = Some 0%nat;
  fr_queue : exists qu, aget (schedulingQueues (fbk s')) 0 = Some qu /\ ring_rep qu [0%nat];
  fr_cwd : cwd p = inode_ptr 0 /\ icache s' !! 0%nat = Some x /\ is_for ROOTDEV ROOTINO x /\ iref x = 1;
  fr_dir : kpgdir (fbk s') = kpgdir (fbk s);
  fr_cons : fcons s' = fcons s }.

Lemma userinit_runs trapret forkret lock_addr ilock_addr input_r code size s q x v fl :
  procs (fbk s) !! 0%nat = Some q -> state q = UNUSED -> kmem_inv kend (pkmem (fbk s)) (v :: fl) ->
  70 < Z.of_nat (length fl) -> icache s !! 0%nat = Some x -> Forall (fun y => iref y = 0) (icache s) ->
  0 <= size < PGSIZE -> KERNBASE <= code -> code + size <= kend -> kend < 2 ^ 32 ->
  exists s' p y l', userinit kend data trapret forkret lock_addr ilock_addr input_r fuel code size [] s = Ok tt [] s' /\
    first_ready trapret forkret code size s s' p y (v :: fl) l'.
Proof.
  intros Hq Hun Hk Hmany Hx Hall Hsize Hcode Hend Hk32. unfold userinit, init_queues. kstep.
  set (s1 := s <| fbk ::= _ |>).
  assert (Hpre : alloc_pre 0 q empty_queue [] [] (fbk s1)).
  { split; try done; try apply not_elem_of_nil; try apply empty_queue_rep; intros; lia. }
  destruct (allocproc_new kend trapret forkret 0 q empty_queue [] [] (fbk s1) v fl Hpre Hk)
    as (s2 & e & qu & R2 & Eps & _ & Epid & _ & Eks & _ & _ & _ & _ & _ & _ & Etf & _ & Equ & Hring & Hk2 & Hfs & Hout & Edir & _).
  pose proof (ki_nodup _ _ _ Hk) as Hnd. apply NoDup_cons in Hnd as [Hv _]. pose proof (ki_pages _ _ _ Hk) as Hl. apply Forall_cons in Hl as [Pv Hl].
  assert (He : procs s2 !! 0%nat = Some e) by (rewrite Eps; apply list_lookup_insert_eq; by eapply lookup_lt_Some).
  destruct (first_image_run 0 e fl [] s2 code size He Hk2) as (k' & l' & d & Hk' & H1 & R3); try done; [apply not_elem_of_nil|].
  pose proof (first_of trapret forkret (kmemory (pkmem (fbk s))) s2 k' e d fl l' code size (Some 0%nat)
    (<[0%nat := first_entry d e]> (procs s2))) as Hfirst. rewrite Eks in Hfirst.
  specialize (Hfirst Pv Etf Hv Hl (only_page_outside _ _ _ Hout) Hfs Hk' H1 (proj1 Hsize) Hend).
  set (s3 := s2 <| initproc := Some 0%nat |> <| procs ::= _ |> <| pkmem := _ |>) in R3.
  change (first_ok trapret forkret (kmemory (pkmem (fbk s))) code size s3 (first_entry d e) (v :: fl) l') in Hfirst.
  assert (E3 : procs s3 = <[0%nat := first_entry d e]> (procs s2) /\ schedulingQueues s3 = schedulingQueues s2 /\
    kpgdir s3 = kpgdir s2 /\ initproc s3 = Some 0%nat) by done. clearbody s3. destruct E3 as (E31 & E32 & E33 & E34).
  pose proof (lookup_lt_Some _ _ _ He) as Hlt.
  assert (E0 : pid (first_entry d e) = pid e) by done. set (e1 := first_entry d e) in *. clearbody e1.
  erewrite bind_Ok by (apply zoom_Ok; exact R2). kstep. erewrite bind_Ok by (apply zoom_Ok; exact R3).
  set (s4 := s1 <| fbk := s2 |> <| fbk := s3 |>).
  assert (E4 : fbk s4 = s3 /\ icache s4 = icache s /\ fcons s4 = fcons s) by done. clearbody s4. destruct E4 as (E41 & E42 & E43).
  pose proof (E41 : bk (lb (Inode.fl s4)) = s3) as E41'.
  erewrite bind_Ok by (apply namei_root; rewrite E42; [exact Hx|done]).
  erewrite bind_Ok.
  2: { apply zoom_Ok, upd_proc_ok. unfold fbk, lbk. cbn. rewrite E41', E31. by apply list_lookup_insert_eq. }
  eexists _, _, _, l'. split.
  { apply zoom_Ok. unfold make_runnable. kstep. erewrite bind_Ok; [by apply release_top, not_elem_of_nil|].
    apply upd_proc_ok. unfold fbk, lbk. cbn. rewrite E41', E31. apply list_lookup_insert_eq. by rewrite length_insert. }
  split; unfold fbk, lbk; cbn; rewrite ?E41'.
  - by rewrite E31, !list_insert_insert_eq, Eps, list_insert_insert_eq.
  - eapply first_ext; [exact Hfirst|reflexivity..].
  - by rewrite E0, Epid, E34.
  - exists qu. by rewrite E32.
  - rewrite E42. split; [done|]. split; [apply list_lookup_insert_eq; by eapply lookup_lt_Some|done].
  - by rewrite E33, Edir.
  - done.
Qed.

End init.

End InitSpec.
