(* ===== verification/Mp.v ===== *)
(** Multiprocessor tables (mp.c, mp.h).

    [hw] are the variables that mp.c sets for the rest of the kernel, with the
    memory in which the firmware left its tables, the devices and the
    console. *)

From stdpp Require Import base numbers list sets strings.
From Stdlib Require Import ZArith Lia.
From S2P Require Import Prelude Mem CString Mmu Param Proc Ports Console.
Import Mmu Param Proc Ports Console.

Module Mp.

Record hw (D : Type) := mkHw {
  hmem : mem;
  apicids : list Z;             (* cpus[i].apicid *)
  ncpu : Z; ioapicid : Z;
  lapic : Z; ioapic : Z;        (* of lapic.c and ioapic.c *)
  hcon : cst;
  hdev : D }.
Arguments mkHw {D}.
Arguments hmem {D}.
Arguments apicids {D}.
Arguments ncpu {D}.
Arguments ioapicid {D}.
Arguments lapic {D}.
Arguments ioapic {D}.
Arguments hcon {D}.
Arguments hdev {D}.
#[export] Instance eta_hw D : Eta (hw D) := fun s =>
  mkHw s.(hmem) s.(apicids) s.(ncpu) s.(ioapicid) s.(lapic) s.(ioapic) s.(hcon) s.(hdev).

(** Sizes and fields of [struct mp], [struct mpconf], [struct mpproc] and
    [struct mpioapic], and the types of entries. *)
Definition sizeof_mp : Z := 16.
Definition mp_physaddr (m : mem) (p : Z) : Z := load32 m (p + 4).
Definition mp_imcrp (m : mem) (p : Z) : Z := load8 m (p + 12).
Definition sizeof_mpconf : Z := 44.
Definition conf_length (m : mem) (c : Z) : Z := load16 m (c + 4).
Definition conf_version (m : mem) (c : Z) : Z := load8 m (c + 6).
Definition conf_lapicaddr (m : mem) (c : Z) : Z := load32 m (c + 36).
Definition sizeof_mpproc : Z := 20.
Definition sizeof_mpioapic : Z := 8.
Definition MPPROC : Z := 0x00.
Definition MPBUS : Z := 0x01.
Definition MPIOAPIC : Z := 0x02.
Definition MPIOINTR : Z := 0x03.
Definition MPLINTR : Z := 0x04.

(** The [uchar] sum of [n] bytes; the [int] of the loop does not overflow. *)
Fixpoint sum_bytes (m : mem) (addr : Z) (n : nat) : Z :=
  match n with
  | O => 0
  | S n' => load8 m addr + sum_bytes m (addr + 1) n'
  end.
Definition sum (m : mem) (addr len : Z) : Z := u8 (sum_bytes m addr (Z.to_nat len)).

(** [memcmp(p, s, 4) == 0] for a literal [s]. *)
Definition signed_with (m : mem) (p : Z) (s : list Z) : bool := bool_decide (bytes_at m p 4 = s).
Definition sig_mp : list Z := [95; 77; 80; 95].       (* _MP_ *)
Definition sig_pcmp : list Z := [80; 67; 77; 80].     (* PCMP *)

(** The [for] loop of [mpsearch1], [n] structures from [p] on. *)
Fixpoint scan (m : mem) (p : Z) (n : nat) : option Z :=
  match n with
  | O => None
  | S n' =>
      if signed_with m p sig_mp && (sum m p sizeof_mp =? 0) then Some p
      else scan m (p + sizeof_mp) n'
  end.
Definition mpsearch1 (m : mem) (a len : Z) : option Z :=
  scan m (P2V a) (Z.to_nat ((len + sizeof_mp - 1) / sizeof_mp)).

Definition mpsearch (m : mem) : option Z :=
  let bda := P2V 0x400 in
  let p := Z.shiftl (Z.lor (Z.shiftl (load8 m (bda + 0x0f)) 8) (load8 m (bda + 0x0e))) 4 in
  let first :=
    if nz p then mpsearch1 m p 1024
    else mpsearch1 m (u32 (Z.lor (Z.shiftl (load8 m (bda + 0x14)) 8) (load8 m (bda + 0x13)) * 1024 - 1024)) 1024 in
  match first with
  | Some mp => Some mp
  | None => mpsearch1 m 0xF0000 0x10000
  end.

(** The structure and the table it points to. *)
Definition mpconfig (m : mem) : option (Z * Z) :=
  mp ← mpsearch m;
  if mp_physaddr m mp =? 0 then None else
  let conf := P2V (mp_physaddr m mp) in
  if negb (signed_with m conf sig_pcmp) then None
  else if negb (conf_version m conf =? 1) && negb (conf_version m conf =? 4) then None
  else if negb (sum m conf (conf_length m conf) =? 0) then None
  else Some (mp, conf).

Section mp.
Context {D : Type} `{!Ports D}.

Definition out (port v : Z) : K (hw D) unit := modify (fun s => s <| hdev ::= outb port (u8 v) |>).
Definition inp (port : Z) : K (hw D) Z := fun l s =>
  let '(v, d) := inb port (hdev s) in Ok v l (s <| hdev := d |>).

(** [cpus[ncpu].apicid = proc->apicid; ncpu++;] *)
Definition add_cpu (id : Z) : K (hw D) unit :=
  n ← gets ncpu;
  if n <? NCPU then
    ids ← gets apicids;
    ids ← deref "cpus" (aset ids n id);
    modify (fun s => s <| apicids := ids |> <| ncpu := n + 1 |>)
  else mret tt.

(** The loop over the entries from [p] up to [e]; the result is [ismp].  An
    entry of another type leaves [p] where it is. *)
Fixpoint entries (fuel : nat) (p e : Z) (ismp : bool) : K (hw D) bool :=
  match fuel with
  | O => fault "out of fuel"
  | S f =>
      if p <? e then
        m ← gets hmem;
        let t := load8 m p in
        if t =? MPPROC then
          add_cpu (load8 m (p + 1)) ;; entries f (p + sizeof_mpproc) e ismp
        else if t =? MPIOAPIC then
          modify (fun s => s <| ioapicid := load8 m (p + 1) |>) ;; entries f (p + sizeof_mpioapic) e ismp
        else if (t =? MPBUS) || (t =? MPIOINTR) || (t =? MPLINTR) then entries f (p + 8) e ismp
        else entries f p e false
      else mret ismp
  end.

Definition mpinit (fuel : nat) : K (hw D) unit :=
  m ← gets hmem;
  match mpconfig m with
  | None => panic "Expect to run on an SMP"
  | Some (mp, conf) =>
      modify (fun s => s <| lapic := conf_lapicaddr m conf |>) ;;
      ismp ← entries fuel (conf + sizeof_mpconf) (conf + conf_length m conf) true;
      if negb ismp then panic "Didn't find a suitable machine" else
      if nz (mp_imcrp m mp) then
        out 0x22 0x70 ;;
        v ← inp 0x23; out 0x23 (Z.lor v 1)
      else mret tt
  end.

End mp.

(** *** The tables *)

(** The entries that the specification knows. *)
Inductive entry := Cpu (id : Z) | Ioapic (id : Z) | Other (type : Z).

Definition entry_size (e : entry) : Z := match e with Cpu _ => 20 | _ => 8 end.

(** The entry at [p]. *)
Definition entry_at (m : mem) (p : Z) (e : entry) : Prop :=
  match e with
  | Cpu id => load8 m p = 0 /\ load8 m (p + 1) = id
  | Ioapic id => load8 m p = 2 /\ load8 m (p + 1) = id
  | Other t => load8 m p = t /\ (t = 1 \/ t = 3 \/ t = 4)
  end.

Fixpoint table_at (m : mem) (p : Z) (es : list entry) : Prop :=
  match es with
  | [] => True
  | e :: r => entry_at m p e /\ table_at m (p + entry_size e) r
  end.
Fixpoint table_size (es : list entry) : Z :=
  match es with [] => 0 | e :: r => entry_size e + table_size r end.

(** What the table says: the processors in order, and the last I/O APIC. *)
Fixpoint cpu_ids (es : list entry) : list Z :=
  match es with
  | [] => []
  | Cpu id :: r => id :: cpu_ids r
  | _ :: r => cpu_ids r
  end.
Fixpoint last_ioapic (es : list entry) (d : Z) : Z :=
  match es with
  | [] => d
  | Ioapic id :: r => last_ioapic r id
  | _ :: r => last_ioapic r d
  end.

Section spec.
Context {D : Type} `{!Ports D}.

(** The first [ncpu] processors are [ids], and there are no more than [NCPU]. *)
Definition cpus_are (ids : list Z) (s : hw D) : Prop :=
  length (apicids s) = Z.to_nat NCPU /\ ncpu s = Z.of_nat (length ids) /\ ncpu s <= NCPU /\
  take (length ids) (apicids s) = ids.

(** What the loop leaves alone. *)
Definition same_rest (s s' : hw D) : Prop :=
  hmem s' = hmem s /\ lapic s' = lapic s /\ ioapic s' = ioapic s /\ hcon s' = hcon s /\ hdev s' = hdev s.

Lemma same_rest_trans s1 s2 s3 : same_rest s1 s2 -> same_rest s2 s3 -> same_rest s1 s3.
Proof. unfold same_rest. intros (-> & -> & -> & -> & ->). done. Qed.

Lemma add_cpu_ok id ids l s : cpus_are ids s -> exists s', add_cpu id l s = Ok tt l s' /\
  cpus_are (take 8 (ids ++ [id])) s' /\ same_rest s s' /\ ioapicid s' = ioapicid s.
Proof.
  intros (Hl & Hn & Hm & Ht). unfold add_cpu. kstep. change (Z.to_nat NCPU) with 8%nat in Hl. unfold NCPU in *.
  destruct (Z.ltb_spec (ncpu s) 8) as [Hlt|Hge].
  - kstep. rewrite aset_in by lia. kstep. eexists. split; [reflexivity|]. rewrite take_ge by (rewrite length_app; cbn; lia).
    split; [|done]. unfold cpus_are. cbn. rewrite length_insert, length_app, Hn, Nat2Z.id. cbn.
    split_and!; [done|lia|unfold NCPU; lia|]. rewrite Nat.add_1_r.
    erewrite take_S_r by (rewrite list_lookup_insert_eq by lia; reflexivity).
    by rewrite take_insert_ge, Ht by lia.
  - exists s. split; [done|]. assert (Hids : length ids = 8%nat) by lia.
    rewrite take_app_le, take_ge by lia. done.
Qed.

Lemma take_more (ids : list Z) id r : take 8 (take 8 (ids ++ [id]) ++ r) = take 8 (ids ++ id :: r).
Proof.
  destruct (decide (length ids < 8)%nat).
  - rewrite (take_ge (ids ++ [id])) by (rewrite length_app; cbn; lia). by rewrite <- app_assoc.
  - rewrite (take_app_le ids), (take_app_le ids) by lia. rewrite take_app_le by (rewrite length_take; lia).
    by rewrite take_take, Nat.min_id.
Qed.

Lemma table_size_length es : 8 * Z.of_nat (length es) <= table_size es.
Proof. induction es as [|e es IH]; cbn; [lia|]. destruct e; cbn; lia. Qed.

Lemma entries_ok es : forall fuel p ids l s, table_at (hmem s) p es -> cpus_are ids s ->
  (length es < fuel)%nat -> exists s', entries fuel p (p + table_size es) true l s = Ok true l s' /\
    cpus_are (take 8 (ids ++ cpu_ids es)) s' /\ ioapicid s' = last_ioapic es (ioapicid s) /\ same_rest s s'.
Proof.
  induction es as [|e es IH]; intros [|f] p ids l s Ht Hc Hf; cbn in Hf; try lia; cbn [entries table_size cpu_ids].
  - rewrite Z.add_0_r, Z.ltb_irrefl, app_nil_r. exists s. split; [done|]. split; [|done].
    destruct Hc as (H1 & H2 & H3 & H4). rewrite take_ge; [done|]. unfold NCPU in H3. lia.
  - destruct Ht as [He Ht]. pose proof (table_size_length es).
    assert (Hlt : p < p + (entry_size e + table_size es)) by (destruct e; cbn; lia).
    rewrite (proj2 (Z.ltb_lt _ _) Hlt). kstep. rewrite Z.add_assoc. destruct e as [id|id|t]; cbn in He, Ht |- *.
    + destruct He as [-> ->]. cbn. destruct (add_cpu_ok id ids l s Hc) as (s1 & R & Hc1 & Hs1 & Hio). kstep.
      destruct (IH f (p + 20) (take 8 (ids ++ [id])) l s1) as (s' & R' & Hc' & Hio' & Hs'); [by destruct Hs1 as (-> & _)|exact Hc1|lia|].
      exists s'. split; [exact R'|]. rewrite take_more in Hc'. split; [done|]. split; [by rewrite Hio', Hio|].
      by eapply same_rest_trans.
    + destruct He as [-> ->]. cbn. kstep.
      destruct (IH f (p + 8) ids l (s <| ioapicid := id |>)) as (s' & R' & Hc' & Hio' & Hs'); [done|done|lia|].
      by exists s'.
    + destruct He as [-> Hty]. assert (E : (t =? MPPROC) = false /\ (t =? MPIOAPIC) = false /\ (t =? MPBUS) || (t =? MPIOINTR) || (t =? MPLINTR) = true)
        by (destruct Hty as [-> | [-> | ->]]; done). destruct E as (-> & -> & ->).
      by apply IH; [|done|lia].
Qed.

(** Writing the interrupt mode register does not fail. *)
Lemma imcr_ok (c : bool) l s : exists d, (if c then out 0x22 0x70 ;; v ← inp 0x23; out 0x23 (Z.lor v 1) else mret tt) l s =
  Ok tt l (s <| hdev := d |>).
Proof.
  destruct c; [|exists (hdev s); by destruct s]. unfold out, inp. kunfold.
  destruct (inb 0x23 _) as [v d]. eexists. reflexivity.
Qed.

Lemma mpinit_run fuel mp conf es l (s : hw D) :
  mpconfig (hmem s) = Some (mp, conf) -> table_at (hmem s) (conf + sizeof_mpconf) es ->
  conf_length (hmem s) conf = sizeof_mpconf + table_size es ->
  length (apicids s) = Z.to_nat NCPU /\ ncpu s = 0 -> (length es < fuel)%nat ->
  exists s', mpinit fuel l s = Ok tt l s' /\ cpus_are (take 8 (cpu_ids es)) s' /\
    lapic s' = conf_lapicaddr (hmem s) conf /\ ioapicid s' = last_ioapic es (ioapicid s) /\
    hmem s' = hmem s /\ hcon s' = hcon s.
Proof.
  intros Hconf Hes Hlen Hcpus Hfuel. unfold mpinit. kstep. rewrite Hconf. kstep. rewrite Hlen, Z.add_assoc.
  destruct (entries_ok es fuel (conf + sizeof_mpconf) [] l (s <| lapic := conf_lapicaddr (hmem s) conf |>))
    as (s1 & R & Hc & Hio & Hs); [done| |lia|].
  { destruct Hcpus as [Hl Hn]. unfold cpus_are. cbn. rewrite Hn. done. }
  erewrite bind_Ok by exact R. cbn [negb]. destruct (imcr_ok (nz (mp_imcrp (hmem s) mp)) l s1) as [d ->].
  eexists. split; [reflexivity|]. cbn. destruct Hs as (Hm & Hlp & _ & Hh & _). cbn in Hm, Hlp, Hh. by split_and!.
Qed.

(** C30: when [mpconfig] finds a multiprocessor table whose entries are all of the
    five types that the kernel knows ([mpinit_hangs] is about others), [mpinit]
    returns and the kernel knows what the table says: the processors in the order of the table,
    as many as the kernel has room for, the address of the local APIC and the
    identity of the I/O APIC. *)
Theorem mpinit_reads_table fuel mp conf es l (s : hw D)
    (Hconf : mpconfig (hmem s) = Some (mp, conf))
    (Hes : table_at (hmem s) (conf + sizeof_mpconf) es)
    (Hlen : conf_length (hmem s) conf = sizeof_mpconf + table_size es)
    (Hcpus : length (apicids s) = Z.to_nat NCPU /\ ncpu s = 0)
    (Hfuel : (length es < fuel)%nat) :
  exists s', mpinit fuel l s = Ok tt l s' /\
    ncpu s' = Z.min NCPU (Z.of_nat (length (cpu_ids es))) /\
    take (Z.to_nat (ncpu s')) (apicids s') = take (Z.to_nat NCPU) (cpu_ids es) /\
    lapic s' = conf_lapicaddr (hmem s) conf /\ ioapicid s' = last_ioapic es (ioapicid s) /\ hmem s' = hmem s.
Proof.
  destruct (mpinit_run fuel mp conf es l s Hconf Hes Hlen Hcpus Hfuel) as (s' & R & (H1 & H2 & H3 & H4) & Hl & Hio & Hm & _).
  exists s'. split; [done|]. change (Z.to_nat NCPU) with 8%nat. unfold NCPU. rewrite length_take in H2.
  split; [lia|]. split; [|done]. rewrite <- H4. f_equal. rewrite length_take. lia.
Qed.

Lemma entries_stuck fuel p e l (s : hw D) : p < e -> 4 < load8 (hmem s) p -> forall ismp,
  entries fuel p e ismp l s = Fault "out of fuel".
Proof.
  intros Hp Ht. induction fuel as [|f IH]; intros ismp; [done|]. cbn [entries].
  rewrite (proj2 (Z.ltb_lt _ _)) by lia. kstep. unfold MPPROC, MPIOAPIC, MPBUS, MPIOINTR, MPLINTR.
  repeat (rewrite (proj2 (Z.eqb_neq _ _)) by lia). cbn [orb]. apply IH.
Qed.

(** An entry of a type the kernel does not know is never left: the loop does
    not come to the test that would panic. *)
Theorem mpinit_hangs fuel mp conf l (s : hw D) (Hconf : mpconfig (hmem s) = Some (mp, conf))
    (Htype : 4 < load8 (hmem s) (conf + sizeof_mpconf))
    (Hlen : sizeof_mpconf < conf_length (hmem s) conf) :
  mpinit fuel l s = Fault "out of fuel".
Proof. unfold mpinit. kstep. rewrite Hconf. kstep. apply bind_Fault, entries_stuck; [lia|done]. Qed.

End spec.

(** *** Finding the tables *)

(** A structure is at [p]: its signature is there, and its bytes add up to 0. *)
Definition mp_at (m : mem) (p : Z) : Prop := bytes_at m p 4 = sig_mp /\ sum m p sizeof_mp = 0.

(** The scan returns the first structure of its range. *)
Lemma scan_first m n : forall p, match scan m p n with
  | Some q => exists k, (k < n)%nat /\ q = p + 16 * Z.of_nat k /\ mp_at m q /\
      forall j, (j < k)%nat -> ~ mp_at m (p + 16 * Z.of_nat j)
  | None => forall j, (j < n)%nat -> ~ mp_at m (p + 16 * Z.of_nat j)
  end.
Proof.
  induction n as [|n IH]; intros p; cbn [scan]; [intros j; lia|].
  destruct (signed_with m p sig_mp && (sum m p sizeof_mp =? 0)) eqn:E.
  - apply andb_true_iff in E as [E1 E2]. apply bool_decide_eq_true in E1. apply Z.eqb_eq in E2.
    exists O. split; [lia|]. split; [lia|]. split; [done|]. intros j. lia.
  - assert (Hno : ~ mp_at m p).
    { intros [H1 H2]. unfold signed_with in E. by rewrite bool_decide_eq_true_2, H2 in E. }
    specialize (IH (p + sizeof_mp)). unfold sizeof_mp in *. destruct (scan m (p + 16) n) as [q|].
    + destruct IH as (k & Hk & -> & Hat & Hmin). exists (S k). split; [lia|]. split; [lia|]. split; [done|].
      intros [|j] Hj; [by replace (p + 16 * Z.of_nat 0) with p by lia|].
      replace (p + 16 * Z.of_nat (S j)) with (p + 16 + 16 * Z.of_nat j) by lia. apply Hmin. lia.
    + intros [|j] Hj; [by replace (p + 16 * Z.of_nat 0) with p by lia|].
      replace (p + 16 * Z.of_nat (S j)) with (p + 16 + 16 * Z.of_nat j) by lia. apply IH. lia.
Qed.

(** Where the kernel looks: the first kilobyte of the extended BIOS data area if
    there is one, else the last kilobyte of base memory; then the ROM. *)
Definition areas (m : mem) : list (Z * nat) :=
  let bda := P2V 0x400 in
  let ebda := Z.shiftl (Z.lor (Z.shiftl (load8 m (bda + 0x0f)) 8) (load8 m (bda + 0x0e))) 4 in
  let base := Z.lor (Z.shiftl (load8 m (bda + 0x14)) 8) (load8 m (bda + 0x13)) * 1024 in
  [(P2V (if nz ebda then ebda else u32 (base - 1024)), 64%nat); (P2V 0xF0000, 4096%nat)].

(** [mpsearch] finds a structure whenever one lies on a multiple of its size in
    one of the areas, and returns only such an address. *)
Theorem mpsearch_finds m :
  match mpsearch m with
  | Some q => mp_at m q /\ exists a k, a ∈ areas m /\ (k < a.2)%nat /\ q = a.1 + 16 * Z.of_nat k
  | None => forall a k, a ∈ areas m -> (k < a.2)%nat -> ~ mp_at m (a.1 + 16 * Z.of_nat k)
  end.
Proof.
  unfold mpsearch, areas. cbv zeta.
  set (ebda := Z.shiftl _ 4). set (base := u32 _).
  replace (if nz ebda then mpsearch1 m ebda 1024 else mpsearch1 m base 1024)
    with (scan m (P2V (if nz ebda then ebda else base)) 64) by (by destruct (nz ebda)).
  change (mpsearch1 m 0xF0000 0x10000) with (scan m (P2V 0xF0000) 4096).
  set (p := P2V (if nz ebda then ebda else base)). pose proof (scan_first m 64 p) as H1.
  destruct (scan m p 64) as [q|].
  { destruct H1 as (k & Hk & -> & Hat & _). split; [done|]. exists (p, 64%nat), k. split; [by left|done]. }
  pose proof (scan_first m 4096 (P2V 0xF0000)) as H2. destruct (scan m (P2V 0xF0000) 4096) as [q|].
  - destruct H2 as (k & Hk & -> & Hat & _). split; [done|]. exists (P2V 0xF0000, 4096%nat), k. split; [right; by left|done].
  - intros a k Ha. rewrite !elem_of_cons in Ha. destruct Ha as [->|[->|Ha]]; [apply H1|apply H2|by apply not_elem_of_nil in Ha].
Qed.

(** *** Tables below an address *)

(** Memory below [hi] has the structure at [mp] and the table [es] of [conf], and the
    kernel looks for them nowhere else. *)
Record firmware (hi : Z) (m : mem) (mp conf : Z) (es : list entry) : Prop := {
  fw_areas a : a ∈ areas m -> a.1 + 16 * Z.of_nat a.2 <= hi;
  fw_found : mpconfig m = Some (mp, conf);
  fw_end : conf + conf_length m conf <= hi;
  fw_table : table_at m (conf + sizeof_mpconf) es;
  fw_length : conf_length m conf = sizeof_mpconf + table_size es }.

Section below.
Context (hi : Z) (m m' : mem) (Hm : forall x, x < hi -> m' x = m x).

Lemma below8 p : p < hi -> load8 m' p = load8 m p.
Proof. intros Hp. unfold load8. by rewrite Hm. Qed.

Lemma below32 p : p + 4 <= hi -> load32 m' p = load32 m p.
Proof. intros Hp. apply load32_same. intros x Hx. apply Hm. lia. Qed.

Lemma below_sum n : forall p, p + Z.of_nat n <= hi -> sum_bytes m' p n = sum_bytes m p n.
Proof. induction n as [|n IH]; intros p Hp; [done|]. cbn [sum_bytes]. by rewrite below8, IH by lia. Qed.

Lemma below_signed p sg : p + 4 <= hi -> signed_with m' p sg = signed_with m p sg.
Proof. intros Hp. unfold signed_with. cbn [bytes_at]. by rewrite !below8 by lia. Qed.

Lemma below_scan n : forall p, p + 16 * Z.of_nat n <= hi -> scan m' p n = scan m p n.
Proof.
  induction n as [|n IH]; intros p Hp; [done|]. cbn [scan]. unfold sum, sizeof_mp in *.
  by rewrite below_signed, below_sum, IH by lia.
Qed.

Lemma below_table es : forall p, p + table_size es <= hi -> table_at m p es -> table_at m' p es.
Proof.
  induction es as [|e es IH]; intros p Hp; [done|]. cbn [table_at table_size] in *. pose proof (table_size_length es).
  intros [He Ht]. assert (0 < entry_size e) by (by destruct e). split; [|apply IH; [lia|done]].
  destruct e; cbn in *; rewrite !below8 by lia; done.
Qed.

Lemma below_search : P2V 0x400 + 0x15 <= hi -> (forall a, a ∈ areas m -> a.1 + 16 * Z.of_nat a.2 <= hi) ->
  mpsearch m' = mpsearch m.
Proof.
  intros Hb Ha. unfold mpsearch. cbv zeta. rewrite !below8 by lia. unfold areas in Ha. cbv zeta in Ha.
  set (ebda := Z.shiftl _ 4) in *. set (base := u32 _) in *.
  pose proof (Ha _ ltac:(by left)) as H1. pose proof (Ha _ ltac:(right; by left)) as H2. cbn [fst snd] in H1, H2.
  unfold mpsearch1. change (Z.to_nat ((1024 + sizeof_mp - 1) / sizeof_mp)) with 64%nat.
  change (Z.to_nat ((0x10000 + sizeof_mp - 1) / sizeof_mp)) with 4096%nat.
  rewrite (below_scan 4096) by done. destruct (nz ebda); by rewrite below_scan.
Qed.

(** The tables do not depend on the memory above. *)
Lemma firmware_same mp conf es : P2V 0x400 + 0x15 <= hi -> firmware hi m mp conf es -> firmware hi m' mp conf es.
Proof.
  intros Hb [Ha Hf He Ht Hl]. pose proof (table_size_length es). unfold sizeof_mpconf in *.
  assert (Hs : mpsearch m' = mpsearch m) by (by apply below_search).
  pose proof (mpsearch_finds m) as Hfind. unfold mpconfig in Hf. destruct (mpsearch m) as [q|] eqn:E; [|done]. cbn in Hf.
  destruct Hfind as (_ & a & k & Hin & Hk & Hq). pose proof (Ha _ Hin) as Hq'.
  assert (Ep : mp_physaddr m' q = mp_physaddr m q) by (apply below32; lia).
  destruct (mp_physaddr m q =? 0) eqn:E0; [done|].
  assert (Ec : P2V (mp_physaddr m q) = conf) by (repeat case_match; congruence).
  assert (El : conf_length m' conf = conf_length m conf).
  { unfold conf_length, load16. rewrite !below8 by lia. done. }
  split; [|unfold mpconfig; rewrite Hs; cbn|by rewrite El|by apply below_table; [unfold sizeof_mpconf; lia|]|by rewrite El].
  - intros b. unfold areas. rewrite !below8 by lia. apply Ha.
  - rewrite Ep, E0, Ec, El. rewrite Ec in Hf. unfold conf_version, sum in *.
    by rewrite below_signed, below8, below_sum by lia.
Qed.

End below.

(** *** A machine of two processors *)

(** The structure is at the start of the ROM, the table at 0xF0100. *)
Definition ex_mp : list Z := sig_mp ++ [0x00; 0x01; 0x0F; 0x00; 1; 4; 144; 0; 0; 0; 0; 0].
Definition ex_entries : list Z :=
  [0; 5; 0; 0; 0; 0; 0; 0; 0; 0; 0; 0; 0; 0; 0; 0; 0; 0; 0; 0] ++ [1; 0; 0; 0; 0; 0; 0; 0] ++
  [0; 9; 0; 0; 0; 0; 0; 0; 0; 0; 0; 0; 0; 0; 0; 0; 0; 0; 0; 0] ++ [2; 3; 0; 0; 0; 0; 0; 0].
Definition ex_conf : list Z :=
  sig_pcmp ++ [100; 0; 4; 118] ++ replicate 28 0 ++ [0; 0; 0xE0; 0xFE] ++ replicate 4 0 ++ ex_entries.
Definition ex_mem : mem := store_bytes (store_bytes (fun _ => 0) (P2V 0xF0000) ex_mp) (P2V 0xF0100) ex_conf.

(** Ports with nothing behind them. *)
Definition no_ports : Ports unit := {|
  inb _ _ := (0xff, tt); outb _ _ _ := tt; inl _ _ := (0, tt); outl _ _ _ := tt |}.

Definition ex_hw : hw unit := mkHw ex_mem (replicate 8 0) 0 0 0 0 (mkCst demo_console (machine [runner])) tt.

Lemma mpinit_reads_table_witness : exists s', mpinit (Ports0 := no_ports) 5 [] ex_hw = Ok tt [] s' /\
  ncpu s' = 2 /\ take 2 (apicids s') = [5; 9] /\ lapic s' = 0xFEE00000 /\ ioapicid s' = 3.
Proof.
  destruct (mpinit_reads_table (Ports0 := no_ports) 5 (P2V 0xF0000) (P2V 0xF0100) [Cpu 5; Other 1; Cpu 9; Ioapic 3] [] ex_hw)
    as (s' & R & H1 & H2 & H3 & H4 & _).
  - vm_compute. reflexivity.
  - vm_compute. repeat split. by left.
  - vm_compute. reflexivity.
  - done.
  - cbn. lia.
  - exists s'. cbn in H1, H4. rewrite H1 in H2. split_and!; [exact R|exact H1|exact H2|rewrite H3; vm_compute; reflexivity|exact H4].
Defined.

(** A structure in the first half of the ROM is not found. *)
Theorem mpsearch_skips_low_rom : exists m, mp_at m (P2V 0xE0000) /\ mpsearch m = None.
Proof.
  exists (store_bytes (fun _ => 0) (P2V 0xE0000) ex_mp). split; [split|]; vm_compute; reflexivity.
Qed.

End Mp.
