(* ===== verification/Apic.v ===== *)
(** Interrupt controllers and the clock (lapic.c, ioapic.c, picirq.c).

    The registers of the controllers are words of the address space: [Mmio] has
    the loads and stores.  [IoApicChip], [LapicChip] and [Cmos] state what the
    manuals promise for the registers that the kernel uses. *)

From stdpp Require Import base numbers list sets strings.
From Stdlib Require Import ZArith Lia.
From S2P Require Import Prelude Mem CString Mmu Param Printf Proc Ports Console Trap Mp.
Import Mmu Printf Ports Console Trap Mp.

Module Apic.

Class Mmio (D : Type) := {
  mread : Z -> D -> Z * D;
  mwrite : Z -> Z -> D -> D }.

(** ioapic.c *)
Definition IOAPIC : Z := 0xFEC00000.
Definition REG_ID : Z := 0x00.
Definition REG_VER : Z := 0x01.
Definition REG_TABLE : Z := 0x10.
Definition INT_DISABLED : Z := 0x00010000.

(** lapic.c *)
Definition ID : Z := 0x0020 / 4.
Definition VER : Z := 0x0030 / 4.
Definition TPR : Z := 0x0080 / 4.
Definition EOI : Z := 0x00B0 / 4.
Definition SVR : Z := 0x00F0 / 4.
Definition ENABLE : Z := 0x00000100.
Definition ESR : Z := 0x0280 / 4.
Definition ICRLO : Z := 0x0300 / 4.
Definition INIT : Z := 0x00000500.
Definition STARTUP : Z := 0x00000600.
Definition DELIVS : Z := 0x00001000.
Definition ASSERT : Z := 0x00004000.
Definition LEVEL : Z := 0x00008000.
Definition BCAST : Z := 0x00080000.
Definition ICRHI : Z := 0x0310 / 4.
Definition TIMER : Z := 0x0320 / 4.
Definition X1 : Z := 0x0000000B.
Definition PERIODIC : Z := 0x00020000.
Definition PCINT : Z := 0x0340 / 4.
Definition LINT0 : Z := 0x0350 / 4.
Definition LINT1 : Z := 0x0360 / 4.
Definition ERROR : Z := 0x0370 / 4.
Definition MASKED : Z := 0x00010000.
Definition TICR : Z := 0x0380 / 4.
Definition TDCR : Z := 0x03E0 / 4.
Definition IRQ_ERROR : Z := 19.
Definition CMOS_PORT : Z := 0x70.
Definition CMOS_RETURN : Z := 0x71.
Definition CMOS_STATA : Z := 0x0a.
Definition CMOS_STATB : Z := 0x0b.
Definition CMOS_UIP : Z := Z.shiftl 1 7.

(** date.h *)
Record rtcdate := mkDate { second : Z; minute : Z; hour : Z; day : Z; month : Z; year : Z }.
#[export] Instance eta_rtcdate : Eta rtcdate := fun r =>
  mkDate r.(second) r.(minute) r.(hour) r.(day) r.(month) r.(year).
#[export] Instance rtcdate_eq_dec : EqDecision rtcdate.
Proof. solve_decision. Defined.

Section apic.
Context {D : Type} `{!Ports D} `{!Mmio D}.

Definition mw (a v : Z) : K (hw D) unit := modify (fun s => s <| hdev ::= mwrite a (u32 v) |>).
Definition mr (a : Z) : K (hw D) Z := fun l s =>
  let '(v, d) := mread a (hdev s) in Ok v l (s <| hdev := d |>).

(** *** The I/O APIC *)

Definition ioapicread (reg : Z) : K (hw D) Z :=
  p ← gets ioapic; mw p reg ;; mr (p + 16).
Definition ioapicwrite (reg data : Z) : K (hw D) unit :=
  p ← gets ioapic; mw p reg ;; mw (p + 16) data.

Definition ioapicinit : K (hw D) unit :=
  modify (fun s => s <| ioapic := IOAPIC |>) ;;
  v ← ioapicread REG_VER;
  let maxintr := Z.land (Z.shiftr v 16) 0xFF in
  v ← ioapicread REG_ID;
  let id := Z.shiftr v 24 in
  me ← gets ioapicid;
  (if negb (id =? me) then
     zoom hcon (cprintf (lit "ioapicinit: id isn't equal to ioapicid; not a MP" ++ [10]) [] (fun _ => []))
   else mret tt) ;;
  kiter (fun i =>
    ioapicwrite (REG_TABLE + 2 * i) (Z.lor INT_DISABLED (T_IRQ0 + i)) ;;
    ioapicwrite (REG_TABLE + 2 * i + 1) 0) (seqZ 0 (maxintr + 1)).

Definition ioapicenable (irq cpunum : Z) : K (hw D) unit :=
  ioapicwrite (REG_TABLE + 2 * irq) (T_IRQ0 + irq) ;;
  ioapicwrite (REG_TABLE + 2 * irq + 1) (Z.shiftl cpunum 24).

(** *** The old controllers *)

Definition picinit : K (hw D) unit := out (0x20 + 1) 0xFF ;; out (0xA0 + 1) 0xFF.

(** *** The local APIC *)

(** [lapic[index]] *)
Definition lapicr (index : Z) : K (hw D) Z := p ← gets lapic; mr (p + 4 * index).
Definition lapicw (index value : Z) : K (hw D) unit :=
  p ← gets lapic; mw (p + 4 * index) value ;; lapicr ID ;; mret tt.

(** [while (lapic[ICRLO] & DELIVS);] *)
Fixpoint wait_delivery (fuel : nat) : K (hw D) unit :=
  match fuel with
  | O => fault "out of fuel"
  | S f => v ← lapicr ICRLO; if nz (Z.land v DELIVS) then wait_delivery f else mret tt
  end.

Definition lapicinit (fuel : nat) : K (hw D) unit :=
  p ← gets lapic;
  if p =? 0 then mret tt else
  lapicw SVR (Z.lor ENABLE (T_IRQ0 + IRQ_SPURIOUS)) ;;
  lapicw TDCR X1 ;;
  lapicw TIMER (Z.lor PERIODIC (T_IRQ0 + IRQ_TIMER)) ;;
  lapicw TICR 10000000 ;;
  lapicw LINT0 MASKED ;;
  lapicw LINT1 MASKED ;;
  v ← lapicr VER;
  (if 4 <=? Z.land (Z.shiftr v 16) 0xFF then lapicw PCINT MASKED else mret tt) ;;
  lapicw ERROR (T_IRQ0 + IRQ_ERROR) ;;
  lapicw ESR 0 ;;
  lapicw ESR 0 ;;
  lapicw EOI 0 ;;
  lapicw ICRHI 0 ;;
  lapicw ICRLO (Z.lor (Z.lor BCAST INIT) LEVEL) ;;
  wait_delivery fuel ;;
  lapicw TPR 0.

Definition lapicid : K (hw D) Z :=
  p ← gets lapic;
  if p =? 0 then mret 0 else v ← lapicr ID; mret (Z.shiftr v 24).

Definition lapiceoi : K (hw D) unit :=
  p ← gets lapic; if p =? 0 then mret tt else lapicw EOI 0.

(** [microdelay] is empty. *)
Definition send_startup (apicid addr : Z) : K (hw D) unit :=
  lapicw ICRHI (Z.shiftl apicid 24) ;;
  lapicw ICRLO (Z.lor STARTUP (Z.shiftr addr 12)).

Definition lapicstartap (apicid addr : Z) : K (hw D) unit :=
  out CMOS_PORT 0xF ;;
  out (CMOS_PORT + 1) 0x0A ;;
  let wrv := P2V (Z.lor (Z.shiftl 0x40 4) 0x67) in
  modify (fun s => s <| hmem ::= fun m => store16 m wrv 0 |>) ;;
  modify (fun s => s <| hmem ::= fun m => store16 m (wrv + 2) (Z.shiftr addr 4) |>) ;;
  lapicw ICRHI (Z.shiftl apicid 24) ;;
  lapicw ICRLO (Z.lor (Z.lor INIT LEVEL) ASSERT) ;;
  lapicw ICRLO (Z.lor INIT LEVEL) ;;
  kiter (fun _ => send_startup apicid addr) [0; 1].

(** *** The clock *)

Definition cmos_read (reg : Z) : K (hw D) Z := out CMOS_PORT reg ;; inp CMOS_RETURN.

Definition fill_rtcdate : K (hw D) rtcdate :=
  s ← cmos_read 0x00; mi ← cmos_read 0x02; h ← cmos_read 0x04;
  d ← cmos_read 0x07; mo ← cmos_read 0x08; y ← cmos_read 0x09;
  mret (mkDate s mi h d mo y).

(** The loop that reads the clock until two readings agree. *)
Fixpoint read_clock (fuel : nat) : K (hw D) rtcdate :=
  match fuel with
  | O => fault "out of fuel"
  | S f =>
      t1 ← fill_rtcdate;
      a ← cmos_read CMOS_STATA;
      if nz (Z.land a CMOS_UIP) then read_clock f else
      t2 ← fill_rtcdate;
      if decide (t1 = t2) then mret t1 else read_clock f
  end.

(** [CONV] *)
Definition conv (x : Z) : Z := u32 (Z.shiftr x 4 * 10 + Z.land x 0xf).

Definition cmostime (fuel : nat) : K (hw D) rtcdate :=
  sb ← cmos_read CMOS_STATB;
  let bcd := Z.land sb (Z.shiftl 1 2) =? 0 in
  t ← read_clock fuel;
  let t := if bcd then
      mkDate (conv (second t)) (conv (minute t)) (conv (hour t)) (conv (day t)) (conv (month t)) (conv (year t))
    else t in
  mret (t <| year ::= fun y => u32 (y + 2000) |>).

End apic.

(** *** The chips *)

(** The I/O APIC has its registers behind a window: one word selects, another
    holds the data. *)
Class IoApicChip (D : Type) `{!Mmio D} := {
  io_regs : D -> Z -> Z;
  io_read r d : 0 <= r < 256 ->
    (mread (IOAPIC + 16) (mwrite IOAPIC r d)).1 = io_regs d r /\
    forall x, io_regs (mread (IOAPIC + 16) (mwrite IOAPIC r d)).2 x = io_regs d x;
  io_write r v d x : REG_TABLE <= r < 256 ->
    io_regs (mwrite (IOAPIC + 16) v (mwrite IOAPIC r d)) x = if x =? r then v else io_regs d x }.

(** Registers of the local APIC that do not read as what was written. *)
Definition volatile : list Z := [EOI; ESR; ICRLO].
Definition lapic_used : list Z := [TPR; EOI; SVR; ESR; ICRLO; ICRHI; TIMER; PCINT; LINT0; LINT1; ERROR; TICR; TDCR].

(** [n] reads of the command register end with the command delivered. *)
Fixpoint delivered_within {D} `{!Mmio D} (n : nat) (a : Z) (d : D) : Prop :=
  match n with
  | O => False
  | S n' => let '(v, d') := mread a d in Z.land v DELIVS = 0 \/ Z.land v DELIVS <> 0 /\ delivered_within n' a d'
  end.

(** The registers at [lapic_base], and the messages sent to processors: a
    command is sent, to the destination in [ICRHI], when [ICRLO] is written. *)
Class LapicChip (D : Type) `{!Ports D} `{!Mmio D} := {
  lapic_base : Z;
  lregs : D -> Z -> Z;
  ipis : D -> list (Z * Z);
  lapic_patience : nat;
  lapic_there : lapic_base <> 0;
  lapic_put i v d x : i ∈ lapic_used -> x ∉ volatile ->
    lregs (mwrite (lapic_base + 4 * i) v d) x = if x =? i then v else lregs d x;
  lapic_send i v d : i ∈ lapic_used ->
    ipis (mwrite (lapic_base + 4 * i) v d) = if i =? ICRLO then ipis d ++ [(lregs d ICRHI, v)] else ipis d;
  lapic_get i d : i = ID \/ i = VER -> (mread (lapic_base + 4 * i) d).1 = lregs d i;
  lapic_keep i d : i = ID \/ i = VER \/ i = ICRLO ->
    (forall x, lregs (mread (lapic_base + 4 * i) d).2 x = lregs d x) /\ ipis (mread (lapic_base + 4 * i) d).2 = ipis d;
  lapic_port p v d : (forall x, lregs (outb p v d) x = lregs d x) /\ ipis (outb p v d) = ipis d;
  lapic_delivers d : delivered_within lapic_patience (lapic_base + 4 * ICRLO) d }.

(** The clock chip: a port selects a register, another reads it. *)
Class Cmos (D : Type) `{!Ports D} := {
  cmos : D -> Z -> Z;
  cmos_get r d : (inb CMOS_RETURN (outb CMOS_PORT r d)).1 = cmos d r }.

(** The clock shows the same for the next [n] reads. *)
Fixpoint still {D} `{!Ports D} `{!Cmos D} (n : nat) (d : D) : Prop :=
  match n with
  | O => True
  | S n' => forall r, let d' := (inb CMOS_RETURN (outb CMOS_PORT r d)).2 in
      (forall x, cmos d' x = cmos d x) /\ still n' d'
  end.

(** Membership in a list of registers. *)
Ltac by_list := apply (bool_decide_unpack _); vm_compute; exact Logic.I.

Section ioapic.
Context {D : Type} `{!Ports D} `{!Mmio D} `{!IoApicChip D}.

(** The registers are [R], and the rest is as in [s0]. *)
Definition io_is (s0 : hw D) (R : Z -> Z) (s : hw D) : Prop :=
  (exists d, s = s0 <| ioapic := IOAPIC |> <| hdev := d |>) /\ forall x, io_regs (hdev s) x = R x.

Lemma ioapicwrite_ok s0 R s l r v : io_is s0 R s -> REG_TABLE <= r < 256 -> 0 <= v < 2 ^ 32 ->
  kruns (ioapicwrite r v) l s (fun _ s' => io_is s0 (fun x => if x =? r then v else R x) s').
Proof.
  intros [[d ->] HR] Hr Hv. eexists tt, _. split; [reflexivity|]. cbn. unfold REG_TABLE in Hr.
  rewrite !u32_small by lia. split; [eexists; reflexivity|]. intros x. cbn. rewrite io_write by (unfold REG_TABLE; lia). cbn in HR. by rewrite HR.
Qed.

Lemma ioapicread_ok s0 R s l r : io_is s0 R s -> 0 <= r < 256 ->
  kruns (ioapicread r) l s (fun v s' => v = R r /\ io_is s0 R s').
Proof.
  intros [[d ->] HR] Hr. cbn in HR. destruct (io_read r d Hr) as [Hv Hk].
  unfold ioapicread, mr, mw, kruns. kunfold. cbn. rewrite u32_small by lia.
  destruct (mread (IOAPIC + 16) (mwrite IOAPIC r d)) as [v d'] eqn:E. cbn in Hv, Hk.
  eexists v, _. split; [reflexivity|]. split; [by rewrite Hv, HR|]. split; [eexists; reflexivity|]. intros x. cbn. by rewrite Hk, HR.
Qed.

(** The two registers of line [j]. *)
Definition set_line (R : Z -> Z) (j lo hi : Z) : Z -> Z :=
  fun x => if x =? REG_TABLE + 2 * j + 1 then hi else if x =? REG_TABLE + 2 * j then lo else R x.
Definition line (R : Z -> Z) (j : Z) : Z * Z := (R (REG_TABLE + 2 * j), R (REG_TABLE + 2 * j + 1)).

Lemma line_set R j j' lo hi : line (set_line R j lo hi) j' = if j' =? j then (lo, hi) else line R j'.
Proof.
  unfold line, set_line, REG_TABLE. destruct (Z.eqb_spec j' j) as [->|Hne].
  - rewrite (proj2 (Z.eqb_neq (16 + 2 * j) (16 + 2 * j + 1))) by lia. by rewrite !Z.eqb_refl.
  - by repeat (rewrite (proj2 (Z.eqb_neq _ _)) by lia).
Qed.

Lemma write_line_ok s0 R s l j lo hi : io_is s0 R s -> 0 <= j < 120 -> 0 <= lo < 2 ^ 32 -> 0 <= hi < 2 ^ 32 ->
  kruns (ioapicwrite (REG_TABLE + 2 * j) lo ;; ioapicwrite (REG_TABLE + 2 * j + 1) hi) l s
    (fun _ s' => io_is s0 (set_line R j lo hi) s').
Proof.
  intros Hs Hj Hlo Hhi. assert (REG_TABLE = 16) by done. eapply kruns_bind; [by apply (ioapicwrite_ok s0 R); [|lia|]|].
  intros [] s1 H1. by apply (ioapicwrite_ok s0 _ _ _ _ _ H1); [lia|].
Qed.

(** Every line closed, with its vector. *)
Definition closed (j : Z) : Z * Z := (INT_DISABLED + (T_IRQ0 + j), 0).

Lemma lor_disabled j : 0 <= j < 120 -> Z.lor INT_DISABLED (T_IRQ0 + j) = INT_DISABLED + (T_IRQ0 + j).
Proof.
  intros Hj. rewrite <- Z.lxor_lor, <- Z.add_nocarry_lxor; try done;
    (replace (T_IRQ0 + j) with ((T_IRQ0 + j) mod 2 ^ 16) by (unfold T_IRQ0; apply Z.mod_small; lia);
     apply Z.bits_inj; intros n; rewrite Z.land_spec, Z.bits_0;
     change INT_DISABLED with (2 ^ 16); rewrite Z.pow2_bits_eqb by lia;
     destruct (Z.eqb_spec 16 n) as [<-|]; [by rewrite Z.mod_pow2_bits_high by lia|done]).
Qed.

Lemma mask_ok s0 l n : forall a R s, io_is s0 R s -> 0 <= a -> a + Z.of_nat n <= 120 ->
  kruns (kiter (fun i => ioapicwrite (REG_TABLE + 2 * i) (Z.lor INT_DISABLED (T_IRQ0 + i)) ;;
      ioapicwrite (REG_TABLE + 2 * i + 1) 0) (seqZ a (Z.of_nat n))) l s
    (fun _ s' => exists R', io_is s0 R' s' /\
       forall j, line R' j = if decide (a <= j < a + Z.of_nat n) then closed j else line R j).
Proof.
  induction n as [|n IH]; intros a R s Hs Ha Hn.
  - cbn. apply kruns_ret. exists R. split; [done|]. intros j. by rewrite decide_False by lia.
  - rewrite seqZ_cons by lia. replace (Z.pred (Z.of_nat (S n))) with (Z.of_nat n) by lia. cbn [kiter].
    rewrite lor_disabled by lia.
    eapply kruns_bind; [apply (write_line_ok s0 R s l a); [done|lia|unfold INT_DISABLED, T_IRQ0; lia|lia]|].
    intros [] s1 H1. cbv beta in H1. eapply kruns_weaken; [apply (IH (Z.succ a) _ s1 H1); lia|].
    intros [] s2 (R' & H2 & Hl). exists R'. split; [done|]. intros j. rewrite Hl, line_set.
    destruct (decide (Z.succ a <= j < Z.succ a + Z.of_nat n)); [by rewrite decide_True by lia|].
    destruct (Z.eqb_spec j a) as [->|]; [by rewrite decide_True by lia|by rewrite decide_False by lia].
Qed.

(** The line after some calls of [ioapicenable]: open to the processor of the
    last call for it. *)
Fixpoint routed (es : list (Z * Z)) (j : Z) (old : Z * Z) : Z * Z :=
  match es with
  | [] => old
  | (irq, c) :: r => routed r j (if j =? irq then (T_IRQ0 + irq, Z.shiftl c 24) else old)
  end.

Lemma enables_ok s0 l es : forall R s, io_is s0 R s -> Forall (fun e => 0 <= e.1 < 120 /\ 0 <= e.2 < 256) es ->
  kruns (kiter (fun '(irq, c) => ioapicenable irq c) es) l s
    (fun _ s' => exists R', io_is s0 R' s' /\ forall j, line R' j = routed es j (line R j)).
Proof.
  induction es as [|[irq c] es IH]; intros R s Hs Hes.
  - apply kruns_ret. by exists R.
  - apply Forall_cons in Hes as [[Hi Hc] Hes]. cbn in Hi, Hc. cbn [kiter].
    assert (0 <= Z.shiftl c 24 < 2 ^ 32) by (rewrite Z.shiftl_mul_pow2 by lia; lia).
    eapply kruns_bind; [apply (write_line_ok s0 R s l irq); [done|lia|unfold T_IRQ0; lia|lia]|].
    intros [] s1 H1. cbv beta in H1. eapply kruns_weaken; [by apply (IH _ s1 H1)|].
    intros [] s2 (R' & H2 & Hl). exists R'. split; [done|]. intros j. rewrite Hl, line_set. cbn [routed].
    by destruct (j =? irq).
Qed.

(** After [ioapicinit] every interrupt line of the machine is closed, and
    each call of [ioapicenable] then opens exactly its line: edge triggered, with
    the vector that [trap] expects for it, to the given processor. *)
Theorem ioapic_routes es l s
    (Hmax : Z.land (Z.shiftr (io_regs (hdev s) REG_VER) 16) 0xFF < 120)
    (Hid : Z.shiftr (io_regs (hdev s) REG_ID) 24 = ioapicid s)
    (Hes : Forall (fun e => 0 <= e.1 < 120 /\ 0 <= e.2 < 256) es) :
  exists s', (ioapicinit ;; kiter (fun '(irq, c) => ioapicenable irq c) es) l s = Ok tt l s' /\
    (exists d, s' = s <| ioapic := IOAPIC |> <| hdev := d |>) /\
    forall j, 0 <= j <= Z.land (Z.shiftr (io_regs (hdev s) REG_VER) 16) 0xFF ->
      line (io_regs (hdev s')) j = routed es j (closed j).
Proof.
  set (R := io_regs (hdev s)) in *. set (mx := Z.land (Z.shiftr (R REG_VER) 16) 0xFF) in *.
  assert (0 <= mx) by (apply Z.land_nonneg; right; lia).
  assert (H0 : io_is s R (s <| ioapic := IOAPIC |>)) by (split; [exists (hdev s); by destruct s|done]).
  assert (kruns (ioapicinit ;; kiter (fun '(irq, c) => ioapicenable irq c) es) l s (fun _ s' => exists R', io_is s R' s' /\
    forall j, 0 <= j <= mx -> line R' j = routed es j (closed j))) as ([] & s' & Hr & R' & [Hs' HR'] & Hl).
  { apply (kruns_bind _ _ _ _ (fun _ s' => exists R', io_is s R' s' /\ forall j, 0 <= j <= mx -> line R' j = closed j)).
    - unfold ioapicinit. eapply kruns_bind; [apply kruns_modify|]. intros [] s1 ->.
      eapply kruns_bind; [by apply (ioapicread_ok s R _ l REG_VER H0)|]. intros v s2 [-> H2].
      eapply kruns_bind; [by apply (ioapicread_ok s R _ l REG_ID H2)|]. intros v s3 [-> H3].
      eapply kruns_bind; [apply kruns_gets|]. intros me s4 [-> ->].
      assert (ioapicid s3 = ioapicid s) as -> by (by destruct H3 as [[d ->] _]). rewrite Hid, Z.eqb_refl. cbn [negb].
      apply (kruns_bind _ _ _ _ (fun _ s' => s' = s3)); [by apply kruns_ret|]. intros [] s5 ->. fold mx.
      pose proof (mask_ok s l (Z.to_nat (mx + 1)) 0 R s3 H3 ltac:(lia) ltac:(lia)) as Hm. rewrite Z2Nat.id in Hm by lia.
      eapply kruns_weaken; [exact Hm|]. intros [] s6 (R' & H6 & Hl). exists R'. split; [done|].
      intros j Hj. rewrite Hl. by rewrite decide_True by lia.
    - intros [] s1 (R1 & H1 & Hl1). eapply kruns_weaken; [by apply (enables_ok s l es R1 s1)|].
      intros [] s2 (R2 & H2 & Hl2). exists R2. split; [done|]. intros j Hj. by rewrite Hl2, Hl1. }
  exists s'. split; [done|]. split; [done|]. intros j Hj. rewrite <- Hl by done. unfold line. by rewrite !HR'.
Qed.

End ioapic.

(** *** The local APIC *)

Section lapic.
Context {D : Type} `{!Ports D} `{!Mmio D} `{!LapicChip D}.

(** The registers that can be read back are [R], the messages sent are [I], and
    the rest is as in [s0]. *)
Definition lapic_is (s0 : hw D) (R : Z -> Z) (I : list (Z * Z)) (s : hw D) : Prop :=
  (exists d, s = s0 <| hdev := d |>) /\ lapic s0 = lapic_base /\
  (forall x, x ∉ volatile -> lregs (hdev s) x = R x) /\ ipis (hdev s) = I.

Definition put_reg (R : Z -> Z) (i v : Z) : Z -> Z := fun x => if x =? i then v else R x.
Definition put_ipi (R : Z -> Z) (I : list (Z * Z)) (i v : Z) : list (Z * Z) :=
  if i =? ICRLO then I ++ [(R ICRHI, v)] else I.

Lemma lapicr_ok s0 R I s l i : lapic_is s0 R I s -> i = ID \/ i = VER ->
  kruns (lapicr i) l s (fun v s' => v = R i /\ lapic_is s0 R I s').
Proof.
  intros ([d ->] & Hb & HR & HI) Hi. cbn in HR, HI. unfold lapicr, mr, kruns. kunfold. cbn. rewrite Hb.
  pose proof (lapic_get i d Hi) as Hv. destruct (lapic_keep i d ltac:(tauto)) as [Hk1 Hk2].
  destruct (mread (lapic_base + 4 * i) d) as [v d']. cbn in *. eexists v, _. split; [reflexivity|].
  rewrite Hv. split; [apply HR; destruct Hi as [-> | ->]; by_list|].
  split; [eexists; cbn; rewrite ?Hb; reflexivity|]. cbn. split; [done|]. split; [|by rewrite Hk2]. intros x Hx. by rewrite Hk1, HR.
Qed.

Lemma lapicw_ok s0 R I s l i v : lapic_is s0 R I s -> i ∈ lapic_used -> 0 <= v < 2 ^ 32 ->
  kruns (lapicw i v) l s (fun _ s' => lapic_is s0 (put_reg R i v) (put_ipi R I i v) s').
Proof.
  intros ([d ->] & Hb & HR & HI) Hi Hv. cbn in HR, HI. unfold lapicw.
  eapply kruns_bind; [apply kruns_gets|]. intros p s1 [-> ->]. cbn. rewrite Hb.
  eapply kruns_bind; [apply kruns_modify|]. intros [] s1 ->. cbn. rewrite u32_small by lia.
  eapply kruns_bind.
  - apply (lapicr_ok s0 (put_reg R i v) (put_ipi R I i v)); [|by left].
    split; [eexists; cbn; rewrite ?Hb; reflexivity|]. split; [done|]. cbn. split.
    + intros x Hx. rewrite lapic_put by done. unfold put_reg. by destruct (x =? i); [|apply HR].
    + rewrite lapic_send by done. unfold put_ipi. rewrite HI, HR by by_list. done.
  - intros v' s2 [_ H2]. by apply kruns_ret.
Qed.

Lemma wait_delivery_ok n : forall s0 R I s l fuel, lapic_is s0 R I s ->
  delivered_within n (lapic_base + 4 * ICRLO) (hdev s) -> (n <= fuel)%nat ->
  kruns (wait_delivery fuel) l s (fun _ s' => lapic_is s0 R I s').
Proof.
  induction n as [|n IH]; intros s0 R I s l fuel Hs Hd Hf; [done|]. destruct fuel as [|f]; [lia|]. cbn [wait_delivery delivered_within] in *.
  pose proof Hs as ([d ->] & Hb & HR & HI). cbn in HR, HI, Hd.
  destruct (lapic_keep ICRLO d ltac:(tauto)) as [Hk1 Hk2]. destruct (mread (lapic_base + 4 * ICRLO) d) as [v d'] eqn:E. cbn in Hk1, Hk2.
  assert (H1 : lapic_is s0 R I (s0 <| hdev := d' |>)).
  { split; [eexists; cbn; rewrite ?Hb; reflexivity|]. split; [done|]. cbn. split; [|by rewrite Hk2]. intros x Hx. by rewrite Hk1, HR. }
  apply (kruns_bind _ _ _ _ (fun w s' => w = v /\ s' = s0 <| hdev := d' |>)).
  - unfold lapicr, mr, kruns. kunfold. cbn. rewrite Hb, E. by eexists v, _.
  - intros w s' [-> ->]. destruct Hd as [Hv|[Hv Hd]].
    + rewrite Hv. cbn. by apply kruns_ret.
    + unfold nz. rewrite (proj2 (Z.eqb_neq _ _) Hv). cbn. apply (IH s0 R I); [done|done|lia].
Qed.

(** A write that may be left out. *)
Lemma lapicw_maybe s0 R I s l (c : bool) i v : lapic_is s0 R I s -> i ∈ lapic_used -> i <> ICRLO -> 0 <= v < 2 ^ 32 ->
  kruns (if c then lapicw i v else mret tt) l s
    (fun _ s' => exists R', lapic_is s0 R' I s' /\ forall x, x <> i -> R' x = R x).
Proof.
  intros Hs Hi Hne Hv. destruct c; [|apply kruns_ret; by exists R].
  eapply kruns_weaken; [by apply (lapicw_ok s0 R I)|]. intros [] s1 H1. exists (put_reg R i v). unfold put_ipi in H1.
  rewrite (proj2 (Z.eqb_neq _ _) Hne) in H1. split; [done|]. intros x Hx. unfold put_reg.
  by rewrite (proj2 (Z.eqb_neq _ _) Hx).
Qed.

(** One step of a run of [lapicw]s. *)
Ltac lapic_step H :=
  eapply kruns_bind; [eapply lapicw_ok; [exact H|by_list|vm_compute; split; congruence]|];
  clear H; intros [] ? H; cbv beta in H.

(** What [lapicinit] leaves in the registers. *)
Definition lapic_setup : list (Z * Z) :=
  [(SVR, 0x13f); (TDCR, 0xb); (TIMER, 0x20020); (TICR, 10000000); (LINT0, 0x10000); (LINT1, 0x10000);
   (ERROR, 51); (TPR, 0)].

(** [lapicinit] returns with the controller enabled, its timer periodic on the
    vector of the clock interrupt, the external lines closed, no priority
    masked, and one message sent that synchronises all processors. *)
Theorem lapicinit_sets_up fuel l s (Hb : lapic s = lapic_base) (Hf : (lapic_patience <= fuel)%nat) :
  exists s', lapicinit fuel l s = Ok tt l s' /\ (exists d, s' = s <| hdev := d |>) /\
    (forall r v, (r, v) ∈ lapic_setup -> lregs (hdev s') r = v) /\
    ipis (hdev s') = ipis (hdev s) ++ [(0, 0x88500)].
Proof.
  assert (H : lapic_is s (lregs (hdev s)) (ipis (hdev s)) s) by (split; [exists (hdev s); by destruct s|done]).
  assert (kruns (lapicinit fuel) l s (fun _ s' => exists R, lapic_is s R (ipis (hdev s) ++ [(0, 0x88500)]) s' /\
    forall r v, (r, v) ∈ lapic_setup -> R r = v)) as ([] & s' & Hr & R & (Hs' & _ & HR & HI) & Hset).
  2: { exists s'. split; [done|]. split; [done|]. split; [|done]. intros r v Hin. rewrite HR; [by apply Hset|].
       assert (Hv : Forall (fun x => x.1 ∉ volatile) lapic_setup) by (repeat (constructor; [by_list|]); constructor).
       rewrite Forall_forall in Hv. by apply (Hv (r, v)). }
  unfold lapicinit. eapply kruns_bind; [apply kruns_gets|]. intros p s1 [-> ->]. rewrite Hb.
  rewrite (proj2 (Z.eqb_neq _ _) lapic_there). do 6 lapic_step H.
  eapply kruns_bind; [eapply lapicr_ok; [exact H|by right]|]. clear H. intros v s1 [_ H].
  eapply kruns_bind; [apply (lapicw_maybe s _ _ _ _ _ _ _ H); [by_list|done|vm_compute; split; congruence]|].
  clear H. intros [] s2 (R & H & HR). cbv beta in H. unfold put_ipi in H. cbn [Z.eqb] in H.
  do 6 lapic_step H.
  eapply kruns_bind; [eapply wait_delivery_ok; [exact H|apply lapic_delivers|exact Hf]|]. clear H. intros [] s9 H. cbv beta in H.
  eapply kruns_weaken; [eapply lapicw_ok; [exact H|by_list|lia]|]. intros [] s10 H10. eexists. split; [exact H10|].
  intros r w Hin. unfold lapic_setup in Hin. rewrite !elem_of_cons, elem_of_nil in Hin.
  destruct Hin as [[= -> ->]|[[= -> ->]|[[= -> ->]|[[= -> ->]|[[= -> ->]|[[= -> ->]|[[= -> ->]|[[= -> ->]|[]]]]]]]]]; try done;
    (match goal with |- _ ?r = _ => transitivity (R r); [reflexivity|by rewrite HR] end).
Qed.

Lemma out_ok s0 R I s l p v : lapic_is s0 R I s -> kruns (out p v) l s (fun _ s' => lapic_is s0 R I s').
Proof.
  intros ([d ->] & Hb & HR & HI). cbn in HR, HI. eexists tt, _. split; [reflexivity|]. cbn.
  destruct (lapic_port p (u8 v) d) as [Hk1 Hk2].
  split; [eexists; reflexivity|]. split; [done|]. cbn. split; [|by rewrite Hk2]. intros x Hx. by rewrite Hk1, HR.
Qed.

(** The messages that start the processor [id] at page [page], in order. *)
Definition startup_messages (id page : Z) : list (Z * Z) :=
  let dest := id * 2 ^ 24 in
  [(dest, Z.lor (Z.lor INIT LEVEL) ASSERT); (dest, Z.lor INIT LEVEL); (dest, STARTUP + page); (dest, STARTUP + page)].

Lemma lor_startup page : 0 <= page < 256 -> Z.lor STARTUP page = STARTUP + page.
Proof.
  intros Hp. rewrite <- Z.lxor_lor, <- Z.add_nocarry_lxor; try done;
    (replace page with (page mod 2 ^ 8) by (apply Z.mod_small; lia);
     apply Z.bits_inj; intros n; rewrite Z.land_spec, Z.bits_0;
     destruct (decide (n < 8)); [|by rewrite Z.mod_pow2_bits_high, andb_false_r by lia];
     change STARTUP with (6 * 2 ^ 8); by rewrite Z.mul_pow2_bits_low by lia).
Qed.

(** The warm reset vector set to the code at [addr]. *)
Definition wrv_set (addr : Z) (s : hw D) : hw D :=
  s <| hmem ::= fun m => store16 (store16 m (P2V 0x467) 0) (P2V 0x467 + 2) (Z.shiftr addr 4) |>.

Lemma wrv_set_is addr s0 R I s : lapic_is s0 R I s -> lapic_is (wrv_set addr s0) R I (wrv_set addr s).
Proof. intros ([d ->] & Hb & HR & HI). split; [eexists; reflexivity|done]. Qed.

(** A write of a value whose range is known. *)
Ltac lapic_last H := eapply lapicw_ok; [exact H|by_list|first [assumption|vm_compute; split; congruence]].
Ltac lapic_do H := eapply kruns_bind; [lapic_last H|]; clear H; intros [] ? H; cbv beta in H.

(** [lapicstartap] sends the processor the sequence of Intel's manual, with the
    page of the code, and leaves the address of the code, as segment and offset,
    in the warm reset vector. *)
Theorem lapicstartap_starts id addr l s (Hb : lapic s = lapic_base) (Hid : 0 <= id < 256)
    (Haddr : 0 <= addr < 2 ^ 20) (Hpage : addr mod 4096 = 0) :
  exists s', lapicstartap id addr l s = Ok tt l s' /\
    ipis (hdev s') = ipis (hdev s) ++ startup_messages id (addr / 4096) /\
    load16 (hmem s') (P2V 0x467 + 2) * 16 + load16 (hmem s') (P2V 0x467) = addr.
Proof.
  assert (H : lapic_is s (lregs (hdev s)) (ipis (hdev s)) s) by (split; [exists (hdev s); by destruct s|done]).
  assert (Hd : Z.shiftl id 24 = id * 2 ^ 24) by (by rewrite Z.shiftl_mul_pow2 by lia).
  assert (Hs : Z.lor STARTUP (Z.shiftr addr 12) = STARTUP + addr / 4096).
  { rewrite Z.shiftr_div_pow2 by lia. apply lor_startup. change (2 ^ 12) with 4096. dlia. }
  assert (Hv : 0 <= STARTUP + addr / 4096 < 2 ^ 32) by (unfold STARTUP; dlia).
  assert (Hw : 0 <= id * 2 ^ 24 < 2 ^ 32) by lia.
  assert (kruns (lapicstartap id addr) l s (fun _ s' => exists R, lapic_is (wrv_set addr s) R
    (ipis (hdev s) ++ startup_messages id (addr / 4096)) s')) as ([] & s' & Hr & R & ([d ->] & _ & _ & HI)).
  2: { eexists. split; [exact Hr|]. split; [exact HI|]. cbn.
       rewrite load16_store16_eq, (load16_same (store16 (hmem s) (P2V 0x467) 0)), load16_store16_eq
         by (intros x Hx; apply store16_out; lia).
       rewrite Z.shiftr_div_pow2 by lia. unfold u16. dlia. }
  unfold lapicstartap, send_startup. cbv zeta. rewrite Hs, Hd.
  eapply kruns_bind; [by eapply out_ok|]. clear H. intros [] s1 H. cbv beta in H.
  eapply kruns_bind; [by eapply out_ok|]. clear H. intros [] s2 H. cbv beta in H.
  eapply kruns_bind; [apply kruns_modify|]. intros [] s3 ->. eapply kruns_bind; [apply kruns_modify|]. intros [] s4 ->.
  apply (wrv_set_is addr) in H.
  do 3 lapic_do H. cbn [kiter].
  eapply kruns_bind; [lapic_do H; lapic_last H|]. clear H. intros [] s5 H. cbv beta in H.
  eapply kruns_bind; [lapic_do H; lapic_last H|]. clear H. intros [] s6 H. cbv beta in H.
  apply kruns_ret. eexists. unfold put_ipi in H.
  change (ICRHI =? ICRLO) with false in H. change (ICRLO =? ICRLO) with true in H. cbv iota in H.
  rewrite <- !app_assoc in H. exact H.
Qed.

End lapic.

(** *** The clock *)

Section clock.
Context {D : Type} `{!Ports D} `{!Cmos D}.

(** The clock shows [R] for the next [n] reads. *)
Definition clock_is (R : Z -> Z) (n : nat) (s : hw D) : Prop :=
  still n (hdev s) /\ forall x, cmos (hdev s) x = R x.

Lemma cmos_read_ok R n l s r : clock_is R (S n) s -> 0 <= r < 256 ->
  kruns (cmos_read r) l s (fun v s' => v = R r /\ clock_is R n s').
Proof.
  intros [Hs HR] Hr. destruct (Hs r) as [Hk Hs']. pose proof (cmos_get r (hdev s)) as Hv.
  unfold cmos_read, out, inp, kruns. kunfold. cbn. rewrite u8_small by lia. fold CMOS_PORT in *.
  destruct (inb CMOS_RETURN (outb CMOS_PORT r (hdev s))) as [v d]. cbn in *. eexists v, _. split; [reflexivity|].
  split; [by rewrite Hv|]. split; [done|]. intros x. cbn. by rewrite Hk.
Qed.

Definition shown (R : Z -> Z) : rtcdate := mkDate (R 0) (R 2) (R 4) (R 7) (R 8) (R 9).

Lemma fill_ok R n l s : clock_is R (6 + n) s -> kruns fill_rtcdate l s (fun t s' => t = shown R /\ clock_is R n s').
Proof.
  intros H. unfold fill_rtcdate.
  do 6 (eapply kruns_bind; [eapply cmos_read_ok; [exact H|lia]|]; clear H; intros ? ? [-> H]).
  by apply kruns_ret.
Qed.

(** A number below 100 as two decimal digits. *)
Definition bcd (n : Z) : Z := 16 * (n / 10) + n mod 10.

Lemma conv_bcd n : 0 <= n < 100 -> conv (bcd n) = n.
Proof.
  intros Hn. unfold conv, bcd. rewrite Z.shiftr_div_pow2 by lia. change 0xf with (Z.ones 4). rewrite Z.land_ones by lia.
  change (2 ^ 4) with 16. rewrite u32_small; dlia.
Qed.

(** [cmostime] returns the date that the clock shows, whether the clock counts
    in binary or in decimal digits. *)
Theorem cmostime_reads f l s t (Hstill : still 14 (hdev s))
    (Ht : Forall (fun x => 0 <= x < 100) [second t; minute t; hour t; day t; month t; year t])
    (Hcmos : shown (cmos (hdev s)) =
       if Z.land (cmos (hdev s) CMOS_STATB) 4 =? 0
       then mkDate (bcd (second t)) (bcd (minute t)) (bcd (hour t)) (bcd (day t)) (bcd (month t)) (bcd (year t)) else t)
    (Huip : Z.land (cmos (hdev s) CMOS_STATA) CMOS_UIP = 0) :
  exists s', cmostime (S f) l s = Ok (t <| year ::= Z.add 2000 |>) l s'.
Proof.
  set (R := cmos (hdev s)) in *. assert (H : clock_is R 14 s) by done.
  assert (kruns (cmostime (S f)) l s (fun a _ => a = t <| year ::= Z.add 2000 |>)) as (a & s' & Hr & ->); [|by exists s'].
  unfold cmostime. eapply kruns_bind; [apply (cmos_read_ok R 13); [exact H|done]|]. clear H. intros v s1 [-> H].
  apply (kruns_bind _ _ _ _ (fun a _ => a = shown R)).
  - cbn [read_clock]. eapply kruns_bind; [apply (fill_ok R 7); exact H|]. clear H. intros t1 s2 [-> H].
    eapply kruns_bind; [apply (cmos_read_ok R 6); [exact H|done]|]. clear H. intros v s3 [-> H]. rewrite Huip. cbn [nz negb Z.eqb].
    eapply kruns_bind; [apply (fill_ok R 0); exact H|]. clear H. intros t2 s4 [-> H]. rewrite decide_True by done. by apply kruns_ret.
  - intros t1 s2 ->. apply kruns_ret. rewrite Hcmos. change (Z.shiftl 1 2) with 4. rewrite !Forall_cons in Ht.
    destruct t as [a b c d e g]. cbn in *. destruct Ht as (Ha & Hb & Hc & Hd & He & Hg & _).
    destruct (Z.land (R CMOS_STATB) 4 =? 0); cbn; rewrite ?conv_bcd by done; rewrite u32_small by lia; f_equal; lia.
Qed.

End clock.

(** *** A machine with these chips *)

Record pc := mkPc { pc_sel : Z; pc_io : Z -> Z; pc_l : Z -> Z; pc_ipis : list (Z * Z); pc_csel : Z; pc_cmos : Z -> Z }.
#[export] Instance eta_pc : Eta pc := fun c =>
  mkPc c.(pc_sel) c.(pc_io) c.(pc_l) c.(pc_ipis) c.(pc_csel) c.(pc_cmos).

Definition pc_base : Z := 0xFEE00000.

#[export] Instance pc_ports : Ports pc := {|
  inb p c := if p =? CMOS_RETURN then (pc_cmos c (pc_csel c), c) else (0xff, c);
  outb p v c := if p =? CMOS_PORT then c <| pc_csel := v |>
                else if p =? CMOS_RETURN then c <| pc_cmos ::= fun f => put_reg f (pc_csel c) v |> else c;
  inl _ c := (0, c); outl _ _ c := c |}.

#[export] Instance pc_mmio : Mmio pc := {|
  mread a c := if a =? IOAPIC + 16 then (pc_io c (pc_sel c), c)
               else let i := (a - pc_base) / 4 in (if i =? ICRLO then 0 else pc_l c i, c);
  mwrite a v c := if a =? IOAPIC then c <| pc_sel := v |>
                  else if a =? IOAPIC + 16 then c <| pc_io ::= fun f => put_reg f (pc_sel c) v |>
                  else let i := (a - pc_base) / 4 in
                    c <| pc_l ::= fun f => put_reg f i v |>
                      <| pc_ipis ::= fun l => put_ipi (pc_l c) l i v |> |}.

#[export] Instance pc_ioapic : IoApicChip pc.
Proof. by refine {| io_regs := pc_io |}. Defined.

Lemma pc_index i : 0 <= i -> (pc_base + 4 * i - pc_base) / 4 = i /\
  (pc_base + 4 * i =? IOAPIC) = false /\ (pc_base + 4 * i =? IOAPIC + 16) = false.
Proof.
  intros Hi. split; [|unfold pc_base, IOAPIC; split; apply Z.eqb_neq; lia].
  replace (pc_base + 4 * i - pc_base) with (i * 4) by lia. by apply Z.div_mul.
Qed.

Lemma lapic_used_pos i : i ∈ lapic_used -> 0 <= i.
Proof.
  assert (H : Forall (fun i => 0 <= i) lapic_used) by (repeat (constructor; [done|]); constructor).
  rewrite Forall_forall in H. apply H.
Qed.

#[export] Instance pc_lapic : LapicChip pc.
Proof.
  refine {| lapic_base := pc_base; lregs := pc_l; ipis := pc_ipis; lapic_patience := 1%nat |}.
  - done.
  - intros i v d x Hi%lapic_used_pos Hx. cbn -[pc_base IOAPIC]. destruct (pc_index i Hi) as (-> & -> & ->). done.
  - intros i v d Hi%lapic_used_pos. cbn -[pc_base IOAPIC]. destruct (pc_index i Hi) as (-> & -> & ->). done.
  - intros i d Hi. cbn -[pc_base IOAPIC]. destruct (pc_index i) as (-> & _ & ->); [by destruct Hi as [-> | ->]|].
    by destruct Hi as [-> | ->].
  - intros i d Hi. cbn -[pc_base IOAPIC]. by destruct (_ =? _).
  - intros p v d. cbn. destruct (p =? CMOS_PORT); [done|]. by destruct (p =? CMOS_RETURN).
  - intros d. cbn -[pc_base IOAPIC ICRLO]. destruct (pc_index ICRLO) as (-> & _ & ->); [done|]. rewrite Z.eqb_refl. by left.
Defined.

#[export] Instance pc_clock : Cmos pc.
Proof. by refine {| cmos := pc_cmos |}. Defined.

Lemma pc_still n (d : pc) : still n d.
Proof. revert d. induction n as [|n IH]; intros d; [done|]. intros r. split; [done|apply IH]. Qed.

(** 24 lines, and the clock at 23:59:58 on 31 December 2021. *)
Definition ex_pc : pc :=
  mkPc 0 (fun r => if r =? 1 then 0x170011 else 0) (fun _ => 0) [] 0
    (fun r => if r =? 0 then 0x58 else if r =? 2 then 0x59 else if r =? 4 then 0x23 else if r =? 7 then 0x31
              else if r =? 8 then 0x12 else if r =? 9 then 0x21 else 0).
Definition ex_machine : hw pc := mkHw (fun _ => 0) (replicate 8 0) 1 0 pc_base 0 (mkCst demo_console (Proc.machine [Proc.runner])) ex_pc.

(** The lines of the keyboard, the serial port and the disk. *)
Lemma ioapic_routes_witness : exists s',
  (ioapicinit ;; kiter (fun '(irq, c) => ioapicenable irq c) [(1, 0); (4, 0); (14, 1)]) [] ex_machine = Ok tt [] s' /\
  line (io_regs (hdev s')) 14 = (46, 0x1000000) /\ line (io_regs (hdev s')) 5 = (0x10025, 0).
Proof.
  destruct (ioapic_routes [(1, 0); (4, 0); (14, 1)] [] ex_machine) as (s' & R & _ & Hl).
  - done.
  - done.
  - repeat (constructor; [cbn; lia|]). constructor.
  - exists s'. split; [exact R|]. split; (rewrite Hl; [vm_compute; reflexivity|vm_compute; split; congruence]).
Defined.

Lemma cmostime_reads_witness : exists s', cmostime 1 [] ex_machine = Ok (mkDate 58 59 23 31 12 2021) [] s'.
Proof.
  apply (cmostime_reads 0 [] ex_machine (mkDate 58 59 23 31 12 21)); [apply pc_still| |done|done].
  repeat (constructor; [cbn; lia|]). constructor.
Defined.

Lemma lapicstartap_starts_witness : exists s', lapicstartap 1 0x7000 [] ex_machine = Ok tt [] s' /\
  ipis (hdev s') = startup_messages 1 7.
Proof.
  destruct (lapicstartap_starts 1 0x7000 [] ex_machine) as (s' & R & H & _); [done|lia|lia|done|].
  exists s'. split; [exact R|exact H].
Defined.

End Apic.
