(* ===== verification/Start.v ===== *)
(** The start of the kernel (main.c), [uartinit] of uart.c, [panic] of console.c,
    [mycpu] of proc.c over the real local APIC, [ideinit] of memide.c, and the
    loading of descriptor tables (x86.h).

    The state [kernel] has the data of all components.  The part that the drivers
    of Mp.v and Apic.v see is [khw]: it takes the memory and the console from the
    kernel's own data.  [initlock] leaves a lock free, as all are in the list of
    held locks.  [main] ends where the processor enters [scheduler]. *)

From stdpp Require Import base numbers list sets strings.
From Stdlib Require Import ZArith Lia.
From S2P Require Import Prelude Mem CString Mmu Seg Kalloc Vm Param Printf Ports Proc Sched.
From S2P Require Import Syscall Spinlock Sleeplock Pipe Console Bio Log Inode Fs File ProcLife Trap Mp Apic.
Import CString Mmu Seg Kalloc Vm Param Printf Ports Proc Sched Console Bio Log Inode Fs File ProcLife Trap Mp Apic.

Module Start.

(** What mp.c, lapic.c and ioapic.c keep, and the devices. *)
Record board (D : Type) := mkBoard {
  bapicids : list Z; bncpu : Z; bioapicid : Z; blapic : Z; bioapic : Z; bdev : D }.
Arguments mkBoard {D}.
Arguments bapicids {D}.
Arguments bncpu {D}.
Arguments bioapicid {D}.
Arguments blapic {D}.
Arguments bioapic {D}.
Arguments bdev {D}.
#[export] Instance eta_board D : Eta (board D) := fun b =>
  mkBoard b.(bapicids) b.(bncpu) b.(bioapicid) b.(blapic) b.(bioapic) b.(bdev).

Record kernel (D : Type) := mkKernel {
  kf : filest;
  kboard : board D;
  idt : list gatedesc;
  idtr : list Z;               (* what [lidt] loaded *)
  started : list Z }.          (* cpus[i].started *)
Arguments mkKernel {D}.
Arguments kf {D}.
Arguments kboard {D}.
Arguments idt {D}.
Arguments idtr {D}.
Arguments started {D}.
#[export] Instance eta_kernel D : Eta (kernel D) := fun s =>
  mkKernel s.(kf) s.(kboard) s.(idt) s.(idtr) s.(started).

Definition kpk {D} (s : kernel D) : pstate := fpk (kf s).
#[export] Instance setter_kpk D : Setter (@kpk D) := fun f s => s <| kf ::= fun x => x <| fpk ::= f |> |>.

Definition khw {D} (s : kernel D) : hw D :=
  let b := kboard s in
  mkHw (kmemory (pkmem (kpk s))) (bapicids b) (bncpu b) (bioapicid b) (blapic b) (bioapic b)
    (fcst (fs (kf s))) (bdev b).
#[export] Instance setter_khw D : Setter (@khw D) := fun f s =>
  let h := f (khw s) in
  s <| kboard := mkBoard (apicids h) (ncpu h) (ioapicid h) (lapic h) (ioapic h) (hdev h) |>
    <| kf ::= fun x => x <| fs ::= fun y => y <| fcst := hcon h |> |> |>
    <| kpk ::= fun p => p <| pkmem ::= fun k => k <| kmemory := hmem h |> |> |>.

(** *** x86.h *)

(** The six bytes that [lgdt] and [lidt] load: the size less 1, and the address. *)
Definition pseudo_desc (p size : Z) : list Z := [u16 (size - 1); u16 p; u16 (Z.shiftr p 16)].

(** *** entrypgdir *)

Definition PTE_PS : Z := 0x080.
Definition entrypgdir : list Z :=
  <[Z.to_nat (Z.shiftr KERNBASE PDXSHIFT) := Z.lor (Z.lor PTE_P PTE_W) PTE_PS]>
    (<[0%nat := Z.lor (Z.lor PTE_P PTE_W) PTE_PS]> (replicate (Z.to_nat NPDENTRIES) 0)).

Section start.
Context {D : Type} `{!Ports D} `{!Mmio D}.

(** *** uart.c *)

Definition COM1 : Z := 0x3f8.

Definition uartinit : K (hw D) unit :=
  out (COM1 + 2) 0 ;;
  out (COM1 + 3) 0x80 ;;
  out (COM1 + 0) (115200 / 9600) ;;
  out (COM1 + 1) 0 ;;
  out (COM1 + 3) 0x03 ;;
  out (COM1 + 4) 0 ;;
  out (COM1 + 1) 0x01 ;;
  x ← inp (COM1 + 5);
  if x =? 0xFF then mret tt else
  zoom hcon (upd_cons (fun c => c <| uart := 1 |>)) ;;
  inp (COM1 + 2) ;;
  inp (COM1 + 0) ;;
  ioapicenable IRQ_COM1 0 ;;
  kiter (fun c => zoom hcon (uartputc c)) (lit "xv6..." ++ [10]).

(** *** panic *)

(** What [panic] does before it loops forever; [argp] is the address of its
    argument on the stack. *)
Definition panic_body (argp : Z) (msg : list Z) : K (hw D) unit :=
  zoom hcon (upd_cons (fun c => c <| locking := 0 |>)) ;;
  id ← lapicid;
  zoom hcon (cprintf (lit "lapicid %d: panic: ") [id] (fun _ => [])) ;;
  zoom hcon (cprintf msg [] (fun _ => [])) ;;
  zoom hcon (cprintf [10] [] (fun _ => [])) ;;
  m ← gets hmem;
  kiter (fun pc => zoom hcon (cprintf (lit " %p") [pc] (fun _ => []))) (Spinlock.getcallerpcs m argp) ;;
  zoom hcon (upd_cons (fun c => c <| panicked := 1 |>)).

(** *** mycpu *)

(** The loop over [cpus], on their ids. *)
Fixpoint find_id (ids : list Z) (id : Z) (i : nat) : option nat :=
  match ids with
  | [] => None
  | x :: r => if x =? id then Some i else find_id r id (S i)
  end.

(** Interrupts are off from the first instruction of a processor until it enters
    the scheduler. *)
Definition mycpu : K (hw D) nat :=
  id ← lapicid;
  ids ← gets apicids;
  n ← gets ncpu;
  match find_id (take (Z.to_nat n) ids) id 0 with
  | Some i => mret i
  | None => panic "unknown apicid"
  end.

(** *** memide.c *)

(** [img] are the blocks of the image linked into the kernel, [size] its bytes. *)
Definition ideinit (img : Z -> block) (size : Z) : K bst unit :=
  modify (fun s => s <| disk := img |> <| disksize := i32 (u32 size / BSIZE) |>).

(** *** main.c *)

(** As in ProcLife.v; [fuel] bounds the loops over pages, [polls] those that wait
    for the local APIC, the firmware's table or another processor.  [mpenter_addr],
    [entrypgdir_addr], [idt_addr] and [vectors] are addresses of code and
    data; [others] is what the other processors do to the state while this one waits. *)
Variables (kend data trapret forkret_addr : Z) (lock_addr ilock_addr : nat -> Z) (input_r : Z)
  (fuel polls : nat) (mpenter_addr entrypgdir_addr idt_addr : Z) (vectors : Z -> Z)
  (others : kernel D -> kernel D).

Definition consoleinit : K (kernel D) unit :=
  zoom kf (zoom fs Fs.consoleinit) ;;
  zoom khw (ioapicenable IRQ_KBD 0).

Definition idtinit : K (kernel D) unit := modify (fun s => s <| idtr := pseudo_desc idt_addr (256 * 8) |>).

(** [while (c->started == 0);] *)
Fixpoint wait_started (n : nat) (c : Z) : K (kernel D) unit :=
  match n with
  | O => fault "out of fuel"
  | S n' =>
      l ← gets started;
      x ← deref "started" (aget l c);
      if x =? 0 then modify others ;; wait_started n' c else mret tt
  end.

Definition kstore (a v : Z) : K (kernel D) unit :=
  modify (fun s => s <| kpk ::= fun p => p <| pkmem ::= fun k => k <| kmemory ::= fun m => store32 m a v |> |> |>).

Definition entry_code : Z := P2V 0x7000.

(** The body of the loop of [startothers] on [cpus + c]. *)
Definition startother (c : Z) : K (kernel D) unit :=
  me ← zoom khw mycpu;
  if c =? Z.of_nat me then mret tt else
  stack ← zoom kpk (zoom pkmem kalloc);
  kstore (entry_code - 4) (stack + KSTACKSIZE) ;;
  kstore (entry_code - 8) mpenter_addr ;;
  kstore (entry_code - 12) (V2P entrypgdir_addr) ;;
  ids ← gets (fun s => bapicids (kboard s));
  id ← deref "cpus" (aget ids c);
  zoom khw (lapicstartap id (V2P entry_code)) ;;
  wait_started polls c.

(** [code], [size]: the image of entryother.S linked into the kernel. *)
Definition startothers (code size : Z) : K (kernel D) unit :=
  modify (fun s => s <| kpk ::= fun p => p <| pkmem ::= fun k => k <| kmemory ::= fun m => memmove m entry_code code size |> |> |>) ;;
  n ← gets (fun s => bncpu (kboard s));
  kiter startother (seqZ 0 n).

(** Up to the call of [scheduler]; [cpuid] is the index that [mycpu] finds. *)
Definition mpmain : K (kernel D) unit :=
  c1 ← zoom khw mycpu;
  c2 ← zoom khw mycpu;
  zoom khw (zoom hcon (cprintf (lit "cpu%d: starting %d" ++ [10]) [Z.of_nat c1; Z.of_nat c2] (fun _ => []))) ;;
  idtinit ;;
  c ← zoom khw mycpu;
  l ← gets started;
  l ← deref "cpus" (aset l (Z.of_nat c) 1);
  modify (fun s => s <| started := l |>).

Definition mpenter : K (kernel D) unit :=
  zoom kpk switchkvm ;;
  zoom kpk seginit ;;
  zoom khw (lapicinit polls) ;;
  mpmain.

(** [code], [csize]: entryother.S; [init], [isize]: initcode.S; [img], [dsize]: the
    disk image. *)
Definition main (code csize init isize : Z) (img : Z -> block) (dsize : Z) : K (kernel D) unit :=
  zoom kpk (zoom pkmem (kinit1 kend kend (P2V (4 * 1024 * 1024)) fuel)) ;;
  zoom kpk (kvmalloc kend data fuel) ;;
  zoom khw (mpinit polls) ;;
  zoom khw (lapicinit polls) ;;
  zoom kpk seginit ;;
  zoom khw picinit ;;
  zoom khw ioapicinit ;;
  consoleinit ;;
  zoom khw uartinit ;;
  modify (fun s => s <| idt := tvinit vectors |>) ;;
  zoom kf (zoom fs (zoom fl (zoom lb binit))) ;;
  zoom kf (zoom fs (zoom fl (zoom lb (ideinit img dsize)))) ;;
  startothers code csize ;;
  zoom kpk (zoom pkmem (kinit2 kend (P2V (4 * 1024 * 1024)) (P2V PHYSTOP) fuel)) ;;
  zoom kf (zoom fs (userinit kend data trapret forkret_addr lock_addr ilock_addr input_r fuel init isize)) ;;
  mpmain.

End start.

End Start.
