(* ===== verification/StartSpec.v ===== *)
(** [panic] tells what happened whatever locks are held and stops every processor that
    prints; what the first page table maps; and that the drivers which [main] sets up
    return and touch nothing but their devices and the console. *)

From stdpp Require Import base numbers list sets strings.
From Stdlib Require Import ZArith Lia.
From S2P Require Import Prelude Mem CString Mmu Seg Kalloc Vm VmSpec CopySpec Param Printf Ports Proc Sched.
From S2P Require Import Syscall Spinlock Sleeplock Pipe Console Bio BioSpec Log LogSpec LogCrash Inode Fs FsSpec DirSpec.
From S2P Require Import File ProcLife Exec Sysfile Trap LifeSpec ForkSpec Mp Apic Start.
Import CString Mmu Seg Kalloc Vm VmSpec CopySpec Param Printf Ports Proc Sched Console Bio BioSpec Log LogCrash Inode Fs FsSpec DirSpec File ProcLife Trap LifeSpec ForkSpec Mp Apic Start.

Module StartSpec.

(** *** panic *)

(** A message without [%]. *)
Lemma cprintf_plain ap str msg k : 37 ∉ msg -> cprintf_loop ap str msg k = Some msg.
Proof.
  revert k. induction msg as [|c r IH]; intros k Hm; [done|]. apply not_elem_of_cons in Hm as [Hc Hr].
  cbn [cprintf_loop]. unfold pct. rewrite (proj2 (Z.eqb_neq c 37)) by (intros ->; done). cbn [negb]. by rewrite IH.
Qed.

Lemma sent_bytes l : bytes l -> concat (map sent l) = l.
Proof.
  induction 1 as [|c l Hc _ IH]; [done|]. cbn [map concat]. rewrite IH. unfold sent, BACKSPACE.
  rewrite (proj2 (Z.eqb_neq _ _)) by lia. by rewrite u8_small.
Qed.

(** Printing when the console is not locking needs no lock. *)
Lemma cprintf_free fmt args str L s :
  cons_ok (cn s) -> locking (cn s) = 0 -> bytes fmt -> (forall p, bytes (str p)) ->
  exists o s', cprintf fmt args str L s = Ok tt L s' /\ wrote o s s' /\
    cprintf_chars (fun k => nth k args 0) str fmt = Some o.
Proof.
  intros Hok Hk Hf Hs. pose proof (cprintf_renders (fun k => nth k args 0) str fmt) as R. unfold cprintf_chars in R.
  set (cs := render _ _ _ _ _) in R.
  assert (Hb : bytes cs) by (by eapply cprintf_bytes).
  assert (Hcs : Forall is_char cs) by (eapply Forall_impl; [exact Hb|intros c Hc; by left]).
  destruct (kiter_consputc_ok cs L s Hok Hcs) as (s' & R' & W). rewrite sent_bytes in W by done.
  exists cs, s'. split; [|done]. unfold cprintf. kstep. rewrite Hk. cbn [nz Z.eqb negb].
  erewrite bind_Ok by done. erewrite bind_Ok by (unfold cprintf_chars; by rewrite R).
  by erewrite bind_Ok by exact R'.
Qed.

Section panic.
Context {D : Type} `{!Ports D} `{!Mmio D}.

(** The console has printed [o] without locking; the devices may have changed. *)
Definition said (o : list Z) (s s' : hw D) : Prop :=
  wrote o (hcon s) (hcon s') /\ locking (cn (hcon s')) = 0 /\ hmem s' = hmem s.

Lemma said_trans o1 o2 s1 s2 s3 : said o1 s1 s2 -> said o2 s2 s3 -> said (o1 ++ o2) s1 s3.
Proof.
  intros (W1 & _ & M1) (W2 & K2 & M2). split; [by eapply wrote_trans|]. split; [done|congruence].
Qed.

Lemma print_said fmt args L s : cons_ok (cn (hcon s)) -> locking (cn (hcon s)) = 0 -> bytes fmt ->
  exists o s', zoom hcon (cprintf fmt args (fun _ => [])) L s = Ok tt L s' /\ said o s s' /\
    cprintf_chars (fun k => nth k args 0) (fun _ => []) fmt = Some o.
Proof.
  intros Hok Hk Hf. destruct (cprintf_free fmt args (fun _ => []) L (hcon s) Hok Hk Hf) as (o & c & R & W & E); [done|].
  exists o. eexists. split; [by apply zoom_Ok|]. split; [|done]. split; [done|]. split; [|done]. cbn.
  rewrite (wr_same _ _ _ W). cbn. done.
Qed.

(** The return addresses at the end of a panic. *)
Lemma print_pcs pcs L : forall s, cons_ok (cn (hcon s)) -> locking (cn (hcon s)) = 0 ->
  exists o s', kiter (fun pc => zoom hcon (cprintf (lit " %p") [pc] (fun _ => []))) pcs L s = Ok tt L s' /\ said o s s'.
Proof.
  induction pcs as [|pc r IH]; intros s Hok Hk.
  { exists [], s. split; [done|]. split; [by apply wrote_nil|done]. }
  destruct (print_said (lit " %p") [pc] L s Hok Hk (lit_bytes _)) as (o1 & s1 & R1 & S1 & _).
  destruct (IH s1) as (o2 & s2 & R2 & S2); [apply S1|apply S1|]. exists (o1 ++ o2), s2. cbn [kiter].
  erewrite bind_Ok by exact R1. split; [done|]. by eapply said_trans.
Qed.

Lemma lapicid_runs L s : exists id d, lapicid L s = Ok id L (s <| hdev := d |>).
Proof.
  unfold lapicid. kstep. destruct (lapic s =? 0); [exists 0, (hdev s); by destruct s|].
  destruct (mread (lapic s + 4 * ID) (hdev s)) as [v d] eqn:E. exists (Z.shiftr v 24), d.
  assert (R : lapicr ID L s = Ok v L (s <| hdev := d |>)) by (unfold lapicr, mr; kstep; by rewrite E).
  by erewrite bind_Ok by exact R.
Qed.

(** [panic] prints the number of the processor, the message and a trace, also when the
    console's lock is held, and from then on every processor that prints anything
    stops. *)
Theorem panic_stops argp msg L (s : hw D) (Hok : cons_ok (cn (hcon s))) (Hb : bytes msg) (Hm : 37 ∉ msg) :
  exists a b s', panic_body argp msg L s = Ok tt L s' /\
    serial (cn (hcon s')) = serial (cn (hcon s)) ++ (if uart (cn (hcon s)) =? 0 then [] else a ++ msg ++ [10] ++ b) /\
    forall c L', consputc c L' (hcon s') = Fault "halted".
Proof.
  unfold panic_body. kstep. set (s0 := s <| hcon ::= _ |>).
  destruct (lapicid_runs L s0) as (id & d & R0). erewrite bind_Ok by exact R0. set (s1 := s0 <| hdev := d |>).
  assert (Hok1 : cons_ok (cn (hcon s1))) by (destruct Hok; by split). assert (Hk1 : locking (cn (hcon s1)) = 0) by done.
  assert (E1 : serial (cn (hcon s1)) = serial (cn (hcon s)) /\ uart (cn (hcon s1)) = uart (cn (hcon s))) by done.
  clearbody s1. clear s0 R0 Hok.
  destruct (print_said (lit "lapicid %d: panic: ") [id] L s1 Hok1 Hk1 (lit_bytes _)) as (a & s2 & R2 & S2 & _).
  destruct (print_said msg [] L s2) as (o3 & s3 & R3 & S3 & Eo); [apply S2|apply S2|done|].
  unfold cprintf_chars in Eo. rewrite cprintf_plain in Eo by done. injection Eo as <-.
  destruct (print_said [10] [] L s3) as (o4 & s4 & R4 & S4 & Eo); [apply S3|apply S3|by repeat constructor|].
  unfold cprintf_chars in Eo. rewrite cprintf_plain in Eo by (by apply not_elem_of_cons; split; [|apply not_elem_of_nil]). injection Eo as <-.
  destruct (print_pcs (Spinlock.getcallerpcs (hmem s4) argp) L s4) as (b & s5 & R5 & S5); [apply S4|apply S4|].
  erewrite bind_Ok by exact R2. erewrite bind_Ok by exact R3. erewrite bind_Ok by exact R4. kstep. erewrite bind_Ok by exact R5.
  exists a, b. eexists. split; [reflexivity|]. split; [|intros c L'; unfold consputc; by kstep].
  pose proof (said_trans _ _ _ _ _ S2 (said_trans _ _ _ _ _ S3 (said_trans _ _ _ _ _ S4 S5))) as [W _].
  cbn. rewrite (wr_same _ _ _ W). cbn. destruct E1 as [-> ->]. destruct (_ =? 0); [by rewrite app_nil_r|done].
Qed.

End panic.

(** *** The first page table *)

(** What the processor makes of an address when the directory has pages of four
    megabytes. *)
Definition pse_translate (dir : list Z) (va : Z) : option Z :=
  e ← dir !! Z.to_nat (PDX va);
  if nz (Z.land e PTE_P) && nz (Z.land e PTE_PS) then Some (Z.land e 0xFFC00000 + va mod 2 ^ 22) else None.

(** [entrypgdir] maps the first four megabytes at 0 and at [KERNBASE], and nothing else. *)
Theorem entrypgdir_maps va (Hva : is_u32 va) :
  pse_translate entrypgdir va =
    if va <? 2 ^ 22 then Some va
    else if (KERNBASE <=? va) && (va <? KERNBASE + 2 ^ 22) then Some (va - KERNBASE) else None.
Proof.
  pose proof (PDX_range va) as Hr. pose proof (PDX_eq va Hva) as Ep. change (2 ^ 22) with 4194304 in *.
  assert (Hbig : entrypgdir !! Z.to_nat 0 = Some 131 /\ entrypgdir !! Z.to_nat 512 = Some 131) by done.
  assert (Hno : PDX va <> 0 -> PDX va <> 512 -> entrypgdir !! Z.to_nat (PDX va) = Some 0).
  { intros H0 H1. unfold entrypgdir. change (Z.to_nat (Z.shiftr KERNBASE PDXSHIFT)) with (Z.to_nat 512).
    rewrite !list_lookup_insert_ne by lia. apply lookup_replicate. split; [done|lia]. }
  unfold pse_translate, is_u32, KERNBASE in *. destruct (decide (PDX va = 0)) as [E|H0]; [|destruct (decide (PDX va = 512)) as [E|H1]].
  - rewrite E, (proj1 Hbig). cbn -[Z.land]. change (Z.land 131 0xFFC00000) with 0. rewrite (proj2 (Z.ltb_lt _ _)) by dlia.
    cbn. f_equal. dlia.
  - rewrite E, (proj2 Hbig). cbn -[Z.land]. change (Z.land 131 0xFFC00000) with 0. rewrite (proj2 (Z.ltb_ge _ _)) by dlia.
    rewrite (proj2 (Z.leb_le _ _)), (proj2 (Z.ltb_lt _ _)) by dlia. cbn. f_equal. dlia.
  - rewrite Hno by done. cbn. rewrite (proj2 (Z.ltb_ge va _)) by dlia.
    destruct (Z.leb_spec 0x80000000 va), (Z.ltb_spec va (0x80000000 + 4194304)); try done. dlia.
Qed.

Section quiet.
Context {D : Type} `{!Ports D} `{!Mmio D}.

(** *** What the drivers do *)

(** Only the devices, the window of the I/O APIC and the console differ. *)
Record hquiet (h h' : hw D) : Prop := {
  hq_mem : hmem h' = hmem h;
  hq_ids : apicids h' = apicids h;
  hq_ncpu : ncpu h' = ncpu h;
  hq_io : ioapicid h' = ioapicid h;
  hq_lapic : lapic h' = lapic h;
  hq_proc : ck (hcon h') = ck (hcon h);
  hq_cons : cons_ok (cn (hcon h')) }.

Lemma hquiet_trans h1 h2 h3 : hquiet h1 h2 -> hquiet h2 h3 -> hquiet h1 h3.
Proof. intros [A1 A2 A3 A4 A5 A6 _] [B1 B2 B3 B4 B5 B6 B7]. split; [by rewrite B1|by rewrite B2|by rewrite B3|by rewrite B4|by rewrite B5|by rewrite B6|done]. Qed.

(** A driver routine that ends, and does no more than that. *)
Definition safe {A} (m : K (hw D) A) (P : hw D -> Prop) : Prop := forall l h,
  cons_ok (cn (hcon h)) -> Lcons ∉ l -> P h -> kruns m l h (fun _ h' => hquiet h h').

(** Conditions that the drivers keep. *)
Class Kept (P : hw D -> Prop) := kept : forall h h', hquiet h h' -> P h -> P h'.

Lemma safe_bind {A B} (m : K (hw D) A) (f : A -> K (hw D) B) P `{!Kept P} :
  safe m P -> (forall a, safe (f a) P) -> safe (m ≫= f) P.
Proof.
  intros Hm Hf l h Hc HL HP. eapply kruns_bind; [by apply Hm|]. intros a h1 H1. cbv beta in H1.
  eapply kruns_weaken; [apply (Hf a); [apply H1|done|exact (kept h h1 H1 HP)]|]. intros b h2 H2. by eapply hquiet_trans.
Qed.

Lemma safe_ret {A} (a : A) P : safe (mret a) P.
Proof. intros l h Hc _ _. apply kruns_ret. by split. Qed.

Lemma safe_kiter {X} (f : X -> K (hw D) unit) P `{!Kept P} xs : (forall x, safe (f x) P) -> safe (kiter f xs) P.
Proof. intros Hf. induction xs as [|x xs IH]; [apply safe_ret|]. cbn [kiter]. by apply safe_bind. Qed.

Lemma safe_gets {A} (f : hw D -> A) P : safe (gets f) P.
Proof. intros l h Hc _ _. eapply kruns_weaken; [apply kruns_gets|]. intros a h' [_ ->]. by split. Qed.

Lemma safe_dev (f : D -> D) P : safe (modify (fun s => s <| hdev ::= f |>)) P.
Proof. intros l h Hc _ _. eapply kruns_weaken; [apply kruns_modify|]. intros a h' ->. by split. Qed.

Lemma safe_out p v P : safe (out p v) P.
Proof. apply safe_dev. Qed.

Lemma safe_inp p P : safe (inp p) P.
Proof.
  intros l h Hc _ _. unfold inp, kruns. destruct (inb p (hdev h)) as [v d]. eexists v, _. split; [done|]. by split.
Qed.

Lemma safe_mr a P : safe (mr a) P.
Proof.
  intros l h Hc _ _. unfold mr, kruns. destruct (mread a (hdev h)) as [v d]. eexists v, _. split; [done|]. by split.
Qed.

Lemma safe_mw a v P : safe (mw a v) P.
Proof. apply safe_dev. Qed.

Lemma safe_print fmt args P : bytes fmt -> safe (zoom hcon (cprintf fmt args (fun _ => []))) P.
Proof.
  intros Hf l h Hc HL _. destruct (cprintf_ok fmt args (fun _ => []) l (hcon h) Hc HL Hf) as (o & c & R & W); [done|].
  eexists tt, _. split; [by apply zoom_Ok|]. split; try done; cbn; [|apply W]. by rewrite (wr_same _ _ _ W).
Qed.

Definition at_lapic (la : Z) (h : hw D) : Prop := lapic h = la.
#[local] Instance kept_lapic la : Kept (at_lapic la).
Proof. intros h h' H E. unfold at_lapic in *. by rewrite (hq_lapic _ _ H). Qed.
#[local] Instance kept_any : Kept (fun _ => True).
Proof. by intros h h' _ _. Qed.

(** *** The I/O APIC, the old controllers and the serial line *)

Lemma safe_ioapicread r P `{!Kept P} : safe (ioapicread r) P.
Proof. apply safe_bind; [done|apply safe_gets|]. intros p. apply safe_bind; [done|apply safe_mw|]. intros _. apply safe_mr. Qed.

Lemma safe_ioapicwrite r v P `{!Kept P} : safe (ioapicwrite r v) P.
Proof. apply safe_bind; [done|apply safe_gets|]. intros p. apply safe_bind; [done|apply safe_mw|]. intros _. apply safe_mw. Qed.

Lemma safe_ioapicenable irq c P `{!Kept P} : safe (ioapicenable irq c) P.
Proof. apply safe_bind; [done|by apply safe_ioapicwrite|]. intros _. by apply safe_ioapicwrite. Qed.

Lemma safe_ioapicinit P `{!Kept P} : safe ioapicinit P.
Proof.
  apply safe_bind; [done| |intros _].
  { intros l h Hc _ _. eapply kruns_weaken; [apply kruns_modify|]. intros a h' ->. by split. }
  apply safe_bind; [done|by apply safe_ioapicread|intros v]. cbv zeta.
  apply safe_bind; [done|by apply safe_ioapicread|intros w]. cbv zeta.
  apply safe_bind; [done|apply safe_gets|intros me]. apply safe_bind; [done| |intros _].
  - destruct (negb _); [|apply safe_ret]. apply safe_print. apply Forall_app. split; [apply lit_bytes|by repeat constructor].
  - apply safe_kiter; [done|]. intros i. apply safe_bind; [done|by apply safe_ioapicwrite|]. intros _. by apply safe_ioapicwrite.
Qed.

Lemma safe_picinit P `{!Kept P} : safe picinit P.
Proof. apply safe_bind; [done|apply safe_out|]. intros _. apply safe_out. Qed.

Lemma safe_uart c P : safe (zoom hcon (uartputc c)) P.
Proof.
  intros l h Hc _ _. eexists tt, _. split; [by apply zoom_Ok, uartputc_ok|]. destruct Hc. split; try done.
Qed.

Lemma safe_uartinit P `{!Kept P} : safe uartinit P.
Proof.
  unfold uartinit. do 7 (apply safe_bind; [done|apply safe_out|intros _]).
  apply safe_bind; [done|apply safe_inp|intros x]. destruct (x =? 0xFF); [apply safe_ret|].
  apply safe_bind; [done| |intros _].
  { intros l h Hc _ _. eexists tt, _. split; [reflexivity|]. destruct Hc. by split. }
  do 2 (apply safe_bind; [done|apply safe_inp|intros _]). apply safe_bind; [done|by apply safe_ioapicenable|intros _].
  apply safe_kiter; [done|]. intros c. apply safe_uart.
Qed.

(** *** The local APIC *)

Section lapic.
(** The controller is at [la]; it delivers every command within [polls] reads, and its
    identity is [id] at all times. *)
Context (la id : Z) (polls : nat) (Hdel : forall d : D, delivered_within polls (la + 4 * ICRLO) d)
  (Hid : forall d : D, Z.shiftr (mread (la + 4 * ID) d).1 24 = id) (Hla : la <> 0).

Lemma safe_lapicr i P `{!Kept P} : safe (lapicr i) P.
Proof. apply safe_bind; [done|apply safe_gets|]. intros p. apply safe_mr. Qed.

Lemma safe_lapicw i v P `{!Kept P} : safe (lapicw i v) P.
Proof.
  apply safe_bind; [done|apply safe_gets|intros p]. apply safe_bind; [done|apply safe_mw|intros _].
  apply safe_bind; [done|by apply safe_lapicr|intros _]. apply safe_ret.
Qed.

Lemma wait_delivery_runs n l : forall h, cons_ok (cn (hcon h)) -> lapic h = la ->
  delivered_within n (la + 4 * ICRLO) (hdev h) -> kruns (wait_delivery n) l h (fun _ h' => hquiet h h').
Proof.
  induction n as [|n IH]; intros h Hc Hl Hd; [done|]. cbn [wait_delivery delivered_within] in *.
  destruct (mread (la + 4 * ICRLO) (hdev h)) as [v d] eqn:E.
  assert (R : lapicr ICRLO l h = Ok v l (h <| hdev := d |>)) by (unfold lapicr, mr; kstep; by rewrite Hl, E).
  assert (Q : hquiet h (h <| hdev := d |>)) by by split. unfold kruns. erewrite bind_Ok by exact R. unfold nz.
  destruct Hd as [->|[Hne Hd]]; [by eexists tt, _|]. rewrite (proj2 (Z.eqb_neq _ _) Hne). cbn [negb].
  destruct (IH (h <| hdev := d |>)) as (a & h' & R' & Q'); [done..|]. exists a, h'. split; [done|]. by eapply hquiet_trans.
Qed.

Lemma safe_lapicinit : safe (lapicinit polls) (at_lapic la).
Proof.
  unfold lapicinit. apply safe_bind; [apply _|apply safe_gets|intros p]. destruct (p =? 0); [apply safe_ret|].
  do 6 (apply safe_bind; [apply _|apply safe_lapicw; apply _|intros _]).
  apply safe_bind; [apply _|apply safe_lapicr; apply _|intros v].
  apply safe_bind; [apply _|destruct (4 <=? _); [apply safe_lapicw; apply _|apply safe_ret]|intros _].
  do 6 (apply safe_bind; [apply _|apply safe_lapicw; apply _|intros _]).
  apply safe_bind; [apply _| |intros _; apply safe_lapicw; apply _].
  intros l h Hc _ Hl. by apply wait_delivery_runs.
Qed.

Lemma lapicid_reads l h : cons_ok (cn (hcon h)) -> lapic h = la -> kruns lapicid l h (fun x h' => x = id /\ hquiet h h').
Proof.
  intros Hc Hl. unfold lapicid, kruns. kstep. rewrite Hl, (proj2 (Z.eqb_neq _ _) Hla).
  pose proof (Hid (hdev h)) as Hi. destruct (mread (la + 4 * ID) (hdev h)) as [v d] eqn:E.
  assert (R : lapicr ID l h = Ok v l (h <| hdev := d |>)) by (unfold lapicr, mr; kstep; by rewrite Hl, E).
  erewrite bind_Ok by exact R. eexists _, _. split; [reflexivity|]. by split.
Qed.

Lemma mycpu_finds l h me : cons_ok (cn (hcon h)) -> lapic h = la ->
  find_id (take (Z.to_nat (ncpu h)) (apicids h)) id 0 = Some me -> kruns mycpu l h (fun x h' => x = me /\ hquiet h h').
Proof.
  intros Hc Hl Hf. unfold mycpu. eapply kruns_bind; [by apply lapicid_reads|]. intros x h1 [-> Q].
  eapply kruns_bind; [apply kruns_gets|]. intros ids h2 [-> ->]. eapply kruns_bind; [apply kruns_gets|]. intros n h2 [-> ->].
  rewrite (hq_ids _ _ Q), (hq_ncpu _ _ Q), Hf. by apply kruns_ret.
Qed.

End lapic.

End quiet.

End StartSpec.
