(* ===== verification/MainSpec.v ===== *)
(** What [main] of main.c leaves behind when it enters the scheduler. *)

From stdpp Require Import base numbers list sets strings.
From Stdlib Require Import ZArith Lia.
From S2P Require Import Prelude Mem CString Mmu Seg Kalloc Vm VmSpec CopySpec Param Printf Ports Proc Sched.
From S2P Require Import Syscall Spinlock Sleeplock Pipe Console Bio BioSpec Log LogSpec LogCrash Inode Fs FsSpec DirSpec.
From S2P Require Import File ProcLife Exec Sysfile Trap LifeSpec ForkSpec InitSpec Mp Apic Start StartSpec.
Import CString Mmu Seg Kalloc Vm VmSpec CopySpec Param Printf Ports Proc Sched Console Bio BioSpec Log LogCrash Inode Fs FsSpec DirSpec File ProcLife Trap LifeSpec ForkSpec InitSpec Mp Apic Start StartSpec.

Module MainSpec.

Lemma kruns_step {S A B} (m : K S A) (f : A -> K S B) l s a s1 R :
  m l s = Ok a l s1 -> kruns (f a) l s1 R -> kruns (m ≫= f) l s R.
Proof. intros E H. unfold kruns. by erewrite bind_Ok by exact E. Qed.

Section boot.
Context {D : Type} `{!Ports D} `{!Mmio D} `{!LapicChip D}.
Context (kend data : Z) (Hkend : KERNBASE + EXTMEM <= kend).

(** *** The kernel's address space *)

(** The memory of the machine, as the kernel sees it. *)
Definition kmm (s : kernel D) : mem := kmemory (pkmem (kpk s)).

(** The end of the memory that [entrypgdir] maps. *)
Definition first_end : Z := P2V (4 * 1024 * 1024).

(** The allocator has the pages [l]; [d] is the kernel's directory, with all rows of [kmap]
    and no page of a user, made of the pages [tb]; the text and data of the kernel are
    still what they were in [m0]; and the console works. *)
Record up (m0 : mem) (tb : list Z) (s : kernel D) (d : Z) (l : list Z) : Prop := {
  up_kmem : kmem_inv kend (pkmem (kpk s)) l;
  up_as : as_ok kend (kmm s) d l;
  up_rows row : row ∈ kmap data -> row_mapped (kmm s) d row;
  up_user va : upage va -> mapped (kmm s) d va = false;
  up_own v : own (kmm s) d v <-> v ∈ tb;
  up_image : same_on (KERNBASE + EXTMEM) kend m0 (kmm s);
  up_dir : kpgdir (kpk s) = d;
  up_cons : cons_ok (fcons (fs (kf s))) }.

(** Memory differs below the kernel only. *)
Definition low_only (m m' : mem) : Prop := forall x, KERNBASE + EXTMEM <= x -> m' x = m x.

Lemma page_high v : page_ok kend v -> KERNBASE + EXTMEM <= v.
Proof. intros (_ & _ & H & _). lia. Qed.

Lemma rows_same m m' d : (forall va, pte_at m' d va = pte_at m d va) ->
  (forall row, row ∈ kmap data -> row_mapped m d row) -> forall row, row ∈ kmap data -> row_mapped m' d row.
Proof.
  intros E H [[[virt ps] pe] perm] Hr n i Hn Hi. rewrite E. exact (H _ Hr n i Hn Hi).
Qed.

Lemma flist_same m m' : forall l p, Forall (page_ok kend) l ->
  (forall v, v ∈ l -> same_on v (v + PGSIZE) m m') -> flist m p l -> flist m' p l.
Proof.
  induction l as [|v l IH]; intros p Hl Hs; cbn; [done|]. intros [-> Hf]. apply Forall_cons in Hl as [Pv Hl].
  split; [done|]. replace (load32 m' v) with (load32 m v); [apply IH; [done| |done]; intros w Hw; apply Hs; by right|].
  symmetry. apply load32_same. intros x Hx. apply (Hs v); [by left|unfold PGSIZE; lia].
Qed.

Lemma up_low m0 tb s s' d l : up m0 tb s d l -> low_only (kmm s) (kmm s') ->
  freelist (pkmem (kpk s')) = freelist (pkmem (kpk s)) -> kpgdir (kpk s') = kpgdir (kpk s) ->
  cons_ok (fcons (fs (kf s'))) -> up m0 tb s' d l.
Proof.
  intros [Hk Ha Hr Hu Ho Hi Hd Hc] Hlow Hf Hdir Hc'.
  assert (Hsame : forall v, page_ok kend v -> same_on v (v + PGSIZE) (kmm s) (kmm s')).
  { intros v Pv x Hx. apply Hlow. pose proof (page_high v Pv). lia. }
  destruct (as_same kend (kmm s) (kmm s') d l l Ha) as (A & E & W); [|done|].
  { intros v Hv. apply Hsame. by destruct (own_page kend _ _ _ _ (as_pt _ _ _ _ Ha) Hv). }
  split; [|done|by eapply rows_same|intros va Hva; unfold mapped; rewrite E; by apply Hu|intros v; by rewrite W| |congruence|done].
  - destruct Hk as [K1 K2 K3]. split; [|done|done]. rewrite Hf. apply (flist_same (kmm s)); [done| |done].
    intros v Hv. apply Hsame. by apply (proj1 (Forall_forall _ _) K3).
  - intros x Hx. rewrite Hlow by lia. by apply Hi.
Qed.

(** Pages taken off the free list, and changed. *)
Lemma up_less m0 tb s s' d l l' : up m0 tb s d l -> kmem_inv kend (pkmem (kpk s')) l' -> only_pages l (kmm s) (kmm s') ->
  (forall v, v ∈ l' -> v ∈ l) -> kpgdir (kpk s') = kpgdir (kpk s) -> cons_ok (fcons (fs (kf s'))) -> up m0 tb s' d l'.
Proof.
  intros [Hk Ha Hr Hu Hw Hi Hd Hc] Hk' Ho Hs Hdir Hc'. pose proof (ki_pages _ _ _ Hk) as Hl.
  destruct (as_keep kend (kmm s) (kmm s') d l l' Ha Hl Ho Hs) as (A & E & W & _).
  split; [done|done|by eapply rows_same|intros va Hva; unfold mapped; rewrite E; by apply Hu|intros v; by rewrite W| |congruence|done].
  intros x Hx. rewrite Ho; [by apply Hi|]. intros (v & Hv & Hin). apply (proj1 (Forall_forall _ _) Hl) in Hv as (_ & _ & ? & _). lia.
Qed.

(** *** What does not change before the first process is made *)

Record still (s s' : kernel D) : Prop := {
  sl_procs : procs (kpk s') = procs (kpk s);
  sl_next : nextpid (kpk s') = nextpid (kpk s);
  sl_icache : icache (fs (kf s')) = icache (fs (kf s));
  sl_started : length (started s') = length (started s);
  sl_bufs : length (bufs (lb (fl (fs (kf s'))))) = length (bufs (lb (fl (fs (kf s)))));
  sl_gdt : length (gdt (kpk s')) = length (gdt (kpk s));
  sl_devsw : length (devsw (fs (kf s'))) = length (devsw (fs (kf s))) }.

Lemma still_refl s : still s s.
Proof. done. Qed.

Lemma still_trans s1 s2 s3 : still s1 s2 -> still s2 s3 -> still s1 s3.
Proof.
  intros [A1 A2 A3 A4 A5 A6 A7] [B1 B2 B3 B4 B5 B6 B7].
  split; [by rewrite B1|by rewrite B2|by rewrite B3|by rewrite B4|by rewrite B5|by rewrite B6|by rewrite B7].
Qed.

(** The processors the firmware reported are [ids], with local APICs at [la]. *)
Record cpus_known (la : Z) (ids : list Z) (s : kernel D) : Prop := {
  ck_lapic : blapic (kboard s) = la;
  ck_cpus : take (Z.to_nat (bncpu (kboard s))) (bapicids (kboard s)) = ids;
  ck_ids : length (bapicids (kboard s)) = Z.to_nat NCPU;
  ck_n : 0 <= bncpu (kboard s) <= NCPU }.

Lemma khw_kpk s (h : hw D) : hmem h = kmm s -> ck (hcon h) = kpk s -> kpk (s <| khw := h |>) = kpk s.
Proof.
  intros Hm Hp. cbn. rewrite Hm, Hp. clear. destruct s as [[[[[bu or di ds wt p] lg] ic sb co dv] ft pi um] kb i ir st]. cbn.
  by destruct p as [? ? ? ? ? ? ? ? []].
Qed.

Lemma khw_same s h : hquiet (khw s) h ->
  let s' := s <| khw := h |> in
  kpk s' = kpk s /\ still s s' /\ cons_ok (fcons (fs (kf s'))) /\ idt s' = idt s /\ idtr s' = idtr s /\ started s' = started s /\
  bapicids (kboard s') = bapicids (kboard s) /\ bncpu (kboard s') = bncpu (kboard s) /\ blapic (kboard s') = blapic (kboard s).
Proof.
  intros [Hm Hi Hn Hio Hl Hp Hc] s'.
  assert (E : kpk s' = kpk s) by (by apply khw_kpk).
  split; [done|]. split; [split; rewrite ?E; done|]. split_and!; try done.
Qed.

(** *** Memory *)

(** So many pages are free at least. *)
Lemma many_pages l vs n : vs mod PGSIZE = 0 ->
  (forall v, v mod PGSIZE = 0 -> vs <= v -> v + PGSIZE <= vs + PGSIZE * Z.of_nat n -> v ∈ l) -> (n <= length l)%nat.
Proof.
  intros Hm H. transitivity (length ((fun i => vs + PGSIZE * Z.of_nat i) <$> seq 0 n)).
  { by rewrite length_fmap, length_seq. }
  apply submseteq_length, NoDup_submseteq.
  - apply NoDup_fmap_2; [|apply NoDup_seq]. intros i j. unfold PGSIZE. lia.
  - intros v (i & -> & Hi)%list_elem_of_fmap. apply elem_of_seq in Hi. apply H; unfold PGSIZE in *; dlia.
Qed.

(** The pages of the allocator between two addresses. *)
Definition between (lo hi v : Z) : Prop := v mod PGSIZE = 0 /\ lo <= v /\ v + PGSIZE <= hi.

Lemma kinit1_runs fuel (s : kernel D) : kmem_inv kend (pkmem (kpk s)) [] -> kend <= first_end ->
  first_end < kend + PGSIZE * Z.of_nat fuel ->
  kruns (zoom kpk (zoom pkmem (kinit1 kend kend first_end fuel))) [] s (fun _ s' => exists k l,
    s' = s <| kpk ::= fun p => p <| pkmem := k |> |> /\ kmem_inv kend k l /\
    same_outside kend first_end (kmm s) (kmemory k) /\ forall v, v ∈ l <-> between kend first_end v).
Proof.
  intros Hk He Hf. set (k0 := (pkmem (kpk s)) <| use_lock := 0 |>).
  destruct (freerange_frees_all kend kend first_end [] [] k0 fuel) as (k & R & Hk' & Hout & _ & Hv);
    try apply not_elem_of_nil; try done; unfold KERNBASE, EXTMEM, PHYSTOP in *; try lia.
  { by destruct Hk. }
  { intros v Hv. by apply not_elem_of_nil in Hv. }
  rewrite app_nil_r in Hk'. eexists tt, _. split; [apply zoom_Ok, zoom_Ok; unfold kinit1; by kstep|].
  exists k, (rev (pages (PGROUNDUP kend) first_end fuel)). split; [done|]. split; [done|]. split; [done|].
  intros v. unfold between. rewrite <- Hv, !list_elem_of_In. symmetry. apply in_rev.
Qed.

Lemma kvmalloc_runs fuel m0 (s : kernel D) l : kmem_inv kend (pkmem (kpk s)) l -> (67 < length l)%nat -> data_ok data ->
  KERNBASE / PGSIZE + 2 <= Z.of_nat fuel -> same_on (KERNBASE + EXTMEM) kend m0 (kmm s) -> cons_ok (fcons (fs (kf s))) ->
  kruns (zoom kpk (kvmalloc kend data fuel)) [] s (fun _ s' => exists d t l', l = t ++ l' /\ (length t <= 67)%nat /\
    up m0 t s' d l' /\ still s s' /\ kboard s' = kboard s /\ only_pages l (kmm s) (kmm s')).
Proof.
  intros Hk Hl Hdata Hfuel Hm Hc. pose proof (ki_pages _ _ _ Hk) as Hp. pose proof (ki_nodup _ _ _ Hk) as Hnd.
  destruct (setupkvm_spec kend data ltac:(unfold KERNBASE, EXTMEM in *; lia) user_flags zeros l (kmm s) Hp fuel [] (pkmem (kpk s))
    eq_refl Hk (not_elem_of_nil _) Hdata Hfuel) as (k & l' & d & R & Hk' & Hres).
  destruct Hres as [(Hd & B & [t Et] & Hr)|(_ & _ & _ & Hfew)]; [|lia].
  eexists tt, _. split; [apply zoom_Ok; unfold kvmalloc; erewrite bind_Ok by (apply zoom_Ok; exact R); by kstep|].
  exists d, t, l'. split; [done|]. pose proof (building_count _ _ _ _ _ _ _ _ _ B Hnd ltac:(done)) as Hcount.
  change (0 / PGSIZE) with 0 in Hcount. change (0 / 2 ^ 22) with 0 in Hcount.
  split; [rewrite Et, length_app in Hcount; lia|]. split; [|split; [done|]; split; [done|]; exact (bd_out _ _ _ _ _ _ _ _ _ B)].
  assert (Hno : forall va, upage va -> mapped (kmemory k) d va = false).
  { intros va Hu. rewrite (bd_map _ _ _ _ _ _ _ _ _ B) by done. apply Z.ltb_ge. apply Hu. }
  split; try done; [exact (bd_as _ _ _ _ _ _ _ _ _ B)| |].
  - intros v. change (own (kmemory k) d v <-> v ∈ t). rewrite Et in Hnd. apply NoDup_app in Hnd as (_ & Hdis & _). split.
    + intros Ho. pose proof (bd_own _ _ _ _ _ _ _ _ _ B v Ho) as Hin. rewrite Et, elem_of_app in Hin. destruct Hin; [done|].
      by destruct (own_page kend _ _ _ _ (as_pt _ _ _ _ (bd_as _ _ _ _ _ _ _ _ _ B)) Ho).
    + intros Hin. destruct (bd_used _ _ _ _ _ _ _ _ _ B v) as [H|[H|(va & Hu & H & _)]]; [rewrite Et; apply elem_of_app; by left| |done|].
      * by destruct (Hdis v Hin).
      * by rewrite Hno in H.
  - intros x Hx. transitivity (kmm s x); [|by apply Hm]. apply (bd_out _ _ _ _ _ _ _ _ _ B).
    intros (v & Hv & Hin). apply (proj1 (Forall_forall _ _) Hp) in Hv as (_ & _ & ? & _). lia.
Qed.

(** The rest of memory.  The pages of the directory are all in the first part. *)
Lemma as_extend m d h l : as_ok kend m d l -> (forall va, upage va -> mapped m d va = false) ->
  (forall v, own m d v -> v ∉ h) -> as_ok kend m d (h ++ l).
Proof.
  intros [[P1 P2 P3 P4] F I] Hno Hh. split; [split; try done| |done].
  - intros [?|?]%elem_of_app; [|done]. by apply (Hh d); [left|].
  - intros i Hi Hhas. destruct (P3 i Hi Hhas) as (H1 & H2 & H3). split; [done|]. split; [|done].
    intros [?|?]%elem_of_app; [|done]. apply (Hh (tab m d i)); [|done]. right. by exists i.
  - intros va Hu Hm. by rewrite Hno in Hm.
Qed.

Lemma kinit2_runs fuel m0 tb (s : kernel D) d l : up m0 tb s d l -> kend <= first_end ->
  Forall (between kend first_end) tb -> Forall (between kend first_end) l -> KERNBASE / PGSIZE + 2 <= Z.of_nat fuel ->
  kruns (zoom kpk (zoom pkmem (kinit2 kend first_end (P2V PHYSTOP) fuel))) [] s (fun _ s' => exists h,
    up m0 tb s' d (h ++ l) /\ still s s' /\ kboard s' = kboard s /\ idt s' = idt s /\ started s' = started s /\
    forall v, v ∈ h <-> between first_end (KERNBASE + PHYSTOP) v).
Proof.
  intros [U1 U2 U3 U4 U5 U6 U7 U8] He Htb Hl Hf. pose proof (eq_refl : first_end = 0x80400000) as E0.
  pose proof (eq_refl : P2V PHYSTOP = KERNBASE + PHYSTOP) as E1. change (KERNBASE / PGSIZE) with 524288 in Hf.
  destruct (freerange_frees_all kend first_end (P2V PHYSTOP) l [] (pkmem (kpk s)) fuel) as (k & R & Hk & Hout & _ & Hv);
    [try apply not_elem_of_nil; rewrite ?E1; unfold KERNBASE, PHYSTOP, PGSIZE in *; try done; try lia..|].
  { intros v Hv. left. apply (proj1 (Forall_forall _ _) Hl) in Hv as (_ & _ & ?). unfold PGSIZE in *. lia. }
  set (h := rev (pages _ _ _)) in *. eexists tt, _. split; [apply zoom_Ok, zoom_Ok; unfold kinit2; by erewrite bind_Ok by exact R|].
  assert (Hh : forall v, v ∈ h <-> between first_end (KERNBASE + PHYSTOP) v).
  { intros v. unfold between, h. rewrite <- E1, <- Hv, !list_elem_of_In. symmetry. apply in_rev. }
  exists h. split; [|done]. clearbody h.
  assert (Hlow : forall x, x < first_end -> kmemory k x = kmm s x) by (intros x Hx; apply Hout; lia).
  destruct (as_same kend (kmm s) (kmemory k) d l l U2) as (A & E & W); [|done|].
  { intros v Hw x Hx. apply Hlow. apply U5, (proj1 (Forall_forall _ _) Htb) in Hw as (_ & _ & ?). lia. }
  assert (Hno : forall va, upage va -> mapped (kmemory k) d va = false).
  { intros va Hu. unfold mapped. rewrite E. by apply U4. }
  assert (Hown : forall v, own (kmemory k) d v <-> v ∈ tb) by (intros v; by rewrite W).
  assert (Hk' : kmem_inv kend (k <| use_lock := 1 |>) (h ++ l)) by (by destruct Hk).
  split; try done; [|by eapply rows_same|].
  - apply as_extend; [done..|]. intros v Hw Hin. apply Hh in Hin as (_ & Hge & _).
    apply Hown, (proj1 (Forall_forall _ _) Htb) in Hw as (_ & _ & ?). unfold PGSIZE in *. lia.
  - intros x Hx. unfold kmm. cbn. rewrite Hlow by lia. by apply U6.
Qed.

(** The first process, in slot 0 of the table. *)
Lemma userinit_up fuel m0 tb trapret forkret lock_addr ilock_addr input_r code size (s : kernel D) d l q x :
  up m0 tb s d l -> (71 < length l)%nat -> data_ok data -> KERNBASE / PGSIZE + 2 <= Z.of_nat fuel ->
  procs (kpk s) !! 0%nat = Some q -> state q = UNUSED -> icache (fs (kf s)) !! 0%nat = Some x ->
  Forall (fun y => iref y = 0) (icache (fs (kf s))) ->
  0 <= size < PGSIZE -> KERNBASE <= code -> code + size <= kend -> kend < 2 ^ 32 ->
  kruns (zoom kf (zoom fs (userinit kend data trapret forkret lock_addr ilock_addr input_r fuel code size))) [] s (fun _ s' =>
    exists p y l', first_ready kend trapret forkret code size (fs (kf s)) (fs (kf s')) p y l l' /\ up m0 tb s' d l' /\
      kboard s' = kboard s /\ idt s' = idt s /\ started s' = started s).
Proof.
  intros U Hl Hdata Hfuel Hq Hun Hx Hall Hs Hc He Hk. destruct l as [|v fl]; [cbn in Hl; lia|].
  destruct (userinit_runs kend data fuel ltac:(unfold KERNBASE, EXTMEM in *; lia) Hdata Hfuel trapret forkret lock_addr ilock_addr
    input_r code size (fs (kf s)) q x v fl Hq Hun (up_kmem _ _ _ _ _ U) ltac:(cbn in Hl; lia) Hx Hall Hs Hc He Hk)
    as (f & p & y & l' & R & Hr).
  eexists tt, _. split; [apply zoom_Ok, zoom_Ok; exact R|]. exists p, y, l'. split; [exact Hr|]. split; [|done].
  pose proof (fr_image _ _ _ _ _ _ _ _ _ _ _ Hr) as Hi.
  apply (up_less m0 tb s _ d (v :: fl)); [done| | | | |].
  - exact (wp_kmem _ _ _ _ (fi_whole _ _ _ _ _ _ _ _ _ (fi_proc _ _ _ _ _ _ _ _ _ _ Hi))).
  - exact (fi_only _ _ _ _ _ _ _ _ _ _ Hi).
  - intros w Hw. apply (fi_pages _ _ _ _ _ _ _ _ _ _ Hi). by left.
  - exact (fr_dir _ _ _ _ _ _ _ _ _ _ _ Hr).
  - change (cons_ok (fcons f)). rewrite (fr_cons _ _ _ _ _ _ _ _ _ _ _ Hr). apply U.
Qed.

(** *** The processors *)

Lemma mpinit_runs polls m0 tb mp conf es (s : kernel D) d l : up m0 tb s d l ->
  length (bapicids (kboard s)) = Z.to_nat NCPU -> bncpu (kboard s) = 0 -> firmware kend (kmm s) mp conf es ->
  (length es < polls)%nat ->
  kruns (zoom khw (mpinit polls)) [] s (fun _ s' => up m0 tb s' d l /\ still s s' /\
    cpus_known (conf_lapicaddr (kmm s) conf) (take 8 (cpu_ids es)) s').
Proof.
  intros U Hi Hn [_ Hf _ Ht Hl] Hp.
  destruct (mpinit_run polls mp conf es [] (khw s) Hf Ht Hl (conj Hi Hn) Hp) as (h & R & (H1 & H2 & H3 & H4) & Hla & _ & Hm & Hc).
  eexists tt, _. split; [by apply zoom_Ok|]. pose proof (khw_kpk s h Hm (f_equal ck Hc)) as E. destruct U as [U1 U2 U3 U4 U5 U6 U7 U8].
  split; [split; unfold kmm in *; rewrite ?E; try done; cbn; by rewrite Hc|]. split; [by split; rewrite ?E|].
  split; [done| |done|]; cbn; [by rewrite H2, Nat2Z.id|unfold NCPU in *; lia].
Qed.

(** *** The stages of [main] *)

Section stages.
(** The local APIC of this processor, [me] of the processors [ids]; [s0] is an earlier state. *)
Context (la id : Z) (ids : list Z) (me polls : nat) (Hla : la <> 0) (Hme : find_id ids id 0 = Some me)
  (Hdel : forall d : D, delivered_within polls (la + 4 * ICRLO) d)
  (Hid : forall d : D, Z.shiftr (mread (la + 4 * ID) d).1 24 = id) (Hbase : la = lapic_base).
Context (m0 : mem) (tb : list Z) (s0 : kernel D).

Record alive (d : Z) (l : list Z) (s : kernel D) : Prop := {
  av_up : up m0 tb s d l;
  av_still : still s0 s;
  av_cpus : cpus_known la ids s }.

(** A state that differs in the parts that do not count. *)
Lemma alive_same d l s s' : alive d l s -> kpk s' = kpk s -> still s s' -> cons_ok (fcons (fs (kf s'))) ->
  kboard s' = kboard s -> alive d l s'.
Proof.
  intros [U S C] E St Hc Eb. split; [|by eapply still_trans|destruct C; split; by rewrite Eb].
  destruct U as [U1 U2 U3 U4 U5 U6 U7 U8]. split; unfold kmm in *; rewrite ?E; done.
Qed.

Lemma alive_hw {A} (m : K (hw D) A) (Q : A -> Prop) d l s : alive d l s ->
  kruns m [] (khw s) (fun a h' => Q a /\ hquiet (khw s) h') ->
  kruns (zoom khw m) [] s (fun a s' => Q a /\ alive d l s' /\ kpk s' = kpk s /\ started s' = started s /\ idt s' = idt s /\ idtr s' = idtr s).
Proof.
  intros [U S C] (a & h & R & HQ & Hq). exists a. eexists. split; [by apply zoom_Ok|]. split; [done|].
  destruct (khw_same s h Hq) as (E & St & Hc & Ei & Er & Est & E1 & E2 & E3). split; [|done]. split.
  - destruct U as [U1 U2 U3 U4 U5 U6 U7 U8]. split; unfold kmm in *; rewrite ?E; done.
  - by eapply still_trans.
  - destruct C. split; by rewrite ?E1, ?E2, ?E3.
Qed.

Lemma alive_safe (m : K (hw D) unit) d l s : alive d l s -> safe m (at_lapic la) ->
  kruns (zoom khw m) [] s (fun _ s' => alive d l s' /\ kpk s' = kpk s /\ started s' = started s /\ idt s' = idt s /\ idtr s' = idtr s).
Proof.
  intros A Hs. destruct (Hs [] (khw s)) as (a & h & R & Hq);
    [exact (up_cons _ _ _ _ _ (av_up _ _ _ A))|apply not_elem_of_nil|exact (ck_lapic _ _ _ (av_cpus _ _ _ A))|].
  destruct (alive_hw m (fun _ => True) d l s A) as (b & s' & R' & _ & A'); [by exists a, h|by exists b, s'].
Qed.

Lemma seginit_runs d l s : alive d l s -> length (gdt (kpk s0)) = Z.to_nat NSEGS ->
  kruns (zoom kpk seginit) [] s (fun _ s' => alive d l s').
Proof.
  intros A Hg. assert (Hg' : length (gdt (kpk s)) = Z.to_nat NSEGS) by by rewrite (sl_gdt _ _ (av_still _ _ _ A)).
  assert (R : exists g, seginit [] (kpk s) = Ok tt [] ((kpk s) <| gdt := g |>) /\ length g = length (gdt (kpk s))).
  { unfold seginit. kstep. change (Z.to_nat NSEGS) with 6%nat in Hg'.
    do 4 (rewrite aset_in by (rewrite ?length_insert, Hg'; done); kstep).
    eexists. split; [reflexivity|]. by rewrite !length_insert. }
  destruct R as (g & R & Hl). eexists tt, _. split; [by apply zoom_Ok|].
  destruct A as [[U1 U2 U3 U4 U5 U6 U7 U8] [S1 S2 S3 S4 S5 S6 S7] C]. split; [by split|split; try done; cbn; by rewrite Hl|by destruct C].
Qed.

Lemma consoleinit_runs d l s : alive d l s -> (Z.to_nat CONSOLE < length (devsw (fs (kf s0))))%nat ->
  kruns consoleinit [] s (fun _ s' => alive d l s').
Proof.
  intros A Hd. assert (Hd' : (Z.to_nat CONSOLE < length (devsw (fs (kf s))))%nat) by by rewrite (sl_devsw _ _ (av_still _ _ _ A)).
  assert (R : exists g, Fs.consoleinit [] (fs (kf s)) =
    Ok tt [] ((fs (kf s)) <| devsw := g |> <| fcons ::= fun c => c <| locking := 1 |> |>) /\ length g = length (devsw (fs (kf s)))).
  { unfold Fs.consoleinit. kstep. rewrite aset_in by (unfold CONSOLE in *; lia). kstep. kstep.
    eexists. split; [reflexivity|]. by rewrite length_insert. }
  destruct R as (g & R & Hl). unfold consoleinit. eapply kruns_step; [by apply zoom_Ok, zoom_Ok|].
  - eapply kruns_weaken; [apply alive_safe; [|apply safe_ioapicenable, kept_lapic]|by intros u s' [? _]].
    destruct A as [[U1 U2 U3 U4 U5 U6 U7 U8] [S1 S2 S3 S4 S5 S6 S7] C].
    split; [|split; try done; cbn; by rewrite Hl|by destruct C]. split; try done. destruct U8. by split.
Qed.

Lemma idt_runs g d l s : alive d l s -> kruns (modify (fun s => s <| idt := g |>)) [] s (fun _ s' => alive d l s' /\ idt s' = g).
Proof. intros A. eexists tt, _. split; [reflexivity|]. split; [|done]. by apply (alive_same d l s); [|..|apply A|]. Qed.

Lemma binit_runs d l s : alive d l s -> length (bufs (lb (fl (fs (kf s0))))) = Z.to_nat NBUF ->
  kruns (zoom kf (zoom fs (zoom fl (zoom lb binit)))) [] s (fun _ s' => alive d l s' /\ idt s' = idt s).
Proof.
  intros A Hb. assert (Hb' : length (bufs (lb (fl (fs (kf s))))) = Z.to_nat NBUF) by by rewrite (sl_bufs _ _ (av_still _ _ _ A)).
  assert (R : forall (L : list nat) b, (forall i, i ∈ L -> (i < length (bufs b))%nat) ->
    exists b', kiter (fun i => upd_buf i (fun b => b <| bl := Sleeplock.mkSleeplock 0 0 |>) ;; modify (fun s => s <| order ::= cons i |>)) L [] b = Ok tt [] b' /\
      length (bufs b') = length (bufs b) /\ bk b' = bk b).
  { induction L as [|i L IH]; intros b HL; [by exists b|]. cbn [kiter]. rewrite bind_assoc.
    destruct (lookup_lt_is_Some_2 (bufs b) i) as [x Hx]; [apply HL; by left|].
    unfold upd_buf. rewrite bind_assoc. erewrite bind_Ok by by apply get_buf_ok. kstep. kstep.
    edestruct IH as (b' & R & Hl & Hk); [|exists b'; split; [exact R|]]; cbn in *; rewrite ?length_insert in *; [|done].
    intros j Hj. apply HL. by right. }
  destruct (R (seq 0 (Z.to_nat NBUF)) ((lb (fl (fs (kf s)))) <| order := [] |>)) as (b' & R' & Hl & Hk).
  { intros i Hi. apply elem_of_seq in Hi. cbn. lia. }
  assert (Rb : binit [] (lb (fl (fs (kf s)))) = Ok tt [] b') by (unfold binit; by kstep).
  eexists tt, _. split; [by apply zoom_Ok, zoom_Ok, zoom_Ok, zoom_Ok|]. split; [|done]. cbn in Hk, Hl.
  apply (alive_same d l s); [done|exact Hk| |apply A|done]. split; try done; try exact Hl; unfold kpk, fpk, fbk, lbk; cbn; by rewrite Hk.
Qed.

Lemma ideinit_runs img n d l s : alive d l s ->
  kruns (zoom kf (zoom fs (zoom fl (zoom lb (ideinit img n))))) [] s (fun _ s' => alive d l s' /\ idt s' = idt s).
Proof. intros A. eexists tt, _. split; [reflexivity|]. split; [|done]. by apply (alive_same d l s); [|..|apply A|]. Qed.

(** *** Other processors *)

(** Memory below the kernel is written. *)
Lemma alive_low d l s s' m' : alive d l s -> kpk s' = (kpk s) <| pkmem ::= fun k => k <| kmemory := m' |> |> ->
  low_only (kmm s) m' -> icache (fs (kf s')) = icache (fs (kf s)) -> length (started s') = length (started s) ->
  length (bufs (lb (fl (fs (kf s'))))) = length (bufs (lb (fl (fs (kf s))))) ->
  length (devsw (fs (kf s'))) = length (devsw (fs (kf s))) -> cons_ok (fcons (fs (kf s'))) ->
  cpus_known la ids s' -> alive d l s'.
Proof.
  intros [U S C] E Hlow H1 H2 H3 H4 Hc Hk. split; [|eapply still_trans; [exact S|]; split; try done; by rewrite E|done].
  apply (up_low m0 tb s); try done; unfold kmm; by rewrite E.
Qed.

Lemma kstore_runs a v d l s : alive d l s -> a + 4 <= KERNBASE + EXTMEM ->
  kruns (kstore a v) [] s (fun _ s' => alive d l s' /\ idt s' = idt s /\ kmm s' = store32 (kmm s) a v /\
    kboard s' = kboard s /\ started s' = started s).
Proof.
  intros A Ha. eexists tt, _. split; [reflexivity|]. split; [|done].
  eapply (alive_low d l s _ (store32 (kmm s) a v) A); try done.
  - intros x Hx. apply store32_out. lia.
  - apply A.
  - by destruct A as [_ _ []].
Qed.

(** The memory that [lapicstartap] writes: the warm reset vector. *)
Definition wrv_only (m m' : mem) : Prop := same_outside 0x80000467 0x8000046b m m'.

Lemma lapicstartap_runs cid addr h : cons_ok (cn (hcon h)) ->
  kruns (lapicstartap cid addr) [] h (fun _ h' => wrv_only (hmem h) (hmem h') /\ hquiet (h <| hmem := hmem h' |>) h').
Proof.
  intros Hc. unfold lapicstartap.
  assert (Hrest : safe (lapicw ICRHI (Z.shiftl cid 24) ;; lapicw ICRLO (Z.lor (Z.lor INIT LEVEL) ASSERT) ;;
    lapicw ICRLO (Z.lor INIT LEVEL) ;; kiter (fun _ => send_startup cid addr) [0; 1]) (fun _ : hw D => True)).
  { do 3 (apply safe_bind; [apply kept_any|apply safe_lapicw, kept_any|intros _]). apply safe_kiter; [apply kept_any|]. intros _.
    apply safe_bind; [apply kept_any|apply safe_lapicw, kept_any|intros _]. apply safe_lapicw, kept_any. }
  unfold out. eapply kruns_step; [reflexivity|]. eapply kruns_step; [reflexivity|]. cbv zeta.
  eapply kruns_step; [reflexivity|]. eapply kruns_step; [reflexivity|].
  set (h1 := _ <| hmem ::= _ |> <| hmem ::= _ |>).
  eapply kruns_weaken; [apply (Hrest [] h1); [done|apply not_elem_of_nil|done]|]. intros u h' Q. cbv beta in Q.
  destruct Q as [Q1 Q2 Q3 Q4 Q5 Q6 Q7]. split; [|by split].
  intros x Hx. rewrite Q1. unfold h1. cbn -[P2V store16]. assert (E : P2V (Z.lor (Z.shiftl 64 4) 103) = 0x80000467) by done.
  rewrite E. by rewrite !store16_out by lia.
Qed.

Lemma startap_runs cid d l s : alive d l s -> 0 <= cid < 256 ->
  kruns (zoom khw (lapicstartap cid (V2P entry_code))) [] s (fun _ s' => alive d l s' /\ idt s' = idt s /\
    started s' = started s /\ wrv_only (kmm s) (kmm s') /\ bapicids (kboard s') = bapicids (kboard s) /\
    ipis (bdev (kboard s')) = ipis (bdev (kboard s)) ++ startup_messages cid 7).
Proof.
  intros A Hcid. assert (Hc : cons_ok (cn (hcon (khw s)))) by exact (up_cons _ _ _ _ _ (av_up _ _ _ A)).
  destruct (lapicstartap_runs cid (V2P entry_code) (khw s) Hc) as (a & h & R & Hlow & Q).
  destruct (lapicstartap_starts cid (V2P entry_code) [] (khw s)) as (h2 & R2 & Hi & _); [|done|done|done|].
  { cbn. by rewrite (ck_lapic _ _ _ (av_cpus _ _ _ A)). }
  rewrite R in R2. injection R2 as -> <-. eexists tt, _. split; [by apply zoom_Ok|]. destruct Q as [Q1 Q2 Q3 Q4 Q5 Q6 Q7].
  assert (Ek : kpk (s <| khw := h |>) = (kpk s) <| pkmem ::= fun k => k <| kmemory := hmem h |> |>).
  { unfold kpk, fpk, fbk, lbk. cbn. cbn in Q6. by rewrite Q6. }
  split; [|split; [done|]; split; [done|]; split; [|split; [exact Q2|exact Hi]]].
  - apply (alive_low d l s _ (hmem h) A); try done.
    + intros x Hx. apply Hlow. unfold KERNBASE, EXTMEM in Hx. lia.
    + destruct (av_cpus _ _ _ A) as [C1 C2 C3 C4]. split; cbn; cbn in Q2, Q3, Q5; by rewrite ?Q2, ?Q3, ?Q5.
  - unfold kmm. rewrite Ek. exact Hlow.
Qed.

(** Processor [c] says that it has started. *)
Definition marked (s : kernel D) (c : Z) : Prop := exists x, aget (started s) c = Some x /\ x <> 0.

(** What the other processors run on: the start code, and the messages and words that call
    processor [c]. *)
Context (code csize mpenter_addr entry_addr : Z).
Definition code_there (s : kernel D) : Prop :=
  forall o, 0 <= o < csize -> load8 (kmm s) (entry_code + o) = load8 m0 (code + o).
Record called (s : kernel D) (c : Z) : Prop := {
  ca_code : code_there s;
  ca_stack : exists v, page_ok kend v /\ load32 (kmm s) (entry_code - 4) = v + KSTACKSIZE;
  ca_enter : load32 (kmm s) (entry_code - 8) = u32 mpenter_addr;
  ca_dir : load32 (kmm s) (entry_code - 12) = u32 (V2P entry_addr);
  ca_sent : exists cid sent, aget (bapicids (kboard s)) c = Some cid /\
    ipis (bdev (kboard s)) = sent ++ startup_messages cid 7 }.

(** What the other processors do while this one waits: they use their devices and the
    console; and one that is called with its code, stack, entry point and directory in place
    says after some time that it has started. *)
Record peers (others : kernel D -> kernel D) : Prop := {
  pe_quiet s : cons_ok (fcons (fs (kf s))) -> kpk (others s) = kpk s /\ still s (others s) /\
    cons_ok (fcons (fs (kf (others s)))) /\ idt (others s) = idt s /\
    exists dev, kboard (others s) = (kboard s) <| bdev := dev |>;
  pe_marks s c : marked s c -> marked (others s) c;
  pe_start s c : length (started s) = Z.to_nat NCPU -> 0 <= c < NCPU -> called s c ->
    exists n, (n < polls)%nat /\ marked (Nat.iter n others s) c }.

Context (others : kernel D -> kernel D) (Hpeers : peers others) (Hs0 : length (started s0) = Z.to_nat NCPU)
  (Hids : Forall (fun x => 0 <= x < 256) ids).

Lemma others_alive d l s : alive d l s -> alive d l (others s) /\ idt (others s) = idt s /\ kmm (others s) = kmm s.
Proof.
  intros [U S C]. destruct (pe_quiet _ Hpeers s (up_cons _ _ _ _ _ U)) as (E & St & Hc & Ei & dev & Eb).
  split; [|split; [done|by unfold kmm; rewrite E]].
  split; [|by eapply still_trans|destruct C; split; by rewrite Eb].
  destruct U as [U1 U2 U3 U4 U5 U6 U7 U8]. split; unfold kmm in *; rewrite ?E; done.
Qed.

(** What a stage of the loop keeps. *)
Definition goes_on (s s' : kernel D) : Prop :=
  idt s' = idt s /\ (code_there s -> code_there s') /\ forall c, marked s c -> marked s' c.

Lemma goes_on_trans s1 s2 s3 : goes_on s1 s2 -> goes_on s2 s3 -> goes_on s1 s3.
Proof. intros (A1 & A2 & A3) (B1 & B2 & B3). split; [congruence|]. auto. Qed.

Lemma goes_on_same s s' : idt s' = idt s -> kmm s' = kmm s -> started s' = started s -> goes_on s s'.
Proof. intros E1 E2 E3. split; [done|]. unfold code_there, marked. by rewrite E2, E3. Qed.

Lemma wait_started_runs c d l n : forall k s, alive d l s -> (n < k)%nat -> 0 <= c < NCPU -> marked (Nat.iter n others s) c ->
  kruns (wait_started others k c) [] s (fun _ s' => alive d l s' /\ goes_on s s' /\ marked s' c).
Proof.
  induction n as [|n IH]; intros k s A Hk Hc Hx; (destruct k as [|k]; [lia|]); cbn [wait_started];
    (eapply kruns_step; [reflexivity|]).
  - pose proof Hx as (x & Ex & Hne). cbn in Ex. rewrite Ex. eapply kruns_step; [reflexivity|].
    rewrite (proj2 (Z.eqb_neq _ _) Hne). apply kruns_ret. split; [done|]. split; [by apply goes_on_same|done].
  - destruct (aget_in (started s) c) as [y Hy].
    { rewrite (sl_started _ _ (av_still _ _ _ A)), Hs0. unfold NCPU in *. lia. }
    rewrite Hy. eapply kruns_step; [reflexivity|]. destruct (Z.eqb_spec y 0) as [->|Hne].
    2: { apply kruns_ret. split; [done|]. split; [by apply goes_on_same|by exists y]. }
    eapply kruns_step; [reflexivity|]. destruct (others_alive d l s A) as (A' & Ei & Em).
    eapply kruns_weaken; [apply (IH k (others s)); [done|lia|done|by rewrite <- Nat.iter_succ_r]|].
    intros u s' (A2 & G & M). split; [done|]. split; [|done]. eapply goes_on_trans; [|exact G].
    split; [done|]. split; [unfold code_there; by rewrite Em|]. intros c'. apply (pe_marks _ Hpeers).
Qed.

Lemma mycpu_runs d l s : alive d l s ->
  kruns (zoom khw mycpu) [] s (fun x s' => x = me /\ alive d l s' /\ kpk s' = kpk s /\ started s' = started s /\ idt s' = idt s /\ idtr s' = idtr s).
Proof.
  intros A. destruct (av_cpus _ _ _ A) as [C1 C2 C3 C4]. apply (alive_hw mycpu (fun x => x = me) d l s A).
  apply (mycpu_finds la id Hid Hla); [exact (up_cons _ _ _ _ _ (av_up _ _ _ A))|done|]. cbn. by rewrite C2.
Qed.

(** The stack of a processor comes off the free list. *)
Lemma kalloc_runs d v l s : alive d (v :: l) s ->
  kruns (zoom kpk (zoom pkmem kalloc)) [] s (fun x s' => x = v /\ page_ok kend v /\ alive d l s' /\ kmm s' = kmm s /\
    idt s' = idt s /\ kboard s' = kboard s /\ started s' = started s).
Proof.
  intros [U S C]. destruct (kalloc_spec kend (v :: l) [] (pkmem (kpk s)) (up_kmem _ _ _ _ _ U) (not_elem_of_nil _)) as (k & R & Hk & Pv & _ & Hm & _).
  exists v. eexists. split; [by apply zoom_Ok, zoom_Ok|]. split; [done|]. split; [done|]. split; [|split; [exact Hm|done]].
  split; [|by destruct S|by destruct C].
  apply (up_less m0 tb s _ d (v :: l)); try done; [|by right|apply U]. unfold kmm. cbn. rewrite Hm. apply only_pages_refl.
Qed.

(** The identity of a processor that the firmware reported. *)
Lemma cpu_id d l s c : alive d l s -> 0 <= c < Z.of_nat (length ids) ->
  exists cid, aget (bapicids (kboard s)) c = Some cid /\ 0 <= cid < 256.
Proof.
  intros A Hc. destruct (av_cpus _ _ _ A) as [C1 C2 C3 C4].
  destruct (lookup_lt_is_Some_2 ids (Z.to_nat c)) as [cid Hcid]; [lia|]. exists cid.
  split; [|by apply (proj1 (Forall_lookup _ _) Hids (Z.to_nat c))].
  rewrite <- (Z2Nat.id c), aget_of_nat by lia. rewrite <- C2 in Hcid. apply lookup_take_Some in Hcid. apply Hcid.
Qed.

Lemma startother_runs c d v l s : alive d (v :: l) s -> 0 <= c < Z.of_nat (length ids) -> code_there s -> csize <= 0x9000 ->
  kruns (startother polls mpenter_addr entry_addr others c) [] s (fun _ s' => goes_on s s' /\
    if c =? Z.of_nat me then alive d (v :: l) s' else alive d l s' /\ marked s' c).
Proof.
  intros A Hc Hcode Hcs. unfold startother. eapply kruns_bind; [by apply mycpu_runs|]. intros x s1 (-> & A1 & K1 & S1 & I1 & _).
  assert (E1 : kmm s1 = kmm s) by (unfold kmm; by rewrite K1).
  destruct (c =? Z.of_nat me); [apply kruns_ret; split; [by apply goes_on_same|done]|].
  assert (Hec : entry_code = 0x80007000) by done. unfold KERNBASE, EXTMEM in *.
  eapply kruns_bind; [by apply kalloc_runs|]. intros x s2 (-> & Pv & A2 & E2 & I2 & B2 & S2).
  eapply kruns_bind; [apply kstore_runs; [exact A2|rewrite Hec; done]|]. intros u3 s3 (A3 & I3 & E3 & B3 & S3).
  eapply kruns_bind; [apply kstore_runs; [exact A3|rewrite Hec; done]|]. intros u4 s4 (A4 & I4 & E4 & B4 & S4).
  eapply kruns_bind; [apply kstore_runs; [exact A4|rewrite Hec; done]|]. intros u5 s5 (A5 & I5 & E5 & B5 & S5).
  eapply kruns_step; [reflexivity|]. destruct (cpu_id d l s5 c A5 Hc) as (cid & Hget & Hcid). rewrite Hget.
  eapply kruns_step; [reflexivity|]. eapply kruns_bind; [by apply startap_runs|]. intros u6 s6 (A6 & I6 & S6 & W6 & B6 & T6).
  rewrite E4, E3, E2, E1 in E5.
  assert (Hout : forall y, 0x80006FF4 <= y -> kmm s6 y = kmm s5 y) by (intros y Hy; apply W6; lia).
  assert (Hrd : forall y, 0x80006FF4 <= y -> load32 (kmm s6) y = load32 (kmm s5) y).
  { intros y Hy. apply load32_same. intros z Hz. apply Hout. lia. }
  assert (H6 : code_there s6).
  { intros o Ho. rewrite <- Hcode by done. unfold load8. f_equal. rewrite Hout, E5, Hec by lia. by rewrite !store32_out by lia. }
  assert (Hcall : called s6 c).
  { split; rewrite ?Hrd, ?E5 by (rewrite Hec; lia); [done| | | |].
    - exists v. split; [done|]. rewrite !load32_store32_ne by (rewrite Hec; lia). rewrite load32_store32_eq. apply u32_small.
      pose proof (page_ok_range kend v Pv). unfold KSTACKSIZE, PGSIZE, KERNBASE, PHYSTOP in *. lia.
    - rewrite load32_store32_ne by (rewrite Hec; lia). by rewrite load32_store32_eq.
    - by rewrite load32_store32_eq.
    - exists cid, (ipis (bdev (kboard s5))). by rewrite B6. }
  assert (Hn : 0 <= c < NCPU).
  { destruct (av_cpus _ _ _ A6) as [_ C2 _ C4]. pose proof (f_equal length C2) as Hlen. rewrite length_take in Hlen. lia. }
  destruct (pe_start _ Hpeers s6 c) as (n & Hlt & Hx); [by rewrite (sl_started _ _ (av_still _ _ _ A6))|done|done|].
  eapply kruns_weaken; [by apply (wait_started_runs c d l n polls s6 A6)|]. intros u7 s7 (A7 & G7 & M7). split; [|done].
  eapply goes_on_trans; [|exact G7]. split; [congruence|]. split; [done|]. unfold marked. by rewrite S6, S5, S4, S3, S2, S1.
Qed.

(** [startothers] starts all processors but this one, with a page for each. *)
Definition others_in (lo n : Z) : Z := if (lo <=? Z.of_nat me) && (Z.of_nat me <? lo + n) then n - 1 else n.

Lemma start_loop_runs n : forall c d l s, alive d l s -> 0 <= c -> c + Z.of_nat n <= Z.of_nat (length ids) ->
  (n <= length l)%nat -> code_there s -> csize <= 0x9000 ->
  kruns (kiter (startother polls mpenter_addr entry_addr others) (seqZ c (Z.of_nat n))) [] s (fun _ s' =>
    goes_on s s' /\ (forall x, c <= x < c + Z.of_nat n -> x <> Z.of_nat me -> marked s' x) /\
    exists t l', l = t ++ l' /\ Z.of_nat (length t) = others_in c (Z.of_nat n) /\ alive d l' s').
Proof.
  induction n as [|n IH]; intros c d l s A Hc Hn Hl Hcode Hcs.
  { apply kruns_ret. split; [by apply goes_on_same|]. split; [lia|]. exists [], l. split; [done|]. split; [|done].
    unfold others_in. cbn [length]. change (Z.of_nat 0) with 0. destruct (Z.leb_spec c (Z.of_nat me)), (Z.ltb_spec (Z.of_nat me) (c + 0)); cbn [andb]; lia. }
  rewrite seqZ_cons by lia. replace (Z.pred (Z.of_nat (S n))) with (Z.of_nat n) by lia. cbn [kiter]. destruct l as [|v l]; [cbn in Hl; lia|].
  eapply kruns_bind; [apply (startother_runs c d v l s A); [lia|done|done]|]. intros u s1 [G1 A1].
  pose proof (proj1 (proj2 G1) Hcode) as Hcode1.
  assert (Hstep : forall (k : nat), Z.of_nat k = others_in (Z.succ c) (Z.of_nat n) ->
    Z.of_nat (if c =? Z.of_nat me then k else S k) = others_in c (Z.of_nat (S n))).
  { intros k. unfold others_in. destruct (Z.eqb_spec c (Z.of_nat me)), (Z.leb_spec (Z.succ c) (Z.of_nat me)), (Z.leb_spec c (Z.of_nat me)),
      (Z.ltb_spec (Z.of_nat me) (Z.succ c + Z.of_nat n)), (Z.ltb_spec (Z.of_nat me) (c + Z.of_nat (S n))); cbn [andb]; lia. }
  destruct (Z.eqb_spec c (Z.of_nat me)) as [Ec|Ec].
  - eapply kruns_weaken; [apply (IH (Z.succ c) d (v :: l) s1 A1); [lia|lia|cbn in *; lia|done|done]|].
    intros u' s2 (G2 & M2 & t & l' & Et & Ht & A2). split; [by eapply goes_on_trans|].
    split; [intros y Hy Hne; apply M2; [lia|done]|]. exists t, l'. split; [done|]. split; [by apply Hstep|done].
  - destruct A1 as [A1 M1]. eapply kruns_weaken; [apply (IH (Z.succ c) d l s1 A1); [lia|lia|cbn in *; lia|done|done]|].
    intros u' s2 (G2 & M2 & t & l' & -> & Ht & A2). split; [by eapply goes_on_trans|].
    split; [intros y Hy Hne; destruct (Z.eq_dec y c) as [->|]; [by apply G2|apply M2; [lia|done]]|].
    exists (v :: t), l'. split; [done|]. split; [by apply Hstep|done].
Qed.

Lemma find_id_lt : forall (l : list Z) i n, find_id l id i = Some n -> (i <= n < i + length l)%nat.
Proof.
  induction l as [|x l IH]; intros i n; cbn; [done|]. destruct (x =? id); [intros [= ->]; lia|].
  intros H. apply IH in H. lia.
Qed.

(** All processors but this one have started, each with a stack of its own. *)
Definition all_started (st : list Z) (s : kernel D) : Prop :=
  S (length st) = length ids /\ forall c, 0 <= c < Z.of_nat (length ids) -> c <> Z.of_nat me -> marked s c.

Lemma startothers_runs d l s : alive d l s -> (Z.to_nat NCPU <= length l)%nat ->
  0 <= csize <= 0x9000 -> KERNBASE + EXTMEM <= code -> code + csize <= kend -> kend < 2 ^ 32 ->
  kruns (startothers polls mpenter_addr entry_addr others code csize) [] s (fun _ s' =>
    idt s' = idt s /\ exists t l', l = t ++ l' /\ all_started t s' /\ alive d l' s').
Proof.
  intros A Hl Hcs Hcode Hend Hk. unfold startothers. eapply kruns_step; [reflexivity|]. set (s1 := s <| kpk ::= _ |>).
  assert (Hec : entry_code = 0x80007000) by done. unfold KERNBASE, EXTMEM in *.
  assert (Hmm : forall x, memmove (kmm s) entry_code code csize x =
    if (entry_code <=? x) && (x <? entry_code + csize) then load8 (kmm s) (code + (x - entry_code)) else kmm s x).
  { intros x. apply memmove_copies; unfold region; rewrite ?Hec; lia. }
  assert (A1 : alive d l s1).
  { apply (alive_low d l s s1 (memmove (kmm s) entry_code code csize) A); try done; [|apply A|by destruct A as [_ _ []]].
    intros x Hx. rewrite Hmm, Hec. unfold KERNBASE, EXTMEM in Hx. by rewrite (proj2 (Z.ltb_ge x _)), andb_false_r by lia. }
  assert (Hcode1 : code_there s1).
  { intros o Ho. unfold load8 at 1. change (kmm s1) with (memmove (kmm s) entry_code code csize).
    rewrite Hmm, (proj2 (Z.leb_le _ _)), (proj2 (Z.ltb_lt _ _)) by lia. cbn [andb]. rewrite Z.add_simpl_l.
    rewrite u8_small by apply load8_range. unfold load8. f_equal. apply (up_image _ _ _ _ _ (av_up _ _ _ A)). unfold KERNBASE, EXTMEM. lia. }
  assert (Ei : idt s1 = idt s) by done. clearbody s1. eapply kruns_step; [reflexivity|].
  destruct (av_cpus _ _ _ A1) as [_ C2 C3 C4]. pose proof (f_equal length C2) as Hlen. rewrite length_take, C3 in Hlen. unfold NCPU in *.
  replace (bncpu (kboard s1)) with (Z.of_nat (length ids)) by lia.
  eapply kruns_weaken; [apply (start_loop_runs (length ids) 0 d l s1 A1); [lia|lia|lia|done|lia]|].
  intros u s2 (G2 & M2 & t & l' & Et & Ht & A2). split; [destruct G2 as [-> _]; done|]. exists t, l'. split; [done|]. split; [|done].
  split; [|intros c Hc Hne; by apply M2]. pose proof (find_id_lt ids 0 me Hme). unfold others_in in Ht.
  destruct (Z.leb_spec 0 (Z.of_nat me)), (Z.ltb_spec (Z.of_nat me) (0 + Z.of_nat (length ids))); cbn [andb] in Ht; lia.
Qed.

(** From the interrupt controllers to the other processors. *)
Lemma devices_run vectors img dsize (rest : K (kernel D) unit) R d l s : alive d l s ->
  length (gdt (kpk s0)) = Z.to_nat NSEGS -> (Z.to_nat CONSOLE < length (devsw (fs (kf s0))))%nat ->
  length (bufs (lb (fl (fs (kf s0))))) = Z.to_nat NBUF -> (Z.to_nat NCPU <= length l)%nat ->
  0 <= csize <= 0x9000 -> KERNBASE + EXTMEM <= code -> code + csize <= kend -> kend < 2 ^ 32 ->
  (forall s' st l', l = st ++ l' -> all_started st s' -> alive d l' s' -> idt s' = tvinit vectors ->
    kruns rest [] s' R) ->
  kruns (zoom khw (lapicinit polls) ;; zoom kpk seginit ;; zoom khw picinit ;; zoom khw ioapicinit ;; consoleinit ;;
    zoom khw uartinit ;; modify (fun s => s <| idt := tvinit vectors |>) ;; zoom kf (zoom fs (zoom fl (zoom lb binit))) ;;
    zoom kf (zoom fs (zoom fl (zoom lb (ideinit img dsize)))) ;; startothers polls mpenter_addr entry_addr others code csize ;; rest) [] s R.
Proof.
  intros A Hg Hd Hb Hl Hcs Hc Hend Hk Hrest.
  eapply kruns_bind; [apply alive_safe; [exact A|by apply safe_lapicinit]|]. intros u1 s1 [A1 _].
  eapply kruns_bind; [by apply seginit_runs|]. intros u2 s2 A2. cbv beta in A2.
  eapply kruns_bind; [apply alive_safe; [exact A2|apply safe_picinit, kept_lapic]|]. intros u3 s3 [A3 _].
  eapply kruns_bind; [apply alive_safe; [exact A3|apply safe_ioapicinit, kept_lapic]|]. intros u4 s4 [A4 _].
  eapply kruns_bind; [by apply consoleinit_runs|]. intros u5 s5 A5. cbv beta in A5.
  eapply kruns_bind; [apply alive_safe; [exact A5|apply safe_uartinit, kept_lapic]|]. intros u6 s6 [A6 _].
  eapply kruns_bind; [by apply idt_runs|]. intros u7 s7 [A7 I7].
  eapply kruns_bind; [by apply binit_runs|]. intros u8 s8 [A8 I8].
  eapply kruns_bind; [by apply ideinit_runs|]. intros u9 s9 [A9 I9].
  eapply kruns_bind; [by apply startothers_runs|]. intros u10 s10 (I10 & st & l' & El & Hst & A10).
  apply (Hrest s10 st l'); try done. congruence.
Qed.

(** *** The last steps of a processor *)

Lemma mpmain_runs idt_addr d l s : alive d l s -> kruns (mpmain idt_addr) [] s (fun _ s' =>
  alive d l s' /\ kpk s' = kpk s /\ idt s' = idt s /\ idtr s' = pseudo_desc idt_addr 2048 /\
  aget (started s') (Z.of_nat me) = Some 1 /\ forall c, marked s c -> marked s' c).
Proof.
  intros A. unfold mpmain.
  eapply kruns_bind; [by apply mycpu_runs|]. intros x s1 (-> & A1 & K1 & S1 & I1 & _).
  eapply kruns_bind; [by apply mycpu_runs|]. intros x s2 (-> & A2 & K2 & S2 & I2 & _).
  eapply kruns_bind; [apply (alive_safe _ d l s2 A2), safe_print, Forall_app; split; [apply lit_bytes|by repeat constructor]|].
  intros u s3 (A3 & K3 & S3 & I3 & _). eapply kruns_step; [reflexivity|]. set (s4 := s3 <| idtr := _ |>).
  assert (A4 : alive d l s4) by (apply (alive_same d l s3); [done..|apply A3|done]).
  eapply kruns_bind; [by apply mycpu_runs|]. intros x s5 (-> & A5 & K5 & S5 & I5 & Er).
  eapply kruns_step; [reflexivity|].
  assert (Hlt : (me < length (started s5))%nat).
  { pose proof (find_id_lt ids 0 me Hme) as Hm. destruct (av_cpus _ _ _ A5) as [_ C2 _ C4].
    rewrite (sl_started _ _ (av_still _ _ _ A5)), Hs0. rewrite <- C2, length_take in Hm. unfold NCPU in *. lia. }
  rewrite aset_in by lia. eapply kruns_step; [reflexivity|]. eexists tt, _. split; [reflexivity|].
  change (started s4) with (started s3) in S5. split; [|split; [|split; [|split; [|split]]]].
  - apply (alive_same d l s5); [done..| |apply A5|done]. split; try done. cbn. by rewrite length_insert.
  - transitivity (kpk s4); [exact K5|]. transitivity (kpk s3); [done|]. congruence.
  - transitivity (idt s4); [exact I5|]. transitivity (idt s3); [done|]. congruence.
  - exact Er.
  - cbn. rewrite aget_of_nat, Nat2Z.id. by apply list_lookup_insert_eq.
  - intros c (x & Hx & Hne). rewrite <- S1, <- S2, <- S3, <- S5 in Hx. unfold marked. cbn.
    destruct (Z.eq_dec c (Z.of_nat me)) as [->|Hc].
    + exists 1. split; [|done]. rewrite aget_of_nat, Nat2Z.id. by apply list_lookup_insert_eq.
    + exists x. split; [|done]. apply aget_Some in Hx as [H0 Hx]. rewrite <- (Z2Nat.id c), aget_of_nat, Nat2Z.id by lia.
      rewrite list_lookup_insert_ne by lia. done.
Qed.

End stages.

(** *** [main] *)

(** What the linker promises: the kernel ends well below the first four megabytes, and has
    in it the start code of the other processors and the code of the first process. *)
Record linked (code csize init isize : Z) : Prop := {
  lk_end : kend + PGSIZE * 80 <= first_end;
  lk_data : data_ok data;
  lk_code : KERNBASE + EXTMEM <= code /\ code + csize <= kend /\ 0 <= csize <= 0x9000;
  lk_init : KERNBASE + EXTMEM <= init /\ init + isize <= kend /\ 0 <= isize < PGSIZE }.

(** The state in which the boot loader enters the kernel: static data is zero, and the
    firmware has left its tables. *)
Record cold (mp conf : Z) (es : list entry) (s : kernel D) : Prop := {
  cd_kmem : kmem_inv kend (pkmem (kpk s)) [];
  cd_proc : exists q, procs (kpk s) !! 0%nat = Some q /\ state q = UNUSED;
  cd_inode : exists x, icache (fs (kf s)) !! 0%nat = Some x;
  cd_icache : Forall (fun y => iref y = 0) (icache (fs (kf s)));
  cd_gdt : length (gdt (kpk s)) = Z.to_nat NSEGS;
  cd_devsw : (Z.to_nat CONSOLE < length (devsw (fs (kf s))))%nat;
  cd_bufs : length (bufs (lb (fl (fs (kf s))))) = Z.to_nat NBUF;
  cd_started : started s = replicate (Z.to_nat NCPU) 0;
  cd_ids : length (bapicids (kboard s)) = Z.to_nat NCPU;
  cd_ncpu : bncpu (kboard s) = 0;
  cd_cons : cons_ok (fcons (fs (kf s)));
  cd_firmware : firmware kend (kmm s) mp conf es }.

Lemma first_code trapret forkret m m' code size s p l : (forall o, 0 <= o < size -> load8 m (code + o) = load8 m' (code + o)) ->
  first_proc kend trapret forkret m code size s p l -> first_proc kend trapret forkret m' code size s p l.
Proof.
  intros E [F1 F2 F3 F4 F5 F6 F7]. split; try done. intros o Ho. rewrite F5 by done.
  destruct (Z.ltb_spec o size); [apply E; lia|done].
Qed.

(** A process does not hold a page that is free. *)
Lemma holds_used s p l v : whole_proc kend s p l -> holds (kmemory (pkmem s)) p v -> v ∉ l.
Proof.
  intros [_ A _ [_ Hs] _ _] [->|[Ho|(va & Hu & Hm & ->)]]; [done| |].
  - by destruct (own_page kend _ _ _ _ (as_pt _ _ _ _ A) Ho).
  - by destruct (as_frame _ _ _ _ A va Hu Hm) as (_ & ? & _).
Qed.

(** Every page has one use: the pages of the first four megabytes went to the directory, to
    the stacks, and with the others to the first process or the free list. *)
Lemma pages_once tb st l3 h l (H : Z -> Prop) : NoDup (tb ++ st ++ l3) -> NoDup l ->
  (forall v, v ∈ tb ++ st ++ l3 <-> between kend first_end v) ->
  (forall v, v ∈ h <-> between first_end (KERNBASE + PHYSTOP) v) ->
  (forall v, v ∈ h ++ l3 <-> v ∈ l \/ H v) -> (forall v, H v -> v ∉ l) -> kend <= first_end ->
  (forall v, between kend (KERNBASE + PHYSTOP) v <-> v ∈ tb ++ st ++ l \/ H v) /\
  NoDup (tb ++ st ++ l) /\ forall v, H v -> v ∉ tb ++ st ++ l.
Proof.
  intros N1 N2 Hlow Hhigh Hl Hno He. rewrite (assoc_L (++)) in *. set (a := tb ++ st) in *. clearbody a.
  apply NoDup_app in N1 as (Na & Hd & _).
  assert (Ha : forall v, v ∈ a -> v ∉ h ++ l3).
  { intros v Hv [Hh|Hv']%elem_of_app; [|by apply (Hd v)]. apply Hhigh in Hh as (_ & ? & _).
    assert (Hin : v ∈ a ++ l3) by (apply elem_of_app; by left). apply Hlow in Hin as (_ & _ & ?). unfold PGSIZE in *. lia. }
  assert (Hcut : forall v, between kend (KERNBASE + PHYSTOP) v <-> between kend first_end v \/ between first_end (KERNBASE + PHYSTOP) v).
  { intros v. unfold between. pose proof (eq_refl : first_end = 0x80400000) as E. rewrite E in *.
    unfold KERNBASE, PHYSTOP, EXTMEM, PGSIZE in *. dlia. }
  split; [|split].
  - intros v. rewrite Hcut, <- Hlow, <- Hhigh, !elem_of_app. specialize (Hl v). rewrite elem_of_app in Hl. tauto.
  - apply NoDup_app. split; [done|]. split; [|done]. intros v Hv Hv'. apply (Ha v Hv), Hl. by left.
  - intros v Hv [Hv'|Hv']%elem_of_app; [|by apply (Hno v)]. apply (Ha v Hv'), Hl. by right.
Qed.

(** The state in which [main] enters the scheduler, from the state [s]. *)
Record booted (trapret forkret init isize idt_addr : Z) (vectors : Z -> Z) (la : Z) (ids : list Z) (me : nat)
    (s s' : kernel D) (d : Z) (p : proc) (x : inode) (tb stacks l : list Z) : Prop := {
  bt_up : up (kmm s) tb s' d l;
  bt_table : procs (kpk s') = <[0%nat := p]> (procs (kpk s));
  bt_first : first_proc kend trapret forkret (kmm s) init isize (kpk s') p l;
  bt_state : state p = RUNNABLE /\ pid p = nextpid (kpk s) /\ initproc (kpk s') = Some 0%nat;
  bt_queue : exists qu, aget (schedulingQueues (kpk s')) 0 = Some qu /\ ring_rep qu [0%nat];
  bt_cwd : cwd p = inode_ptr 0 /\ icache (fs (kf s')) !! 0%nat = Some x /\ is_for ROOTDEV ROOTINO x /\ iref x = 1;
  bt_idt : idt s' = tvinit vectors /\ idtr s' = pseudo_desc idt_addr 2048;
  bt_cpus : cpus_known la ids s' /\ aget (started s') (Z.of_nat me) = Some 1 /\
    forall c, 0 <= c < Z.of_nat (length ids) -> marked s' c;
  bt_pages v : between kend (KERNBASE + PHYSTOP) v <-> v ∈ tb ++ stacks ++ l \/ holds (kmm s') p v;
  bt_stacks : S (length stacks) = length ids;
  bt_once : NoDup (tb ++ stacks ++ l) /\ forall v, holds (kmm s') p v -> v ∉ tb ++ stacks ++ l }.

Section main.
Context (trapret forkret : Z) (lock_addr ilock_addr : nat -> Z) (input_r : Z) (fuel polls : nat)
  (mpenter_addr entry_addr idt_addr : Z) (vectors : Z -> Z) (others : kernel D -> kernel D).
Context (code csize init isize : Z) (img : Z -> block) (dsize : Z).
Context (mp conf : Z) (es : list entry) (id : Z) (me : nat).

(** The end of [main], when the other processors run. *)
Lemma last_steps s s0 s1 d tb st l2 l3 la ids : linked code csize init isize -> KERNBASE / PGSIZE + 2 <= Z.of_nat fuel ->
  la <> 0 -> (forall d : D, Z.shiftr (mread (la + 4 * ID) d).1 24 = id) -> find_id ids id 0 = Some me ->
  cold mp conf es s -> still s s0 -> NoDup (tb ++ l2) -> (forall v, v ∈ tb ++ l2 <-> between kend first_end v) ->
  l2 = st ++ l3 -> all_started ids me st s1 -> alive la ids (kmm s) tb s0 d l3 s1 -> idt s1 = tvinit vectors ->
  kruns (zoom kpk (zoom pkmem (kinit2 kend first_end (P2V PHYSTOP) fuel)) ;;
    zoom kf (zoom fs (userinit kend data trapret forkret lock_addr ilock_addr input_r fuel init isize)) ;; mpmain idt_addr) [] s1
    (fun _ s' => exists d p x tb stacks l, booted trapret forkret init isize idt_addr vectors la ids me s s' d p x tb stacks l).
Proof.
  intros [Lend Ldata Lcode Linit] Hfuel Hla Hid Hme Hcold St0 Hnd Hlow -> [Hst Hmk] [U1 St1 C1] I1.
  pose proof (still_trans _ _ _ St0 St1) as St. pose proof (eq_refl : first_end = 0x80400000) as E0.
  assert (Hall : Forall (between kend first_end) (tb ++ st ++ l3)) by (apply Forall_forall; intros v; apply Hlow).
  apply Forall_app in Hall as [Htb Hall]. apply Forall_app in Hall as [_ Hl3].
  eapply kruns_bind; [apply (kinit2_runs fuel (kmm s) tb s1 d l3); try done; unfold PGSIZE in *; lia|].
  intros u s2 (h & U2 & St2 & B2 & I2 & Es2 & Hh). pose proof (still_trans _ _ _ St St2) as St02.
  destruct (cd_proc _ _ _ _ Hcold) as (q & Hq & Hun). destruct (cd_inode _ _ _ _ Hcold) as (x0 & Hx0).
  assert (Hmany : (71 < length (h ++ l3))%nat).
  { rewrite length_app. assert (100 <= length h)%nat; [|lia]. apply (many_pages h first_end); [done|]. intros v H1 H2 H3. apply Hh.
    split; [done|]. unfold KERNBASE, PHYSTOP, PGSIZE in *. lia. }
  eapply kruns_bind.
  { eapply (userinit_up fuel (kmm s) tb trapret forkret lock_addr ilock_addr input_r init isize s2 d (h ++ l3) q x0); try done;
      rewrite ?(sl_procs _ _ St02), ?(sl_icache _ _ St02); try done; try apply Hcold; unfold KERNBASE, EXTMEM, PGSIZE in *; lia. }
  intros u' s3 (p & x & l & Hr & U3 & B3 & I3 & Es3).
  assert (A3 : alive la ids (kmm s) tb s3 d l s3).
  { split; [done|apply still_refl|]. destruct C1. split; by rewrite B3, B2. }
  eapply kruns_weaken; [apply (mpmain_runs la id ids me Hla Hme Hid (kmm s) tb s3 ltac:(rewrite Es3, Es2, (sl_started _ _ St), (cd_started _ _ _ _ Hcold); apply length_replicate) idt_addr d l s3 A3)|].
  intros u'' s4 (A4 & K4 & I4 & Ir & Hst4 & Mk4). destruct Hr as [R1 R2 R3 R4 R5 R6 R7].
  change (procs (kpk s3) = <[0%nat := p]> (procs (kpk s2))) in R1. rewrite (sl_procs _ _ St02) in R1.
  assert (Hl : forall v, v ∈ h ++ l3 <-> v ∈ l \/ holds (kmm s4) p v).
  { intros v. unfold kmm. rewrite K4. exact (fi_pages _ _ _ _ _ _ _ _ _ _ R2 v). }
  pose proof (fi_proc _ _ _ _ _ _ _ _ _ _ R2) as F. change (fbk (fs (kf s3))) with (kpk s3) in *. rewrite <- K4 in *.
  destruct (pages_once tb st l3 h l (holds (kmm s4) p)) as (P1 & P2); try done.
  { exact (ki_nodup _ _ _ (up_kmem _ _ _ _ _ (av_up _ _ _ _ _ _ _ _ A4))). }
  { intros v Hv. exact (holds_used _ _ _ _ (fi_whole _ _ _ _ _ _ _ _ _ F) Hv). }
  { unfold PGSIZE in *. lia. }
  exists d, p, x, tb, st, l. destruct P2 as [P2 P3]. destruct A4 as [U4 St4 C4]. split.
  - exact U4.
  - exact R1.
  - apply (first_code _ _ (kmm s2)); [|exact F]. intros o Ho. unfold load8. f_equal.
    apply (up_image _ _ _ _ _ U2). unfold KERNBASE, EXTMEM in *. lia.
  - destruct R3 as (? & R3 & ?). split; [done|]. split; [|done]. by rewrite R3, <- (sl_next _ _ St02).
  - exact R4.
  - by rewrite (sl_icache _ _ St4).
  - split; [congruence|exact Ir].
  - split; [exact C4|]. split; [exact Hst4|]. intros c Hc. destruct (Z.eq_dec c (Z.of_nat me)) as [->|Hne]; [by exists 1|].
    apply Mk4. unfold marked. rewrite Es3, Es2. by apply Hmk.
  - exact P1.
  - exact Hst.
  - exact (conj P2 P3).
Qed.

(** Up to the discovery of the processors. *)
Lemma first_steps s (rest : K (kernel D) unit) R : linked code csize init isize -> cold mp conf es s ->
  KERNBASE / PGSIZE + 2 <= Z.of_nat fuel -> (length es < polls)%nat ->
  (forall s' d tb l, NoDup (tb ++ l) -> (forall v, v ∈ tb ++ l <-> between kend first_end v) -> (Z.to_nat NCPU <= length l)%nat ->
    up (kmm s) tb s' d l -> still s s' -> cpus_known (conf_lapicaddr (kmm s) conf) (take 8 (cpu_ids es)) s' -> kruns rest [] s' R) ->
  kruns (zoom kpk (zoom pkmem (kinit1 kend kend first_end fuel)) ;; zoom kpk (kvmalloc kend data fuel) ;;
    zoom khw (mpinit polls) ;; rest) [] s R.
Proof.
  intros Hlinked Hcold Hfuel Hpolls Hrest. pose proof (eq_refl : first_end = 0x80400000) as E0.
  pose proof (lk_end _ _ _ _ Hlinked) as Lend. pose proof (cd_firmware _ _ _ _ Hcold) as Hfw.
  assert (He : kend <= first_end) by (unfold PGSIZE in *; lia).
  eapply kruns_bind.
  { apply kinit1_runs; [apply Hcold|done|]. change (KERNBASE / PGSIZE) with 524288 in Hfuel. unfold PGSIZE, KERNBASE, EXTMEM in *. lia. }
  intros u s1 (k1 & l1 & -> & Hk1 & Hout & Hl1). set (s1 := s <| kpk ::= _ |>).
  assert (Hmany : (75 <= length l1)%nat).
  { destruct (PGROUNDUP_bounds kend) as [Hm Hr]; [unfold KERNBASE, EXTMEM in *; lia|unfold PGSIZE in *; lia|].
    apply (many_pages l1 (PGROUNDUP kend)); [done|]. intros v H1 H2 H3. apply Hl1. split; [done|]. unfold PGSIZE in *. lia. }
  eapply kruns_bind.
  { apply (kvmalloc_runs fuel (kmm s) s1 l1); [done|lia|apply Hlinked|done| |apply Hcold]. intros x Hx. apply Hout. lia. }
  intros u' s2 (d & tb & l2 & El & Htb & U2 & St2 & B2 & O2).
  assert (Hlow : forall x, x < kend -> kmm s2 x = kmm s x).
  { intros x Hx. transitivity (kmm s1 x); [|apply Hout; lia]. apply O2. intros (v & Hv & Hin). apply Hl1 in Hv as (_ & ? & _). lia. }
  pose proof (eq_refl : P2V 0x400 = 0x80000400) as Eb.
  pose proof (firmware_same kend (kmm s) (kmm s2) Hlow mp conf es ltac:(rewrite Eb; unfold KERNBASE, EXTMEM in *; lia) Hfw) as Hfw2.
  assert (Ela : conf_lapicaddr (kmm s2) conf = conf_lapicaddr (kmm s) conf).
  { apply (below32 kend (kmm s) (kmm s2) Hlow). destruct Hfw as [_ _ F1 _ F2]. pose proof (table_size_length es). unfold sizeof_mpconf in *. lia. }
  eapply kruns_bind; [apply (mpinit_runs polls (kmm s) tb mp conf es s2 d l2); try done; rewrite B2; apply Hcold|].
  intros u'' s3 (U3 & St3 & C3). rewrite Ela in C3. rewrite El in *. rewrite length_app in Hmany.
  apply (Hrest s3 d tb l2); try done; [exact (ki_nodup _ _ _ Hk1)|unfold NCPU; lia|].
  eapply still_trans; [|exact St3]. apply (still_trans s s1 s2); [by split|done].
Qed.

Lemma delivered_more n k a (d : D) : delivered_within n a d -> (n <= k)%nat -> delivered_within k a d.
Proof.
  revert k d. induction n as [|n IH]; intros [|k] d Hd Hk; try done; [lia|]. cbn [delivered_within] in *.
  destruct (mread a d) as [v d']. destruct Hd as [?|[? Hd]]; [by left|right]. split; [done|]. apply IH; [done|lia].
Qed.

(** The identities in the table are bytes. *)
Lemma cpu_ids_bytes m : forall es p, table_at m p es -> Forall (fun x => 0 <= x < 256) (cpu_ids es).
Proof.
  clear. induction es as [|e es IH]; intros p; [constructor|]. cbn [table_at]. intros [He Ht].
  destruct e; cbn in *; [|by eapply IH..]. constructor; [|by eapply IH]. destruct He as [_ <-]. apply load8_range.
Qed.

(** C3: [main] brings the machine up.  From the state the boot loader leaves, with the
    tables of the firmware in low memory, it reaches the scheduler: the free list has all
    memory that is not in use, and no page has two uses; the kernel's directory maps all
    it should; the processors of the table are known and every one of them has said that
    it started, the others after they were called in order, each with a stack of its
    own; the interrupt table is loaded; and the first process is ready to run its code at
    address 0 in user mode, in the first queue, with the root as its directory.  Assumed are
    a local APIC that obeys its manual, and that a processor that is called with its code,
    stack, entry point and directory in place starts after some time. *)
Theorem main_boots (s : kernel D)
    (Hlinked : linked code csize init isize) (Hcold : cold mp conf es s)
    (Hfuel : KERNBASE / PGSIZE + 2 <= Z.of_nat fuel) (Hpolls : (length es < polls)%nat)
    (Hme : find_id (take 8 (cpu_ids es)) id 0 = Some me)
    (Hbase : conf_lapicaddr (kmm s) conf = lapic_base) (Hwait : (lapic_patience <= polls)%nat)
    (Hid : forall d : D, Z.shiftr (lregs d ID) 24 = id)
    (Hpeers : peers polls (kmm s) code csize mpenter_addr entry_addr others) :
  exists s' d p x tb stacks l,
    main kend data trapret forkret lock_addr ilock_addr input_r fuel polls mpenter_addr entry_addr idt_addr vectors others
      code csize init isize img dsize [] s = Ok tt [] s' /\
    booted trapret forkret init isize idt_addr vectors lapic_base (take 8 (cpu_ids es)) me s s' d p x tb stacks l.
Proof.
  cut (kruns (main kend data trapret forkret lock_addr ilock_addr input_r fuel polls mpenter_addr entry_addr idt_addr vectors others
      code csize init isize img dsize) [] s (fun _ s' => exists d p x tb stacks l,
      booted trapret forkret init isize idt_addr vectors lapic_base (take 8 (cpu_ids es)) me s s' d p x tb stacks l)).
  { intros ([] & s' & R & d & p & x & tb & st & l & H). by exists s', d, p, x, tb, st, l. }
  assert (Hdel : forall d : D, delivered_within polls (lapic_base + 4 * ICRLO) d) by (intros d; eapply delivered_more, Hwait; apply lapic_delivers).
  assert (Hid' : forall d : D, Z.shiftr (mread (lapic_base + 4 * ID) d).1 24 = id) by (intros d; rewrite lapic_get by (by left); apply Hid).
  assert (Hids : Forall (fun x => 0 <= x < 256) (take 8 (cpu_ids es))) by (eapply Forall_take, cpu_ids_bytes, (cd_firmware _ _ _ _ Hcold)).
  unfold main. change (P2V (4 * 1024 * 1024)) with first_end.
  apply (first_steps s); try done. rewrite Hbase. intros s1 d tb l Hnd Hlow Hmany U1 St C1.
  assert (Es : length (started s1) = Z.to_nat NCPU) by (rewrite (sl_started _ _ St), (cd_started _ _ _ _ Hcold); apply length_replicate).
  destruct (lk_code _ _ _ _ Hlinked) as (Lc1 & Lc2 & Lc3). pose proof (lk_end _ _ _ _ Hlinked) as Lend.
  pose proof (eq_refl : first_end = 0x80400000) as E0.
  apply (devices_run lapic_base id (take 8 (cpu_ids es)) me polls lapic_there Hme Hdel Hid' eq_refl (kmm s) tb s1
    code csize mpenter_addr entry_addr others Hpeers Es Hids _ _ _ _ _ d l);
    rewrite ?(sl_gdt _ _ St), ?(sl_devsw _ _ St), ?(sl_bufs _ _ St); try apply Hcold; try done;
    [unfold KERNBASE, EXTMEM, PGSIZE in *; lia..|].
  intros s2 st l' El Hst A2 I2. by apply (last_steps s s1 s2 d tb st l l' lapic_base _ Hlinked Hfuel lapic_there).
Qed.

End main.

End boot.

(** *** A machine that boots *)

(** The two processors of Mp.v, of which this one has the identity 5, with static data as
    the loader leaves it.  The devices are the registers of the local APIC and the messages
    it sent. *)
Record chip := mkChip { ch_regs : Z -> Z; ch_ipis : list (Z * Z) }.
#[export] Instance chip_ports : Ports chip := {|
  inb _ c := (0xff, c); outb _ _ c := c; inl _ c := (0, c); outl _ _ c := c |}.
Definition chip_reg (c : chip) (i : Z) : Z := if i =? ID then 5 * 2 ^ 24 else ch_regs c i.
#[export] Instance chip_mmio : Mmio chip := {|
  mread a c := let i := (a - pc_base) / 4 in (if i =? ICRLO then 0 else chip_reg c i, c);
  mwrite a v c := let i := (a - pc_base) / 4 in
    mkChip (put_reg (ch_regs c) i v) (put_ipi (ch_regs c) (ch_ipis c) i v) |}.
#[export] Instance chip_lapic : LapicChip chip.
Proof.
  refine {| lapic_base := pc_base; lregs := chip_reg; ipis := ch_ipis; lapic_patience := 1%nat |}.
  - done.
  - intros i v d x Hi Hx. pose proof (lapic_used_pos i Hi) as H0. cbn -[pc_base]. destruct (pc_index i H0) as (-> & _).
    unfold chip_reg, put_reg. destruct (Z.eqb_spec x ID) as [->|]; [|done].
    destruct (Z.eqb_spec ID i) as [<-|]; [|done]. exfalso. revert Hi. by_list.
  - intros i v d Hi%lapic_used_pos. cbn -[pc_base]. destruct (pc_index i Hi) as (-> & _). done.
  - intros i d Hi. cbn -[pc_base]. destruct (pc_index i) as (-> & _); [by destruct Hi as [-> | ->]|]. by destruct Hi as [-> | ->].
  - intros i d Hi. done.
  - intros p v d. done.
  - intros d. cbn -[pc_base ICRLO]. destruct (pc_index ICRLO) as (-> & _); [done|]. rewrite Z.eqb_refl. by left.
Defined.
Definition ex_end : Z := 0x80120000.
Definition ex_procs : pstate :=
  (machine (replicate 64 blank_proc)) <| pkmem := mkKmem ex_mem 0 0 |> <| curproc := None |> <| ticks := 0 |>.
Definition ex_cold : kernel chip :=
  mkKernel (mkFilest (mkFstate (mkLst ((cache_with [] (fun _ _ => 0) 0) <| bk := ex_procs |>) (demo_log 0 []))
      (replicate 50 (mkInode 0 0 0 (Sleeplock.mkSleeplock 0 0) 0 0 0 0 0 0 (replicate 13 0))) (mkSb 0 0 0 0 0 0 0)
      (mkConsole 0 0 0 [] (replicate 2000 0) 0 (replicate 128 0) 0 0 0 0) (replicate 10 (mkDevsw None None)))
      [] ∅ (fun _ => 0))
    (mkBoard (replicate 8 0) 0 0 0 0 (mkChip (fun _ => 0) [])) [] [] (replicate 8 0).
(** The other processor starts at once. *)
Definition ex_others (s : kernel chip) : kernel chip := s <| started ::= map (fun _ => 1) |>.

Lemma ex_firmware : firmware ex_end ex_mem (P2V 0xF0000) (P2V 0xF0100) [Cpu 5; Other 1; Cpu 9; Ioapic 3].
Proof.
  assert (E : areas ex_mem = [(0x7FFFFC00, 64%nat); (0x800F0000, 4096%nat)]) by (vm_compute; reflexivity).
  split; [|vm_compute; done|vm_compute; done|vm_compute; repeat split; by left|vm_compute; done].
  intros a Ha. rewrite E, !elem_of_cons, elem_of_nil in Ha. destruct Ha as [->|[->|[]]]; vm_compute; done.
Qed.

Lemma ex_cold_ok : cold ex_end (P2V 0xF0000) (P2V 0xF0100) [Cpu 5; Other 1; Cpu 9; Ioapic 3] ex_cold.
Proof.
  split; [|by exists blank_proc|by eexists|by apply Forall_replicate|reflexivity| |reflexivity|reflexivity|reflexivity|reflexivity|
    |apply ex_firmware].
  - split; [reflexivity|constructor|constructor].
  - apply Nat.ltb_lt. reflexivity.
  - split; [reflexivity|reflexivity|]. cbn. lia.
Qed.

Lemma ex_marks s c : length (started s) = Z.to_nat NCPU -> 0 <= c < NCPU -> marked (ex_others s) c.
Proof.
  intros Hl Hc. exists 1. split; [|done]. cbn. unfold NCPU in *. destruct (aget_in (started s) c) as [y Hy]; [lia|]. apply aget_Some in Hy as [H0 Hy].
  destruct (aget_in (map (fun _ => 1) (started s)) c) as [z Hz]; [rewrite length_map; lia|]. rewrite Hz.
  apply aget_Some in Hz as [_ Hz]. by rewrite list_lookup_fmap, Hy in Hz.
Qed.

Lemma ex_peers : peers ex_end 10 ex_mem 0x8010B000 100 0x80102000 0x80109000 ex_others.
Proof.
  split.
  - intros s Hc. split; [done|]. split; [split; try done; cbn; by rewrite length_map|]. split; [done|]. split; [done|].
    exists (bdev (kboard s)). by destruct s as [? [] ? ? ?].
  - intros s c (x & Hx & Hne). exists 1. split; [|done]. cbn. apply aget_Some in Hx as [H0 Hx].
    rewrite <- (Z2Nat.id c), aget_of_nat, list_lookup_fmap, Hx by lia. done.
  - intros s c Hl Hc _. exists 1%nat. split; [lia|]. by apply ex_marks.
Qed.

Lemma main_boots_witness : exists s' d p x tb stacks l,
  main ex_end 0x80108000 0x80105000 0x80103000 (fun i => 100 + Z.of_nat i) (fun i => 500 + Z.of_nat i) 50
    (Z.to_nat 600000) 10 0x80102000 0x80109000 0x8010A000 (fun i => 0x80106000 + 8 * i) ex_others
    0x8010B000 100 0x8010B100 44 (fun _ _ => 0) 0 [] ex_cold = Ok tt [] s' /\
  booted ex_end 0x80108000 0x80105000 0x80103000 0x8010B100 44 0x8010A000 (fun i => 0x80106000 + 8 * i) 0xFEE00000 [5; 9] 0
    ex_cold s' d p x tb stacks l /\ length stacks = 1%nat.
Proof.
  destruct (main_boots (D := chip) ex_end 0x80108000 ltac:(unfold ex_end, KERNBASE, EXTMEM; lia) 0x80105000 0x80103000
    (fun i => 100 + Z.of_nat i) (fun i => 500 + Z.of_nat i) 50 (Z.to_nat 600000) 10 0x80102000 0x80109000 0x8010A000
    (fun i => 0x80106000 + 8 * i) ex_others 0x8010B000 100 0x8010B100 44 (fun _ _ => 0) 0 (P2V 0xF0000) (P2V 0xF0100)
    [Cpu 5; Other 1; Cpu 9; Ioapic 3] 5 0 ex_cold) as (s' & d & p & x & tb & st & l & R & B).
  - split; [done| | |]; unfold ex_end, data_ok, KERNLINK, KERNBASE, EXTMEM, PHYSTOP, PGSIZE; try lia. split; [done|lia].
  - exact ex_cold_ok.
  - rewrite Z2Nat.id by lia. change (KERNBASE / PGSIZE) with 524288. lia.
  - cbn. lia.
  - reflexivity.
  - vm_compute. reflexivity.
  - cbn. lia.
  - intros d. reflexivity.
  - exact ex_peers.
  - exists s', d, p, x, tb, st, l. split; [exact R|]. split; [exact B|]. pose proof (bt_stacks _ _ _ _ _ _ _ _ _ _ _ _ _ _ _ _ _ _ _ B) as H.
    by injection H.
Defined.

End MainSpec.
