(* ===== verification/Ide.v ===== *)
(** The IDE disk driver (ide.c).

    The requests are a queue of buffers, linked through [qnext]; the first one is
    being served by the disk.  The state has the buffers and the process table of
    Bio.v, the variables of ide.c and the machine. *)

From stdpp Require Import base numbers list sets strings.
From Stdlib Require Import ZArith Lia.
From S2P Require Import Prelude Mem CString Mmu Seg Kalloc Param Proc ProcSpec Sleeplock Bio BioSpec Ports Trap Mp Apic.
Import Kalloc Param Proc Sleeplock Bio BioSpec Ports Trap Mp Apic.

Module Ide.

Definition SECTOR_SIZE : Z := 512.
Definition IDE_BSY : Z := 0x80.
Definition IDE_DRDY : Z := 0x40.
Definition IDE_DF : Z := 0x20.
Definition IDE_ERR : Z := 0x01.
Definition IDE_CMD_READ : Z := 0x20.
Definition IDE_CMD_WRITE : Z := 0x30.
Definition IDE_CMD_RDMUL : Z := 0xc4.
Definition IDE_CMD_WRMUL : Z := 0xc5.

Record idest (D : Type) := mkIdest {
  ib : bst;
  qnext : nat -> option nat;    (* b->qnext *)
  idequeue : option nat;
  havedisk1 : Z;
  ihw : hw D }.
Arguments mkIdest {D}.
Arguments ib {D}.
Arguments qnext {D}.
Arguments idequeue {D}.
Arguments havedisk1 {D}.
Arguments ihw {D}.
#[export] Instance eta_idest D : Eta (idest D) := fun s =>
  mkIdest s.(ib) s.(qnext) s.(idequeue) s.(havedisk1) s.(ihw).

(** The process table in the state. *)
Definition ipk {D} (s : idest D) : pstate := bk (ib s).
#[export] Instance setter_ipk D : Setter (@ipk D) := fun f s => s <| ib ::= fun b => b <| bk ::= f |> |>.

Section ide.
Context {D : Type} `{!Ports D} `{!Mmio D}.
(** Addresses of the buffers, and how often the status of the disk is read
    before the model gives up. *)
Variables (buf_addr : nat -> Z) (polls : nat).

Definition iout (port v : Z) : K (idest D) unit := zoom ihw (out port v).

(** [while (((r = inb(0x1f7)) & (IDE_BSY | IDE_DRDY)) != IDE_DRDY);] *)
Fixpoint idepoll (fuel : nat) : K (idest D) Z :=
  match fuel with
  | O => fault "out of fuel"
  | S f =>
      r ← zoom ihw (inp 0x1f7);
      if negb (Z.land r (Z.lor IDE_BSY IDE_DRDY) =? IDE_DRDY) then idepoll f else mret r
  end.

Definition idewait (checkerr : bool) : K (idest D) Z :=
  r ← idepoll polls;
  if checkerr && nz (Z.land r (Z.lor IDE_DF IDE_ERR)) then mret (-1) else mret 0.

(** The search for disk 1. *)
Fixpoint probe (n : nat) : K (idest D) unit :=
  match n with
  | O => mret tt
  | S n' =>
      r ← zoom ihw (inp 0x1f7);
      if nz r then modify (fun s => s <| havedisk1 := 1 |>) else probe n'
  end.

Definition ideinit : K (idest D) unit :=
  n ← gets (fun s => ncpu (ihw s));
  zoom ihw (ioapicenable IRQ_IDE (n - 1)) ;;
  idewait false ;;
  iout 0x1f6 (Z.lor 0xe0 (Z.shiftl 1 4)) ;;
  probe 1000 ;;
  iout 0x1f6 (Z.lor 0xe0 (Z.shiftl 0 4)).

Definition idestart (ob : option nat) : K (idest D) unit :=
  match ob with
  | None => panic "idestart"
  | Some i =>
      b ← zoom ib (get_buf i);
      if FSSIZE <=? blockno b then panic "incorrect blockno" else
      let sector_per_block := BSIZE / SECTOR_SIZE in
      let sector := i32 (blockno b * sector_per_block) in
      let read_cmd := if sector_per_block =? 1 then IDE_CMD_READ else IDE_CMD_RDMUL in
      let write_cmd := if sector_per_block =? 1 then IDE_CMD_WRITE else IDE_CMD_WRMUL in
      if 7 <? sector_per_block then panic "idestart" else
      idewait false ;;
      iout 0x3f6 0 ;;
      iout 0x1f2 sector_per_block ;;
      iout 0x1f3 (Z.land sector 0xff) ;;
      iout 0x1f4 (Z.land (Z.shiftr sector 8) 0xff) ;;
      iout 0x1f5 (Z.land (Z.shiftr sector 16) 0xff) ;;
      iout 0x1f6 (Z.lor (Z.lor 0xe0 (Z.shiftl (Z.land (bdev b) 1) 4)) (Z.land (Z.shiftr sector 24) 0x0f)) ;;
      if nz (Z.land (flags b) B_DIRTY) then
        iout 0x1f7 write_cmd ;;
        modify (fun s => s <| ihw ::= fun h => h <| hdev ::= outsl 0x1f0 0 (Z.to_nat (BSIZE / 4)) (bdata b) |> |>)
      else iout 0x1f7 read_cmd
  end.

(** [insl(0x1f0, b->data, BSIZE / 4)] *)
Definition read_data (i : nat) : K (idest D) unit :=
  b ← zoom ib (get_buf i);
  d ← gets (fun s => hdev (ihw s));
  let '(m, d) := insl 0x1f0 0 (Z.to_nat (BSIZE / 4)) (bdata b) d in
  modify (fun s => s <| ihw ::= fun h => h <| hdev := d |> |>) ;;
  zoom ib (upd_buf i (fun b => b <| bdata := m |>)).

Definition ideintr : K (idest D) unit :=
  acquire Lide ;;
  q ← gets idequeue;
  match q with
  | None => release Lide
  | Some i =>
      n ← gets (fun s => qnext s i);
      modify (fun s => s <| idequeue := n |>) ;;
      b ← zoom ib (get_buf i);
      (if negb (nz (Z.land (flags b) B_DIRTY)) then
         r ← idewait true; if 0 <=? r then read_data i else mret tt
       else mret tt) ;;
      zoom ib (upd_buf i (fun b => b <| flags ::= fun f => Z.lor f B_VALID |>)) ;;
      zoom ib (upd_buf i (fun b => b <| flags ::= fun f => Z.land f (Z.lnot B_DIRTY) |>)) ;;
      zoom ipk (wakeup (buf_addr i)) ;;
      q ← gets idequeue;
      (match q with Some _ => idestart q | None => mret tt end) ;;
      release Lide
  end.

(** [struct buf **pp]: [&idequeue], or [&b->qnext]. *)
Inductive slot := Shead | Snext (i : nat).
Definition slot_get (p : slot) (s : idest D) : option nat :=
  match p with Shead => idequeue s | Snext i => qnext s i end.
Definition slot_set (p : slot) (v : option nat) (s : idest D) : idest D :=
  match p with
  | Shead => s <| idequeue := v |>
  | Snext i => s <| qnext ::= fun f j => if (j =? i)%nat then v else f j |>
  end.

(** The slot at the end of the queue, found by following [qnext]. *)
Fixpoint last_slot (fuel : nat) (p : slot) : K (idest D) slot :=
  match fuel with
  | O => fault "out of fuel"
  | S f =>
      v ← gets (slot_get p);
      match v with Some i => last_slot f (Snext i) | None => mret p end
  end.

(** [while ((b->flags & (B_VALID | B_DIRTY)) != B_VALID) sleep(b, &idelock);] *)
Fixpoint wait_served (swtch : K (idest D) unit) (fuel : nat) (i : nat) : K (idest D) unit :=
  match fuel with
  | O => fault "out of fuel"
  | S f =>
      b ← zoom ib (get_buf i);
      if negb (Z.land (flags b) (Z.lor B_VALID B_DIRTY) =? B_VALID)
      then sleep_in ipk swtch (buf_addr i) Lide ;; wait_served swtch f i
      else mret tt
  end.

(** The requests are buffers, so a queue has at most as many as there are. *)
Definition iderw (swtch : K (idest D) unit) (fuel : nat) (i : nat) : K (idest D) unit :=
  h ← zoom ib (holds_buf i);
  if negb h then panic "iderw: buf not locked" else
  b ← zoom ib (get_buf i);
  one ← gets havedisk1;
  if Z.land (flags b) (Z.lor B_VALID B_DIRTY) =? B_VALID then panic "iderw: nothing to do"
  else if nz (bdev b) && negb (nz one) then panic "iderw: ide disk 1 not present"
  else
    acquire Lide ;;
    modify (slot_set (Snext i) None) ;;
    n ← gets (fun s => length (bufs (ib s)));
    p ← last_slot (S n) Shead;
    modify (slot_set p (Some i)) ;;
    q ← gets idequeue;
    (if decide (q = Some i) then idestart (Some i) else mret tt) ;;
    wait_served swtch fuel i ;;
    release Lide.

End ide.

End Ide.
