(* ===== verification/IdeSpec.v ===== *)
(** What the IDE driver promises: whatever requests arrive while others are
    served, they are served in order, each exactly once, and what is read is what
    was written last. *)

From stdpp Require Import base numbers list sets strings.
From Stdlib Require Import ZArith Lia.
From S2P Require Import Prelude Mem CString Mmu Seg Kalloc Param Proc ProcSpec Sleeplock Bio BioSpec Ports Console Trap Mp Apic Ide.
Import Kalloc Param Proc Sleeplock Bio BioSpec Ports Trap Mp Apic Ide.

Module IdeSpec.

Section spec.
Context {D : Type} `{!Ports D} `{!Mmio D} `{!Ata D}.
Context (buf_addr : nat -> Z) (polls : nat) (Hpolls : (patience <= polls)%nat).
Implicit Types (s : idest D) (A : Z -> Z -> mem).

Definition dev s : D := hdev (ihw s).
Definition at_ata s : ata := ata_of (dev s).
Definition with_dev s (d : D) : idest D := s <| ihw ::= fun h => h <| hdev := d |> |>.

Lemma with_dev_same s : with_dev s (dev s) = s.
Proof. by destruct s as [? ? ? ? []]. Qed.

(** The call changes the machine only, and its disk to one with [Q]. *)
Definition devs {X} (m : K (idest D) X) (l : locks) s (Q : X -> ata -> Prop) : Prop :=
  kruns m l s (fun x s' => exists d, s' = with_dev s d /\ Q x (ata_of d)).

Lemma devs_bind {X Y} (m : K (idest D) X) (f : X -> K (idest D) Y) l s Q R :
  devs m l s Q -> (forall x d, Q x (ata_of d) -> devs (f x) l (with_dev s d) R) -> devs (m ≫= f) l s R.
Proof.
  intros Hm Hf. eapply kruns_bind; [exact Hm|]. intros x s' (d & -> & HQ). eapply kruns_weaken; [by apply Hf|].
  intros y s' (d' & -> & HR). by exists d'.
Qed.

Lemma devs_read {X Y} (m : K (idest D) X) (f : X -> K (idest D) Y) l s x R :
  m l s = Ok x l s -> devs (f x) l s R -> devs (m ≫= f) l s R.
Proof. intros Hm Hf. unfold devs, kruns. by erewrite bind_Ok by exact Hm. Qed.

Lemma idepoll_ok n : forall fuel l s, ready_within n (dev s) -> (n <= fuel)%nat ->
  devs (idepoll fuel) l s (fun r a => a = at_ata s /\ Z.land r 0x21 = 0).
Proof.
  induction n as [|n IH]; intros [|f] l s Hr Hf; try done; try lia. cbn [idepoll ready_within] in *.
  pose proof (ata_status (dev s)) as Hst. unfold dev in *. destruct (inb 0x1f7 (hdev (ihw s))) as [r d] eqn:E. cbn in Hst.
  assert (Hz : zoom ihw (inp 0x1f7) l s = Ok r l (with_dev s d)) by (unfold zoom, inp; by rewrite E).
  change (Z.lor IDE_BSY IDE_DRDY) with 0xc0. unfold IDE_DRDY, devs, kruns. erewrite bind_Ok by exact Hz.
  destruct Hr as [[H1 H2]|[H1 H2]].
  - rewrite H1. eexists r, _. split; [reflexivity|]. exists d. by rewrite Hst.
  - rewrite (proj2 (Z.eqb_neq _ _) H1). cbn [negb].
    destruct (IH f l (with_dev s d) H2 ltac:(lia)) as (r' & s' & R & d' & -> & HQ). exists r', (with_dev s d').
    split; [exact R|]. exists d'. split; [done|]. unfold at_ata, dev in *. cbn in HQ. by rewrite Hst in HQ.
Qed.

Lemma idewait_ok c l s : devs (idewait polls c) l s (fun r a => r = 0 /\ a = at_ata s).
Proof.
  unfold idewait. eapply devs_bind; [apply (idepoll_ok patience); [apply ata_ready|done]|].
  intros r d [Hd Hr]. change (Z.lor IDE_DF IDE_ERR) with 0x21. rewrite Hr, andb_false_r.
  eexists 0, _. split; [reflexivity|]. by exists d.
Qed.

Lemma iout_ok port v l s : port ∈ ata_ports -> 0 <= v < 256 ->
  devs (iout port v) l s (fun _ a => a = ata_outb port v (at_ata s)).
Proof.
  intros Hp Hv. eexists tt, _. split; [reflexivity|]. eexists. split; [reflexivity|]. rewrite u8_small by lia.
  by apply ata_select.
Qed.

Lemma icmd_ok v l s : v = 0x20 \/ v = 0x30 -> nsect (at_ata s) = 1 ->
  devs (iout 0x1f7 v) l s (fun _ a => a = ata_outb 0x1f7 v (at_ata s)).
Proof.
  intros Hv Hn. eexists tt, _. split; [reflexivity|]. eexists. split; [reflexivity|].
  rewrite u8_small by lia. by apply ata_command.
Qed.

(** *** Starting a request *)

Definition dirty (b : buf) : bool := nz (Z.land (flags b) B_DIRTY).
Definition disk_of (b : buf) : Z := Z.land (bdev b) 1.

(** What the request for [b] makes of the contents of the disks. *)
Definition serve (b : buf) A : Z -> Z -> mem :=
  if dirty b then put_sector A (disk_of b) (blockno b) (bdata b) else A.

(** The controller holds the contents [A]. *)
Definition contains (a : ata) A : Prop := forall dr n, same_block (A dr n) (sectors a dr n).

(** The controller is about to send the block of [b]. *)
Definition sending (b : buf) (a : ata) : Prop := ph a = Sending 0 /\ lba a = blockno b /\ drive a = disk_of b.

Lemma put_sector_same A A' dr n m m' : (forall dr n, same_block (A dr n) (A' dr n)) -> same_block m m' ->
  forall dr' n', same_block (put_sector A dr n m dr' n') (put_sector A' dr n m' dr' n').
Proof. intros HA Hm dr' n'. unfold put_sector. destruct (_ && _); [done|apply HA]. Qed.

(** The registers that [idestart] sets. *)
Definition selected (b : buf) (a : ata) : ata :=
  a <| nsect := 1 |> <| lba0 := Z.land (blockno b) 0xff |> <| lba1 := Z.land (Z.shiftr (blockno b) 8) 0xff |>
    <| lba2 := Z.land (Z.shiftr (blockno b) 16) 0xff |>
    <| drivehead := Z.lor (Z.lor 0xe0 (Z.shiftl (disk_of b) 4)) (Z.land (Z.shiftr (blockno b) 24) 0x0f) |>.

Lemma disk_of_bit b : disk_of b = 0 \/ disk_of b = 1.
Proof.
  unfold disk_of. assert (Z.land (bdev b) 1 = bdev b mod 2) as -> by (apply (Z.land_ones _ 1); lia).
  pose proof (Z.mod_pos_bound (bdev b) 2 ltac:(lia)). lia.
Qed.

Lemma land_byte x : 0 <= Z.land x 0xff < 256.
Proof. change 0xff with (Z.ones 8). rewrite Z.land_ones by lia. apply Z.mod_pos_bound. lia. Qed.

Lemma drivehead_byte b : 0 <= blockno b < FSSIZE ->
  0 <= Z.lor (Z.lor 0xe0 (Z.shiftl (disk_of b) 4)) (Z.land (Z.shiftr (blockno b) 24) 0x0f) < 256.
Proof.
  unfold FSSIZE. intros Hn. rewrite Z.shiftr_div_pow2, Z.div_small by lia.
  destruct (disk_of_bit b) as [-> | ->]; vm_compute; split; congruence.
Qed.

Lemma selected_address b a : 0 <= blockno b < FSSIZE -> lba (selected b a) = blockno b /\ drive (selected b a) = disk_of b.
Proof.
  unfold FSSIZE. intros Hn. unfold lba, drive, selected. cbn [nsect lba0 lba1 lba2 drivehead upd].
  rewrite !Z.shiftr_div_pow2 by lia. change 0xff with (Z.ones 8). rewrite !Z.land_ones by lia.
  rewrite (Z.div_small (blockno b) (2 ^ 24)) by lia. rewrite (Z.div_small (blockno b) (2 ^ 16)) by lia. change (0 mod 2 ^ 8) with 0.
  destruct (disk_of_bit b) as [-> | ->]; (split; [|reflexivity]);
    (replace (Z.land (Z.lor (Z.lor 0xe0 (Z.shiftl _ 4)) (Z.land 0 0x0f)) 0xf) with 0 by reflexivity);
    change (2 ^ 8) with 256; dlia.
Qed.

Lemma zoom_get_buf i b l s : bufs (ib s) !! i = Some b -> zoom ib (get_buf i) l s = Ok b l s.
Proof. intros Hb. rewrite (zoom_Ok _ _ _ _ _ _ _ (get_buf_ok i b _ l Hb)). by destruct s. Qed.

Lemma idestart_ok i b l s A : bufs (ib s) !! i = Some b -> 0 <= blockno b < FSSIZE -> contains (at_ata s) A ->
  devs (idestart polls (Some i)) l s (fun _ a => contains a (serve b A) /\ (dirty b = false -> sending b a)).
Proof.
  intros Hb Hn HA. unfold idestart. eapply devs_read; [by apply zoom_get_buf|]. cbv beta zeta.
  rewrite (proj2 (Z.leb_gt _ _)) by lia. change (BSIZE / SECTOR_SIZE) with 1.
  rewrite Z.mul_1_r, i32_small by (unfold FSSIZE in *; lia). change (7 <? 1) with false. change (1 =? 1) with true. cbv iota.
  eapply devs_bind; [apply idewait_ok|]. intros _ d [_ E].
  do 6 (eapply devs_bind; [apply iout_ok; [by_list|first [lia|apply land_byte|by apply drivehead_byte]]|];
    intros [] ? E'; change (at_ata (with_dev _ ?d)) with (ata_of d) in E'; rewrite E in E'; clear E; rename E' into E).
  match type of E with ata_of ?x = _ => rename x into d6; change (ata_of d6 = selected b (at_ata s)) in E end.
  destruct (selected_address b (at_ata s) Hn) as [Hl Hdr]. rewrite <- E in Hl, Hdr.
  assert (Hns : nsect (ata_of d6) = 1) by (by rewrite E). assert (Hsec : sectors (ata_of d6) = sectors (at_ata s)) by (by rewrite E).
  unfold serve, dirty. destruct (nz (Z.land (flags b) B_DIRTY)).
  - eapply devs_bind; [apply icmd_ok; [by right|exact Hns]|]. intros [] d7 E7. change (ata_of d7 = (ata_of d6) <| ph := Receiving 0 (fun _ => 0) |>) in E7.
    destruct (outsl_writes 128 0 (bdata b) (fun _ => 0) d7) as (m & Em & Hm); [done|lia|by rewrite E7|intros x Hx; lia|].
    eexists tt, _. split; [reflexivity|]. eexists. split; [reflexivity|]. split; [|done].
    change (4 * Z.of_nat 0) with 0 in Em. change (Z.to_nat (BSIZE / 4)) with 128%nat. unfold contains. change (hdev _) with d7. rewrite Em.
    change (sectors (_ <| ph := Idle |>)) with (put_sector (sectors (ata_of d7)) (drive (ata_of d7)) (lba (ata_of d7)) m).
    rewrite E7. change (drive (_ <| ph := _ |>)) with (drive (ata_of d6)). change (lba (_ <| ph := _ |>)) with (lba (ata_of d6)).
    change (sectors (_ <| ph := _ |>)) with (sectors (ata_of d6)). rewrite Hl, Hdr, Hsec. by apply put_sector_same.
  - eapply kruns_weaken; [apply icmd_ok; [by left|exact Hns]|]. intros [] s' (d7 & -> & E7).
    change (ata_of d7 = (ata_of d6) <| ph := Sending 0 |>) in E7. exists d7. split; [done|]. rewrite E7. split; [|done].
    intros dr n. change (sectors (_ <| ph := _ |>)) with (sectors (ata_of d6)). rewrite Hsec. apply HA.
Qed.

(** *** The queue *)

(** The list that starts at [p]. *)
Fixpoint linked (nx : nat -> option nat) (p : option nat) (q : list nat) : Prop :=
  match q with
  | [] => p = None
  | i :: r => p = Some i /\ linked nx (nx i) r
  end.

Lemma linked_frame nx nx' q : forall p, (forall i, i ∈ q -> nx' i = nx i) -> linked nx p q -> linked nx' p q.
Proof.
  induction q as [|i q IH]; intros p Hf; cbn; [done|]. intros [-> Hl]. split; [done|].
  rewrite Hf by (by left). apply IH; [|done]. intros j Hj. apply Hf. by right.
Qed.

Definition put_next (nx : nat -> option nat) (i : nat) (v : option nat) : nat -> option nat :=
  fun j => if (j =? i)%nat then v else nx j.

Lemma put_next_same nx i v : put_next nx i v i = v.
Proof. unfold put_next. by rewrite Nat.eqb_refl. Qed.
Lemma put_next_other nx i v j : j <> i -> put_next nx i v j = nx j.
Proof. intros Hj. unfold put_next. by rewrite (proj2 (Nat.eqb_neq j i)). Qed.

(** The slot at the end of a list that starts in slot [p]. *)
Fixpoint end_slot (p : slot) (q : list nat) : slot :=
  match q with [] => p | i :: r => end_slot (Snext i) r end.

Lemma last_slot_ok l s q : forall p fuel, linked (qnext s) (slot_get p s) q -> (length q < fuel)%nat ->
  last_slot fuel p l s = Ok (end_slot p q) l s.
Proof.
  induction q as [|i q IH]; intros p [|f] Hl Hf; cbn in Hf; try lia; cbn [last_slot end_slot]; kstep.
  - cbn in Hl. by rewrite Hl.
  - destruct Hl as [-> Hl]. apply IH; [exact Hl|lia].
Qed.

Lemma linked_append nx i q : forall j p, linked nx p (j :: q) -> NoDup (j :: q) -> i ∉ j :: q -> nx i = None ->
  match end_slot (Snext j) q with Snext k => k ∈ j :: q /\ linked (put_next nx k (Some i)) p ((j :: q) ++ [i]) | Shead => False end.
Proof.
  induction q as [|k q IH]; intros j p Hl Hn Hi Hni.
  - cbn. destruct Hl as [-> Hl]. split; [by left|]. split; [done|]. rewrite put_next_same. split; [done|].
    rewrite put_next_other by (intros ->; apply Hi; by left). done.
  - destruct Hl as [-> Hl]. apply NoDup_cons in Hn as [Hj Hn].
    specialize (IH k (nx j) Hl Hn ltac:(intros H; apply Hi; by right) Hni). cbn [end_slot] in *.
    destruct (end_slot (Snext k) q) as [|e]; [done|]. destruct IH as [He IH]. split; [by right|].
    split; [done|]. rewrite put_next_other by (intros ->; done). exact IH.
Qed.

(** A new request joins the end of the queue. *)
Lemma append_ok s q i : linked (qnext s) (idequeue s) q -> NoDup q -> i ∉ q ->
  let s2 := slot_set (end_slot Shead q) (Some i) (slot_set (Snext i) None s) in
  linked (qnext s2) (idequeue s2) (q ++ [i]) /\
  s2 = s <| qnext := qnext s2 |> <| idequeue := idequeue s2 |>.
Proof.
  intros Hl Hn Hi. set (nx := put_next (qnext s) i None).
  assert (Hl' : linked nx (idequeue s) q).
  { eapply linked_frame; [|exact Hl]. intros j Hj. apply put_next_other. intros ->. done. }
  assert (Hni : nx i = None) by apply put_next_same. destruct q as [|j q].
  - cbn. by rewrite Nat.eqb_refl.
  - pose proof (linked_append nx i q j (idequeue s) Hl' Hn Hi Hni) as Ha. cbn [end_slot] in *.
    destruct (end_slot (Snext j) q) as [|k]; [done|]. destruct Ha as [_ Ha]. split; [exact Ha|]. by destruct s.
Qed.

Lemma linked_head nx p q : linked nx p q -> p = head q.
Proof. destruct q; cbn; [done|by intros [-> _]]. Qed.

(** *** The invariant *)

(** A buffer with a request. *)
Definition waiting (b : buf) : Prop := 0 <= blockno b < FSSIZE /\ Z.land (flags b) (Z.lor B_VALID B_DIRTY) <> B_VALID.

(** The requests [q] are queued, and the disks contain [A] but for the request
    that is being served. *)
Record ide_ok s (q : list nat) A : Prop := {
  io_linked : linked (qnext s) (idequeue s) q;
  io_nodup : NoDup q;
  io_bufs : forall i, i ∈ q -> exists b, bufs (ib s) !! i = Some b /\ waiting b;
  io_active : match q with
    | [] => contains (at_ata s) A
    | i :: _ => forall b, bufs (ib s) !! i = Some b ->
        contains (at_ata s) (serve b A) /\ (dirty b = false -> sending b (at_ata s))
    end }.

Lemma queue_length s q A : ide_ok s q A -> (length q <= length (bufs (ib s)))%nat.
Proof.
  intros H. set (n := length (bufs (ib s))). replace n with (length (seq 0 n)) by apply length_seq. apply submseteq_length, NoDup_submseteq; [apply H|].
  intros i Hi. destruct (io_bufs _ _ _ H i Hi) as (b & Hb & _). apply elem_of_seq. apply lookup_lt_Some in Hb. lia.
Qed.

(** *** A new request *)

(** The running process may ask for buffer [i]: it holds its lock, the buffer
    has something to do, and no request yet. *)
Record may_ask s (q : list nat) (i me : nat) (p : proc) : Prop := {
  ma_run : running me p (ipk s);
  ma_new : i ∉ q;
  ma_buf : exists b, bufs (ib s) !! i = Some b /\ waiting b /\ bl b = mkSleeplock 1 (pid p) /\
    (bdev b = 0 \/ havedisk1 s <> 0) }.

(** What other code may change between two steps of the driver: not the queue,
    the machine, or the buffers with requests. *)
Definition elsewhere (q : list nat) s s' : Prop :=
  qnext s' = qnext s /\ idequeue s' = idequeue s /\ ihw s' = ihw s /\
  forall i, i ∈ q -> bufs (ib s') !! i = bufs (ib s) !! i.

Lemma ide_ok_elsewhere s s' q A : ide_ok s q A -> elsewhere q s s' -> ide_ok s' q A.
Proof.
  intros [H1 H2 H3 H4] (E1 & E2 & E3 & E4). assert (Ea : at_ata s' = at_ata s) by (unfold at_ata, dev; by rewrite E3).
  split; [by rewrite E1, E2|done| |].
  - intros i Hi. destruct (H3 i Hi) as (b & Hb & Hw). exists b. by rewrite E4.
  - rewrite Ea. destruct q as [|i q]; [done|]. intros b. rewrite E4 by (by left). apply H4.
Qed.

(** The queue with the new request, and the disk started if it had none; [k] is
    what follows. *)
Lemma ide_enqueue_ok s q A i b l (k : K (idest D) unit) : ide_ok s q A -> i ∉ q -> bufs (ib s) !! i = Some b -> waiting b ->
  exists s', (
    modify (slot_set (Snext i) None) ;;
    n ← gets (fun s => length (bufs (ib s)));
    p ← last_slot (S n) Shead;
    modify (slot_set p (Some i)) ;;
    q ← gets idequeue;
    (if decide (q = Some i) then idestart polls (Some i) else mret tt) ;; k) l s = k l s' /\
    ide_ok s' (q ++ [i]) A /\ ib s' = ib s.
Proof.
  intros Hok Hi Hb Hw. pose proof (queue_length _ _ _ Hok) as Hlen. destruct Hok as [H1 H2 H3 H4].
  set (s1 := slot_set (Snext i) None s). destruct (append_ok s q i H1 H2 Hi) as [Hl2 E2]. fold s1 in Hl2, E2.
  set (s2 := slot_set (end_slot Shead q) (Some i) s1) in *.
  assert (Hls : last_slot (S (length (bufs (ib s1)))) Shead l s1 = Ok (end_slot Shead q) l s1).
  { apply last_slot_ok; [|cbn; lia]. eapply linked_frame; [|exact H1]. intros j Hj. apply put_next_other. by intros ->. }
  erewrite bind_Ok by reflexivity. fold s1. erewrite bind_Ok by reflexivity. erewrite bind_Ok by exact Hls.
  erewrite bind_Ok by reflexivity. fold s2. erewrite bind_Ok by reflexivity.
  assert (Eib : ib s2 = ib s) by (by rewrite E2). assert (Ehw : ihw s2 = ihw s) by (by rewrite E2).
  assert (Eat : at_ata s2 = at_ata s) by (unfold at_ata, dev; by rewrite Ehw).
  assert (Hnd : NoDup (q ++ [i])).
  { apply NoDup_app. split; [done|]. split; [|apply NoDup_singleton]. intros j Hj ->%list_elem_of_singleton. done. }
  assert (Hbs : forall j, j ∈ q ++ [i] -> exists b, bufs (ib s2) !! j = Some b /\ waiting b).
  { rewrite Eib. intros j [Hj| ->%list_elem_of_singleton]%elem_of_app; [by apply H3|by exists b]. }
  rewrite (linked_head _ _ _ Hl2). destruct q as [|j q].
  - cbn [app head]. rewrite decide_True by done.
    destruct (idestart_ok i b l s2 A) as ([] & s' & R & d & -> & Hc & Hs); [by rewrite Eib|apply Hw|by rewrite Eat|].
    exists (with_dev s2 d). split; [by erewrite bind_Ok by exact R|]. split; [|done]. split; [exact Hl2|done|exact Hbs|].
    intros b' Hb'. change (bufs (ib s2) !! i = Some b') in Hb'. rewrite Eib, Hb in Hb'. injection Hb' as <-. done.
  - cbn [app head]. rewrite decide_False by (intros [= ->]; apply Hi; by left). exists s2. split; [done|]. split; [|done].
    split; [exact Hl2|done|exact Hbs|]. cbn [app]. rewrite Eib, Eat. exact H4.
Qed.

Lemma iderw_asks s q A i me p f : ide_ok s q A -> may_ask s q i me p ->
  exists s', iderw buf_addr polls (fun l t => Sleep (buf_addr i) l t) (S f) i [] s = Sleep (buf_addr i) [Lptable] s' /\
    ide_ok s' (q ++ [i]) A /\ bufs (ib s') = bufs (ib s).
Proof.
  intros Hok [Hrun Hi (b & Hb & Hw & Hl & Hd)]. unfold iderw.
  assert (Hh : zoom ib (holds_buf i) [] s = Ok true [] s).
  { rewrite (zoom_Ok _ _ _ _ _ _ _ (holds_buf_ok me (pid p) i b (ib s) p [] Hb Hl Hrun eq_refl (not_elem_of_nil _))). by destruct s. }
  erewrite bind_Ok by exact Hh. cbn [negb]. erewrite bind_Ok by by apply zoom_get_buf. kstep.
  rewrite (proj2 (Z.eqb_neq _ _) (proj2 Hw)).
  replace (nz (bdev b) && negb (nz (havedisk1 s))) with false.
  2: { unfold nz. destruct Hd as [-> | Hd]; [done|]. by rewrite (proj2 (Z.eqb_neq _ _) Hd), andb_false_r. }
  erewrite bind_Ok by (apply acquire_free, not_elem_of_nil).
  destruct (ide_enqueue_ok s q A i b [Lide] (wait_served buf_addr (fun l t => Sleep (buf_addr i) l t) (S f) i ;; release Lide) Hok Hi Hb Hw)
    as (s1 & -> & Hok1 & E1).
  cbn [wait_served]. rewrite bind_assoc. erewrite bind_Ok by (apply zoom_get_buf; by rewrite E1).
  rewrite (proj2 (Z.eqb_neq _ _) (proj2 Hw)). cbn [negb]. unfold sleep_in. rewrite !bind_assoc.
  assert (Hrun1 : running me p (ipk s1)) by (unfold ipk; by rewrite E1).
  erewrite bind_Ok by (apply zoom_Ok, (sleep_pre_ok (buf_addr i) Lide me p _ Hrun1)). rewrite !bind_assoc.
  eexists. split; [reflexivity|]. split; [|cbn; by rewrite E1].
  eapply ide_ok_elsewhere; [exact Hok1|]. by repeat split.
Qed.

(** *** An interrupt *)

(** Buffer [i] with other data and flags. *)
Definition put_buf s (i : nat) (b : buf) : idest D := s <| ib ::= fun t => t <| bufs ::= fun bs => <[i := b]> bs |> |>.

Lemma put_buf_ok i b f l s : bufs (ib s) !! i = Some b -> zoom ib (upd_buf i f) l s = Ok tt l (put_buf s i (f b)).
Proof. intros Hb. by rewrite (zoom_Ok _ _ _ _ _ _ _ (upd_buf_ok i f b _ l Hb)). Qed.

Lemma put_buf_get s i b b' : bufs (ib s) !! i = Some b -> bufs (ib (put_buf s i b')) !! i = Some b'.
Proof. intros Hb. cbn. apply list_lookup_insert_eq. by eapply lookup_lt_Some. Qed.

Lemma put_buf_put s i b b' : put_buf (put_buf s i b) i b' = put_buf s i b'.
Proof. unfold put_buf. destruct s as [[] ? ? ? ?]. cbn. by rewrite list_insert_insert_eq. Qed.

Lemma put_buf_same s i b : bufs (ib s) !! i = Some b -> put_buf s i b = s.
Proof. intros Hb. unfold put_buf. destruct s as [[] ? ? ? ?]. cbn in *. by rewrite list_insert_id. Qed.

(** What the reader of block [blockno b] gets. *)
Definition outcome_of (b : buf) A : mem := if dirty b then bdata b else A (disk_of b) (blockno b).

(** The data is fetched if the request was a read. *)
Lemma fetch_ok l s i b A : bufs (ib s) !! i = Some b ->
  contains (at_ata s) (serve b A) -> (dirty b = false -> sending b (at_ata s)) ->
  kruns (if negb (nz (Z.land (flags b) B_DIRTY)) then r ← idewait polls true; if 0 <=? r then read_data i else mret tt else mret tt) l s
    (fun _ s' => exists d m, s' = with_dev (put_buf s i (b <| bdata := m |>)) d /\
       contains (ata_of d) (serve b A) /\ same_block (outcome_of b A) m).
Proof.
  intros Hb Hc Hs. unfold outcome_of, serve in *. fold (dirty b). destruct (dirty b) eqn:Ed; cbn [negb].
  { apply kruns_ret. exists (dev s), (bdata b). split; [|done].
    assert (b <| bdata := bdata b |> = b) as -> by (by destruct b). by rewrite put_buf_same, with_dev_same. }
  eapply kruns_bind; [apply (idewait_ok true)|]. intros r s1 (d & -> & -> & Ed1). cbn [Z.leb Z.compare].
  destruct (Hs eq_refl) as (Hph & Hlba & Hdr). rewrite <- Ed1 in Hph, Hlba, Hdr, Hc.
  unfold read_data, kruns. erewrite bind_Ok by (by apply zoom_get_buf). erewrite bind_Ok by reflexivity.
  pose proof (insl_reads 128 0 0 (bdata b) d eq_refl ltac:(lia) Hph) as Hi. change (0 + 4 * Z.of_nat 0) with 0 in Hi.
  change (Z.to_nat (BSIZE / 4)) with 128%nat. change (hdev (ihw (with_dev s d))) with d.
  destruct (insl 0x1f0 0 128 (bdata b) d) as [m d'] eqn:E. destruct Hi as (Hin & _ & Hd').
  erewrite bind_Ok by reflexivity. rewrite (put_buf_ok i b) by exact Hb. eexists tt, _. split; [reflexivity|].
  exists d', m. split; [by destruct s as [[] ? ? ? []]|]. rewrite Hd'. split; [exact Hc|].
  intros x Hx. specialize (Hin x ltac:(lia)). rewrite Z.add_0_l in Hin. rewrite Hin, Hlba, Hdr. by apply Hc.
Qed.

(** A buffer whose request was served. *)
Definition served (b : buf) (m : mem) : buf :=
  b <| bdata := m |> <| flags := Z.land (Z.lor (flags b) B_VALID) (Z.lnot B_DIRTY) |>.

Lemma served_valid b m : Z.land (flags (served b m)) (Z.lor B_VALID B_DIRTY) = B_VALID.
Proof.
  cbn. rewrite <- Z.land_assoc. change (Z.land (Z.lnot B_DIRTY) (Z.lor B_VALID B_DIRTY)) with (2 ^ 1). change B_VALID with (2 ^ 1).
  apply Z.bits_inj'. intros n Hn. rewrite Z.land_spec, Z.lor_spec, Z.pow2_bits_eqb by lia.
  destruct (1 =? n); [by rewrite orb_true_r|by rewrite andb_false_r].
Qed.

(** What an interrupt makes of the queue [i :: q]: the buffer is served and nobody
    sleeps on it any more. *)
Record serves s (i : nat) (q : list nat) A s' : Prop := {
  sv_buf : exists b m, bufs (ib s) !! i = Some b /\ bufs (ib s') = <[i := served b m]> (bufs (ib s)) /\
    same_block (outcome_of b A) m /\ ide_ok s' q (serve b A);
  sv_woken : Forall (fun p => ~ asleep_on (buf_addr i) p) (procs (ipk s')) }.

Lemma woken c t ps : Forall (fun p => ~ asleep_on c p) (map (wake_one c t) ps).
Proof.
  apply Forall_fmap, Forall_forall. intros p _. cbn. destruct (decide (asleep_on c p)).
  - rewrite wake_one_asleep by done. by intros [? _].
  - by rewrite wake_one_other.
Qed.

(** The rest of the interrupt handler, once the data is there. *)
Lemma finish_ok s i q A b m : linked (qnext s) (idequeue s) q -> NoDup (i :: q) ->
  (forall j, j ∈ q -> exists b, bufs (ib s) !! j = Some b /\ waiting b) ->
  bufs (ib s) !! i = Some (b <| bdata := m |>) -> contains (at_ata s) A ->
  exists s', (
    zoom ib (upd_buf i (fun b => b <| flags ::= fun f => Z.lor f B_VALID |>)) ;;
    zoom ib (upd_buf i (fun b => b <| flags ::= fun f => Z.land f (Z.lnot B_DIRTY) |>)) ;;
    zoom ipk (wakeup (buf_addr i)) ;;
    q ← gets idequeue;
    (match q with Some _ => idestart polls q | None => mret tt end) ;;
    release Lide) [Lide] s = Ok tt [] s' /\
    bufs (ib s') = <[i := served b m]> (bufs (ib s)) /\ ide_ok s' q A /\
    Forall (fun p => ~ asleep_on (buf_addr i) p) (procs (ipk s')).
Proof.
  intros Hl [Hi Hn]%NoDup_cons Hbs Hb Hc.
  erewrite bind_Ok by (by apply put_buf_ok). erewrite bind_Ok by (eapply put_buf_ok, put_buf_get; exact Hb).
  rewrite put_buf_put. set (s1 := put_buf s i _).
  assert (E1 : bufs (ib s1) = <[i := served b m]> (bufs (ib s))) by (by destruct b).
  erewrite bind_Ok by (apply zoom_Ok, wakeup_ok; set_solver). set (s2 := s1 <| ipk := _ |>).
  assert (Hw2 : Forall (fun p => ~ asleep_on (buf_addr i) p) (procs (ipk s2))) by apply woken.
  assert (Hq : forall j, j ∈ q -> bufs (ib s2) !! j = bufs (ib s) !! j).
  { intros j Hj. change (bufs (ib s2)) with (bufs (ib s1)). rewrite E1. apply list_lookup_insert_ne. by intros ->. }
  assert (Hbs2 : forall j, j ∈ q -> exists b, bufs (ib s2) !! j = Some b /\ waiting b) by (intros j Hj; rewrite Hq by done; by apply Hbs).
  erewrite bind_Ok by reflexivity. change (idequeue s2) with (idequeue s). destruct q as [|j q].
  - rewrite Hl. erewrite bind_Ok by reflexivity. rewrite release_top by apply not_elem_of_nil.
    exists s2. split; [done|]. split; [exact E1|]. split; [|done]. by split.
  - pose proof Hl as [-> _]. destruct (Hbs2 j ltac:(by left)) as (bj & Hbj & Hwj).
    destruct (idestart_ok j bj [Lide] s2 A Hbj (proj1 Hwj) Hc) as ([] & s' & R & d & -> & Hc' & Hs').
    erewrite bind_Ok by exact R. rewrite release_top by apply not_elem_of_nil.
    exists (with_dev s2 d). split; [done|]. split; [exact E1|]. split; [|done].
    split; [done|done|exact Hbs2|]. intros b' Hb'. change (bufs (ib s2) !! j = Some b') in Hb'. rewrite Hbj in Hb'. by injection Hb' as <-.
Qed.

Lemma ideintr_serves s i q A : ide_ok s (i :: q) A ->
  exists s', ideintr buf_addr polls [] s = Ok tt [] s' /\ serves s i q A s'.
Proof.
  intros [[Eq Hl] Hn Hbs Hact]. destruct (Hbs i ltac:(by left)) as (b & Hb & Hw). destruct (Hact b Hb) as [Hc Hs].
  unfold ideintr. kstep. kstep. rewrite Eq. kstep. erewrite bind_Ok by reflexivity. set (s1 := s <| idequeue := _ |>).
  erewrite bind_Ok by (by apply zoom_get_buf).
  destruct (fetch_ok [Lide] s1 i b A Hb Hc Hs) as ([] & s2 & R & d & m & -> & Hc2 & Hm).
  erewrite bind_Ok by exact R. apply NoDup_cons in Hn as Hn'. destruct Hn' as [Hi _].
  assert (E2 : bufs (ib (with_dev (put_buf s1 i (b <| bdata := m |>)) d)) = <[i := b <| bdata := m |>]> (bufs (ib s))) by done.
  destruct (finish_ok (with_dev (put_buf s1 i (b <| bdata := m |>)) d) i q (serve b A) b m) as (s' & R' & Eb & Hok' & Hwk).
  - exact Hl.
  - done.
  - intros j Hj. rewrite E2, list_lookup_insert_ne by (by intros ->). apply Hbs. by right.
  - rewrite E2. apply list_lookup_insert_eq. by eapply lookup_lt_Some.
  - exact Hc2.
  - exists s'. split; [exact R'|]. split; [|exact Hwk]. exists b, m. split; [done|]. split; [|done].
    by rewrite Eb, E2, list_insert_insert_eq.
Qed.

Lemma ideintr_idle s A : ide_ok s [] A -> ideintr buf_addr polls [] s = Ok tt [] s.
Proof.
  intros [Hl _ _ _]. cbn in Hl. unfold ideintr. kstep. kstep. rewrite Hl. apply release_top, not_elem_of_nil.
Qed.

(** *** Runs of the driver *)

(** The states the driver and the disk reach, with the requests that wait and the
    contents that the disks have after those that were served: processes ask,
    interrupts arrive, and other code kruns in between. *)
Inductive ide_reach : idest D -> list nat -> (Z -> Z -> mem) -> Prop :=
| reach_start s : idequeue s = None -> ide_reach s [] (sectors (at_ata s))
| reach_ask s q A i me p f s' : ide_reach s q A -> may_ask s q i me p ->
    iderw buf_addr polls (fun l t => Sleep (buf_addr i) l t) (S f) i [] s = Sleep (buf_addr i) [Lptable] s' ->
    ide_reach s' (q ++ [i]) A
| reach_intr s i q A b s' : ide_reach s (i :: q) A -> bufs (ib s) !! i = Some b ->
    ideintr buf_addr polls [] s = Ok tt [] s' -> ide_reach s' q (serve b A)
| reach_other s q A s' : ide_reach s q A -> elsewhere q s s' -> ide_reach s' q A.

Lemma reach_ok s q A : ide_reach s q A -> ide_ok s q A.
Proof.
  induction 1 as [s E|s q A i me p f s' _ IH Ha R|s i q A b s' _ IH Hb R|s q A s' _ IH He].
  - split; [done|apply NoDup_nil_2|by intros i ?%not_elem_of_nil|]. intros dr n. apply same_block_refl.
  - destruct (iderw_asks s q A i me p f IH Ha) as (s1 & R1 & Hok & _). rewrite R in R1. by injection R1 as <-.
  - destruct (ideintr_serves s i q A IH) as (s1 & R1 & [(b' & m & Hb' & _ & _ & Hok) _]).
    rewrite Hb in Hb'. injection Hb' as <-. rewrite R in R1. by injection R1 as <-.
  - by eapply ide_ok_elsewhere.
Qed.

(** A request that was served ends the wait of [iderw]. *)
Lemma served_returns swtch f i b m l s : bufs (ib s) !! i = Some (served b m) ->
  wait_served buf_addr swtch (S f) i l s = Ok tt l s.
Proof.
  intros Hb. cbn [wait_served]. erewrite bind_Ok by (by apply zoom_get_buf). by rewrite served_valid, Z.eqb_refl.
Qed.

(** C14: whatever requests arrive while others are served, on a disk that reports
    no error (for one that does see [failed_read_is_valid]) the driver serves
    them in order.  A process that asks goes to sleep with its request at the end of
    the queue; each interrupt serves exactly the first request, starts the disk
    on the next and wakes those who wait; a block that was read is the one that
    the requests served before left on the disk, and the wait for it ends. *)
Theorem ide_serves s q A : ide_reach s q A ->
  (forall i me p f, may_ask s q i me p -> exists s',
     iderw buf_addr polls (fun l t => Sleep (buf_addr i) l t) (S f) i [] s = Sleep (buf_addr i) [Lptable] s' /\
     bufs (ib s') = bufs (ib s) /\ ide_reach s' (q ++ [i]) A) /\
  match q with
  | [] => ideintr buf_addr polls [] s = Ok tt [] s /\ contains (at_ata s) A
  | i :: r => exists s' b b', ideintr buf_addr polls [] s = Ok tt [] s' /\
      bufs (ib s) !! i = Some b /\ bufs (ib s') = <[i := b']> (bufs (ib s)) /\
      same_block (if dirty b then bdata b else A (disk_of b) (blockno b)) (bdata b') /\
      ide_reach s' r (serve b A) /\
      Forall (fun p => ~ asleep_on (buf_addr i) p) (procs (ipk s')) /\
      forall swtch f l, wait_served buf_addr swtch (S f) i l s' = Ok tt l s'
  end.
Proof.
  intros Hr. pose proof (reach_ok _ _ _ Hr) as Hok. split.
  - intros i me p f Ha. destruct (iderw_asks s q A i me p f Hok Ha) as (s' & R & _ & Hb). exists s'.
    split; [done|]. split; [done|]. by eapply reach_ask.
  - destruct q as [|i r]; [split; [by eapply ideintr_idle|apply Hok]|].
    destruct (ideintr_serves s i r A Hok) as (s' & R & [(b & m & Hb & Eb & Hm & _) Hw]). exists s', b, (served b m).
    split; [done|]. split; [done|]. split; [done|]. split; [exact Hm|]. split; [by eapply reach_intr|]. split; [done|].
    intros swtch f l. apply (served_returns swtch f i b m). rewrite Eb. apply list_lookup_insert_eq. by eapply lookup_lt_Some.
Qed.

End spec.
(** *** A machine with a disk *)

#[export] Instance disk_mmio : Mmio disk_pc := {| mread _ d := (0, d); mwrite _ _ d := d |}.
Definition ex_buf (fl : Z) (data : mem) : buf := mkBuf fl 1 5 (mkSleeplock 1 2) 1 data.
Definition ex_bst : bst :=
  mkBst [ex_buf 4 (fun _ => 7); ex_buf 0 (fun _ => 0)] [0%nat; 1%nat] (fun _ _ => 0) 0 [] (machine [runner]).
Definition ex_ide : idest disk_pc :=
  mkIdest ex_bst (fun _ => None) None 1
    (mkHw (fun _ => 0) [] 1 0 0 0 (Console.mkCst Console.demo_console (machine [runner]))
       (mkDisk (mkAta 0 0 0 0 0 (fun _ _ _ => 0) Idle) false)).

(** A write of a block and then a read of it, queued behind each other. *)
Lemma ide_serves_witness : exists s2 s3 s4 b,
  ide_reach Z.of_nat 2 s2 [0; 1]%nat (fun _ _ _ => 0) /\
  ideintr Z.of_nat 2 [] s2 = Ok tt [] s3 /\ ideintr Z.of_nat 2 [] s3 = Ok tt [] s4 /\
  bufs (ib s4) !! 1%nat = Some b /\ same_block (fun _ => 7) (bdata b).
Proof.
  assert (H0 : ide_reach Z.of_nat 2 ex_ide [] (fun _ _ _ => 0)) by exact (reach_start Z.of_nat 2 ex_ide eq_refl).
  assert (P : (patience (D := disk_pc) <= 2)%nat) by (cbn; lia).
  destruct (ide_serves Z.of_nat 2 P ex_ide [] _ H0) as [Hask _].
  destruct (Hask 0%nat 0%nat runner 0%nat) as (s1 & _ & Eb1 & H1).
  { split; [apply running_machine|apply not_elem_of_nil|]. exists (ex_buf 4 (fun _ => 7)). split; [done|]. split; [split; done|]. split; [done|]. by right. }
  set (s1' := s1 <| ib := ex_bst |> <| havedisk1 := 1 |>).
  assert (H1' : ide_reach Z.of_nat 2 s1' [0%nat] (fun _ _ _ => 0)).
  { eapply reach_other; [exact H1|]. split; [done|]. split; [done|]. split; [done|]. intros i Hi. cbn -[lookup]. by rewrite Eb1. }
  destruct (ide_serves Z.of_nat 2 P s1' _ _ H1') as [Hask1 _].
  destruct (Hask1 1%nat 0%nat runner 0%nat) as (s2 & _ & Eb2 & H2).
  { split; [apply running_machine|set_solver|]. exists (ex_buf 0 (fun _ => 0)). split; [done|]. split; [split; done|]. split; [done|]. by right. }
  destruct (ide_serves Z.of_nat 2 P s2 _ _ H2) as [_ (s3 & b0 & b0' & R3 & Hb0 & Eb3 & _ & H3 & _)].
  destruct (ide_serves Z.of_nat 2 P s3 _ _ H3) as [_ (s4 & b1 & b1' & R4 & Hb1 & Eb4 & Hd & _)].
  rewrite Eb2 in Hb0, Eb3. injection Hb0 as <-. rewrite Eb3 in Hb1, Eb4. injection Hb1 as <-.
  exists s2, s3, s4, b1'. split; [exact H2|]. split; [exact R3|]. split; [exact R4|]. split; [by rewrite Eb4|exact Hd].
Defined.

(** *** A disk that fails *)

(** Its status reads ready with the error bit. *)
Definition bad_ports : Ports disk_pc := {|
  inb p d := (0x41, d); outb _ _ d := d; inl _ d := (0, d); outl _ _ d := d |}.

(** A read that fails leaves the buffer as it was, but valid: the caller takes
    what the buffer held before for the contents of the block. *)
Theorem failed_read_is_valid : exists s',
  ideintr (Ports0 := bad_ports) Z.of_nat 2 [] (ex_ide <| idequeue := Some 1%nat |>) = Ok tt [] s' /\
  exists b, bufs (ib s') !! 1%nat = Some b /\ Z.land (flags b) (Z.lor B_VALID B_DIRTY) = B_VALID /\ bdata b = (fun _ => 0).
Proof. eexists. split; [reflexivity|]. eexists. by split. Qed.

End IdeSpec.
