(* ===== verification/Boot.v ===== *)
(** The boot loader (bootmain.c): it reads the kernel, an ELF file that starts at
    sector 1 of the disk, into physical memory. *)

From stdpp Require Import base numbers list sets strings.
From Stdlib Require Import ZArith Lia.
From S2P Require Import Prelude Mem CString Mmu Param Proc Ports Console Mp Exec.
Import CString Ports Mp Exec.

Module Boot.

Definition SECTSIZE : Z := 512.

Section boot.
Context {D : Type} `{!Ports D}.
Variable polls : nat.

(** [while ((inb(0x1F7) & 0xC0) != 0x40);] *)
Fixpoint waitdisk (fuel : nat) : K (hw D) unit :=
  match fuel with
  | O => fault "out of fuel"
  | S f => r ← inp 0x1F7; if negb (Z.land r 0xC0 =? 0x40) then waitdisk f else mret tt
  end.

Definition readsect (dst offset : Z) : K (hw D) unit :=
  waitdisk polls ;;
  out 0x1F2 1 ;;
  out 0x1F3 offset ;;
  out 0x1F4 (Z.shiftr offset 8) ;;
  out 0x1F5 (Z.shiftr offset 16) ;;
  out 0x1F6 (Z.lor (Z.shiftr offset 24) 0xE0) ;;
  out 0x1F7 0x20 ;;
  waitdisk polls ;;
  modify (fun s =>
    let '(m, d) := insl 0x1F0 dst (Z.to_nat (SECTSIZE / 4)) (hmem s) (hdev s) in s <| hmem := m |> <| hdev := d |>).

(** [for (; pa < epa; pa += SECTSIZE, offset++)] *)
Fixpoint readsects (fuel : nat) (pa epa offset : Z) : K (hw D) unit :=
  match fuel with
  | O => fault "out of fuel"
  | S f =>
      if pa <? epa then readsect pa offset ;; readsects f (u32 (pa + SECTSIZE)) epa (u32 (offset + 1))
      else mret tt
  end.

(** Every turn reads a sector: [count / SECTSIZE + 2] turns at most, and one to
    stop. *)
Definition readseg (pa count offset : Z) : K (hw D) unit :=
  let epa := u32 (pa + count) in
  let pa := u32 (pa - offset mod SECTSIZE) in
  let offset := offset / SECTSIZE + 1 in
  readsects (Z.to_nat (count / SECTSIZE) + 3) pa epa offset.

(** The loop over the program headers from [ph] up to [eph]. *)
Fixpoint load_phs (fuel : nat) (ph eph : Z) : K (hw D) unit :=
  match fuel with
  | O => fault "out of fuel"
  | S f =>
      if ph <? eph then
        m ← gets hmem;
        let pa := load32 m (ph + 12) in
        readseg pa (load32 m (ph + 16)) (load32 m (ph + 4)) ;;
        m ← gets hmem;
        (if load32 m (ph + 16) <? load32 m (ph + 20) then
           modify (fun s => s <| hmem := stosb m (u32 (pa + load32 m (ph + 16))) 0
             (load32 m (ph + 20) - load32 m (ph + 16)) |>)
         else mret tt) ;;
        load_phs f (u32 (ph + 32)) eph
      else mret tt
  end.

(** Where the kernel is entered; [None] when [bootmain] returns. *)
Definition bootmain : K (hw D) (option Z) :=
  let elf := 0x10000 in
  readseg elf 4096 0 ;;
  m ← gets hmem;
  if negb (load32 m elf =? ELF_MAGIC) then mret None else
  let ph := u32 (elf + load32 m (elf + 28)) in
  let phnum := load16 m (elf + 44) in
  load_phs (S (Z.to_nat phnum)) ph (u32 (ph + 32 * phnum)) ;;
  m ← gets hmem;
  mret (Some (load32 m (elf + 24))).

End boot.

(** *** The kernel file on the disk *)

Section spec.
Context {D : Type} `{!Ports D} `{!Ata D} (polls : nat) (Hpolls : (patience <= polls)%nat).
Implicit Types (s : hw D) (S : Z -> Z -> mem).

(** Bytes, words and half words of the file. *)
Definition kbyte S (k : Z) : Z := load8 (S 0 (k / 512 + 1)) (k mod 512).
Definition kword S (k : Z) : Z := kbyte S k + 2 ^ 8 * kbyte S (k + 1) + 2 ^ 16 * kbyte S (k + 2) + 2 ^ 24 * kbyte S (k + 3).
Definition khalf S (k : Z) : Z := kbyte S k + 2 ^ 8 * kbyte S (k + 1).

(** The memory is [m], the disks contain [S], and the rest is as in [s0]. *)
Definition boot_is (s0 : hw D) S (m : mem) s : Prop :=
  exists d, s = s0 <| hmem := m |> <| hdev := d |> /\ sectors (ata_of d) = S.

Lemma waitdisk_ok n : forall fuel l s, ready_within n (hdev s) -> (n <= fuel)%nat ->
  kruns (waitdisk fuel) l s (fun _ s' => exists d, s' = s <| hdev := d |> /\ ata_of d = ata_of (hdev s)).
Proof.
  induction n as [|n IH]; intros [|f] l s Hr Hf; try done; try lia. cbn [waitdisk ready_within] in *.
  pose proof (ata_status (hdev s)) as Hst. destruct (inb 0x1f7 (hdev s)) as [r d] eqn:E. cbn in Hst.
  unfold kruns. assert (Hi : inp 0x1F7 l s = Ok r l (s <| hdev := d |>)) by (unfold inp; by rewrite E).
  erewrite bind_Ok by exact Hi. destruct Hr as [[H1 _]|[H1 H2]].
  - rewrite H1. eexists tt, _. split; [reflexivity|]. by exists d.
  - rewrite (proj2 (Z.eqb_neq _ _) H1). cbn [negb].
    pose (s1 := s <| hdev := d |>). destruct (IH f l s1 H2 ltac:(lia)) as ([] & s' & R & d' & -> & Hd'). eexists tt, _. split; [exact R|].
    exists d'. split; [done|]. by rewrite Hd'.
Qed.

(** A step that changes the machine only. *)
Lemma out_ata port v l s : port ∈ ata_ports -> 0 <= v ->
  kruns (out port v) l s (fun _ s' => exists d, s' = s <| hdev := d |> /\ ata_of d = ata_outb port (u8 v) (ata_of (hdev s))).
Proof. intros Hp Hv. eexists tt, _. split; [reflexivity|]. eexists. split; [reflexivity|]. by apply ata_select. Qed.

(** The registers that [readsect] sets. *)
Definition aimed (n : Z) (a : ata) : ata :=
  a <| nsect := 1 |> <| lba0 := u8 n |> <| lba1 := u8 (Z.shiftr n 8) |> <| lba2 := u8 (Z.shiftr n 16) |> <| drivehead := 0xE0 |>.

Lemma aimed_address n a : 0 <= n < 2 ^ 24 -> lba (aimed n a) = n /\ drive (aimed n a) = 0.
Proof.
  intros Hn. split; [|reflexivity]. unfold lba, aimed. cbn [lba0 lba1 lba2 drivehead upd]. change (Z.land 0xE0 15) with 0.
  rewrite !Z.shiftr_div_pow2 by lia. unfold u8. change (2 ^ 8) with 256. change (2 ^ 16) with 65536. change (2 ^ 24) with 16777216 in *. dlia.
Qed.

Lemma readsect_ok dst n l s0 S m s : boot_is s0 S m s -> 0 <= n < 2 ^ 24 ->
  kruns (readsect polls dst n) l s (fun _ s' => exists m', boot_is s0 S m' s' /\
    (forall x, 0 <= x < 512 -> load8 m' (dst + x) = load8 (S 0 n) x) /\ same_outside dst (dst + 512) m m').
Proof.
  intros (d & -> & HS) Hn. unfold readsect.
  eapply kruns_bind; [apply (waitdisk_ok patience); [apply ata_ready|done]|]. intros [] s1 (d1 & -> & E). cbn [hdev upd] in E.
  assert (0 <= Z.shiftr n 8 /\ 0 <= Z.shiftr n 16) as [H8 H16] by (rewrite !Z.shiftr_nonneg; lia).
  assert (H24 : Z.shiftr n 24 = 0) by (rewrite Z.shiftr_div_pow2 by lia; apply Z.div_small; lia). rewrite H24.
  do 5 (eapply kruns_bind; [apply out_ata; [apply (bool_decide_unpack _); vm_compute; exact I|first [lia|vm_compute; congruence]]|];
    intros [] ? (? & -> & E'); cbn [hdev upd] in E'; rewrite E in E'; clear E; rename E' into E).
  match type of E with ata_of ?x = _ => rename x into d6; change (ata_of d6 = aimed n (ata_of d)) in E end.
  eapply (kruns_bind _ _ _ _ (fun _ s' => exists d7, s' = s0 <| hmem := m |> <| hdev := d7 |> /\ ata_of d7 = (aimed n (ata_of d)) <| ph := Sending 0 |>)).
  { eexists tt, _. split; [reflexivity|]. eexists. split; [reflexivity|]. cbn [hdev upd].
    rewrite (ata_command (u8 0x20)) by (first [by left|by rewrite E]). by rewrite E. }
  intros [] s2 (d7 & -> & E7).
  eapply kruns_bind; [apply (waitdisk_ok patience); [apply ata_ready|done]|]. intros [] s3 (d8 & -> & E8). cbn [hdev upd] in E8. rewrite E7 in E8.
  destruct (aimed_address n (ata_of d) Hn) as [Hl Hd].
  assert (lba (ata_of d8) = n /\ drive (ata_of d8) = 0 /\ sectors (ata_of d8) = S) as (Hl' & Hd' & HS') by (by rewrite E8).
  pose proof (insl_reads 128 dst 0 m d8 eq_refl ltac:(lia) ltac:(by rewrite E8)) as Hi. rewrite Z.add_0_r in Hi.
  unfold kruns, modify. cbn [hmem hdev upd]. change (Z.to_nat (SECTSIZE / 4)) with 128%nat.
  destruct (insl 0x1F0 dst 128 m d8) as [m' d9]. destruct Hi as (H1 & H2 & H3). eexists tt, _. split; [reflexivity|].
  exists m'. split; [|split; [|done]].
  - exists d9. split; [done|]. by rewrite H3, E8.
  - intros y Hy. by rewrite H1, Hl', Hd', HS' by lia.
Qed.

Lemma kbyte_sector S o y : 0 <= y < 512 -> load8 (S 0 o) y = kbyte S (512 * (o - 1) + y).
Proof.
  intros Hy. unfold kbyte. replace (512 * (o - 1) + y) with (y + (o - 1) * 512) by lia.
  rewrite Z.div_add, Z.mod_add, Z.div_small, Z.mod_small by lia. f_equal. f_equal. lia.
Qed.

Lemma readsects_ok l s0 S epa n : forall fuel pa o m s, boot_is s0 S m s -> 0 <= pa ->
  pa + 512 * Z.of_nat n < 2 ^ 32 -> epa <= pa + 512 * Z.of_nat n -> (n <> 0%nat -> pa + 512 * Z.of_nat n < epa + 512) ->
  1 <= o -> o + Z.of_nat n <= 2 ^ 24 -> (n < fuel)%nat ->
  kruns (readsects polls fuel pa epa o) l s (fun _ s' => exists m', boot_is s0 S m' s' /\
    (forall y, 0 <= y < 512 * Z.of_nat n -> load8 m' (pa + y) = kbyte S (512 * (o - 1) + y)) /\
    same_outside pa (pa + 512 * Z.of_nat n) m m').
Proof.
  induction n as [|n IH]; intros [|f] pa o m s Hs Hpa Hmax Hepa Hlast Ho Hsec Hf; try lia; cbn [readsects].
  - rewrite (proj2 (Z.ltb_ge _ _)) by lia. apply kruns_ret. exists m. split; [done|]. split; [intros y; lia|by intros x _].
  - specialize (Hlast ltac:(done)). rewrite (proj2 (Z.ltb_lt _ _)) by lia.
    eapply kruns_bind; [apply (readsect_ok pa o l s0 S m s Hs); lia|]. intros [] s1 (m1 & H1 & Hin & Hout).
    unfold SECTSIZE. rewrite !u32_small by lia. eapply kruns_weaken; [apply (IH f (pa + 512) (o + 1) m1 s1 H1); lia|].
    intros [] s2 (m2 & H2 & Hin2 & Hout2). exists m2. split; [done|]. split.
    + intros y Hy. destruct (decide (y < 512)).
      * rewrite <- kbyte_sector by lia. unfold load8 at 1. rewrite Hout2 by lia. apply Hin. lia.
      * replace (pa + y) with (pa + 512 + (y - 512)) by lia. rewrite Hin2 by lia. f_equal. lia.
    + intros x Hx. rewrite Hout2, Hout by lia. done.
Qed.

(** [readseg] brings the bytes of the file from the start of their first sector,
    and writes nothing from 512 bytes behind the last on. *)
Lemma readseg_ok pa count off l s0 S m s : boot_is s0 S m s -> 0 <= count -> 0 <= off -> 0 <= pa - off mod 512 ->
  pa + count + 512 < 2 ^ 32 -> (off + count) / 512 + 3 <= 2 ^ 24 ->
  kruns (readseg polls pa count off) l s (fun _ s' => exists m', boot_is s0 S m' s' /\
    (forall k, 0 <= k < count -> load8 m' (pa + k) = kbyte S (off + k)) /\
    same_outside (pa - off mod 512) (pa + count + 512) m m').
Proof.
  intros Hs Hc Ho Hpa Hmax Hsec. unfold readseg, SECTSIZE. pose proof (Z.mod_pos_bound off 512 ltac:(lia)) as Hr.
  rewrite !u32_small by lia. set (r := off mod 512) in *. set (n := Z.to_nat ((count + r + 511) / 512)).
  assert (Hn : Z.of_nat n = (count + r + 511) / 512) by (unfold n; dlia).
  assert (Hd : off = 512 * (off / 512) + r) by (apply Z.div_mod; lia).
  eapply kruns_weaken; [apply (readsects_ok l s0 S (pa + count) n _ _ _ m s Hs); try lia; dlia|].
  intros [] s1 (m1 & H1 & Hin & Hout). exists m1. split; [done|]. split.
  - intros k Hk. replace (pa + k) with (pa - r + (r + k)) by lia. rewrite Hin by dlia. f_equal. lia.
  - intros x Hx. apply Hout. dlia.
Qed.

(** *** The program headers *)

Definition ph_off S (i : nat) : Z := kword S (kword S 28 + 32 * Z.of_nat i + 4).
Definition ph_paddr S (i : nat) : Z := kword S (kword S 28 + 32 * Z.of_nat i + 12).
Definition ph_filesz S (i : nat) : Z := kword S (kword S 28 + 32 * Z.of_nat i + 16).
Definition ph_memsz S (i : nat) : Z := kword S (kword S 28 + 32 * Z.of_nat i + 20).
Definition ph_count S : nat := Z.to_nat (khalf S 44).
Definition ph_size S (i : nat) : Z := Z.max (ph_filesz S i) (ph_memsz S i).
(** Where the first sector of segment [i] goes. *)
Definition ph_start S (i : nat) : Z := ph_paddr S i - ph_off S i mod 512.

(** A kernel file that the loader can load: the headers are in the first page,
    the segments go above the page that holds them and are in increasing order,
    with room for the part of a sector before each. *)
Record loadable S : Prop := {
  ld_magic : kword S 0 = ELF_MAGIC;
  ld_headers : kword S 28 + 32 * khalf S 44 <= 4096;
  ld_low i : (i < ph_count S)%nat -> 0x11000 <= ph_start S i;
  ld_high i : (i < ph_count S)%nat -> ph_paddr S i + ph_size S i + 512 < 2 ^ 32;
  ld_file i : (i < ph_count S)%nat -> (ph_off S i + ph_filesz S i) / 512 + 3 <= 2 ^ 24;
  ld_order i j : (i < j < ph_count S)%nat -> ph_paddr S i + ph_size S i <= ph_start S j }.

(** Segment [i] is in memory: its bytes of the file, and then zeros. *)
Definition seg_in S (m : mem) (i : nat) : Prop :=
  forall k, 0 <= k < ph_size S i ->
    load8 m (ph_paddr S i + k) = if k <? ph_filesz S i then kbyte S (ph_off S i + k) else 0.

(** The first page of the file is at 0x10000. *)
Definition header_in S (m : mem) : Prop := forall k, 0 <= k < 4096 -> load8 m (0x10000 + k) = kbyte S k.

Lemma kbyte_range S k : 0 <= kbyte S k < 256.
Proof. apply load8_range. Qed.
Lemma kword_range S k : 0 <= kword S k < 2 ^ 32.
Proof.
  unfold kword. pose proof (kbyte_range S k). pose proof (kbyte_range S (k + 1)). pose proof (kbyte_range S (k + 2)).
  pose proof (kbyte_range S (k + 3)). lia.
Qed.

Lemma header_word S m k : header_in S m -> 0 <= k -> k + 4 <= 4096 -> load32 m (0x10000 + k) = kword S k.
Proof.
  intros H Hk Hk2. unfold load32, kword. rewrite <- !Z.add_assoc, !H by lia. lia.
Qed.

Lemma header_half S m k : header_in S m -> 0 <= k -> k + 2 <= 4096 -> load16 m (0x10000 + k) = khalf S k.
Proof. intros H Hk Hk2. unfold load16, khalf. rewrite <- !Z.add_assoc, !H by lia. lia. Qed.

(** Writes from [a] up to [b] leave what lies elsewhere. *)
Lemma header_frame S m m' a b : header_in S m -> same_outside a b m m' -> 0x11000 <= a -> header_in S m'.
Proof. intros H Ho Ha k Hk. unfold load8. rewrite Ho by lia. by apply H. Qed.
Lemma seg_frame S m m' a b i : seg_in S m i -> same_outside a b m m' -> ph_paddr S i + ph_size S i <= a -> seg_in S m' i.
Proof. intros H Ho Ha k Hk. unfold load8 at 1. rewrite Ho by lia. by apply H. Qed.

(** The zeros behind the file. *)
Lemma zero_fill_ok S m i pa : pa = ph_paddr S i -> pa + ph_size S i + 512 < 2 ^ 32 -> 0 <= pa ->
  (forall k, 0 <= k < ph_filesz S i -> load8 m (pa + k) = kbyte S (ph_off S i + k)) ->
  let m' := if ph_filesz S i <? ph_memsz S i
    then stosb m (u32 (pa + ph_filesz S i)) 0 (ph_memsz S i - ph_filesz S i) else m in
  seg_in S m' i /\ same_outside pa (pa + ph_size S i) m m'.
Proof.
  intros -> Hmax Hpa Hin. unfold ph_size in *. pose proof (kword_range S (kword S 28 + 32 * Z.of_nat i + 16)).
  change (kword S (kword S 28 + 32 * Z.of_nat i + 16)) with (ph_filesz S i) in *.
  destruct (Z.ltb_spec (ph_filesz S i) (ph_memsz S i)) as [Hlt|Hge]; cbv zeta.
  - rewrite u32_small by lia. unfold stosb. split.
    + intros k Hk. unfold ph_size in Hk. unfold load8 at 1. destruct (Z.ltb_spec k (ph_filesz S i)).
      * rewrite (proj2 (Z.leb_gt _ _)) by lia. cbn [andb]. apply Hin. lia.
      * rewrite (proj2 (Z.leb_le _ _)), (proj2 (Z.ltb_lt _ _)) by lia. done.
    + intros x Hx. destruct (Z.leb_spec (ph_paddr S i + ph_filesz S i) x); [|done].
      cbn [andb]. by rewrite (proj2 (Z.ltb_ge _ _)) by lia.
  - split; [|by intros x _]. intros k Hk. unfold ph_size in Hk. rewrite (proj2 (Z.ltb_lt _ _)) by lia. apply Hin. lia.
Qed.

Lemma load_ph_ok S i l s0 m s : loadable S -> (i < ph_count S)%nat -> boot_is s0 S m s -> header_in S m ->
  let ph := 0x10000 + (kword S 28 + 32 * Z.of_nat i) in
  kruns (m ← gets hmem;
        let pa := load32 m (ph + 12) in
        readseg polls pa (load32 m (ph + 16)) (load32 m (ph + 4)) ;;
        m ← gets hmem;
        (if load32 m (ph + 16) <? load32 m (ph + 20) then
           modify (fun s => s <| hmem := stosb m (u32 (pa + load32 m (ph + 16))) 0
             (load32 m (ph + 20) - load32 m (ph + 16)) |>)
         else mret tt)) l s
    (fun _ s' => exists m', boot_is s0 S m' s' /\ seg_in S m' i /\ header_in S m' /\
       exists e, same_outside (ph_start S i) e m m').
Proof.
  intros [_ Hh Hlow Hhigh Hfile _] Hi Hs Hm ph. specialize (Hlow i Hi). specialize (Hhigh i Hi). specialize (Hfile i Hi).
  pose proof (kword_range S 28) as H28.
  assert (Hphi : kword S 28 + 32 * Z.of_nat i + 32 <= 4096) by (unfold ph_count in Hi; lia).
  assert (Hf : forall m k, header_in S m -> 0 <= k <= 28 -> load32 m (ph + k) = kword S (kword S 28 + 32 * Z.of_nat i + k)).
  { intros m1 k H1 Hk. unfold ph. rewrite <- Z.add_assoc. by apply header_word; [|lia|lia]. }
  eapply kruns_bind; [apply kruns_gets|]. intros m1 s1 [-> ->]. assert (hmem s = m) as -> by (by destruct Hs as (d & -> & _)).
  cbv zeta. rewrite !Hf by (done || lia). fold (ph_paddr S i) (ph_filesz S i) (ph_off S i).
  assert (Hr : forall k, 0 <= kword S k) by (intros k; apply kword_range). unfold ph_start in Hlow.
  assert (Hsz : ph_filesz S i <= ph_size S i) by (unfold ph_size; lia).
  eapply kruns_bind; [apply (readseg_ok _ _ _ l s0 S m s Hs); try apply Hr; lia|]. intros [] s2 (m2 & H2 & Hin & Hout).
  eapply kruns_bind; [apply kruns_gets|]. intros m3 s3 [-> ->]. assert (hmem s2 = m2) as -> by (by destruct H2 as (d & -> & _)).
  assert (Hm2 : header_in S m2) by (eapply header_frame; [exact Hm|exact Hout|lia]).
  rewrite !Hf by (done || lia). fold (ph_filesz S i) (ph_memsz S i).
  pose proof (Z.mod_pos_bound (ph_off S i) 512 ltac:(lia)).
  destruct (zero_fill_ok S m2 i _ eq_refl Hhigh ltac:(lia) Hin) as [Hseg Hz].
  set (m4 := if ph_filesz S i <? ph_memsz S i then _ else m2) in *.
  exists tt, (s2 <| hmem := m4 |>). split.
  { unfold m4. destruct (ph_filesz S i <? ph_memsz S i); [done|]. by destruct H2 as (d & -> & _). }
  exists m4. split; [|split; [exact Hseg|split]].
  - destruct H2 as (d & -> & HS). by exists d.
  - eapply header_frame; [exact Hm2|exact Hz|lia].
  - exists (ph_paddr S i + ph_size S i + 512). unfold ph_start. eapply same_outside_trans.
    + eapply same_outside_weaken; [| |exact Hout]; lia.
    + eapply same_outside_weaken; [| |exact Hz]; lia.
Qed.

Lemma load_phs_step f ph eph : load_phs polls (Datatypes.S f) ph eph =
  if ph <? eph then
    m ← gets hmem;
    let pa := load32 m (ph + 12) in
    readseg polls pa (load32 m (ph + 16)) (load32 m (ph + 4)) ;;
    m ← gets hmem;
    (if load32 m (ph + 16) <? load32 m (ph + 20) then
       modify (fun s => s <| hmem := stosb m (u32 (pa + load32 m (ph + 16))) 0
         (load32 m (ph + 20) - load32 m (ph + 16)) |>)
     else mret tt) ;;
    load_phs polls f (u32 (ph + 32)) eph
  else mret tt.
Proof. done. Qed.

Lemma load_phs_ok S l s0 n : forall i m s, loadable S -> boot_is s0 S m s -> header_in S m ->
  (i + n = ph_count S)%nat -> (forall j, (j < i)%nat -> seg_in S m j) ->
  let ph := 0x10000 + (kword S 28 + 32 * Z.of_nat i) in
  kruns (load_phs polls (Datatypes.S n) ph (ph + 32 * Z.of_nat n)) l s
    (fun _ s' => exists m', boot_is s0 S m' s' /\ header_in S m' /\ forall j, (j < ph_count S)%nat -> seg_in S m' j).
Proof.
  induction n as [|n IH]; intros i m s Hld Hs Hm Hn Hsegs ph; rewrite load_phs_step.
  - rewrite (proj2 (Z.ltb_ge _ _)) by lia. apply kruns_ret. exists m. split; [done|]. split; [done|].
    intros j Hj. apply Hsegs. lia.
  - rewrite (proj2 (Z.ltb_lt _ _)) by lia.
    assert (Hstep := load_ph_ok S i l s0 m s Hld ltac:(lia) Hs Hm). cbv zeta in Hstep. fold ph in Hstep.
    destruct Hstep as ([] & s1 & R & m1 & H1 & Hseg & Hm1 & e & Hout).
    pose proof (kword_range S 28). pose proof (ld_headers S Hld). unfold ph_count in Hn.
    assert (Hq : 32 * Z.of_nat i + 32 <= 32 * khalf S 44) by lia.
    assert (Hu : u32 (ph + 32) = ph + 32) by (apply u32_small; unfold ph; lia).
    assert (Hph : u32 (ph + 32) = 0x10000 + (kword S 28 + 32 * Z.of_nat (Datatypes.S i))) by (rewrite Hu; unfold ph; lia).
    destruct (IH (Datatypes.S i) m1 s1 Hld H1 Hm1) as ([] & s2 & R2 & HQ).
    + unfold ph_count. lia.
    + intros j Hj. destruct (decide (j = i)) as [->|]; [done|]. eapply seg_frame; [apply Hsegs; lia|exact Hout|].
      apply (ld_order S Hld). unfold ph_count. lia.
    + exists tt, s2. split; [|exact HQ]. rewrite Hph. unfold ph.
      replace (0x10000 + (kword S 28 + 32 * Z.of_nat i) + 32 * Z.of_nat (Datatypes.S n))
        with (0x10000 + (kword S 28 + 32 * Z.of_nat (Datatypes.S i)) + 32 * Z.of_nat n) by lia.
      fold ph in R |- *. rewrite <- R2. kinv R. repeat (erewrite bind_Ok by eassumption). done.
Qed.

(** C31: the boot loader loads a kernel whose headers are in its first page and
    whose segments are in order, above the page the headers are read to and
    without wrapping around: it jumps to the entry point of the file, with
    the bytes of every segment in memory where its header says, and zeros behind
    them. *)
Theorem bootmain_loads l s (Hld : loadable (sectors (ata_of (hdev s)))) :
  let S := sectors (ata_of (hdev s)) in
  exists s', bootmain polls l s = Ok (Some (kword S 24)) l s' /\
    forall i, (i < ph_count S)%nat -> seg_in S (hmem s') i.
Proof.
  intros S. fold S in Hld. assert (Hs : boot_is s S (hmem s) s) by (exists (hdev s); by destruct s).
  pose proof (kword_range S 28). pose proof (ld_headers S Hld) as Hh.
  assert (Hn : 0 <= khalf S 44) by (unfold khalf; pose proof (kbyte_range S 44); pose proof (kbyte_range S (44 + 1)); lia).
  assert (kruns (bootmain polls) l s (fun e s' => e = Some (kword S 24) /\ forall i, (i < ph_count S)%nat -> seg_in S (hmem s') i))
    as (e & s' & R & -> & Hseg); [|by exists s'].
  unfold bootmain. eapply kruns_bind; [apply (readseg_ok 0x10000 4096 0 l s S (hmem s) s Hs); vm_compute; congruence|].
  intros [] s1 (m1 & H1 & Hin & _). assert (Hm1 : header_in S m1) by exact Hin.
  eapply kruns_bind; [apply kruns_gets|]. intros m s2 [-> ->]. assert (hmem s1 = m1) as -> by (by destruct H1 as (d & -> & _)).
  rewrite <- (Z.add_0_r 0x10000) at 1. rewrite !(header_word S), (header_half S) by (done || lia).
  rewrite (ld_magic S Hld), Z.eqb_refl. cbn [negb]. rewrite !u32_small by lia.
  eapply kruns_bind.
  { pose proof (load_phs_ok S l s (ph_count S) 0 m1 s1 Hld H1 Hm1 eq_refl ltac:(intros; lia)) as Hl. cbv zeta in Hl.
    unfold ph_count in Hl. rewrite Z2Nat.id in Hl by lia. replace (kword S 28 + 32 * Z.of_nat 0) with (kword S 28) in Hl by lia. exact Hl. }
  intros [] s3 (m3 & H3 & Hm3 & Hsegs). eapply kruns_bind; [apply kruns_gets|]. intros m s4 [-> ->].
  assert (E3 : hmem s3 = m3) by (by destruct H3 as (d & -> & _)). apply kruns_ret. rewrite E3. split; [|done].
  f_equal. by apply header_word.
Qed.

End spec.

(** *** A small kernel *)

(** One segment: bytes 600 to 603 of the file, at 0x100058, and two zeros. *)
Definition ex_file (k : Z) : Z :=
  if k =? 0 then 0x7F else if k =? 1 then 0x45 else if k =? 2 then 0x4C else if k =? 3 then 0x46
  else if k =? 24 then 0x58 else if k =? 26 then 0x10           (* entry *)
  else if k =? 28 then 52 else if k =? 44 then 1                (* phoff, phnum *)
  else if k =? 56 then 0x58 else if k =? 57 then 2              (* off *)
  else if k =? 64 then 0x58 else if k =? 66 then 0x10           (* paddr *)
  else if k =? 68 then 4 else if k =? 72 then 6                 (* filesz, memsz *)
  else if k =? 600 then 11 else if k =? 603 then 22 else 0.
Definition ex_sectors : Z -> Z -> mem := fun _ n x => ex_file (512 * (n - 1) + x).
Definition ex_boot : hw disk_pc :=
  mkHw (fun _ => 99) [] 0 0 0 0 (Console.mkCst Console.demo_console (Proc.machine [Proc.runner]))
    (mkDisk (mkAta 0 0 0 0 0 ex_sectors Idle) true).

Lemma ex_loadable : loadable ex_sectors.
Proof.
  assert (Hc : ph_count ex_sectors = 1%nat) by (vm_compute; reflexivity).
  assert (H0 : forall i, (i < ph_count ex_sectors)%nat -> i = 0%nat) by (intros i; rewrite Hc; lia).
  split.
  - vm_compute. reflexivity.
  - vm_compute. congruence.
  - intros i ->%H0. vm_compute. congruence.
  - intros i ->%H0. vm_compute. reflexivity.
  - intros i ->%H0. vm_compute. congruence.
  - intros i j. rewrite Hc. lia.
Qed.

Lemma bootmain_loads_witness : exists s', bootmain 2 [] ex_boot = Ok (Some 0x100058) [] s' /\
  bytes_at (hmem s') 0x100058 6 = [11; 0; 0; 22; 0; 0].
Proof.
  assert (P : (patience (D := disk_pc) <= 2)%nat) by (cbn; lia).
  destruct (bootmain_loads 2 P [] ex_boot ex_loadable) as (s' & R & Hs). exists s'.
  change (sectors (ata_of (hdev ex_boot))) with ex_sectors in *.
  assert (E : kword ex_sectors 24 = 0x100058 /\ ph_count ex_sectors = 1%nat /\ ph_paddr ex_sectors 0 = 0x100058 /\
    ph_size ex_sectors 0 = 6 /\ ph_filesz ex_sectors 0 = 4 /\ ph_off ex_sectors 0 = 600) by (vm_compute; repeat split).
  destruct E as (E1 & E2 & E3 & E4 & E5 & E6). rewrite E1 in R. rewrite E2 in Hs. specialize (Hs 0%nat ltac:(lia)).
  unfold seg_in in Hs. rewrite E3, E4, E5, E6 in Hs. split; [exact R|]. clear R.
  assert (Hk : forall k, 0 <= k < 6 -> load8 (hmem s') (0x100058 + k) = nth (Z.to_nat k) [11; 0; 0; 22; 0; 0] 0).
  { intros k Hk. rewrite Hs by done. assert (Hc : k = 0 \/ k = 1 \/ k = 2 \/ k = 3 \/ k = 4 \/ k = 5) by lia.
    destruct Hc as [-> | [-> | [-> | [-> | [-> | ->]]]]]; vm_compute; reflexivity. }
  clear Hs. cbn [bytes_at]. pose proof (Hk 0 ltac:(lia)) as K0. rewrite Z.add_0_r in K0. rewrite K0, <- !Z.add_assoc.
  rewrite (Hk 1), (Hk (1 + 1)), (Hk (1 + (1 + 1))), (Hk (1 + (1 + (1 + 1)))), (Hk (1 + (1 + (1 + (1 + 1))))) by lia. reflexivity.
Defined.

End Boot.
