(* ===== verification/Mkfs.v ===== *)
(** The program that makes the first file system (mkfs.c).

    It runs on the host, whose words are stored with the low byte first.  The
    image is a function from sectors to their bytes; a failed call of the host or
    a failed assertion ends the program, as [Panic].  The files to copy are what
    the host's [open] and [read] return for them. *)

From stdpp Require Import base numbers list sets strings.
From Stdlib Require Import ZArith Lia.
From S2P Require Import Prelude Mem CString Mmu Seg Kalloc Param Printf Kbd Proc Sleeplock Console.
From S2P Require Import Bio Log Inode Fs.
Import CString Param Sleeplock Bio Log Inode Fs.

Module Mkfs.

Definition NINODES : Z := 200.
Definition nbitmap : Z := FSSIZE / (BSIZE * 8) + 1.
Definition ninodeblocks : Z := NINODES / IPB + 1.
Definition nlog : Z := LOGSIZE.
Definition nmeta : Z := 2 + nlog + ninodeblocks + nbitmap.
Definition nblocks : Z := FSSIZE - nmeta.

Record mkst := mkMk {
  img : Z -> block; imgsize : Z;        (* the file behind fsfd *)
  msb : superblock; freeinode : Z; freeblock : Z }.
#[export] Instance eta_mkst : Eta mkst := fun s =>
  mkMk s.(img) s.(imgsize) s.(msb) s.(freeinode) s.(freeblock).

(** A file on the host: its name, and what the calls of [read] return before
    the one that returns 0 or an error; [None] when it cannot be opened. *)
Record hostfile := mkHost { hname : list Z; hreads : option (list (list Z)) }.

(** A number from its bytes in Intel's order. *)
Definition xshort (x : Z) : Z := load16 (store8 (store8 (fun _ => 0) 0 x) 1 (Z.shiftr x 8)) 0.
Definition xint (x : Z) : Z :=
  load32 (store8 (store8 (store8 (store8 (fun _ => 0) 0 x) 1 (Z.shiftr x 8)) 2 (Z.shiftr x 16)) 3 (Z.shiftr x 24)) 0.

Definition zeroes : block := fun _ => 0.

(** [memmove(buf, &sb, sizeof(sb))] *)
Definition store_sb (d : block) (s : superblock) : block :=
  let d := store32 d 0 (sb_size s) in
  let d := store32 d 4 (sb_nblocks s) in
  let d := store32 d 8 (sb_ninodes s) in
  let d := store32 d 12 (sb_nlog s) in
  let d := store32 d 16 (sb_logstart s) in
  let d := store32 d 20 (sb_inodestart s) in
  store32 d 24 (sb_bmapstart s).

(** [bzero(&din, sizeof(din))]; the fields that are not on disk do not matter. *)
Definition zero_dinode : inode := mkInode 1 0 0 (mkSleeplock 0 0) 0 0 0 0 0 0 (replicate 13 0).

Section mkfs.
(** Whether the host's [lseek], [read] and [write] work at a sector. *)
Variable host_ok : Z -> bool.

(** [sec * BSIZE] is a [uint]: the sector at this offset. *)
Definition sector (sec : Z) : Z := u32 (sec * BSIZE) / BSIZE.

Definition wsect (sec : Z) (buf : block) : K mkst unit :=
  let sec := sector sec in
  if host_ok sec then
    modify (fun s => s <| img ::= fun v n => if n =? sec then buf else v n |>
      <| imgsize ::= fun n => Z.max n (sec + 1) |>)
  else panic "write".

(** Past the end of the file [read] returns 0. *)
Definition rsect (sec : Z) : K mkst block :=
  let sec := sector sec in
  n ← gets imgsize;
  if host_ok sec && (sec <? n) then gets (fun s => img s sec) else panic "read".

Definition winode (inum : Z) (ip : inode) : K mkst unit :=
  s ← gets msb;
  let bn := IBLOCK inum s in
  buf ← rsect bn;
  wsect bn (store_dinode buf (dip_off inum) ip).

Definition rinode (inum : Z) : K mkst inode :=
  s ← gets msb;
  buf ← rsect (IBLOCK inum s);
  mret (load_dinode buf (dip_off inum) zero_dinode).

Definition ialloc (type : Z) : K mkst Z :=
  inum ← gets freeinode;
  modify (fun s => s <| freeinode := u32 (inum + 1) |>) ;;
  winode inum (zero_dinode <| itype := i16 (xshort type) |> <| inlink := i16 (xshort 1) |> <| isize := xint 0 |>) ;;
  mret inum.

(** [for (i = 0; i < used; i++) buf[i / 8] |= 0x1 << (i % 8);] *)
Fixpoint set_bits (buf : block) (used : nat) : block :=
  match used with
  | O => buf
  | S n =>
      let buf := set_bits buf n in
      let i := Z.of_nat n in
      store8 buf (i / 8) (Z.lor (load8 buf (i / 8)) (Z.shiftl 1 (i mod 8)))
  end.

Definition balloc (used : Z) : K mkst unit :=
  if negb (used <? BSIZE * 8) then panic "assert" else
  s ← gets msb;
  wsect (sb_bmapstart s) (set_bits zeroes (Z.to_nat used)).

(** [freeblock++] *)
Definition take_block : K mkst Z :=
  f ← gets freeblock; modify (fun s => s <| freeblock := u32 (f + 1) |>) ;; mret f.

(** [din.addrs[k]], after it was given a block if it had none. *)
Definition have_addr (din : inode) (k : Z) : K mkst inode :=
  a ← deref "addrs" (aget (iaddrs din) k);
  if xint a =? 0 then
    f ← take_block;
    l ← deref "addrs" (aset (iaddrs din) k (xint f));
    mret (din <| iaddrs := l |>)
  else mret din.

(** The block of the file that holds its block [fbn]. *)
Definition block_for (din : inode) (fbn : Z) : K mkst (inode * Z) :=
  if fbn <? NDIRECT then
    din ← have_addr din fbn;
    a ← deref "addrs" (aget (iaddrs din) fbn);
    mret (din, xint a)
  else
    din ← have_addr din NDIRECT;
    a ← deref "addrs" (aget (iaddrs din) NDIRECT);
    indirect ← rsect (xint a);
    let k := 4 * (fbn - NDIRECT) in
    if load32 indirect k =? 0 then
      f ← take_block;
      let indirect := store32 indirect k (xint f) in
      wsect (xint a) indirect ;;
      mret (din, xint (load32 indirect k))
    else mret (din, xint (load32 indirect k)).

(** [while (n > 0)]: every turn appends at least one byte. *)
Fixpoint append_loop (fuel : nat) (din : inode) (off : Z) (p : list Z) : K mkst (inode * Z) :=
  match fuel with
  | O => fault "out of fuel"
  | S f =>
      match p with
      | [] => mret (din, off)
      | _ =>
          let fbn := off / BSIZE in
          if negb (fbn <? MAXFILE) then panic "assert" else
          '(din, x) ← block_for din fbn;
          let n1 := Z.min (Z.of_nat (length p)) ((fbn + 1) * BSIZE - off) in
          buf ← rsect x;
          wsect x (store_bytes buf (off - fbn * BSIZE) (take (Z.to_nat n1) p)) ;;
          append_loop f din (u32 (off + n1)) (drop (Z.to_nat n1) p)
      end
  end.

Definition iappend (inum : Z) (p : list Z) : K mkst unit :=
  din ← rinode inum;
  '(din, off) ← append_loop (S (length p)) din (xint (isize din)) p;
  winode inum (din <| isize := xint off |>).

(** The body of the loop over the files. *)
Definition add_file (rootino : Z) (f : hostfile) : K mkst unit :=
  if bool_decide (47 ∈ hname f) then panic "assert" else
  match hreads f with
  | None => panic "open"
  | Some reads =>
      let name := match hname f with 95 :: r => r | n => n end in
      inum ← ialloc T_FILE;
      iappend rootino (mk_dirent (xshort inum) (copy_name name)) ;;
      kiter (iappend inum) reads
  end.

(** [image] is whether the image could be opened, when the command line names one;
    the message and [exit(1)] of an error are the panic. *)
Definition main (image : option bool) (files : list hostfile) : K mkst unit :=
  if bool_decide (image = None) then panic "Usage: mkfs fs.img files..." else
  if bool_decide (image = Some false) then panic "open" else
  let sb := mkSb (xint FSSIZE) (xint nblocks) (xint NINODES) (xint nlog) (xint 2) (xint (2 + nlog))
    (xint (2 + nlog + ninodeblocks)) in
  modify (fun s => s <| msb := sb |> <| freeblock := nmeta |>) ;;
  kiter (fun i => wsect i zeroes) (seqZ 0 FSSIZE) ;;
  wsect 1 (store_sb zeroes sb) ;;
  rootino ← ialloc T_DIR;
  if negb (rootino =? ROOTINO) then panic "assert" else
  iappend rootino (mk_dirent (xshort rootino) ([46] ++ replicate 13 0)) ;;
  iappend rootino (mk_dirent (xshort rootino) ([46; 46] ++ replicate 12 0)) ;;
  kiter (add_file rootino) files ;;
  din ← rinode rootino;
  let off := xint (isize din) in
  let off := u32 ((off / BSIZE + 1) * BSIZE) in
  winode rootino (din <| isize := xint off |>) ;;
  used ← gets freeblock;
  balloc (i32 used).

End mkfs.

(** The state in which the program starts. *)
Definition mkfs_start : mkst := mkMk (fun _ => zeroes) 0 (mkSb 0 0 0 0 0 0 0) 1 0.

End Mkfs.
