(* ===== verification/MkfsSpec.v ===== *)
(** What mkfs promises: the image is a file system that the kernel can read, with
    the files that were given, in the terms of FsSpec.v. *)

From stdpp Require Import base numbers list sets strings.
From Stdlib Require Import ZArith Lia.
From S2P Require Import Prelude Mem CString Mmu Seg Kalloc Param Printf Kbd Proc Sleeplock Console.
From S2P Require Import Bio BioSpec Log LogSpec LogCrash Inode Fs FsSpec Mkfs.
Import CString Param Sleeplock Bio BioSpec Log LogSpec LogCrash Inode Fs FsSpec Mkfs.

Module MkfsSpec.

Lemma xint_u32 x : xint x = u32 x.
Proof. unfold xint. rewrite !Z.shiftr_div_pow2 by lia. apply (load32_store32_eq (fun _ => 0) 0 x). Qed.
Lemma xint_small x : 0 <= x < 2 ^ 32 -> xint x = x.
Proof. intros Hx. rewrite xint_u32. by apply u32_small. Qed.
Lemma xshort_small x : 0 <= x < 2 ^ 16 -> xshort x = x.
Proof.
  intros Hx. unfold xshort. rewrite Z.shiftr_div_pow2 by lia.
  transitivity (u16 x); [apply (load16_store16_eq (fun _ => 0) 0 x)|]. unfold u16. by apply Z.mod_small.
Qed.

Lemma nmeta_59 : nmeta = 59.
Proof. done. Qed.
Lemma MAXFILE_140 : MAXFILE = 140.
Proof. done. Qed.

(** *** The blocks of a file *)

Definition ind (x : inode) : Z := nth 12 (iaddrs x) 0.

(** The blocks 0 to [N - 1] of inode [i] are mapped, to blocks between [nmeta]
    and [fb] that it owns, and no others; [h] is whether it has an indirect
    block. *)
Record maps (V : Z -> block) (own : Z -> Z) (fb i : Z) (x : inode) (N : Z) (h : bool) : Prop := {
  mp_len : length (iaddrs x) = 13%nat;
  mp_N : 0 <= N <= MAXFILE;
  mp_h : 12 < N -> h = true;
  mp_data bn : 0 <= bn < N -> nmeta <= file_block V x bn < fb /\ own (file_block V x bn) = i;
  mp_ind : if h then nmeta <= ind x < fb /\ own (ind x) = i else ind x = 0;
  mp_inj a b : 0 <= a < N -> 0 <= b < N -> file_block V x a = file_block V x b -> a = b;
  mp_sep a : h = true -> 0 <= a < N -> file_block V x a <> ind x;
  mp_zero bn : N <= bn < 12 -> nth (Z.to_nat bn) (iaddrs x) 0 = 0;
  mp_zero_ind bn : h = true -> 12 <= bn -> N <= bn < MAXFILE -> load32 (V (ind x)) (4 * (bn - 12)) = 0 }.

Definition put_block (V : Z -> block) (b : Z) (d : block) : Z -> block := fun n => if n =? b then d else V n.
Definition give (own : Z -> Z) (b i : Z) : Z -> Z := fun n => if n =? b then i else own n.

Lemma put_block_same V b d : put_block V b d b = d.
Proof. unfold put_block. by rewrite Z.eqb_refl. Qed.
Lemma put_block_other V b d n : n <> b -> put_block V b d n = V n.
Proof. intros Hn. unfold put_block. by rewrite (proj2 (Z.eqb_neq _ _) Hn). Qed.
Lemma give_same own b i : give own b i b = i.
Proof. unfold give. by rewrite Z.eqb_refl. Qed.
Lemma give_other own b i n : n <> b -> give own b i n = own n.
Proof. intros Hn. unfold give. by rewrite (proj2 (Z.eqb_neq _ _) Hn). Qed.

Lemma file_block_direct V x bn : bn < 12 -> file_block V x bn = nth (Z.to_nat bn) (iaddrs x) 0.
Proof. intros H. unfold file_block, NDIRECT. by rewrite (proj2 (Z.ltb_lt _ _)) by lia. Qed.
Lemma file_block_indirect V x bn : 12 <= bn -> file_block V x bn = load32 (V (ind x)) (4 * (bn - 12)).
Proof. intros H. unfold file_block, NDIRECT. by rewrite (proj2 (Z.ltb_ge _ _)) by lia. Qed.

(** The same blocks under another [V]. *)
Lemma file_block_same V V' x bn : (12 <= bn -> V' (ind x) = V (ind x)) -> file_block V' x bn = file_block V x bn.
Proof.
  intros H. destruct (decide (bn < 12)); [by rewrite !file_block_direct by lia|].
  rewrite !file_block_indirect by lia. by rewrite H by lia.
Qed.

(** [addrs[k] = v] *)
Definition set_addr (x : inode) (k v : Z) : inode := x <| iaddrs ::= fun l => <[Z.to_nat k := v]> l |>.

Lemma set_addr_same x k v : 0 <= k < 13 -> length (iaddrs x) = 13%nat -> nth (Z.to_nat k) (iaddrs (set_addr x k v)) 0 = v.
Proof. intros Hk Hl. cbn. apply nth_lookup_Some with (d := 0). apply list_lookup_insert_eq. lia. Qed.
Lemma set_addr_other x k v j : 0 <= k -> 0 <= j -> j <> k -> nth (Z.to_nat j) (iaddrs (set_addr x k v)) 0 = nth (Z.to_nat j) (iaddrs x) 0.
Proof. intros Hk Hj Hne. cbn. rewrite !nth_lookup. f_equal. apply list_lookup_insert_ne. lia. Qed.

(** A new direct block. *)
Lemma maps_direct V own fb i x N h : maps V own fb i x N h -> N < 12 -> nmeta <= fb ->
  maps V (give own fb i) (fb + 1) i (set_addr x N fb) (N + 1) h /\
  forall bn, 0 <= bn < N -> file_block V (set_addr x N fb) bn = file_block V x bn.
Proof.
  intros [H1 H2 H3 H4 H5 H6 H7 H8 H9] HN Hfb.
  assert (Hind : ind (set_addr x N fb) = ind x) by (apply (set_addr_other x N fb 12); lia).
  assert (Hold : forall bn, 0 <= bn < N -> file_block V (set_addr x N fb) bn = file_block V x bn).
  { intros bn Hbn. rewrite !file_block_direct by lia. by apply set_addr_other; lia. }
  assert (Hnew : file_block V (set_addr x N fb) N = fb) by (rewrite file_block_direct by lia; apply set_addr_same; lia).
  split; [|done]. split.
  - cbn. by rewrite length_insert.
  - rewrite MAXFILE_140. lia.
  - lia.
  - intros bn Hbn. destruct (decide (bn = N)) as [->|]; [rewrite Hnew, give_same; lia|].
    rewrite Hold by lia. destruct (H4 bn ltac:(lia)) as [Hr Ho]. rewrite give_other by lia. lia.
  - destruct h; rewrite Hind; [|done]. destruct H5 as [Hr Ho]. rewrite give_other by lia. lia.
  - intros a b Ha Hb E. destruct (decide (a = N)) as [->|], (decide (b = N)) as [->|]; [done|..].
    + rewrite Hnew, Hold in E by lia. destruct (H4 b ltac:(lia)). lia.
    + rewrite Hnew, Hold in E by lia. destruct (H4 a ltac:(lia)). lia.
    + rewrite !Hold in E by lia. apply H6; lia || done.
  - intros a Hh Ha. rewrite Hind. subst h. destruct (decide (a = N)) as [->|]; [rewrite Hnew; lia|].
    rewrite Hold by lia. apply H7; [done|lia].
  - intros bn Hbn. rewrite set_addr_other by lia. apply H8. lia.
  - intros bn Hh Hb1 Hb2. rewrite Hind. apply H9; [done|lia|lia].
Qed.

(** A new indirect block. *)
Lemma maps_new_indirect V own fb i x N : maps V own fb i x N false -> nmeta <= fb -> (forall y, V fb y = 0) ->
  maps V (give own fb i) (fb + 1) i (set_addr x 12 fb) N true /\
  forall bn, 0 <= bn < N -> file_block V (set_addr x 12 fb) bn = file_block V x bn.
Proof.
  intros [H1 H2 H3 H4 H5 H6 H7 H8 H9] Hfb Hz.
  assert (HN : N <= 12) by (destruct (decide (12 < N)); [by specialize (H3 ltac:(done))|lia]).
  assert (Hind : ind (set_addr x 12 fb) = fb) by (apply (set_addr_same x 12 fb); lia).
  assert (Hold : forall bn, 0 <= bn < N -> file_block V (set_addr x 12 fb) bn = file_block V x bn).
  { intros bn Hbn. rewrite !file_block_direct by lia. by apply set_addr_other; lia. }
  split; [|done]. split.
  - cbn. by rewrite length_insert.
  - done.
  - done.
  - intros bn Hbn. rewrite Hold by lia. destruct (H4 bn Hbn) as [Hr Ho]. rewrite give_other by lia. lia.
  - rewrite Hind, give_same. lia.
  - intros a b Ha Hb E. rewrite !Hold in E by lia. by apply H6.
  - intros a _ Ha. rewrite Hind, Hold by lia. destruct (H4 a Ha). lia.
  - intros bn Hbn. rewrite set_addr_other by lia. by apply H8.
  - intros bn _ Hb1 Hb2. rewrite Hind. unfold load32, load8. by rewrite !Hz.
Qed.

(** A new block behind the indirect block. *)
Lemma maps_indirect V own fb i x N : maps V own fb i x N true -> 12 <= N < MAXFILE -> nmeta <= fb < 2 ^ 32 ->
  let V' := put_block V (ind x) (store32 (V (ind x)) (4 * (N - 12)) fb) in
  maps V' (give own fb i) (fb + 1) i x (N + 1) true /\
  file_block V' x N = fb /\ forall bn, 0 <= bn < N -> file_block V' x bn = file_block V x bn.
Proof.
  intros [H1 H2 H3 H4 [H5 H5o] H6 H7 H8 H9] HN Hfb V'.
  assert (Hi : V' (ind x) = store32 (V (ind x)) (4 * (N - 12)) fb) by apply put_block_same.
  assert (Hold : forall bn, 0 <= bn < N -> file_block V' x bn = file_block V x bn).
  { intros bn Hbn. destruct (decide (bn < 12)); [by rewrite !file_block_direct by lia|].
    rewrite !file_block_indirect, Hi by lia. apply load32_store32_ne. lia. }
  assert (Hnew : file_block V' x N = fb).
  { rewrite file_block_indirect, Hi by lia. rewrite load32_store32_eq. apply u32_small. pose proof nmeta_59. lia. }
  split; [|done]. split.
  - done.
  - lia.
  - done.
  - intros bn Hbn. destruct (decide (bn = N)) as [->|]; [rewrite Hnew, give_same; lia|].
    rewrite Hold by lia. destruct (H4 bn ltac:(lia)) as [Hr Ho]. rewrite give_other by lia. lia.
  - rewrite give_other by lia. lia.
  - intros a b Ha Hb E. destruct (decide (a = N)) as [->|], (decide (b = N)) as [->|]; [done|..].
    + rewrite Hnew, Hold in E by lia. destruct (H4 b ltac:(lia)). lia.
    + rewrite Hnew, Hold in E by lia. destruct (H4 a ltac:(lia)). lia.
    + rewrite !Hold in E by lia. apply H6; lia || done.
  - intros a _ Ha. destruct (decide (a = N)) as [->|]; [rewrite Hnew; lia|]. rewrite Hold by lia. apply H7; [done|lia].
  - intros bn Hbn. lia.
  - intros bn _ Hb1 Hb2. rewrite Hi, load32_store32_ne by lia. apply H9; [done|lia|lia].
Qed.

(** New data in a block of the file. *)
Lemma maps_write V own fb i x N h bn d : maps V own fb i x N h -> 0 <= bn < N ->
  let V' := put_block V (file_block V x bn) d in
  maps V' own fb i x N h /\ forall a, 0 <= a < N -> file_block V' x a = file_block V x a.
Proof.
  intros Hm Hbn V'. pose proof Hm as [H1 H2 H3 H4 H5 H6 H7 H8 H9].
  assert (Hi : h = true -> V' (ind x) = V (ind x)).
  { intros Hh. apply put_block_other. apply not_eq_sym. by apply H7. }
  assert (Hold : forall a, 0 <= a < N -> file_block V' x a = file_block V x a).
  { intros a Ha. apply file_block_same. intros Ha2. apply Hi, H3. lia. }
  split; [|done]. split; try done.
  - intros a Ha. rewrite Hold by done. by apply H4.
  - intros a b Ha Hb. rewrite !Hold by done. by apply H6.
  - intros a Hh Ha. rewrite Hold by done. by apply H7.
  - intros a Hh Ha1 Ha2. rewrite Hi by done. by apply H9.
Qed.

(** *** Running *)

Definition sb0 : superblock := mkSb 1000 941 200 30 2 32 58.

(** The image has its full size and zeros from [freeblock] on. *)
Record good (s : mkst) : Prop := {
  gd_size : imgsize s = FSSIZE;
  gd_sb : msb s = sb0;
  gd_fb : nmeta <= freeblock s <= FSSIZE;
  gd_fresh b y : freeblock s <= b < FSSIZE -> img s b y = 0 }.

(** The steps from [s] to [s'] touched blocks of inode [i] and new blocks only. *)
Record keeps (own : Z -> Z) (i : Z) (s s' : mkst) (own' : Z -> Z) : Prop := {
  kp_fb : freeblock s <= freeblock s';
  kp_ino : freeinode s' = freeinode s;
  kp_own b : b < freeblock s -> own' b = own b;
  kp_img b : b < freeblock s -> b < nmeta \/ own b <> i -> img s' b = img s b }.

Lemma keeps_refl own i s : keeps own i s s own.
Proof. by split. Qed.

Lemma keeps_trans own i s1 s2 s3 own2 own3 :
  keeps own i s1 s2 own2 -> keeps own2 i s2 s3 own3 -> keeps own i s1 s3 own3.
Proof.
  intros [A1 A2 A3 A4] [B1 B2 B3 B4]. split; [lia|congruence| |].
  - intros b Hb. by rewrite B3, A3 by lia.
  - intros b Hb Hc. rewrite B4, A4; [done|lia|done|lia|]. by rewrite A3.
Qed.

(** The blocks that [N] data blocks need. *)
Definition cost (N : Z) : Z := if 12 <? N then N + 1 else N.

Section run.
Context (host_ok : Z -> bool) (Hhost : forall b, 0 <= b < FSSIZE -> host_ok b = true).

Lemma sector_small b : 0 <= b < FSSIZE -> sector b = b.
Proof. unfold FSSIZE, sector, BSIZE. intros Hb. rewrite u32_small by lia. by rewrite Z.div_mul. Qed.

Lemma rsect_ok b l s : good s -> 0 <= b < FSSIZE -> rsect host_ok b l s = Ok (img s b) l s.
Proof.
  intros [Hs _ _ _] Hb. unfold rsect. rewrite sector_small by done. kstep. rewrite Hs, Hhost by done. by rewrite (proj2 (Z.ltb_lt _ _)) by lia.
Qed.

Lemma wsect_ok b d l s : good s -> 0 <= b < FSSIZE -> wsect host_ok b d l s = Ok tt l (s <| img := put_block (img s) b d |>).
Proof.
  intros [Hs _ _ _] Hb. unfold wsect. rewrite sector_small by done. rewrite Hhost by done. unfold modify. f_equal. destruct s. cbn in *. unfold put_block, FSSIZE in *. f_equal. lia.
Qed.

Lemma good_write s b d : good s -> b < freeblock s -> good (s <| img := put_block (img s) b d |>).
Proof. intros [H1 H2 H3 H4] Hb. split; try done. intros c y Hc. cbn in *. rewrite put_block_other by lia. by apply H4. Qed.

Lemma keeps_write own i s b d : own b = i -> nmeta <= b -> keeps own i s (s <| img := put_block (img s) b d |>) own.
Proof.
  intros Ho Hb. split; try done. intros c Hc Hc2. cbn. apply put_block_other. intros ->. destruct Hc2; [lia|done].
Qed.

(** One block more. *)
Definition took (s : mkst) : mkst := s <| freeblock := freeblock s + 1 |>.

Lemma take_block_ok l s : good s -> freeblock s < FSSIZE ->
  take_block l s = Ok (freeblock s) l (took s) /\ good (took s) /\
  forall own i, keeps own i s (took s) (give own (freeblock s) i).
Proof.
  intros Hg Hf. pose proof Hg as [H1 H2 H3 H4]. pose proof nmeta_59. unfold FSSIZE in *.
  split; [|split].
  - unfold take_block. kstep. kstep. unfold took. by rewrite u32_small by lia.
  - split; cbn; try done; try (unfold FSSIZE; lia). intros b y Hb. apply H4. unfold FSSIZE in *. lia.
  - intros own i. split; cbn; try done; [lia|]. intros b Hb. apply give_other. lia.
Qed.

Lemma aget_nth x k : 0 <= k < 13 -> length (iaddrs x) = 13%nat -> aget (iaddrs x) k = Some (nth (Z.to_nat k) (iaddrs x) 0).
Proof.
  intros Hk Hl. destruct (aget_in (iaddrs x) k) as [v Hv]; [lia|]. rewrite Hv. apply aget_Some in Hv as [_ Hv].
  f_equal. symmetry. by apply nth_lookup_Some.
Qed.

Lemma have_addr_old x k l s : 0 <= k < 13 -> length (iaddrs x) = 13%nat -> 0 < nth (Z.to_nat k) (iaddrs x) 0 < 2 ^ 32 ->
  have_addr x k l s = Ok x l s.
Proof.
  intros Hk Hl Hn. unfold have_addr. rewrite aget_nth by done. kstep. rewrite xint_small by lia.
  by rewrite (proj2 (Z.eqb_neq _ _)) by lia.
Qed.

Lemma have_addr_new x k l s : 0 <= k < 13 -> length (iaddrs x) = 13%nat -> nth (Z.to_nat k) (iaddrs x) 0 = 0 ->
  good s -> freeblock s < FSSIZE -> have_addr x k l s = Ok (set_addr x k (freeblock s)) l (took s).
Proof.
  intros Hk Hl Hn Hg Hf. unfold have_addr. rewrite aget_nth by done. kstep. rewrite Hn. cbn [Z.eqb].
  destruct (take_block_ok l s Hg Hf) as [R _]. change (xint 0 =? 0) with true. cbv iota. erewrite bind_Ok by exact R.
  pose proof (gd_fb s Hg). pose proof nmeta_59. unfold FSSIZE in *. rewrite xint_small by lia.
  rewrite aset_in by lia. reflexivity.
Qed.

(** What [block_for] does to the file. *)
Record mapped (own : Z -> Z) (i : Z) (x : inode) (N : Z) (s : mkst) (x' : inode) (N' : Z) (s' : mkst) : Prop := {
  md_good : good s';
  md_own : exists own', keeps own i s s' own' /\ maps (img s') own' (freeblock s') i x' N' (12 <? N');
  md_fb : freeblock s' = freeblock s + cost N' - cost N;
  md_old bn : 0 <= bn < N -> file_block (img s') x' bn = file_block (img s) x bn /\
    img s' (file_block (img s) x bn) = img s (file_block (img s) x bn);
  md_new bn y : N <= bn < N' -> img s' (file_block (img s') x' bn) y = 0;
  md_fields : x' = x <| iaddrs := iaddrs x' |> }.

Lemma mapped_refl own i x N s : good s -> maps (img s) own (freeblock s) i x N (12 <? N) -> mapped own i x N s x N s.
Proof. intros Hg Hm. split; [done|exists own; by split; [apply keeps_refl|]|lia|done|lia|by destruct x]. Qed.

Lemma block_for_old own i x N s fbn l : good s -> maps (img s) own (freeblock s) i x N (12 <? N) -> 0 <= fbn < N ->
  block_for host_ok x fbn l s = Ok (x, file_block (img s) x fbn) l s.
Proof.
  intros Hg Hm Hf. pose proof Hm as [H1 H2 _ H4 H5 _ _ _ _]. destruct (H4 fbn Hf) as [Hr _]. pose proof (gd_fb s Hg).
  pose proof nmeta_59. unfold FSSIZE in *. unfold block_for, NDIRECT. destruct (Z.ltb_spec fbn 12) as [Hd|Hd].
  - rewrite file_block_direct in Hr |- * by lia. erewrite bind_Ok by (apply have_addr_old; [lia|done|lia]).
    rewrite aget_nth by (done || lia). kstep. by rewrite xint_small by lia.
  - rewrite (proj2 (Z.ltb_lt _ _)) in H5 by lia. destruct H5 as [H5 _]. fold (ind x).
    erewrite bind_Ok by (apply have_addr_old; [lia|done|unfold ind in H5; change (Z.to_nat 12) with 12%nat; lia]).
    rewrite aget_nth by (done || lia). kstep. change (nth (Z.to_nat 12) (iaddrs x) 0) with (ind x). rewrite (xint_small (ind x)) by lia.
    erewrite bind_Ok by (apply rsect_ok; [done|unfold FSSIZE; lia]). rewrite file_block_indirect in Hr |- * by lia.
    rewrite (proj2 (Z.eqb_neq _ _)) by lia. by rewrite xint_small by lia.
Qed.

(** The tail of [block_for] that gives a new block to the indirect block. *)
Lemma entry_new own i x N s l : good s -> maps (img s) own (freeblock s) i x N true -> 12 <= N < MAXFILE -> freeblock s < FSSIZE ->
  let m := (
    a ← deref "addrs" (aget (iaddrs x) NDIRECT);
    indirect ← rsect host_ok (xint a);
    let k := 4 * (N - NDIRECT) in
    if load32 indirect k =? 0 then
      f ← take_block;
      let indirect := store32 indirect k (xint f) in
      wsect host_ok (xint a) indirect ;;
      mret (x, xint (load32 indirect k))
    else mret (x, xint (load32 indirect k))) in
  exists s', m l s = Ok (x, freeblock s) l s' /\ good s' /\ freeblock s' = freeblock s + 1 /\
    keeps own i s s' (give own (freeblock s) i) /\ maps (img s') (give own (freeblock s) i) (freeblock s') i x (N + 1) true /\
    file_block (img s') x N = freeblock s /\ (forall y, img s' (freeblock s) y = 0) /\
    forall bn, 0 <= bn < N -> file_block (img s') x bn = file_block (img s) x bn /\
      img s' (file_block (img s) x bn) = img s (file_block (img s) x bn).
Proof.
  intros Hg Hm HN Hf m. pose proof Hm as [H1 _ _ _ [H5 H5o] _ H7 _ H9]. pose proof (gd_fb s Hg) as Hfb.
  pose proof nmeta_59 as H59. assert (HF : FSSIZE = 1000) by done.
  destruct (take_block_ok l s Hg Hf) as (R & Hg1 & Hk1).
  destruct (maps_indirect (img s) own (freeblock s) i x N Hm HN ltac:(lia)) as (Hm' & Hnew & Hold). cbv zeta in Hm', Hnew, Hold.
  set (d := store32 (img s (ind x)) (4 * (N - 12)) (freeblock s)) in *.
  assert (Hd : load32 d (4 * (N - 12)) = freeblock s) by (unfold d; rewrite load32_store32_eq; apply u32_small; lia).
  exists ((took s) <| img := put_block (img (took s)) (ind x) d |>). split; [|split; [|split; [done|split; [|split; [exact Hm'|split; [exact Hnew|split]]]]]].
  - unfold m, NDIRECT. rewrite aget_nth by (done || lia). kstep. change (nth (Z.to_nat 12) (iaddrs x) 0) with (ind x).
    rewrite (xint_small (ind x)) by lia. erewrite bind_Ok by (apply rsect_ok; [done|lia]). cbv zeta.
    rewrite (H9 N) by (done || lia). cbn [Z.eqb]. erewrite bind_Ok by exact R. rewrite (xint_small (freeblock s)) by lia.
    erewrite bind_Ok by (apply wsect_ok; [done|lia]). fold d. rewrite Hd, xint_small by lia. done.
  - by apply (good_write (took s)); [|cbn; lia].
  - eapply keeps_trans; [apply Hk1|]. apply (keeps_write _ _ (took s)); [|lia]. by rewrite give_other by lia.
  - intros y. cbn. rewrite put_block_other by lia. apply (gd_fresh s Hg). lia.
  - intros bn Hbn. split; [by apply Hold|]. cbn. apply put_block_other. by apply H7.
Qed.

Lemma block_for_new own i x N s l : good s -> maps (img s) own (freeblock s) i x N (12 <? N) -> 0 <= N < MAXFILE ->
  freeblock s + cost (N + 1) - cost N <= FSSIZE ->
  exists x' s', block_for host_ok x N l s = Ok (x', file_block (img s') x' N) l s' /\ mapped own i x N s x' (N + 1) s'.
Proof.
  intros Hg Hm HN Hroom. pose proof Hm as [H1 _ _ _ H5 _ _ H8 _]. pose proof (gd_fb s Hg) as Hfb.
  pose proof nmeta_59 as H59. assert (HF : FSSIZE = 1000) by done. unfold cost in Hroom. unfold block_for.
  destruct (Z.ltb_spec N NDIRECT) as [Hd|Hd]; unfold NDIRECT in Hd.
  - rewrite (proj2 (Z.ltb_ge 12 N)), (proj2 (Z.ltb_ge 12 (N + 1))) in * by lia.
    destruct (take_block_ok l s Hg ltac:(lia)) as (_ & Hg1 & Hk1).
    destruct (maps_direct (img s) own (freeblock s) i x N false Hm Hd ltac:(lia)) as [Hm1 Hold].
    exists (set_addr x N (freeblock s)), (took s).
    erewrite bind_Ok by (apply have_addr_new; [lia|done|apply H8; lia|done|lia]).
    rewrite aget_nth by (cbn; rewrite ?length_insert; done || lia). kstep.
    rewrite file_block_direct, set_addr_same by (done || lia). rewrite xint_small by lia. split; [done|].
    split; [done| |cbn; unfold cost; rewrite !(proj2 (Z.ltb_ge 12 _)) by lia; lia| | |done].
    + exists (give own (freeblock s) i). split; [apply Hk1|]. rewrite (proj2 (Z.ltb_ge 12 (N + 1))) by lia. exact Hm1.
    + intros bn Hbn. split; [by apply Hold|done].
    + intros bn y Hbn. assert (bn = N) as -> by lia. rewrite file_block_direct, set_addr_same by (done || lia). apply (gd_fresh s Hg). lia.
  - rewrite (proj2 (Z.ltb_lt 12 (N + 1))) in Hroom by lia. destruct (Z.ltb_spec 12 N) as [H12|H12].
    + destruct H5 as [H5 _].
      erewrite bind_Ok by (apply have_addr_old; [unfold NDIRECT; lia|done|change (Z.to_nat NDIRECT) with 12%nat; fold (ind x); lia]).
      destruct (entry_new own i x N s l Hg Hm ltac:(lia) ltac:(lia)) as (s' & R & Hg' & Hf' & Hk' & Hm' & Hnew & Hz & Hold).
      exists x, s'. split; [rewrite Hnew; exact R|]. split; [done| |unfold cost; rewrite !(proj2 (Z.ltb_lt 12 _)) by lia; lia|done| |by destruct x].
      * exists (give own (freeblock s) i). by rewrite (proj2 (Z.ltb_lt 12 (N + 1))) by lia.
      * intros bn y Hbn. assert (bn = N) as -> by lia. by rewrite Hnew.
    + assert (N = 12) as -> by lia. destruct (take_block_ok l s Hg ltac:(lia)) as (_ & Hg1 & Hk1).
      destruct (maps_new_indirect (img s) own (freeblock s) i x 12 Hm ltac:(lia)) as [Hm1 Hold1];
        [intros y; apply (gd_fresh s Hg); lia|]. set (x1 := set_addr x 12 (freeblock s)) in *.
      erewrite bind_Ok by (apply have_addr_new; [unfold NDIRECT; lia|done|exact H5|done|lia]).
      destruct (entry_new (give own (freeblock s) i) i x1 12 (took s) l Hg1 Hm1 ltac:(rewrite MAXFILE_140; lia) ltac:(cbn; lia))
        as (s' & R & Hg' & Hf' & Hk' & Hm' & Hnew & Hz & Hold).
      exists x1, s'. split; [rewrite Hnew; exact R|]. split; [done| |cbn in Hf'; change (cost (12 + 1)) with 14; change (cost 12) with 12; lia| | |done].
      * eexists. split; [eapply keeps_trans; [apply Hk1|exact Hk']|exact Hm'].
      * intros bn Hbn. destruct (Hold bn Hbn) as [E1 E2]. change (img (took s)) with (img s) in *. rewrite Hold1 in E1, E2 by done. done.
      * intros bn y Hbn. assert (bn = 12) as -> by lia. rewrite Hnew. apply Hz.
Qed.

(** *** Appending *)

Definition len (c : list Z) : Z := Z.of_nat (length c).
(** The blocks of a file of [n] bytes. *)
Definition nblk (n : Z) : Z := (n + 511) / 512.

(** The first [N] blocks of the file hold the bytes [c], and zeros after them. *)
Definition content (V : Z -> block) (x : inode) (N : Z) (c : list Z) : Prop :=
  forall k, 0 <= k < 512 * N -> file_byte V x k = u8 (nth (Z.to_nat k) c 0).

(** The file has grown from [c] to [c']. *)
Record grown (own : Z -> Z) (i : Z) (x : inode) (c : list Z) (s : mkst) (x' : inode) (c' : list Z) (s' : mkst) : Prop := {
  gr_good : good s';
  gr_own : exists own', keeps own i s s' own' /\ maps (img s') own' (freeblock s') i x' (nblk (len c')) (12 <? nblk (len c'));
  gr_fb : freeblock s' = freeblock s + cost (nblk (len c')) - cost (nblk (len c));
  gr_content : content (img s') x' (nblk (len c')) c';
  gr_fields : x' = x <| iaddrs := iaddrs x' |> }.

Lemma cost_mono a b : a <= b -> cost a <= cost b.
Proof. intros H. unfold cost. destruct (Z.ltb_spec 12 a), (Z.ltb_spec 12 b); lia. Qed.
Lemma nblk_mono a b : a <= b -> nblk a <= nblk b.
Proof. intros H. unfold nblk. apply Z.div_le_mono; lia. Qed.

(** The block for the next bytes. *)
Lemma next_block own i x c s l : good s -> maps (img s) own (freeblock s) i x (nblk (len c)) (12 <? nblk (len c)) ->
  let fbn := len c / 512 in
  fbn < MAXFILE -> freeblock s + cost (fbn + 1) - cost (nblk (len c)) <= FSSIZE ->
  exists x' s', block_for host_ok x fbn l s = Ok (x', file_block (img s') x' fbn) l s' /\
    mapped own i x (nblk (len c)) s x' (fbn + 1) s'.
Proof.
  intros Hg Hm fbn Hmax Hroom. assert (0 <= len c) by (unfold len; lia).
  destruct (decide (len c mod 512 = 0)) as [E|E].
  - assert (nblk (len c) = fbn) as EN by (unfold nblk, fbn; dlia). rewrite EN in *.
    apply (block_for_new own i x fbn s l Hg Hm); [unfold fbn; dlia|done].
  - assert (nblk (len c) = fbn + 1) as EN by (unfold nblk, fbn; dlia). rewrite EN in *.
    exists x, s. split; [apply (block_for_old own i x (fbn + 1)); [done|done|unfold fbn; dlia]|by apply mapped_refl].
Qed.

(** New bytes at the end of the file, in the block that holds its end. *)
Lemma write_end V own fb i x h c q : let fbn := len c / 512 in
  maps V own fb i x (fbn + 1) h -> content V x (fbn + 1) c -> len c - fbn * 512 + len q <= 512 ->
  let b := file_block V x fbn in
  let V' := put_block V b (store_bytes (V b) (len c - fbn * 512) q) in
  maps V' own fb i x (fbn + 1) h /\ content V' x (fbn + 1) (c ++ q).
Proof.
  intros fbn Hm Hc Hq b V'. assert (H0 : 0 <= len c) by (unfold len; lia). assert (Hfbn : 0 <= fbn) by (unfold fbn; dlia).
  destruct (maps_write V own fb i x (fbn + 1) h fbn (store_bytes (V b) (len c - fbn * 512) q) Hm ltac:(lia)) as [Hm' Hold].
  fold b V' in Hm', Hold. split; [done|]. intros k Hk. specialize (Hc k Hk). unfold file_byte, BSIZE in *. rewrite Hold by dlia.
  assert (Hsame : Z.of_nat (Z.to_nat k) < len c \/ len c + len q <= k -> nth (Z.to_nat k) (c ++ q) 0 = nth (Z.to_nat k) c 0).
  { unfold len. intros [Hl|Hl]; [by rewrite app_nth1 by lia|]. rewrite !nth_overflow; [done|lia|rewrite length_app; lia]. }
  destruct (decide (k / 512 = fbn)) as [E|E].
  - rewrite E in Hc |- *. fold b in Hc |- *. unfold V'. rewrite put_block_same.
    destruct (decide (len c <= k < len c + len q)) as [Hin|Hout].
    + destruct (lookup_lt_is_Some_2 q (Z.to_nat (k - len c))) as [ch Hch]; [unfold len in *; lia|].
      rewrite app_nth2 by (unfold len in *; lia). replace (Z.to_nat k - length c)%nat with (Z.to_nat (k - len c)) by (unfold len; lia).
      rewrite (nth_lookup_Some _ _ _ _ Hch). replace (k mod 512) with (len c - fbn * 512 + Z.of_nat (Z.to_nat (k - len c))) by dlia.
      unfold load8. rewrite (store_bytes_in q _ _ _ ch Hch). apply u8_small, u8_range.
    + rewrite Hsame by lia. unfold load8 in *. rewrite store_bytes_out; [done|]. change (Z.of_nat (length q)) with (len q). dlia.
  - rewrite Hsame by (left; unfold fbn in *; dlia). rewrite <- Hc. unfold V'. rewrite put_block_other; [done|]. intros Eb. apply E.
    apply (mp_inj _ _ _ _ _ _ _ Hm); [dlia|lia|exact Eb].
Qed.

(** One turn of the loop. *)
Lemma append_turn own i x c s p l f : good s ->
  maps (img s) own (freeblock s) i x (nblk (len c)) (12 <? nblk (len c)) -> content (img s) x (nblk (len c)) c -> p <> [] ->
  let n1 := Z.min (len p) ((len c / 512 + 1) * 512 - len c) in
  len c + n1 <= 140 * 512 -> freeblock s + cost (nblk (len c + n1)) - cost (nblk (len c)) <= FSSIZE ->
  exists x' s', append_loop host_ok (S f) x (len c) p l s =
      append_loop host_ok f x' (len c + n1) (drop (Z.to_nat n1) p) l s' /\
    grown own i x c s x' (c ++ take (Z.to_nat n1) p) s'.
Proof.
  intros Hg Hm Hc Hp n1 Hmax Hroom. set (fbn := len c / 512) in *. assert (H0 : 0 <= len c) by (unfold len; lia).
  assert (Hlp : 0 < len p) by (destruct p; [done|unfold len; cbn; lia]).
  assert (Hn1 : 0 < n1 <= len p /\ len c + n1 <= (fbn + 1) * 512) by (unfold n1, fbn; dlia).
  assert (EN : nblk (len c + n1) = fbn + 1) by (unfold nblk, fbn in *; dlia). rewrite EN in Hroom.
  assert (Hfbn : 0 <= fbn < MAXFILE) by (rewrite MAXFILE_140; unfold fbn in *; dlia).
  destruct (next_block own i x c s l Hg Hm (proj2 Hfbn) Hroom) as (x1 & s1 & R1 & [Hg1 (own1 & Hk1 & Hm1) Hf1 Hold1 Hnew1 Hx1]).
  fold fbn in R1, Hm1, Hf1, Hnew1.
  assert (Hc1 : content (img s1) x1 (fbn + 1) c).
  { intros k Hk. destruct (decide (k < 512 * nblk (len c))) as [Hlt|Hge].
    - rewrite <- (Hc k) by lia. unfold file_byte, BSIZE. destruct (Hold1 (k / 512)) as [E1 E2]; [dlia|]. by rewrite E1, E2.
    - rewrite nth_overflow by (unfold nblk, len in *; dlia). unfold file_byte, load8, BSIZE. by rewrite Hnew1 by dlia. }
  assert (Hb : nmeta <= file_block (img s1) x1 fbn < freeblock s1 /\ own1 (file_block (img s1) x1 fbn) = i)
    by (apply (mp_data _ _ _ _ _ _ _ Hm1); lia).
  pose proof (gd_fb s1 Hg1) as Hfb1. pose proof nmeta_59. assert (HF : FSSIZE = 1000) by done.
  set (q := take (Z.to_nat n1) p). assert (Hq : len q = n1) by (unfold q, len in *; rewrite length_take; lia).
  destruct (write_end (img s1) own1 (freeblock s1) i x1 _ c q Hm1 Hc1) as [Hm2 Hc2]; [unfold fbn in *; lia|].
  fold fbn in Hm2, Hc2. set (b := file_block (img s1) x1 fbn) in *. set (d := store_bytes (img s1 b) (len c - fbn * 512) q) in *.
  exists x1, (s1 <| img := put_block (img s1) b d |>). split.
  - cbn [append_loop]. destruct p as [|p0 p']; [done|]. change BSIZE with 512. fold fbn.
    rewrite (proj2 (Z.ltb_lt fbn MAXFILE)) by lia. cbn [negb]. erewrite bind_Ok by exact R1. cbv beta iota zeta. fold b.
    erewrite bind_Ok by (apply rsect_ok; [done|lia]). erewrite bind_Ok by (apply wsect_ok; [done|lia]).
    change (Z.of_nat (length (p0 :: p'))) with (len (p0 :: p')). fold n1. rewrite u32_small by lia. done.
  - assert (El : len (c ++ q) = len c + n1) by (unfold len in *; rewrite length_app; lia). split; rewrite ?El, ?EN; cbn.
    + apply good_write; [done|lia].
    + exists own1. split; [|done]. eapply keeps_trans; [exact Hk1|]. apply keeps_write; [apply Hb|lia].
    + done.
    + done.
    + done.
Qed.

Lemma append_loop_ok i l fuel : forall own x c s p, good s ->
  maps (img s) own (freeblock s) i x (nblk (len c)) (12 <? nblk (len c)) -> content (img s) x (nblk (len c)) c ->
  (length p < fuel)%nat -> len c + len p <= 140 * 512 ->
  freeblock s + cost (nblk (len c + len p)) - cost (nblk (len c)) <= FSSIZE ->
  exists x' s', append_loop host_ok fuel x (len c) p l s = Ok (x', len c + len p) l s' /\ grown own i x c s x' (c ++ p) s'.
Proof.
  induction fuel as [|f IH]; intros own x c s p Hg Hm Hc Hf Hmax Hroom; [lia|]. destruct (decide (p = [])) as [->|Hp].
  { exists x, s. unfold len at 2. cbn [append_loop length]. rewrite Z.add_0_r, app_nil_r. split; [done|].
    split; [done|exists own; by split; [apply keeps_refl|]|lia|done|by destruct x]. }
  set (n1 := Z.min (len p) ((len c / 512 + 1) * 512 - len c)). assert (H0 : 0 <= len c) by (unfold len; lia).
  assert (Hlp : 0 < len p) by (destruct p; [done|unfold len; cbn; lia]).
  assert (Hn1 : 0 < n1 <= len p) by (unfold n1; dlia).
  assert (Hcost : cost (nblk (len c + n1)) <= cost (nblk (len c + len p))) by (apply cost_mono, nblk_mono; lia).
  destruct (append_turn own i x c s p l f Hg Hm Hc Hp) as (x1 & s1 & R1 & Hgr); [fold n1; lia|fold n1; lia|].
  fold n1 in R1, Hgr. set (c1 := c ++ take (Z.to_nat n1) p) in *. set (p1 := drop (Z.to_nat n1) p) in *.
  assert (Hl1 : len c1 = len c + n1) by (unfold c1, len in *; rewrite length_app, length_take; lia).
  assert (Hl2 : len p1 = len p - n1) by (unfold p1, len in *; rewrite length_drop; lia).
  assert (Happ : c1 ++ p1 = c ++ p) by (unfold c1, p1; by rewrite <- app_assoc, take_drop).
  destruct Hgr as [Hg1 (own1 & Hk1 & Hm1) Hf1 Hc1 Hx1]. rewrite Hl1 in Hf1.
  destruct (IH own1 x1 c1 s1 p1 Hg1 Hm1 Hc1) as (x' & s' & R' & Hgr'); [unfold len in *; lia|lia|rewrite Hl1; replace (len c + n1 + len p1) with (len c + len p) by lia; lia|].
  exists x', s'. rewrite Hl1 in R'. rewrite R1, R'. split; [do 2 f_equal; lia|].
  destruct Hgr' as [Hg2 (own2 & Hk2 & Hm2) Hf2 Hc2 Hx2]. rewrite Happ in Hm2, Hf2, Hc2. rewrite Hl1 in Hf2.
  split; [done| |lia|done|by rewrite Hx2, Hx1].
  exists own2. split; [by eapply keeps_trans|done].
Qed.

End run.

(** *** Inodes in the image *)

Definition node (V : Z -> block) (i : Z) : inode := load_dinode (V (IBLOCK i sb0)) (dip_off i) zero_dinode.

(** Only the fields on disk differ from [zero_dinode]. *)
Definition disk_only (x : inode) : Prop :=
  idev x = 1 /\ inum x = 0 /\ iref x = 0 /\ ilk x = mkSleeplock 0 0 /\ ivalid x = 0.

Lemma disk_only_eq x y : disk_only x -> disk_only y -> same_dinode x y -> x = y.
Proof.
  intros (A1 & A2 & A3 & A4 & A5) (B1 & B2 & B3 & B4 & B5) (C1 & C2 & C3 & C4 & C5 & C6).
  destruct x, y. cbn in *. congruence.
Qed.

Lemma load_dinode_ok d o : dinode_ok (load_dinode d o zero_dinode) /\ disk_only (load_dinode d o zero_dinode).
Proof.
  assert (Hi : forall y, - 2 ^ 15 <= i16 y < 2 ^ 15) by (intros y; unfold i16; dlia).
  split; [|done]. split; cbn [itype imajor iminor inlink isize iaddrs load_dinode upd]; try apply Hi.
  - apply load32_range.
  - unfold load_addrs. apply Forall_fmap, Forall_forall. intros k _. cbn. apply load32_range.
  - done.
Qed.

Lemma iblock i : 0 <= i < 208 -> IBLOCK i sb0 = i / 8 + 32 /\ 32 <= i / 8 + 32 < 58.
Proof. intros Hi. unfold IBLOCK. change IPB with 8. cbn [sb0 sb_inodestart]. rewrite u32_small; dlia. Qed.

(** Writing inode [i] to its slot. *)
Definition put_node (V : Z -> block) (i : Z) (x : inode) : Z -> block :=
  put_block V (IBLOCK i sb0) (store_dinode (V (IBLOCK i sb0)) (dip_off i) x).

Lemma put_node_same V i x : dinode_ok x -> disk_only x -> node (put_node V i x) i = x.
Proof.
  intros Hx Hd. unfold node, put_node. rewrite put_block_same. apply disk_only_eq; [apply load_dinode_ok|done|].
  by apply load_store_dinode.
Qed.

Lemma put_node_other V i j x : dinode_ok x -> 0 <= i < 208 -> 0 <= j < 208 -> j <> i -> node (put_node V i x) j = node V j.
Proof.
  intros Hx Hi Hj Hne. unfold node, put_node. destruct (decide (IBLOCK j sb0 = IBLOCK i sb0)) as [E|E].
  - rewrite E, put_block_same. apply load_dinode_same. intros z Hz. apply store_dinode_out; [apply Hx|].
    destruct (iblock i Hi) as [Ei _], (iblock j Hj) as [Ej _]. rewrite Ei, Ej in E.
    unfold dip_off, sizeof_dinode in *. change IPB with 8 in *. dlia.
  - by rewrite put_block_other.
Qed.

Lemma put_node_block V i x b : 0 <= i < 208 -> b < 32 \/ 58 <= b -> put_node V i x b = V b.
Proof. intros Hi Hb. unfold put_node. apply put_block_other. destruct (iblock i Hi) as [-> ?]. lia. Qed.

Section inodes.
Context (host_ok : Z -> bool) (Hhost : forall b, 0 <= b < FSSIZE -> host_ok b = true).

Lemma winode_ok i x l s : good s -> 0 <= i < 208 ->
  winode host_ok i x l s = Ok tt l (s <| img := put_node (img s) i x |>).
Proof.
  intros Hg Hi. unfold winode. kstep. rewrite (gd_sb s Hg). destruct (iblock i Hi) as [E Hr]. cbv zeta.
  erewrite bind_Ok by (apply (rsect_ok host_ok Hhost); [done|rewrite E; unfold FSSIZE; lia]).
  by rewrite (wsect_ok host_ok Hhost) by (done || (rewrite E; unfold FSSIZE; lia)).
Qed.

Lemma rinode_ok i l s : good s -> 0 <= i < 208 -> rinode host_ok i l s = Ok (node (img s) i) l s.
Proof.
  intros Hg Hi. unfold rinode. kstep. rewrite (gd_sb s Hg). destruct (iblock i Hi) as [E Hr].
  by erewrite bind_Ok by (apply (rsect_ok host_ok Hhost); [done|rewrite E; unfold FSSIZE; lia]).
Qed.

Lemma good_node s i x : good s -> 0 <= i < 208 -> good (s <| img := put_node (img s) i x |>).
Proof.
  intros Hg Hi. pose proof (gd_fb s Hg). pose proof nmeta_59. apply good_write; [done|]. destruct (iblock i Hi) as [-> ?]. lia.
Qed.

End inodes.

(** The mapping depends on the blocks of the file only. *)
Lemma maps_frame V V' own own' fb fb' i x N h : maps V own fb i x N h -> fb <= fb' ->
  (forall b, b < fb -> own' b = own b) -> (forall b, nmeta <= b < fb -> own b = i -> V' b = V b) ->
  maps V' own' fb' i x N h /\ forall bn, 0 <= bn < N -> file_block V' x bn = file_block V x bn.
Proof.
  intros [H1 H2 H3 H4 H5 H6 H7 H8 H9] Hfb Ho HV.
  assert (Hi : h = true -> V' (ind x) = V (ind x)) by (intros ->; apply HV; apply H5).
  assert (Hold : forall bn, 0 <= bn < N -> file_block V' x bn = file_block V x bn).
  { intros bn Hbn. apply file_block_same. intros H12. apply Hi, H3. lia. }
  split; [|done]. split; try done.
  - intros bn Hbn. rewrite Hold by done. destruct (H4 bn Hbn) as [Hr Hw]. rewrite Ho by lia. split; [lia|done].
  - destruct h; [|done]. destruct H5 as [H5 Hw]. rewrite Ho by lia. split; [lia|done].
  - intros a b Ha Hb. rewrite !Hold by done. by apply H6.
  - intros a Hh Ha. rewrite Hold by done. by apply H7.
  - intros bn Hh Hb1 Hb2. rewrite Hi by done. by apply H9.
Qed.

Lemma content_frame V V' own own' fb fb' i x h c : maps V own fb i x (nblk (len c)) h -> fb <= fb' ->
  (forall b, b < fb -> own' b = own b) -> (forall b, nmeta <= b < fb -> own b = i -> V' b = V b) ->
  content V x (nblk (len c)) c -> content V' x (nblk (len c)) c.
Proof.
  intros Hm Hfb Ho HV Hc k Hk. rewrite <- (Hc k Hk). unfold file_byte, BSIZE.
  destruct (maps_frame V V' own own' fb fb' i x _ h Hm Hfb Ho HV) as [_ Hold].
  assert (Hbn : 0 <= k / 512 < nblk (len c)) by dlia. rewrite Hold by done.
  destruct (mp_data _ _ _ _ _ _ _ Hm _ Hbn) as [Hr Hw]. by rewrite HV.
Qed.

(** *** The files in the image *)

(** Inode [i] has type [t] and contents [c]. *)
Record file_in (V : Z -> block) (own : Z -> Z) (fb i t : Z) (c : list Z) : Prop := {
  fi_type : itype (node V i) = t;
  fi_nlink : inlink (node V i) = 1;
  fi_size : isize (node V i) = len c;
  fi_len : len c <= 140 * 512;
  fi_maps : maps V own fb i (node V i) (nblk (len c)) (12 <? nblk (len c));
  fi_content : content V (node V i) (nblk (len c)) c }.

(** The blocks that the files need. *)
Fixpoint total (fs : list (Z * list Z)) : Z :=
  match fs with [] => 0 | (_, c) :: r => cost (nblk (len c)) + total r end.

(** The image holds the files [fs] as inodes 1, 2, ... *)
Record inv (own : Z -> Z) (s : mkst) (fs : list (Z * list Z)) : Prop := {
  iv_good : good s;
  iv_ino : freeinode s = 1 + Z.of_nat (length fs);
  iv_max : (length fs < 207)%nat;
  iv_file j t c : fs !! j = Some (t, c) -> file_in (img s) own (freeblock s) (1 + Z.of_nat j) t c;
  iv_fb : freeblock s = nmeta + total fs;
  iv_sb : img s 1 = store_sb zeroes sb0;
  iv_log b : 2 <= b < 32 -> img s b = zeroes;
  iv_free i : Z.of_nat (length fs) < i < 208 -> itype (node (img s) i) = 0 }.

Lemma blocks_app fs gs : total (fs ++ gs) = total fs + total gs.
Proof. induction fs as [|[t c] fs IH]; cbn; [done|]. rewrite IH. lia. Qed.

Lemma blocks_insert fs j t c t' c' : fs !! j = Some (t, c) ->
  total (<[j := (t', c')]> fs) = total fs + cost (nblk (len c')) - cost (nblk (len c)).
Proof.
  revert j. induction fs as [|[t0 c0] fs IH]; intros [|j] H; try done.
  - injection H as -> ->. cbn. lia.
  - change (cost (nblk (len c0)) + total (<[j := (t', c')]> fs) =
      cost (nblk (len c0)) + total fs + cost (nblk (len c')) - cost (nblk (len c))). rewrite (IH j H). lia.
Qed.

Lemma maps_u32 V own fb i x N h : maps V own fb i x N h -> fb <= FSSIZE -> Forall is_u32 (iaddrs x).
Proof.
  intros [H1 H2 H3 H4 H5 H6 H7 H8 H9] Hfb. unfold FSSIZE in Hfb. pose proof nmeta_59. apply Forall_lookup. intros k v Hk.
  pose proof (lookup_lt_Some _ _ _ Hk) as Hlt. assert (Ev : nth k (iaddrs x) 0 = v) by (by apply nth_lookup_Some). unfold is_u32.
  destruct (decide (k = 12%nat)) as [->|Hne].
  { fold (ind x) in Ev. destruct h; lia. }
  destruct (decide (Z.of_nat k < N)) as [Hn|Hn].
  - destruct (H4 (Z.of_nat k) ltac:(lia)) as [Hr _]. rewrite file_block_direct, Nat2Z.id in Hr by lia. lia.
  - specialize (H8 (Z.of_nat k) ltac:(lia)). rewrite Nat2Z.id in H8. lia.
Qed.

Lemma maps_fields V own fb i x y N h : iaddrs y = iaddrs x -> maps V own fb i x N h -> maps V own fb i y N h.
Proof.
  intros E [H1 H2 H3 H4 H5 H6 H7 H8 H9].
  assert (Ef : forall bn, file_block V y bn = file_block V x bn) by (intros bn; unfold file_block; by rewrite E).
  assert (Ei : ind y = ind x) by (unfold ind; by rewrite E).
  split; rewrite ?Ei, ?E; try done; intros *; rewrite ?Ef; eauto.
Qed.

Lemma content_fields V x y N c : iaddrs y = iaddrs x -> content V x N c -> content V y N c.
Proof. intros E H k Hk. rewrite <- (H k Hk). unfold file_byte, file_block. by rewrite E. Qed.

(** A file is untouched by changes elsewhere. *)
Lemma file_in_frame V V' own own' fb fb' i t c : file_in V own fb i t c -> node V' i = node V i -> fb <= fb' ->
  (forall b, b < fb -> own' b = own b) -> (forall b, nmeta <= b < fb -> own b = i -> V' b = V b) -> file_in V' own' fb' i t c.
Proof.
  intros [H1 H2 H3 H4 H5 H6] En Hfb Ho HV. split; rewrite ?En; try done.
  - by apply (maps_frame V V' own own' fb fb').
  - by eapply content_frame.
Qed.

(** Inode [i] is written back with the contents [c]. *)
Lemma file_in_put V own fb i t c x : maps V own fb i x (nblk (len c)) (12 <? nblk (len c)) -> content V x (nblk (len c)) c -> fb <= FSSIZE ->
  0 <= i < 208 -> dinode_ok x -> disk_only x -> itype x = t -> inlink x = 1 -> isize x = len c -> len c <= 140 * 512 ->
  file_in (put_node V i x) own fb i t c.
Proof.
  intros Hm Hc Hfb Hi Hx Hd Ht Hl Hs Hlen. pose proof nmeta_59.
  assert (HV : forall b, nmeta <= b < fb -> own b = i -> put_node V i x b = V b) by (intros b Hb _; apply put_node_block; [done|lia]).
  split; rewrite ?put_node_same by done; try done.
  - by apply (maps_frame V _ own own fb fb).
  - by apply (content_frame V _ own own fb fb i x (12 <? nblk (len c))).
Qed.

Section files.
Context (host_ok : Z -> bool) (Hhost : forall b, 0 <= b < FSSIZE -> host_ok b = true).

Lemma iappend_ok own s fs j t c p l : inv own s fs -> fs !! j = Some (t, c) -> len c + len p <= 140 * 512 ->
  freeblock s + cost (nblk (len c + len p)) - cost (nblk (len c)) <= FSSIZE ->
  exists own' s', iappend host_ok (1 + Z.of_nat j) p l s = Ok tt l s' /\ inv own' s' (<[j := (t, c ++ p)]> fs).
Proof.
  intros Hinv Hj Hmax Hroom. pose proof Hinv as [Hg Hino Hn Hf Hfb Hsb Hlog Hfree]. pose proof nmeta_59 as H59.
  pose proof (lookup_lt_Some _ _ _ Hj) as Hlt. set (i := 1 + Z.of_nat j). assert (Hi : 0 <= i < 208) by (unfold i; lia).
  destruct (Hf j t c Hj) as [F1 F2 F3 F4 F5 F6]. fold i in F1, F2, F3, F5, F6. set (x := node (img s) i) in *.
  destruct (append_loop_ok host_ok Hhost i l (S (length p)) own x c s p Hg F5 F6 ltac:(lia) Hmax Hroom)
    as (x1 & s1 & R1 & [Hg1 (own1 & Hk1 & Hm1) Hf1 Hc1 Hx1]).
  assert (El : len (c ++ p) = len c + len p) by (unfold len; rewrite length_app; lia). rewrite El in Hf1.
  set (x2 := x1 <| isize := len c + len p |>). assert (H0 : 0 <= len c /\ 0 <= len p) by (unfold len; lia).
  assert (Hx2 : dinode_ok x2 /\ disk_only x2).
  { destruct (load_dinode_ok (img s (IBLOCK i sb0)) (dip_off i)) as [[D1 D2 D3 D4 D5 D6 D7] Hd]. unfold x2. rewrite Hx1.
    split; [|done]. split; try done; cbn; [unfold is_u32; lia|apply (maps_u32 _ _ _ _ _ _ _ Hm1), (gd_fb s1 Hg1)|apply Hm1]. }
  destruct Hx2 as [Hx2 Hd2]. exists own1, (s1 <| img := put_node (img s1) i x2 |>). split.
  { unfold iappend. erewrite bind_Ok by (by apply (rinode_ok host_ok Hhost)). fold x. rewrite F3, xint_small by lia.
    erewrite bind_Ok by exact R1. cbv beta iota. rewrite xint_small by lia. by apply (winode_ok host_ok Hhost). }
  assert (Hlow : forall b, b < nmeta -> img s1 b = img s b) by (intros b Hb; apply (kp_img _ _ _ _ _ Hk1); [pose proof (gd_fb s Hg); lia|by left]).
  assert (Hother : forall k, 0 <= k < 208 -> k <> i -> node (put_node (img s1) i x2) k = node (img s) k).
  { intros k Hk Hne. rewrite put_node_other by done. unfold node. rewrite Hlow; [done|]. destruct (iblock k Hk) as [-> ?]. lia. }
  assert (Hmono := kp_fb _ _ _ _ _ Hk1). split; cbn [img freeblock freeinode upd].
  - by apply good_node.
  - by rewrite (kp_ino _ _ _ _ _ Hk1), length_insert.
  - by rewrite length_insert.
  - intros j' t' c' Hj'. destruct (decide (j' = j)) as [->|Hne].
    + rewrite list_lookup_insert_eq in Hj' by done. injection Hj' as <- <-. fold i.
      apply file_in_put; [by apply (maps_fields _ _ _ _ x1)|by apply (content_fields _ x1)|apply Hg1|exact Hi|exact Hx2|exact Hd2|..];
        [unfold x2; by rewrite Hx1|unfold x2; by rewrite Hx1|by rewrite El|by rewrite El].
    + rewrite list_lookup_insert_ne in Hj' by done. pose proof (lookup_lt_Some _ _ _ Hj').
      apply (file_in_frame (img s) _ own own1 (freeblock s)); [by apply Hf| |done|apply Hk1|].
      * apply Hother; unfold i; lia.
      * intros b Hb Ho. rewrite put_node_block by (done || lia). apply (kp_img _ _ _ _ _ Hk1); [lia|]. right. rewrite Ho. unfold i. lia.
  - rewrite (blocks_insert fs j t c) by done. rewrite El. lia.
  - rewrite put_node_block by (done || lia). rewrite Hlow by lia. done.
  - intros b Hb. rewrite put_node_block by (done || lia). rewrite Hlow by lia. by apply Hlog.
  - intros k Hk. rewrite length_insert in Hk. rewrite Hother by (unfold i; lia). by apply Hfree.
Qed.

(** The same, with the room counted over all files. *)
Lemma iappend_room own s fs j t c p l : inv own s fs -> fs !! j = Some (t, c) -> len c + len p <= 140 * 512 ->
  total (<[j := (t, c ++ p)]> fs) <= nblocks ->
  exists own' s', iappend host_ok (1 + Z.of_nat j) p l s = Ok tt l s' /\ inv own' s' (<[j := (t, c ++ p)]> fs).
Proof.
  intros Hinv Hj Hmax Hroom. apply (iappend_ok own); try done.
  rewrite (blocks_insert fs j t c) in Hroom by done. rewrite (iv_fb _ _ _ Hinv).
  replace (len (c ++ p)) with (len c + len p) in Hroom by (unfold len; rewrite length_app; lia).
  unfold nblocks in Hroom. lia.
Qed.

Lemma iappends_ok l j t reads : forall own s fs c, inv own s fs -> fs !! j = Some (t, c) ->
  len (c ++ concat reads) <= 140 * 512 -> total (<[j := (t, c ++ concat reads)]> fs) <= nblocks ->
  exists own' s', kiter (iappend host_ok (1 + Z.of_nat j)) reads l s = Ok tt l s' /\
    inv own' s' (<[j := (t, c ++ concat reads)]> fs).
Proof.
  induction reads as [|p reads IH]; intros own s fs c Hinv Hj Hmax Hroom.
  - cbn [concat kiter]. rewrite app_nil_r, list_insert_id by done. by exists own, s.
  - cbn [concat] in *. rewrite app_assoc in Hmax, Hroom |- *. cbn [kiter].
    assert (Hlen : len (c ++ p) <= len ((c ++ p) ++ concat reads)) by (unfold len; rewrite (length_app (c ++ p)); lia).
    assert (Hle : total (<[j := (t, c ++ p)]> fs) <= total (<[j := (t, (c ++ p) ++ concat reads)]> fs)).
    { rewrite !(blocks_insert fs j t c) by done. pose proof (cost_mono _ _ (nblk_mono _ _ Hlen)). lia. }
    destruct (iappend_room own s fs j t c p l Hinv Hj) as (own1 & s1 & R1 & Hinv1);
      [unfold len in *; rewrite length_app in Hlen; rewrite length_app in Hlen; rewrite !length_app in Hmax; lia|lia|].
    pose proof (lookup_lt_Some _ _ _ Hj) as Hlt.
    destruct (IH own1 s1 _ (c ++ p) Hinv1) as (own2 & s2 & R2 & Hinv2);
      [by apply list_lookup_insert_eq|done|by rewrite list_insert_insert_eq|].
    exists own2, s2. split; [by erewrite bind_Ok by exact R1|]. by rewrite list_insert_insert_eq in Hinv2.
Qed.

(** A new inode. *)
Lemma new_node_ok t : 0 <= t < 2 ^ 15 ->
  let x := zero_dinode <| itype := i16 (xshort t) |> <| inlink := i16 (xshort 1) |> <| isize := xint 0 |> in
  dinode_ok x /\ disk_only x /\ itype x = t /\ inlink x = 1 /\ isize x = 0 /\
  forall V own fb i, maps V own fb i x 0 false.
Proof.
  intros Ht x. assert (E : itype x = t) by (cbn; rewrite xshort_small by lia; unfold i16; rewrite Z.mod_small; lia).
  split; [|split; [done|split; [done|split; [done|split; [done|]]]]].
  - split; rewrite ?E; try lia; try done; cbn; try lia. repeat (constructor; [done|]). constructor.
  - intros V own fb i. split; try done; try (intros; lia).
    intros bn Hbn. cbn [x iaddrs upd zero_dinode]. rewrite nth_lookup, lookup_replicate_2 by lia. done.
Qed.

Lemma ialloc_ok own s fs t l : inv own s fs -> (length fs < 206)%nat -> 0 <= t < 2 ^ 15 ->
  exists s', ialloc host_ok t l s = Ok (1 + Z.of_nat (length fs)) l s' /\ inv own s' (fs ++ [(t, [])]).
Proof.
  intros Hinv Hn Ht. pose proof Hinv as [Hg Hino Hmax Hf Hfb Hsb Hlog Hfree]. pose proof nmeta_59 as H59.
  destruct (new_node_ok t Ht) as (Hx & Hd & E1 & E2 & E3 & Hm). cbv zeta in *.
  set (x := zero_dinode <| itype := _ |> <| inlink := _ |> <| isize := _ |>) in *.
  set (i := 1 + Z.of_nat (length fs)) in *. assert (Hi : 0 <= i < 208) by (unfold i; lia).
  set (s1 := s <| freeinode := i + 1 |>). assert (Hg1 : good s1) by (destruct Hg; by split).
  exists (s1 <| img := put_node (img s) i x |>). split.
  { unfold ialloc. kstep. rewrite Hino. fold i. rewrite u32_small by lia. erewrite bind_Ok by reflexivity. fold s1. fold x.
    erewrite bind_Ok by (by apply (winode_ok host_ok Hhost)). done. }
  split; cbn [img freeblock freeinode upd s1].
  - by apply (good_node s1).
  - rewrite length_app. cbn. unfold i. lia.
  - rewrite length_app. cbn. lia.
  - intros j' t' c' Hj'. destruct (decide (j' < length fs)%nat) as [Hlt|Hge].
    + rewrite lookup_app_l in Hj' by done. apply (file_in_frame (img s) _ own own (freeblock s)); [by apply Hf| |done|done|].
      * apply put_node_other; (done || (unfold i; lia)).
      * intros b Hb _. apply put_node_block; [done|lia].
    + rewrite lookup_app_r in Hj' by lia. destruct (j' - length fs)%nat as [|k] eqn:Ek; [|by destruct k].
      injection Hj' as <- <-. assert (j' = length fs) as -> by lia. fold i.
      apply file_in_put; try done; [intros k Hk; change (nblk (len [])) with 0 in Hk; lia|apply Hg].
  - rewrite blocks_app. change (total [(t, [])]) with 0. lia.
  - rewrite put_node_block by (done || lia). done.
  - intros b Hb. rewrite put_node_block by (done || lia). by apply Hlog.
  - intros k Hk. rewrite length_app in Hk. cbn in Hk. rewrite put_node_other by (done || (unfold i; lia)). apply Hfree. lia.
Qed.

(** *** The files that are given *)

Definition host_name (f : hostfile) : list Z := match hname f with 95 :: r => r | n => n end.
Definition host_bytes (f : hostfile) : list Z := match hreads f with Some r => concat r | None => [] end.
Definition usable (f : hostfile) : Prop :=
  47 ∉ hname f /\ hreads f <> None /\ len (host_bytes f) <= 140 * 512 /\ Forall (fun b => 0 <= b < 256) (host_bytes f).

(** The directory entries for the files, from inode [n] on. *)
Fixpoint dirents (n : Z) (hs : list hostfile) : list (list Z) :=
  match hs with
  | [] => []
  | f :: r => mk_dirent n (copy_name (host_name f)) :: dirents (n + 1) r
  end.

Definition as_file (f : hostfile) : Z * list Z := (T_FILE, host_bytes f).

Lemma copy_name_length n : length (copy_name n) = 14%nat.
Proof. unfold copy_name. by rewrite bytes_at_length. Qed.

Lemma dirents_length hs : forall n, length (dirents n hs) = length hs.
Proof. induction hs as [|f hs IH]; intros n; [done|]. cbn. by rewrite IH. Qed.

Lemma dirents_lookup hs k f : forall n, hs !! k = Some f ->
  dirents n hs !! k = Some (mk_dirent (n + Z.of_nat k) (copy_name (host_name f))).
Proof.
  revert k. induction hs as [|g hs IH]; intros [|k] n Hk; try done.
  - injection Hk as ->. cbn. by rewrite Z.add_0_r.
  - cbn [dirents]. change ((?a :: ?b) !! S k) with (b !! k). rewrite (IH k (n + 1)) by done. do 2 f_equal. lia.
Qed.

Lemma mk_dirent_length n nm : length nm = 14%nat -> length (mk_dirent n nm) = 16%nat.
Proof. intros H. unfold mk_dirent. by rewrite length_app, H. Qed.

Lemma dirents_16 hs : forall n, Forall (fun e => length e = 16%nat) (dirents n hs).
Proof.
  induction hs as [|f hs IH]; intros n; [constructor|]. constructor; [|apply IH]. apply mk_dirent_length, copy_name_length.
Qed.

Lemma concat_16 (E : list (list Z)) : Forall (fun e => length e = 16%nat) E -> len (concat E) = 16 * Z.of_nat (length E).
Proof. unfold len. induction 1 as [|e E He HE IH]; [done|]. cbn [concat length]. rewrite length_app, Nat2Z.inj_add, IH. lia. Qed.

Lemma add_file_ok own s r gs f l : inv own s ((T_DIR, r) :: gs) -> usable f -> (length gs < 204)%nat ->
  let n := 2 + Z.of_nat (length gs) in
  let r' := r ++ mk_dirent n (copy_name (host_name f)) in
  len r' <= 140 * 512 -> total ((T_DIR, r') :: gs ++ [as_file f]) <= nblocks ->
  exists own' s', add_file host_ok 1 f l s = Ok tt l s' /\ inv own' s' ((T_DIR, r') :: gs ++ [as_file f]).
Proof.
  intros Hinv (U1 & U2 & U3 & U4) Hn n r' Hr Hroom. unfold add_file. rewrite bool_decide_eq_false_2 by done.
  unfold as_file, host_bytes in *. destruct (hreads f) as [reads|]; [|done]. fold (host_name f).
  destruct (ialloc_ok own s _ T_FILE l Hinv) as (s1 & R1 & Hinv1); [cbn; lia|unfold T_FILE; lia|].
  erewrite bind_Ok by exact R1. cbn [length] in *. replace (1 + Z.of_nat (S (length gs))) with n in * by (unfold n; lia).
  rewrite xshort_small by (unfold n; lia).
  assert (Hcost : 0 <= cost (nblk (len (concat reads)))) by (unfold cost, nblk, len; destruct (12 <? _); dlia).
  assert (Etot : total ((T_DIR, r') :: gs ++ [(T_FILE, [])]) <= total ((T_DIR, r') :: gs ++ [(T_FILE, concat reads)])).
  { cbn [total]. rewrite !blocks_app. cbn [total]. change (cost (nblk (len []))) with 0. lia. }
  destruct (iappend_room own s1 _ 0 T_DIR r (mk_dirent n (copy_name (host_name f))) l Hinv1) as (own2 & s2 & R2 & Hinv2);
    [done|unfold len in *; rewrite <- Nat2Z.inj_add, <- length_app; exact Hr|exact (Z.le_trans _ _ _ Etot Hroom)|].
  erewrite bind_Ok by exact R2. change (<[0%nat := _]> _) with ((T_DIR, r') :: gs ++ [(T_FILE, [])]) in Hinv2.
  assert (Ej : ((T_DIR, r') :: gs ++ [(T_FILE, [])]) !! S (length gs) = Some (T_FILE, [])) by (change (S (length gs)) with (length ((T_DIR, r') :: gs)); by apply (list_lookup_middle ((T_DIR, r') :: gs))).
  assert (Ei : <[S (length gs) := (T_FILE, [] ++ concat reads)]> ((T_DIR, r') :: gs ++ [(T_FILE, [])]) =
    (T_DIR, r') :: gs ++ [(T_FILE, concat reads)]).
  { rewrite (app_comm_cons gs [(T_FILE, [])]), insert_app_r_alt by (cbn; lia). cbn [length app]. by rewrite Nat.sub_diag. }
  destruct (iappends_ok l (S (length gs)) T_FILE reads own2 s2 _ [] Hinv2 Ej) as (own3 & s3 & R3 & Hinv3);
    [exact U3|by rewrite Ei|]. rewrite Ei in Hinv3.
  exists own3, s3. split; [|exact Hinv3]. replace n with (1 + Z.of_nat (S (length gs))) by (unfold n; lia). exact R3.
Qed.

Lemma blocks_nonneg fs : 0 <= total fs.
Proof. induction fs as [|[t c] fs IH]; cbn [total]; [lia|]. unfold cost, nblk, len. destruct (12 <? _); dlia. Qed.

(** The root directory starts with these entries. *)
Lemma add_files_ok l hs : forall own s r gs, inv own s ((T_DIR, r) :: gs) -> Forall usable hs ->
  (length gs + length hs < 205)%nat ->
  let r' := r ++ concat (dirents (2 + Z.of_nat (length gs)) hs) in
  len r' <= 140 * 512 -> total ((T_DIR, r') :: gs ++ map as_file hs) <= nblocks ->
  exists own' s', kiter (add_file host_ok 1) hs l s = Ok tt l s' /\ inv own' s' ((T_DIR, r') :: gs ++ map as_file hs).
Proof.
  induction hs as [|f hs IH]; intros own s r gs Hinv Hu Hn r' Hr Hroom; unfold r' in *; cbn [dirents concat map kiter] in *.
  { rewrite !app_nil_r in *. by exists own, s. }
  inversion Hu as [|? ? Hf Hu']; subst. cbn [length] in Hn. set (n := 2 + Z.of_nat (length gs)) in *.
  rewrite app_assoc in Hr, Hroom |- *. set (r1 := r ++ mk_dirent n _) in *.
  assert (Eg : gs ++ as_file f :: map as_file hs = (gs ++ [as_file f]) ++ map as_file hs) by (by rewrite <- app_assoc).
  rewrite Eg in Hroom |- *. assert (Hlen : len r1 <= len (r1 ++ concat (dirents (n + 1) hs))) by (unfold len; rewrite (length_app r1); lia).
  destruct (add_file_ok own s r gs f l Hinv Hf) as (own1 & s1 & R1 & Hinv1); [lia|fold n r1; lia| |].
  { fold n r1. cbn [total] in Hroom |- *. rewrite (blocks_app (gs ++ _)) in Hroom. pose proof (blocks_nonneg (map as_file hs)).
    pose proof (cost_mono _ _ (nblk_mono _ _ Hlen)). lia. }
  fold n r1 in Hinv1. assert (En : 2 + Z.of_nat (length (gs ++ [as_file f])) = n + 1) by (rewrite length_app; cbn; unfold n; lia).
  destruct (IH own1 s1 r1 (gs ++ [as_file f]) Hinv1 Hu') as (own2 & s2 & R2 & Hinv2).
  { rewrite length_app. cbn. lia. }
  { by rewrite En. }
  { by rewrite En. }
  rewrite En in Hinv2. exists own2, s2. split; [by erewrite bind_Ok by exact R1|done].
Qed.

End files.

End MkfsSpec.
