(* ===== verification/MkfsImage.v ===== *)
(** The image that mkfs leaves, as the kernel sees it: the theorems of FsSpec.v and
    DirSpec.v on reading and looking up apply to it. *)

From stdpp Require Import base numbers list sets strings.
From Stdlib Require Import ZArith Lia.
From S2P Require Import Prelude Mem CString Mmu Seg Kalloc Param Printf Kbd Proc Sleeplock Console.
From S2P Require Import Bio BioSpec Log LogSpec LogCrash Inode Fs FsSpec DirSpec Mkfs MkfsSpec.
Import CString Param Sleeplock Console Bio BioSpec Log LogSpec LogCrash Inode Fs FsSpec DirSpec Mkfs MkfsSpec.

Module MkfsImage.

(** *** The run *)

Definition dot : list Z := mk_dirent 1 ([46] ++ replicate 13 0).
Definition dotdot : list Z := mk_dirent 1 ([46; 46] ++ replicate 12 0).
Definition root_entries (hs : list hostfile) : list (list Z) := dot :: dotdot :: dirents 2 hs.

(** The files of the image, from inode 1 on. *)
Definition files (hs : list hostfile) : list (Z * list Z) := (T_DIR, concat (root_entries hs)) :: map as_file hs.

(** The size that the root directory gets at the end. *)
Definition rounded (n : Z) : Z := (n / 512 + 1) * 512.

Lemma root_16 hs : Forall (fun e => length e = 16%nat) (root_entries hs).
Proof. repeat (constructor; [done|]). apply dirents_16. Qed.

Lemma root_length hs : len (concat (root_entries hs)) = 16 * (2 + Z.of_nat (length hs)).
Proof. rewrite concat_16 by apply root_16. cbn [root_entries length]. rewrite dirents_length. lia. Qed.

Section run.
Context (host_ok : Z -> bool) (Hhost : forall b, 0 <= b < FSSIZE -> host_ok b = true).

Lemma zero_blocks l n : forall a s, 0 <= a -> a + Z.of_nat n <= FSSIZE -> imgsize s = a -> (forall b, img s b = zeroes) ->
  exists s', kiter (fun i => wsect host_ok i zeroes) (seqZ a (Z.of_nat n)) l s = Ok tt l s' /\
    imgsize s' = a + Z.of_nat n /\ (forall b, img s' b = zeroes) /\
    msb s' = msb s /\ freeinode s' = freeinode s /\ freeblock s' = freeblock s.
Proof.
  induction n as [|n IH]; intros a s Ha Hn Hs Hz.
  - exists s. change (seqZ a (Z.of_nat 0)) with (@nil Z). repeat split; try done. lia.
  - rewrite seqZ_cons by lia. replace (Z.pred (Z.of_nat (S n))) with (Z.of_nat n) by lia. cbn [kiter].
    erewrite bind_Ok by (unfold wsect; rewrite sector_small, Hhost by lia; reflexivity).
    set (s1 := s <| img ::= _ |> <| imgsize ::= _ |>).
    destruct (IH (Z.succ a) s1) as (s' & R & E1 & E2 & E3 & E4 & E5); [lia|lia|cbn; lia| |].
    { intros b. cbn. by destruct (b =? a). }
    exists s'. split; [exact R|]. split; [lia|done].
Qed.

(** The image before the root directory is made. *)
Lemma mkfs_begin l : exists s, inv (fun _ => 0) s [] /\ forall k : K mkst unit,
  (modify (fun s => s <| msb := sb0 |> <| freeblock := nmeta |>) ;;
   kiter (fun i => wsect host_ok i zeroes) (seqZ 0 FSSIZE) ;;
   wsect host_ok 1 (store_sb zeroes sb0) ;; k) l mkfs_start = k l s.
Proof.
  set (s0 := mkfs_start <| msb := sb0 |> <| freeblock := nmeta |>). assert (HF : FSSIZE = 1000) by done.
  destruct (zero_blocks l 1000 0 s0) as (s1 & R & E1 & E2 & E3 & E4 & E5); [lia|lia|done|done|].
  change (Z.of_nat 1000) with 1000 in R, E1. 
  assert (Hg : good s1) by (split; [done|done|rewrite E5; cbn; rewrite nmeta_59; lia|intros b y _; by rewrite E2]).
  exists (s1 <| img := put_block (img s1) 1 (store_sb zeroes sb0) |>). split.
  2: { intros k. kstep. fold s0. rewrite HF. erewrite bind_Ok by exact R.
       by erewrite bind_Ok by (apply (wsect_ok host_ok Hhost); [done|lia]). }
  split; cbn.
  - apply good_write; [done|]. rewrite E5. cbn. rewrite nmeta_59. lia.
  - by rewrite E4.
  - lia.
  - done.
  - by rewrite E5.
  - done.
  - intros b Hb. rewrite put_block_other by lia. apply E2.
  - intros i Hi. unfold node. destruct (iblock i ltac:(lia)) as [-> ?]. by rewrite put_block_other, E2 by lia.
Qed.

Lemma root_ok own s l : inv own s [] ->
  exists own' s', inv own' s' [(T_DIR, dot ++ dotdot)] /\ forall k : Z -> K mkst unit, (
    rootino ← ialloc host_ok T_DIR;
    if negb (rootino =? ROOTINO) then panic "assert" else
    iappend host_ok rootino (mk_dirent (xshort rootino) ([46] ++ replicate 13 0)) ;;
    iappend host_ok rootino (mk_dirent (xshort rootino) ([46; 46] ++ replicate 12 0)) ;;
    k rootino) l s = k 1 l s'.
Proof.
  intros Hinv. destruct (ialloc_ok host_ok Hhost own s [] T_DIR l Hinv) as (s1 & R1 & Hinv1); [cbn; lia|unfold T_DIR; lia|].
  destruct (iappend_room host_ok Hhost own s1 _ 0 T_DIR [] dot l Hinv1) as (own2 & s2 & R2 & Hinv2); [done..|].
  destruct (iappend_room host_ok Hhost own2 s2 _ 0 T_DIR dot dotdot l Hinv2) as (own3 & s3 & R3 & Hinv3); [done..|].
  exists own3, s3. split; [exact Hinv3|]. intros k. erewrite bind_Ok by exact R1. change (negb (_ =? ROOTINO)) with false. cbv iota.
  change (1 + Z.of_nat (length [])) with (1 + Z.of_nat 0). fold dot dotdot.
  erewrite bind_Ok by exact R2. erewrite bind_Ok by exact R3. done.
Qed.

(** The size of the root directory and the bitmap. *)
Lemma mkfs_finish own s hs l : inv own s (files hs) -> (length hs <= 198)%nat ->
  (din ← rinode host_ok 1;
   let off := xint (isize din) in
   let off := u32 ((off / BSIZE + 1) * BSIZE) in
   winode host_ok 1 (din <| isize := xint off |>) ;;
   used ← gets freeblock;
   balloc host_ok (i32 used)) l s =
  Ok tt l (s <| img := put_block (put_node (img s) 1 ((node (img s) 1) <| isize := rounded (16 * (2 + Z.of_nat (length hs))) |>))
    58 (set_bits zeroes (Z.to_nat (freeblock s))) |>).
Proof.
  intros Hinv Hn. pose proof Hinv as [Hg _ _ Hf _ _ _ _]. pose proof (gd_fb s Hg) as Hfb. assert (HF : FSSIZE = 1000) by done.
  pose proof (fi_size _ _ _ _ _ _ (Hf 0%nat T_DIR _ eq_refl)) as Hs. change (1 + Z.of_nat 0) with 1 in Hs.
  rewrite root_length in Hs. erewrite bind_Ok by (apply (rinode_ok host_ok Hhost); [done|lia]). cbv zeta.
  rewrite Hs, (xint_small (16 * _)) by lia. change BSIZE with 512. fold (rounded (16 * (2 + Z.of_nat (length hs)))).
  set (n := rounded _). assert (Hnr : 0 <= n < 2 ^ 32) by (unfold n, rounded; dlia). rewrite (u32_small n), (xint_small n) by done.
  erewrite bind_Ok by (apply (winode_ok host_ok Hhost); [done|lia]). 
  assert (Hg1 := good_node s 1 ((node (img s) 1) <| isize := n |>) Hg ltac:(lia)). set (s1 := s <| img := _ |>) in *. kstep.
  change (freeblock s1) with (freeblock s). rewrite (i32_small (freeblock s)) by (pose proof nmeta_59; lia).
  unfold balloc. change (BSIZE * 8) with 4096. rewrite (proj2 (Z.ltb_lt _ _)) by lia. cbn [negb]. kstep.
  rewrite (gd_sb s1 Hg1). change (sb_bmapstart sb0) with 58. rewrite (wsect_ok host_ok Hhost) by (done || lia). done.
Qed.

Lemma main_ok hs l : Forall usable hs -> (length hs <= 198)%nat -> total (files hs) <= nblocks ->
  exists own s s', main host_ok (Some true) hs l mkfs_start = Ok tt l s' /\ inv own s (files hs) /\
    img s' = put_block (put_node (img s) 1 ((node (img s) 1) <| isize := rounded (16 * (2 + Z.of_nat (length hs))) |>))
      58 (set_bits zeroes (Z.to_nat (freeblock s))).
Proof.
  intros Hu Hn Hroom. destruct (mkfs_begin l) as (s1 & Hinv1 & R1). destruct (root_ok _ s1 l Hinv1) as (own2 & s2 & Hinv2 & R2).
  destruct (add_files_ok host_ok Hhost l hs own2 s2 _ [] Hinv2 Hu) as (own3 & s3 & R3 & Hinv3).
  { cbn. lia. }
  { rewrite <- app_assoc. change (dot ++ dotdot ++ _) with (concat (root_entries hs)). rewrite root_length. lia. }
  { rewrite <- app_assoc. exact Hroom. }
  rewrite <- app_assoc in Hinv3. change (inv own3 s3 (files hs)) in Hinv3.
  pose proof (mkfs_finish own3 s3 hs l Hinv3 Hn) as R4. exists own3, s3.
  eexists (s3 <| img := _ |>). split; [|split; [exact Hinv3|reflexivity]].
  unfold main. rewrite !bool_decide_eq_false_2 by done. change (mkSb _ _ _ _ _ _ _) with sb0. cbv zeta in R4 |- *. rewrite R1, R2. by erewrite bind_Ok by exact R3.
Qed.

End run.

(** *** The bitmap *)

Lemma set_bits_spec n b : 0 <= b -> Z.testbit (load8 (set_bits zeroes n) (b / 8)) (b mod 8) = (b <? Z.of_nat n).
Proof.
  intros Hb. induction n as [|n IH].
  { change (load8 (set_bits zeroes 0) (b / 8)) with 0. rewrite Z.bits_0. symmetry. apply Z.ltb_ge. lia. }
  cbn [set_bits]. destruct (decide (b / 8 = Z.of_nat n / 8)) as [E|E].
  - rewrite E, load8_store8_eq, <- E. unfold u8. rewrite (Z.mod_pow2_bits_low _ 8) by dlia.
    rewrite Z.lor_spec, IH, Z.shiftl_1_l, Z.pow2_bits_eqb by dlia.
    destruct (Z.ltb_spec b (Z.of_nat n)), (Z.eqb_spec (Z.of_nat n mod 8) (b mod 8)), (Z.ltb_spec b (Z.of_nat (S n))); cbn; try done; dlia.
  - rewrite load8_store8_ne by done. rewrite IH. destruct (Z.ltb_spec b (Z.of_nat n)), (Z.ltb_spec b (Z.of_nat (S n))); try done; dlia.
Qed.

(** *** The files *)

(** Inode [i] of the image has type [t] and contents [c], for the kernel too. *)
Definition holds (V : Z -> block) (i t : Z) (c : list Z) : Prop := forall x, same_dinode x (node V i) -> idev x = 1 ->
  itype x = t /\ inlink x = 1 /\ isize x = len c /\ file_ok FSSIZE V x /\ file_inj V x /\ file_bytes V x 0 (length c) = c.

(** The blocks of an inode. *)
Definition uses (V : Z -> block) (x : inode) (b : Z) : Prop :=
  (exists bn, in_file x bn /\ b = file_block V x bn) \/ (NDIRECT * BSIZE < isize x /\ b = nth (Z.to_nat NDIRECT) (iaddrs x) 0).

Lemma in_file_nblk x c bn : isize x = len c -> in_file x bn -> 0 <= bn < nblk (len c).
Proof. intros Hs [H0 H1]. rewrite Hs in H1. unfold nblk, BSIZE in *. dlia. Qed.

Lemma file_in_uses V own fb i t c b : file_in V own fb i t c -> uses V (node V i) b -> nmeta <= b < fb /\ own b = i.
Proof.
  intros [_ _ Hs _ Hm _] [(bn & Hbn & ->)|[Hsz ->]].
  - apply (mp_data _ _ _ _ _ _ _ Hm). by apply (in_file_nblk (node V i)).
  - pose proof (mp_ind _ _ _ _ _ _ _ Hm) as Hi. change (NDIRECT * BSIZE) with 6144 in Hsz.
    by rewrite (proj2 (Z.ltb_lt _ _)) in Hi by (unfold nblk; dlia).
Qed.

Lemma content_bytes V x c : content V x (nblk (len c)) c -> Forall (fun b => 0 <= b < 256) c -> file_bytes V x 0 (length c) = c.
Proof.
  intros Hc Hb. unfold file_bytes. apply list_eq. intros k. destruct (decide (k < length c)%nat) as [Hk|Hk].
  - rewrite list_lookup_fmap, lookup_seq_lt by done. cbn [fmap option_fmap option_map]. rewrite Hc by (unfold nblk, len; dlia).
    destruct (lookup_lt_is_Some_2 c k Hk) as [v Hv]. replace (Z.to_nat (0 + Z.of_nat (0 + k))) with k by lia.
    rewrite (nth_lookup_Some _ _ _ _ Hv), Hv. f_equal. apply u8_small. exact (proj1 (Forall_lookup _ _) Hb k v Hv).
  - rewrite !lookup_ge_None_2; [done|lia|rewrite length_map, length_seq; lia].
Qed.

Lemma file_in_holds V own fb i t c : file_in V own fb i t c -> fb <= FSSIZE -> t <> T_DEV ->
  Forall (fun b => 0 <= b < 256) c -> holds V i t c.
Proof.
  intros [H1 H2 H3 H4 H5 H6] Hfb Ht Hb x (E1 & _ & _ & E4 & E5 & E6) Hd.
  apply (maps_fields _ _ _ _ _ x) in H5; [|done]. apply (content_fields _ _ x) in H6; [|done].
  rewrite E1, E4, E5. pose proof nmeta_59. assert (Hx : isize x = len c) by congruence.
  assert (Hi : NDIRECT * BSIZE < isize x -> (12 <? nblk (len c)) = true).
  { change (NDIRECT * BSIZE) with 6144. rewrite Hx. intros Hl. apply Z.ltb_lt. unfold nblk. dlia. }
  split; [done|]. split; [done|]. split; [done|]. split; [|split; [|by apply content_bytes]].
  - split; try done; [congruence|apply H5|change (MAXFILE * BSIZE) with (140 * 512); rewrite Hx; unfold len in *; lia| |].
    + intros bn B1 B2. pose proof (mp_data _ _ _ _ _ _ _ H5 bn (in_file_nblk x c bn Hx (conj B1 B2))). lia.
    + intros Hl. pose proof (mp_ind _ _ _ _ _ _ _ H5) as Hind. rewrite Hi in Hind by done. unfold ind in Hind.
      change (Z.to_nat NDIRECT) with 12%nat. lia.
  - split.
    + intros a b Ha Hb'. by apply (mp_inj _ _ _ _ _ _ _ H5); apply (in_file_nblk x).
    + intros a Ha Hl. apply (mp_sep _ _ _ _ _ _ _ H5); [by apply Hi|by apply (in_file_nblk x)].
Qed.

(** The contents of the root directory: the entries, and unused ones up to the end
    of the block. *)
Definition root_bytes (hs : list hostfile) : list Z :=
  concat (root_entries hs) ++
  replicate (Z.to_nat (rounded (len (concat (root_entries hs))) - len (concat (root_entries hs)))) 0.

Lemma root_bytes_len hs : len (root_bytes hs) = rounded (16 * (2 + Z.of_nat (length hs))).
Proof.
  unfold root_bytes, len at 1. rewrite length_app, length_replicate, Nat2Z.inj_add. fold (len (concat (root_entries hs))).
  rewrite root_length. unfold rounded. dlia.
Qed.

Lemma nth_zeros c n k : nth k (c ++ replicate n 0) 0 = nth k c 0.
Proof.
  destruct (decide (k < length c)%nat) as [Hk|Hk]; [by rewrite app_nth1|].
  rewrite app_nth2 by lia. rewrite (nth_overflow c) by lia. rewrite nth_lookup.
  destruct (replicate n 0 !! _) eqn:E; [by apply lookup_replicate in E as [-> _]|done].
Qed.

(** The image at the end of the run. *)
Definition final (s : mkst) (hs : list hostfile) : Z -> block :=
  put_block (put_node (img s) 1 ((node (img s) 1) <| isize := rounded (16 * (2 + Z.of_nat (length hs))) |>))
    58 (set_bits zeroes (Z.to_nat (freeblock s))).

Lemma root_node_ok s (hs : list hostfile) : (length hs <= 198)%nat ->
  let x := (node (img s) 1) <| isize := rounded (16 * (2 + Z.of_nat (length hs))) |> in dinode_ok x /\ disk_only x.
Proof.
  intros Hn x. destruct (load_dinode_ok (img s (IBLOCK 1 sb0)) (dip_off 1)) as [[D1 D2 D3 D4 D5 D6 D7] Hd].
  split; [|done]. split; try done. cbn. unfold is_u32, rounded. dlia.
Qed.

Lemma final_node s hs i : (length hs <= 198)%nat -> 1 < i < 208 -> node (final s hs) i = node (img s) i.
Proof.
  intros Hn Hi. unfold final. unfold node at 1. destruct (iblock i ltac:(lia)) as [E ?]. rewrite put_block_other by lia.
  apply put_node_other; try lia. by apply root_node_ok.
Qed.

Lemma final_block s hs b : b < 32 \/ 59 <= b -> final s hs b = img s b.
Proof. intros Hb. unfold final. rewrite put_block_other by lia. apply put_node_block; lia. Qed.

(** The entries do not fill their blocks: the rounded size is within the last one. *)
Lemma final_files own s hs j t c : inv own s (files hs) -> (length hs <= 198)%nat -> (2 + Z.of_nat (length hs)) mod 32 <> 0 ->
  ((T_DIR, root_bytes hs) :: map as_file hs) !! j = Some (t, c) -> file_in (final s hs) own (freeblock s) (1 + Z.of_nat j) t c.
Proof.
  intros Hinv Hn Hmod Hj. pose proof Hinv as [Hg _ Hmax Hf _ _ _ _]. pose proof nmeta_59.
  pose proof (lookup_lt_Some _ _ _ Hj) as Hlt. cbn [length] in Hlt. rewrite length_map in Hlt.
  destruct j as [|j].
  - injection Hj as <- <-. destruct (Hf 0%nat T_DIR _ eq_refl) as [F1 F2 F3 F4 F5 F6]. change (1 + Z.of_nat 0) with 1 in *.
    destruct (root_node_ok s hs Hn) as [Hx Hd]. cbv zeta in Hx, Hd. set (x := (node (img s) 1) <| isize := _ |>) in *.
    assert (EN : nblk (len (root_bytes hs)) = nblk (len (concat (root_entries hs)))).
    { rewrite root_bytes_len, root_length. unfold nblk, rounded. dlia. }
    apply (file_in_frame (put_node (img s) 1 x) _ own own (freeblock s)); [|done|done|done|].
    + apply file_in_put; [rewrite EN; by apply (maps_fields _ _ _ _ (node (img s) 1))| |apply Hg|lia|exact Hx|exact Hd|exact F1|exact F2| |].
      * intros k Hk. rewrite EN in Hk. unfold root_bytes. rewrite nth_zeros. by apply (content_fields _ (node (img s) 1) _ _ _ eq_refl F6).
      * symmetry. apply root_bytes_len.
      * rewrite root_bytes_len. unfold rounded. dlia.
    + intros b Hb _. unfold final. by rewrite put_block_other by lia.
  - apply (file_in_frame (img s) _ own own (freeblock s)); [by apply Hf|apply final_node; lia|done|done|].
    intros b Hb _. apply final_block. lia.
Qed.

(** *** Looking up the files *)

Lemma copy_cut nm : cut_name (Z.to_nat DIRSIZ) (copy_name nm) = cut_name (Z.to_nat DIRSIZ) nm.
Proof.
  unfold copy_name. destruct (strncpy_pads (two_names nm []) DIRSIZ 0 DIRSIZ) as [-> _]; [unfold DIRSIZ; lia..|].
  rewrite (cstrn_cut _ _ 0 nm).
  2: { intros k Hk. unfold two_names, DIRSIZ in *. rewrite (proj2 (Z.ltb_lt _ _)) by lia. f_equal. lia. }
  generalize (Z.to_nat DIRSIZ). intros n. revert nm. induction n as [|n IH]; intros nm; [done|]. destruct nm as [|c nm]; [done|].
  cbn [cut_name]. destruct (Z.eqb_spec (u8 c) 0) as [E|E]; [done|]. unfold padded in *. cbn [app cut_name length Nat.sub].
  rewrite (u8_small (u8 c)) by apply u8_range. rewrite (proj2 (Z.eqb_neq _ _) E). f_equal. apply IH.
Qed.

(** An entry within the contents of a directory. *)
Lemma file_bytes_sub V x c o n : file_bytes V x 0 (length c) = c -> (o + n <= length c)%nat ->
  file_bytes V x (Z.of_nat o) n = take n (drop o c).
Proof.
  intros Hc Hn. rewrite <- Hc. replace (length c) with (o + (n + (length c - o - n)))%nat by lia.
  rewrite file_bytes_app, file_bytes_app, drop_app_length' by (by rewrite file_bytes_length).
  rewrite take_app_length' by (by rewrite file_bytes_length). done.
Qed.

Lemma concat_entry (E : list (list Z)) z j e : Forall (fun e => length e = 16%nat) E -> E !! j = Some e ->
  take 16 (drop (16 * j) (concat E ++ z)) = e.
Proof.
  intros HE. revert j. induction HE as [|e' E He HE IH]; intros [|j] Hj; try done.
  - injection Hj as ->. cbn [concat]. rewrite Nat.mul_0_r, drop_0, <- app_assoc. by apply take_app_length'.
  - cbn [concat]. rewrite <- app_assoc. replace (16 * S j)%nat with (length e' + 16 * j)%nat by lia. rewrite drop_app_add. by apply IH.
Qed.

Lemma root_entry V x hs j e : isize x = len (root_bytes hs) -> file_bytes V x 0 (length (root_bytes hs)) = root_bytes hs ->
  root_entries hs !! j = Some e -> entries V x !! j = Some e.
Proof.
  intros Hs Hc Hj. pose proof (lookup_lt_Some _ _ _ Hj) as Hlt. cbn [root_entries length] in Hlt. rewrite dirents_length in Hlt.
  assert (Hl := root_bytes_len hs). unfold entries, sizeof_dirent. rewrite Hs, Hl. rewrite list_lookup_fmap, lookup_seq_lt
    by (unfold rounded; dlia). cbn [fmap option_fmap option_map Nat.add]. f_equal.
  replace (16 * Z.of_nat j) with (Z.of_nat (16 * j)) by lia. change (Z.to_nat 16) with 16%nat.
  rewrite (file_bytes_sub V x (root_bytes hs)); [by apply concat_entry; [apply root_16|]|done|]. unfold len, rounded in Hl. dlia.
Qed.

(** The names in the root directory, cut as the kernel cuts them. *)
Definition root_names (hs : list hostfile) : list (list Z) :=
  [46] :: [46; 46] :: map (fun f => cut_name (Z.to_nat DIRSIZ) (host_name f)) hs.

Lemma root_names_entries hs : map (fun e => cut_name (Z.to_nat DIRSIZ) (de_name e)) (root_entries hs) = root_names hs.
Proof.
  cbn [root_entries map]. unfold root_names. do 2 f_equal. generalize 2. induction hs as [|f hs IH]; intros n; [done|].
  cbn [dirents map]. rewrite IH. f_equal. apply copy_cut.
Qed.

Lemma root_lookup V x hs k f : isize x = len (root_bytes hs) -> file_bytes V x 0 (length (root_bytes hs)) = root_bytes hs ->
  NoDup (root_names hs) -> (length hs <= 198)%nat -> hs !! k = Some f ->
  list_find (names (host_name f)) (entries V x) = Some (S (S k), mk_dirent (2 + Z.of_nat k) (copy_name (host_name f))).
Proof.
  intros Hs Hc Hnd Hn Hk. assert (Hd := dirents_lookup hs k f 2 Hk). pose proof (lookup_lt_Some _ _ _ Hk).
  assert (Hname : root_names hs !! S (S k) = Some (cut_name (Z.to_nat DIRSIZ) (host_name f))).
  { transitivity (((fun f => cut_name (Z.to_nat DIRSIZ) (host_name f)) <$> hs) !! k); [done|]. by rewrite list_lookup_fmap, Hk. }
  apply list_find_Some. split; [by apply (root_entry V x hs)|]. split.
  - split; [|symmetry; apply copy_cut]. unfold de_inum, mk_dirent. cbn. unfold u8. dlia.
  - intros j e He Hj [_ Hcut]. destruct (lookup_lt_is_Some_2 (root_entries hs) j) as [e' He'].
    { cbn [root_entries length]. rewrite dirents_length. lia. }
    rewrite (root_entry V x hs j e' Hs Hc He') in He. injection He as ->.
    assert (root_names hs !! j = Some (cut_name (Z.to_nat DIRSIZ) (de_name e))) as Hj2.
    { rewrite <- root_names_entries. transitivity (((fun e => cut_name (Z.to_nat DIRSIZ) (de_name e)) <$> root_entries hs) !! j); [done|].
      by rewrite list_lookup_fmap, He'. }
    rewrite <- Hcut in Hj2. pose proof (NoDup_lookup _ _ _ _ Hnd Hj2 Hname). lia.
Qed.

(** *** The image *)

(** What the kernel finds in the image [V] made of the files [hs]: the super block,
    an empty log, the root directory, the files as inodes 2, 3, ..., free inodes
    after them, and a bitmap that covers the blocks in use, each of which serves
    one inode. *)
Record image (V : Z -> block) (hs : list hostfile) : Prop := {
  im_sb : load_sb (V 1) = sb0;
  im_log b : 2 <= b < 32 -> V b = zeroes;
  im_root : holds V 1 T_DIR (root_bytes hs);
  im_files k f : hs !! k = Some f -> holds V (2 + Z.of_nat k) T_FILE (host_bytes f);
  im_free i : 1 + Z.of_nat (length hs) < i < 208 -> itype (node V i) = 0;
  im_blocks : exists used own,
    (forall b, 0 <= b < FSSIZE -> Z.testbit (load8 (V 58) (b / 8)) (b mod 8) = (b <? used)) /\
    (forall i b, 1 <= i <= 1 + Z.of_nat (length hs) -> uses V (node V i) b -> nmeta <= b < used /\ own b = i) }.

Lemma root_bytes_range hs : Forall (fun b => 0 <= b < 256) (root_bytes hs).
Proof.
  assert (Hd : forall n nm, Forall (fun b => 0 <= b < 256) nm -> Forall (fun b => 0 <= b < 256) (mk_dirent n nm)).
  { intros n nm Hnm. repeat (constructor; [apply u8_range|]). done. }
  assert (Hz : forall n, Forall (fun b => 0 <= b < 256) (replicate n 0)) by (intros n; apply Forall_replicate; lia).
  unfold root_bytes. apply Forall_app. split; [|apply Hz]. apply Forall_concat. cbn [root_entries].
  constructor; [apply Hd; constructor; [lia|apply Hz]|]. constructor; [apply Hd; do 2 (constructor; [lia|]); apply Hz|].
  generalize 2. induction hs as [|f hs IH]; intros n; [constructor|]. constructor; [|apply IH]. apply Hd.
  apply Forall_lookup. intros k v Hk. unfold copy_name in Hk. pose proof (lookup_lt_Some _ _ _ Hk) as Hl.
  rewrite bytes_at_length in Hl. rewrite bytes_at_lookup in Hk by done. injection Hk as <-. apply load8_range.
Qed.

Lemma final_image own s hs : inv own s (files hs) -> Forall usable hs -> (length hs <= 198)%nat ->
  (2 + Z.of_nat (length hs)) mod 32 <> 0 -> image (final s hs) hs.
Proof.
  intros Hinv Hu Hn Hmod. pose proof Hinv as [Hg _ _ _ _ Hsb Hlog Hfree]. pose proof (gd_fb s Hg) as Hfb. pose proof nmeta_59.
  assert (Hf := fun j t c => final_files own s hs j t c Hinv Hn Hmod). split.
  - rewrite final_block, Hsb by lia. by vm_compute.
  - intros b Hb. rewrite final_block by lia. by apply Hlog.
  - apply (file_in_holds _ own (freeblock s)); [by apply (Hf 0%nat)|lia|done|apply root_bytes_range].
  - intros k f Hk. replace (2 + Z.of_nat k) with (1 + Z.of_nat (S k)) by lia.
    apply (file_in_holds _ own (freeblock s)); [|lia|done|apply (proj1 (Forall_lookup _ _) Hu k f Hk)].
    apply (Hf (S k) T_FILE). transitivity ((as_file <$> hs) !! k); [done|]. by rewrite list_lookup_fmap, Hk.
  - intros i Hi. rewrite final_node by lia. apply Hfree. cbn [files length]. rewrite length_map. lia.
  - exists (freeblock s), own. split.
    + intros b Hb. unfold final. rewrite put_block_same, set_bits_spec by lia. by rewrite Z2Nat.id by lia.
    + intros i b Hi Hub. destruct (lookup_lt_is_Some_2 ((T_DIR, root_bytes hs) :: map as_file hs) (Z.to_nat (i - 1))) as [[t c] Hj].
      { cbn [length]. rewrite length_map. lia. }
      specialize (Hf _ _ _ Hj). replace (1 + Z.of_nat (Z.to_nat (i - 1))) with i in Hf by lia. by apply (file_in_uses _ _ _ _ _ _ _ Hf).
Qed.

(** *** The kernel on the image *)

Section kernel.
Variables (lock_addr ilock_addr : nat -> Z) (input_r : Z) (swtch : K fstate unit) (me : nat) (mp : Z) (fuel : nat).

(** The kernel runs on the disk [V], with a free buffer. *)
Definition mounted (V : Z -> block) (t : fstate) (P : list Z) : Prop :=
  bio_ok me mp (lb (fl t)) V [] P /\ Z.of_nat (length P) < NBUF /\ disksize (lb (fl t)) = FSSIZE.

(** Entry [ip] of its inode table is inode [i], as [ilock] reads it. *)
Definition loaded (V : Z -> block) (t : fstate) (ip : nat) (i : Z) : Prop :=
  exists x, icache t !! ip = Some x /\ same_dinode x (node V i) /\ idev x = 1.

Lemma image_reads V t P ip i ty c : mounted V t P -> loaded V t ip i -> holds V i ty c -> len c < 2 ^ 31 ->
  exists u, readi lock_addr ilock_addr input_r swtch fuel ip 0 (len c) [] t = Ok (len c, c) [] (set_lb u t).
Proof.
  intros (Hok & Hroom & Hsz) (x & Hx & Hsame & Hdev) Hh Hlen. destruct (Hh x Hsame Hdev) as (_ & _ & Hs & Hf & _ & Hc).
  rewrite <- Hsz in Hf. destruct (readi_spec lock_addr ilock_addr input_r swtch me mp fuel ip x t V P 0 (len c)) as (u & R & _);
    [done..|unfold len in *; lia|]. exists u. rewrite R, Hs, Z.sub_0_r, Z.min_id.
  rewrite (proj2 (Z.leb_le _ _)) by (unfold len; lia). unfold len at 2. rewrite Nat2Z.id. by rewrite Hc.
Qed.

Lemma image_looks_up V hs t P dp k f : image V hs -> NoDup (root_names hs) -> (length hs <= 198)%nat ->
  mounted V t P -> loaded V t dp 1 -> hs !! k = Some f ->
  exists u, dirlookup lock_addr ilock_addr input_r swtch fuel dp (host_name f) [] t =
    (i ← iget 1 (2 + Z.of_nat k); mret (Some (i, 16 * (2 + Z.of_nat k)))) [] (set_lb u t).
Proof.
  intros Him Hnd Hn (Hok & Hroom & Hsz) (x & Hx & Hsame & Hdev) Hk. pose proof (lookup_lt_Some _ _ _ Hk).
  destruct (im_root _ _ Him x Hsame Hdev) as (Ht & _ & Hs & Hf & _ & Hc). rewrite <- Hsz in Hf.
  destruct (dirlookup_run lock_addr ilock_addr input_r swtch me mp fuel dp x t V P (host_name f)) as (u & _ & _ & R); try done.
  { rewrite Hs, root_bytes_len. unfold rounded, sizeof_dirent. dlia. }
  exists u. rewrite R, (root_lookup V x hs k f), Hdev by done. unfold de_inum, mk_dirent, sizeof_dirent. cbn [nth app].
  replace (u8 (2 + Z.of_nat k) + 2 ^ 8 * u8 ((2 + Z.of_nat k) / 2 ^ 8)) with (2 + Z.of_nat k) by (unfold u8; dlia).
  by replace (Z.of_nat (S (S k))) with (2 + Z.of_nat k) by lia.
Qed.

(** C7: The image that mkfs makes is the file system the kernel reads.  Given up to
    198 readable files of at most [MAXFILE] blocks, that fit on the disk together,
    whose names differ after [DIRSIZ] bytes, and whose number is such that the
    entries of the root directory do not fill its last block (for which see
    [mkfs_full_directory]), mkfs ends without an error and leaves the
    super block, an empty log, a bitmap that covers the blocks in use and no block
    used twice; the kernel, on this disk, finds every file under its name in the
    root directory, and reads from it the bytes that were given. *)
Theorem mkfs_image host_ok hs l
  (Hhost : forall b, 0 <= b < FSSIZE -> host_ok b = true) (Hu : Forall usable hs) (Hn : (length hs <= 198)%nat)
  (Hmod : (2 + Z.of_nat (length hs)) mod 32 <> 0) (Hnd : NoDup (root_names hs)) (Hroom : total (files hs) <= nblocks) :
  exists s', main host_ok (Some true) hs l mkfs_start = Ok tt l s' /\ image (img s') hs /\
    forall t P k f, mounted (img s') t P -> hs !! k = Some f ->
      (forall dp, loaded (img s') t dp 1 ->
        exists u, dirlookup lock_addr ilock_addr input_r swtch fuel dp (host_name f) [] t =
          (i ← iget 1 (2 + Z.of_nat k); mret (Some (i, 16 * (2 + Z.of_nat k)))) [] (set_lb u t)) /\
      (forall ip, loaded (img s') t ip (2 + Z.of_nat k) ->
        exists u, readi lock_addr ilock_addr input_r swtch fuel ip 0 (len (host_bytes f)) [] t =
          Ok (len (host_bytes f), host_bytes f) [] (set_lb u t)).
Proof.
  destruct (main_ok host_ok Hhost hs l Hu Hn Hroom) as (own & s & s' & R & Hinv & E).
  pose proof (final_image own s hs Hinv Hu Hn Hmod) as Him. change (img s' = final s hs) in E. rewrite <- E in Him.
  exists s'. split; [done|]. split; [done|]. intros t P k f Hm Hk. split.
  - intros dp Hdp. by apply (image_looks_up (img s') hs t P).
  - intros ip Hip. apply (image_reads (img s') t P ip (2 + Z.of_nat k) T_FILE); [done..|by apply (im_files _ _ Him)|].
    destruct (proj1 (Forall_lookup _ _) Hu k f Hk) as (_ & _ & Hl & _). lia.
Qed.

End kernel.

(** When the entries fill their blocks exactly, the size that [main] gives the root
    directory has one block more, which the directory does not have. *)
Theorem mkfs_full_directory host_ok hs l
  (Hhost : forall b, 0 <= b < FSSIZE -> host_ok b = true) (Hu : Forall usable hs) (Hn : (length hs <= 198)%nat)
  (Hmod : (2 + Z.of_nat (length hs)) mod 32 = 0) (Hroom : total (files hs) <= nblocks) :
  exists s', main host_ok (Some true) hs l mkfs_start = Ok tt l s' /\
    let x := node (img s') 1 in
    let bn := (2 + Z.of_nat (length hs)) / 32 in in_file x bn /\ file_block (img s') x bn = 0.
Proof.
  destruct (main_ok host_ok Hhost hs l Hu Hn Hroom) as (own & s & s' & R & Hinv & E). exists s'. split; [done|]. intros x bn.
  destruct (root_node_ok s hs Hn) as [Hx Hd]. cbv zeta in Hx, Hd. set (y := (node (img s) 1) <| isize := _ |>) in *.
  assert (Exy : x = y).
  { unfold x. rewrite E. unfold node at 1. rewrite put_block_other by done. by apply put_node_same. }
  destruct (iv_file _ _ _ Hinv 0%nat T_DIR _ eq_refl) as [_ _ _ _ Hm _]. change (1 + Z.of_nat 0) with 1 in Hm.
  rewrite root_length in Hm. assert (EN : nblk (16 * (2 + Z.of_nat (length hs))) = bn) by (unfold nblk, bn; dlia).
  rewrite EN in Hm. split.
  - rewrite Exy. split; [unfold bn; dlia|]. unfold y, BSIZE. cbn [isize upd]. unfold rounded, bn. dlia.
  - rewrite file_block_direct by (unfold bn; dlia). rewrite Exy. apply (mp_zero _ _ _ _ _ _ _ Hm). unfold bn. dlia.
Qed.

(** [ialloc] does not stop at [NINODES]: inode 208 goes into the block of the bitmap,
    and [balloc] writes over it at the end. *)
Theorem ialloc_past_end host_ok s t l used
  (Hhost : forall b, 0 <= b < FSSIZE -> host_ok b = true) (Hg : good s) (Hi : freeinode s = 208) (Hused : 0 <= used < 4096) :
  exists s1 s2 x, itype x = i16 (xshort t) /\
    ialloc host_ok t l s = Ok 208 l s1 /\ img s1 (sb_bmapstart sb0) = store_dinode (img s (sb_bmapstart sb0)) 0 x /\
    balloc host_ok used l s1 = Ok tt l s2 /\ img s2 (sb_bmapstart sb0) = set_bits zeroes (Z.to_nat used).
Proof.
  assert (HF : FSSIZE = 1000) by done. pose proof nmeta_59. pose proof (gd_fb s Hg) as Hfb.
  set (s0 := s <| freeinode := 209 |>). assert (Hg0 : good s0) by (destruct Hg; by split).
  set (x := zero_dinode <| itype := i16 (xshort t) |> <| inlink := i16 (xshort 1) |> <| isize := xint 0 |>).
  set (s1 := s0 <| img := put_block (img s0) 58 (store_dinode (img s0 58) 0 x) |>).
  assert (Hg1 : good s1) by (apply (good_write s0); [done|change (freeblock s0) with (freeblock s); lia]).
  exists s1, (s1 <| img := put_block (img s1) 58 (set_bits zeroes (Z.to_nat used)) |>), x. split; [done|]. split; [|split; [|split]].
  - assert (Hw : winode host_ok 208 x l s0 = Ok tt l s1).
    { unfold winode. erewrite bind_Ok by reflexivity. rewrite (gd_sb s0 Hg0). change (IBLOCK 208 sb0) with 58. change (dip_off 208) with 0.
      cbv zeta. erewrite bind_Ok by (apply (rsect_ok host_ok Hhost); [done|lia]). by apply (wsect_ok host_ok Hhost); [|lia]. }
    unfold ialloc. kstep. rewrite Hi. erewrite bind_Ok by reflexivity. change (u32 (208 + 1)) with 209. fold s0 x.
    by erewrite bind_Ok by exact Hw.
  - apply put_block_same.
  - unfold balloc. change (BSIZE * 8) with 4096. rewrite (proj2 (Z.ltb_lt _ _)) by lia. cbn [negb]. kstep. rewrite (gd_sb s1 Hg1).
    by apply (wsect_ok host_ok Hhost); [|change (sb_bmapstart sb0) with 58; lia].
  - apply put_block_same.
Qed.

(** *** A concrete run *)

(** [_a], of the bytes 1, 2, 3, and the empty file [b]. *)
Definition ex_hosts : list hostfile := [mkHost [95; 97] (Some [[1; 2]; [3]]); mkHost [98] (Some [])].

(** A kernel on the disk [V] with inodes [i] and [j] loaded. *)
Definition ex_kernel (V : Z -> block) (i j : Z) : fstate :=
  mkFstate (mkLst (cache_with [] V FSSIZE) (demo_log 0 [])) [(node V i) <| idev := 1 |>; (node V j) <| idev := 1 |>] sb0 demo_console [].

Lemma ex_usable : Forall usable ex_hosts.
Proof.
  assert (Hb : Forall (fun b => 0 <= b < 256) [1; 2; 3]) by (repeat constructor; lia).
  apply Forall_cons. split; [|apply Forall_singleton]; unfold usable;
    (split; [by apply (bool_decide_eq_false_1 _)|split; [done|split; [by vm_compute|exact Hb || constructor]]]).
Qed.

Lemma mkfs_image_witness :
  exists s', main (fun _ => true) (Some true) ex_hosts [] mkfs_start = Ok tt [] s' /\
    exists u, readi (fun i => 100 + Z.of_nat i) (fun i => 500 + Z.of_nat i) 99 (fun l t => Sleep 99 l t) 5 1 0 3
      [] (ex_kernel (img s') 1 2) = Ok (3, [1; 2; 3]) [] (set_lb u (ex_kernel (img s') 1 2)).
Proof.
  destruct (mkfs_image (fun i => 100 + Z.of_nat i) (fun i => 500 + Z.of_nat i) 99 (fun l t => Sleep 99 l t) 0 2 5
    (fun _ => true) ex_hosts []) as (s' & R & _ & H); [done|apply ex_usable|cbn; lia|done|by apply (bool_decide_eq_true_1 _)|by vm_compute|].
  exists s'. split; [exact R|].
  destruct (H (ex_kernel (img s') 1 2) [] 0%nat (mkHost [95; 97] (Some [[1; 2]; [3]]))) as [_ Hr]; [|done|].
  { split; [exact (fresh_ok (img s') FSSIZE)|]. split; reflexivity. }
  assert (Hl : loaded (img s') (ex_kernel (img s') 1 2) 1 2) by (eexists; split; [reflexivity|]; repeat split).
  change (len (host_bytes _)) with 3 in Hr.
  change (host_bytes _) with [1; 2; 3] in Hr. change (2 + Z.of_nat 0) with 2 in Hr. exact (Hr 1%nat Hl).
Defined.

End MkfsImage.
